(* ===== verification/_CoqProject ===== *)
-Q . S2P
Prelude.v
Unicode.v
Threads.v
GoStr.v
GoSort.v
GoFmt.v
GoPath.v
Fs.v
QrBundle.v
Mode.v
Bundle.v
Profile.v
ProfileSpec.v
Names.v
NamesStore.v
Claims.v
Forwarder.v
PeerPing.v
PingLoops.v
GoFloat.v
TrustAnchor.v
AnchorGen.v
Reachability.v
Tunnel.v
Uapi.v
Devices.v
Platform.v
DnsAdapter.v
Environ.v
AndroidVpn.v
DnsSystemd.v
DnsScutil.v
DnsNrpt.v
InnerMesh.v
FakeMesh.v
FakeMgmt.v
Dialer.v
MobileBundle.v
Android.v
Ios.v
FileDrop.v
DropServer.v
Ipc.v
Daemon.v
DaemonSpec.v
ProfilePaths.v
NamesService.v
DaemonConc.v
DaemonNetbird.v
DaemonFiles.v
DaemonPeers.v
DaemonIpc.v
IpcServer.v
IpcTransport.v
ServerConc.v
ClientApi.v
StubClient.v
DaemonClient.v
Cli.v
Tools.v
DaemonMain.v
DaemonCli.v
Tray.v
Panes.v
StatusPane.v
SettingsPane.v
ProfilesPane.v
BundlePane.v
DiagnosticsPane.v
DevicesPane.v
Latency.v
Window.v
DaemonGui.v
