(* ===== verification/Prelude.v ===== *)
(** * goat-client, verified

    goat-client is the endpoint of an overlay network: a privileged daemon
    (cmd/goat-clientd) that holds enrollment bundles signed by an offline CA,
    brings up an outer WireGuard tunnel (wg-cp0) and an inner netbird mesh,
    points the host's resolver at a local forwarder that falls back to signed
    name snapshots, and serves a GUI and a command line over JSON-RPC; and two
    mobile clients that do the bundle and the tunnels in process.

    This file holds what every other file uses: results, state passing, step
    relations and their invariants, the tactics [keep_step], [inv_ok] and the
    like. All paths below are under src/.

    ** Files and what they model

    Foundations.
    - Prelude: [result], the [state] and [action] monads, [reachable] and its
      rule induction, [drive] (a deterministic step left to itself).
    - Threads: handlers as sequences of locked stretches, pools of them and
      their interleavings; what every interleaving keeps ([safe]), when a handler
      is a given action ([follows]), and the schedules that run one at a time
      ([serial_step]).
    - Unicode: the case tables behind strings.ToLower and strings.EqualFold.
    - GoStr, GoSort, GoFmt: Go's strings, strconv, net, path/filepath, sort, and
      the texts of values (RFC 3339 and its calendar, base64), as far as the
      source calls them. GoFloat: float64 and float32 and how fmt writes them,
      with the ages, latencies and loss percentages the program shows. GoPath:
      what cleaning and joining paths keeps; paths of URLs.
    - Fs: a file system whose calls may fail and whose machine may crash, with
      write-to-temporary-and-rename.

    Enrollment and its stores.
    - QrBundle: internal/qrbundle (base45, one-QR budget).
    - Bundle: internal/bundle (bundles, signatures, trust roots).
    - Mode: internal/mode (modes, the configuration file).
    - Profile, ProfileSpec: internal/profile (the multi-network store, its
      migration); ProfilePaths: where its files lie.
    - TrustAnchor: internal/trustanchor and the checks of cmd/anchorgen;
      AnchorGen: the source file that command writes.

    Names.
    - Names, NamesStore, Claims: internal/names (snapshots, the fallback
      decision, the store on disk, self-claims).
    - Forwarder: one query of the forwarder, its recovery, one refresh;
      NamesService: service.go, which starts, refreshes and reports them.

    The legs.
    - Tunnel, Uapi, Devices: internal/tunnel (configuration, manager, the text
      interface of wireguard-go, the desktop and mobile tunnels); Platform: the
      commands the desktop tunnel runs on Linux, macOS and Windows.
    - DnsAdapter and DnsSystemd, DnsScutil, DnsNrpt: internal/tunnel/dns.
    - InnerMesh: internal/innermesh (netbird and the fake); FakeMesh: the fake
      with its log; FakeMgmt: fakemgmt and fakesignal, the servers tests run.
    - PeerPing, PingLoops: internal/peerping. Reachability:
      internal/reachability. FileDrop: internal/filedrop; DropServer: its routing.

    The daemon.
    - Ipc: internal/ipc, the wire types and the dispatcher; IpcServer: server.go,
      its connections and their end; IpcTransport: the socket file, who can
      connect to it and whom the daemon obeys, platform by platform; ServerConc:
      the connections as goroutines over the handlers of DaemonConc; Dialer:
      internal/ipc/grpc, the dialer of a management API.
    - Daemon: every handler of internal/daemon/daemon.go as one action on the
      record [Daemon]; DaemonSpec: its theorems.
    - DaemonConc: the same handlers as the stretches between which others run.
    - DaemonNetbird, DaemonFiles, DaemonPeers: the daemon over the real mesh,
      with the file-drop server, with the latency loop.
    - DaemonIpc: the daemon behind the dispatcher, whole sessions of a peer.
    - DaemonMain: cmd/goat-clientd, from its arguments to a serving daemon or an
      exit, and the process that serves up to its end.

    The front ends.
    - ClientApi: the interface ipc.Client; StubClient: the stub behind it;
      DaemonClient: the production client over the dispatcher and the daemon.
    - Cli: cmd/goat-client; DaemonCli: its commands on the daemon. Tools:
      cmd/goat-bundle-qr, cmd/smoke-mint and cmd/smoke-endpoint.
    - Tray, Panes and StatusPane, SettingsPane, ProfilesPane, BundlePane,
      DiagnosticsPane, DevicesPane, Window: internal/ui; Latency: the latency
      chart and the two-column layout; DaemonGui: the tray and the window on the
      daemon.

    Mobile.
    - MobileBundle, Android, Ios: mobile/{android,ios}/GoatClientSDK.
    - AndroidVpn: what the Android SDK and the Kotlin shell hand to each other.
      Environ: the variables a shell sets before the engine starts.

    A Go method that changes its receiver is an [action] on a record with the
    receiver's fields; a function that returns an error is a [result]. Names
    are the source's where Rocq allows it.

    ** How the parts meet

    The daemon is proved against interfaces, and what the source plugs into
    them is proved to satisfy them: [TunnelManager] (the manager of Tunnel over
    [TunnelDevice], which Devices implements), [Mesh] (netbird and the fake),
    [HostDNS] (the three adapters), [Handler] (the daemon, for the dispatcher),
    [PeerConn] (the peer-ping manager). Bundles reach the daemon through the
    profile store, whose invariant is stated on the disk and carries the
    daemon's.

    ** What is proved

    - Authority: a bundle is accepted exactly when a trust root signed it
      ([VerifyBundle_exact]); the store gives back only verified bundles
      whatever fails ([Load_only_verified]); the daemon runs on verified bundles
      only, one handler at a time ([bundles_verified_always]), interleaved
      ([bundles_verified_interleaved]), whatever peers send on however many
      connections ([server_keeps_invariants], [concurrent_server_keeps_order],
      [Serve_unauthorized_inert]) and whatever user they are
      ([whom_the_daemon_obeys]), nothing but a put of a clean path touches the
      inbox ([only_puts_touch_inbox]), and the process serves
      the roots of its file only ([serves_its_roots], [one_shot_import]).
    - State machines: the legs follow the mode as long as the calls run one at a
      time ([legs_follow_mode]; at the end of DaemonConc are the interleavings in
      which they do not); a wanted mesh that failed is retried and recovers
      ([supervisor_recovers]); file server and latency loop follow the mesh; a
      mobile client's status is honest and its Stop ends the run it cancels,
      however many runs overlap ([android_status_honest], [ios_run_clean]).
    - Front ends: the command line and the desktop tell the truth about
      the daemon and change it only as asked ([status_tells_truth],
      [setmode_takes_effect], [desktop_offers_what_runs],
      [gui_idle_changes_nothing], [cli_contract]).
    - Names: fallback answers are signed and never shadow a live one; whatever
      is done to the store's files, it serves only what a root signed
      ([LoadSnapshot_authentic]), and serials only go up ([PutSnapshot_monotone]).
    - Codecs and files: round trips of base45, the configuration file, the
      WireGuard settings and the generated anchors
      ([anchorgen_writes_anchors]); bounds of a QR code and of DNS batches; where
      the store's files lie ([profile_files_distinct]); what the Android VPN
      interface is given ([android_interface_exact]); the bundle behind a printed
      QR code ([qr_command_delivers]); masks ([prefixToMask_exact]), numbers with
      a fraction ([fixed_digits_nearest], [loss_shown]), ages ([AgeHuman_reads]).
    - Refinement: the interleaved handlers are the atomic ones when left alone
      ([stretches_refine_handlers]); a session executes exactly its admitted
      calls ([Serve_executes]); the sample ring is a window.
    - Progress: the process can always end, and ends after a shutdown
      ([process_ends_shut_down]); the supervisor's rounds end with the mesh up if
      the network lets them; a crashed forwarder comes back or says that it did
      not ([rebind_fails_open]); a mobile run returns after its Stop.

    Theorems that show a defect are next to the code they are about: the
    interleavings that go wrong at the end of DaemonConc, the slugs that leave the
    store in ProfilePaths, the routes that do not arrive in AndroidVpn, the runs
    that close each other's mesh in Android and Ios, the cache that is stale in
    NamesStore, the window's stale texts in Window, the server that waits for
    itself in FakeMgmt.

    ** What the theorems take for granted

    - A stretch of a handler of the daemon is one step: it is taken to return. No
      theorem says that a call of netbird, of the system or of the kernel comes
      back, and locks are there only as the borders of stretches.
    - What holds of the daemon's legs and of the host's DNS after a call
      ([legs_follow_mode], [setmode_takes_effect], [host_dns_fails_open]) holds
      when no other handler ran between the stretches of that call. What holds in
      every interleaving is said to.
    - A trusted uid of 0 authorises every peer that can connect, as the source
      has it; theorems about who is refused exclude it, and
      [whom_the_daemon_obeys] has who can connect.
    - The network between two nodes ([link] of FileDrop) may refuse, break off
      and lose the answer; it does not alter what it carries.
    - The freshness of the names store's cache, and only that, needs the other
      writers of its files to write between its operations and with a later
      time each ([names_step]); [any_step] is without such conditions.
    - The prefixes, addresses, resolvers and domains a VPN interface takes are
      those Android accepts ([Accepts] of AndroidVpn), which are not all.

    ** Faults, oracles and bounds

    Whether a system call succeeds is decided by an oracle over the call's
    number; theorems quantify over it, and [crash_disks] are the disks a power
    failure leaves. Libraries are type classes whose laws state documented
    behaviour; every class has an instance in the witnesses. Instants are
    nanoseconds in [Z], with int64 wrap-around written out ([wrap64]) where the
    source multiplies or adds. Fuel appears only where Go loops over its input:
    [trim_left_go] and [load_loop] take the input's length, of which each round
    consumes at least one byte, and [size_unit] divides by 1024 until nothing is
    left.

    ** Not modelled

    - Libraries: netbird's embed client, wireguard-go, miekg/dns, fyne and
      systray, CBOR, JSON, X.509, go-qrcode. They are arguments or classes.
    - The system calls of sockets, named pipes and peer credentials, which succeed
      or not and say who the peer is; what ip, ifconfig, route and netsh do.
    - The log lines of the processes.
    - The widgets of the window. The panes and the command line take the texts of
      numbers with a fraction and of instants as arguments; GoFloat has those of
      fractions, with each operation rounded on its own, which a compiler may fuse.
    - HTTP framing of the file server, the UDP and TCP serving loops
      of the forwarder: requests and queries arrive as values.
    - The Swift shell and the Kotlin shell, apart from the function that builds the
      VPN interface.
    - The handlers of the daemon over the real mesh as interleaved stretches:
      DaemonConc has any mesh, DaemonNetbird one handler at a time. *)
From stdpp Require Import base tactics list gmap strings sorting.
From Stdlib Require Import ZArith Lia.

(** ** Results of fallible Go calls

    A Go function returning [(T, error)] becomes a function into
    [result E T]: [Ok] carries the value of the nil-error return, [Err] the
    error of the other one. *)
Inductive result (E A : Type) : Type :=
  | Ok (a : A)
  | Err (e : E).
Arguments Ok {E A} a.
Arguments Err {E A} e.

#[export] Instance result_ret {E} : MRet (result E) := fun A a => Ok a.
#[export] Instance result_bind {E} : MBind (result E) := fun A B f r =>
  match r with Ok a => f a | Err e => Err e end.

Definition map_err {E F A} (f : E -> F) (r : result E A) : result F A :=
  match r with Ok a => Ok a | Err e => Err (f e) end.

Definition is_ok {E A} (r : result E A) : bool :=
  match r with Ok _ => true | Err _ => false end.

Definition of_option {E A} (e : E) (o : option A) : result E A :=
  match o with Some a => Ok a | None => Err e end.

Lemma bind_Ok {E A B} (f : A -> result E B) (r : result E A) (b : B) :
  (r ≫= f) = Ok b <-> exists a, r = Ok a /\ f a = Ok b.
Proof. destruct r; cbn; naive_solver. Qed.

Lemma map_err_Ok {E F A} (f : E -> F) (r : result E A) (a : A) :
  map_err f r = Ok a <-> r = Ok a.
Proof. destruct r; cbn; naive_solver. Qed.

(** ** State passing

    A handler that mutates the object it is a method of is a function from
    the state to its reply and the new state. *)
Definition state (S A : Type) : Type := S -> A * S.

#[export] Instance state_ret {S} : MRet (state S) := fun A a s => (a, s).
#[export] Instance state_bind {S} : MBind (state S) := fun A B f m s =>
  let '(a, s') := m s in f a s'.

Definition get {S} : state S S := fun s => (s, s).
Definition gets {S A} (f : S -> A) : state S A := fun s => (f s, s).
Definition modify {S} (f : S -> S) : state S unit := fun s => (tt, f s).

(** ** State and errors

    A method that mutates its receiver and returns an error: the state is
    kept on the error return too, with the mutations made until then. *)
Definition action (S E A : Type) : Type := S -> result E A * S.

#[export] Instance action_ret {S E} : MRet (action S E) := fun A a s => (Ok a, s).
#[export] Instance action_bind {S E} : MBind (action S E) := fun A B f m s =>
  match m s with
  | (Ok a, s') => f a s'
  | (Err e, s') => (Err e, s')
  end.

Definition fail {S E A} (e : E) : action S E A := fun s => (Err e, s).
Definition lift {S E A} (r : result E A) : action S E A := fun s => (r, s).
Definition run {S E A} (m : state S A) : action S E A := fun s =>
  let '(a, s') := m s in (Ok a, s').
(** [attempt m] hands the error of [m] to the caller as a value, as [err := f()] does. *)
Definition attempt {S E F A} (m : action S E A) : action S F (result E A) := fun s =>
  let '(r, s') := m s in (Ok r, s').
Definition with_err {S E F A} (f : E -> F) (m : action S E A) : action S F A := fun s =>
  let '(r, s') := m s in (map_err f r, s').

(** The call's error is logged only. *)
Definition ignore {S E F A} (m : action S E A) : action S F unit := _ ← attempt m; mret tt.

Lemma ignore_Ok {E F A S} (m : action S E A) s : ignore (F := F) m s = (Ok tt, (m s).2).
Proof. unfold ignore, mbind, action_bind, attempt. by destruct (m s). Qed.

(** Record update: [set f g d] is [d] with the field [f] changed by [g]. *)
Class Setter {R A} (f : R -> A) := set : (A -> A) -> R -> R.
Arguments set {R A} f {_} _ _.
#[warnings="-postfix-notation-not-level-1"]
Notation "d <| f := v |>" := (set f (fun _ => v) d)
  (at level 12, f at next level, v at level 200, left associativity, format "d  <| f  :=  v |>").

Lemma action_bind_Ok {S E A B} (f : A -> action S E B) (m : action S E A) s b s' :
  (m ≫= f) s = (Ok b, s') <-> exists a s1, m s = (Ok a, s1) /\ f a s1 = (Ok b, s').
Proof.
  unfold mbind, action_bind. destruct (m s) as [[a|e] s1]; split.
  - intros H. by exists a, s1.
  - intros (a' & s1' & [= -> ->] & ?). done.
  - done.
  - by intros (a' & s1' & ? & _).
Qed.

Lemma action_bind_eq {S E A B} (f : A -> action S E B) (m : action S E A) s a s1 :
  m s = (Ok a, s1) -> (m ≫= f) s = f a s1.
Proof. unfold mbind, action_bind. by intros ->. Qed.

Lemma action_bind_err {S E A B} (f : A -> action S E B) (m : action S E A) s e s1 :
  m s = (Err e, s1) -> (m ≫= f) s = (Err e, s1).
Proof. unfold mbind, action_bind. by intros ->. Qed.

Lemma with_err_Ok {S E F A} (f : E -> F) (m : action S E A) s a s' :
  with_err f m s = (Ok a, s') <-> m s = (Ok a, s').
Proof. unfold with_err. destruct (m s) as [[a'|e] s1]; cbn; naive_solver. Qed.

(** ** Integers

    Go's [time.Duration] is an int64 count of nanoseconds; [time.Time.Sub]
    saturates, conversions and products wrap around. *)
Definition int64_min : Z := (- 2 ^ 63)%Z.
Definition int64_max : Z := (2 ^ 63 - 1)%Z.

Definition wrap64 (z : Z) : Z := ((z + 2 ^ 63) mod 2 ^ 64 - 2 ^ 63)%Z.
Definition sat64 (z : Z) : Z := Z.max int64_min (Z.min int64_max z).

Definition second : Z := 1000000000%Z.

Lemma wrap64_small z : (int64_min <= z <= int64_max)%Z -> wrap64 z = z.
Proof. unfold int64_min, int64_max, wrap64. intros ?. rewrite Z.mod_small; lia. Qed.

Lemma wrap64_range z : (int64_min <= wrap64 z <= int64_max)%Z.
Proof.
  unfold int64_min, int64_max, wrap64.
  pose proof (Z.mod_pos_bound (z + 2 ^ 63) (2 ^ 64) ltac:(lia)). lia.
Qed.

Lemma wrap64_le z : (0 <= z)%Z -> (wrap64 z <= z)%Z.
Proof.
  unfold wrap64. intros ?.
  pose proof (Z.mod_le (z + 2 ^ 63) (2 ^ 64) ltac:(lia) ltac:(lia)). lia.
Qed.

Lemma sat64_range z : (int64_min <= sat64 z <= int64_max)%Z.
Proof. unfold sat64, int64_min, int64_max. lia. Qed.

Lemma sat64_small z : (int64_min <= z <= int64_max)%Z -> sat64 z = z.
Proof. unfold sat64, int64_min, int64_max. lia. Qed.

(** [time.Time.Sub] on instants given in nanoseconds. *)
Definition time_sub (t u : Z) : Z := sat64 (t - u)%Z.

(** time.Unix(sec, 0): the seconds since year 1 are an int64. *)
Definition unixToInternal : Z := 62135596800%Z.
Definition time_unix (sec : Z) : Z :=
  ((wrap64 (sec + unixToInternal) - unixToInternal) * second)%Z.

Lemma time_unix_small sec :
  (0 <= sec <= int64_max - unixToInternal)%Z -> time_unix sec = (sec * second)%Z.
Proof.
  intros Hs. unfold time_unix. rewrite wrap64_small; [lia|].
  unfold int64_min, int64_max, unixToInternal in *. lia.
Qed.

(** ** First match in a slice

    [find_first] is the [for ... range] loop that returns at the first
    element satisfying a test. *)
Fixpoint find_first {A} (f : A -> bool) (l : list A) : option A :=
  match l with
  | [] => None
  | x :: l' => if f x then Some x else find_first f l'
  end.

Lemma find_first_Some {A} (f : A -> bool) (l : list A) x :
  find_first f l = Some x ->
  f x = true /\ exists l1 l2, l = l1 ++ x :: l2 /\ Forall (fun y => f y = false) l1.
Proof.
  induction l as [|y l IH]; cbn; [done|].
  destruct (f y) eqn:E.
  - intros [= ->]. split; [done|]. by exists [], l.
  - intros (Hx & l1 & l2 & -> & Hl)%IH. split; [done|].
    exists (y :: l1), l2. split; [done|]. by constructor.
Qed.

Lemma find_first_None {A} (f : A -> bool) (l : list A) :
  find_first f l = None <-> Forall (fun y => f y = false) l.
Proof.
  induction l as [|y l IH]; cbn; [naive_solver|].
  rewrite Forall_cons. destruct (f y) eqn:E; [naive_solver congruence|naive_solver].
Qed.

Lemma find_first_elem {A} (f : A -> bool) (l : list A) x :
  find_first f l = Some x -> x ∈ l /\ f x = true.
Proof.
  intros (Hx & l1 & l2 & -> & _)%find_first_Some. split; [|done]. set_solver.
Qed.

Lemma find_first_is_Some {A} (f : A -> bool) (l : list A) :
  is_Some (find_first f l) <-> exists x, x ∈ l /\ f x = true.
Proof.
  split.
  - intros [x Hx%find_first_elem]. naive_solver.
  - intros (x & Hx & Hf). destruct (find_first f l) eqn:E; [done|].
    apply find_first_None in E. rewrite Forall_forall in E.
    specialize (E x Hx). congruence.
Qed.

Lemma forallb_Forall {A} (f : A -> bool) (l : list A) : forallb f l = true <-> Forall (fun x => f x = true) l.
Proof. induction l as [|x l IH]; cbn; [done|]. by rewrite andb_true_iff, IH, Forall_cons. Qed.

(** The prefix of length at most [n] kept by a [if len(l) > n { l = l[:n] }]
    guard is [take n]. *)
Lemma length_take_le {A} (n : nat) (l : list A) : length (take n l) <= n.
Proof. rewrite length_take. lia. Qed.

(** The last [n] elements: what a buffer cut at its front keeps. *)
Definition lastn {A} (n : nat) (l : list A) : list A := drop (length l - n) l.
Lemma lastn_app_lastn {A} n (l l' : list A) : lastn n (lastn n l ++ l') = lastn n (l ++ l').
Proof.
  unfold lastn. rewrite !length_app, length_drop.
  destruct (Nat.le_gt_cases (length l) n) as [Hle|Hgt].
  - replace (length l - n) with 0 by lia. cbn [drop]. f_equal. lia.
  - replace (length l + length l' - n) with ((length l - n) + length l') by lia.
    rewrite <-drop_drop, (drop_app_le l l') by lia. f_equal. lia.
Qed.
Lemma length_lastn {A} n (l : list A) : length (lastn n l) = Nat.min n (length l).
Proof. unfold lastn. rewrite length_drop. lia. Qed.
Lemma lastn_lastn {A} n m (l : list A) : n <= m -> lastn n (lastn m l) = lastn n l.
Proof. intros Hn. unfold lastn. rewrite length_drop, drop_drop. f_equal. lia. Qed.
Lemma lastn_all {A} n (l : list A) : length l <= n -> lastn n l = l.
Proof. intros Hn. unfold lastn. by replace (length l - n) with 0 by lia. Qed.

(** ** Reachability

    The reflexive transitive closure of a step relation, with the induction
    principle for invariants. *)
Inductive reachable {S L : Type} (step : S -> L -> S -> Prop) (init : S -> Prop) : S -> Prop :=
  | reach_init s : init s -> reachable step init s
  | reach_step s l s' : reachable step init s -> step s l s' -> reachable step init s'.

Lemma reachable_invariant {S L} (step : S -> L -> S -> Prop) (init P : S -> Prop) :
  (forall s, init s -> P s) ->
  (forall s l s', P s -> step s l s' -> P s') ->
  forall s, reachable step init s -> P s.
Proof. induction 3; eauto. Qed.

(** ** A deterministic step left to itself

    [drive] runs a step over a sequence of what it meets, staying put where it
    is blocked; a step that lowers a rank ends within that many. *)
Definition drive {W E} (step : E -> W -> option W) (w : W) (es : list E) : W :=
  foldl (fun w e => default w (step e w)) w es.

Lemma drive_ends {W E} (step : E -> W -> option W) (rank : W -> nat) (P : W -> Prop) :
  (forall e w, P w -> 0 < rank w -> exists w', step e w = Some w' /\ rank w' < rank w /\ P w') ->
  (forall e w, rank w = 0 -> step e w = None) ->
  forall es w, P w -> rank w <= length es -> rank (drive step w es) = 0 /\ P (drive step w es).
Proof.
  intros Hstep Hend es. induction es as [|e es IH]; intros w Hw Hr; [cbn in *; split; [lia|done]|].
  cbn. destruct (decide (rank w = 0)) as [H0|H0].
  - rewrite (Hend e w H0). apply IH; [done|cbn [default]; rewrite H0; lia].
  - destruct (Hstep e w Hw) as (w' & -> & Hlt & Hw'); [lia|]. apply IH; [done|cbn in *; lia].
Qed.

Lemma drive_reachable {W E L} (step : E -> W -> option W) (R : W -> L -> W -> Prop) (lab : E -> L) init es w :
  (forall e w w', step e w = Some w' -> R w (lab e) w') -> reachable R init w -> reachable R init (drive step w es).
Proof.
  intros Hs. revert w. induction es as [|e es IH]; intros w Hw; [done|]. cbn. apply IH.
  destruct (step e w) as [w'|] eqn:E1; [|done]. exact (reach_step _ _ w (lab e) w' Hw (Hs _ _ _ E1)).
Qed.

(** ** Automation *)

(** Case analysis on the discriminees of the matches of the goal, keeping the
    equations and closing the branches they contradict. *)
Ltac case_all :=
  repeat (case_match; simplify_eq/=); try done.

(** Splits the hypotheses that say a bind or a [map_err] returned [Ok]. *)
Ltac inv_ok :=
  repeat match goal with
  | H : (_ ≫= _) = Ok _ |- _ => apply bind_Ok in H as (? & ? & ?)
  | H : map_err _ _ = Ok _ |- _ => apply map_err_Ok in H
  | H : Ok _ = Ok _ |- _ => injection H as H; subst
  | H : Err _ = Ok _ |- _ => discriminate H
  end.

Create HintDb goat discriminated.
#[export] Hint Resolve wrap64_range sat64_range length_take_le : goat.
