(* ===== verification/Unicode.v ===== *)
(** Case mapping of runes: the tables behind [unicode.ToLower] and
    [unicode.SimpleFold] (Unicode 15.0, which Go 1.25 has), as ranges.

    A range (lo, hi, stride, to) maps the runes lo, lo + stride, ... up to hi to
    to, to + stride, ...; a rune in no range is its own image. *)
From stdpp Require Import base tactics list.
From Stdlib Require Import NArith Lia.
Local Open Scope N_scope.
Local Open Scope list_scope.

Definition case_range : Type := N * N * N * N.

Definition in_range (r : N) (x : case_range) : bool :=
  let '(lo, hi, stride, _) := x in (lo <=? r) && (r <=? hi) && ((r - lo) mod stride =? 0).
Fixpoint map_case (l : list case_range) (r : N) : N :=
  match l with
  | [] => r
  | x :: l => if in_range r x then let '(lo, _, _, to) := x in to + (r - lo) else map_case l r
  end.

(** [unicode.ToLower] above ASCII. *)
Definition lower_ranges : list case_range :=
  [(192,214,1,224); (216,222,1,248); (256,302,2,257); (304,304,1,105); (306,310,2,307); (313,327,2,314);
   (330,374,2,331); (376,376,1,255); (377,381,2,378); (385,385,1,595); (386,388,2,387); (390,390,1,596);
   (391,391,1,392); (393,394,1,598); (395,395,1,396); (398,398,1,477); (399,399,1,601); (400,400,1,603);
   (401,401,1,402); (403,403,1,608); (404,404,1,611); (406,406,1,617); (407,407,1,616); (408,408,1,409);
   (412,412,1,623); (413,413,1,626); (415,415,1,629); (416,420,2,417); (422,422,1,640); (423,423,1,424);
   (425,425,1,643); (428,428,1,429); (430,430,1,648); (431,431,1,432); (433,434,1,650); (435,437,2,436);
   (439,439,1,658); (440,440,1,441); (444,444,1,445); (452,452,1,454); (453,453,1,454); (455,455,1,457);
   (456,456,1,457); (458,458,1,460); (459,475,2,460); (478,494,2,479); (497,497,1,499); (498,500,2,499);
   (502,502,1,405); (503,503,1,447); (504,542,2,505); (544,544,1,414); (546,562,2,547); (570,570,1,11365);
   (571,571,1,572); (573,573,1,410); (574,574,1,11366); (577,577,1,578); (579,579,1,384); (580,580,1,649);
   (581,581,1,652); (582,590,2,583); (880,882,2,881); (886,886,1,887); (895,895,1,1011); (902,902,1,940);
   (904,906,1,941); (908,908,1,972); (910,911,1,973); (913,929,1,945); (931,939,1,963); (975,975,1,983);
   (984,1006,2,985); (1012,1012,1,952); (1015,1015,1,1016); (1017,1017,1,1010); (1018,1018,1,1019);
   (1021,1023,1,891); (1024,1039,1,1104); (1040,1071,1,1072); (1120,1152,2,1121); (1162,1214,2,1163);
   (1216,1216,1,1231); (1217,1229,2,1218); (1232,1326,2,1233); (1329,1366,1,1377); (4256,4293,1,11520);
   (4295,4295,1,11559); (4301,4301,1,11565); (5024,5103,1,43888); (5104,5109,1,5112); (7312,7354,1,4304);
   (7357,7359,1,4349); (7680,7828,2,7681); (7838,7838,1,223); (7840,7934,2,7841); (7944,7951,1,7936);
   (7960,7965,1,7952); (7976,7983,1,7968); (7992,7999,1,7984); (8008,8013,1,8000); (8025,8031,2,8017);
   (8040,8047,1,8032); (8072,8079,1,8064); (8088,8095,1,8080); (8104,8111,1,8096); (8120,8121,1,8112);
   (8122,8123,1,8048); (8124,8124,1,8115); (8136,8139,1,8050); (8140,8140,1,8131); (8152,8153,1,8144);
   (8154,8155,1,8054); (8168,8169,1,8160); (8170,8171,1,8058); (8172,8172,1,8165); (8184,8185,1,8056);
   (8186,8187,1,8060); (8188,8188,1,8179); (8486,8486,1,969); (8490,8490,1,107); (8491,8491,1,229);
   (8498,8498,1,8526); (8544,8559,1,8560); (8579,8579,1,8580); (9398,9423,1,9424); (11264,11311,1,11312);
   (11360,11360,1,11361); (11362,11362,1,619); (11363,11363,1,7549); (11364,11364,1,637); (11367,11371,2,11368);
   (11373,11373,1,593); (11374,11374,1,625); (11375,11375,1,592); (11376,11376,1,594); (11378,11378,1,11379);
   (11381,11381,1,11382); (11390,11391,1,575); (11392,11490,2,11393); (11499,11501,2,11500);
   (11506,11506,1,11507); (42560,42604,2,42561); (42624,42650,2,42625); (42786,42798,2,42787);
   (42802,42862,2,42803); (42873,42875,2,42874); (42877,42877,1,7545); (42878,42886,2,42879);
   (42891,42891,1,42892); (42893,42893,1,613); (42896,42898,2,42897); (42902,42920,2,42903); (42922,42922,1,614);
   (42923,42923,1,604); (42924,42924,1,609); (42925,42925,1,620); (42926,42926,1,618); (42928,42928,1,670);
   (42929,42929,1,647); (42930,42930,1,669); (42931,42931,1,43859); (42932,42946,2,42933); (42948,42948,1,42900);
   (42949,42949,1,642); (42950,42950,1,7566); (42951,42953,2,42952); (42960,42960,1,42961); (42966,42968,2,42967);
   (42997,42997,1,42998); (65313,65338,1,65345); (66560,66599,1,66600); (66736,66771,1,66776);
   (66928,66938,1,66967); (66940,66954,1,66979); (66956,66962,1,66995); (66964,66965,1,67003);
   (68736,68786,1,68800); (71840,71871,1,71872); (93760,93791,1,93792); (125184,125217,1,125218)]%N.

(** The least member of the [unicode.SimpleFold] orbit, above ASCII. *)
Definition fold_ranges : list case_range :=
  [(224,246,1,192); (248,254,1,216); (257,303,2,256); (307,311,2,306); (314,328,2,313); (331,375,2,330);
   (376,376,1,255); (378,382,2,377); (383,383,1,83); (387,389,2,386); (392,392,1,391); (396,396,1,395);
   (402,402,1,401); (409,409,1,408); (417,421,2,416); (424,424,1,423); (429,429,1,428); (432,432,1,431);
   (436,438,2,435); (441,441,1,440); (445,445,1,444); (453,453,1,452); (454,454,1,452); (456,456,1,455);
   (457,457,1,455); (459,459,1,458); (460,460,1,458); (462,476,2,461); (477,477,1,398); (479,495,2,478);
   (498,498,1,497); (499,499,1,497); (501,501,1,500); (502,502,1,405); (503,503,1,447); (505,543,2,504);
   (544,544,1,414); (547,563,2,546); (572,572,1,571); (573,573,1,410); (578,578,1,577); (579,579,1,384);
   (583,591,2,582); (595,595,1,385); (596,596,1,390); (598,599,1,393); (601,601,1,399); (603,603,1,400);
   (608,608,1,403); (611,611,1,404); (616,616,1,407); (617,617,1,406); (623,623,1,412); (626,626,1,413);
   (629,629,1,415); (640,640,1,422); (643,643,1,425); (648,648,1,430); (649,649,1,580); (650,651,1,433);
   (652,652,1,581); (658,658,1,439); (881,883,2,880); (887,887,1,886); (921,921,1,837); (924,924,1,181);
   (940,940,1,902); (941,943,1,904); (945,952,1,913); (953,953,1,837); (954,955,1,922); (956,956,1,181);
   (957,961,1,925); (962,962,1,931); (963,971,1,931); (972,972,1,908); (973,974,1,910); (976,976,1,914);
   (977,977,1,920); (981,981,1,934); (982,982,1,928); (983,983,1,975); (985,1007,2,984); (1008,1008,1,922);
   (1009,1009,1,929); (1011,1011,1,895); (1012,1012,1,920); (1013,1013,1,917); (1016,1016,1,1015);
   (1017,1017,1,1010); (1019,1019,1,1018); (1021,1023,1,891); (1072,1103,1,1040); (1104,1119,1,1024);
   (1121,1153,2,1120); (1163,1215,2,1162); (1218,1230,2,1217); (1231,1231,1,1216); (1233,1327,2,1232);
   (1377,1414,1,1329); (5112,5117,1,5104); (7296,7296,1,1042); (7297,7297,1,1044); (7298,7298,1,1054);
   (7299,7300,1,1057); (7301,7301,1,1058); (7302,7302,1,1066); (7303,7303,1,1122); (7312,7354,1,4304);
   (7357,7359,1,4349); (7681,7829,2,7680); (7835,7835,1,7776); (7838,7838,1,223); (7841,7935,2,7840);
   (7944,7951,1,7936); (7960,7965,1,7952); (7976,7983,1,7968); (7992,7999,1,7984); (8008,8013,1,8000);
   (8025,8031,2,8017); (8040,8047,1,8032); (8072,8079,1,8064); (8088,8095,1,8080); (8104,8111,1,8096);
   (8120,8121,1,8112); (8122,8123,1,8048); (8124,8124,1,8115); (8126,8126,1,837); (8136,8139,1,8050);
   (8140,8140,1,8131); (8152,8153,1,8144); (8154,8155,1,8054); (8168,8169,1,8160); (8170,8171,1,8058);
   (8172,8172,1,8165); (8184,8185,1,8056); (8186,8187,1,8060); (8188,8188,1,8179); (8486,8486,1,937);
   (8490,8490,1,75); (8491,8491,1,197); (8526,8526,1,8498); (8560,8575,1,8544); (8580,8580,1,8579);
   (9424,9449,1,9398); (11312,11359,1,11264); (11361,11361,1,11360); (11362,11362,1,619); (11363,11363,1,7549);
   (11364,11364,1,637); (11365,11365,1,570); (11366,11366,1,574); (11368,11372,2,11367); (11373,11373,1,593);
   (11374,11374,1,625); (11375,11375,1,592); (11376,11376,1,594); (11379,11379,1,11378); (11382,11382,1,11381);
   (11390,11391,1,575); (11393,11491,2,11392); (11500,11502,2,11499); (11507,11507,1,11506); (11520,11557,1,4256);
   (11559,11559,1,4295); (11565,11565,1,4301); (42561,42569,2,42560); (42570,42570,1,7304); (42571,42571,1,7304);
   (42573,42605,2,42572); (42625,42651,2,42624); (42787,42799,2,42786); (42803,42863,2,42802);
   (42874,42876,2,42873); (42877,42877,1,7545); (42879,42887,2,42878); (42892,42892,1,42891); (42893,42893,1,613);
   (42897,42899,2,42896); (42903,42921,2,42902); (42922,42922,1,614); (42923,42923,1,604); (42924,42924,1,609);
   (42925,42925,1,620); (42926,42926,1,618); (42928,42928,1,670); (42929,42929,1,647); (42930,42930,1,669);
   (42933,42947,2,42932); (42948,42948,1,42900); (42949,42949,1,642); (42950,42950,1,7566); (42952,42954,2,42951);
   (42961,42961,1,42960); (42967,42969,2,42966); (42998,42998,1,42997); (43859,43859,1,42931);
   (43888,43967,1,5024); (65345,65370,1,65313); (66600,66639,1,66560); (66776,66811,1,66736);
   (66967,66977,1,66928); (66979,66993,1,66940); (66995,67001,1,66956); (67003,67004,1,66964);
   (68800,68850,1,68736); (71872,71903,1,71840); (93792,93823,1,93760); (125218,125251,1,125184)]%N.

(** [unicode.ToLower]. *)
Definition lower_rune (r : N) : N :=
  if r <? 128 then if (65 <=? r) && (r <=? 90) then r + 32 else r else map_case lower_ranges r.
(** The runes with one image are the ones [strings.EqualFold] takes for equal. *)
Definition fold_rune (r : N) : N :=
  if r <? 128 then if (97 <=? r) && (r <=? 122) then r - 32 else r else map_case fold_ranges r.

(** A range's images are at least its first. *)
Lemma map_case_above b l r :
  forallb (fun x : case_range => b <=? x.2) l = true -> b <= r -> b <= map_case l r.
Proof.
  induction l as [|[[[lo hi] stride] to] l IH]; [done|]. cbn [forallb map_case]. intros [Hto Hl]%andb_prop Hr.
  apply N.leb_le in Hto. cbn in Hto. destruct (in_range _ _); [lia|by apply IH].
Qed.

(** A lower-case image is no ASCII upper-case letter. *)
Lemma lower_rune_not_upper r : lower_rune r < 65 \/ 90 < lower_rune r.
Proof.
  unfold lower_rune. destruct (N.ltb_spec r 128).
  - destruct (N.leb_spec 65 r), (N.leb_spec r 90); cbn; lia.
  - right. apply N.lt_le_trans with 91; [lia|]. apply map_case_above; [reflexivity|lia].
Qed.
Lemma lower_rune_ascii r : r < 128 -> lower_rune r = if (65 <=? r) && (r <=? 90) then r + 32 else r.
Proof. intros H. unfold lower_rune. by destruct (N.ltb_spec r 128); [|lia]. Qed.
