(* ===== verification/Threads.v ===== *)
(** Handlers that run at the same time.

    A handler holds a lock, or the lock of an object it calls, only for a
    stretch; between two stretches any other handler may run. [prog] is a
    handler as the sequence of its stretches, each a function of the shared
    state; [alone] runs it without interruption, and a [pool] is the handlers
    under way, any of which may take the next step. *)
From stdpp Require Import base tactics list.
From Stdlib Require Import Lia.
From S2P Require Import Prelude.
Local Open Scope list_scope.

(** [Do f k]: a stretch that found the state [s] leaves [f s] and goes on with
    [k s]. *)
Inductive prog (S A : Type) : Type :=
  | Ret (a : A)
  | Do (f : S -> S) (k : S -> prog S A).
Arguments Ret {S A} a.
Arguments Do {S A} f k.

Fixpoint andthen {S A B} (p : prog S A) (k : A -> prog S B) : prog S B :=
  match p with
  | Ret a => k a
  | Do f q => Do f (fun s => andthen (q s) k)
  end.

(** A handler that returns an error or a value. *)
Definition proc (S E A : Type) : Type := prog S (result E A).
#[export] Instance proc_ret {S E} : MRet (proc S E) := fun A a => Ret (Ok a).
#[export] Instance proc_bind {S E} : MBind (proc S E) := fun A B k p =>
  andthen p (fun r => match r with Ok a => k a | Err e => Ret (Err e) end).

(** One stretch. *)
Definition step {S E A} (m : action S E A) : proc S E A := Do (fun s => (m s).2) (fun s => Ret (m s).1).
Definition pfail {S E A} (e : E) : proc S E A := Ret (Err e).
Definition plift {S E A} (r : result E A) : proc S E A := Ret r.
Definition pattempt {S E F A} (p : proc S E A) : proc S F (result E A) := andthen p (fun r => Ret (Ok r)).
Definition pwith_err {S E F A} (g : E -> F) (p : proc S E A) : proc S F A := andthen p (fun r => Ret (map_err g r)).
Definition pignore {S E F A} (p : proc S E A) : proc S F unit := andthen p (fun _ => Ret (Ok tt)).

(** ** Uninterrupted *)
Fixpoint alone {S A} (p : prog S A) : state S A := fun s =>
  match p with
  | Ret a => (a, s)
  | Do f k => alone (k s) (f s)
  end.

Lemma alone_andthen {S A B} (p : prog S A) (k : A -> prog S B) s :
  alone (andthen p k) s = let '(a, s') := alone p s in alone (k a) s'.
Proof. revert s. induction p as [a|f q IH]; intros s; [done|apply IH]. Qed.

Lemma alone_step_bind {S E A B} (m : action S E A) (k : A -> proc S E B) s :
  alone (step m ≫= k) s = match m s with (Ok a, s') => alone (k a) s' | (Err e, s') => (Err e, s') end.
Proof. unfold mbind, proc_bind. rewrite alone_andthen. cbn. by destruct (m s) as [[a|e] s']. Qed.

(** From a state in [P], the stretches of [p] do to what [view] shows of the
    state what the action [m] does, and end in [Q]. *)
Definition follows {S T E A} (view : S -> T) (P Q : S -> Prop) (p : proc S E A) (m : action T E A) : Prop :=
  forall s, P s -> Q (alone p s).2 /\ m (view s) = ((alone p s).1, view (alone p s).2).

Section follows.
Context {S T : Type} (view : S -> T).
Abbreviation follows := (follows view).
Implicit Types (P Q R : S -> Prop).

Lemma follows_pre {E A} P P' Q (p : proc S E A) m :
  (forall s, P' s -> P s) -> follows P Q p m -> follows P' Q p m.
Proof. intros HP Hp s Hs. by apply Hp, HP. Qed.
Lemma follows_post {E A} P Q Q' (p : proc S E A) m :
  (forall s, Q s -> Q' s) -> follows P Q p m -> follows P Q' p m.
Proof. intros HQ Hp s Hs. destruct (Hp s Hs). auto. Qed.
Lemma follows_ret {E A} P (a : A) : follows P P (mret a : proc S E A) (mret a).
Proof. done. Qed.
Lemma follows_fail {E A} P (e : E) : follows P P (pfail e : proc S E A) (fail e).
Proof. done. Qed.
Lemma follows_lift {E A} P (r : result E A) : follows P P (plift r) (lift r).
Proof. done. Qed.
Lemma follows_bind {E A B} P R Q (p : proc S E A) (k : A -> proc S E B) m f :
  follows P R p m -> (forall s, R s -> Q s) -> (forall a, follows R Q (k a) (f a)) -> follows P Q (p ≫= k) (m ≫= f).
Proof.
  intros Hp HRQ Hk s Hs. destruct (Hp s Hs) as [Hi Hm]. unfold mbind, proc_bind, action_bind. rewrite alone_andthen, Hm.
  destruct (alone p s) as [[a|e] s']; cbn in *; [by apply Hk|auto].
Qed.
Lemma follows_attempt {E F A} P Q (p : proc S E A) m :
  follows P Q p m -> follows P Q (pattempt p : proc S F _) (attempt m).
Proof.
  intros Hp s Hs. destruct (Hp s Hs) as [Hi Hm]. unfold pattempt, attempt. rewrite alone_andthen, Hm.
  by destruct (alone p s).
Qed.
Lemma follows_with_err {E F A} P Q (g : E -> F) (p : proc S E A) m :
  follows P Q p m -> follows P Q (pwith_err g p) (with_err g m).
Proof.
  intros Hp s Hs. destruct (Hp s Hs) as [Hi Hm]. unfold pwith_err, with_err. rewrite alone_andthen, Hm.
  by destruct (alone p s).
Qed.
Lemma follows_ignore {E F A} P Q (p : proc S E A) m :
  follows P Q p m -> follows P Q (pignore p : proc S F unit) (ignore m).
Proof.
  intros Hp s Hs. destruct (Hp s Hs) as [Hi Hm]. rewrite ignore_Ok. unfold pignore. rewrite alone_andthen, Hm.
  by destruct (alone p s).
Qed.
(** A stretch that reads the state: the rest may use what it read. *)
Lemma follows_read {E A} P Q (k : S -> proc S E A) (f : T -> action T E A) :
  (forall s0, P s0 -> follows (fun s => s = s0) Q (k s0) (f (view s0))) ->
  follows P Q (step (run get) ≫= k) (run get ≫= f).
Proof. intros Hk s Hs. by apply (Hk s Hs s). Qed.
End follows.

(** ** What every interleaving keeps

    [safe I Q p]: whatever the others do between the stretches of [p], as long
    as they keep [I], each stretch keeps it too, and a result is in [Q]. *)
Fixpoint safe {S A} (I : S -> Prop) (Q : A -> Prop) (p : prog S A) : Prop :=
  match p with
  | Ret a => Q a
  | Do f k => forall s, I s -> I (f s) /\ safe I Q (k s)
  end.

(** The value of a call that worked is in [Q]. *)
Definition okay {E A} (Q : A -> Prop) (r : result E A) : Prop := forall a, r = Ok a -> Q a.
Abbreviation safely I Q p := (safe I (okay Q) p).

Section safe.
Context {S : Type} (I : S -> Prop).

Lemma safe_andthen {A B} (Q : A -> Prop) (R : B -> Prop) (p : prog S A) k :
  safe I Q p -> (forall a, Q a -> safe I R (k a)) -> safe I R (andthen p k).
Proof.
  intros Hp Hk. induction p as [a|f q IH]; [by apply Hk|]. intros s Hs. destruct (Hp s Hs) as [H1 H2].
  split; [done|]. by apply IH.
Qed.
Lemma safe_weaken {A} (Q R : A -> Prop) (p : prog S A) : (forall a, Q a -> R a) -> safe I Q p -> safe I R p.
Proof. intros HQ. induction p as [a|f q IH]; [apply HQ|]. intros Hp s Hs. destruct (Hp s Hs). auto. Qed.

Lemma safe_bind {E A B} (Q : A -> Prop) (R : B -> Prop) (p : proc S E A) k :
  safely I Q p -> (forall a, Q a -> safely I R (k a)) -> safely I R (p ≫= k).
Proof. intros Hp Hk. eapply safe_andthen; [exact Hp|]. intros [a|e] Ha; [by apply Hk, Ha|by intros ? [=]]. Qed.
Lemma safe_ret {E A} (Q : A -> Prop) (a : A) : Q a -> safely I Q (mret a : proc S E A).
Proof. by intros ? ? [= <-]. Qed.
Lemma safe_fail {E A} (Q : A -> Prop) (e : E) : safely I Q (pfail e : proc S E A).
Proof. by intros ? [=]. Qed.
Lemma safe_lift {E A} (Q : A -> Prop) (r : result E A) : (forall a, r = Ok a -> Q a) -> safely I Q (plift r : proc S E A).
Proof. done. Qed.
Lemma safe_step {E A} (Q : A -> Prop) (m : action S E A) :
  (forall s, I s -> I (m s).2 /\ okay Q (m s).1) -> safely I Q (step m).
Proof. done. Qed.
Lemma safe_attempt {E F A} (Q : A -> Prop) (p : proc S E A) : safely I Q p -> safely I (okay Q) (pattempt p : proc S F _).
Proof. intros Hp. eapply safe_andthen; [exact Hp|]. by intros r Hr ? [= <-]. Qed.
Lemma safe_with_err {E F A} (Q : A -> Prop) (g : E -> F) (p : proc S E A) : safely I Q p -> safely I Q (pwith_err g p).
Proof. intros Hp. eapply safe_andthen; [exact Hp|]. intros r Hr a Ha%map_err_Ok. by apply Hr. Qed.
Lemma safe_ignore {E F A} (Q : A -> Prop) (p : proc S E A) :
  safely I Q p -> safely I (fun _ => True) (pignore p : proc S F unit).
Proof. intros Hp. by eapply safe_andthen. Qed.
End safe.

(** ** Handlers under way *)
Record pool (S A : Type) := mkpool { shared : S; threads : list (prog S A) }.
Arguments mkpool {S A} _ _.
Arguments shared {S A} _.
Arguments threads {S A} _.

(** Thread [i] takes a step; [None] when it has returned or there is no such thread. *)
Definition advance {S A} (i : nat) (w : pool S A) : option (pool S A) :=
  match threads w !! i with
  | Some (Do f k) => Some (mkpool (f (shared w)) (<[i := k (shared w)]> (threads w)))
  | _ => None
  end.

(** A new handler starts, or one that is under way goes on. *)
Inductive pool_move (S A : Type) := Start (p : prog S A) | Go (i : nat).
Arguments Start {S A} p.
Arguments Go {S A} i.
Definition pool_do {S A} (m : pool_move S A) (w : pool S A) : option (pool S A) :=
  match m with
  | Start p => Some (mkpool (shared w) (threads w ++ [p]))
  | Go i => advance i w
  end.
Section pools.
Context {S A : Type}.
Implicit Types (w : pool S A).

(** [may p]: [p] is one of the handlers that are started. *)
Inductive pool_step (may : prog S A -> Prop) : pool S A -> pool_move S A -> pool S A -> Prop :=
  | pool_start w p w' : may p -> pool_do (Start p) w = Some w' -> pool_step may w (Start p) w'
  | pool_go w i w' : pool_do (Go i) w = Some w' -> pool_step may w (Go i) w'.

Lemma advance_inv i w w' :
  advance i w = Some w' -> exists f k, threads w !! i = Some (Do f k) /\
    w' = mkpool (f (shared w)) (<[i := k (shared w)]> (threads w)).
Proof. unfold advance. destruct (threads w !! i) as [[a|f k]|]; [done| |done]. intros [= <-]. eauto. Qed.

(** If every handler is safe, every interleaving keeps [I], and what a handler
    returns is in [Q]. *)
Lemma pool_safe (I : S -> Prop) (Q : A -> Prop) may (init : pool S A -> Prop) :
  (forall p, may p -> safe I Q p) ->
  (forall w, init w -> I (shared w) /\ Forall (safe I Q) (threads w)) ->
  forall w, reachable (pool_step may) init w -> I (shared w) /\ Forall (safe I Q) (threads w).
Proof.
  intros Hmay Hinit. apply reachable_invariant; [done|]. intros w l w' [Hi Ht] Hw.
  destruct Hw as [w p w' Hp [= <-]|w i w' (f & k & Hl & ->)%advance_inv]; cbn.
  - split; [done|]. apply Forall_app. split; [done|]. constructor; [auto|constructor].
  - pose proof (proj1 (Forall_lookup _ _) Ht i _ Hl (shared w) Hi) as [H1 H2]. split; [done|]. by apply Forall_insert.
Qed.
End pools.

(** *** One at a time

    A handler starts when none is under way. *)
Definition returned {S A} (p : prog S A) : bool := match p with Ret _ => true | Do _ _ => false end.
Definition at_rest {S A} (w : pool S A) : bool := forallb returned (threads w).

Section serial.
Context {S A : Type}.
Implicit Types (w : pool S A).
Inductive serial_step (may : prog S A -> Prop) : pool S A -> pool_move S A -> pool S A -> Prop :=
  | serial_start w p w' : may p -> at_rest w = true -> pool_do (Start p) w = Some w' -> serial_step may w (Start p) w'
  | serial_go w i w' : pool_do (Go i) w = Some w' -> serial_step may w (Go i) w'.

Lemma at_rest_Forall w : at_rest w = true <-> Forall (fun p => returned p = true) (threads w).
Proof. unfold at_rest. rewrite forallb_forall, List.Forall_forall. done. Qed.

(** Thread [i] is the only one under way, and left to itself ends in [I]. *)
Definition ends_in (I : S -> Prop) (i : nat) w : Prop :=
  exists p, threads w !! i = Some p /\ I (alone p (shared w)).2 /\
    forall j q, j <> i -> threads w !! j = Some q -> returned q = true.

Lemma ends_in_step (I : S -> Prop) i j w w' : ends_in I i w -> advance j w = Some w' -> ends_in I i w'.
Proof.
  intros (p & Hp & HI & Ho) (f & k & Hj & ->)%advance_inv. destruct (decide (j = i)) as [->|Hne].
  - rewrite Hp in Hj. injection Hj as ->. exists (k (shared w)). cbn. split_and!.
    + apply list_lookup_insert_eq. by eapply lookup_lt_Some.
    + exact HI.
    + intros j q Hne. rewrite list_lookup_insert_ne by done. by apply Ho.
  - by specialize (Ho j _ Hne Hj).
Qed.

(** What every handler keeps when it runs by itself holds whenever none is under
    way. *)
Lemma serial_rest (I : S -> Prop) may (init : pool S A -> Prop) :
  (forall p s, may p -> I s -> I (alone p s).2) -> (forall w, init w -> at_rest w = true /\ I (shared w)) ->
  forall w, reachable (serial_step may) init w -> at_rest w = true -> I (shared w).
Proof.
  intros Hmay Hinit w Hw.
  cut ((at_rest w = true /\ I (shared w)) \/ exists i, ends_in I i w).
  { intros [[_ ?]|(i & p & Hp & HI & _)]; [done|]. intros Hr. apply at_rest_Forall in Hr.
    rewrite Forall_lookup in Hr. specialize (Hr i p Hp). by destruct p. }
  induction Hw as [w H0|w l w' _ IH Hs]; [left; by apply Hinit|].
  destruct Hs as [w p w' Hp Hr [= <-]|w i w' Ha].
  - assert (I (shared w)) as HI.
    { destruct IH as [[_ ?]|(i & q & Hq & HI & _)]; [done|]. apply at_rest_Forall in Hr.
      rewrite Forall_lookup in Hr. specialize (Hr i q Hq). by destruct q. }
    right. exists (length (threads w)), p. cbn. split_and!; [by apply list_lookup_middle|by apply Hmay|].
    intros j q Hne Hj. apply at_rest_Forall in Hr. rewrite Forall_lookup in Hr. apply (Hr j).
    apply lookup_app_Some in Hj as [Hj|[Hle Hj]]; [done|]. destruct (j - length (threads w)) eqn:E; [lia|done].
  - cbn in Ha. destruct IH as [[Hr _]|(j & Hj)].
    + apply advance_inv in Ha as (f & k & Hl & ->). apply at_rest_Forall in Hr. rewrite Forall_lookup in Hr.
      by specialize (Hr i _ Hl).
    + right. exists j. by eapply ends_in_step.
Qed.
End serial.
