(* ===== verification/GoStr.v ===== *)
(** Go strings: the functions of the packages [strings], [strconv], [net] and
    [path/filepath] that goat-client calls, on byte strings.

    A Go string is a sequence of bytes; here it is Stdlib's [string], whose
    characters are the bytes. [strings.TrimSpace] is modelled in full (the
    Unicode spaces are their UTF-8 encodings), and so are [strings.ToLower] and
    [strings.EqualFold], rune by rune over the case tables of Unicode.v. [%q] is
    modelled on ASCII. *)
From stdpp Require Import base tactics list gmap strings pretty.
From Stdlib Require Import ZArith Ascii Lia.
From Stdlib Require String.
From S2P Require Import Prelude Unicode.
Local Open Scope list_scope.

Abbreviation chars := (list ascii).
Abbreviation s2l := String.list_ascii_of_string.
Abbreviation l2s := String.string_of_list_ascii.

Lemma s2l_l2s l : s2l (l2s l) = l.
Proof. apply String.list_ascii_of_string_of_list_ascii. Qed.
Lemma l2s_s2l s : l2s (s2l s) = s.
Proof. apply String.string_of_list_ascii_of_string. Qed.
Lemma s2l_inj s t : s2l s = s2l t -> s = t.
Proof. intros H. by rewrite <-(l2s_s2l s), H, l2s_s2l. Qed.
Lemma s2l_app s t : s2l (s +:+ t) = s2l s ++ s2l t.
Proof.
  induction s as [|c s IH]; [done|].
  change (c :: s2l (s +:+ t) = c :: s2l s ++ s2l t). by rewrite IH.
Qed.
Lemma l2s_app k l : l2s (k ++ l) = l2s k +:+ l2s l.
Proof. apply s2l_inj. by rewrite s2l_app, !s2l_l2s. Qed.
Create Rewrite HintDb gostr.
#[export] Hint Rewrite s2l_l2s l2s_s2l s2l_app : gostr.

(** ** Characters *)
Definition code (c : ascii) : N := N_of_ascii c.

Definition is_upper (c : ascii) : bool := (65 <=? code c)%N && (code c <=? 90)%N.
Definition is_lower (c : ascii) : bool := (97 <=? code c)%N && (code c <=? 122)%N.
Definition is_digit (c : ascii) : bool := (48 <=? code c)%N && (code c <=? 57)%N.

Definition lower_ascii (c : ascii) : ascii :=
  if is_upper c then ascii_of_N (code c + 32) else c.

Lemma code_lower_ascii c :
  code (lower_ascii c) = if is_upper c then (code c + 32)%N else code c.
Proof.
  unfold lower_ascii, is_upper. destruct (_ && _) eqn:E; [|done].
  unfold code in *. apply N_ascii_embedding.
  apply andb_true_iff in E as [?%N.leb_le ?%N.leb_le]. lia.
Qed.

Lemma is_upper_lower_ascii c : is_upper (lower_ascii c) = false.
Proof.
  unfold is_upper at 1. rewrite code_lower_ascii. destruct (is_upper c) eqn:E; [|exact E].
  unfold is_upper in E. apply andb_true_iff in E as [?%N.leb_le ?%N.leb_le].
  apply andb_false_iff. right. apply N.leb_gt. lia.
Qed.

Lemma lower_ascii_idem c : lower_ascii (lower_ascii c) = lower_ascii c.
Proof. unfold lower_ascii at 1. by rewrite is_upper_lower_ascii. Qed.

(** ** Prefixes and suffixes *)
Fixpoint strip_prefix (p l : chars) : option chars :=
  match p, l with
  | [], _ => Some l
  | c :: p', d :: l' => if Ascii.eqb c d then strip_prefix p' l' else None
  | _ :: _, [] => None
  end.

Definition strip_suffix (p l : chars) : option chars :=
  reverse <$> strip_prefix (reverse p) (reverse l).

Lemma strip_prefix_Some p l r : strip_prefix p l = Some r <-> l = p ++ r.
Proof.
  revert l. induction p as [|c p IH]; intros l; cbn; [naive_solver|].
  destruct l as [|d l]; [naive_solver|].
  destruct (Ascii.eqb_spec c d) as [->|]; [rewrite IH|]; naive_solver.
Qed.

Lemma strip_suffix_Some p l r : strip_suffix p l = Some r <-> l = r ++ p.
Proof.
  unfold strip_suffix. rewrite fmap_Some. split.
  - intros (r' & H%strip_prefix_Some & ->).
    by rewrite <-(reverse_involutive l), H, reverse_app, reverse_involutive.
  - intros ->. exists (reverse r). by rewrite strip_prefix_Some, reverse_app, reverse_involutive.
Qed.

Definition has_prefix (s p : string) : bool := bool_decide (is_Some (strip_prefix (s2l p) (s2l s))).
Definition has_suffix (s p : string) : bool := bool_decide (is_Some (strip_suffix (s2l p) (s2l s))).
Definition trim_prefix (s p : string) : string :=
  match strip_prefix (s2l p) (s2l s) with Some r => l2s r | None => s end.
Definition trim_suffix (s p : string) : string :=
  match strip_suffix (s2l p) (s2l s) with Some r => l2s r | None => s end.

Lemma has_suffix_spec s p : has_suffix s p = true <-> exists r, s = r +:+ p.
Proof.
  unfold has_suffix. rewrite bool_decide_eq_true. split.
  - intros [r H%strip_suffix_Some]. exists (l2s r). apply s2l_inj.
    by rewrite s2l_app, s2l_l2s.
  - intros [r ->]. exists (s2l r). apply strip_suffix_Some. by rewrite s2l_app.
Qed.

Lemma has_prefix_spec s p : has_prefix s p = true <-> exists r, s = p +:+ r.
Proof.
  unfold has_prefix. rewrite bool_decide_eq_true. split.
  - intros [r H%strip_prefix_Some]. exists (l2s r). apply s2l_inj.
    by rewrite s2l_app, s2l_l2s.
  - intros [r ->]. exists (s2l r). apply strip_prefix_Some. by rewrite s2l_app.
Qed.

Lemma trim_suffix_app r p : trim_suffix (r +:+ p) p = r.
Proof.
  unfold trim_suffix. rewrite (proj2 (strip_suffix_Some _ _ (s2l r))); [apply l2s_s2l|].
  apply s2l_app.
Qed.

(** ** Trimming

    [trim_seqs seqs] removes the byte sequences of [seqs] from the left for
    as long as one is a prefix; the fuel is the length, since no sequence of
    the tables below is empty. *)
Fixpoint strip_any (seqs : list chars) (l : chars) : option chars :=
  match seqs with
  | [] => None
  | p :: seqs' => match strip_prefix p l with Some r => Some r | None => strip_any seqs' l end
  end.

Fixpoint trim_left_go (seqs : list chars) (fuel : nat) (l : chars) : chars :=
  match fuel with
  | O => l
  | S n => match strip_any seqs l with Some r => trim_left_go seqs n r | None => l end
  end.

Definition trim_left (seqs : list chars) (l : chars) : chars := trim_left_go seqs (length l) l.
Definition trim_right (seqs : list chars) (l : chars) : chars :=
  reverse (trim_left (reverse <$> seqs) (reverse l)).
Definition trim_seqs (seqs : list chars) (l : chars) : chars := trim_right seqs (trim_left seqs l).

(** [unicode.IsSpace]: the ASCII spaces, then the UTF-8 encodings of U+0085,
    U+00A0, U+1680, U+2000 to U+200A, U+2028, U+2029, U+202F, U+205F and
    U+3000. *)
Definition bytes_of (l : list N) : chars := ascii_of_N <$> l.
Definition spaces : list chars := bytes_of <$>
  [[9]; [10]; [11]; [12]; [13]; [32]; [194; 133]; [194; 160]; [225; 154; 128];
   [226; 128; 128]; [226; 128; 129]; [226; 128; 130]; [226; 128; 131];
   [226; 128; 132]; [226; 128; 133]; [226; 128; 134]; [226; 128; 135];
   [226; 128; 136]; [226; 128; 137]; [226; 128; 138]; [226; 128; 168];
   [226; 128; 169]; [226; 128; 175]; [226; 129; 159]; [227; 128; 128]]%N.

Definition trim_space (s : string) : string := l2s (trim_seqs spaces (s2l s)).

(** [strings.Trim(s, cutset)] for an ASCII cutset. *)
Definition trim (s cutset : string) : string :=
  l2s (trim_seqs ((fun c => [c]) <$> s2l cutset) (s2l s)).

Definition nonempty_seqs (seqs : list chars) : Prop := Forall (fun p => p <> []) seqs.

Lemma strip_any_Some seqs l r :
  strip_any seqs l = Some r -> exists p, p ∈ seqs /\ l = p ++ r.
Proof.
  induction seqs as [|p seqs IH]; cbn; [done|].
  destruct (strip_prefix p l) eqn:E.
  - intros [= ->]. apply strip_prefix_Some in E. exists p. set_solver.
  - intros (q & ? & ->)%IH. exists q. set_solver.
Qed.

Lemma strip_any_None seqs l :
  strip_any seqs l = None <-> forall p r, p ∈ seqs -> l <> p ++ r.
Proof.
  induction seqs as [|p seqs IH]; cbn.
  { split; [intros _ p r Hp; set_solver|done]. }
  destruct (strip_prefix p l) eqn:E.
  - apply strip_prefix_Some in E. split; [done|]. intros H. exfalso. eapply H; [|exact E]. set_solver.
  - rewrite IH. split; [|set_solver]. intros H q r [->|Hq]%list_elem_of_In%in_inv Heq.
    + apply strip_prefix_Some in Heq. congruence.
    + apply list_elem_of_In in Hq. naive_solver.
Qed.

Lemma strip_any_app seqs l k r : strip_any seqs l = Some r -> is_Some (strip_any seqs (l ++ k)).
Proof.
  intros (p & Hp & ->)%strip_any_Some.
  destruct (strip_any seqs ((p ++ r) ++ k)) eqn:E; [done|].
  rewrite strip_any_None in E. exfalso. apply (E p (r ++ k)); [done|]. by rewrite app_assoc.
Qed.

Lemma trim_left_go_suffix seqs n l : exists k, l = k ++ trim_left_go seqs n l.
Proof.
  revert l. induction n as [|n IH]; intros l; cbn; [by exists []|].
  destruct (strip_any seqs l) as [r|] eqn:E; [|by exists []].
  apply strip_any_Some in E as (p & _ & ->). destruct (IH r) as [k Hk].
  exists (p ++ k). by rewrite <-app_assoc, <-Hk.
Qed.

Lemma trim_left_go_done seqs n l :
  nonempty_seqs seqs -> length l <= n -> strip_any seqs (trim_left_go seqs n l) = None.
Proof.
  intros Hne. revert l. induction n as [|n IH]; intros l Hl; cbn.
  - destruct l; [|cbn in Hl; lia]. apply strip_any_None. intros p r Hp Heq.
    unfold nonempty_seqs in Hne. rewrite Forall_forall in Hne.
    symmetry in Heq. apply app_eq_nil in Heq as [-> _]. by apply (Hne [] Hp).
  - destruct (strip_any seqs l) as [r|] eqn:E; [|done].
    apply IH. apply strip_any_Some in E as (p & Hp & ->).
    unfold nonempty_seqs in Hne. rewrite Forall_forall in Hne. specialize (Hne p Hp).
    rewrite length_app in Hl. destruct p; [done|]. cbn in Hl. lia.
Qed.

Lemma trim_left_id seqs l : strip_any seqs l = None -> trim_left seqs l = l.
Proof. unfold trim_left. destruct (length l); cbn; [done|]. by intros ->. Qed.

Lemma nonempty_seqs_rev seqs : nonempty_seqs seqs -> nonempty_seqs (reverse <$> seqs).
Proof.
  unfold nonempty_seqs. induction 1 as [|p l Hp _ IH]; cbn; constructor; [|done].
  intros H. apply Hp. by rewrite <-(reverse_involutive p), H.
Qed.

(** The two ends of a trimmed string: no sequence of the table is a prefix
    or a suffix of it. *)
Definition trimmed (seqs : list chars) (l : chars) : Prop :=
  strip_any seqs l = None /\ strip_any (reverse <$> seqs) (reverse l) = None.

Lemma trim_seqs_trimmed seqs l : nonempty_seqs seqs -> trimmed seqs (trim_seqs seqs l).
Proof.
  intros Hne. unfold trim_seqs, trim_right.
  set (l1 := trim_left seqs l).
  assert (strip_any seqs l1 = None) as H1 by (apply trim_left_go_done; [done|lia]).
  destruct (trim_left_go_suffix (reverse <$> seqs) (length (reverse l1)) (reverse l1)) as [k Hk].
  fold (trim_left (reverse <$> seqs) (reverse l1)) in Hk.
  split.
  - revert Hk. generalize (trim_left (reverse <$> seqs) (reverse l1)) as m. intros m Hk.
    assert (l1 = reverse m ++ reverse k) as Hl1.
    { by rewrite <-reverse_app, <-Hk, reverse_involutive. }
    destruct (strip_any seqs (reverse m)) eqn:E; [|done].
    destruct (strip_any_app seqs (reverse m) (reverse k) _ E) as [? E']. congruence.
  - rewrite reverse_involutive. apply trim_left_go_done; [by apply nonempty_seqs_rev|].
    unfold trim_left. lia.
Qed.

Lemma trim_seqs_id seqs l : trimmed seqs l -> trim_seqs seqs l = l.
Proof.
  intros [H1 H2]. unfold trim_seqs, trim_right.
  rewrite (trim_left_id seqs l H1), (trim_left_id _ _ H2). apply reverse_involutive.
Qed.

(** Trimming stops at a character that starts no sequence of the table. *)
Definition starts_none (seqs : list chars) (c : ascii) : bool :=
  forallb (fun p => match p with d :: _ => negb (Ascii.eqb d c) | [] => false end) seqs.

Lemma strip_any_starts_none seqs c l : starts_none seqs c = true -> strip_any seqs (c :: l) = None.
Proof.
  induction seqs as [|[|d p] seqs IH]; cbn; [done..|].
  intros [Hd%negb_true_iff Hs]%andb_true_iff. by rewrite Hd, IH.
Qed.

Lemma trim_left_go_None seqs n l : strip_any seqs l = None -> trim_left_go seqs n l = l.
Proof. destruct n; cbn; [done|]. by intros ->. Qed.

Lemma trim_left_once seqs c l :
  strip_any seqs (c :: l) = Some l -> strip_any seqs l = None -> trim_left seqs (c :: l) = l.
Proof. intros H1 H2. unfold trim_left. cbn [length trim_left_go]. rewrite H1. by apply trim_left_go_None. Qed.

Lemma trimmed_edges seqs c l d :
  starts_none seqs c = true -> starts_none (reverse <$> seqs) d = true ->
  trimmed seqs (c :: l ++ [d]).
Proof.
  intros Hc Hd. split; [by apply strip_any_starts_none|].
  rewrite app_comm_cons, reverse_app. by apply strip_any_starts_none.
Qed.

Lemma trim_space_after_space l :
  trimmed spaces l -> trim_seqs spaces (" "%char :: l) = l.
Proof.
  intros [H1 H2]. unfold trim_seqs, trim_right. rewrite (trim_left_once spaces " "%char l) by done.
  rewrite (trim_left_id _ _ H2). apply reverse_involutive.
Qed.

Lemma spaces_nonempty : nonempty_seqs spaces.
Proof. unfold nonempty_seqs, spaces, bytes_of. cbn. repeat constructor; done. Qed.

Lemma trim_space_idem s : trim_space (trim_space s) = trim_space s.
Proof.
  unfold trim_space. rewrite s2l_l2s. f_equal.
  apply trim_seqs_id, trim_seqs_trimmed, spaces_nonempty.
Qed.

Lemma cutset_nonempty (cs : chars) : nonempty_seqs ((fun c => [c]) <$> cs).
Proof. unfold nonempty_seqs. induction cs; cbn; constructor; done. Qed.

Definition eq_code (c : ascii) (n : N) : bool := (code c =? n)%N.

(** ** UTF-8 and case mapping *)

(** [utf8.DecodeRune]: the rune a string starts with, if its bytes are the
    encoding of one, and how many bytes follow the first. *)
Definition between (lo c hi : N) : bool := (lo <=? c)%N && (c <=? hi)%N.
Definition decode_rune (l : chars) : option N * nat :=
  match l with
  | [] => (None, 0)
  | c :: l =>
    let c := code c in
    if (c <? 128)%N then (Some c, 0)
    else
      match code <$> l with
      | d :: l =>
        if between 194 c 223 then
          if between 128 d 191 then (Some ((c - 192) * 64 + (d - 128))%N, 1) else (None, 0)
        else
          match l with
          | e :: l =>
            if between 224 c 239 then
              if between (if (c =? 224)%N then 160 else 128) d (if (c =? 237)%N then 159 else 191) && between 128 e 191
              then (Some ((c - 224) * 4096 + (d - 128) * 64 + (e - 128))%N, 2) else (None, 0)
            else
              match l with
              | f :: _ =>
                if between 240 c 244 && between (if (c =? 240)%N then 144 else 128) d (if (c =? 244)%N then 143 else 191) &&
                   between 128 e 191 && between 128 f 191
                then (Some ((c - 240) * 262144 + (d - 128) * 4096 + (e - 128) * 64 + (f - 128))%N, 3) else (None, 0)
              | [] => (None, 0)
              end
          | [] => (None, 0)
          end
      | [] => (None, 0)
      end
  end.

(** The runes of a string, as [for range] yields them: U+FFFD for a byte that
    starts no encoding. *)
Definition RuneError : N := 65533.
Fixpoint runes_go (skip : nat) (l : chars) : list N :=
  match l with
  | [] => []
  | _ :: l' =>
    match skip with
    | S k => runes_go k l'
    | 0 => let '(r, more) := decode_rune l in default RuneError r :: runes_go more l'
    end
  end.
Definition runes (l : chars) : list N := runes_go 0 l.

(** [utf8.AppendRune]. *)
Definition encode_rune (r : N) : chars :=
  if (r <? 128)%N then [ascii_of_N r]
  else ascii_of_N <$>
    (if (r <? 2048)%N then [192 + r / 64; 128 + r mod 64]
     else if (r <? 65536)%N then [224 + r / 4096; 128 + r / 64 mod 64; 128 + r mod 64]
     else [240 + r / 262144 mod 8; 128 + r / 4096 mod 64; 128 + r / 64 mod 64; 128 + r mod 64])%N.

(** [strings.ToLower]. *)
Definition lower (l : chars) : chars := runes l ≫= fun r => encode_rune (lower_rune r).
Definition to_lower (s : string) : string := l2s (lower (s2l s)).

(** [strings.EqualFold]. *)
Definition equal_fold (s t : string) : bool :=
  bool_decide (fold_rune <$> runes (s2l s) = fold_rune <$> runes (s2l t)).

Lemma code_ascii_of_N n : (n < 256)%N -> code (ascii_of_N n) = n.
Proof. apply N_ascii_embedding. Qed.

Lemma high_byte b n k : (n < k)%N -> (128 <= b)%N -> (b + k <= 256)%N -> (128 <= code (ascii_of_N (b + n)))%N.
Proof. intros H1 H2 H3. rewrite code_ascii_of_N; lia. Qed.
Lemma mod_64 n : (n mod 64 < 64)%N.
Proof. by apply N.mod_lt. Qed.

(** The bytes of the longer encodings are above ASCII. *)
Lemma encode_rune_high r : (128 <= r)%N -> Forall (fun c => (128 <= code c)%N) (encode_rune r).
Proof.
  intros H. unfold encode_rune. destruct (N.ltb_spec r 128); [lia|].
  assert (forall n, (128 <= code (ascii_of_N (128 + n mod 64)))%N) as Hlow by (intros n; by apply (high_byte _ _ 64 (mod_64 n))).
  destruct (N.ltb_spec r 2048); [|destruct (N.ltb_spec r 65536)]; cbv iota; cbn [fmap list_fmap];
    repeat (apply Forall_cons; split; [try apply Hlow|]); try apply Forall_nil_2.
  - apply (high_byte _ _ 32); [by apply N.Div0.div_lt_upper_bound|done..].
  - apply (high_byte _ _ 16); [by apply N.Div0.div_lt_upper_bound|done..].
  - apply (high_byte _ _ 8); [by apply N.mod_lt|done..].
Qed.

Lemma lower_no_upper l : Forall (fun c => is_upper c = false) (lower l).
Proof.
  unfold lower. generalize (runes l) as rs. induction rs as [|r rs IH]; [constructor|].
  cbn. apply Forall_app. split; [|exact IH]. pose proof (lower_rune_not_upper r) as Hr. unfold is_upper.
  destruct (N.ltb_spec (lower_rune r) 128).
  - unfold encode_rune. destruct (N.ltb_spec (lower_rune r) 128); [|lia]. apply Forall_singleton. rewrite code_ascii_of_N by lia.
    apply andb_false_iff. rewrite !N.leb_gt. lia.
  - eapply Forall_impl; [by apply encode_rune_high|]. cbn. intros c Hc. apply andb_false_iff. rewrite !N.leb_gt. lia.
Qed.

(** On ASCII, byte by byte. *)
Abbreviation is_ascii := (Forall (fun c => (code c < 128)%N)).
Lemma runes_ascii l : is_ascii l -> runes l = code <$> l.
Proof.
  unfold runes. induction 1 as [|c l Hc _ IH]; [done|]. cbn [runes_go decode_rune].
  destruct (N.ltb_spec (code c) 128); [|lia]. cbn. by rewrite IH.
Qed.
Lemma encode_lower_ascii c : (code c < 128)%N -> encode_rune (lower_rune (code c)) = [lower_ascii c].
Proof.
  intros Hc. rewrite lower_rune_ascii by done. unfold lower_ascii. fold (is_upper c). unfold encode_rune.
  destruct (is_upper c) eqn:E.
  - unfold is_upper in E. apply andb_prop in E as [?%N.leb_le ?%N.leb_le]. by destruct (N.ltb_spec (code c + 32) 128); [|lia].
  - destruct (N.ltb_spec (code c) 128); [|lia]. unfold code. by rewrite ascii_N_embedding.
Qed.
Lemma lower_ascii_map l : is_ascii l -> lower l = lower_ascii <$> l.
Proof.
  intros H. unfold lower. rewrite runes_ascii by done. induction H as [|c l Hc _ IH]; [done|].
  cbn. rewrite encode_lower_ascii by done. cbn. by f_equal.
Qed.

Example to_lower_letters : to_lower "ÄRGER-ΣİK" = "ärger-σik".
Proof. vm_compute. reflexivity. Qed.
Example equal_fold_letters : equal_fold "Kſς" "kSΣ" = true /\ equal_fold "İ" "i" = false.
Proof. split; vm_compute; reflexivity. Qed.

(** [lower] is the identity where there is nothing to map. *)
Definition plain (c : ascii) : Prop := (code c < 128)%N /\ is_upper c = false.

Lemma lower_plain l : Forall plain l -> lower l = l.
Proof.
  intros H. rewrite lower_ascii_map by (eapply Forall_impl; [exact H|by intros c []]).
  induction H as [|c l [_ Hu] _ IH]; [done|]. cbn. rewrite IH. unfold lower_ascii. by rewrite Hu.
Qed.

(** ** Splitting and joining at one byte *)
Fixpoint split (sep : ascii) (l : chars) : list chars :=
  match l with
  | [] => [[]]
  | c :: l' =>
    if Ascii.eqb c sep then [] :: split sep l'
    else match split sep l' with
         | w :: ws => (c :: w) :: ws
         | [] => [[c]]
         end
  end.

Fixpoint join (sep : chars) (ws : list chars) : chars :=
  match ws with
  | [] => []
  | [w] => w
  | w :: ws' => w ++ sep ++ join sep ws'
  end.

Fixpoint cut (sep : ascii) (l : chars) : option (chars * chars) :=
  match l with
  | [] => None
  | c :: l' =>
    if Ascii.eqb c sep then Some ([], l')
    else '(h, t) ← cut sep l'; Some (c :: h, t)
  end.

(** Cut at the last occurrence. *)
Definition cut_last (sep : ascii) (l : chars) : option (chars * chars) :=
  '(t, h) ← cut sep (reverse l); Some (reverse h, reverse t).

Definition contains (c : ascii) (l : chars) : bool := bool_decide (c ∈ l).

Lemma split_nosep sep w : sep ∉ w -> split sep w = [w].
Proof.
  induction w as [|c w IH]; [done|]. rewrite not_elem_of_cons. intros [Hc Hw]. cbn.
  destruct (Ascii.eqb_spec c sep); [congruence|]. by rewrite IH.
Qed.

Lemma split_app sep w l : sep ∉ w -> split sep (w ++ sep :: l) = w :: split sep l.
Proof.
  induction w as [|c w IH]; cbn.
  - intros _. by rewrite Ascii.eqb_refl.
  - rewrite not_elem_of_cons. intros [Hc Hw].
    destruct (Ascii.eqb_spec c sep); [congruence|]. by rewrite IH.
Qed.

Lemma split_join sep ws :
  ws <> [] -> Forall (fun w => sep ∉ w) ws -> split sep (join [sep] ws) = ws.
Proof.
  induction ws as [|w ws IH]; [done|]. intros _ [Hw Hws]%Forall_cons.
  destruct ws as [|w' ws]; [by apply split_nosep|].
  change (join [sep] (w :: w' :: ws)) with (w ++ sep :: join [sep] (w' :: ws)).
  rewrite split_app by done. by rewrite IH.
Qed.

Lemma join_split sep l : join [sep] (split sep l) = l.
Proof.
  induction l as [|c l IH]; [done|]. cbn [split].
  destruct (Ascii.eqb_spec c sep) as [->|].
  - destruct (split sep l) eqn:E; [|by rewrite <-IH].
    destruct l as [|d l]; cbn in E; [done|]. by repeat case_match.
  - destruct (split sep l) as [|w [|w' ws]] eqn:E; cbn in *; subst; done.
Qed.

Lemma cut_Some sep l h t : cut sep l = Some (h, t) <-> l = h ++ sep :: t /\ sep ∉ h.
Proof.
  revert h t. induction l as [|c l IH]; intros h t; cbn.
  { split; [done|]. intros [H _]. by destruct h. }
  destruct (Ascii.eqb_spec c sep) as [->|Hc].
  - split; [intros [= <- <-]; split; [done|apply not_elem_of_nil]|].
    intros [H Hn]. destruct h as [|d h]; cbn in H; [by simplify_eq|].
    simplify_eq. exfalso. apply Hn. apply list_elem_of_here.
  - split.
    + destruct (cut sep l) as [[h' t']|] eqn:E; cbn; [|done]. intros [= <- <-].
      destruct (proj1 (IH h' t') eq_refl) as [-> Hn]. split; [done|].
      apply not_elem_of_cons; naive_solver.
    + intros [H Hn]. destruct h as [|d h]; cbn in H; [simplify_eq|].
      simplify_eq. apply not_elem_of_cons in Hn as [_ Hn].
      rewrite (proj2 (IH h t)); done.
Qed.

Lemma cut_None sep l : cut sep l = None <-> sep ∉ l.
Proof.
  induction l as [|c l IH]; cbn; [split; [intros _; apply not_elem_of_nil|done]|].
  rewrite not_elem_of_cons. destruct (Ascii.eqb_spec c sep) as [->|Hc]; [naive_solver|].
  destruct (cut sep l) as [[h t]|]; cbn; naive_solver.
Qed.

Lemma cut_last_Some sep l h t :
  cut_last sep l = Some (h, t) <-> l = h ++ sep :: t /\ sep ∉ t.
Proof.
  unfold cut_last. split.
  - destruct (cut sep (reverse l)) as [[t' h']|] eqn:E; cbn; [|done]. intros [= <- <-].
    apply cut_Some in E as [E Hn]. split.
    + rewrite <-(reverse_involutive l), E, reverse_app, reverse_cons, <-app_assoc. done.
    + by rewrite elem_of_reverse.
  - intros [-> Hn]. rewrite (proj2 (cut_Some sep _ (reverse t) (reverse h))).
    { cbn. by rewrite !reverse_involutive. }
    split; [|by rewrite elem_of_reverse].
    by rewrite reverse_app, reverse_cons, <-app_assoc.
Qed.

(** ** Quoting: [fmt]'s %q on ASCII *)
Definition hex_digit (n : N) : ascii :=
  ascii_of_N (if (n <? 10)%N then 48 + n else 87 + n).

Definition escape (c : ascii) : chars :=
  let n := code c in
  if (n =? 34)%N then bytes_of [92; 34]%N
  else if (n =? 92)%N then bytes_of [92; 92]%N
  else if (n =? 7)%N then bytes_of [92; 97]%N
  else if (n =? 8)%N then bytes_of [92; 98]%N
  else if (n =? 12)%N then bytes_of [92; 102]%N
  else if (n =? 10)%N then bytes_of [92; 110]%N
  else if (n =? 13)%N then bytes_of [92; 114]%N
  else if (n =? 9)%N then bytes_of [92; 116]%N
  else if (n =? 11)%N then bytes_of [92; 118]%N
  else if (n <? 32)%N || (n =? 127)%N then
    bytes_of [92; 120]%N ++ [hex_digit (n / 16); hex_digit (n mod 16)]
  else [c].

Definition dquote : ascii := ascii_of_N 34.
Definition quote (l : chars) : chars := dquote :: (l ≫= escape) ++ [dquote].

(** Bytes that %q writes as themselves. *)
Definition unescaped (c : ascii) : bool :=
  (32 <=? code c)%N && negb (eq_code c 34 || (eq_code c 92 || eq_code c 127)).

Lemma escape_unescaped c : unescaped c = true -> escape c = [c].
Proof.
  unfold unescaped, eq_code, escape. intros [H1%N.leb_le H2%negb_true_iff]%andb_true_iff.
  apply orb_false_iff in H2 as [H2 [H3 H4]%orb_false_iff].
  rewrite H2, H3. apply N.eqb_neq in H4.
  rewrite !(proj2 (N.eqb_neq _ _)) by lia. rewrite (proj2 (N.ltb_ge _ _)) by lia. done.
Qed.

Lemma quote_unescaped l :
  Forall (fun c => unescaped c = true) l -> quote l = dquote :: l ++ [dquote].
Proof.
  intros H. unfold quote. do 2 f_equal.
  induction H as [|c l Hc _ IH]; [done|]. cbn. by rewrite (escape_unescaped c Hc), IH.
Qed.

(** ** Numbers in decimal *)
Definition itoa (z : Z) : string := pretty z.

Lemma pretty_N_go_digits x s c : c ∈ s2l (pretty_N_go x s) -> is_digit c = true \/ c ∈ s2l s.
Proof.
  revert s. induction (N.lt_wf_0 x) as [x _ IH]; intros s.
  assert (x = 0 \/ 0 < x)%N as [->|Hx] by lia; [rewrite pretty_N_go_0; auto|].
  rewrite pretty_N_go_step by done. intros [Hd|Hc]%IH; [by left| |by apply N.div_lt].
  cbn in Hc. apply elem_of_cons in Hc as [->|Hc]; [left|by right].
  unfold pretty_N_char. by repeat case_match.
Qed.

(** Decimal numerals are digits, after a minus sign perhaps. *)
Lemma itoa_chars z c : c ∈ s2l (itoa z) -> is_digit c = true \/ c = "-"%char.
Proof.
  assert (forall n : N, c ∈ s2l (pretty n) -> is_digit c = true) as HN.
  { intros n. unfold pretty, pretty_N. case_decide.
    - intros Hc. apply list_elem_of_singleton in Hc as ->. done.
    - by intros [?|?%elem_of_nil]%pretty_N_go_digits. }
  unfold itoa, pretty, pretty_Z. destruct z as [|p|p]; intros Hc.
  - apply list_elem_of_singleton in Hc as ->. by left.
  - left. by apply (HN (N.pos p)).
  - rewrite s2l_app in Hc. apply elem_of_app in Hc as [Hc|Hc]; [right; by apply list_elem_of_singleton in Hc|].
    left. by apply (HN (N.pos p)).
Qed.
Lemma itoa_clean z (c : ascii) : is_digit c = false -> c <> "-"%char -> c ∉ s2l (itoa z).
Proof. intros Hd Hm [?|?]%itoa_chars; congruence. Qed.

Lemma pretty_N_go_length x s : String.length s <= String.length (pretty_N_go x s).
Proof.
  revert s. induction (N.lt_wf_0 x) as [x _ IH]; intros s.
  assert (x = 0 \/ 0 < x)%N as [->|Hx] by lia; [by rewrite pretty_N_go_0|].
  rewrite pretty_N_go_step by done.
  specialize (IH (x `div` 10)%N ltac:(by apply N.div_lt) (String.String (pretty_N_char (x `mod` 10)) s)). cbn in *. lia.
Qed.

Lemma itoa_nonempty z : itoa z <> "".
Proof.
  assert (forall p : positive, pretty (N.pos p) <> "") as Hp.
  { intros p. unfold pretty, pretty_N. rewrite decide_False, pretty_N_go_step by done.
    pose proof (pretty_N_go_length (N.pos p `div` 10) (String.String (pretty_N_char (N.pos p `mod` 10)) "")) as H.
    intros E. rewrite E in H. cbn in H. lia. }
  unfold itoa, pretty, pretty_Z. destruct z as [|p|p]; [done|apply Hp|]. done.
Qed.

Definition uint64_max : Z := (2 ^ 64 - 1)%Z.

(** [strconv.ParseUint(s, 10, 64)] with its error ignored: 0 on a syntax
    error, the maximum as soon as the digits read overflow. *)
Fixpoint parse_uint_go (n : Z) (l : chars) : Z :=
  match l with
  | [] => n
  | c :: l' =>
    if is_digit c then
      let n' := (n * 10 + (Z.of_N (code c) - 48))%Z in
      if (uint64_max <? n')%Z then uint64_max else parse_uint_go n' l'
    else 0%Z
  end.
Definition parse_uint (s : string) : Z := parse_uint_go 0 (s2l s).

(** [strconv.ParseInt(s, 10, 64)], likewise. *)
Definition parse_int (s : string) : Z :=
  let '(neg, l) := match s2l s with
                   | c :: l => if Ascii.eqb c "-"%char then (true, l)
                               else if Ascii.eqb c "+"%char then (false, l) else (false, c :: l)
                   | [] => (false, [])
                   end in
  let un := parse_uint_go 0 l in
  if neg then Z.max (- 2 ^ 63) (- un) else Z.min (2 ^ 63 - 1) un.

Lemma is_digit_range c : is_digit c = true -> (48 <= Z.of_N (code c) <= 57)%Z.
Proof. unfold is_digit. intros [?%N.leb_le ?%N.leb_le]%andb_true_iff. lia. Qed.

Lemma parse_uint_go_range n l :
  (0 <= n <= uint64_max)%Z -> (0 <= parse_uint_go n l <= uint64_max)%Z.
Proof.
  revert n. induction l as [|c l IH]; intros n Hn; cbn [parse_uint_go]; [done|].
  destruct (is_digit c) eqn:E; [|unfold uint64_max; lia]. apply is_digit_range in E. cbn zeta.
  destruct (Z.ltb_spec uint64_max (n * 10 + (Z.of_N (code c) - 48))%Z); [unfold uint64_max; lia|].
  apply IH. lia.
Qed.

Lemma parse_uint_range s : (0 <= parse_uint s <= uint64_max)%Z.
Proof. apply parse_uint_go_range. unfold uint64_max. lia. Qed.

Lemma pretty_N_char_digit x : (x < 10)%N ->
  is_digit (pretty_N_char x) = true /\ (Z.of_N (code (pretty_N_char x)) - 48 = Z.of_N x)%Z.
Proof.
  intros Hx. assert (x = 0 \/ x = 1 \/ x = 2 \/ x = 3 \/ x = 4 \/ x = 5 \/ x = 6 \/ x = 7 \/ x = 8 \/ x = 9)%N as H by lia.
  by repeat destruct H as [->|H]; [..|subst x].
Qed.

Lemma parse_uint_pretty x s :
  (0 < x)%N -> (Z.of_N x <= uint64_max)%Z ->
  parse_uint_go 0 (s2l (pretty_N_go x s)) = parse_uint_go (Z.of_N x) (s2l s).
Proof.
  revert s. induction (N.lt_wf_0 x) as [x _ IH]; intros s Hx Hm. rewrite pretty_N_go_step by done.
  pose proof (N.div_mod' x 10) as Hd. pose proof (N.mod_lt x 10 ltac:(done)) as Hr.
  destruct (pretty_N_char_digit _ Hr) as [Hdig Hval].
  assert (forall n, (n = 0 \/ n = x `div` 10)%N -> (Z.of_N n * 10 + (Z.of_N (code (pretty_N_char (x `mod` 10))) - 48) = Z.of_N x)%Z ->
    parse_uint_go (Z.of_N n) (s2l (String.String (pretty_N_char (x `mod` 10)) s)) = parse_uint_go (Z.of_N x) (s2l s)) as Hone.
  { intros n _ He. cbn [String.list_ascii_of_string parse_uint_go]. rewrite Hdig. cbn zeta. rewrite He.
    by rewrite (proj2 (Z.ltb_ge uint64_max (Z.of_N x))). }
  destruct (decide (x `div` 10 = 0)%N) as [E|E].
  - rewrite E, pretty_N_go_0. apply (Hone 0%N); [by left|]. rewrite Hval. lia.
  - rewrite IH; [|by apply N.div_lt|lia|unfold uint64_max in *; lia]. apply Hone; [by right|]. rewrite Hval. lia.
Qed.

(** A uint64 reads back. *)
Lemma parse_uint_itoa z : (0 <= z <= uint64_max)%Z -> parse_uint (itoa z) = z.
Proof.
  intros [H0 Hm]. unfold parse_uint, itoa, pretty, pretty_Z. destruct z as [|p|p]; [done| |lia].
  change (parse_uint_go 0 (s2l (pretty (N.pos p))) = Z.pos p). unfold pretty, pretty_N. rewrite decide_False by done. rewrite parse_uint_pretty; [done|lia|done].
Qed.

(** ** host:port *)
Definition join_host_port (host port : string) : string :=
  if contains ":"%char (s2l host)
  then l2s ("["%char :: (s2l host ++ ("]"%char :: ":"%char :: s2l port)))
  else l2s (s2l host ++ (":"%char :: s2l port)).

Definition split_bracketed (rest : chars) : option (string * string) :=
  '(host, after) ← cut "]"%char rest;
  match after with
  | [] => None
  | c :: port =>
    if Ascii.eqb c ":"%char
    then if contains ":"%char port || (contains "["%char rest || contains "]"%char after)
         then None else Some (l2s host, l2s port)
    else None
  end.

Definition split_host_port (s : string) : option (string * string) :=
  match s2l s with
  | [] => None
  | c :: rest =>
    if Ascii.eqb c "["%char then split_bracketed rest
    else
      '(host, port) ← cut_last ":"%char (c :: rest);
      if contains ":"%char host
         || (contains "["%char (c :: rest) || contains "]"%char (c :: rest))
      then None else Some (l2s host, l2s port)
  end.

Definition no_brackets (s : string) : Prop := ("["%char ∉ s2l s) /\ ("]"%char ∉ s2l s).

Lemma contains_false c l : contains c l = false <-> c ∉ l.
Proof. unfold contains. by rewrite bool_decide_eq_false. Qed.
Lemma contains_true c l : contains c l = true <-> c ∈ l.
Proof. unfold contains. by rewrite bool_decide_eq_true. Qed.

Lemma split_join_host_port host port :
  no_brackets host -> no_brackets port -> ":"%char ∉ s2l port ->
  split_host_port (join_host_port host port) = Some (host, port).
Proof.
  intros [Hh1 Hh2] [Hp1 Hp2] Hp. unfold join_host_port, split_host_port.
  destruct (contains ":"%char (s2l host)) eqn:E; rewrite s2l_l2s.
  - rewrite Ascii.eqb_refl. unfold split_bracketed.
    rewrite (proj2 (cut_Some _ _ (s2l host) (":"%char :: s2l port))) by done. cbn [mbind option_bind].
    rewrite Ascii.eqb_refl, !(proj2 (contains_false _ _)) by set_solver. cbn [orb].
    by rewrite !l2s_s2l.
  - apply contains_false in E.
    destruct (s2l host ++ ":"%char :: s2l port) as [|c l] eqn:El; [by destruct (s2l host)|].
    destruct (Ascii.eqb_spec c "["%char) as [->|_].
    { destruct (s2l host); cbn in El; simplify_eq. set_solver. }
    rewrite <-El, (proj2 (cut_last_Some _ _ (s2l host) (s2l port))) by done.
    cbn [mbind option_bind]. rewrite !(proj2 (contains_false _ _)) by set_solver. cbn [orb].
    by rewrite !l2s_s2l.
Qed.

(** ** [filepath.Ext] of a name without separators: from the last dot. *)
Definition ext (s : string) : string :=
  match cut_last "."%char (s2l s) with
  | Some (_, t) => l2s ("."%char :: t)
  | None => ""
  end.

Lemma stem_ext s : trim_suffix s (ext s) +:+ ext s = s.
Proof.
  unfold ext. destruct (cut_last "."%char (s2l s)) as [[h t]|] eqn:E.
  - apply cut_last_Some in E as [E _].
    assert (s = l2s h +:+ l2s ("."%char :: t)) as Hs by (by rewrite <-l2s_app, <-E, l2s_s2l).
    rewrite Hs at 1. by rewrite trim_suffix_app.
  - unfold trim_suffix. change (s2l "") with (@nil ascii).
    rewrite (proj2 (strip_suffix_Some [] _ (s2l s))) by (by rewrite app_nil_r).
    apply s2l_inj. by rewrite s2l_app, s2l_l2s, app_nil_r.
Qed.

(** ** path/filepath on Unix *)

(** One component of [Clean], on the components kept so far, the last first. *)
Definition clean_step (rooted : bool) (acc : list chars) (c : chars) : list chars :=
  if bool_decide (c = []) || bool_decide (c = s2l ".") then acc
  else if bool_decide (c = s2l "..") then
    match acc with
    | [] => if rooted then [] else [c]
    | x :: acc' => if bool_decide (x = c) then c :: acc else acc'
    end
  else c :: acc.

Definition path_clean (p : string) : string :=
  let rooted := has_prefix p "/" in
  let out := join (s2l "/") (reverse (foldl (clean_step rooted) [] (split "/"%char (s2l p)))) in
  if rooted then l2s ("/"%char :: out) else if bool_decide (out = []) then "." else l2s out.

Definition path_join (elems : list string) : string :=
  match filter (fun e => e <> "") elems with
  | [] => ""
  | l => path_clean (l2s (join (s2l "/") (s2l <$> l)))
  end.

Definition path_dir (p : string) : string :=
  match cut_last "/"%char (s2l p) with
  | Some (h, _) => path_clean (l2s h +:+ "/")
  | None => "."
  end.

(** filepath.Base *)
Fixpoint drop_seps (l : chars) : chars :=
  match l with c :: l' => if bool_decide (c = "/"%char) then drop_seps l' else l | [] => [] end.
Definition path_base (p : string) : string :=
  if bool_decide (p = "") then "."
  else
    match drop_seps (reverse (s2l p)) with
    | [] => "/"
    | l => let p := reverse l in
           l2s (match cut_last "/"%char p with Some (_, b) => b | None => p end)
    end.
Example path_base_ok :
  path_base <$> [""; "/"; "//"; "a"; "/tmp/notes.txt"; "/tmp/dir/"; "../x"] =
  ["."; "/"; "/"; "a"; "notes.txt"; "dir"; "x"].
Proof. reflexivity. Qed.
