(* ===== verification/GoSort.v ===== *)
(** Go's package sort.

    [slice_stable] is sort.SliceStable: the stable result is unique, so any
    stable algorithm is a faithful model. sort.Slice promises less: the class
    [SortSlice] states what its documentation says, and the insertion sort is
    one implementation. *)
From stdpp Require Import base tactics list sorting sets strings.
From Stdlib Require Import ZArith Ascii Lia.
From S2P Require Import Prelude GoStr.

(** The [less] functions the package accepts: strict weak orders. *)
Class WeakOrder {A} (less : A -> A -> bool) : Prop := {
  less_asym a b : less a b = true -> less b a = false;
  less_neg_trans a b c : less b a = false -> less c b = false -> less c a = false }.

Definition not_after {A} (less : A -> A -> bool) (a b : A) : Prop := less b a = false.

Fixpoint insert_after {A} (less : A -> A -> bool) (x : A) (l : list A) : list A :=
  match l with
  | [] => [x]
  | y :: l' => if less x y then x :: l else y :: insert_after less x l'
  end.

Definition slice_stable {A} (less : A -> A -> bool) (l : list A) : list A :=
  foldl (fun acc x => insert_after less x acc) [] l.

Class SortSlice := {
  sort_slice : forall {A}, (A -> A -> bool) -> list A -> list A;
  sort_slice_perm {A} (less : A -> A -> bool) l : sort_slice less l ≡ₚ l;
  sort_slice_sorted {A} (less : A -> A -> bool) l :
    WeakOrder less -> StronglySorted (not_after less) (sort_slice less l) }.

Section stable.
Context {A : Type} (less : A -> A -> bool).

Lemma insert_after_perm x l : insert_after less x l ≡ₚ x :: l.
Proof.
  induction l as [|y l IH]; cbn; [done|]. destruct (less x y); [done|].
  rewrite IH. apply Permutation_swap.
Qed.

Lemma slice_stable_app l x : slice_stable less (l ++ [x]) = insert_after less x (slice_stable less l).
Proof. unfold slice_stable. by rewrite foldl_app. Qed.

Lemma slice_stable_perm l : slice_stable less l ≡ₚ l.
Proof.
  induction l as [|x l IH] using rev_ind; [done|].
  by rewrite slice_stable_app, insert_after_perm, IH, <-Permutation_cons_append.
Qed.

Context `{!WeakOrder less}.

#[local] Instance not_after_trans : Transitive (not_after less).
Proof. intros a b c Hab Hbc. unfold not_after in *. by eapply less_neg_trans. Qed.

Lemma insert_after_sorted x l :
  StronglySorted (not_after less) l -> StronglySorted (not_after less) (insert_after less x l).
Proof.
  induction 1 as [|y l Hl IH Hy]; cbn; [by repeat constructor|].
  destruct (less x y) eqn:E.
  - assert (not_after less x y) as Hxy by (by apply less_asym).
    constructor; [by constructor|]. constructor; [done|].
    eapply Forall_impl; [done|]. intros z Hz. by etrans.
  - constructor; [done|]. rewrite insert_after_perm. by constructor.
Qed.

Lemma slice_stable_sorted l : StronglySorted (not_after less) (slice_stable less l).
Proof.
  induction l as [|x l IH] using rev_ind; [constructor|].
  rewrite slice_stable_app. by apply insert_after_sorted.
Qed.

(** Elements no two of which are ordered keep their input order. *)
Lemma slice_stable_filter (P : A -> Prop) `{forall x, Decision (P x)} l :
  (forall a b, P a -> P b -> less a b = false) -> filter P (slice_stable less l) = filter P l.
Proof.
  intros HP. induction l as [|x l IH] using rev_ind; [done|].
  rewrite slice_stable_app, filter_app, <-IH. clear IH.
  pose proof (slice_stable_sorted l) as Hs. induction Hs as [|y k Hk IH Hy]; cbn [insert_after].
  { done. }
  destruct (less x y) eqn:E.
  - assert (P x -> filter P (y :: k) = []) as Hnone.
    { intros Hx. destruct (filter P (y :: k)) as [|z zs] eqn:Ez; [done|]. exfalso.
      assert (z ∈ filter P (y :: k)) as [Hz Hin]%list_elem_of_filter by (rewrite Ez; set_solver).
      pose proof (HP x z Hx Hz) as Hxz. apply elem_of_cons in Hin as [->|Hin]; [congruence|].
      rewrite Forall_forall in Hy. specialize (Hy z Hin). unfold not_after in Hy.
      assert (less x y = false) by (eapply less_neg_trans; [exact Hy|exact Hxz]). congruence. }
    rewrite (filter_cons P x (y :: k)), (filter_cons P x []). destruct (decide (P x)) as [Hx|Hx].
    + by rewrite Hnone.
    + by rewrite app_nil_r.
  - rewrite !(filter_cons P y), IH. by case_decide.
Qed.

(** Two sorted permutations of elements the order separates are equal. *)
Lemma sorted_unique l1 l2 :
  (forall a b, a ∈ l1 -> b ∈ l1 -> less a b = false -> less b a = false -> a = b) ->
  StronglySorted (not_after less) l1 -> StronglySorted (not_after less) l2 -> l1 ≡ₚ l2 -> l1 = l2.
Proof.
  intros Hsep H1 H2 Hp. apply (StronglySorted_unique_strong (not_after less)); [|done..].
  intros a b Ha Hb Hab Hba. apply Hsep; [done|by rewrite Hp|done..].
Qed.
End stable.

#[export] Instance insertion_sort : SortSlice := {|
  sort_slice := @slice_stable;
  sort_slice_perm := @slice_stable_perm;
  sort_slice_sorted A less l H := @slice_stable_sorted A less H l |}.

(** An order on a key. *)
Lemma weak_order_key {A B} (f : A -> B) (less : B -> B -> bool) :
  WeakOrder less -> WeakOrder (fun a b => less (f a) (f b)).
Proof.
  intros H. split; intros *; [apply (less_asym (less := less))|apply (less_neg_trans (less := less))].
Qed.

#[export] Instance Z_ltb_weak_order : WeakOrder Z.ltb.
Proof. split; intros *; lia. Qed.

(** Go's [<] on strings: byte by byte. *)
Definition str_ltb (s t : string) : bool := negb (String.leb t s).

Lemma str_ltb_false s t : str_ltb s t = false <-> String.le t s.
Proof. unfold str_ltb, String.le. destruct (String.leb t s); cbn; by split. Qed.

#[export] Instance str_ltb_weak_order : WeakOrder str_ltb.
Proof.
  split.
  - intros a b Hab. apply str_ltb_false. destruct (total String.le b a) as [H|H]; [|done].
    apply str_ltb_false in H. congruence.
  - intros a b c. rewrite !str_ltb_false. intros. by etrans.
Qed.

Lemma str_ltb_separates s t : str_ltb s t = false -> str_ltb t s = false -> s = t.
Proof. rewrite !str_ltb_false. intros. by apply (anti_symm String.le). Qed.
