(* ===== verification/GoFmt.v ===== *)
(** How Go writes values: time.RFC3339 in UTC, encoding/base64, and the verbs
    of fmt that goat-client's front ends use. *)
From stdpp Require Import base tactics list strings.
From Stdlib Require Import ZArith Ascii Lia.
From S2P Require Import Prelude GoStr.
Local Open Scope Z_scope.

(** ** Booleans and padded numbers *)
Definition fmt_bool (b : bool) : string := if b then "true" else "false".
(** At least [n] digits. *)
Definition pad (n : nat) (z : Z) : string :=
  let s := itoa z in l2s (replicate (n - length (s2l s)) "0"%char) +:+ s.

(** ** The civil calendar

    Days are counted from 1 January 1970; a date is (year, month, day). An era
    is the 400 years after which the calendar repeats. *)
Definition era_days : Z := 146097.
Definition date_in_era (doe : Z) : Z * Z * Z :=
  let yoe := (doe - doe / 1460 + doe / 36524 - doe / 146096) / 365 in
  let doy := doe - (365 * yoe + yoe / 4 - yoe / 100) in
  let mp := (5 * doy + 2) / 153 in
  let m := if mp <? 10 then mp + 3 else mp - 9 in
  (if m <=? 2 then yoe + 1 else yoe, m, doy - (153 * mp + 2) / 5 + 1).
Definition civil (days : Z) : Z * Z * Z :=
  let z := days + 719468 in
  let '(y, m, d) := date_in_era (z mod era_days) in (y + z / era_days * 400, m, d).

(** t.UTC().Format(time.RFC3339) of an instant in nanoseconds *)
Definition rfc3339 (t : Z) : string :=
  let s := t / second in
  let '(y, m, d) := civil (s / 86400) in
  let r := s mod 86400 in
  pad 4 y +:+ "-" +:+ pad 2 m +:+ "-" +:+ pad 2 d +:+ "T" +:+
  pad 2 (r / 3600) +:+ ":" +:+ pad 2 (r mod 3600 / 60) +:+ ":" +:+ pad 2 (r mod 60) +:+ "Z".
Example rfc3339_ok :
  rfc3339 0 = "1970-01-01T00:00:00Z" /\ rfc3339 (-62135596800 * second) = "0001-01-01T00:00:00Z" /\
  rfc3339 (1709210096 * second + 5) = "2024-02-29T12:34:56Z".
Proof. repeat split. Qed.

(** ** base64.StdEncoding *)
Definition base64_digits : chars := s2l "ABCDEFGHIJKLMNOPQRSTUVWXYZabcdefghijklmnopqrstuvwxyz0123456789+/".
Definition base64_digit (n : N) : ascii := nth (N.to_nat n) base64_digits "="%char.
Fixpoint base64_go (l : chars) : chars :=
  match l with
  | [] => []
  | [a] => let n := (code a * 65536)%N in
           [base64_digit (n / 262144); base64_digit (n / 4096 mod 64); "="%char; "="%char]
  | [a; b] => let n := (code a * 65536 + code b * 256)%N in
              [base64_digit (n / 262144); base64_digit (n / 4096 mod 64); base64_digit (n / 64 mod 64); "="%char]
  | a :: b :: c :: l' =>
    let n := (code a * 65536 + code b * 256 + code c)%N in
    [base64_digit (n / 262144); base64_digit (n / 4096 mod 64); base64_digit (n / 64 mod 64); base64_digit (n mod 64)] ++ base64_go l'
  end.
Definition base64_encode (l : chars) : string := l2s (base64_go l).
Example base64_ok :
  (fun s => base64_encode (s2l s)) <$> [""; "f"; "fo"; "foo"; "foobar"] = [""; "Zg=="; "Zm8="; "Zm9v"; "Zm9vYmFy"].
Proof. reflexivity. Qed.
