(* ===== verification/GoPath.v ===== *)
(** Paths made of components: what path.Clean and filepath.Join of GoStr.v keep of
    a path, and net/http's cleaning of the path of a URL. *)
From stdpp Require Import base tactics list sets strings.
From Stdlib Require Import ZArith Ascii Lia.
From S2P Require Import Prelude GoStr.
Local Open Scope list_scope.

(** ** Clean and Join *)
Lemma split_not_nil sep l : split sep l <> [].
Proof. destruct l as [|c l]; [done|]. cbn. destruct (Ascii.eqb c sep); [done|]. by destruct (split sep l). Qed.
Lemma split_snoc sep l w : sep ∉ w -> split sep (l ++ sep :: w) = split sep l ++ [w].
Proof.
  intros Hw. induction l as [|c l IH]; cbn [app split].
  - by rewrite Ascii.eqb_refl, (split_nosep _ _ Hw).
  - rewrite IH. destruct (Ascii.eqb c sep); [done|]. destruct (split sep l) eqn:E; [|done].
    by apply split_not_nil in E.
Qed.
Lemma join_snoc sep ws w : ws <> [] -> join sep (ws ++ [w]) = join sep ws ++ sep ++ w.
Proof.
  induction ws as [|v ws IH]; [done|]. intros _. destruct ws as [|v' ws]; [done|].
  change (join sep ((v :: v' :: ws) ++ [w])) with (v ++ sep ++ join sep ((v' :: ws) ++ [w])).
  rewrite IH by done. cbn [join]. by rewrite <-!app_assoc.
Qed.
(** A component that [Clean] keeps as it is. *)
Definition plain_name (c : string) : Prop := c <> "" /\ c <> "." /\ c <> ".." /\ "/"%char ∉ s2l c.
Lemma clean_step_plain rooted acc c : plain_name c -> clean_step rooted acc (s2l c) = s2l c :: acc.
Proof.
  intros (H1 & H2 & H3 & _). unfold clean_step.
  rewrite !bool_decide_eq_false_2; [done|by intros ?%s2l_inj|by intros ?%s2l_inj|by intros ?%(s2l_inj _ "")].
Qed.
(** A plain name under a directory is the directory, a slash and the name. *)
Lemma path_join_plain dir c :
  path_clean dir ∉ ["."; "/"] -> dir <> "" -> plain_name c -> path_join [dir; c] = path_clean dir +:+ "/" +:+ c.
Proof.
  intros Hd Hn Hc. destruct Hc as (Hcn & ? & ? & Hs). assert (plain_name c) as Hc by done. unfold path_join.
  rewrite !filter_cons_True, filter_nil by done. cbn [fmap list_fmap join].
  unfold path_clean at 1. rewrite s2l_l2s. cbn [app]. change (s2l "/") with ["/"%char]. cbn [app].
  rewrite split_snoc, foldl_app by done. cbn [foldl]. rewrite clean_step_plain by done.
  assert (has_prefix (l2s (s2l dir ++ "/"%char :: s2l c)) "/" = has_prefix dir "/") as ->.
  { unfold has_prefix. rewrite s2l_l2s. destruct (s2l dir) as [|a l] eqn:E; [by destruct dir|].
    apply bool_decide_ext. change (s2l "/") with ["/"%char]. cbn. case_match; [|done]. by destruct l; split; eauto. }
  unfold path_clean in Hd |- *. set (acc := foldl _ _ _) in *.
  rewrite reverse_cons. destruct (decide (acc = [])) as [E|E].
  { rewrite E in Hd. exfalso. apply Hd. cbn. destruct (has_prefix dir "/"); set_solver. }
  assert (reverse acc <> []) as Er by (intros Hr; apply E; rewrite <-(reverse_involutive acc), Hr; done).
  change (s2l "/") with ["/"%char] in *. rewrite join_snoc by done.
  destruct (has_prefix dir "/"); apply s2l_inj.
  - rewrite !s2l_app, !s2l_l2s. cbn. done.
  - rewrite bool_decide_eq_false_2 by (destruct (join _ _); done).
    destruct (decide (join ["/"%char] (reverse acc) = [])) as [E'|E'].
    { exfalso. apply Hd. rewrite bool_decide_eq_true_2 by done. set_solver. }
    rewrite bool_decide_eq_false_2 by done. by rewrite !s2l_app, !s2l_l2s.
Qed.

(** [Clean] keeps what it made. *)
Definition dotdot : chars := s2l "..".
Definition normal (c : chars) : Prop := c <> [] /\ c <> s2l "." /\ c <> dotdot /\ "/"%char ∉ c.
Definition kept (rooted : bool) (acc : list chars) : Prop :=
  exists xs n, acc = xs ++ replicate n dotdot /\ Forall normal xs /\ (rooted = true -> n = 0).

Lemma kept_step rooted acc c : "/"%char ∉ c -> kept rooted acc -> kept rooted (clean_step rooted acc c).
Proof.
  intros Hc (xs & n & -> & Hx & Hr). unfold clean_step. case_bool_decide as E1; [by exists xs, n|].
  case_bool_decide as E2; [by exists xs, n|]. cbn [orb]. case_bool_decide as E3.
  - destruct xs as [|x xs]; cbn.
    + destruct n as [|n]; cbn.
      * subst. destruct rooted; [by exists [], 0|]. by exists [], 1.
      * rewrite bool_decide_eq_true_2 by done. exists [], (S (S n)). subst. split; [done|]. split; [done|]. intros ->. by specialize (Hr eq_refl).
    + inversion Hx as [|? ? (? & ? & ? & ?) ?]; subst. rewrite bool_decide_eq_false_2 by done. by exists xs, n.
  - exists (c :: xs), n. split; [done|]. split; [|done]. by repeat constructor.
Qed.
Lemma kept_steps rooted cs acc :
  Forall (fun c => "/"%char ∉ c) cs -> kept rooted acc -> kept rooted (foldl (clean_step rooted) acc cs).
Proof. intros Hc. revert acc. induction Hc as [|c cs Hc _ IH]; intros acc Ha; [done|]. by apply IH, kept_step. Qed.
Lemma foldl_normal rooted xs acc :
  Forall normal xs -> foldl (clean_step rooted) acc (reverse xs) = xs ++ acc.
Proof.
  intros Hx. induction Hx as [|x xs (H1 & H2 & H3 & _) _ IH]; [done|].
  rewrite reverse_cons, foldl_app, IH. cbn. unfold clean_step. by rewrite !bool_decide_eq_false_2.
Qed.
Lemma kept_again rooted acc : kept rooted acc -> foldl (clean_step rooted) [] (reverse acc) = acc.
Proof.
  intros (xs & n & -> & Hx & Hr). rewrite reverse_app, foldl_app, foldl_normal by done. f_equal.
  destruct rooted; [by rewrite Hr|]. clear. rewrite reverse_replicate. induction n as [|n IH]; [done|].
  rewrite replicate_S_end, foldl_app, IH. destruct n as [|n]; [done|].
  change (replicate (S n) dotdot) with (dotdot :: replicate n dotdot). cbn [foldl]. unfold clean_step.
  rewrite (bool_decide_eq_true_2 (dotdot = dotdot)) by done. change (dotdot :: replicate n dotdot) with (replicate (S n) dotdot).
  by rewrite <-replicate_S_end.
Qed.
Lemma split_no_sep sep l : Forall (fun w => sep ∉ w) (split sep l).
Proof.
  induction l as [|c l IH]; cbn; [repeat constructor; set_solver|].
  destruct (Ascii.eqb_spec c sep) as [->|Hc]; [constructor; [set_solver|done]|].
  destruct (split sep l) as [|w ws]; [repeat constructor; set_solver|]. inversion IH; subst. constructor; [|done].
  rewrite not_elem_of_cons. by split.
Qed.
Lemma kept_no_sep rooted acc : kept rooted acc -> Forall (fun c => c <> [] /\ "/"%char ∉ c) acc.
Proof.
  intros (xs & n & -> & Hx & _). apply Forall_app. split; [by eapply Forall_impl; [exact Hx|intros c (? & _ & _ & ?)]|].
  apply Forall_replicate. split; [done|]. vm_compute. intros Hi. inversion Hi; subst. inversion H1; subst. inversion H2.
Qed.
Lemma path_clean_idem p : path_clean (path_clean p) = path_clean p.
Proof.
  assert (kept (has_prefix p "/") (foldl (clean_step (has_prefix p "/")) [] (split "/"%char (s2l p)))) as Hk.
  { apply kept_steps; [apply split_no_sep|]. by exists [], 0. }
  unfold path_clean at 2 3. set (acc := foldl _ _ _) in *. set (rooted := has_prefix p "/") in *.
  pose proof (kept_no_sep _ _ Hk) as Hn. pose proof (kept_again _ _ Hk) as Ha. clearbody acc rooted.
  change (s2l "/") with ["/"%char]. set (out := join _ _).
  assert (Forall (fun c => "/"%char ∉ c) (reverse acc)) as Hr.
  { apply Forall_reverse. eapply Forall_impl; [exact Hn|]. by intros c []. }
  destruct (decide (acc = [])) as [->|Hne]; [by destruct rooted|].
  assert (reverse acc <> []) as Hne' by (intros E; apply Hne; by rewrite <-(reverse_involutive acc), E).
  assert (split "/"%char out = reverse acc) as Hs by by apply split_join.
  destruct rooted.
  - unfold path_clean. rewrite s2l_l2s. unfold has_prefix. rewrite s2l_l2s. cbn [strip_prefix]. 
    change (s2l "/") with ["/"%char]. cbn [strip_prefix]. rewrite Ascii.eqb_refl. rewrite bool_decide_eq_true_2 by eauto.
    cbn [split]. rewrite Ascii.eqb_refl, Hs. cbn [foldl]. change (clean_step true [] []) with (@nil chars). by rewrite Ha.
  - assert (exists c l, out = c :: l /\ c <> "/"%char) as (c & l & Ho & Hc).
    { unfold out in *. destruct (reverse acc) as [|w ws] eqn:E; [done|].
      assert (w ∈ acc) as Hw by (rewrite <-elem_of_reverse, E; by constructor).
      pose proof (proj1 (Forall_forall _ _) Hn w Hw) as [Hw0 Hw1]. destruct w as [|c w]; [done|].
      assert (c <> "/"%char) by set_solver. destruct ws; cbn; eauto. }
    rewrite bool_decide_eq_false_2 by (rewrite Ho; done). unfold path_clean. rewrite s2l_l2s. unfold has_prefix. rewrite s2l_l2s.
    assert (bool_decide (is_Some (strip_prefix (s2l "/") out)) = false) as ->.
    { rewrite Ho. change (s2l "/") with ["/"%char]. cbn [strip_prefix]. destruct (Ascii.eqb_spec "/"%char c); [by subst|].
      apply bool_decide_eq_false_2. by intros [? ?]. }
    rewrite Hs, Ha. change (s2l "/") with ["/"%char]. fold out. rewrite bool_decide_eq_false_2 by (rewrite Ho; done). done.
Qed.

(** ** Paths of URLs *)

(** net/url: the path of a URL with the bytes that may not stand for themselves
    written as a percent sign and two hexadecimal digits (escape with encodePath),
    and back. *)
Definition upper_hex (n : N) : ascii := ascii_of_N (if (n <? 10)%N then 48 + n else 55 + n).
Definition url_hex (c : ascii) : option N :=
  let n := code c in
  if is_digit c then Some (n - 48)%N
  else if (97 <=? n)%N && (n <=? 102)%N then Some (n - 87)%N
  else if (65 <=? n)%N && (n <=? 70)%N then Some (n - 55)%N else None.
Definition stands_for_itself (c : ascii) : bool :=
  is_digit c || is_lower c || is_upper c || bool_decide (c ∈ s2l "-_.~$&+,/:;=@").
Definition escape_byte (c : ascii) : chars :=
  if stands_for_itself c then [c] else ["%"%char; upper_hex (code c / 16); upper_hex (code c mod 16)].
Definition escape_path (l : chars) : chars := l ≫= escape_byte.
Fixpoint path_unescape (l : chars) : option chars :=
  match l with
  | [] => Some []
  | "%"%char :: a :: b :: l' =>
    h ← url_hex a; d ← url_hex b; r ← path_unescape l'; Some (ascii_of_N (h * 16 + d) :: r)
  | "%"%char :: _ => None
  | c :: l' => r ← path_unescape l'; Some (c :: r)
  end.

(** net/http's cleanPath: a slash in front, Clean, and the slash at the end. *)
Definition http_clean (p : chars) : chars :=
  match p with
  | [] => ["/"%char]
  | c :: _ =>
    let p := if bool_decide (c = "/"%char) then p else "/"%char :: p in
    let np := s2l (path_clean (l2s p)) in
    if bool_decide (last p = Some "/"%char) && negb (bool_decide (np = ["/"%char])) then np ++ ["/"%char] else np
  end.
Example http_clean_ok :
  (fun s => l2s (http_clean (s2l s))) <$> [""; "x"; "/put/x"; "/put//x"; "/put/../etc"; "/put/a/"; "/put/."; "//"] =
    ["/"; "/x"; "/put/x"; "/put/x"; "/etc"; "/put/a/"; "/put"; "/"] /\
  l2s (escape_path (s2l "/put/a b%;é")) = "/put/a%20b%25;%C3%A9".
Proof. split; reflexivity. Qed.

Lemma unescape_escape_byte c l : path_unescape (escape_byte c ++ l) = r ← path_unescape l; Some (c :: r).
Proof. by destruct c as [[] [] [] [] [] [] [] []]. Qed.
Lemma unescape_escape_path l : path_unescape (escape_path l) = Some l.
Proof.
  induction l as [|c l IH]; [done|]. change (escape_path (c :: l)) with (escape_byte c ++ escape_path l).
  by rewrite unescape_escape_byte, IH.
Qed.
Lemma escape_byte_slash c : "/"%char ∈ escape_byte c -> c = "/"%char.
Proof.
  intros H. apply (bool_decide_eq_true_2 _) in H. revert H.
  by destruct c as [[] [] [] [] [] [] [] []].
Qed.
Lemma escape_path_slash l : "/"%char ∉ l -> "/"%char ∉ escape_path l.
Proof. intros Hl (c & Hc & Hin)%list_elem_of_bind. apply escape_byte_slash in Hc as ->. done. Qed.

(** The components of a clean path have no dots to resolve and, but for the one a
    slash at the end leaves, are not empty. *)
Lemma http_clean_components p c :
  c ∈ drop 1 (split "/"%char (http_clean p)) -> c <> s2l "." /\ c <> dotdot.
Proof.
  assert (forall q, has_prefix (l2s q) "/" = true -> exists ws, s2l (path_clean (l2s q)) = "/"%char :: join ["/"%char] ws /\
    Forall normal ws) as Hrooted.
  { intros q Hq. unfold path_clean. rewrite Hq, s2l_l2s. set (acc := foldl _ _ _).
    assert (kept true acc) as (xs & n & Ha & Hx & Hn) by (apply kept_steps; [apply split_no_sep|by exists [], 0]).
    rewrite (Hn eq_refl), app_nil_r in Ha. exists (reverse acc). split; [done|]. rewrite Ha. by apply Forall_reverse. }
  assert (forall q, has_prefix (l2s q) "/" = true -> forall end_, end_ = [] \/ end_ = ["/"%char] ->
    c ∈ drop 1 (split "/"%char (s2l (path_clean (l2s q)) ++ end_)) -> c <> s2l "." /\ c <> dotdot) as Hc.
  { intros q Hq end_ He. destruct (Hrooted q Hq) as (ws & -> & Hws). cbn [app split]. rewrite Ascii.eqb_refl. cbn [drop].
    assert (Forall (fun w => "/"%char ∉ w) ws) as Hsl by (eapply Forall_impl; [exact Hws|by intros w (? & ? & ? & ?)]).
    assert (c ∈ split "/"%char (join ["/"%char] ws ++ end_) -> c = [] \/ c ∈ ws) as Hin.
    { destruct (decide (ws = [])) as [->|Hne]; [|destruct He as [->| ->]].
      - destruct He as [->| ->]; cbn; rewrite ?elem_of_cons, elem_of_nil; intuition.
      - rewrite app_nil_r, split_join by done. by right.
      - rewrite split_snoc, split_join by (done || apply not_elem_of_nil). rewrite elem_of_app, list_elem_of_singleton. tauto. }
    intros [->|Hw]%Hin; [done|]. rewrite Forall_forall in Hws. destruct (Hws c Hw) as (_ & H1 & H2 & _). done. }
  destruct p as [|a p]; cbn [http_clean]; [by intros ->%list_elem_of_singleton|]. cbv zeta. destruct (bool_decide_reflect (a = "/"%char)) as [Ha|Ha].
  - subst a. assert (has_prefix (l2s ("/"%char :: p)) "/" = true) as Hp by (unfold has_prefix; rewrite s2l_l2s; apply bool_decide_eq_true_2; cbn; eauto).
    destruct (_ && _); [by apply Hc; auto|]. rewrite <-(app_nil_r (s2l (path_clean _))). by apply Hc; auto.
  - assert (has_prefix (l2s ("/"%char :: a :: p)) "/" = true) as Hp by (unfold has_prefix; rewrite s2l_l2s; apply bool_decide_eq_true_2; cbn; eauto).
    destruct (_ && _); [by apply Hc; auto|]. rewrite <-(app_nil_r (s2l (path_clean _))). by apply Hc; auto.
Qed.

(** One plain name under a plain directory of the root is clean. *)
Lemma http_clean_plain d n : plain_name (l2s d) -> plain_name (l2s n) -> http_clean ("/"%char :: d ++ "/"%char :: n) = "/"%char :: d ++ "/"%char :: n.
Proof.
  intros Hd Hn. pose proof Hd as (_ & _ & _ & Hds). pose proof Hn as (Hn0 & _ & _ & Hns). rewrite s2l_l2s in Hds, Hns.
  unfold http_clean. change (bool_decide ("/"%char = "/"%char)) with true. cbv zeta iota.
  assert (path_clean (l2s ("/"%char :: d ++ "/"%char :: n)) = l2s ("/"%char :: d ++ "/"%char :: n)) as ->.
  { unfold path_clean, has_prefix. rewrite s2l_l2s. rewrite bool_decide_eq_true_2 by (cbn; eauto).
    cbn [split]. rewrite Ascii.eqb_refl, split_app, split_nosep by done. cbn [foldl].
    change (clean_step true [] []) with (@nil chars). rewrite <-(s2l_l2s d), <-(s2l_l2s n), !clean_step_plain, !s2l_l2s by done. done. }
  rewrite s2l_l2s. rewrite (bool_decide_eq_false_2 (last _ = _)); [done|].
  assert (n <> []) as Hne by (by intros ->). destruct (exists_last Hne) as (n' & x & ->).
  change ("/"%char :: d ++ "/"%char :: n' ++ [x]) with (("/"%char :: d) ++ ("/"%char :: n') ++ [x]).
  rewrite app_assoc, last_snoc. intros [= ->]. apply Hns. set_solver.
Qed.
