(* ===== verification/Fs.v ===== *)
(** A file system with faults and crashes, for the three stores of
    goat-client that write a file through a temporary one and a rename:
    [writeAtomic] of internal/profile/profile.go, [Save] of
    internal/mode/persist.go and [writeAtomic] of internal/names/store.go.

    Files are the named ones of a store ([Named]) and the temporary ones that
    os.CreateTemp makes ([Temp]). Every primitive that changes the disk pushes
    the disk it replaces onto [past]: a crash exposes the current disk or one
    of the past ones. Whether the n-th system call fails is decided by an
    oracle [ok : nat -> bool] over which the theorems quantify; [ticks] counts
    the calls made so far. A disk's [visible] part is what a store can name:
    the temporary files left by a crash or by a failed clean-up are not. *)
From stdpp Require Import base tactics list gmap fin_maps fin_sets.
From S2P Require Import Prelude.

Inductive file (N : Type) : Type :=
  | Named (n : N)
  | Temp (k : nat).
Arguments Named {N} n.
Arguments Temp {N} k.

#[export] Instance file_eq_dec {N} `{EqDecision N} : EqDecision (file N).
Proof. solve_decision. Defined.
#[export] Instance file_countable {N} `{Countable N} : Countable (file N).
Proof.
  apply (inj_countable' (fun f => match f with Named n => inl n | Temp k => inr k end)
                        (fun s => match s with inl n => Named n | inr k => Temp k end)).
  by intros [].
Defined.

(** Why a call failed: the file does not exist ([os.ErrNotExist]), or
    anything else. *)
Inductive fserr := ENoEnt | EIo.

(** The system calls of a temp-file write between CreateTemp and Rename. *)
Inductive wstep := WWrite | WSync | WClose | WChmod.
#[export] Instance wstep_eq_dec : EqDecision wstep.
Proof. solve_decision. Defined.

Section fs.
Context {N C : Type} `{Countable N}.

Record world := World { disk : gmap (file N) C; past : list (gmap (file N) C); ticks : nat }.

(** The disks a crash at some point up to now leaves behind. *)
Definition crash_disks (w : world) : list (gmap (file N) C) := disk w :: past w.

Definition tick (w : world) : world := World (disk w) (past w) (S (ticks w)).
Definition set_disk (d : gmap (file N) C) (w : world) : world :=
  World d (disk w :: past w) (ticks w).

Definition is_named (f : file N) : Prop := match f with Named _ => True | Temp _ => False end.
#[export] Instance is_named_dec f : Decision (is_named f).
Proof. destruct f; apply _. Defined.

Definition visible (d : gmap (file N) C) : gmap (file N) C := filter (fun p => is_named p.1) d.

(** os.CreateTemp opens a name that does not exist yet. *)
Definition temps (d : gmap (file N) C) : gset nat :=
  set_omap (fun f => match f with Temp k => Some k | Named _ => None end) (dom d).
Definition fresh_temp (d : gmap (file N) C) : file N := Temp (fresh (temps d)).

Section ops.
Context (ok : nat -> bool) (empty : C).

(** A call that touches no file content. *)
Definition sys : action world fserr unit := fun w =>
  if ok (ticks w) then (Ok tt, tick w) else (Err EIo, tick w).

(** A call that replaces the disk by [f] of it. *)
Definition sys_disk (f : gmap (file N) C -> gmap (file N) C) : action world fserr unit := fun w =>
  if ok (ticks w) then (Ok tt, set_disk (f (disk w)) (tick w)) else (Err EIo, tick w).

(** os.ReadFile. *)
Definition read_file (f : file N) : action world fserr C := fun w =>
  match disk w !! f with
  | None => (Err ENoEnt, tick w)
  | Some c => if ok (ticks w) then (Ok c, tick w) else (Err EIo, tick w)
  end.

(** os.Remove. *)
Definition remove_file (f : file N) : action world fserr unit := fun w =>
  match disk w !! f with
  | None => (Err ENoEnt, tick w)
  | Some _ => sys_disk (delete f) w
  end.

(** [_ = os.Remove(f)]. *)
Definition cleanup (f : file N) : state world unit := fun w => (tt, (remove_file f w).2).

(** The calls on the open temporary file: [Write] fills it, the others leave
    its content alone; a failure removes the file and returns. *)
Definition do_step (tmp : file N) (data : C) (s : wstep) : action world fserr unit :=
  match s with WWrite => sys_disk (insert tmp data) | _ => sys end.

Fixpoint temp_steps (tmp : file N) (data : C) (steps : list wstep) : action world fserr unit :=
  fun w =>
  match steps with
  | [] => (Ok tt, w)
  | s :: steps' =>
    match do_step tmp data s w with
    | (Ok _, w') => temp_steps tmp data steps' w'
    | (Err e, w') => (Err e, (cleanup tmp w').2)
    end
  end.

(** CreateTemp, the steps, Rename. *)
Definition write_temp (steps : list wstep) (path : N) (data : C) : action world fserr unit :=
  fun w =>
  let tmp := fresh_temp (disk w) in
  match sys_disk (insert tmp empty) w with
  | (Err e, w') => (Err e, w')
  | (Ok _, w') =>
    match temp_steps tmp data steps w' with
    | (Err e, w'') => (Err e, w'')
    | (Ok _, w'') =>
      match sys_disk (fun d => <[Named path := default empty (d !! tmp)]> (delete tmp d)) w'' with
      | (Ok _, w3) => (Ok tt, w3)
      | (Err e, w3) => (Err e, (cleanup tmp w3).2)
      end
    end
  end.

(** ** What can be seen of a write *)

Lemma fresh_temp_absent d : d !! fresh_temp d = None.
Proof.
  apply not_elem_of_dom. intros Hin. unfold fresh_temp in Hin.
  apply (is_fresh (temps d)). unfold temps. apply elem_of_set_omap. eexists; split; [exact Hin|done].
Qed.

Lemma visible_lookup d n : visible d !! Named n = d !! Named n.
Proof.
  unfold visible. rewrite map_lookup_filter. destruct (d !! Named n); cbn; [|done].
  by case_guard.
Qed.
Lemma visible_temp d k : visible d !! Temp k = None.
Proof.
  unfold visible. rewrite map_lookup_filter. destruct (d !! Temp k); cbn; [|done].
  by case_guard.
Qed.
Lemma visible_insert_temp d k c : visible (<[Temp k := c]> d) = visible d.
Proof.
  apply map_eq. intros [n|k']; rewrite ?visible_temp, ?visible_lookup; [|done].
  by rewrite lookup_insert_ne.
Qed.
Lemma visible_delete_temp d k : visible (delete (Temp k) d) = visible d.
Proof.
  apply map_eq. intros [n|k']; rewrite ?visible_temp, ?visible_lookup; [|done].
  by rewrite lookup_delete_ne.
Qed.
Lemma visible_insert d n c : visible (<[Named n := c]> d) = <[Named n := c]> (visible d).
Proof.
  apply map_eq. intros [m|k]; rewrite ?visible_temp, ?visible_lookup.
  - destruct (decide (n = m)) as [->|]; [by rewrite !lookup_insert_eq|].
    rewrite !lookup_insert_ne by congruence. by rewrite visible_lookup.
  - by rewrite lookup_insert_ne, visible_temp.
Qed.
Lemma visible_delete d n : visible (delete (Named n) d) = delete (Named n) (visible d).
Proof.
  apply map_eq. intros [m|k]; rewrite ?visible_temp, ?visible_lookup.
  - destruct (decide (n = m)) as [->|]; [by rewrite !lookup_delete_eq|].
    rewrite !lookup_delete_ne by congruence. by rewrite visible_lookup.
  - by rewrite lookup_delete_ne, visible_temp.
Qed.
(** Reading a named file only depends on the visible part. *)
Lemma lookup_visible d v n : visible d = v -> d !! Named n = v !! Named n.
Proof. intros <-. by rewrite visible_lookup. Qed.
Lemma lookup_visible_eq d d' n : visible d = visible d' -> d !! Named n = d' !! Named n.
Proof. intros E. by rewrite (lookup_visible d _ n E), visible_lookup. Qed.
Lemma lookup_visible_insert d d' n c m :
  visible d = <[Named n := c]> (visible d') ->
  d !! Named m = if bool_decide (m = n) then Some c else d' !! Named m.
Proof.
  intros E. rewrite (lookup_visible d _ m E). case_bool_decide as Hm.
  - by rewrite Hm, lookup_insert_eq.
  - by rewrite lookup_insert_ne, visible_lookup by congruence.
Qed.
Lemma visible_idem d : visible (visible d) = visible d.
Proof. apply map_eq. intros [n|k]; by rewrite ?visible_temp, ?visible_lookup. Qed.

(** [step_to P w w']: between [w] and [w'] every disk a crash could expose
    satisfies [P] (the disk of [w] apart, which was there before). *)
Definition step_to (P : gmap (file N) C -> Prop) (w w' : world) : Prop :=
  exists new, crash_disks w' = new ++ crash_disks w /\ Forall P new.

Lemma step_to_refl P w : step_to P w w.
Proof. by exists []. Qed.
Lemma step_to_trans P w1 w2 w3 : step_to P w1 w2 -> step_to P w2 w3 -> step_to P w1 w3.
Proof.
  intros (n1 & E1 & F1) (n2 & E2 & F2). exists (n2 ++ n1).
  by rewrite E2, E1, app_assoc, Forall_app.
Qed.
Lemma step_to_mono (P Q : gmap (file N) C -> Prop) w w' :
  (forall d, P d -> Q d) -> step_to P w w' -> step_to Q w w'.
Proof. intros HPQ (n & E & F). exists n. split; [done|]. by eapply Forall_impl. Qed.
Lemma step_to_tick P w : step_to P w (tick w).
Proof. by exists []. Qed.
Lemma step_to_set_disk (P : gmap (file N) C -> Prop) d w : P d -> step_to P w (set_disk d w).
Proof. intros Hd. exists [d]. by repeat constructor. Qed.

Lemma step_to_crash P w w' d :
  step_to P w w' -> d ∈ crash_disks w' -> d ∈ crash_disks w \/ P d.
Proof.
  intros (n & -> & F) [Hd|Hd]%elem_of_app; [|by left]. right.
  rewrite Forall_forall in F. by apply F.
Qed.

Lemma step_to_disk (P : gmap (file N) C -> Prop) w w' :
  step_to P w w' -> P (disk w) -> P (disk w').
Proof.
  intros (n & E & F) Hw. unfold crash_disks in E. destruct n as [|d n]; cbn in E.
  - by injection E as -> _.
  - injection E as -> _. by apply Forall_cons in F as [? _].
Qed.

(** The disk is, but for temporary files, the map [v]. *)
Definition looks (v : gmap (file N) C) (d : gmap (file N) C) : Prop := visible d = v.

Lemma cleanup_looks v k w :
  looks v (disk w) ->
  let w' := (cleanup (Temp k) w).2 in looks v (disk w') /\ step_to (looks v) w w'.
Proof.
  unfold cleanup, remove_file, sys_disk, looks. intros Hv. cbn.
  destruct (disk w !! Temp k); [|by eauto using step_to_tick].
  destruct (ok (ticks w)); cbn; [|by eauto using step_to_tick].
  rewrite visible_delete_temp. split; [done|].
  eapply step_to_trans; [apply step_to_tick|]. apply step_to_set_disk. cbn.
  by rewrite visible_delete_temp.
Qed.

Lemma sys_disk_looks v f w :
  (forall d, looks v d -> looks v (f d)) -> looks v (disk w) ->
  let w' := (sys_disk f w).2 in looks v (disk w') /\ step_to (looks v) w w'.
Proof.
  intros Hf Hv. unfold sys_disk. destruct (ok _); cbn; [|by eauto using step_to_tick].
  split; [by apply Hf|]. eapply step_to_trans; [apply step_to_tick|].
  by apply step_to_set_disk, Hf.
Qed.

Lemma temp_steps_looks v k data steps w :
  looks v (disk w) ->
  let w' := (temp_steps (Temp k) data steps w).2 in looks v (disk w') /\ step_to (looks v) w w'.
Proof.
  revert w. induction steps as [|s steps IH]; intros w Hv; cbn.
  { split; [done|apply step_to_refl]. }
  destruct (do_step (Temp k) data s w) as [r w1] eqn:E.
  assert (looks v (disk w1) /\ step_to (looks v) w w1) as [Hv1 Hs1].
  { destruct s; unfold do_step, sys in E;
      [|destruct (ok (ticks w)); simplify_eq; (split; [done|apply step_to_tick])..].
    change w1 with ((r, w1).2). rewrite <-E. apply sys_disk_looks; [|done].
    intros d. unfold looks. by rewrite visible_insert_temp. }
  destruct r as [[]|e]; cbn.
  - destruct (IH w1 Hv1) as [? ?]. split; [done|]. by eapply step_to_trans.
  - destruct (cleanup_looks v k w1 Hv1) as [? ?]. split; [done|]. by eapply step_to_trans.
Qed.

Lemma temp_steps_data tmp data c steps w w' :
  temp_steps tmp data steps w = (Ok tt, w') -> disk w !! tmp = Some c ->
  disk w' !! tmp = Some (if bool_decide (WWrite ∈ steps) then data else c).
Proof.
  revert w c. induction steps as [|s steps IH]; cbn; intros w c Hrun Hc; [by simplify_eq|].
  destruct s; unfold do_step, sys, sys_disk in Hrun; destruct (ok (ticks w)); try done.
  - rewrite (IH _ data Hrun) by (cbn; by rewrite lookup_insert_eq).
    rewrite (bool_decide_eq_true_2 (WWrite ∈ WWrite :: _)) by set_solver. by case_bool_decide.
  - rewrite (IH _ c Hrun Hc), (bool_decide_ext (WWrite ∈ WSync :: steps) (WWrite ∈ steps));
      [done|set_solver].
  - rewrite (IH _ c Hrun Hc), (bool_decide_ext (WWrite ∈ WClose :: steps) (WWrite ∈ steps));
      [done|set_solver].
  - rewrite (IH _ c Hrun Hc), (bool_decide_ext (WWrite ∈ WChmod :: steps) (WWrite ∈ steps));
      [done|set_solver].
Qed.

Lemma temp_steps_all_ok tmp data steps w :
  (forall n, ok n = true) -> exists w', temp_steps tmp data steps w = (Ok tt, w').
Proof.
  intros Hok. revert w. induction steps as [|s steps IH]; intros w; cbn; [by eexists|].
  destruct s; unfold do_step, sys, sys_disk; rewrite Hok; apply IH.
Qed.

(** The atomicity of a temp-file write: it succeeds and the target holds the
    data, or fails and nothing visible changed; until the final rename every
    disk on the way looks like the one it started from. *)
Lemma write_temp_spec steps path data w r w' :
  write_temp steps path data w = (r, w') -> WWrite ∈ steps ->
  let v := visible (disk w) in
  (r = Ok tt /\ visible (disk w') = <[Named path := data]> v \/
   (exists e, r = Err e) /\ visible (disk w') = v) /\
  step_to (fun d => visible d = v \/ visible d = <[Named path := data]> v) w w'.
Proof.
  intros Hrun Hin v. unfold write_temp in Hrun.
  destruct (sys_disk (insert (fresh_temp (disk w)) empty) w) as [r1 w1] eqn:E1.
  assert (looks v (disk w1) /\ step_to (looks v) w w1) as [Hv1 Hs1].
  { change w1 with ((r1, w1).2). rewrite <-E1. apply sys_disk_looks; [|done].
    intros d. unfold looks, fresh_temp. by rewrite visible_insert_temp. }
  assert (forall d, looks v d -> visible d = v \/ visible d = <[Named path := data]> v)
    as Hweak by (by left).
  destruct r1 as [[]|e]; [|simplify_eq; split; [by eauto|by eauto using step_to_mono]].
  destruct (temp_steps (fresh_temp (disk w)) data steps w1) as [r2 w2] eqn:E2.
  assert (looks v (disk w2) /\ step_to (looks v) w1 w2) as [Hv2 Hs2].
  { change w2 with ((r2, w2).2). rewrite <-E2. by apply temp_steps_looks. }
  pose proof (step_to_trans _ _ _ _ Hs1 Hs2) as Hs.
  destruct r2 as [[]|e]; [|simplify_eq; split; [by eauto|by eauto using step_to_mono]].
  assert (disk w2 !! fresh_temp (disk w) = Some data) as Hdata.
  { rewrite (temp_steps_data _ _ empty _ _ _ E2).
    - by rewrite bool_decide_eq_true_2.
    - unfold sys_disk in E1. destruct (ok (ticks w)); simplify_eq. cbn. apply lookup_insert_eq. }
  unfold sys_disk in Hrun. destruct (ok (ticks w2)).
  - simplify_eq. cbn. rewrite Hdata. cbn. unfold fresh_temp.
    rewrite visible_insert, visible_delete_temp, Hv2. split; [by left|].
    eapply step_to_trans; [by eapply step_to_mono|].
    eapply step_to_trans; [apply step_to_tick|]. apply step_to_set_disk.
    right. by rewrite visible_insert, visible_delete_temp, Hv2.
  - simplify_eq. destruct (cleanup_looks v (fresh (temps (disk w))) (tick w2) Hv2) as [? Hs3].
    split; [by eauto|]. eapply step_to_mono; [exact Hweak|].
    eapply step_to_trans; [exact Hs|]. eapply step_to_trans; [apply step_to_tick|exact Hs3].
Qed.

Lemma write_temp_ok steps path data w :
  (forall n, ok n = true) -> (write_temp steps path data w).1 = Ok tt.
Proof.
  intros Hok. unfold write_temp, sys_disk. rewrite Hok.
  match goal with |- context [temp_steps ?t ?d ?s ?w] =>
    destruct (temp_steps_all_ok t d s w Hok) as [w' ->] end.
  by rewrite Hok.
Qed.

(** ** A Hoare logic for every run, crashes and failures included

    [hoare I m Q]: started on a disk satisfying [I], every disk [m] passes
    through satisfies [I], and a value it returns satisfies [Q]. [I] may only
    look at the visible part ([on_visible]). *)
Definition hoare {E A} (I : gmap (file N) C -> Prop) (m : action world E A) (Q : A -> Prop) : Prop :=
  forall w, I (disk w) ->
  step_to I w (m w).2 /\ I (disk (m w).2) /\ forall a, (m w).1 = Ok a -> Q a.

Definition on_visible (I : gmap (file N) C -> Prop) : Prop := forall d, I (visible d) <-> I d.

Lemma on_visible_eq I d d' : on_visible I -> visible d = visible d' -> I d -> I d'.
Proof. intros HI E Hd. apply HI. rewrite <-E. by apply HI. Qed.

Lemma hoare_weaken {E A} I (m : action world E A) (Q R : A -> Prop) :
  hoare I m Q -> (forall a, Q a -> R a) -> hoare I m R.
Proof. intros Hm HQR w Hw. destruct (Hm w Hw) as (? & ? & ?). eauto 10. Qed.

Lemma hoare_bind {E A B} I (m : action world E A) (f : A -> action world E B) Q R :
  hoare I m Q -> (forall a, Q a -> hoare I (f a) R) -> hoare I (m ≫= f) R.
Proof.
  intros Hm Hf w Hw. unfold mbind, action_bind. destruct (Hm w Hw) as (Hs & Hd & HQ).
  destruct (m w) as [[a|e] w1]; cbn in *; [|by eauto].
  destruct (Hf a (HQ a eq_refl) w1 Hd) as (Hs' & ? & ?). eauto using step_to_trans.
Qed.

Lemma hoare_ret {E A} I (a : A) (Q : A -> Prop) : Q a -> hoare I (mret a : action world E A) Q.
Proof. intros HQ w Hw. cbn. split_and!; [apply step_to_refl|done|]. by intros ? [= <-]. Qed.

Lemma hoare_fail {E A} I (e : E) (Q : A -> Prop) : hoare I (fail e) Q.
Proof. intros w Hw. cbn. split_and!; [apply step_to_refl|done|done]. Qed.

Lemma hoare_lift {E A} I (r : result E A) (Q : A -> Prop) :
  (forall a, r = Ok a -> Q a) -> hoare I (lift r) Q.
Proof. intros HQ w Hw. cbn. split_and!; [apply step_to_refl|done|done]. Qed.

Lemma hoare_with_err {E E' A} I (g : E -> E') (m : action world E A) Q :
  hoare I m Q -> hoare I (with_err g m) Q.
Proof.
  intros Hm w Hw. unfold with_err. destruct (Hm w Hw) as (? & ? & HQ).
  destruct (m w) as [[a|e] w1]; cbn in *; split_and!; try done. intros a' [= <-]. by apply HQ.
Qed.

Lemma hoare_attempt {E E' A} I (m : action world E A) Q :
  hoare I m Q ->
  hoare I (attempt m : action world E' _) (fun r => forall a, r = Ok a -> Q a).
Proof.
  intros Hm w Hw. unfold attempt. destruct (Hm w Hw) as (? & ? & HQ).
  destruct (m w) as [r w1]; cbn in *; split_and!; try done. by intros a' [= <-].
Qed.

Lemma hoare_sys I : hoare I sys (fun _ => True).
Proof.
  intros w Hw. unfold sys. destruct (ok _); cbn; split_and!; first [apply step_to_tick|done].
Qed.

Lemma hoare_read I f :
  hoare I (read_file f) (fun c => exists d, I d /\ d !! f = Some c).
Proof.
  intros w Hw. unfold read_file. destruct (disk w !! f) eqn:E; [destruct (ok _)|]; cbn;
    split_and!; try first [apply step_to_tick|done].
  intros a [= <-]. eauto.
Qed.

Lemma hoare_sys_disk I g : (forall d, I d -> I (g d)) -> hoare I (sys_disk g) (fun _ => True).
Proof.
  intros Hg w Hw. unfold sys_disk. destruct (ok _); cbn; [|split_and!; [apply step_to_tick|done|done]].
  split_and!; [|by apply Hg|done].
  eapply step_to_trans; [apply step_to_tick|]. by apply step_to_set_disk, Hg.
Qed.

Lemma hoare_remove I f : (forall d, I d -> I (delete f d)) -> hoare I (remove_file f) (fun _ => True).
Proof.
  intros Hd w Hw. unfold remove_file. destruct (disk w !! f).
  - by apply hoare_sys_disk.
  - cbn. split_and!; [apply step_to_tick|done|done].
Qed.

Lemma hoare_write I steps path data :
  on_visible I -> WWrite ∈ steps -> (forall d, I d -> I (<[Named path := data]> d)) ->
  hoare I (write_temp steps path data) (fun _ => True).
Proof.
  intros HI Hin Hd w Hw. destruct (write_temp steps path data w) as [r w'] eqn:E.
  apply write_temp_spec in E as [Hr Hs]; [|done]. cbn.
  assert (forall d, visible d = visible (disk w) \/
      visible d = <[Named path:=data]> (visible (disk w)) -> I d) as Hall.
  { intros d [Hv|Hv]; [by apply (on_visible_eq I (disk w) d)|].
    apply HI. rewrite Hv. by apply Hd, HI. }
  split_and!; [exact (step_to_mono _ _ _ _ Hall Hs)| |done]. apply Hall.
  destruct Hr as [[_ ?]|[_ ?]]; auto.
Qed.

(** ** Evaluation on the visible disk, when no call fails

    [evals v m r v']: on any disk that looks like [v], [m] gives [r] and
    leaves a disk that looks like [v']. *)
Definition evals {E A} (v : gmap (file N) C) (m : action world E A) (r : result E A)
    (v' : gmap (file N) C) : Prop :=
  forall w, visible (disk w) = v -> exists w', m w = (r, w') /\ visible (disk w') = v'.

Lemma evals_bind {E A B} v (m : action world E A) a v1 (f : A -> action world E B) r v2 :
  evals v m (Ok a) v1 -> evals v1 (f a) r v2 -> evals v (m ≫= f) r v2.
Proof.
  intros Hm Hf w Hw. destruct (Hm w Hw) as (w1 & E1 & Hw1).
  rewrite (action_bind_eq _ _ _ _ _ E1). by apply Hf.
Qed.
Lemma evals_bind_err {E A B} v (m : action world E A) e v1 (f : A -> action world E B) :
  evals v m (Err e) v1 -> evals v (m ≫= f) (Err e) v1.
Proof.
  intros Hm w Hw. destruct (Hm w Hw) as (w1 & E1 & Hw1).
  rewrite (action_bind_err _ _ _ _ _ E1). eauto.
Qed.
Lemma evals_ret {E A} v (a : A) : evals v (mret a : action world E A) (Ok a) v.
Proof. intros w Hw. by exists w. Qed.
Lemma evals_fail {E A} v (e : E) : evals v (fail e : action world E A) (Err e) v.
Proof. intros w Hw. by exists w. Qed.
Lemma evals_lift {E A} v (r : result E A) : evals v (lift r) r v.
Proof. intros w Hw. by exists w. Qed.
Lemma evals_with_err {E E' A} (g : E -> E') v (m : action world E A) r v' :
  evals v m r v' -> evals v (with_err g m) (map_err g r) v'.
Proof. intros Hm w Hw. unfold with_err. destruct (Hm w Hw) as (w1 & -> & ?). eauto. Qed.
Lemma evals_attempt {E E' A} v (m : action world E A) r v' :
  evals v m r v' -> evals v (attempt m : action world E' _) (Ok r) v'.
Proof. intros Hm w Hw. unfold attempt. destruct (Hm w Hw) as (w1 & -> & ?). eauto. Qed.
Lemma evals_inj {E A} w (m : action world E A) r v' r' w' :
  evals (visible (disk w)) m r v' -> m w = (r', w') -> r' = r /\ visible (disk w') = v'.
Proof. intros Hm E1. destruct (Hm w eq_refl) as (w1 & E2 & Hw1). rewrite E1 in E2. naive_solver. Qed.

Section no_fault.
Hypothesis all_ok : forall n, ok n = true.

Lemma evals_sys v : evals v sys (Ok tt) v.
Proof. intros w Hw. unfold sys. rewrite all_ok. by eexists. Qed.
Lemma evals_read v n :
  evals v (read_file (Named n)) (of_option ENoEnt (v !! Named n)) v.
Proof.
  intros w Hw. unfold read_file. rewrite (lookup_visible _ _ n Hw).
  destruct (v !! Named n); cbn; rewrite ?all_ok; by eexists.
Qed.
Lemma evals_remove v n :
  evals v (remove_file (Named n))
    (if bool_decide (is_Some (v !! Named n)) then Ok tt else Err ENoEnt) (delete (Named n) v).
Proof.
  intros w Hw. unfold remove_file, sys_disk. rewrite (lookup_visible _ _ n Hw), all_ok.
  destruct (v !! Named n) eqn:E.
  - rewrite bool_decide_eq_true_2 by done. eexists. split; [done|]. cbn. by rewrite visible_delete, Hw.
  - rewrite bool_decide_eq_false_2 by (by intros [? [=]]). eexists. split; [done|].
    cbn. by rewrite Hw, delete_id.
Qed.
Lemma evals_write v steps path data :
  WWrite ∈ steps ->
  evals v (write_temp steps path data) (Ok tt) (<[Named path := data]> v).
Proof.
  intros Hin w Hw. destruct (write_temp steps path data w) as [r w'] eqn:E.
  pose proof (write_temp_ok steps path data w all_ok) as Hok. rewrite E in Hok. cbn in Hok.
  apply write_temp_spec in E as [[[_ Hv]|[[e He] _]] _]; [|congruence|done].
  exists w'. rewrite Hok, Hv, Hw. done.
Qed.
End no_fault.
End ops.
End fs.
Arguments world N C : clear implicits.
Arguments world N C {_ _}.
