(* ===== verification/QrBundle.v ===== *)
(** internal/qrbundle: the base45 (RFC 9285) codec of base45.go and the size
    budget of qrbundle.go. Bytes and characters are [ascii]; the arithmetic
    is on [N], where no intermediate value of the Go code overflows a uint. *)
From stdpp Require Import base tactics list numbers strings.
From Stdlib Require Import ZArith Ascii Lia.
From Stdlib Require String.
From S2P Require Import Prelude GoStr.
Local Open Scope list_scope.

(** ** base45.go *)
Definition base45Alphabet : chars :=
  s2l "0123456789ABCDEFGHIJKLMNOPQRSTUVWXYZ $%*+-./:".

(** The 256-entry table the package's [init] fills: -1 everywhere, then the
    index of each alphabet character at its code. *)
Definition base45Decode : list Z :=
  foldl (fun t '(i, c) => <[N.to_nat (code c) := Z.of_nat i]> t)
    (replicate 256 (-1)%Z) (imap pair base45Alphabet).

Definition base45EncodedLen (n : nat) : nat :=
  if Nat.even n then n / 2 * 3 else (n - 1) / 2 * 3 + 2.

Definition alphabet_at (i : N) : ascii := nth (N.to_nat i) base45Alphabet "000"%char.

Fixpoint base45Encode (src : chars) : chars :=
  match src with
  | x :: y :: src' =>
    let n := N.lor (N.shiftl (code x) 8) (code y) in
    let c := (n / (45 * 45))%N in
    let n' := (n - c * 45 * 45)%N in
    let b := (n' / 45)%N in
    let a := (n' - b * 45)%N in
    alphabet_at a :: alphabet_at b :: alphabet_at c :: base45Encode src'
  | [x] =>
    let n := code x in
    let b := (n / 45)%N in
    let a := (n - b * 45)%N in
    [alphabet_at a; alphabet_at b]
  | [] => []
  end.

Inductive errBase45 : Type :=
  | ErrLength (n : nat)
  | ErrChar (offset : nat)
  | ErrTriplet (offset : nat) (n : Z)
  | ErrPair (n : Z).

Definition decode_at (c : ascii) : Z := nth (N.to_nat (code c)) base45Decode (-1)%Z.

(** [byte(n)]: the low eight bits. *)
Definition to_byte (n : Z) : ascii := ascii_of_N (Z.to_N (n mod 256)).

(** The loop over triplets at offset [i], then the trailing pair. A single
    trailing character is excluded by the length test before the loop. *)
Fixpoint base45DecodeLoop (i : nat) (s : chars) : result errBase45 chars :=
  match s with
  | x :: y :: z :: s' =>
    let a := decode_at x in let b := decode_at y in let c := decode_at z in
    if (a <? 0)%Z || (b <? 0)%Z || (c <? 0)%Z then Err (ErrChar i)
    else
      let n := (a + b * 45 + c * 45 * 45)%Z in
      if (65535 <? n)%Z then Err (ErrTriplet i n)
      else out ← base45DecodeLoop (i + 3) s';
           Ok (to_byte (Z.shiftr n 8) :: to_byte n :: out)
  | [x; y] =>
    let a := decode_at x in let b := decode_at y in
    if (a <? 0)%Z || (b <? 0)%Z then Err (ErrChar i)
    else
      let n := (a + b * 45)%Z in
      if (255 <? n)%Z then Err (ErrPair n) else Ok [to_byte n]
  | [_] => Err (ErrLength 1)
  | [] => Ok []
  end.

Definition base45DecodeString (s : chars) : result errBase45 chars :=
  if length s mod 3 =? 1 then Err (ErrLength (length s)) else base45DecodeLoop 0 s.

(** ** qrbundle.go *)
Definition QRAlphanumericLCeiling : nat := 4296.
Definition MaxBundleBytes : nat := QRAlphanumericLCeiling / 3 * 2.

Inductive qr_err : Type :=
  | ErrBundleTooLarge (n : nat)
  | ErrEmpty
  | ErrDecode (e : errBase45).

Definition Encode (bundleBytes : chars) : result qr_err chars :=
  if length bundleBytes =? 0 then Err ErrEmpty
  else if MaxBundleBytes <? length bundleBytes then Err (ErrBundleTooLarge (length bundleBytes))
  else Ok (base45Encode bundleBytes).

Definition Decode (qrPayload : chars) : result qr_err chars :=
  if length qrPayload =? 0 then Err ErrEmpty
  else map_err ErrDecode (base45DecodeString qrPayload).

(** ** The tables *)
Lemma decode_alphabet i : (i < 45)%N -> decode_at (alphabet_at i) = Z.of_N i.
Proof.
  intros Hi. assert (Forall (fun j => decode_at (alphabet_at (N.of_nat j)) = Z.of_nat j) (seq 0 45)) as H.
  { unfold decode_at. vm_compute. repeat constructor. }
  rewrite Forall_forall in H. specialize (H (N.to_nat i)). rewrite N2Nat.id, N_nat_Z in H.
  apply H, elem_of_seq. lia.
Qed.

Lemma alphabet_decode c :
  (0 <= decode_at c)%Z -> (decode_at c < 45)%Z /\ alphabet_at (Z.to_N (decode_at c)) = c.
Proof.
  assert (forall c, (if (0 <=? decode_at c)%Z
    then (decode_at c <? 45)%Z && Ascii.eqb (alphabet_at (Z.to_N (decode_at c))) c else true) = true) as H.
  { intros [[] [] [] [] [] [] [] []]; vm_compute; done. }
  intros Hc. specialize (H c). rewrite (proj2 (Z.leb_le _ _) Hc) in H.
  apply andb_true_iff in H as [?%Z.ltb_lt ?%Ascii.eqb_eq]. done.
Qed.

(** ** Digits in base 45 *)
Lemma code_bound c : (code c < 256)%N.
Proof. apply N_ascii_bounded. Qed.

Lemma land_shifted_byte x y : (y < 256)%N -> N.land (x * 2 ^ 8) y = 0%N.
Proof.
  intros Hy. apply N.bits_inj. intros k. rewrite N.land_spec, N.bits_0.
  destruct (N.lt_ge_cases k 8) as [Hk|Hk]; [by rewrite N.mul_pow2_bits_low|].
  rewrite (N.bits_above_log2 y k); [apply andb_false_r|].
  destruct (N.eq_dec y 0) as [->|Hy0]; [change (N.log2 0) with 0%N; lia|].
  enough (N.log2 y < 8)%N by lia. apply N.log2_lt_pow2; [lia|done].
Qed.

Lemma lor_shiftl_byte x y : (y < 256)%N -> N.lor (N.shiftl x 8) y = (x * 256 + y)%N.
Proof.
  intros Hy. rewrite N.shiftl_mul_pow2, <-N.lxor_lor by (by apply land_shifted_byte).
  symmetry. apply N.add_nocarry_lxor. by apply land_shifted_byte.
Qed.

Lemma to_byte_code n : (0 <= n < 256)%Z -> forall c, n = Z.of_N (code c) -> to_byte n = c.
Proof.
  intros Hn c ->. unfold to_byte. rewrite Z.mod_small, N2Z.id by lia. apply ascii_N_embedding.
Qed.

Lemma code_to_byte n : code (to_byte n) = Z.to_N (n mod 256).
Proof.
  unfold to_byte, code. apply N_ascii_embedding.
  pose proof (Z.mod_pos_bound n 256 ltac:(lia)). lia.
Qed.

Lemma N_quotient (n d : N) : d <> 0%N -> exists r, n = (d * (n / d) + r)%N /\ (r < d)%N.
Proof. intros Hd. exists (n mod d)%N. split; [apply N.div_mod'|by apply N.mod_lt]. Qed.

Lemma digits2 (n : N) : (n = (n - n / 45 * 45) + n / 45 * 45)%N /\ (n - n / 45 * 45 < 45)%N.
Proof. destruct (N_quotient n 45) as (r & ? & ?); [done|]. lia. Qed.

(** ** One group of bytes, both ways *)
Lemma encode_triplet x y a b c :
  a = decode_at (alphabet_at (let n := N.lor (N.shiftl (code x) 8) (code y) in
        let n' := (n - n / (45 * 45) * 45 * 45)%N in (n' - n' / 45 * 45)%N)) ->
  b = decode_at (alphabet_at (let n := N.lor (N.shiftl (code x) 8) (code y) in
        ((n - n / (45 * 45) * 45 * 45) / 45)%N)) ->
  c = decode_at (alphabet_at (N.lor (N.shiftl (code x) 8) (code y) / (45 * 45))%N) ->
  (0 <= a)%Z /\ (0 <= b)%Z /\ (0 <= c)%Z /\
  (a + b * 45 + c * 45 * 45 = Z.of_N (code x) * 256 + Z.of_N (code y))%Z.
Proof.
  cbv zeta. rewrite lor_shiftl_byte by apply code_bound.
  pose proof (code_bound x). pose proof (code_bound y).
  set (n := (code x * 256 + code y)%N). assert (n < 65536)%N by lia.
  destruct (N_quotient n 2025) as (r & ? & ?); [done|].
  change (45 * 45)%N with 2025%N.
  set (n' := (n - n / 2025 * 45 * 45)%N). assert (n' < 2025)%N by lia.
  destruct (digits2 n') as [Hn' ?]. assert (n' / 45 < 45)%N by (apply N.Div0.div_lt_upper_bound; lia).
  assert (n / 2025 < 45)%N by (apply N.Div0.div_lt_upper_bound; lia).
  rewrite !decode_alphabet by done. intros -> -> ->. lia.
Qed.

Lemma encode_pair x a b :
  a = decode_at (alphabet_at (code x - code x / 45 * 45)%N) ->
  b = decode_at (alphabet_at (code x / 45)%N) ->
  (0 <= a)%Z /\ (0 <= b)%Z /\ (a + b * 45 = Z.of_N (code x))%Z.
Proof.
  pose proof (code_bound x). destruct (digits2 (code x)) as [Hx ?].
  assert (code x / 45 < 45)%N by (apply N.Div0.div_lt_upper_bound; lia).
  rewrite !decode_alphabet by done. intros -> ->. lia.
Qed.

Lemma ltb_neg_false z : (0 <= z)%Z -> (z <? 0)%Z = false.
Proof. intros. apply Z.ltb_ge. lia. Qed.

Lemma word_bytes x y :
  let n := (Z.of_N (code x) * 256 + Z.of_N (code y))%Z in
  to_byte (Z.shiftr n 8) = x /\ to_byte n = y.
Proof.
  cbv zeta. pose proof (code_bound x). pose proof (code_bound y). split.
  - apply to_byte_code; rewrite Z.shiftr_div_pow2 by lia; change (2 ^ 8)%Z with 256%Z;
      rewrite Z.div_add_l, Z.div_small by lia; lia.
  - unfold to_byte. rewrite Z.add_comm, Z.mod_add, Z.mod_small, N2Z.id by lia.
    apply ascii_N_embedding.
Qed.

Lemma decode_loop_encode src i : base45DecodeLoop i (base45Encode src) = Ok src.
Proof.
  revert i. induction src as [src IH] using (induction_ltof1 _ (@length ascii)); unfold ltof in IH.
  intros i. destruct src as [|x [|y src]]; [done| |].
  - cbn [base45Encode]. cbv zeta. cbn [base45DecodeLoop]. cbv zeta.
    destruct (encode_pair x _ _ eq_refl eq_refl) as (Ha & Hb & ->).
    pose proof (code_bound x).
    rewrite !ltb_neg_false by done. cbn [orb]. rewrite (proj2 (Z.ltb_ge _ _)) by lia.
    by rewrite (to_byte_code (Z.of_N (code x)) ltac:(lia) x).
  - cbn [base45Encode]. cbv zeta. cbn [base45DecodeLoop]. cbv zeta.
    pose proof (encode_triplet x y _ _ _ eq_refl eq_refl eq_refl) as H3. cbv zeta in H3.
    destruct H3 as (Ha & Hb & Hc & ->).
    pose proof (code_bound x). pose proof (code_bound y).
    rewrite !ltb_neg_false by done. cbn [orb]. rewrite (proj2 (Z.ltb_ge _ _)) by lia.
    rewrite IH by (cbn; lia). cbn.
    by destruct (word_bytes x y) as [-> ->].
Qed.

(** The digits of an accepted group are the ones the encoder writes. *)
Lemma triplet_canonical x y z :
  let n := (decode_at x + decode_at y * 45 + decode_at z * 45 * 45)%Z in
  (0 <= decode_at x)%Z -> (0 <= decode_at y)%Z -> (0 <= decode_at z)%Z -> (n <= 65535)%Z ->
  forall l, base45Encode (to_byte (Z.shiftr n 8) :: to_byte n :: l) = x :: y :: z :: base45Encode l.
Proof.
  intros n Hx Hy Hz Hn l.
  destruct (alphabet_decode x Hx) as [Bx Ex], (alphabet_decode y Hy) as [By Ey],
    (alphabet_decode z Hz) as [Bz Ez].
  cbn [base45Encode]. cbv zeta. rewrite lor_shiftl_byte by apply code_bound.
  rewrite !code_to_byte, Z.shiftr_div_pow2 by lia. change (2 ^ 8)%Z with 256%Z.
  assert (0 <= n)%Z by (unfold n; lia).
  replace (Z.to_N (n / 256 mod 256) * 256 + Z.to_N (n mod 256))%N with (Z.to_N n).
  2:{ rewrite (Z.mod_small (n / 256)) by (split; [apply Z.div_pos; lia|apply Z.div_lt_upper_bound; lia]).
      pose proof (Z.div_mod n 256 ltac:(lia)). pose proof (Z.mod_pos_bound n 256 ltac:(lia)).
      pose proof (Z.div_pos n 256 ltac:(lia) ltac:(lia)). lia. }
  change (45 * 45)%N with 2025%N.
  assert (Z.to_N n / 2025 = Z.to_N (decode_at z))%N as ->.
  { symmetry. apply (N.div_unique _ _ _ (Z.to_N (decode_at x + decode_at y * 45))); unfold n; lia. }
  replace (Z.to_N n - Z.to_N (decode_at z) * 45 * 45)%N
    with (Z.to_N (decode_at x + decode_at y * 45)) by (unfold n; lia).
  assert (Z.to_N (decode_at x + decode_at y * 45) / 45 = Z.to_N (decode_at y))%N as ->.
  { symmetry. apply (N.div_unique _ _ _ (Z.to_N (decode_at x))); lia. }
  replace (Z.to_N (decode_at x + decode_at y * 45) - Z.to_N (decode_at y) * 45)%N
    with (Z.to_N (decode_at x)) by lia.
  by rewrite Ex, Ey, Ez.
Qed.

Lemma pair_canonical x y :
  let n := (decode_at x + decode_at y * 45)%Z in
  (0 <= decode_at x)%Z -> (0 <= decode_at y)%Z -> (n <= 255)%Z ->
  base45Encode [to_byte n] = [x; y].
Proof.
  intros n Hx Hy Hn.
  destruct (alphabet_decode x Hx) as [Bx Ex], (alphabet_decode y Hy) as [By Ey].
  cbn [base45Encode]. cbv zeta. rewrite code_to_byte, Z.mod_small by (unfold n in *; lia).
  assert (Z.to_N n / 45 = Z.to_N (decode_at y))%N as ->.
  { symmetry. apply (N.div_unique _ _ _ (Z.to_N (decode_at x))); unfold n; lia. }
  replace (Z.to_N n - Z.to_N (decode_at y) * 45)%N with (Z.to_N (decode_at x)) by (unfold n; lia).
  by rewrite Ex, Ey.
Qed.

Lemma decode_loop_canonical s i out : base45DecodeLoop i s = Ok out -> base45Encode out = s.
Proof.
  revert i out. induction s as [s IH] using (induction_ltof1 _ (@length ascii)); unfold ltof in IH.
  intros i out. destruct s as [|x [|y [|z s]]]; cbn [base45DecodeLoop]; cbv zeta.
  - by intros [= <-].
  - done.
  - destruct (Z.ltb_spec (decode_at x) 0), (Z.ltb_spec (decode_at y) 0); cbn [orb]; try done.
    case_match eqn:E; [done|]. apply Z.ltb_ge in E. intros [= <-]. by apply pair_canonical.
  - destruct (Z.ltb_spec (decode_at x) 0), (Z.ltb_spec (decode_at y) 0),
      (Z.ltb_spec (decode_at z) 0); cbn [orb]; try done.
    case_match eqn:E; [done|]. apply Z.ltb_ge in E. intros (out' & Hout & [= <-])%bind_Ok.
    rewrite triplet_canonical by done. by rewrite (IH s ltac:(cbn; lia) _ _ Hout).
Qed.

Lemma length_base45Encode src : length (base45Encode src) = base45EncodedLen (length src).
Proof.
  induction src as [src IH] using (induction_ltof1 _ (@length ascii)); unfold ltof in IH.
  destruct src as [|x [|y src]]; [done..|].
  cbn [base45Encode length]. cbv zeta. cbn [length]. rewrite IH by (cbn; lia).
  unfold base45EncodedLen. cbn [Nat.even]. destruct (Nat.even (length src)) eqn:E.
  - apply Nat.even_spec in E as [k ->]. replace (S (S (2 * k))) with (S k * 2) by lia.
    rewrite (Nat.mul_comm 2 k), !Nat.div_mul by lia. lia.
  - assert (Nat.Odd (length src)) as [k ->] by (apply Nat.odd_spec; by rewrite <-Nat.negb_even, E).
    replace (S (S (2 * k + 1)) - 1) with (S k * 2) by lia. replace (2 * k + 1 - 1) with (k * 2) by lia.
    rewrite !Nat.div_mul by lia. lia.
Qed.

Lemma length_encode_mod3 src : (length (base45Encode src) mod 3 =? 1) = false.
Proof.
  rewrite length_base45Encode. unfold base45EncodedLen. apply Nat.eqb_neq.
  destruct (Nat.even _).
  - rewrite Nat.Div0.mod_mul. lia.
  - rewrite Nat.add_comm, Nat.Div0.mod_add. cbn. lia.
Qed.

Lemma encoded_len_budget n :
  base45EncodedLen n <= QRAlphanumericLCeiling <-> n <= MaxBundleBytes.
Proof.
  change QRAlphanumericLCeiling with 4296. change MaxBundleBytes with 2864.
  unfold base45EncodedLen. destruct (Nat.even n) eqn:E.
  - apply Nat.even_spec in E as [k ->]. rewrite (Nat.mul_comm 2 k), Nat.div_mul by lia. lia.
  - assert (Nat.Odd n) as [k ->] by (apply Nat.odd_spec; by rewrite <-Nat.negb_even, E).
    replace (2 * k + 1 - 1) with (k * 2) by lia. rewrite Nat.div_mul by lia. lia.
Qed.

Lemma length_zero_iff_nil_eqb (l : chars) : (length l =? 0) = bool_decide (l = []).
Proof. by destruct l. Qed.

Lemma encode_nil b : base45Encode b = [] <-> b = [].
Proof.
  destruct b as [|x [|y b]]; split; intros H; try done; discriminate H.
Qed.

Lemma Encode_Ok b s : Encode b = Ok s -> Decode s = Ok b /\ length s <= QRAlphanumericLCeiling.
Proof.
  unfold Encode, Decode. rewrite !length_zero_iff_nil_eqb. case_bool_decide as Hb; [done|].
  destruct (Nat.ltb_spec MaxBundleBytes (length b)) as [|Hl]; [done|]. intros [= <-]. rewrite bool_decide_false by (by rewrite encode_nil).
  rewrite map_err_Ok. unfold base45DecodeString. rewrite length_encode_mod3, decode_loop_encode. split; [done|].
  rewrite length_base45Encode. by apply encoded_len_budget.
Qed.

(** ** The codec *)

(** C31: [Decode] accepts exactly the images of [Encode]'s encoder: a payload
    decodes to [b] if and only if [b] is non-empty and the payload is the
    base45 encoding of [b]. Decoding inverts encoding, no payload has two
    readings and no bytes have two accepted spellings. *)
Theorem Decode_iff_encoding (s b : chars) :
  Decode s = Ok b <-> b <> [] /\ s = base45Encode b.
Proof.
  unfold Decode. rewrite length_zero_iff_nil_eqb.
  destruct (bool_decide_reflect (s = [])) as [->|Hs].
  - split; [done|]. intros [Hb H]. symmetry in H. destruct (Hb (proj1 (encode_nil b) H)).
  - rewrite map_err_Ok. unfold base45DecodeString. split.
    + case_match; [done|]. intros H'%decode_loop_canonical. split; [|done].
      intros ->. by rewrite <-H' in Hs.
    + intros [Hb ->]. by rewrite length_encode_mod3, decode_loop_encode.
Qed.

(** C32: The size budget of [Encode] is exact: it accepts [b] precisely when
    [b] is non-empty and its base45 encoding fits the alphanumeric capacity of
    one version-40-L QR code, and it then returns that encoding. *)
Theorem Encode_fits_one_qr (b s : chars) :
  Encode b = Ok s <->
  b <> [] /\ s = base45Encode b /\ length s <= QRAlphanumericLCeiling.
Proof.
  unfold Encode. rewrite length_zero_iff_nil_eqb.
  destruct (bool_decide_reflect (b = [])) as [->|Hb]; [naive_solver|].
  pose proof (encoded_len_budget (length b)) as Hbud. rewrite <-length_base45Encode in Hbud.
  destruct (Nat.ltb_spec MaxBundleBytes (length b)).
  - split; [done|]. intros (_ & -> & Hl). apply Hbud in Hl. lia.
  - split.
    + intros [= <-]. split_and!; [done..|]. by apply Hbud.
    + by intros (_ & -> & _).
Qed.
