(* ===== verification/Mode.v ===== *)
(** The mode selector and its persisted configuration:
    internal/mode/mode.go and internal/mode/persist.go.

    [Mode] is a string as in the source, so that unknown values (read from a
    profile's meta.json, say) are representable. The configuration file is the
    byte string [render] writes and [parse] reads; [Save] and [Load] act on
    the file system of Fs.v. *)
From stdpp Require Import base tactics list gmap strings.
From Stdlib Require Import ZArith Ascii Lia.
From Stdlib Require String.
From S2P Require Import Prelude GoStr Fs.
Local Open Scope list_scope.

Definition Mode : Type := string.

Definition WGCP0Only : Mode := "wg-cp0-only".
Definition NetbirdOnly : Mode := "netbird-only".
Definition Combined : Mode := "combined".
Definition Default : Mode := Combined.

Definition All : list Mode := [WGCP0Only; NetbirdOnly; Combined].

Inductive parse_error := ErrUnknownMode.

Definition Parse (s : string) : result parse_error Mode :=
  let t := to_lower (trim_space s) in
  if bool_decide (t ∈ [WGCP0Only; "wg-cp0"; "wgcp0"; "outer"; "outer-only"]) then Ok WGCP0Only
  else if bool_decide (t ∈ [NetbirdOnly; "netbird"; "inner"; "inner-only"]) then Ok NetbirdOnly
  else if bool_decide (t ∈ [Combined; "both"; "all"]) then Ok Combined
  else Err ErrUnknownMode.

Definition Valid (m : Mode) : bool := bool_decide (m ∈ [WGCP0Only; NetbirdOnly; Combined]).

Definition Display (m : Mode) : string :=
  if bool_decide (m = WGCP0Only) then "wg-cp0 only (outer tunnel)"
  else if bool_decide (m = NetbirdOnly) then "netbird only (inner mesh)"
  else if bool_decide (m = Combined) then "combined (outer + inner)"
  else m.

Definition IncludesWGCP0 (m : Mode) : bool :=
  bool_decide (m = WGCP0Only) || bool_decide (m = Combined).
Definition IncludesNetbird (m : Mode) : bool :=
  bool_decide (m = NetbirdOnly) || bool_decide (m = Combined).

Record PersistedConfig := {
  cfgMode : Mode;
  MeshDNSServers : list string;
  MeshDNSSearchDomains : list string;
  MeshDNSMatchDomains : list string }.

Definition no_config : PersistedConfig :=
  {| cfgMode := ""; MeshDNSServers := []; MeshDNSSearchDomains := []; MeshDNSMatchDomains := [] |}.

(** ** The file's text *)
Definition newline : ascii := ascii_of_N 10.

Definition config_header : chars :=
  s2l "# goat-client config (v0.2). Managed by `goat-client setmode` or the installer.".

Definition config_line (key : string) (val : chars) : chars := s2l key ++ s2l " = " ++ quote val.

(** One [if len(...) > 0 { Fprintf(...) }] of [Save]. *)
Definition csv_lines (key : string) (vals : list string) : list chars :=
  match vals with
  | [] => []
  | _ => [config_line key (join [","%char] (s2l <$> vals))]
  end.

Definition config_lines (cfg : PersistedConfig) : list chars :=
  config_header :: config_line "mode" (s2l (cfgMode cfg)) ::
  csv_lines "mesh_dns_servers" (MeshDNSServers cfg) ++
  csv_lines "mesh_dns_search_domains" (MeshDNSSearchDomains cfg) ++
  csv_lines "mesh_dns_match_domains" (MeshDNSMatchDomains cfg).

Definition render (cfg : PersistedConfig) : chars :=
  config_lines cfg ≫= (fun l => l ++ [newline]).

Definition splitCSV (s : string) : list string :=
  filter (fun p => p <> "") ((fun part => trim_space (l2s part)) <$> split ","%char (s2l s)).

Definition set_key (key val : string) (cfg : PersistedConfig) : result parse_error PersistedConfig :=
  if bool_decide (key = "mode") then
    if bool_decide (val = "") then Ok cfg
    else m ← Parse val;
         Ok {| cfgMode := m; MeshDNSServers := MeshDNSServers cfg;
               MeshDNSSearchDomains := MeshDNSSearchDomains cfg;
               MeshDNSMatchDomains := MeshDNSMatchDomains cfg |}
  else if bool_decide (key = "mesh_dns_servers") then
    Ok {| cfgMode := cfgMode cfg; MeshDNSServers := splitCSV val;
          MeshDNSSearchDomains := MeshDNSSearchDomains cfg;
          MeshDNSMatchDomains := MeshDNSMatchDomains cfg |}
  else if bool_decide (key = "mesh_dns_search_domains") then
    Ok {| cfgMode := cfgMode cfg; MeshDNSServers := MeshDNSServers cfg;
          MeshDNSSearchDomains := splitCSV val;
          MeshDNSMatchDomains := MeshDNSMatchDomains cfg |}
  else if bool_decide (key = "mesh_dns_match_domains") then
    Ok {| cfgMode := cfgMode cfg; MeshDNSServers := MeshDNSServers cfg;
          MeshDNSSearchDomains := MeshDNSSearchDomains cfg;
          MeshDNSMatchDomains := splitCSV val |}
  else Ok cfg.

(** The quotes [parse] trims: the double and the single one. *)
Definition quotes : string := l2s (bytes_of [34; 39]%N).

Definition parse_line (raw : chars) (cfg : PersistedConfig) : result parse_error PersistedConfig :=
  let line := trim_space (l2s raw) in
  if bool_decide (line = "") || has_prefix line "#" then Ok cfg
  else match cut "="%char (s2l line) with
       | None => Ok cfg
       | Some (k, v) => set_key (trim_space (l2s k)) (trim (trim_space (l2s v)) quotes) cfg
       end.

Fixpoint parse_lines (lines : list chars) (cfg : PersistedConfig) : result parse_error PersistedConfig :=
  match lines with
  | [] => Ok cfg
  | raw :: rest => cfg' ← parse_line raw cfg; parse_lines rest cfg'
  end.

Definition parse (buf : chars) : result parse_error PersistedConfig :=
  parse_lines (split newline buf) no_config.

(** ** The file *)
Inductive config_error :=
  | EInvalidMode
  | EMkdir
  | EWrite (e : fserr)
  | EOpen
  | EParse (e : parse_error).

Definition save_steps : list wstep := [WWrite; WClose; WChmod].

Definition Save (ok : nat -> bool) (path : string) (cfg : PersistedConfig)
    : action (world string chars) config_error unit :=
  if negb (bool_decide (cfgMode cfg = "")) && negb (Valid (cfgMode cfg)) then fail EInvalidMode
  else
    _ ← with_err (fun _ => EMkdir) (sys ok);
    with_err EWrite (write_temp ok [] save_steps path (render cfg)).

Definition Load (ok : nat -> bool) (path : string)
    : action (world string chars) config_error PersistedConfig := fun w =>
  match read_file ok (Named path) w with
  | (Err ENoEnt, w') => (Ok no_config, w')
  | (Err EIo, w') => (Err EOpen, w')
  | (Ok buf, w') => (map_err EParse (parse buf), w')
  end.

Definition LoadOrDefault (ok : nat -> bool) (path : string)
    : action (world string chars) config_error Mode :=
  cfg ← Load ok path;
  if bool_decide (cfgMode cfg = "") then mret Default
  else if negb (Valid (cfgMode cfg)) then fail EInvalidMode
  else mret (cfgMode cfg).

(** ** Parsing modes *)

Lemma Valid_spec m : Valid m = true <-> m ∈ [WGCP0Only; NetbirdOnly; Combined].
Proof. unfold Valid. by rewrite bool_decide_eq_true. Qed.

Lemma Parse_Valid s m : Parse s = Ok m -> Valid m = true.
Proof.
  unfold Parse. generalize (to_lower (trim_space s)) as t. intros t. cbv zeta.
  do 3 (destruct (bool_decide _); [by intros [= <-]|]). done.
Qed.

Lemma Parse_of_valid m : Valid m = true -> Parse m = Ok m.
Proof.
  rewrite Valid_spec, !elem_of_cons. intros [->|[->|[->|H]]]; [by vm_compute..|].
  by apply elem_of_nil in H.
Qed.

Lemma Includes_some m : Valid m = true -> IncludesWGCP0 m || IncludesNetbird m = true.
Proof.
  rewrite Valid_spec, !elem_of_cons. intros [->|[->|[->|H]]]; [by vm_compute..|].
  by apply elem_of_nil in H.
Qed.

(** ** Lines that survive the round trip

    An entry that [Save] writes as it is and [parse] reads as it is: not
    empty, without spaces around it, printable ASCII without commas, quotes or
    backslashes. *)
Definition entry_char (c : ascii) : bool :=
  unescaped c && ((code c <? 127)%N && negb (eq_code c 44 || eq_code c 39)).

Definition entry_ok (s : string) : Prop :=
  s <> "" /\ trim_space s = s /\ Forall (fun c => entry_char c = true) (s2l s).

Definition config_ok (cfg : PersistedConfig) : Prop :=
  (cfgMode cfg = "" \/ Valid (cfgMode cfg) = true) /\
  Forall entry_ok (MeshDNSServers cfg) /\
  Forall entry_ok (MeshDNSSearchDomains cfg) /\
  Forall entry_ok (MeshDNSMatchDomains cfg).

#[export] Instance entry_ok_dec s : Decision (entry_ok s).
Proof. unfold entry_ok. apply _. Defined.
#[export] Instance config_ok_dec cfg : Decision (config_ok cfg).
Proof. unfold config_ok. apply _. Defined.

Lemma entry_char_spec c :
  entry_char c = true <->
  unescaped c = true /\ (code c < 127)%N /\ code c <> 44%N /\ code c <> 39%N.
Proof.
  unfold entry_char, eq_code.
  rewrite !andb_true_iff, negb_true_iff, orb_false_iff, N.ltb_lt, !N.eqb_neq. naive_solver.
Qed.

Lemma unescaped_bounds c :
  unescaped c = true -> (32 <= code c)%N /\ code c <> 34%N /\ code c <> 92%N.
Proof.
  unfold unescaped, eq_code.
  rewrite andb_true_iff, negb_true_iff, !orb_false_iff, N.leb_le, !N.eqb_neq. naive_solver.
Qed.

Lemma code_ne c d : code c <> code d -> c <> d.
Proof. naive_solver. Qed.

Lemma quote_starts_none c :
  code c <> 34%N -> code c <> 39%N ->
  starts_none ((fun c => [c]) <$> s2l quotes) c = true.
Proof.
  intros H1 H2.
  change (negb (Ascii.eqb dquote c) && (negb (Ascii.eqb (ascii_of_N 39) c) && true) = true).
  rewrite !andb_true_iff, !negb_true_iff, !Ascii.eqb_neq.
  split_and!; [intros <-; by apply H1|intros <-; by apply H2|done].
Qed.

(** Trimming the quotes of a quoted entry. *)
Lemma trim_quoted l :
  l <> [] -> Forall (fun c => code c <> 34%N /\ code c <> 39%N) l ->
  trim (l2s (dquote :: l ++ [dquote])) quotes = l2s l.
Proof.
  intros Hne Hl. unfold trim. rewrite s2l_l2s. f_equal.
  set (qs := (fun c => [c]) <$> s2l quotes).
  assert (forall m, strip_any qs (dquote :: m) = Some m) as Hq by done.
  assert ((reverse <$> qs) = qs) as Hr by done.
  unfold trim_seqs, trim_right. rewrite Hr.
  destruct l as [|c l]; [done|]. pose proof (Forall_inv Hl) as [Hc1 Hc2].
  rewrite (trim_left_once qs dquote ((c :: l) ++ [dquote])).
  2: apply Hq. 2: by apply strip_any_starts_none, quote_starts_none.
  rewrite reverse_app. change (reverse [dquote]) with [dquote]. cbn [app].
  rewrite (trim_left_once qs dquote).
  - apply reverse_involutive.
  - apply Hq.
  - destruct (reverse (c :: l)) as [|d r] eqn:E.
    { apply (f_equal reverse) in E. by rewrite reverse_involutive in E. }
    assert (d ∈ c :: l) as Hd by (rewrite <-elem_of_reverse, E; apply list_elem_of_here).
    rewrite Forall_forall in Hl. destruct (Hl d Hd).
    by apply strip_any_starts_none, quote_starts_none.
Qed.

Lemma entry_chars_not c l :
  Forall (fun d => entry_char d = true) l -> entry_char c = false -> c ∉ l.
Proof. rewrite Forall_forall. intros Hl Hc Hin. specialize (Hl c Hin). congruence. Qed.

Definition join_entries (vals : list string) : chars := join [","%char] (s2l <$> vals).

Lemma join_entries_chars vals :
  Forall entry_ok vals ->
  Forall (fun c => unescaped c = true /\ (code c < 127)%N /\ code c <> 39%N) (join_entries vals).
Proof.
  unfold join_entries. induction 1 as [|s vals (_ & _ & Hs) Hvals IH]; [constructor|].
  assert (Forall (fun c => unescaped c = true /\ (code c < 127)%N /\ code c <> 39%N) (s2l s)).
  { eapply Forall_impl; [exact Hs|]. intros c Hc%entry_char_spec. naive_solver. }
  cbn [fmap list_fmap join]. destruct vals as [|s' vals]; cbn [fmap list_fmap]; [done|].
  apply Forall_app. split; [done|]. cbn [app]. constructor; [by vm_compute|]. exact IH.
Qed.

Lemma join_entries_ne vals : vals <> [] -> Forall entry_ok vals -> join_entries vals <> [].
Proof.
  intros Hne Hvals. destruct vals as [|s vals]; [done|]. apply Forall_cons in Hvals as [(Hs & _) _].
  unfold join_entries. cbn [fmap list_fmap join].
  assert (s2l s <> []) by (intros E; apply Hs; by rewrite <-(l2s_s2l s), E).
  destruct vals; cbn [fmap list_fmap]; [done|]. destruct (s2l s); done.
Qed.

Lemma splitCSV_join vals :
  vals <> [] -> Forall entry_ok vals -> splitCSV (l2s (join_entries vals)) = vals.
Proof.
  intros Hne Hvals. unfold splitCSV, join_entries. rewrite s2l_l2s, split_join.
  - rewrite <-list_fmap_compose.
    assert ((fun x => trim_space (l2s (s2l x))) <$> vals = vals) as E.
    { rewrite <-(list_fmap_id vals) at 2. apply list_fmap_ext. intros i s Hi. rewrite l2s_s2l.
      eapply Forall_lookup_1 in Hvals as (_ & H & _); [exact H|exact Hi]. }
    unfold compose. rewrite E. clear E Hne.
    induction Hvals as [|s vals [Hs _] _ IH]; [done|]. by rewrite filter_cons_True, IH.
  - by destruct vals.
  - apply Forall_fmap. eapply Forall_impl; [exact Hvals|]. intros s (_ & _ & Hs).
    by apply entry_chars_not.
Qed.

(** ** Reading back what was written *)

Lemma join_entries_unescaped vals :
  Forall entry_ok vals -> Forall (fun c => unescaped c = true) (join_entries vals).
Proof. intros H. eapply Forall_impl; [by apply join_entries_chars|]. naive_solver. Qed.

(** The text of a quoted line has no newline in it. *)
Lemma config_line_one_line key l :
  newline ∉ s2l key -> Forall (fun c => unescaped c = true) l -> newline ∉ config_line key l.
Proof.
  intros Hk Hl. unfold config_line. rewrite quote_unescaped by done.
  rewrite !not_elem_of_app, not_elem_of_cons, not_elem_of_app.
  split_and!; [done|by apply (bool_decide_unpack _); vm_compute|done| |].
  - intros Hin. rewrite Forall_forall in Hl. by specialize (Hl _ Hin).
  - by apply (bool_decide_unpack _); vm_compute.
Qed.

(** A key of the file: not empty, trimmed once the space after it is dropped,
    without an equals sign. *)
Definition key_ok (key : string) : bool :=
  match s2l key with
  | [] => false
  | c :: _ => starts_none spaces c && negb (Ascii.eqb c "#"%char)
  end && bool_decide ("="%char ∉ s2l key)
  && bool_decide (trim_space (key +:+ " ") = key)
  && bool_decide (newline ∉ s2l key).

Lemma parse_config_line key l cfg :
  key_ok key = true -> l <> [] ->
  Forall (fun c => unescaped c = true /\ (code c < 127)%N /\ code c <> 39%N) l ->
  parse_line (config_line key l) cfg = set_key key (l2s l) cfg.
Proof.
  unfold key_ok. rewrite !andb_true_iff, !bool_decide_eq_true. intros [[[Hc Heq] Htrim] _] Hne Hl.
  unfold config_line. rewrite quote_unescaped by (eapply Forall_impl; [exact Hl|naive_solver]).
  destruct (s2l key) as [|c k] eqn:Ek; [done|]. apply andb_true_iff in Hc as [Hc Hh].
  set (line := (c :: k) ++ s2l " = " ++ dquote :: l ++ [dquote]).
  assert (line = c :: (k ++ s2l " = " ++ dquote :: l) ++ [dquote]) as Hline.
  { unfold line. rewrite <-!app_assoc. cbn [app]. done. }
  unfold parse_line. cbv zeta.
  assert (trim_space (l2s line) = l2s line) as ->.
  { unfold trim_space. rewrite s2l_l2s. f_equal. apply trim_seqs_id. rewrite Hline.
    by apply trimmed_edges. }
  rewrite bool_decide_eq_false_2 by (intros E%(f_equal s2l); by rewrite s2l_l2s in E).
  assert (has_prefix (l2s line) "#" = false) as ->.
  { unfold has_prefix. apply bool_decide_eq_false. rewrite s2l_l2s. intros [r Hr].
    apply strip_prefix_Some in Hr. unfold line in Hr. injection Hr as Hr _. by rewrite Hr in Hh. }
  cbn [orb]. rewrite s2l_l2s.
  rewrite (proj2 (cut_Some "="%char line (s2l key ++ [" "%char])
                   (" "%char :: dquote :: l ++ [dquote]))).
  2:{ rewrite Ek. unfold line. split; [by rewrite <-app_assoc|].
      rewrite not_elem_of_app. split; [done|]. by apply (bool_decide_unpack _); vm_compute. }
  rewrite l2s_app, l2s_s2l. change (l2s [" "%char]) with " ". rewrite Htrim.
  unfold trim_space. rewrite s2l_l2s.
  rewrite trim_space_after_space by (by apply trimmed_edges).
  rewrite trim_quoted; [done|done|].
  eapply Forall_impl; [exact Hl|]. intros d (Hd%unescaped_bounds & _ & ?). naive_solver.
Qed.

Lemma parse_lines_app ls1 ls2 cfg cfg' :
  parse_lines ls1 cfg = Ok cfg' -> parse_lines (ls1 ++ ls2) cfg = parse_lines ls2 cfg'.
Proof.
  revert cfg. induction ls1 as [|l ls1 IH]; intros cfg; cbn; [by intros [= ->]|].
  destruct (parse_line l cfg); cbn; [apply IH|done].
Qed.

Lemma parse_csv key vals cfg cfg' :
  key_ok key = true -> Forall entry_ok vals ->
  (vals = [] -> cfg' = cfg) ->
  (vals <> [] -> set_key key (l2s (join_entries vals)) cfg = Ok cfg') ->
  parse_lines (csv_lines key vals) cfg = Ok cfg'.
Proof.
  intros Hk Hv Hnil Hset. destruct vals as [|s vals]; cbn [csv_lines parse_lines].
  { by rewrite Hnil. }
  change (join _ (s2l <$> s :: vals)) with (join_entries (s :: vals)).
  rewrite parse_config_line; [|done|by apply join_entries_ne|by apply join_entries_chars].
  by rewrite Hset.
Qed.

Lemma split_lines ls :
  Forall (fun l => newline ∉ l) ls ->
  split newline (ls ≫= (fun l => l ++ [newline])) = ls ++ [[]].
Proof.
  induction 1 as [|l ls Hl _ IH]; [done|]. cbn. rewrite <-app_assoc. cbn.
  rewrite split_app by done. by f_equal.
Qed.

Lemma csv_lines_one_line key vals :
  key_ok key = true -> Forall entry_ok vals ->
  Forall (fun l => newline ∉ l) (csv_lines key vals).
Proof.
  intros [_ Hn%bool_decide_eq_true]%andb_true_iff Hv. destruct vals; repeat constructor.
  apply config_line_one_line; [done|]. by apply join_entries_unescaped.
Qed.

Lemma mode_line_parses m cfg :
  m = "" \/ Valid m = true ->
  cfgMode cfg = "" ->
  parse_line (config_line "mode" (s2l m)) cfg =
    Ok {| cfgMode := m; MeshDNSServers := MeshDNSServers cfg;
          MeshDNSSearchDomains := MeshDNSSearchDomains cfg;
          MeshDNSMatchDomains := MeshDNSMatchDomains cfg |}.
Proof.
  intros Hm Hc. destruct cfg as [m0 a b c]; cbn in *; subst m0.
  destruct Hm as [->|Hm%Valid_spec]; [by vm_compute|].
  rewrite !elem_of_cons in Hm.
  destruct Hm as [->|[->|[->|H]]]; [by vm_compute..|by apply elem_of_nil in H].
Qed.

Lemma parse_render cfg : config_ok cfg -> parse (render cfg) = Ok cfg.
Proof.
  intros (Hm & H1 & H2 & H3). unfold parse, render.
  rewrite split_lines.
  2:{ unfold config_lines. rewrite !Forall_cons, !Forall_app. split_and!;
        [by apply (bool_decide_unpack _); vm_compute| |by apply csv_lines_one_line..].
      apply config_line_one_line; [by apply (bool_decide_unpack _); vm_compute|].
      destruct Hm as [->|Hm%Valid_spec]; [constructor|]. rewrite !elem_of_cons in Hm.
      destruct Hm as [->|[->|[->|H]]]; [by apply (bool_decide_unpack _); vm_compute..|].
      by apply elem_of_nil in H. }
  unfold config_lines. rewrite <-!app_comm_cons, <-!app_assoc. cbn [parse_lines].
  assert (parse_line config_header no_config = Ok no_config) as -> by (by vm_compute).
  cbn [mbind result_bind]. rewrite mode_line_parses by done. cbn [mbind result_bind].
  cbn [no_config MeshDNSServers MeshDNSSearchDomains MeshDNSMatchDomains].
  destruct cfg as [m srv dom mat]; cbn [cfgMode MeshDNSServers MeshDNSSearchDomains MeshDNSMatchDomains] in *.
  rewrite (parse_lines_app _ _ _ {| cfgMode := m; MeshDNSServers := srv;
      MeshDNSSearchDomains := []; MeshDNSMatchDomains := [] |}).
  2:{ apply parse_csv; [by vm_compute|done|by intros ->|]. intros Hne.
      unfold set_key. cbn. by rewrite splitCSV_join. }
  rewrite (parse_lines_app _ _ _ {| cfgMode := m; MeshDNSServers := srv;
      MeshDNSSearchDomains := dom; MeshDNSMatchDomains := [] |}).
  2:{ apply parse_csv; [by vm_compute|done|by intros ->|]. intros Hne.
      unfold set_key. cbn. by rewrite splitCSV_join. }
  rewrite (parse_lines_app _ _ _ {| cfgMode := m; MeshDNSServers := srv;
      MeshDNSSearchDomains := dom; MeshDNSMatchDomains := mat |}).
  2:{ apply parse_csv; [by vm_compute|done|by intros ->|]. intros Hne.
      unfold set_key. cbn. by rewrite splitCSV_join. }
  by vm_compute.
Qed.

(** ** The file through its writer and reader *)

Lemma sys_spec {N C} `{Countable N} (ok : nat -> bool) (w w' : world N C) r :
  sys ok w = (r, w') -> disk w' = disk w /\ past w' = past w.
Proof. unfold sys. destruct (ok _); intros; by simplify_eq. Qed.

Lemma Save_spec ok path cfg w r w' :
  Save ok path cfg w = (r, w') ->
  let v := visible (disk w) in let v' := <[Named path := render cfg]> v in
  (r = Ok tt /\ (cfgMode cfg = "" \/ Valid (cfgMode cfg) = true) /\ visible (disk w') = v' \/
   (exists e, r = Err e) /\ visible (disk w') = v) /\
  step_to (fun d => visible d = v \/ visible d = v') w w'.
Proof.
  intros Hsave v v'. unfold Save in Hsave.
  destruct (negb (bool_decide (cfgMode cfg = "")) && negb (Valid (cfgMode cfg))) eqn:Eg.
  { unfold fail in Hsave. simplify_eq. split; [by eauto|apply step_to_refl]. }
  assert (cfgMode cfg = "" \/ Valid (cfgMode cfg) = true) as Hm.
  { apply andb_false_iff in Eg as [Eg|Eg]; apply negb_false_iff in Eg; [left|by right].
    by apply bool_decide_eq_true in Eg. }
  unfold mbind, action_bind, with_err in Hsave.
  destruct (sys ok w) as [[[]|e] w1] eqn:E1; apply sys_spec in E1 as [Hd1 Hp1]; cbn [map_err] in Hsave.
  2:{ simplify_eq. rewrite Hd1. split; [by eauto|]. exists []. unfold crash_disks.
      by rewrite Hd1, Hp1. }
  destruct (write_temp ok [] save_steps path (render cfg) w1) as [r2 w2] eqn:E2.
  apply write_temp_spec in E2 as [Hw Hs]; [|by vm_compute; constructor].
  rewrite Hd1 in Hw, Hs. simplify_eq. split.
  - destruct Hw as [[-> Hv]|[[e ->] Hv]]; [left|right]; by eauto.
  - eapply step_to_trans; [|exact Hs]. exists []. unfold crash_disks. by rewrite Hd1, Hp1.
Qed.

(** A crash or a failed call at any point of [Save] leaves the config file
    either as it was or holding the whole new text; the file changes exactly
    when [Save] reports success, and an unknown mode is never written. *)
Theorem Save_atomic (ok : nat -> bool) (path : string) (cfg : PersistedConfig)
    (w w' : world string chars) (r : result config_error unit) :
  Save ok path cfg w = (r, w') ->
  (forall d, d ∈ crash_disks w' -> d ∈ crash_disks w \/
     d !! Named path = disk w !! Named path \/ d !! Named path = Some (render cfg)) /\
  disk w' !! Named path = (if is_ok r then Some (render cfg) else disk w !! Named path) /\
  (forall f, f <> path -> disk w' !! Named f = disk w !! Named f) /\
  (is_ok r = true -> cfgMode cfg = "" \/ Valid (cfgMode cfg) = true).
Proof.
  intros [Hr Hs]%Save_spec. split_and!.
  - intros d Hd. destruct (step_to_crash _ _ _ _ Hs Hd) as [?|[Hv|Hv]]; [by left|right..].
    + left. by apply lookup_visible_eq.
    + right. by rewrite (lookup_visible_insert _ _ _ _ _ Hv), bool_decide_eq_true_2.
  - destruct Hr as [(-> & _ & Hv)|[[e ->] Hv]]; cbn; [|by apply lookup_visible_eq].
    by rewrite (lookup_visible_insert _ _ _ _ _ Hv), bool_decide_eq_true_2.
  - intros f Hf. destruct Hr as [(-> & _ & Hv)|[[e ->] Hv]]; [|by apply lookup_visible_eq].
    by rewrite (lookup_visible_insert _ _ _ _ _ Hv), bool_decide_eq_false_2.
  - by destruct Hr as [(-> & ? & Hv)|[[e ->] Hv]].
Qed.

Definition sample_config : PersistedConfig :=
  {| cfgMode := Combined; MeshDNSServers := ["100.64.165.203"; "100.64.0.9"];
     MeshDNSSearchDomains := ["efdi.netbird.efdi-backbone.net"]; MeshDNSMatchDomains := [] |}.
Definition empty_world : world string chars := World ∅ [] 0.

Lemma Save_atomic_witness :
  disk (Save (fun n => n <? 4) "c" sample_config empty_world).2 !! Named "c" = None.
Proof.
  destruct (Save_atomic (fun n => n <? 4) "c" sample_config empty_world _ _
    (surjective_pairing _)) as (_ & H & _).
  rewrite H. vm_compute. reflexivity.
Defined.

(** C38: The configuration survives a save and a load: whatever operator-set
    DNS entries a config holds (trimmed, printable, without comma, quote or
    backslash) and whichever mode, [Load] after a successful [Save] gives the
    same config back, so a mode change that rewrites the file drops no key. *)
Theorem Save_Load_roundtrip (ok : nat -> bool) (path : string) (cfg : PersistedConfig)
    (w w' : world string chars) :
  config_ok cfg -> Save ok path cfg w = (Ok tt, w') -> ok (ticks w') = true ->
  (Load ok path w').1 = Ok cfg.
Proof.
  intros Hcfg [Hr _]%Save_spec Hok.
  destruct Hr as [(_ & _ & Hv)|[[e He] _]]; [|done].
  unfold Load, read_file.
  rewrite (lookup_visible_insert _ _ _ _ path Hv), bool_decide_eq_true_2, Hok by done.
  by rewrite (parse_render cfg Hcfg).
Qed.

Lemma Save_Load_roundtrip_witness :
  (Load (fun _ => true) "c" (Save (fun _ => true) "c" sample_config empty_world).2).1
  = Ok sample_config.
Proof.
  apply (Save_Load_roundtrip (fun _ => true) "c" sample_config empty_world).
  - by apply (bool_decide_unpack _); vm_compute.
  - by vm_compute.
  - done.
Defined.

(** A value that %q escapes does not survive: the reader has no unquoting. *)
Definition quoted_config : PersistedConfig :=
  {| cfgMode := Combined; MeshDNSServers := ["a\b"]; MeshDNSSearchDomains := [];
     MeshDNSMatchDomains := [] |}.
Lemma backslash_lost :
  parse (render quoted_config) =
    Ok {| cfgMode := Combined; MeshDNSServers := ["a\\b"]; MeshDNSSearchDomains := [];
          MeshDNSMatchDomains := [] |}.
Proof. by vm_compute. Qed.

(** [Parse] only yields modes that run something, and is idempotent: what
    it accepts is a valid mode, which parses to itself and includes the outer
    tunnel or the inner mesh; every valid mode is accepted. *)
Theorem Parse_sound (s m : string) :
  (Parse s = Ok m -> Valid m = true /\ Parse m = Ok m /\
     IncludesWGCP0 m || IncludesNetbird m = true) /\
  (Valid s = true -> Parse s = Ok s).
Proof.
  split; [|apply Parse_of_valid]. intros Hm%Parse_Valid.
  auto using Parse_of_valid, Includes_some.
Qed.

Lemma Parse_sound_witness : Valid Combined = true /\ Parse Combined = Ok Combined.
Proof.
  destruct (proj1 (Parse_sound " BOTH " Combined) eq_refl) as (H1 & H2 & _). by split.
Defined.
