(* ===== verification/Bundle.v ===== *)
(** Enrollment bundles and the offline-CA trust roots that must have signed
    them: internal/bundle/bundle.go and internal/bundle/trust.go.

    CBOR, SHA-256, ECDSA, PEM and X.509 are the libraries of the source: the
    operations of the classes [BundleCodec], [Crypto] and [PemX509], of which
    only documented behaviour is assumed (PEM decoding consumes input). *)
From stdpp Require Import base tactics list gmap strings.
From Stdlib Require Import ZArith Ascii Lia.
From S2P Require Import Prelude GoStr.
Local Open Scope list_scope.

Definition BundleVersion : Z := 1.

Definition Kind : Type := string.
Definition KindRelay : Kind := "cp-relay".
Definition KindPeer : Kind := "peer".
Definition KindMgmt : Kind := "mgmt".

Record KnownEndpoint := {
  Addr : string;
  Pubkey : chars;
  EpKind : Kind;
  MeshAddr : string;
  EpAllowedIPs : list string }.

Record InnerMeshSetup := {
  SetupManagementURL : string;
  SetupSetupKey : string;
  SetupAdminAccessToken : string;
  SetupPreSharedKey : chars;
  SetupRosenpassEnabled : bool;
  SetupRosenpassPermissive : bool }.

(** [time.Time] is an instant in nanoseconds. *)
Record EnrollmentBundle := {
  Version : Z;
  DeviceID : string;
  PeerPubkey : chars;
  ACLGroups : list string;
  Site : string;
  KnownEndpoints : list KnownEndpoint;
  IssuedAt : Z;
  ActivationDeadline : Z;
  ExpiresAt : Z;
  Nonce : chars;
  CAID : string;
  SnitchProbeKey : chars;
  TLSTrustAnchor : chars;
  CPDevicePubkey : chars;
  CPDevicePrivkey : chars;
  CPDeviceAddress : string;
  MeshSetup : InnerMeshSetup;
  MobileCert : chars;
  Signature : chars }.

(** [unsigned := *b; unsigned.Signature = nil]. *)
Definition unsigned (b : EnrollmentBundle) : EnrollmentBundle :=
  {| Version := Version b; DeviceID := DeviceID b; PeerPubkey := PeerPubkey b;
     ACLGroups := ACLGroups b; Site := Site b; KnownEndpoints := KnownEndpoints b;
     IssuedAt := IssuedAt b; ActivationDeadline := ActivationDeadline b;
     ExpiresAt := ExpiresAt b; Nonce := Nonce b; CAID := CAID b;
     SnitchProbeKey := SnitchProbeKey b; TLSTrustAnchor := TLSTrustAnchor b;
     CPDevicePubkey := CPDevicePubkey b; CPDevicePrivkey := CPDevicePrivkey b;
     CPDeviceAddress := CPDeviceAddress b; MeshSetup := MeshSetup b;
     MobileCert := MobileCert b; Signature := [] |}.

(** ** The libraries *)

(** Canonical CBOR of github.com/fxamacker/cbor; an error is [None]. *)
Class BundleCodec := {
  cbor_marshal : EnrollmentBundle -> option chars;
  cbor_unmarshal : chars -> option EnrollmentBundle }.

(** crypto/ecdsa, crypto/elliptic and crypto/sha256. [curve_name] is [None]
    for a key whose Curve field is nil. *)
Class Crypto := {
  PublicKey : Type;
  curve_name : PublicKey -> option string;
  sha256 : chars -> chars;
  VerifyASN1 : PublicKey -> chars -> chars -> bool }.

(** What a PEM block or certificate carries. *)
Inductive any_key {C : Crypto} :=
  | EcdsaKey (k : PublicKey)
  | OtherKey (type_name : string).

Record pem_block := { BlockType : string; BlockBytes : chars }.

Class PemX509 {C : Crypto} := {
  pem_decode : chars -> option (pem_block * chars);
  pem_decode_shorter data b rest :
    pem_decode data = Some (b, rest) -> length rest < length data;
  ParsePKIXPublicKey : chars -> option any_key;
  ParseCertificate : chars -> option any_key }.

(** ** Bundles *)
Definition ErrCPDeviceKeypairUnpaired : string :=
  "cp_device_pubkey/cp_device_privkey must be present together or both absent".

Definition nonempty (l : chars) : bool := (0 <? Z.of_nat (length l))%Z.

Definition CheckCPDeviceKeypair (b : EnrollmentBundle) : result string unit :=
  let pub := nonempty (CPDevicePubkey b) in
  let priv := nonempty (CPDevicePrivkey b) in
  if negb (Bool.eqb pub priv) then Err ErrCPDeviceKeypairUnpaired else Ok tt.

Definition HasInnerMesh (b : EnrollmentBundle) : bool :=
  negb (bool_decide (SetupManagementURL (MeshSetup b) = ""))
  && negb (bool_decide (SetupSetupKey (MeshSetup b) = "")).

Definition HasWgCp0 (b : EnrollmentBundle) : bool :=
  match CheckCPDeviceKeypair b with
  | Err _ => false
  | Ok _ =>
    (length (CPDevicePubkey b) =? 32) && ((length (CPDevicePrivkey b) =? 32)
      && negb (bool_decide (CPDeviceAddress b = "")))
  end.

Definition HasMobileCert (b : EnrollmentBundle) : bool := nonempty (MobileCert b).

Inductive expiry_error := ErrExpired | ErrActivationDeadlinePassed.

Definition CheckExpiry (b : EnrollmentBundle) (now : Z) : result expiry_error unit :=
  if (ExpiresAt b <? now)%Z then Err ErrExpired else Ok tt.

Definition CheckActivationDeadline (b : EnrollmentBundle) (now : Z) : result expiry_error unit :=
  if (ActivationDeadline b <? now)%Z then Err ErrActivationDeadlinePassed else Ok tt.

Inductive verify_error :=
  | ENilKey
  | EKeyCurve (got : string)
  | ESignatureEmpty
  | ESignable
  | ESignatureInvalid.

Inductive trust_error :=
  | ErrNoTrustRoots
  | ErrUntrustedBundle (last : option verify_error).

Inductive roots_error :=
  | ERootNil (i : nat)
  | ERootCurve (i : nat) (got : string)
  | EParsePublicKey
  | EParseCertificate
  | ENotEcdsa (got : string)
  | ECurve (got : string)
  | ESkipBlock
  | ENoBlocks
  | EReadRoots.

Definition P256 : string := "P-256".

Section verify.
Context {K : BundleCodec} {C : Crypto}.

Definition Signable (b : EnrollmentBundle) : option chars := cbor_marshal (unsigned b).
Definition Marshal (b : EnrollmentBundle) : option chars := cbor_marshal b.
Definition Unmarshal (data : chars) : result string EnrollmentBundle :=
  of_option "cbor unmarshal" (cbor_unmarshal data).

(** [k.Curve == nil || k.Curve.Params().Name != elliptic.P256().Params().Name],
    with the name it reports. *)
Definition wrong_curve (k : PublicKey) : option string :=
  match curve_name k with
  | None => Some "nil"
  | Some n => if bool_decide (n = P256) then None else Some n
  end.

Definition Verify (b : EnrollmentBundle) (pub : option PublicKey) : result verify_error unit :=
  match pub with
  | None => Err ENilKey
  | Some k =>
    match wrong_curve k with
    | Some got => Err (EKeyCurve got)
    | None =>
      if length (Signature b) =? 0 then Err ESignatureEmpty
      else match Signable b with
           | None => Err ESignable
           | Some payload =>
             if VerifyASN1 k (sha256 payload) (Signature b) then Ok tt else Err ESignatureInvalid
           end
    end
  end.

(** ** Trust roots: the pinned keys; [None] is a nil [*TrustRoots]. *)
Record TrustRoots := { keys : list PublicKey }.

Fixpoint add_roots (i : nat) (ks : list (option PublicKey)) (tr : TrustRoots)
    : result roots_error TrustRoots :=
  match ks with
  | [] => Ok tr
  | None :: _ => Err (ERootNil i)
  | Some k :: ks' =>
    match wrong_curve k with
    | Some got => Err (ERootCurve i got)
    | None => add_roots (S i) ks' {| keys := keys tr ++ [k] |}
    end
  end.

Definition NewTrustRoots (ks : list (option PublicKey)) : result roots_error TrustRoots :=
  add_roots 0 ks {| keys := [] |}.

Definition Keys (tr : option TrustRoots) : list PublicKey :=
  match tr with None => [] | Some t => keys t end.

Definition Add (k : option PublicKey) : action TrustRoots roots_error unit := fun tr =>
  match k with
  | None => (Err (ERootNil 0), tr)
  | Some k =>
    match wrong_curve k with
    | Some got => (Err (ERootCurve 0 got), tr)
    | None => (Ok tt, {| keys := keys tr ++ [k] |})
    end
  end.

Definition Empty (tr : option TrustRoots) : bool :=
  match tr with None => true | Some t => length (keys t) =? 0 end.

(** The loop of [VerifyBundle]: the first root that verifies ends it. *)
Fixpoint verify_any (b : EnrollmentBundle) (ks : list PublicKey) (lastErr : option verify_error)
    : result trust_error unit :=
  match ks with
  | [] => Err (ErrUntrustedBundle lastErr)
  | k :: ks' =>
    match Verify b (Some k) with
    | Ok _ => Ok tt
    | Err e => verify_any b ks' (Some e)
    end
  end.

Definition VerifyBundle (tr : option TrustRoots) (b : EnrollmentBundle) : result trust_error unit :=
  if Empty tr then Err ErrNoTrustRoots else verify_any b (Keys tr) None.

(** *** Loading roots from PEM *)
Context {P : PemX509}.

Definition ecdsa_p256 (k : any_key) : result roots_error PublicKey :=
  match k with
  | OtherKey t => Err (ENotEcdsa t)
  | EcdsaKey k =>
    match wrong_curve k with
    | Some got => Err (ECurve got)
    | None => Ok k
    end
  end.

Definition publicKeyFromPEMBlock (block : pem_block) : result roots_error PublicKey :=
  if bool_decide (BlockType block = "PUBLIC KEY") then
    k ← of_option EParsePublicKey (ParsePKIXPublicKey (BlockBytes block)); ecdsa_p256 k
  else if bool_decide (BlockType block = "CERTIFICATE") then
    k ← of_option EParseCertificate (ParseCertificate (BlockBytes block)); ecdsa_p256 k
  else Err ESkipBlock.

(** The [for] loop of [LoadTrustRootsFromPEM]; every iteration consumes input,
    so the length of the data is fuel enough. *)
Fixpoint load_loop (fuel : nat) (rest : chars) (ks : list PublicKey)
    : result roots_error (list PublicKey) :=
  match fuel with
  | O => Ok ks
  | S n =>
    match pem_decode rest with
    | None => Ok ks
    | Some (block, rest') =>
      match publicKeyFromPEMBlock block with
      | Ok pub => load_loop n rest' (ks ++ [pub])
      | Err ESkipBlock => load_loop n rest' ks
      | Err e => Err e
      end
    end
  end.

Definition LoadTrustRootsFromPEM (data : chars) : result roots_error TrustRoots :=
  ks ← load_loop (S (length data)) data [];
  if length ks =? 0 then Err ENoBlocks else Ok {| keys := ks |}.

Definition LoadTrustRootsFromFile (read : option chars) : result roots_error TrustRoots :=
  data ← of_option EReadRoots read; LoadTrustRootsFromPEM data.
End verify.

(** ** The import dialog's preview *)
Record Metadata := {
  IssuedTo : string;
  MetaSite : string;
  NotBefore : Z;
  NotAfter : Z;
  PeerPubKey : string;
  MetaEndpoints : list string }.

(** base64.StdEncoding is an argument. *)
Definition Preview {K : BundleCodec} (base64 : chars -> string) (raw : chars) : result string Metadata :=
  if length raw =? 0 then Err "bundle is empty"
  else
    b ← Unmarshal raw;
    Ok {| IssuedTo := DeviceID b; MetaSite := Site b; NotBefore := IssuedAt b;
          NotAfter := ExpiresAt b; PeerPubKey := base64 (PeerPubkey b);
          MetaEndpoints := Addr <$> KnownEndpoints b |}.

(** ** Lemmas *)
Section lemmas.
Context {K : BundleCodec} {C : Crypto}.

Definition p256 (k : PublicKey) : Prop := curve_name k = Some P256.

Lemma wrong_curve_None k : wrong_curve k = None <-> p256 k.
Proof.
  unfold wrong_curve, p256. destruct (curve_name k) as [n|]; [|naive_solver].
  destruct (bool_decide_reflect (n = P256)); naive_solver.
Qed.

(** The signature of [b] is the one [k] makes on its payload. *)
Definition signed_by (k : PublicKey) (b : EnrollmentBundle) : Prop :=
  p256 k /\ Signature b <> [] /\
  exists payload, Signable b = Some payload /\ VerifyASN1 k (sha256 payload) (Signature b) = true.

Lemma Verify_Ok b k : Verify b (Some k) = Ok tt <-> signed_by k b.
Proof.
  unfold Verify, signed_by. rewrite <-wrong_curve_None.
  destruct (wrong_curve k); [naive_solver|].
  destruct (Signature b) as [|c l] eqn:E; cbn [length Nat.eqb]; [naive_solver|]. rewrite <-E.
  destruct (Signable b) as [p|]; [|naive_solver].
  destruct (VerifyASN1 k (sha256 p) (Signature b)) eqn:Ev; naive_solver congruence.
Qed.

Lemma verify_any_Ok b ks last :
  verify_any b ks last = Ok tt <-> exists k, k ∈ ks /\ signed_by k b.
Proof.
  revert last. induction ks as [|k ks IH]; intros last; cbn [verify_any].
  { split; [done|]. intros (k & Hk & _). by apply elem_of_nil in Hk. }
  destruct (Verify b (Some k)) as [[]|e] eqn:E.
  - split; [|done]. intros _. exists k. split; [set_solver|by apply Verify_Ok].
  - rewrite IH. split; intros (k' & Hk & Hs).
    + exists k'. set_solver.
    + apply elem_of_cons in Hk as [->|Hk]; [|by eauto].
      apply Verify_Ok in Hs. congruence.
Qed.

Lemma verify_any_not_empty b ks last : verify_any b ks last <> Err ErrNoTrustRoots.
Proof.
  revert last. induction ks as [|k ks IH]; intros last; cbn [verify_any]; [done|].
  by destruct (Verify b (Some k)).
Qed.

Lemma VerifyBundle_Ok tr b :
  VerifyBundle tr b = Ok tt <-> exists k, k ∈ Keys tr /\ signed_by k b.
Proof.
  unfold VerifyBundle, Empty. destruct tr as [[ks]|]; cbn [Keys keys].
  - destruct ks as [|k ks]; cbn [length Nat.eqb]; [|apply verify_any_Ok].
    split; [done|]. intros (k & Hk & _). by apply elem_of_nil in Hk.
  - split; [done|]. intros (k & Hk & _). by apply elem_of_nil in Hk.
Qed.

Context {P : PemX509}.

Lemma ecdsa_p256_Ok a k : ecdsa_p256 a = Ok k <-> a = EcdsaKey k /\ p256 k.
Proof.
  unfold ecdsa_p256. destruct a as [k'|t]; [|naive_solver].
  destruct (wrong_curve k') eqn:E; [|rewrite wrong_curve_None in E; naive_solver].
  split; [done|]. intros [[= ->] H%wrong_curve_None]. congruence.
Qed.

(** What a block contributes: [None] if the loader skips it. *)
Definition block_key (b : pem_block) : option any_key :=
  if bool_decide (BlockType b = "PUBLIC KEY") then ParsePKIXPublicKey (BlockBytes b)
  else if bool_decide (BlockType b = "CERTIFICATE") then ParseCertificate (BlockBytes b)
  else None.
Definition block_expected (b : pem_block) : bool :=
  bool_decide (BlockType b = "PUBLIC KEY") || bool_decide (BlockType b = "CERTIFICATE").

Lemma publicKeyFromPEMBlock_Ok b k :
  publicKeyFromPEMBlock b = Ok k <->
  block_expected b = true /\ block_key b = Some (EcdsaKey k) /\ p256 k.
Proof.
  unfold publicKeyFromPEMBlock, block_expected, block_key.
  destruct (bool_decide (BlockType b = "PUBLIC KEY")); cbn [orb].
  - rewrite bind_Ok. setoid_rewrite ecdsa_p256_Ok.
    destruct (ParsePKIXPublicKey _); cbn; naive_solver.
  - destruct (bool_decide (BlockType b = "CERTIFICATE")); [|naive_solver].
    rewrite bind_Ok. setoid_rewrite ecdsa_p256_Ok.
    destruct (ParseCertificate _); cbn; naive_solver.
Qed.

Lemma publicKeyFromPEMBlock_skip b :
  publicKeyFromPEMBlock b = Err ESkipBlock <-> block_expected b = false.
Proof.
  unfold publicKeyFromPEMBlock, block_expected.
  destruct (bool_decide (BlockType b = "PUBLIC KEY")); cbn [orb].
  - destruct (ParsePKIXPublicKey _) as [[k|t]|]; cbn; [|done..]. by case_match.
  - destruct (bool_decide (BlockType b = "CERTIFICATE")); [|done].
    destruct (ParseCertificate _) as [[k|t]|]; cbn; [|done..]. by case_match.
Qed.

(** The blocks of a PEM text, in order. *)
Inductive pem_blocks : chars -> list pem_block -> Prop :=
  | pem_none data : pem_decode data = None -> pem_blocks data []
  | pem_some data b rest bs :
      pem_decode data = Some (b, rest) -> pem_blocks rest bs -> pem_blocks data (b :: bs).

Lemma pem_blocks_total data : exists bs, pem_blocks data bs.
Proof.
  induction data as [data IH] using (induction_ltof1 _ (@length ascii)); unfold ltof in IH.
  destruct (pem_decode data) as [[b rest]|] eqn:E; [|by eexists; constructor].
  destruct (IH rest (pem_decode_shorter _ _ _ E)) as [bs Hbs]. exists (b :: bs). by econstructor.
Qed.

(** [Forall2] on the blocks that count: each is a P-256 key of the result. *)
Definition roots_of (bs : list pem_block) (ks : list PublicKey) : Prop :=
  Forall2 (fun b k => block_key b = Some (EcdsaKey k) /\ p256 k) (filter block_expected bs) ks.

Lemma load_loop_Ok fuel data bs ks0 ks :
  length data < fuel -> pem_blocks data bs ->
  load_loop fuel data ks0 = Ok ks <-> exists ks', ks = ks0 ++ ks' /\ roots_of bs ks'.
Proof.
  unfold roots_of. intros Hf Hbs. revert fuel ks0 Hf.
  induction Hbs as [data E|data b rest bs E Hbs IH]; intros [|n] ks0 Hf; [lia| |lia|];
    cbn [load_loop]; rewrite E.
  - split.
    + intros [= ->]. exists []. by rewrite app_nil_r.
    + by intros (ks' & -> & ->%Forall2_nil_inv_l); rewrite app_nil_r.
  - pose proof (pem_decode_shorter _ _ _ E).
    destruct (publicKeyFromPEMBlock b) as [k|e] eqn:Eb.
    + rewrite IH by lia. apply publicKeyFromPEMBlock_Ok in Eb as (He & Hk & Hp).
      rewrite filter_cons_True by (by rewrite He). split.
      * intros (ks' & -> & Hks). exists (k :: ks'). rewrite <-app_assoc. split; [done|].
        by constructor.
      * intros (ks' & -> & Hks). apply Forall2_cons_inv_l in Hks as (k' & ks'' & [Hk' _] & Hks & ->).
        exists ks''. rewrite <-app_assoc. split; [|done]. simplify_eq. by f_equal.
    + destruct (decide (block_expected b = true)) as [He|He].
      * rewrite filter_cons_True by (by rewrite He). split.
        -- destruct e; try done. apply publicKeyFromPEMBlock_skip in Eb. congruence.
        -- intros (ks' & _ & Hks). apply Forall2_cons_inv_l in Hks as (k' & ? & [Hk Hp] & _).
           rewrite (proj2 (publicKeyFromPEMBlock_Ok b k')) in Eb by done. done.
      * apply not_true_is_false in He. rewrite filter_cons_False by (rewrite He; auto).
        rewrite (proj2 (publicKeyFromPEMBlock_skip b) He) in Eb. injection Eb as <-.
        apply IH. lia.
Qed.
End lemmas.

(** ** The trust decision *)
Section properties.
Context {K : BundleCodec} {C : Crypto} {P : PemX509}.

(** C1: Signature checking is fail-closed and exact: [VerifyBundle] accepts a
    bundle if and only if it carries a non-empty signature that one of the
    pinned roots, a P-256 key, makes on the SHA-256 of the bundle's canonical
    encoding with the signature cleared; a nil or empty root set accepts
    nothing and says so. *)
Theorem VerifyBundle_exact (tr : option TrustRoots) (b : EnrollmentBundle) :
  (VerifyBundle tr b = Ok tt <->
   exists k payload, k ∈ Keys tr /\ curve_name k = Some P256 /\ Signature b <> [] /\
     Signable b = Some payload /\ VerifyASN1 k (sha256 payload) (Signature b) = true) /\
  (VerifyBundle tr b = Err ErrNoTrustRoots <-> Keys tr = []).
Proof.
  split.
  - rewrite VerifyBundle_Ok. unfold signed_by, p256. naive_solver.
  - unfold VerifyBundle, Empty. destruct tr as [[ks]|]; [|done]. cbn [keys Keys].
    destruct ks as [|k ks]; [done|]. cbn [length Nat.eqb]. split; [|done].
    by intros H%verify_any_not_empty.
Qed.

(** Key rotation: [Add] refuses a nil key and any curve but P-256, leaving
    the set as it was; otherwise the set accepts exactly the bundles it
    accepted before and those the new key signs. *)
Theorem Add_rotation (tr tr' : TrustRoots) (k : option PublicKey) (r : result roots_error unit) :
  Add k tr = (r, tr') ->
  (is_ok r = true <-> exists k', k = Some k' /\ p256 k') /\
  (is_ok r = false -> tr' = tr) /\
  (forall b, is_ok r = true ->
     VerifyBundle (Some tr') b = Ok tt <->
     VerifyBundle (Some tr) b = Ok tt \/ Verify b k = Ok tt).
Proof.
  unfold Add. destruct k as [k|]; [|intros [= <- <-]; naive_solver].
  destruct (wrong_curve k) as [got|] eqn:E; intros [= <- <-].
  - split_and!; [|done|done]. split; [done|].
    intros (k' & [= <-] & Hp%wrong_curve_None). congruence.
  - apply wrong_curve_None in E. split_and!; [by split; [exists k|]|done|]. intros b _.
    rewrite !VerifyBundle_Ok, Verify_Ok. cbn [Keys keys]. split.
    + intros (k' & [Hk|Hk]%elem_of_app & Hs); [by eauto|]. apply list_elem_of_singleton in Hk as ->.
      by right.
    + intros [(k' & Hk & Hs)|Hs]; [exists k'|exists k]; set_solver.
Qed.

(** Loading roots terminates and is exact: [LoadTrustRootsFromPEM] succeeds
    if and only if every PUBLIC KEY and CERTIFICATE block of the text carries
    an ECDSA P-256 key and there is at least one; the roots are those keys in
    order, other blocks are skipped, and one bad block fails the whole file. *)
Theorem LoadTrustRoots_exact (data : chars) (tr : TrustRoots) :
  LoadTrustRootsFromPEM data = Ok tr <->
  exists bs, pem_blocks data bs /\ keys tr <> [] /\ roots_of bs (keys tr).
Proof.
  unfold LoadTrustRootsFromPEM. rewrite bind_Ok. split.
  - intros (ks & Hl & H). destruct (pem_blocks_total data) as [bs Hbs].
    apply (load_loop_Ok _ _ bs) in Hl as (ks' & -> & Hr); [|lia|done].
    destruct ks' as [|k ks']; [done|]. cbn in H. injection H as <-. by exists bs.
  - intros (bs & Hbs & Hne & Hr). exists (keys tr). split.
    + apply (load_loop_Ok _ _ bs); [lia|done|]. by exists (keys tr).
    + destruct tr as [[|k ks]]; done.
Qed.
End properties.

(** A toy instance, on which hypotheses about the libraries can be met: the
    encoding of a bundle is its device id, a key signs a payload by its name. *)
Module Toy.
Definition bundle_of (id sig : string) : EnrollmentBundle :=
  {| Version := 1; DeviceID := id; PeerPubkey := []; ACLGroups := []; Site := "lab";
     KnownEndpoints := []; IssuedAt := 0; ActivationDeadline := 10; ExpiresAt := 100;
     Nonce := []; CAID := "ca"; SnitchProbeKey := []; TLSTrustAnchor := [];
     CPDevicePubkey := []; CPDevicePrivkey := []; CPDeviceAddress := "";
     MeshSetup := {| SetupManagementURL := ""; SetupSetupKey := ""; SetupAdminAccessToken := "";
                     SetupPreSharedKey := []; SetupRosenpassEnabled := false;
                     SetupRosenpassPermissive := false |};
     MobileCert := []; Signature := s2l sig |}.

#[export] Instance codec : BundleCodec := {|
  cbor_marshal b := Some (s2l (DeviceID b) ++ "|"%char :: Signature b);
  cbor_unmarshal data :=
    '(id, sig) ← cut "|"%char data; Some (bundle_of (l2s id) (l2s sig)) |}.

#[export] Instance crypto : Crypto := {|
  PublicKey := string;
  curve_name k := if bool_decide (k = "old") then Some "P-384" else Some P256;
  sha256 x := x;
  VerifyASN1 k digest sig := bool_decide (sig = s2l k) |}.
End Toy.

Lemma Add_rotation_witness :
  VerifyBundle (C := Toy.crypto) (K := Toy.codec) (Some {| keys := ["ca1"; "ca2"] : list (@PublicKey Toy.crypto) |})
    (Toy.bundle_of "d" "ca2") = Ok tt.
Proof.
  apply (proj2 (proj2 (Add_rotation (C := Toy.crypto) (K := Toy.codec)
    {| keys := ["ca1"] : list (@PublicKey Toy.crypto) |} _ (Some ("ca2" : @PublicKey Toy.crypto)) (Ok tt) eq_refl))
    (Toy.bundle_of "d" "ca2") eq_refl).
  right. vm_compute. reflexivity.
Defined.
