(* ===== verification/Profile.v ===== *)
(** The multi-network profile store: internal/profile/profile.go and
    internal/profile/migrate.go.

    The store is the file system of Fs.v over the files it names: per slug the
    metadata and the bundle, the active marker, and the v0.1.x bundle the
    migration reads. A JSON file the store wrote is represented by the value
    it encodes; any other content is [Raw] bytes, and what encoding/json reads
    from those is the class [RawJson]. Slugs handed in by callers are opaque
    names; ProfilePaths.v has the paths they stand for. Every operation takes the fault oracle and, where the source calls
    time.Now, the time. *)
From stdpp Require Import base tactics list gmap strings sorting.
From Stdlib Require Import ZArith Ascii Lia.
From Stdlib Require String.
From S2P Require Import Prelude GoStr Fs Mode Bundle.
Local Open Scope list_scope.

(** ** Names and slugs *)
Definition dash : ascii := "-"%char.
Definition slug_char (c : ascii) : bool := is_lower c || is_digit c.

(** [slugRegex.ReplaceAllString(s, "-")]: each maximal run of other
    characters becomes one dash. *)
Fixpoint collapse (in_run : bool) (l : chars) : chars :=
  match l with
  | [] => []
  | c :: l' =>
    if slug_char c then c :: collapse false l'
    else if in_run then collapse true l' else dash :: collapse true l'
  end.

Definition Slugify (name : string) : string :=
  let s := to_lower (trim_space name) in
  let s := l2s (collapse false (s2l s)) in
  trim s "-".

Definition reservedSlugs : list string := ["active"; ""; "."; ".."].

(** ** Files *)
Inductive pfile := MetaFile (slug : string) | BundleFile (slug : string) | ActiveFile | LegacyFile.

#[export] Instance pfile_eq_dec : EqDecision pfile.
Proof. solve_decision. Defined.
#[export] Instance pfile_countable : Countable pfile.
Proof.
  apply (inj_countable'
    (fun f => match f with MetaFile s => inl (inl s) | BundleFile s => inl (inr s)
              | ActiveFile => inr true | LegacyFile => inr false end)
    (fun s => match s with inl (inl s) => MetaFile s | inl (inr s) => BundleFile s
              | inr true => ActiveFile | inr false => LegacyFile end)).
  by intros [].
Defined.

(** [meta], the shape of <slug>.meta.json. *)
Record meta := {
  mName : string;
  mMode : Mode;
  mCreatedAt : Z;
  mUpdatedAt : Z;
  mRosenpassEnabled : option bool;
  mRosenpassPermissive : option bool }.

Definition zero_meta : meta :=
  {| mName := ""; mMode := ""; mCreatedAt := 0; mUpdatedAt := 0;
     mRosenpassEnabled := None; mRosenpassPermissive := None |}.

Inductive content :=
  | MetaJson (m : meta)
  | ActiveJson (active : string)
  | Raw (bytes : chars).

(** What json.Unmarshal makes of bytes that the store did not write. *)
Class RawJson := {
  raw_meta : chars -> option meta;
  raw_active : chars -> option string }.

(** Unmarshalling ignores the fields the target does not have. *)
Definition parse_meta {J : RawJson} (c : content) : option meta :=
  match c with
  | MetaJson m => Some m
  | ActiveJson _ => Some zero_meta
  | Raw b => raw_meta b
  end.
Definition parse_active {J : RawJson} (c : content) : option string :=
  match c with
  | MetaJson _ => Some ""
  | ActiveJson a => Some a
  | Raw b => raw_active b
  end.
(** A JSON document is no CBOR map. *)
Definition parse_bundle {K : BundleCodec} (c : content) : result string EnrollmentBundle :=
  match c with Raw b => Unmarshal b | _ => Err "cbor unmarshal" end.

Abbreviation pworld := (world pfile content).
Abbreviation pdisk := (gmap (file pfile) content).

Inductive profile_error :=
  | ErrNotFound
  | ErrAlreadyExists
  | ErrInvalidName
  | EInvalidMode
  | EEmptyBundle
  | EParseBundle
  | EVerify (e : trust_error)
  | EKeypair
  | EReadDir
  | EReadMeta
  | EParseMeta
  | EReadBundle
  | EReadActive
  | EParseActive
  | EMkdir
  | EWriteFile (e : fserr)
  | ERemoveMeta
  | ERemoveBundle
  | EClearActive (e : profile_error)
  | EUpdateActive (e : profile_error)
  | EReadLegacy
  | EParseLegacy
  | EListProfiles (e : profile_error)
  | EAddMigrated (e : profile_error)
  | ESetActiveMigrated (e : profile_error).

(** [Profile] and [Info]. *)
Record Profile := {
  pName : string;
  pMode : Mode;
  pBundle : EnrollmentBundle;
  pCreatedAt : Z;
  pUpdatedAt : Z;
  pRosenpassEnabled : option bool;
  pRosenpassPermissive : option bool }.

Record Info := {
  iName : string;
  iSlug : string;
  iMode : Mode;
  iDeviceID : string;
  iSite : string;
  iExpiresAt : Z;
  iCreatedAt : Z;
  iUpdatedAt : Z;
  iActive : bool }.

Definition set_active_flag (a : bool) (i : Info) : Info :=
  {| iName := iName i; iSlug := iSlug i; iMode := iMode i; iDeviceID := iDeviceID i;
     iSite := iSite i; iExpiresAt := iExpiresAt i; iCreatedAt := iCreatedAt i;
     iUpdatedAt := iUpdatedAt i; iActive := a |}.

Record AddProfileRequest := {
  reqName : string;
  reqMode : Mode;
  reqBundleBytes : chars;
  reqReplace : bool }.

Definition validateName (name : string) : result profile_error string :=
  let slug := Slugify name in
  if bool_decide (slug = "") then Err ErrInvalidName
  else if bool_decide (slug ∈ reservedSlugs) then Err ErrInvalidName
  else Ok slug.

(** [New]: the two paths are required. *)
Definition New (dir activePath : string) : result string unit :=
  if bool_decide (dir = "") then Err "profile: Dir required"
  else if bool_decide (activePath = "") then Err "profile: ActivePath required"
  else Ok tt.

Section store.
Context {K : BundleCodec} {C : Crypto} {J : RawJson}.
Context (trustRoots : option TrustRoots) (ok : nat -> bool).

Abbreviation act := (action pworld profile_error).

(** ** Internal file helpers *)

(** The steps of [writeAtomic] between CreateTemp and Rename. *)
Definition atomic_steps : list wstep := [WWrite; WSync; WClose; WChmod].
Definition writeAtomic (path : pfile) (data : content) : act unit :=
  with_err EWriteFile (write_temp ok (Raw []) atomic_steps path data).

Definition readMeta (slug : string) : act meta :=
  data ← with_err (fun e => match e with ENoEnt => ErrNotFound | EIo => EReadMeta end)
           (read_file ok (Named (MetaFile slug)));
  lift (of_option EParseMeta (parse_meta data)).

Definition readActiveMarker : act string :=
  r ← attempt (read_file ok (Named ActiveFile));
  match r with
  | Err ENoEnt => mret ""
  | Err EIo => fail EReadActive
  | Ok data => lift (of_option EParseActive (parse_active data))
  end.

Definition writeMeta (slug : string) (m : meta) : act unit :=
  _ ← with_err (fun _ => EMkdir) (sys ok);
  writeAtomic (MetaFile slug) (MetaJson m).

Definition writeBundle (slug : string) (data : content) : act unit :=
  _ ← with_err (fun _ => EMkdir) (sys ok);
  writeAtomic (BundleFile slug) data.

Definition writeActiveLocked (slug : string) : act unit :=
  _ ← with_err (fun _ => EMkdir) (sys ok);
  writeAtomic ActiveFile (ActiveJson slug).

(** [v, _ := f()]: the zero value on an error. *)
Definition or_zero {E A} (z : A) (r : result E A) : A := match r with Ok a => a | Err _ => z end.

(** ** Reading *)
Definition summarise (slug : string) : act Info :=
  m ← readMeta slug;
  let info := {| iName := mName m; iSlug := slug; iMode := mMode m; iDeviceID := ""; iSite := "";
                 iExpiresAt := 0; iCreatedAt := mCreatedAt m; iUpdatedAt := mUpdatedAt m;
                 iActive := false |} in
  r ← attempt (read_file ok (Named (BundleFile slug)));
  match r with
  | Err _ => mret info
  | Ok data =>
    match parse_bundle data with
    | Err _ => mret info
    | Ok b => mret {| iName := mName m; iSlug := slug; iMode := mMode m; iDeviceID := DeviceID b;
                      iSite := Site b; iExpiresAt := ExpiresAt b; iCreatedAt := mCreatedAt m;
                      iUpdatedAt := mUpdatedAt m; iActive := false |}
    end
  end.

(** os.ReadDir: the metadata files, sorted by file name. *)
Definition meta_slugs (d : pdisk) : list string :=
  merge_sort (fun s t => String.le (s +:+ ".meta.json") (t +:+ ".meta.json"))
    (omap (fun p => match p.1 with Named (MetaFile s) => Some s | _ => None end) (map_to_list d)).

Fixpoint list_loop (active : string) (slugs : list string) : act (list Info) :=
  match slugs with
  | [] => mret []
  | slug :: rest =>
    r ← attempt (summarise slug);
    out ← list_loop active rest;
    match r with
    | Err _ => mret out
    | Ok info => mret (set_active_flag (bool_decide (slug = active)) info :: out)
    end
  end.

Definition by_name (i j : Info) : Prop := String.le (iName i) (iName j).
#[export] Instance by_name_dec i j : Decision (by_name i j).
Proof. unfold by_name. apply _. Defined.

Definition List : act (list Info) :=
  _ ← with_err (fun _ => EReadDir) (sys ok);
  slugs ← run (gets (fun w => meta_slugs (disk w)));
  active ← attempt readActiveMarker;
  out ← list_loop (or_zero "" active) slugs;
  mret (merge_sort by_name out).

Definition loadLocked (slug : string) : act Profile :=
  m ← readMeta slug;
  data ← with_err (fun e => match e with ENoEnt => ErrNotFound | EIo => EReadBundle end)
           (read_file ok (Named (BundleFile slug)));
  b ← lift (map_err (fun _ => EParseBundle) (parse_bundle data));
  mret {| pName := mName m; pMode := mMode m; pBundle := b; pCreatedAt := mCreatedAt m;
          pUpdatedAt := mUpdatedAt m; pRosenpassEnabled := mRosenpassEnabled m;
          pRosenpassPermissive := mRosenpassPermissive m |}.

Definition Load (slug : string) : act Profile := loadLocked slug.

Definition Active : act string := readActiveMarker.

(** ** Mutating operations *)

(** The checks of [Add] before it takes the lock. *)
Definition check_request (req : AddProfileRequest) : result profile_error (string * EnrollmentBundle) :=
  slug ← validateName (reqName req);
  if negb (Valid (reqMode req)) then Err EInvalidMode
  else if length (reqBundleBytes req) =? 0 then Err EEmptyBundle
  else
    b ← map_err (fun _ => EParseBundle) (Unmarshal (reqBundleBytes req));
    if Empty trustRoots then Err (EVerify ErrNoTrustRoots)
    else
      _ ← map_err EVerify (VerifyBundle trustRoots b);
      _ ← map_err (fun _ => EKeypair) (CheckCPDeviceKeypair b);
      Ok (slug, b).

Definition Add (now : Z) (req : AddProfileRequest) : act Info :=
  '(slug, b) ← lift (check_request req);
  _ ← (if reqReplace req then mret tt
       else r ← attempt (readMeta slug);
            match r with Ok _ => fail ErrAlreadyExists | Err _ => mret tt end);
  created ← (if reqReplace req then
               r ← attempt (readMeta slug);
               match r with Ok prev => mret (mCreatedAt prev) | Err _ => mret now end
             else mret now);
  let m := {| mName := trim_space (reqName req); mMode := reqMode req; mCreatedAt := created;
              mUpdatedAt := now; mRosenpassEnabled := None; mRosenpassPermissive := None |} in
  _ ← writeBundle slug (Raw (reqBundleBytes req));
  r ← attempt (writeMeta slug m);
  match r with
  | Err e => _ ← run (cleanup ok (Named (BundleFile slug))); fail e
  | Ok _ =>
    active ← attempt readActiveMarker;
    mret {| iName := mName m; iSlug := slug; iMode := mMode m; iDeviceID := DeviceID b;
            iSite := Site b; iExpiresAt := ExpiresAt b; iCreatedAt := mCreatedAt m;
            iUpdatedAt := mUpdatedAt m; iActive := bool_decide (slug = or_zero "" active) |}
  end.

(** [err != nil && !errors.Is(err, os.ErrNotExist)] after an os.Remove. *)
Definition remove_existing (e : profile_error) (f : pfile) : act unit :=
  r ← attempt (remove_file ok (Named f));
  match r with Err EIo => fail e | _ => mret tt end.

Definition Remove (slug : string) : act unit :=
  _ ← readMeta slug;
  active ← attempt readActiveMarker;
  _ ← remove_existing ERemoveMeta (MetaFile slug);
  _ ← remove_existing ERemoveBundle (BundleFile slug);
  if bool_decide (slug = or_zero "" active)
  then with_err EClearActive (writeActiveLocked "")
  else mret tt.

Definition Rename (now : Z) (oldSlug newName : string) : act Info :=
  newSlug ← lift (validateName newName);
  if bool_decide (newSlug = oldSlug) then
    m ← readMeta oldSlug;
    let m := {| mName := trim_space newName; mMode := mMode m; mCreatedAt := mCreatedAt m;
                mUpdatedAt := now; mRosenpassEnabled := mRosenpassEnabled m;
                mRosenpassPermissive := mRosenpassPermissive m |} in
    _ ← writeMeta oldSlug m;
    summarise oldSlug
  else
    r ← attempt (readMeta newSlug);
    match r with
    | Ok _ => fail ErrAlreadyExists
    | Err _ =>
      m ← readMeta oldSlug;
      data ← with_err (fun _ => EReadBundle) (read_file ok (Named (BundleFile oldSlug)));
      let m := {| mName := trim_space newName; mMode := mMode m; mCreatedAt := mCreatedAt m;
                  mUpdatedAt := now; mRosenpassEnabled := mRosenpassEnabled m;
                  mRosenpassPermissive := mRosenpassPermissive m |} in
      _ ← writeBundle newSlug data;
      r ← attempt (writeMeta newSlug m);
      match r with
      | Err e => _ ← run (cleanup ok (Named (BundleFile newSlug))); fail e
      | Ok _ =>
        _ ← run (cleanup ok (Named (BundleFile oldSlug)));
        _ ← run (cleanup ok (Named (MetaFile oldSlug)));
        active ← attempt readActiveMarker;
        _ ← (if bool_decide (or_zero "" active = oldSlug)
             then with_err EUpdateActive (writeActiveLocked newSlug)
             else mret tt);
        summarise newSlug
      end
    end.

Definition SetActive (slug : string) : act string :=
  _ ← (if bool_decide (slug = "") then mret tt else _ ← readMeta slug; mret tt);
  previous ← attempt readActiveMarker;
  _ ← writeActiveLocked slug;
  mret (or_zero "" previous).

Definition UpdateMode (now : Z) (slug : string) (m : Mode) : act unit :=
  if negb (Valid m) then fail EInvalidMode
  else
    cur ← readMeta slug;
    writeMeta slug {| mName := mName cur; mMode := m; mCreatedAt := mCreatedAt cur;
                      mUpdatedAt := now; mRosenpassEnabled := mRosenpassEnabled cur;
                      mRosenpassPermissive := mRosenpassPermissive cur |}.

Definition UpdateRosenpass (now : Z) (slug : string) (enabled permissive : option bool) : act unit :=
  cur ← readMeta slug;
  writeMeta slug {| mName := mName cur; mMode := mMode cur; mCreatedAt := mCreatedAt cur;
                    mUpdatedAt := now; mRosenpassEnabled := enabled;
                    mRosenpassPermissive := permissive |}.

(** ** Migration of the v0.1.x bundle

    The slug when the migration ran, with the error of the final SetActive;
    the errors that stop it before are those of the action. *)
Definition MigrateLegacyBundle (now : Z) (initialMode : Mode)
    : act (option string * option profile_error) :=
  existing ← with_err EListProfiles List;
  if 0 <? length existing then mret (None, None)
  else
    r ← attempt (read_file ok (Named LegacyFile));
    match r with
    | Err ENoEnt => mret (None, None)
    | Err EIo => fail EReadLegacy
    | Ok data =>
      match parse_bundle data with
      | Err _ => fail EParseLegacy
      | Ok _ =>
        let initialMode := if Valid initialMode then initialMode else Default in
        info ← with_err EAddMigrated
          (Add now {| reqName := "default"; reqMode := initialMode;
                      reqBundleBytes := match data with Raw b => b | _ => [] end;
                      reqReplace := false |});
        r ← attempt (SetActive (iSlug info));
        match r with
        | Err e => mret (Some (iSlug info), Some (ESetActiveMigrated e))
        | Ok _ => mret (Some (iSlug info), None)
        end
      end
    end.
End store.

(** ** Slugs *)

(** What [Slugify] makes: lower-case letters, digits and single dashes, no
    dash at either end. *)
Definition slug_or_dash (c : ascii) : bool := slug_char c || Ascii.eqb c dash.

Fixpoint no_double_dash (l : chars) : bool :=
  match l with
  | c :: (d :: _) as l' => negb (Ascii.eqb c dash && Ascii.eqb d dash) && no_double_dash l'
  | _ => true
  end.

Definition slug_shape (s : string) : Prop :=
  Forall (fun c => slug_or_dash c = true) (s2l s) /\ no_double_dash (s2l s) = true /\
  trimmed [[dash]] (s2l s).

Lemma slug_char_not_dash c : slug_char c = true -> Ascii.eqb c dash = false.
Proof.
  intros Hc. apply Ascii.eqb_neq. intros ->. by vm_compute in Hc.
Qed.

Lemma slug_or_dash_plain c : slug_or_dash c = true -> plain c.
Proof.
  unfold slug_or_dash, slug_char, is_lower, is_digit, plain, is_upper.
  rewrite !orb_true_iff, !andb_true_iff, Ascii.eqb_eq, !N.leb_le.
  intros [[[? ?]|[? ?]]| ->]; [| |by vm_compute]; (split; [lia|]); apply andb_false_iff;
    rewrite !N.leb_gt; lia.
Qed.

Lemma collapse_shape b l :
  Forall (fun c => slug_or_dash c = true) (collapse b l) /\
  no_double_dash (collapse b l) = true /\
  (b = true -> forall l', collapse b l <> dash :: l').
Proof.
  revert b. induction l as [|c l IH]; intros b; cbn [collapse]; [by split_and!|].
  destruct (slug_char c) eqn:Ec.
  - destruct (IH false) as (H1 & H2 & _). pose proof (slug_char_not_dash c Ec) as Hd. split_and!.
    + constructor; [|done]. unfold slug_or_dash. by rewrite Ec.
    + cbn. destruct (collapse false l); [done|]. by rewrite Hd.
    + intros _ l' [= E _]. by rewrite E in Hd.
  - destruct (IH true) as (H1 & H2 & H3). destruct b; [done|].
    split_and!; [by constructor| |done].
    cbn [no_double_dash]. destruct (collapse true l) as [|d l'] eqn:E; [done|].
    destruct (Ascii.eqb_spec d dash) as [->|]; [by destruct (H3 eq_refl l')|].
    by rewrite andb_false_r.
Qed.

Lemma collapse_id b l :
  Forall (fun c => slug_or_dash c = true) l -> no_double_dash l = true ->
  (b = true -> forall l', l <> dash :: l') -> collapse b l = l.
Proof.
  revert b. induction l as [|c l IH]; intros b Hl Hd Hb; [done|]. cbn [collapse].
  apply Forall_cons in Hl as [Hc Hl].
  assert (no_double_dash l = true) as Hd'.
  { cbn in Hd. destruct l; [done|]. by apply andb_true_iff in Hd as [_ Hd]. }
  destruct (slug_char c) eqn:Ec.
  - f_equal. by apply IH.
  - unfold slug_or_dash in Hc. rewrite Ec in Hc. apply Ascii.eqb_eq in Hc as ->.
    destruct b; [by destruct (Hb eq_refl l)|]. f_equal. apply IH; [done..|].
    intros _ l' ->. cbn in Hd. done.
Qed.

Lemma no_double_dash_app k l : no_double_dash (k ++ l) = true ->
  no_double_dash k = true /\ no_double_dash l = true.
Proof.
  induction k as [|c k IH]; [done|]. destruct k as [|d k]; cbn [app] in *.
  - destruct l; [done|]. cbn. by intros [_ ?]%andb_true_iff.
  - cbn [no_double_dash] in *. intros [-> [H1 H2]%IH]%andb_true_iff. by rewrite H1.
Qed.

(** Trimming keeps an infix. *)
Lemma trim_seqs_infix seqs l : exists k k', l = k ++ trim_seqs seqs l ++ k'.
Proof.
  unfold trim_seqs, trim_right. set (l1 := trim_left seqs l).
  destruct (trim_left_go_suffix seqs (length l) l) as [k Hk].
  fold (trim_left seqs l) in Hk. fold l1 in Hk.
  destruct (trim_left_go_suffix (reverse <$> seqs) (length (reverse l1)) (reverse l1)) as [k' Hk'].
  fold (trim_left (reverse <$> seqs) (reverse l1)) in Hk'.
  exists k, (reverse k'). rewrite <-reverse_app, <-Hk', reverse_involutive. done.
Qed.

Lemma Slugify_shape name : slug_shape (Slugify name).
Proof.
  unfold Slugify, trim. cbv zeta. rewrite s2l_l2s.
  set (l := collapse false _). change ((fun c => [c]) <$> s2l "-") with [[dash]].
  destruct (collapse_shape false (s2l (to_lower (trim_space name)))) as (H1 & H2 & _).
  fold l in H1, H2. unfold slug_shape. rewrite s2l_l2s.
  destruct (trim_seqs_infix [[dash]] l) as (k & k' & E). rewrite E in H1, H2.
  apply no_double_dash_app in H2 as [_ [H2 _]%no_double_dash_app].
  rewrite !Forall_app in H1. split_and!; [tauto|done|].
  apply trim_seqs_trimmed. repeat constructor. done.
Qed.

(** The spaces [trim_space] removes are no characters of a slug. *)
Lemma slug_trim_space s : slug_shape s -> trim_space s = s.
Proof.
  intros (Hs & _ & _). unfold trim_space. rewrite <-(l2s_s2l s) at 2. f_equal.
  apply trim_seqs_id.
  assert (forall l, Forall (fun c => slug_or_dash c = true) l ->
    strip_any spaces l = None /\ strip_any (reverse <$> spaces) l = None) as Hnone.
  { intros [|c l]; [by vm_compute|]. intros [Hc _]%Forall_cons.
    assert (starts_none spaces c && starts_none (reverse <$> spaces) c = true) as [? ?]%andb_true_iff.
    { clear -Hc. destruct c as [[] [] [] [] [] [] [] []]; vm_compute in Hc; try done; by vm_compute. }
    split; by apply strip_any_starts_none. }
  split; [exact (proj1 (Hnone _ Hs))|]. refine (proj2 (Hnone _ _)).
  apply Forall_forall. intros c Hc. rewrite elem_of_reverse in Hc. rewrite Forall_forall in Hs. by apply Hs.
Qed.

Lemma Slugify_id s : slug_shape s -> Slugify s = s.
Proof.
  intros H. pose proof H as (H1 & H2 & H3). unfold Slugify, to_lower, trim. cbv zeta.
  rewrite (slug_trim_space s H).
  rewrite lower_plain by (eapply Forall_impl; [exact H1|apply slug_or_dash_plain]).
  rewrite !s2l_l2s, collapse_id by done.
  change ((fun c => [c]) <$> s2l "-") with [[dash]]. rewrite trim_seqs_id by done. apply l2s_s2l.
Qed.

(** [Slugify] yields file-name-safe slugs and is idempotent: only lower-case
    ASCII letters, digits and single inner dashes, whatever the name's bytes;
    slugs are exactly the fixed points of [Slugify]. *)
Theorem Slugify_canonical (name : string) :
  slug_shape (Slugify name) /\ Slugify (Slugify name) = Slugify name /\
  (slug_shape name <-> Slugify name = name).
Proof.
  split_and!; [apply Slugify_shape|apply Slugify_id, Slugify_shape|].
  split; [apply Slugify_id|]. intros <-. apply Slugify_shape.
Qed.

(** ** What every run of an operation preserves

    The lemmas below run each operation under an arbitrary oracle and an
    arbitrary invariant [I] of the disk, and ask of [I] only that it is kept
    by the writes the operation makes. *)
Section hoare.
Context {K : BundleCodec} {C : Crypto} {J : RawJson}.
Context (trustRoots : option TrustRoots) (ok : nat -> bool).
Variable I : pdisk -> Prop.
Hypothesis I_visible : on_visible I.

Abbreviation keeps := (fun m => hoare I m (fun _ => True)).

Lemma hoare_True {E A} (m : action pworld E A) Q : hoare I m Q -> keeps m.
Proof. intros H. by eapply hoare_weaken. Qed.

Lemma keeps_run_cleanup {E} f :
  (forall d, I d -> I (delete f d)) -> keeps (run (cleanup ok f) : action pworld E unit).
Proof.
  intros Hd w Hw. unfold run, cleanup. destruct (hoare_remove ok I f Hd w Hw) as (? & ? & _). done.
Qed.

Lemma keeps_gets {E A} (f : pworld -> A) : keeps (run (gets f) : action pworld E A).
Proof. intros w Hw. cbn. split_and!; [apply step_to_refl|done|done]. Qed.

Lemma keeps_attempt {E E' A} (m : action pworld E A) :
  keeps m -> keeps (attempt m : action pworld E' _).
Proof. intros Hm. eapply hoare_weaken; [exact (hoare_attempt I m _ Hm)|done]. Qed.

Lemma keeps_bind {E A B} (m : action pworld E A) (f : A -> action pworld E B) :
  keeps m -> (forall a, keeps (f a)) -> keeps (m ≫= f).
Proof. intros Hm Hf. eapply hoare_bind; [exact Hm|]. intros a _. apply Hf. Qed.

Ltac keep :=
  lazymatch goal with
  | |- forall _, _ => intro; keep
  | |- hoare _ (_ ≫= _) _ => apply keeps_bind; keep
  | |- hoare _ (mret _) _ => apply hoare_ret; exact Logic.I
  | |- hoare _ (fail _) _ => apply hoare_fail
  | |- hoare _ (lift _) _ => apply hoare_lift; done
  | |- hoare _ (attempt _) _ => apply keeps_attempt; keep
  | |- hoare _ (with_err _ _) _ => apply hoare_with_err; keep
  | |- hoare _ (sys _) _ => apply hoare_sys
  | |- hoare _ (read_file _ _) _ => eapply hoare_True, hoare_read
  | |- hoare _ (run (gets _)) _ => apply keeps_gets
  | |- hoare _ (match ?x with _ => _ end) _ => destruct x; keep
  | |- hoare _ (let _ := _ in _) _ => cbv zeta; keep
  | |- _ => try solve [auto]
  end.

Lemma keeps_readMeta slug : keeps (readMeta ok slug).
Proof. unfold readMeta. keep. Qed.
Lemma keeps_readActiveMarker : keeps (readActiveMarker ok).
Proof. unfold readActiveMarker. keep. Qed.
Lemma keeps_summarise slug : keeps (summarise ok slug).
Proof. pose proof keeps_readMeta. unfold summarise. keep. Qed.
Lemma keeps_list_loop active slugs : keeps (list_loop ok active slugs).
Proof.
  pose proof keeps_summarise. induction slugs as [|s slugs IH]; cbn [list_loop]; keep.
Qed.
Lemma keeps_List : keeps (List ok).
Proof. pose proof keeps_readActiveMarker. pose proof keeps_list_loop. unfold List. keep. Qed.
Lemma keeps_Load slug : keeps (Load ok slug).
Proof. pose proof keeps_readMeta. unfold Load, loadLocked. keep. Qed.

Lemma keeps_writeAtomic path data :
  (forall d, I d -> I (<[Named path := data]> d)) -> keeps (writeAtomic ok path data).
Proof.
  intros Hd. unfold writeAtomic. apply hoare_with_err, hoare_write; [done| |done].
  apply list_elem_of_here.
Qed.

Hypothesis I_meta : forall d slug m, I d -> I (<[Named (MetaFile slug) := MetaJson m]> d).
Hypothesis I_active : forall d a, I d -> I (<[Named ActiveFile := ActiveJson a]> d).

Lemma keeps_writeMeta slug m : keeps (writeMeta ok slug m).
Proof. unfold writeMeta. keep. apply keeps_writeAtomic. auto. Qed.
Lemma keeps_writeActiveLocked slug : keeps (writeActiveLocked ok slug).
Proof. unfold writeActiveLocked. keep. apply keeps_writeAtomic. auto. Qed.
Lemma keeps_SetActive slug : keeps (SetActive ok slug).
Proof.
  pose proof keeps_readMeta. pose proof keeps_readActiveMarker. pose proof keeps_writeActiveLocked.
  unfold SetActive. keep.
Qed.
Lemma keeps_UpdateMode now slug m : keeps (UpdateMode ok now slug m).
Proof. pose proof keeps_readMeta. pose proof keeps_writeMeta. unfold UpdateMode. keep. Qed.
Lemma keeps_UpdateRosenpass now slug e p : keeps (UpdateRosenpass ok now slug e p).
Proof. pose proof keeps_readMeta. pose proof keeps_writeMeta. unfold UpdateRosenpass. keep. Qed.

Hypothesis I_del_meta : forall d slug, I d -> I (delete (Named (MetaFile slug)) d).
Hypothesis I_del_bundle : forall d slug, I d -> I (delete (Named (BundleFile slug)) d).

Lemma keeps_remove_existing e f :
  (forall d, I d -> I (delete (Named f) d)) -> keeps (remove_existing ok e f).
Proof. intros Hd. unfold remove_existing. keep. by apply hoare_remove. Qed.
Lemma keeps_Remove slug : keeps (Remove ok slug).
Proof.
  pose proof keeps_readMeta. pose proof keeps_readActiveMarker. pose proof keeps_writeActiveLocked.
  unfold Remove. keep; apply keeps_remove_existing; auto.
Qed.

(** A bundle is written only after it passed the checks of [Add] ... *)
Hypothesis I_checked : forall d slug s b req,
  check_request trustRoots req = Ok (s, b) -> I d ->
  I (<[Named (BundleFile slug) := Raw (reqBundleBytes req)]> d).

Lemma keeps_writeBundle slug data :
  (forall d, I d -> I (<[Named (BundleFile slug) := data]> d)) -> keeps (writeBundle ok slug data).
Proof. intros Hd. unfold writeBundle. keep. by apply keeps_writeAtomic. Qed.

Lemma keeps_Add now req : keeps (Add trustRoots ok now req).
Proof.
  pose proof keeps_readMeta. pose proof keeps_readActiveMarker. pose proof keeps_writeMeta.
  unfold Add. eapply hoare_bind.
  { apply (hoare_lift I _ (fun p => check_request trustRoots req = Ok p)). done. }
  intros [slug b] Hc. keep; try (apply keeps_run_cleanup; auto). apply keeps_writeBundle. eauto.
Qed.

Lemma keeps_Migrate now m : keeps (MigrateLegacyBundle trustRoots ok now m).
Proof.
  pose proof keeps_List. pose proof keeps_Add. pose proof keeps_SetActive.
  unfold MigrateLegacyBundle. keep.
Qed.

(** ... or copied by [Rename] from the bundle file of another slug. *)
Hypothesis I_copied : forall d d' slug slug' c,
  I d' -> d' !! Named (BundleFile slug') = Some c -> I d ->
  I (<[Named (BundleFile slug) := c]> d).

Lemma keeps_Rename now old new : keeps (Rename ok now old new).
Proof.
  pose proof keeps_readMeta. pose proof keeps_readActiveMarker. pose proof keeps_writeMeta.
  pose proof keeps_summarise. pose proof keeps_writeActiveLocked.
  unfold Rename. apply keeps_bind; [keep|]. intros slug.
  destruct (bool_decide (slug = old)); [keep|].
  apply keeps_bind; [keep|]. intros [|]; [keep|]. apply keeps_bind; [keep|]. intros m.
  eapply hoare_bind; [apply hoare_with_err, hoare_read|]. intros c (d' & Hd' & Hc).
  apply keeps_bind; [apply keeps_writeBundle; eauto|]. intros _.
  keep; apply keeps_run_cleanup; auto.
Qed.
End hoare.

Create HintDb store discriminated.

(** ** The store as a state machine with crashes

    A state is what is on disk. A step runs one operation under some oracle
    and stops anywhere: the next state is the disk the operation leaves or one
    a crash during it exposes. *)
Inductive op :=
  | OpList
  | OpLoad (slug : string)
  | OpAdd (now : Z) (req : AddProfileRequest)
  | OpRemove (slug : string)
  | OpRename (now : Z) (oldSlug newName : string)
  | OpSetActive (slug : string)
  | OpUpdateMode (now : Z) (slug : string) (m : Mode)
  | OpUpdateRosenpass (now : Z) (slug : string) (enabled permissive : option bool)
  | OpMigrate (now : Z) (initialMode : Mode).

Section machine.
Context {K : BundleCodec} {C : Crypto} {J : RawJson}.
Context (trustRoots : option TrustRoots).

Definition exec (ok : nat -> bool) (o : op) (w : pworld) : pworld :=
  match o with
  | OpList => (List ok w).2
  | OpLoad slug => (Load ok slug w).2
  | OpAdd now req => (Add trustRoots ok now req w).2
  | OpRemove slug => (Remove ok slug w).2
  | OpRename now old new => (Rename ok now old new w).2
  | OpSetActive slug => (SetActive ok slug w).2
  | OpUpdateMode now slug m => (UpdateMode ok now slug m w).2
  | OpUpdateRosenpass now slug e p => (UpdateRosenpass ok now slug e p w).2
  | OpMigrate now m => (MigrateLegacyBundle trustRoots ok now m w).2
  end.

Definition booted (d : pdisk) : pworld := World d [] 0.

Inductive store_step : pdisk -> op -> pdisk -> Prop :=
  | store_run ok o d d' : d' ∈ crash_disks (exec ok o (booted d)) -> store_step d o d'.

Lemma store_step_final ok o d : store_step d o (disk (exec ok o (booted d))).
Proof. apply (store_run ok). apply list_elem_of_here. Qed.

(** A run keeps [I] in every disk it goes through. *)
Lemma hoare_booted {E A} (I : pdisk -> Prop) (m : action pworld E A) Q d d' :
  hoare I m Q -> I d -> d' ∈ crash_disks (m (booted d)).2 -> I d'.
Proof.
  intros Hm Hd Hd'. destruct (Hm (booted d) Hd) as (Hs & _ & _).
  destruct (step_to_crash _ _ _ _ Hs Hd') as [Hin|?]; [|done].
  by apply list_elem_of_singleton in Hin as ->.
Qed.

(** Bytes that passed the checks of [Add]. *)
Definition verified (bytes : chars) : Prop :=
  exists b, Unmarshal bytes = Ok b /\ VerifyBundle trustRoots b = Ok tt /\
    CheckCPDeviceKeypair b = Ok tt.

Definition bundles_verified (d : pdisk) : Prop :=
  forall slug c, d !! Named (BundleFile slug) = Some c -> exists bytes, c = Raw bytes /\ verified bytes.

Lemma check_request_Ok req slug b :
  check_request trustRoots req = Ok (slug, b) ->
  validateName (reqName req) = Ok slug /\ Valid (reqMode req) = true /\
  reqBundleBytes req <> [] /\ Unmarshal (reqBundleBytes req) = Ok b /\
  VerifyBundle trustRoots b = Ok tt /\ CheckCPDeviceKeypair b = Ok tt.
Proof.
  unfold check_request. intros (s & Hs & H)%bind_Ok.
  destruct (Valid (reqMode req)); cbn [negb] in H; [|done].
  destruct (reqBundleBytes req) as [|x l] eqn:E; [done|]. cbn [length Nat.eqb] in H. rewrite <-E in *.
  apply bind_Ok in H as (b' & Hb%map_err_Ok & H). destruct (Empty trustRoots); [done|].
  apply bind_Ok in H as ([] & Hv%map_err_Ok & H). apply bind_Ok in H as ([] & Hk%map_err_Ok & H).
  injection H as -> ->. split_and!; try done. by rewrite E.
Qed.

Lemma bundles_verified_visible : on_visible bundles_verified.
Proof. intros d. unfold bundles_verified. by setoid_rewrite visible_lookup. Qed.

Lemma bundles_verified_other d f c :
  (forall slug, f <> BundleFile slug) -> bundles_verified d -> bundles_verified (<[Named f := c]> d).
Proof. intros Hf Hd slug c'. rewrite lookup_insert_ne by (intros [= E]; by apply (Hf slug)). apply Hd. Qed.

Lemma bundles_verified_delete d f : bundles_verified d -> bundles_verified (delete f d).
Proof. intros Hd slug c [_ Hc]%lookup_delete_Some. by eapply Hd. Qed.

Lemma bundles_verified_insert d slug c :
  (exists bytes, c = Raw bytes /\ verified bytes) -> bundles_verified d ->
  bundles_verified (<[Named (BundleFile slug) := c]> d).
Proof. intros Hc Hd slug' c' [[_ <-]|[_ ?]]%lookup_insert_Some; [done|]. by eapply Hd. Qed.

#[local] Hint Resolve bundles_verified_visible bundles_verified_other bundles_verified_delete
  bundles_verified_insert : store.

(** Whatever is kept by the writes of the operations is kept by a step; the
    operations of [edits_bundles = false] write no bundle file. *)
Definition edits_bundles (o : op) : bool :=
  match o with OpAdd _ _ | OpRemove _ | OpRename _ _ _ | OpMigrate _ _ => true | _ => false end.

Lemma store_step_quiet (I : pdisk -> Prop) d o d' :
  on_visible I ->
  (forall d slug m, I d -> I (<[Named (MetaFile slug) := MetaJson m]> d)) ->
  (forall d a, I d -> I (<[Named ActiveFile := ActiveJson a]> d)) ->
  edits_bundles o = false -> I d -> store_step d o d' -> I d'.
Proof.
  intros HI Hm Ha He Hd Hstep. destruct Hstep as [ok o d d' Hd'].
  destruct o; try done; cbn in Hd'; (eapply hoare_booted; [|exact Hd|exact Hd']).
  - by apply keeps_List.
  - by apply keeps_Load.
  - by apply keeps_SetActive.
  - by apply keeps_UpdateMode.
  - by apply keeps_UpdateRosenpass.
Qed.

Lemma store_step_keeps (I : pdisk -> Prop) d o d' :
  on_visible I ->
  (forall d slug m, I d -> I (<[Named (MetaFile slug) := MetaJson m]> d)) ->
  (forall d a, I d -> I (<[Named ActiveFile := ActiveJson a]> d)) ->
  (forall d slug, I d -> I (delete (Named (MetaFile slug)) d)) ->
  (forall d slug, I d -> I (delete (Named (BundleFile slug)) d)) ->
  (forall d slug s b req, check_request trustRoots req = Ok (s, b) -> I d ->
     I (<[Named (BundleFile slug) := Raw (reqBundleBytes req)]> d)) ->
  (forall d d' slug slug' c, I d' -> d' !! Named (BundleFile slug') = Some c -> I d ->
     I (<[Named (BundleFile slug) := c]> d)) ->
  I d -> store_step d o d' -> I d'.
Proof.
  intros HI Hm Ha Hdm Hdb Hc Hcp Hd Hstep.
  destruct (edits_bundles o) eqn:He; [|by eapply store_step_quiet].
  destruct Hstep as [ok o d d' Hd'].
  destruct o; try done; cbn in Hd'; (eapply hoare_booted; [|exact Hd|exact Hd']).
  - by eapply keeps_Add.
  - by eapply keeps_Remove.
  - by eapply keeps_Rename.
  - by eapply keeps_Migrate.
Qed.

Lemma store_step_verified d o d' : bundles_verified d -> store_step d o d' -> bundles_verified d'.
Proof.
  intros Hd. apply store_step_keeps; [apply bundles_verified_visible|..|done].
  - intros; by apply bundles_verified_other.
  - intros; by apply bundles_verified_other.
  - auto with store.
  - auto with store.
  - intros d1 slug s b req (_ & _ & _ & ? & ? & ?)%check_request_Ok ?.
    apply bundles_verified_insert; [|done]. eexists; split; [done|]. by exists b.
  - intros d1 d2 slug slug' c H2 Hc ?. apply bundles_verified_insert; [|done]. by eapply H2.
Qed.

Lemma store_step_lookup d o d' f :
  f = LegacyFile \/ edits_bundles o = false /\ (exists slug, f = BundleFile slug) ->
  store_step d o d' -> d' !! Named f = d !! Named f.
Proof.
  intros Hf. assert (on_visible (fun x : pdisk => x !! Named f = d !! Named f)) as HI
    by (intros x; by rewrite visible_lookup).
  destruct Hf as [->|[He [slug ->]]];
    [apply (store_step_keeps (fun x => x !! Named LegacyFile = d !! Named LegacyFile))
    |apply (store_step_quiet (fun x => x !! Named (BundleFile slug) = d !! Named (BundleFile slug)))];
    try done; intros; by rewrite ?lookup_insert_ne, ?lookup_delete_ne by done.
Qed.
End machine.

(** ** Results when no call fails *)
Section no_fault.
Context {K : BundleCodec} {C : Crypto} {J : RawJson}.
Context (trustRoots : option TrustRoots) (ok : nat -> bool).
Hypothesis all_ok : forall n, ok n = true.

(** What the reads find on a disk. *)
Definition meta_at (d : pdisk) (slug : string) : result profile_error meta :=
  match d !! Named (MetaFile slug) with
  | None => Err ErrNotFound
  | Some c => of_option EParseMeta (parse_meta c)
  end.
Definition active_at (d : pdisk) : result profile_error string :=
  match d !! Named ActiveFile with
  | None => Ok ""
  | Some c => of_option EParseActive (parse_active c)
  end.
Definition active_or_empty (d : pdisk) : string := or_zero "" (active_at d).

Lemma evals_readMeta v slug : evals v (readMeta ok slug) (meta_at v slug) v.
Proof.
  unfold readMeta, meta_at. pose proof (evals_read ok all_ok v (MetaFile slug)) as Hr.
  destruct (v !! Named (MetaFile slug)) as [c|]; cbn in Hr.
  - eapply evals_bind; [exact (evals_with_err _ _ _ _ _ Hr)|]. apply evals_lift.
  - eapply evals_bind_err. exact (evals_with_err _ _ _ _ _ Hr).
Qed.

Lemma evals_readActive v : evals v (readActiveMarker ok) (active_at v) v.
Proof.
  unfold readActiveMarker, active_at. eapply evals_bind.
  { apply evals_attempt, evals_read, all_ok. }
  destruct (v !! Named ActiveFile); cbn; [apply evals_lift|apply evals_ret].
Qed.

Lemma evals_writeAtomic v path data :
  evals v (writeAtomic ok path data) (Ok tt) (<[Named path := data]> v).
Proof.
  unfold writeAtomic.
  assert (WWrite ∈ atomic_steps) as Hin by (apply list_elem_of_here).
  exact (evals_with_err EWriteFile _ _ _ _ (evals_write ok (Raw []) all_ok v atomic_steps path data Hin)).
Qed.

Lemma evals_mkdir (v : pdisk) : evals v (with_err (fun _ => EMkdir) (sys ok)) (Ok tt) v.
Proof. exact (evals_with_err (fun _ => EMkdir) _ _ _ _ (evals_sys ok all_ok v)). Qed.

Lemma evals_writeMeta v slug m :
  evals v (writeMeta ok slug m) (Ok tt) (<[Named (MetaFile slug) := MetaJson m]> v).
Proof. eapply evals_bind; [apply evals_mkdir|apply evals_writeAtomic]. Qed.
Lemma evals_writeBundle v slug c :
  evals v (writeBundle ok slug c) (Ok tt) (<[Named (BundleFile slug) := c]> v).
Proof. eapply evals_bind; [apply evals_mkdir|apply evals_writeAtomic]. Qed.
Lemma evals_writeActive v slug :
  evals v (writeActiveLocked ok slug) (Ok tt) (<[Named ActiveFile := ActiveJson slug]> v).
Proof. eapply evals_bind; [apply evals_mkdir|apply evals_writeAtomic]. Qed.

Lemma evals_cleanup {E} v f :
  evals v (run (cleanup ok (Named f)) : action pworld E unit) (Ok tt) (delete (Named f) v).
Proof.
  intros w Hw. destruct (evals_remove ok all_ok v f w Hw) as (w' & E1 & Hw').
  exists w'. unfold run, cleanup. by rewrite E1.
Qed.

(** The infos [summarise] gives, from the disk. *)
Definition info_at (v : pdisk) (slug : string) (m : meta) : Info :=
  let b := match v !! Named (BundleFile slug) with
           | Some c => match parse_bundle c with Ok b => Some b | Err _ => None end
           | None => None
           end in
  {| iName := mName m; iSlug := slug; iMode := mMode m;
     iDeviceID := match b with Some b => DeviceID b | None => "" end;
     iSite := match b with Some b => Site b | None => "" end;
     iExpiresAt := match b with Some b => ExpiresAt b | None => 0%Z end;
     iCreatedAt := mCreatedAt m; iUpdatedAt := mUpdatedAt m; iActive := false |}.

Lemma evals_summarise v slug :
  evals v (summarise ok slug) (m ← meta_at v slug; Ok (info_at v slug m)) v.
Proof.
  unfold summarise. destruct (meta_at v slug) as [m|e] eqn:Em; cbn.
  - eapply evals_bind; [rewrite <-Em; apply evals_readMeta|]. cbv zeta.
    eapply evals_bind; [apply evals_attempt, evals_read, all_ok|]. unfold info_at.
    destruct (v !! Named (BundleFile slug)) as [c|]; cbn [of_option]; [|apply evals_ret].
    destruct (parse_bundle c); apply evals_ret.
  - eapply evals_bind_err. rewrite <-Em. apply evals_readMeta.
Qed.

(** *** Add *)
Definition new_meta (now : Z) (req : AddProfileRequest) (created : Z) : meta :=
  {| mName := trim_space (reqName req); mMode := reqMode req; mCreatedAt := created;
     mUpdatedAt := now; mRosenpassEnabled := None; mRosenpassPermissive := None |}.

Definition created_at (v : pdisk) (now : Z) (req : AddProfileRequest) (slug : string) : Z :=
  if reqReplace req then match meta_at v slug with Ok prev => mCreatedAt prev | Err _ => now end
  else now.

Lemma evals_Add v now req slug b :
  check_request trustRoots req = Ok (slug, b) ->
  (reqReplace req = true \/ is_ok (meta_at v slug) = false) ->
  exists info,
    evals v (Add trustRoots ok now req) (Ok info)
      (<[Named (MetaFile slug) := MetaJson (new_meta now req (created_at v now req slug))]>
        (<[Named (BundleFile slug) := Raw (reqBundleBytes req)]> v)) /\ iSlug info = slug.
Proof.
  intros Hc Hr. eexists. split; [|shelve]. unfold Add, created_at. rewrite Hc.
  eapply evals_bind; [apply evals_lift|]. cbn beta iota.
  eapply evals_bind.
  { destruct (reqReplace req); [apply evals_ret|].
    eapply evals_bind; [apply evals_attempt, evals_readMeta|].
    destruct (meta_at v slug); [by destruct Hr|apply evals_ret]. }
  eapply (evals_bind v _ (created_at v now req slug)).
  { unfold created_at. destruct (reqReplace req); [|apply evals_ret].
    eapply evals_bind; [apply evals_attempt, evals_readMeta|].
    destruct (meta_at v slug); apply evals_ret. }
  cbv zeta. eapply evals_bind; [apply evals_writeBundle|].
  eapply evals_bind; [apply evals_attempt, evals_writeMeta|]. cbn beta iota.
  eapply evals_bind; [apply evals_attempt, evals_readActive|]. apply evals_ret.
  Unshelve. done.
Qed.

Lemma evals_Add_refused v now req e :
  check_request trustRoots req = Err e -> evals v (Add trustRoots ok now req) (Err e) v.
Proof. intros Hc. unfold Add. rewrite Hc. eapply evals_bind_err, evals_lift. Qed.

Lemma evals_Add_exists v now req slug b m :
  check_request trustRoots req = Ok (slug, b) -> reqReplace req = false ->
  meta_at v slug = Ok m -> evals v (Add trustRoots ok now req) (Err ErrAlreadyExists) v.
Proof.
  intros Hc Hr Hm. unfold Add. rewrite Hc, Hr. eapply evals_bind; [apply evals_lift|].
  cbn beta iota. eapply evals_bind_err.
  eapply evals_bind; [apply evals_attempt, evals_readMeta|]. rewrite Hm. apply evals_fail.
Qed.

(** *** Load *)
Lemma evals_Load v slug :
  evals v (Load ok slug)
    (m ← meta_at v slug;
     c ← of_option ErrNotFound (v !! Named (BundleFile slug));
     b ← map_err (fun _ => EParseBundle) (parse_bundle c);
     Ok {| pName := mName m; pMode := mMode m; pBundle := b; pCreatedAt := mCreatedAt m;
           pUpdatedAt := mUpdatedAt m; pRosenpassEnabled := mRosenpassEnabled m;
           pRosenpassPermissive := mRosenpassPermissive m |}) v.
Proof.
  unfold Load, loadLocked. destruct (meta_at v slug) as [m|e] eqn:Em; cbn [mbind result_bind].
  2:{ eapply evals_bind_err. rewrite <-Em. apply evals_readMeta. }
  eapply evals_bind; [rewrite <-Em; apply evals_readMeta|].
  pose proof (evals_read ok all_ok v (BundleFile slug)) as Hr.
  destruct (v !! Named (BundleFile slug)) as [c|]; cbn in Hr; cbn [of_option mbind result_bind].
  2:{ eapply evals_bind_err. exact (evals_with_err _ _ _ _ _ Hr). }
  eapply evals_bind; [exact (evals_with_err _ _ _ _ _ Hr)|].
  destruct (parse_bundle c) as [b|e]; cbn [map_err mbind result_bind].
  - eapply evals_bind; [apply evals_lift|apply evals_ret].
  - eapply evals_bind_err, evals_lift.
Qed.

(** *** Remove *)
Lemma evals_remove_existing v e f :
  evals v (remove_existing ok e f) (Ok tt) (delete (Named f) v).
Proof.
  unfold remove_existing. eapply evals_bind; [apply evals_attempt, evals_remove, all_ok|].
  case_bool_decide; apply evals_ret.
Qed.

Definition removed (v : pdisk) (slug : string) : pdisk :=
  delete (Named (BundleFile slug)) (delete (Named (MetaFile slug)) v).

Lemma evals_Remove v slug m :
  meta_at v slug = Ok m ->
  evals v (Remove ok slug) (Ok tt)
    (if bool_decide (slug = active_or_empty v)
     then <[Named ActiveFile := ActiveJson ""]> (removed v slug) else removed v slug).
Proof.
  intros Hm. unfold Remove, active_or_empty.
  eapply evals_bind; [rewrite <-Hm; apply evals_readMeta|].
  eapply evals_bind; [apply evals_attempt, evals_readActive|].
  eapply evals_bind; [apply evals_remove_existing|].
  eapply evals_bind; [apply evals_remove_existing|]. fold (removed v slug).
  case_bool_decide; [|apply evals_ret].
  exact (evals_with_err EClearActive _ _ _ _ (evals_writeActive _ _)).
Qed.

Lemma evals_Remove_absent v slug e :
  meta_at v slug = Err e -> evals v (Remove ok slug) (Err e) v.
Proof. intros Hm. eapply evals_bind_err. rewrite <-Hm. apply evals_readMeta. Qed.

(** *** SetActive and the metadata edits *)
Lemma evals_SetActive v slug :
  slug = "" \/ is_ok (meta_at v slug) = true ->
  evals v (SetActive ok slug) (Ok (active_or_empty v)) (<[Named ActiveFile := ActiveJson slug]> v).
Proof.
  intros Hs. unfold SetActive, active_or_empty. eapply evals_bind.
  { case_bool_decide; [apply evals_ret|].
    destruct (meta_at v slug) as [m|] eqn:Em; [|by destruct Hs].
    eapply evals_bind; [rewrite <-Em; apply evals_readMeta|apply evals_ret]. }
  eapply evals_bind; [apply evals_attempt, evals_readActive|].
  eapply evals_bind; [apply evals_writeActive|apply evals_ret].
Qed.

Lemma evals_SetActive_absent v slug e :
  slug <> "" -> meta_at v slug = Err e -> evals v (SetActive ok slug) (Err e) v.
Proof.
  intros Hs Hm. unfold SetActive. rewrite bool_decide_eq_false_2 by done.
  eapply evals_bind_err, evals_bind_err. rewrite <-Hm. apply evals_readMeta.
Qed.

Definition with_mode (now : Z) (m : Mode) (cur : meta) : meta :=
  {| mName := mName cur; mMode := m; mCreatedAt := mCreatedAt cur; mUpdatedAt := now;
     mRosenpassEnabled := mRosenpassEnabled cur; mRosenpassPermissive := mRosenpassPermissive cur |}.
Definition with_rosenpass (now : Z) (e p : option bool) (cur : meta) : meta :=
  {| mName := mName cur; mMode := mMode cur; mCreatedAt := mCreatedAt cur; mUpdatedAt := now;
     mRosenpassEnabled := e; mRosenpassPermissive := p |}.
Definition with_name (now : Z) (name : string) (cur : meta) : meta :=
  {| mName := trim_space name; mMode := mMode cur; mCreatedAt := mCreatedAt cur; mUpdatedAt := now;
     mRosenpassEnabled := mRosenpassEnabled cur; mRosenpassPermissive := mRosenpassPermissive cur |}.

Lemma evals_UpdateMode v now slug m cur :
  Valid m = true -> meta_at v slug = Ok cur ->
  evals v (UpdateMode ok now slug m) (Ok tt)
    (<[Named (MetaFile slug) := MetaJson (with_mode now m cur)]> v).
Proof.
  intros Hm Hc. unfold UpdateMode. rewrite Hm. cbn [negb].
  eapply evals_bind; [rewrite <-Hc; apply evals_readMeta|apply evals_writeMeta].
Qed.
Lemma evals_UpdateMode_absent v now slug m e :
  Valid m = true -> meta_at v slug = Err e -> evals v (UpdateMode ok now slug m) (Err e) v.
Proof.
  intros Hm Hc. unfold UpdateMode. rewrite Hm. cbn [negb].
  eapply evals_bind_err. rewrite <-Hc. apply evals_readMeta.
Qed.

Lemma evals_UpdateRosenpass v now slug e p cur :
  meta_at v slug = Ok cur ->
  evals v (UpdateRosenpass ok now slug e p) (Ok tt)
    (<[Named (MetaFile slug) := MetaJson (with_rosenpass now e p cur)]> v).
Proof.
  intros Hc. eapply evals_bind; [rewrite <-Hc; apply evals_readMeta|apply evals_writeMeta].
Qed.
Lemma evals_UpdateRosenpass_absent v now slug e p err :
  meta_at v slug = Err err -> evals v (UpdateRosenpass ok now slug e p) (Err err) v.
Proof. intros Hc. eapply evals_bind_err. rewrite <-Hc. apply evals_readMeta. Qed.

(** *** Rename *)
Definition renamed_files (v : pdisk) (old new : string) (m : meta) (c : content) : pdisk :=
  delete (Named (MetaFile old)) (delete (Named (BundleFile old))
    (<[Named (MetaFile new) := MetaJson m]> (<[Named (BundleFile new) := c]> v))).

Definition renamed (v : pdisk) (old new : string) (m : meta) (c : content) : pdisk :=
  if bool_decide (active_or_empty v = old)
  then <[Named ActiveFile := ActiveJson new]> (renamed_files v old new m c)
  else renamed_files v old new m c.

Lemma active_at_other v f c :
  f <> ActiveFile -> active_at (<[Named f := c]> v) = active_at v.
Proof. intros Hf. unfold active_at. by rewrite lookup_insert_ne by congruence. Qed.
Lemma active_at_delete v f : f <> ActiveFile -> active_at (delete (Named f) v) = active_at v.
Proof. intros Hf. unfold active_at. by rewrite lookup_delete_ne by congruence. Qed.
Lemma active_at_insert v a : active_at (<[Named ActiveFile := ActiveJson a]> v) = Ok a.
Proof. unfold active_at. by rewrite lookup_insert_eq. Qed.
Lemma meta_at_insert v slug m : meta_at (<[Named (MetaFile slug) := MetaJson m]> v) slug = Ok m.
Proof. unfold meta_at. by rewrite lookup_insert_eq. Qed.
Lemma meta_at_other v f c slug :
  f <> MetaFile slug -> meta_at (<[Named f := c]> v) slug = meta_at v slug.
Proof. intros Hf. unfold meta_at. by rewrite lookup_insert_ne by congruence. Qed.
Lemma meta_at_delete v f slug :
  f <> MetaFile slug -> meta_at (delete (Named f) v) slug = meta_at v slug.
Proof. intros Hf. unfold meta_at. by rewrite lookup_delete_ne by congruence. Qed.

Lemma meta_at_renamed v old new m c : old <> new -> meta_at (renamed v old new m c) new = Ok m.
Proof.
  intros Hne. unfold renamed. case_bool_decide; [rewrite meta_at_other by done|];
    unfold renamed_files; by rewrite !meta_at_delete, meta_at_insert by congruence.
Qed.

Lemma renamed_lookup v old new m c f :
  f <> ActiveFile -> renamed v old new m c !! Named f = renamed_files v old new m c !! Named f.
Proof. intros Hf. unfold renamed. case_bool_decide; [by rewrite lookup_insert_ne by congruence|done]. Qed.
Lemma renamed_bundle v old new m c :
  old <> new -> renamed v old new m c !! Named (BundleFile new) = Some c.
Proof.
  intros Hne. rewrite renamed_lookup by done. unfold renamed_files.
  by rewrite !lookup_delete_ne, lookup_insert_ne, lookup_insert_eq by congruence.
Qed.
Lemma renamed_old v old new m c :
  renamed v old new m c !! Named (MetaFile old) = None /\
  renamed v old new m c !! Named (BundleFile old) = None.
Proof.
  rewrite !renamed_lookup by done. unfold renamed_files.
  by rewrite lookup_delete_eq, lookup_delete_ne, lookup_delete_eq by congruence.
Qed.
Lemma renamed_other v old new m c s :
  s <> old -> s <> new ->
  meta_at (renamed v old new m c) s = meta_at v s /\
  renamed v old new m c !! Named (BundleFile s) = v !! Named (BundleFile s).
Proof.
  intros Ho Hn. unfold meta_at. rewrite !renamed_lookup by done. unfold renamed_files.
  by rewrite !lookup_delete_ne, !lookup_insert_ne by congruence.
Qed.
Lemma active_at_renamed v old new m c :
  active_at (renamed v old new m c) =
    if bool_decide (active_or_empty v = old) then Ok new else active_at v.
Proof.
  unfold renamed. case_bool_decide; [apply active_at_insert|].
  unfold renamed_files. by rewrite !active_at_delete, !active_at_other by done.
Qed.

Lemma evals_Rename v now old name new m c :
  validateName name = Ok new -> new <> old -> is_ok (meta_at v new) = false ->
  meta_at v old = Ok m -> v !! Named (BundleFile old) = Some c ->
  let v' := renamed v old new (with_name now name m) c in
  evals v (Rename ok now old name) (Ok (info_at v' new (with_name now name m))) v'.
Proof.
  intros Hn Hne Hnew Hm Hc v'. unfold Rename. rewrite Hn.
  eapply evals_bind; [apply evals_lift|]. cbn beta. rewrite bool_decide_eq_false_2 by done.
  eapply evals_bind; [apply evals_attempt, evals_readMeta|].
  destruct (meta_at v new); [done|].
  eapply evals_bind; [rewrite <-Hm; apply evals_readMeta|].
  pose proof (evals_read ok all_ok v (BundleFile old)) as Hr. rewrite Hc in Hr. cbn in Hr.
  eapply evals_bind; [exact (evals_with_err _ _ _ _ _ Hr)|]. cbv zeta.
  eapply evals_bind; [apply evals_writeBundle|].
  eapply evals_bind; [apply evals_attempt, evals_writeMeta|]. cbn beta iota.
  eapply evals_bind; [apply evals_cleanup|]. eapply evals_bind; [apply evals_cleanup|].
  eapply evals_bind; [apply evals_attempt, evals_readActive|].
  fold (with_name now name m). fold (renamed_files v old new (with_name now name m) c).
  assert (active_at (renamed_files v old new (with_name now name m) c) = active_at v) as ->.
  { unfold renamed_files. by rewrite !active_at_delete, !active_at_other by done. }
  fold (active_or_empty v). eapply (evals_bind _ _ tt v').
  { unfold v', renamed. case_bool_decide; [|apply evals_ret].
    exact (evals_with_err EUpdateActive _ _ _ _ (evals_writeActive _ _)). }
  pose proof (evals_summarise v' new) as Hsum.
  assert (meta_at v' new = Ok (with_name now name m)) as Hmeta by (by apply meta_at_renamed).
  rewrite Hmeta in Hsum. exact Hsum.
Qed.

Lemma evals_Rename_same v now old name m :
  validateName name = Ok old -> meta_at v old = Ok m ->
  let v' := <[Named (MetaFile old) := MetaJson (with_name now name m)]> v in
  evals v (Rename ok now old name) (Ok (info_at v' old (with_name now name m))) v'.
Proof.
  intros Hn Hm v'. unfold Rename. rewrite Hn.
  eapply evals_bind; [apply evals_lift|]. cbn beta. rewrite bool_decide_eq_true_2 by done.
  eapply evals_bind; [rewrite <-Hm; apply evals_readMeta|]. cbv zeta.
  eapply evals_bind; [apply evals_writeMeta|]. fold (with_name now name m). fold v'.
  pose proof (evals_summarise v' old) as Hsum.
  assert (meta_at v' old = Ok (with_name now name m)) as Hmeta by apply meta_at_insert.
  rewrite Hmeta in Hsum. exact Hsum.
Qed.

(** In every other case [Rename] fails and changes nothing. *)
Lemma evals_Rename_refused v now old name :
  (forall new, validateName name = Ok new ->
     new = old /\ is_ok (meta_at v old) = false \/
     new <> old /\ (is_ok (meta_at v new) = true \/ is_ok (meta_at v old) = false \/
                    v !! Named (BundleFile old) = None)) ->
  exists e, evals v (Rename ok now old name) (Err e) v.
Proof.
  intros H. unfold Rename. destruct (validateName name) as [new|e].
  2:{ exists e. eapply evals_bind_err, evals_lift. }
  destruct (H new eq_refl) as [[-> Hm]|[Hne Hcase]].
  - destruct (meta_at v old) as [|e] eqn:Em; [done|]. exists e.
    eapply evals_bind; [apply evals_lift|]. cbn beta. rewrite bool_decide_eq_true_2 by done.
    eapply evals_bind_err. rewrite <-Em. apply evals_readMeta.
  - pose proof (evals_attempt (E' := profile_error) _ _ _ _ (evals_readMeta v new)) as Ha.
    destruct (meta_at v new) as [m'|e'].
    + exists ErrAlreadyExists. eapply evals_bind; [apply evals_lift|]. cbn beta.
      rewrite bool_decide_eq_false_2 by done. eapply evals_bind; [exact Ha|apply evals_fail].
    + destruct (meta_at v old) as [m|e] eqn:Em.
      * destruct Hcase as [?|[?|Hc]]; [done|done|]. exists EReadBundle.
        eapply evals_bind; [apply evals_lift|]. cbn beta. rewrite bool_decide_eq_false_2 by done.
        eapply evals_bind; [exact Ha|]. cbn beta iota.
        eapply evals_bind; [rewrite <-Em; apply evals_readMeta|]. eapply evals_bind_err.
        pose proof (evals_read ok all_ok v (BundleFile old)) as Hr. rewrite Hc in Hr. cbn in Hr.
        exact (evals_with_err (fun _ => EReadBundle) _ _ _ _ Hr).
      * exists e. eapply evals_bind; [apply evals_lift|]. cbn beta.
        rewrite bool_decide_eq_false_2 by done. eapply evals_bind; [exact Ha|]. cbn beta iota.
        eapply evals_bind_err. rewrite <-Em. apply evals_readMeta.
Qed.

Lemma Rename_cases v now old name :
  (exists e, evals v (Rename ok now old name) (Err e) v) \/
  (exists m, validateName name = Ok old /\ meta_at v old = Ok m /\
     let v' := <[Named (MetaFile old) := MetaJson (with_name now name m)]> v in
     evals v (Rename ok now old name) (Ok (info_at v' old (with_name now name m))) v') \/
  (exists new m c, validateName name = Ok new /\ new <> old /\ is_ok (meta_at v new) = false /\
     meta_at v old = Ok m /\ v !! Named (BundleFile old) = Some c /\
     let v' := renamed v old new (with_name now name m) c in
     evals v (Rename ok now old name) (Ok (info_at v' new (with_name now name m))) v').
Proof.
  destruct (validateName name) as [new|] eqn:En.
  2:{ left. apply evals_Rename_refused. by rewrite En. }
  destruct (decide (new = old)) as [->|Hne].
  - destruct (meta_at v old) as [m|] eqn:Em.
    + right; left. exists m. split_and!; [done..|]. by apply evals_Rename_same.
    + left. apply evals_Rename_refused. rewrite En, Em. intros ? [= <-]. by left.
  - destruct (meta_at v new) eqn:Enew; [|destruct (meta_at v old) as [m|] eqn:Em;
      [destruct (v !! Named (BundleFile old)) as [c|] eqn:Ec|]].
    2:{ assert (is_ok (meta_at v new) = false) by (by rewrite Enew).
        right; right. exists new, m, c. split_and!; try done. by apply evals_Rename. }
    all: left; apply evals_Rename_refused; rewrite En, ?Em, ?Ec;
      intros ? [= <-]; right; rewrite Enew; auto.
Qed.
End no_fault.

(** ** The active marker *)
Section marker.
Context {K : BundleCodec} {C : Crypto} {J : RawJson}.
Context (trustRoots : option TrustRoots).

(** The marker names no profile, or one whose metadata can be read. *)
Definition marker_ok (d : pdisk) : Prop :=
  forall a, active_at d = Ok a -> a = "" \/ is_ok (meta_at d a) = true.

Lemma meta_at_visible d slug : meta_at (visible d) slug = meta_at d slug.
Proof. unfold meta_at. by rewrite visible_lookup. Qed.
Lemma active_at_visible d : active_at (visible d) = active_at d.
Proof. unfold active_at. by rewrite visible_lookup. Qed.
Lemma marker_ok_visible : on_visible marker_ok.
Proof.
  intros d. unfold marker_ok. rewrite active_at_visible. by setoid_rewrite meta_at_visible.
Qed.

Lemma marker_ok_meta d slug m : marker_ok d -> marker_ok (<[Named (MetaFile slug) := MetaJson m]> d).
Proof.
  intros Hd a. rewrite active_at_other by done. intros [->|Ha]%Hd; [by left|right].
  destruct (decide (a = slug)) as [->|]; [by rewrite meta_at_insert|].
  by rewrite meta_at_other by congruence.
Qed.
Lemma marker_ok_bundle d slug c : marker_ok d -> marker_ok (<[Named (BundleFile slug) := c]> d).
Proof.
  intros Hd a. rewrite active_at_other by done. intros [->|Ha]%Hd; [by left|right].
  by rewrite meta_at_other.
Qed.
Lemma marker_ok_del_bundle d slug : marker_ok d -> marker_ok (delete (Named (BundleFile slug)) d).
Proof.
  intros Hd a. rewrite active_at_delete by done. intros [->|Ha]%Hd; [by left|right].
  by rewrite meta_at_delete.
Qed.
Lemma marker_ok_del_meta d slug :
  marker_ok d -> slug <> active_or_empty d -> marker_ok (delete (Named (MetaFile slug)) d).
Proof.
  intros Hd Hne a. rewrite active_at_delete by done. intros Ha.
  unfold active_or_empty in Hne. rewrite Ha in Hne. cbn in Hne.
  destruct (Hd a Ha) as [->|Hm]; [by left|right]. by rewrite meta_at_delete by congruence.
Qed.
Lemma marker_ok_active d slug :
  slug = "" \/ is_ok (meta_at d slug) = true ->
  marker_ok (<[Named ActiveFile := ActiveJson slug]> d).
Proof. intros Hs a. rewrite active_at_insert, meta_at_other by done. by intros [= <-]. Qed.

#[local] Hint Resolve marker_ok_meta marker_ok_bundle marker_ok_del_bundle : store.

Lemma marker_ok_removed d slug :
  marker_ok d ->
  marker_ok (if bool_decide (slug = active_or_empty d)
             then <[Named ActiveFile := ActiveJson ""]> (removed d slug) else removed d slug).
Proof.
  intros Hd. unfold removed. case_bool_decide.
  - apply marker_ok_active. by left.
  - by apply marker_ok_del_bundle, marker_ok_del_meta.
Qed.

Lemma marker_ok_renamed d old new m c :
  old <> new -> marker_ok d -> marker_ok (renamed d old new m c).
Proof.
  intros Hne Hd. unfold renamed, renamed_files. case_bool_decide as Ha.
  - apply marker_ok_active. right.
    by rewrite !meta_at_delete, meta_at_insert by congruence.
  - apply marker_ok_del_meta; [auto with store|]. intros E. apply Ha. etransitivity; [|symmetry; exact E].
    unfold active_or_empty. by rewrite active_at_delete, !active_at_other by done.
Qed.

(** [marks m]: the run of [m] keeps the marker sound. *)
Definition marks {E A} (m : action pworld E A) : Prop :=
  forall w, marker_ok (disk w) -> marker_ok (disk (m w).2).

Lemma marks_evals {E A} v (m : action pworld E A) r v' w :
  evals v m r v' -> visible (disk w) = v -> marker_ok v' -> marker_ok (disk (m w).2).
Proof.
  intros Hm Hw Hv'. destruct (Hm w Hw) as (w' & E1 & Hw'). rewrite E1. cbn.
  apply marker_ok_visible. by rewrite Hw'.
Qed.
Lemma marks_unchanged {E A} (m : action pworld E A) :
  (forall v, on_visible (looks v) -> hoare (looks v) m (fun _ => True)) -> marks m.
Proof.
  intros Hm w Hw.
  assert (on_visible (looks (visible (disk w)))) as Hl.
  { intros d. unfold looks. by rewrite visible_idem. }
  destruct (Hm _ Hl w eq_refl) as (_ & Hv & _). apply marker_ok_visible. unfold looks in Hv.
  rewrite Hv. by apply marker_ok_visible.
Qed.
Lemma marks_bind {E A B} (m : action pworld E A) (f : A -> action pworld E B) :
  marks m -> (forall a, marks (f a)) -> marks (m ≫= f).
Proof.
  intros Hm Hf w Hw. unfold mbind, action_bind. specialize (Hm w Hw).
  destruct (m w) as [[a|e] w1]; [by apply Hf|done].
Qed.
Lemma marks_with_err {E E' A} (g : E -> E') (m : action pworld E A) : marks m -> marks (with_err g m).
Proof. intros Hm w Hw. unfold with_err. specialize (Hm w Hw). by destruct (m w). Qed.
Lemma marks_attempt {E E' A} (m : action pworld E A) : marks m -> marks (attempt m : action pworld E' _).
Proof. intros Hm w Hw. unfold attempt. specialize (Hm w Hw). by destruct (m w). Qed.
Lemma marks_ret {E A} (a : A) : marks (mret a : action pworld E A).
Proof. by intros w Hw. Qed.
Lemma marks_fail {E A} (e : E) : marks (fail e : action pworld E A).
Proof. by intros w Hw. Qed.

Context (ok : nat -> bool).
Hypothesis all_ok : forall n, ok n = true.

Lemma marks_Add now req : marks (Add trustRoots ok now req).
Proof.
  intros w Hw. apply marker_ok_visible in Hw.
  destruct (check_request trustRoots req) as [[slug b]|e] eqn:Ec.
  2:{ eapply marks_evals; [by apply (evals_Add_refused _ ok)|done|done]. }
  destruct (reqReplace req) eqn:Er; [|destruct (meta_at (visible (disk w)) slug) as [m|] eqn:Em].
  - destruct (evals_Add trustRoots ok all_ok (visible (disk w)) now req slug b) as (i & Hi & _); auto.
    eapply marks_evals; [exact Hi|done|auto with store].
  - eapply marks_evals; [by eapply evals_Add_exists|done|done].
  - destruct (evals_Add trustRoots ok all_ok (visible (disk w)) now req slug b) as (i & Hi & _);
      [done|right; by rewrite Em|]. eapply marks_evals; [exact Hi|done|auto with store].
Qed.

Lemma marks_SetActive slug : marks (SetActive ok slug).
Proof.
  intros w Hw. apply marker_ok_visible in Hw.
  destruct (decide (slug = "")) as [->|Hs].
  { eapply marks_evals; [apply (evals_SetActive ok all_ok); by left|done|].
    apply marker_ok_active. by left. }
  destruct (meta_at (visible (disk w)) slug) as [m|e] eqn:Em.
  - assert (is_ok (meta_at (visible (disk w)) slug) = true) as Hm by (by rewrite Em).
    eapply marks_evals; [apply (evals_SetActive ok all_ok); by right|done|].
    apply marker_ok_active. by right.
  - eapply marks_evals; [by eapply evals_SetActive_absent|done|done].
Qed.

Lemma marks_Remove slug : marks (Remove ok slug).
Proof.
  intros w Hw. apply marker_ok_visible in Hw.
  destruct (meta_at (visible (disk w)) slug) as [m|e] eqn:Em.
  - eapply marks_evals; [by eapply evals_Remove|done|by apply marker_ok_removed].
  - eapply marks_evals; [by eapply evals_Remove_absent|done|done].
Qed.

Lemma marks_UpdateMode now slug m : marks (UpdateMode ok now slug m).
Proof.
  intros w Hw. destruct (Valid m) eqn:Ev; [|by unfold UpdateMode; rewrite Ev].
  apply marker_ok_visible in Hw. destruct (meta_at (visible (disk w)) slug) as [cur|e] eqn:Em.
  - eapply marks_evals; [by eapply evals_UpdateMode|done|auto with store].
  - eapply marks_evals; [by eapply evals_UpdateMode_absent|done|done].
Qed.

Lemma marks_UpdateRosenpass now slug e p : marks (UpdateRosenpass ok now slug e p).
Proof.
  intros w Hw. apply marker_ok_visible in Hw.
  destruct (meta_at (visible (disk w)) slug) as [cur|err] eqn:Em.
  - eapply marks_evals; [by eapply evals_UpdateRosenpass|done|auto with store].
  - eapply marks_evals; [by eapply evals_UpdateRosenpass_absent|done|done].
Qed.

Lemma marks_Rename now old name : marks (Rename ok now old name).
Proof.
  intros w Hw. apply marker_ok_visible in Hw.
  destruct (Rename_cases ok all_ok (visible (disk w)) now old name) as
    [[e He]|[(m & _ & _ & He)|(new & m & c & _ & Hne & _ & _ & _ & He)]];
    (eapply marks_evals; [exact He|done|]); [done|auto with store|].
  by apply marker_ok_renamed.
Qed.

Lemma marks_Migrate now m : marks (MigrateLegacyBundle trustRoots ok now m).
Proof.
  unfold MigrateLegacyBundle. apply marks_bind.
  { apply marks_with_err, marks_unchanged. intros v Hv. by apply keeps_List. }
  intros existing. destruct (0 <? length existing); [apply marks_ret|]. apply marks_bind.
  { apply marks_attempt, marks_unchanged. intros v Hv. eapply hoare_True, hoare_read. }
  intros [c|[]]; [|apply marks_ret|apply marks_fail]. destruct (parse_bundle c); [|apply marks_fail].
  apply marks_bind; [apply marks_with_err, marks_Add|]. intros info.
  apply marks_bind; [apply marks_attempt, marks_SetActive|]. intros [|]; apply marks_ret.
Qed.
End marker.
