(* ===== verification/ProfileSpec.v ===== *)
(** What the profile store promises: the theorems about Profile.v.

    Two views of a run are used: under faults and crashes (a step may stop at
    any disk it goes through) and without, where every operation has an exact
    result. *)
From stdpp Require Import base tactics list gmap strings.
From Stdlib Require Import ZArith Ascii Lia.
From S2P Require Import Prelude GoStr Fs Mode Bundle Profile.
Local Open Scope list_scope.

(** A store on which the hypotheses below can be met: the toy codec and keys
    of Bundle.v, no readable foreign JSON. *)
Module ToyStore.
#[export] Existing Instance Toy.codec.
#[export] Existing Instance Toy.crypto.
#[export] Instance raw : RawJson := {| raw_meta _ := None; raw_active _ := None |}.

Definition roots : option TrustRoots := Some {| keys := ["ca1" : PublicKey] |}.
Definition fine : nat -> bool := fun _ => true.
Definition request (name : string) : AddProfileRequest :=
  {| reqName := name; reqMode := Combined; reqBundleBytes := s2l "dev-1|ca1"; reqReplace := false |}.
Definition lab : pworld := exec roots fine (OpAdd 5 (request "Lab")) (booted ∅).
Definition two : pworld := exec roots fine (OpSetActive "lab")
  (exec roots fine (OpAdd 6 (request "Field Kit")) lab).
End ToyStore.

Section spec.
Context {K : BundleCodec} {C : Crypto} {J : RawJson}.
Context (trustRoots : option TrustRoots).

Definition no_bundle_files (d : pdisk) : Prop := forall slug, d !! Named (BundleFile slug) = None.

Lemma Load_trusts (ok : nat -> bool) (slug : string) (w w' : pworld) (p : Profile) :
  bundles_verified trustRoots (disk w) -> Load ok slug w = (Ok p, w') ->
  VerifyBundle trustRoots (pBundle p) = Ok tt /\ CheckCPDeviceKeypair (pBundle p) = Ok tt.
Proof.
  intros Hd E. unfold Load, loadLocked in E.
  apply action_bind_Ok in E as (m & w1 & Hm & E). apply action_bind_Ok in E as (c & w2 & Hc & E).
  apply action_bind_Ok in E as (b & w3 & Hb & E). injection E as <- _. cbn.
  assert (bundles_verified trustRoots (disk w1)) as Hd1.
  { destruct (keeps_readMeta ok _ slug w Hd) as (_ & H1 & _). by rewrite Hm in H1. }
  assert (disk w1 !! Named (BundleFile slug) = Some c) as Hw1.
  { unfold with_err, read_file in Hc. destruct (disk w1 !! _); [|done].
    destruct (ok _); cbn in Hc; congruence. }
  destruct (Hd1 slug c Hw1) as (bytes & -> & b' & Hu & Hv & Hk).
  unfold lift in Hb. cbn in Hb. rewrite Hu in Hb. cbn in Hb. by simplify_eq.
Qed.

Lemma validateName_nonempty name slug : validateName name = Ok slug -> slug <> "".
Proof. unfold validateName. case_bool_decide; [done|]. by case_bool_decide; [|intros [= <-]]. Qed.

Lemma Add_slug ok now req w info w' : Add trustRoots ok now req w = (Ok info, w') -> iSlug info <> "".
Proof.
  unfold Add. intros ([slug b] & w1 & Hc & Hr)%action_bind_Ok. injection Hc as Hc _.
  apply check_request_Ok in Hc as (Hs%validateName_nonempty & _).
  apply action_bind_Ok in Hr as (? & w2 & _ & Hr). apply action_bind_Ok in Hr as (? & w3 & _ & Hr).
  apply action_bind_Ok in Hr as (? & w4 & _ & Hr). apply action_bind_Ok in Hr as ([|] & w5 & _ & Hr).
  - apply action_bind_Ok in Hr as (? & w6 & _ & Hr). by injection Hr as <- _.
  - by apply action_bind_Ok in Hr as (? & w6 & _ & Hr).
Qed.

(** Whatever else fails, an [Add] that returns has stored the bytes it was given. *)
Definition holds_bundle (slug : string) (c : content) (d : pdisk) : Prop := d !! Named (BundleFile slug) = Some c.
Lemma holds_bundle_visible slug c : on_visible (holds_bundle slug c).
Proof. intros d. unfold holds_bundle. by rewrite visible_lookup. Qed.
Lemma holds_bundle_insert slug c d f x : f <> BundleFile slug -> holds_bundle slug c d -> holds_bundle slug c (<[Named f := x]> d).
Proof. intros Hf Hd. unfold holds_bundle. by rewrite lookup_insert_ne by congruence. Qed.
Lemma holds_SetActive slug c ok s w : holds_bundle slug c (disk w) -> holds_bundle slug c (disk (SetActive ok s w).2).
Proof.
  intros Hw. assert (hoare (holds_bundle slug c) (SetActive ok s) (fun _ => True)) as Hk.
  { apply keeps_SetActive; [apply holds_bundle_visible|intros; by apply holds_bundle_insert..]. }
  by destruct (Hk w Hw) as (_ & Hd & _).
Qed.

Lemma writeBundle_stores ok slug c w w' : writeBundle ok slug c w = (Ok tt, w') -> holds_bundle slug c (disk w').
Proof.
  unfold writeBundle, writeAtomic. intros ([] & w1 & _ & Hr)%action_bind_Ok. apply with_err_Ok in Hr.
  apply write_temp_spec in Hr as [[[_ Hv]|[[e He] _]] _]; [|discriminate He|apply list_elem_of_here].
  unfold holds_bundle. rewrite (lookup_visible _ _ _ Hv). apply lookup_insert_eq.
Qed.

Lemma Add_stores ok now req w info w' :
  Add trustRoots ok now req w = (Ok info, w') -> holds_bundle (iSlug info) (Raw (reqBundleBytes req)) (disk w').
Proof.
  unfold Add. intros ([slug b] & w1 & _ & Hr)%action_bind_Ok. apply action_bind_Ok in Hr as (? & w2 & _ & Hr).
  apply action_bind_Ok in Hr as (? & w3 & _ & Hr). apply action_bind_Ok in Hr as ([] & w4 & Hw & Hr).
  apply writeBundle_stores in Hw. set (I := holds_bundle slug (Raw (reqBundleBytes req))) in *.
  assert (forall d s m, I d -> I (<[Named (MetaFile s) := MetaJson m]> d)) as Hm by (intros; by apply holds_bundle_insert).
  apply action_bind_Ok in Hr as (r & w5 & Ha & Hr).
  match type of Ha with attempt ?x _ = _ =>
    assert (hoare I x (fun _ => True)) as Hk by (apply keeps_writeMeta; [apply holds_bundle_visible|exact Hm]) end.
  destruct (Hk w4 Hw) as (_ & Hd & _). unfold attempt in Ha.
  destruct (writeMeta _ _ _ w4) as [rm w5'] eqn:Em. injection Ha as <- <-. cbn [snd] in Hd.
  destruct rm as [[]|e]; [|apply action_bind_Ok in Hr as (? & ? & _ & Hr); discriminate Hr].
  apply action_bind_Ok in Hr as (y & w6 & Ha & Hr). injection Hr as <- <-. cbn [iSlug].
  destruct (keeps_readActiveMarker ok I w5' Hd) as (_ & Hd6 & _). unfold attempt in Ha.
  destruct (readActiveMarker ok w5') as [z w6']. by injection Ha as _ <-.
Qed.

Lemma summarise_slug ok slug w info w' : summarise ok slug w = (Ok info, w') -> iSlug info = slug.
Proof.
  unfold summarise. intros (m & w1 & _ & Hr)%action_bind_Ok. apply action_bind_Ok in Hr as ([c|] & w2 & _ & Hr).
  - destruct (parse_bundle c); by injection Hr as <- _.
  - by injection Hr as <- _.
Qed.

Lemma Rename_slug ok now old name w info w' : Rename ok now old name w = (Ok info, w') -> iSlug info <> "".
Proof.
  unfold Rename. intros (slug & w1 & Hv & Hr)%action_bind_Ok. injection Hv as Hv%validateName_nonempty _.
  case_bool_decide as Hs.
  - apply action_bind_Ok in Hr as (? & ? & _ & Hr). apply action_bind_Ok in Hr as (? & ? & _ & Hr).
    apply summarise_slug in Hr. congruence.
  - apply action_bind_Ok in Hr as ([|] & ? & _ & Hr); [done|].
    apply action_bind_Ok in Hr as (? & ? & _ & Hr). apply action_bind_Ok in Hr as (? & ? & _ & Hr).
    apply action_bind_Ok in Hr as (? & ? & _ & Hr). apply action_bind_Ok in Hr as ([|] & ? & _ & Hr).
    + apply action_bind_Ok in Hr as (? & ? & _ & Hr). apply action_bind_Ok in Hr as (? & ? & _ & Hr).
      apply action_bind_Ok in Hr as (? & ? & _ & Hr). apply action_bind_Ok in Hr as (? & ? & _ & Hr).
      apply summarise_slug in Hr. congruence.
    + by apply action_bind_Ok in Hr as (? & ? & _ & Hr).
Qed.

Lemma Migrate_slug ok now m w slug err w' :
  MigrateLegacyBundle trustRoots ok now m w = (Ok (Some slug, err), w') -> slug <> "".
Proof.
  unfold MigrateLegacyBundle. intros (ex & w1 & _ & Hr)%action_bind_Ok. case_match; [done|].
  apply action_bind_Ok in Hr as ([data|[]] & w2 & _ & Hr); [|done..].
  destruct (parse_bundle data); [|done]. apply action_bind_Ok in Hr as (info & w3 & Ha & Hr).
  unfold with_err in Ha. destruct (Add _ _ _ _ w2) as [x w4] eqn:E. injection Ha as Ha _. destruct x; [|done].
  injection Ha as ->. apply Add_slug in E. apply action_bind_Ok in Hr as ([|] & w5 & _ & Hr); by injection Hr as <- _ _.
Qed.

Lemma store_verified d : reachable (store_step trustRoots) no_bundle_files d -> bundles_verified trustRoots d.
Proof.
  intros Hr. eapply reachable_invariant; [|intros; by eapply store_step_verified|exact Hr].
  intros d0 H0 s c. by rewrite H0.
Qed.

(** C2: The store never hands out an unverified bundle. Starting from a disk
    without bundle files, after any sequence of operations, each with any
    system calls failing and each possibly cut short by a crash, a profile
    that [Load] returns carries a bundle that verifies against the trust roots
    and has a paired device key. *)
Theorem Load_only_verified (ok : nat -> bool) (slug : string) (d : pdisk) (p : Profile) :
  reachable (store_step trustRoots) no_bundle_files d ->
  (Load ok slug (booted d)).1 = Ok p ->
  VerifyBundle trustRoots (pBundle p) = Ok tt /\ CheckCPDeviceKeypair (pBundle p) = Ok tt.
Proof.
  intros Hr%store_verified Hl. destruct (Load ok slug (booted d)) as [r w'] eqn:E. cbn in Hl. subst r.
  eapply (Load_trusts ok slug (booted d)); [exact Hr|exact E].
Qed.

(** Clobber resistance: listing, loading, switching the active profile and
    changing a profile's mode or Rosenpass policy leave every bundle file as it
    was, and no operation at all touches the v0.1.x bundle that migration
    reads; both hold at every point a crash can expose. *)
Theorem clobber_resistance (d d' : pdisk) (o : op) :
  store_step trustRoots d o d' ->
  d' !! Named LegacyFile = d !! Named LegacyFile /\
  (edits_bundles o = false ->
   forall slug, d' !! Named (BundleFile slug) = d !! Named (BundleFile slug)).
Proof.
  intros Hstep. split; [|intros He slug]; eapply store_step_lookup; eauto.
Qed.

(** Switching the active profile is crash-safe: wherever a [SetActive]
    stops, the marker is the old one or the new slug, and a marker that named
    a readable profile (or none) still does. *)
Theorem SetActive_crash_safe (d d' : pdisk) (slug : string) :
  store_step trustRoots d (OpSetActive slug) d' ->
  (active_at d' = active_at d \/ active_at d' = Ok slug) /\ (marker_ok d -> marker_ok d').
Proof.
  intros Hstep. remember (OpSetActive slug) as o eqn:Eo.
  destruct Hstep as [ok o d d' Hd']. subst o. cbn in Hd'.
  set (I := fun x : pdisk => (forall s, meta_at x s = meta_at d s) /\
    (active_at x = active_at d \/
     active_at x = Ok slug /\ (slug = "" \/ is_ok (meta_at d slug) = true))).
  assert (I d') as [Hm Ha].
  { eapply (hoare_booted I); [|split; [done|by left]|exact Hd'].
    assert (on_visible I) as HI.
    { intros x. unfold I. rewrite active_at_visible. by setoid_rewrite meta_at_visible. }
    unfold SetActive. apply (hoare_bind I _ _ (fun _ => slug = "" \/ is_ok (meta_at d slug) = true)).
    - case_bool_decide as Hs; [apply hoare_ret; by left|].
      eapply hoare_bind; [|intros m Hq; apply hoare_ret; exact Hq].
      unfold readMeta. eapply hoare_bind; [apply hoare_with_err, hoare_read|].
      intros c (x & [Hx _] & Hc). apply hoare_lift. intros m Hp. right.
      rewrite <-Hx. unfold meta_at. by rewrite Hc, Hp.
    - intros _ Hs. apply keeps_bind; [by apply keeps_attempt, keeps_readActiveMarker|].
      intros prev. apply keeps_bind; [|intros; by apply hoare_ret].
      unfold writeActiveLocked. apply keeps_bind; [apply hoare_with_err, hoare_sys|]. intros _.
      apply keeps_writeAtomic; [done|]. intros x [Hx _]. split.
      + intros s. by rewrite meta_at_other.
      + right. by rewrite active_at_insert. }
  split; [naive_solver|]. intros Hok a. rewrite Hm. destruct Ha as [->|[-> Hs]]; [apply Hok|].
  by intros [= <-].
Qed.

(** Without failures the active marker never dangles: after any operation a
    readable marker is empty or names a profile whose metadata is there, be it
    the active profile that was removed, renamed, replaced or edited. *)
Theorem marker_never_dangles (ok : nat -> bool) (o : op) (d : pdisk) :
  (forall n, ok n = true) -> marker_ok d -> marker_ok (disk (exec trustRoots ok o (booted d))).
Proof.
  intros Hok Hd. destruct o; cbn [exec].
  - by apply (marks_unchanged (List ok)); [intros; apply keeps_List|].
  - by apply (marks_unchanged (Load ok slug)); [intros; apply keeps_Load|].
  - by apply marks_Add.
  - by apply marks_Remove.
  - by apply marks_Rename.
  - by apply marks_SetActive.
  - by apply marks_UpdateMode.
  - by apply marks_UpdateRosenpass.
  - by apply marks_Migrate.
Qed.

(** C33: Importing a profile, when no call fails. A refused request (bad name or
    mode, empty or unparsable bundle, no roots, bad signature, unpaired keys)
    and a slug collision without Replace change nothing; otherwise the profile
    that [Load] then gives has the requested name and mode and exactly the
    imported bundle, keeps its creation time when it replaces one, and the
    marker and the other profiles are as before. *)
Theorem Add_then_Load (ok : nat -> bool) (now : Z) (req : AddProfileRequest) (w w' : pworld)
    (r : result profile_error Info) :
  (forall n, ok n = true) -> Add trustRoots ok now req w = (r, w') ->
  match check_request trustRoots req with
  | Err e => r = Err e /\ visible (disk w') = visible (disk w)
  | Ok (slug, b) =>
    if is_ok (meta_at (disk w) slug) && negb (reqReplace req)
    then r = Err ErrAlreadyExists /\ visible (disk w') = visible (disk w)
    else (exists info, r = Ok info /\ iSlug info = slug) /\
      (Load ok slug w').1 =
        Ok {| pName := trim_space (reqName req); pMode := reqMode req; pBundle := b;
              pCreatedAt := created_at (disk w) now req slug; pUpdatedAt := now;
              pRosenpassEnabled := None; pRosenpassPermissive := None |} /\
      active_at (disk w') = active_at (disk w) /\
      forall s, s <> slug -> meta_at (disk w') s = meta_at (disk w) s /\
        disk w' !! Named (BundleFile s) = disk w !! Named (BundleFile s)
  end.
Proof.
  intros Hok Hrun. destruct (check_request trustRoots req) as [[slug b]|e] eqn:Ec.
  2:{ eapply evals_inj; [|exact Hrun]. by apply (evals_Add_refused _ ok). }
  destruct (is_ok (meta_at (disk w) slug) && negb (reqReplace req)) eqn:Eg.
  { apply andb_true_iff in Eg as [Em Er%negb_true_iff]. rewrite <-meta_at_visible in Em.
    destruct (meta_at (visible (disk w)) slug) as [m|] eqn:Em'; [|done].
    eapply evals_inj; [|exact Hrun]. by eapply evals_Add_exists. }
  assert (reqReplace req = true \/ is_ok (meta_at (visible (disk w)) slug) = false) as Hr.
  { rewrite meta_at_visible. apply andb_false_iff in Eg as [?|?%negb_false_iff]; auto. }
  destruct (evals_Add trustRoots ok Hok (visible (disk w)) now req slug b Ec Hr) as (i & Hi & Hs).
  destruct (evals_inj _ _ _ _ _ _ Hi Hrun) as [-> Hv]. split; [by eauto|].
  rewrite <-!(active_at_visible (disk _)), Hv. split_and!.
  - destruct (evals_Load ok Hok _ slug w' Hv) as (w2 & -> & _). cbn.
    rewrite meta_at_insert, lookup_insert_ne, lookup_insert_eq by done. cbn.
    apply check_request_Ok in Ec as (_ & _ & _ & -> & _). cbn. unfold new_meta. cbn.
    f_equal. f_equal. unfold created_at. by rewrite meta_at_visible.
  - by rewrite !active_at_other.
  - intros s Hs'. rewrite <-(meta_at_visible (disk w')), Hv, <-(meta_at_visible (disk w)).
    rewrite !meta_at_other by congruence. split; [done|].
    rewrite (lookup_visible _ _ (BundleFile s) Hv), !lookup_insert_ne by congruence.
    by rewrite visible_lookup.
Qed.

(** Renaming, when no call fails: the profile moves to the new name's slug
    with its bundle bytes and every field of its metadata but the name and the
    update time, the old slug is gone, the marker follows if it named the old
    slug, and no other profile changes; a slug that is taken, an invalid name
    or a missing profile leave the store as it was. *)
Theorem Rename_moves (ok : nat -> bool) (now : Z) (old name : string) (w w' : pworld)
    (r : result profile_error Info) :
  (forall n, ok n = true) -> Rename ok now old name w = (r, w') ->
  match r with
  | Err _ => visible (disk w') = visible (disk w)
  | Ok info =>
    exists m new, validateName name = Ok new /\ iSlug info = new /\
      meta_at (disk w) old = Ok m /\ meta_at (disk w') new = Ok (with_name now name m) /\
      disk w' !! Named (BundleFile new) = disk w !! Named (BundleFile old) /\
      (new <> old -> is_ok (meta_at (disk w) new) = false /\ disk w' !! Named (MetaFile old) = None /\
         disk w' !! Named (BundleFile old) = None) /\
      active_at (disk w') = (if bool_decide (active_or_empty (disk w) = old) && negb (bool_decide (new = old))
                             then Ok new else active_at (disk w)) /\
      forall s, s <> old -> s <> new -> meta_at (disk w') s = meta_at (disk w) s /\
        disk w' !! Named (BundleFile s) = disk w !! Named (BundleFile s)
  end.
Proof.
  intros Hok Hrun.
  destruct (Rename_cases ok Hok (visible (disk w)) now old name) as
    [[e He]|[(m & Hn & Hm & He)|(new & m & c & Hn & Hne & Hnew & Hm & Hc & He)]];
    destruct (evals_inj _ _ _ _ _ _ He Hrun) as [-> Hv]; [done| |];
    clear He Hrun; rewrite meta_at_visible in Hm.
  - exists m, old. rewrite <-(meta_at_visible (disk w')), <-(active_at_visible (disk w')), Hv.
    rewrite meta_at_insert, active_at_other, active_at_visible by done.
    rewrite (lookup_visible _ _ (BundleFile old) Hv), lookup_insert_ne, visible_lookup by done.
    rewrite (bool_decide_eq_true_2 (old = old)) by done. rewrite andb_false_r.
    split_and!; try done. intros s Hs _.
    rewrite <-(meta_at_visible (disk w')), Hv, meta_at_other, meta_at_visible by congruence.
    rewrite (lookup_visible _ _ (BundleFile s) Hv), lookup_insert_ne, visible_lookup by done. done.
  - exists m, new. rewrite meta_at_visible in Hnew. rewrite visible_lookup in Hc.
    assert (active_or_empty (visible (disk w)) = active_or_empty (disk w)) as Ha
      by (unfold active_or_empty; by rewrite active_at_visible).
    rewrite <-(active_at_visible (disk w')), <-(meta_at_visible (disk w')), Hv.
    rewrite meta_at_renamed by congruence. rewrite (bool_decide_eq_false_2 (new = old)) by done.
    split_and!; try done.
    + rewrite (lookup_visible _ _ (BundleFile new) Hv), Hc. apply renamed_bundle; congruence.
    + intros _. split; [done|].
      rewrite (lookup_visible _ _ (BundleFile old) Hv), (lookup_visible _ _ (MetaFile old) Hv).
      by apply renamed_old.
    + rewrite active_at_renamed, Ha, active_at_visible. by case_bool_decide.
    + intros s Hso Hsn. rewrite <-(meta_at_visible (disk w')), (lookup_visible _ _ (BundleFile s) Hv), Hv.
      rewrite <-(meta_at_visible (disk w)), <-(visible_lookup (disk w)).
      by apply renamed_other.
Qed.
End spec.

(** ** Concrete runs *)
Import ToyStore.

Lemma lab_loads :
  (Load fine "lab" (booted (disk lab))).1 =
    Ok {| pName := "Lab"; pMode := Combined; pBundle := Toy.bundle_of "dev-1" "ca1";
          pCreatedAt := 5; pUpdatedAt := 5; pRosenpassEnabled := None; pRosenpassPermissive := None |}.
Proof. by vm_compute. Qed.

Lemma Load_only_verified_witness :
  VerifyBundle roots (Toy.bundle_of "dev-1" "ca1") = Ok tt.
Proof.
  refine (proj1 (Load_only_verified roots fine "lab" (disk lab) _ _ lab_loads)).
  apply (reach_step _ _ ∅ (OpAdd 5 (request "Lab"))); [|apply store_step_final].
  apply reach_init. intros slug. apply lookup_empty.
Defined.

(** [two]: two profiles, "lab" active. *)
Definition wtwo : pworld := booted (disk two).
Definition after (o : op) : pdisk := disk (exec roots fine o (booted (disk two))).

Lemma clobber_resistance_witness :
  after (OpUpdateMode 9 "lab" WGCP0Only) !! Named (BundleFile "lab") = Some (Raw (s2l "dev-1|ca1")).
Proof.
  assert (store_step roots (disk two) (OpUpdateMode 9 "lab" WGCP0Only) (after (OpUpdateMode 9 "lab" WGCP0Only)))
    as H by apply store_step_final.
  rewrite (proj2 (clobber_resistance roots _ _ _ H) eq_refl "lab"). by vm_compute.
Defined.

Lemma SetActive_crash_safe_witness :
  active_at (after (OpSetActive "field-kit")) = active_at (disk two) \/
  active_at (after (OpSetActive "field-kit")) = Ok "field-kit".
Proof. exact (proj1 (SetActive_crash_safe roots _ _ _ (store_step_final roots fine _ _))). Defined.

Lemma marker_never_dangles_witness : marker_ok (after (OpRemove "lab")).
Proof.
  apply (marker_never_dangles roots fine); [done|].
  intros a Ha. assert (active_at (disk two) = Ok "lab") as E by (by vm_compute).
  rewrite E in Ha. injection Ha as <-. right. by vm_compute.
Defined.

Lemma Add_then_Load_witness :
  (Add roots fine 7 (request "lab!") wtwo).1 = Err ErrAlreadyExists.
Proof.
  pose proof (Add_then_Load roots fine 7 (request "lab!") wtwo _ _
    (fun _ => eq_refl) (surjective_pairing _)) as H.
  assert (check_request roots (request "lab!") = Ok ("lab", Toy.bundle_of "dev-1" "ca1")) as E
    by (by vm_compute).
  rewrite E in H. assert (is_ok (meta_at (disk wtwo) "lab") = true) as E2 by (by vm_compute).
  rewrite E2 in H. exact (proj1 H).
Defined.

Lemma Rename_moves_witness :
  match (Rename fine 8 "lab" "My Lab" wtwo).1 with
  | Ok info => active_at (disk (Rename fine 8 "lab" "My Lab" wtwo).2) = Ok "my-lab"
  | Err _ => False
  end.
Proof.
  pose proof (Rename_moves fine 8 "lab" "My Lab" wtwo _ _
    (fun _ => eq_refl) (surjective_pairing _)) as H.
  assert (is_ok (Rename fine 8 "lab" "My Lab" wtwo).1 = true) as E by (by vm_compute).
  destruct (Rename fine 8 "lab" "My Lab" wtwo).1; [|done].
  destruct H as (m & new & Hn & _ & _ & _ & _ & _ & H & _).
  assert (validateName "My Lab" = Ok "my-lab") as E1 by (by vm_compute).
  rewrite E1 in Hn. injection Hn as <-.
  assert (bool_decide (active_or_empty (disk wtwo) = "lab") = true) as E2 by (by vm_compute).
  rewrite E2 in H. exact H.
Defined.

(** ** Two gaps a crash or a failed call opens *)

(** Cut short after it deleted the old metadata and before it rewrote the
    marker, a [Rename] of the active profile leaves the marker naming a
    profile that is not there. *)
Definition dangles (d : pdisk) : bool :=
  match active_at d with
  | Ok a => negb (bool_decide (a = "")) && negb (is_ok (meta_at d a))
  | Err _ => false
  end.
Lemma rename_crash_dangles :
  exists d, store_step roots (disk two) (OpRename 8 "lab" "My Lab") d /\ dangles d = true.
Proof.
  assert (existsb dangles (crash_disks (exec roots fine (OpRename 8 "lab" "My Lab") wtwo)) = true)
    as (d & Hd & Ht)%existsb_exists by (by vm_compute).
  exists d. split; [|done]. apply (store_run roots fine). by apply list_elem_of_In.
Qed.

(** Re-importing over a profile when the metadata write fails removes the
    profile's bundle: the rollback deletes the file it had replaced. *)
Definition re_import : AddProfileRequest :=
  {| reqName := "Lab"; reqMode := Combined; reqBundleBytes := s2l "dev-1|ca1"; reqReplace := true |}.
Lemma replace_rollback_loses_bundle :
  let run := Add roots (fun n => negb (n =? 9)) 9 re_import wtwo in
  is_ok run.1 = false /\ disk run.2 !! Named (BundleFile "lab") = None /\
  is_ok (meta_at (disk run.2) "lab") = true.
Proof. by vm_compute. Qed.
