(* ===== verification/Names.v ===== *)
(** Signed name snapshots and the fallback decision:
    internal/names/names.go.

    Times are instants in nanoseconds; [time_unix] is time.Unix with the
    int64 wrap-around of its internal seconds, and the product
    [time.Duration(s.TTLSeconds)*time.Second] wraps around too. Signatures are
    those of Bundle.v's [Crypto]; base64, JSON and netip are the class
    [NamesLib]. *)
From stdpp Require Import base tactics list gmap strings.
From Stdlib Require Import ZArith Ascii Lia.
From S2P Require Import Prelude GoStr Bundle.
Local Open Scope list_scope.

Definition SnapshotFormat : string := "goat-name-snapshot-v1".

Inductive Grade := GradeFresh | GradeAging | GradeExpired.

(** Seven days. *)
Definition FreshBound : Z := (7 * 24 * 3600 * second)%Z.

Record NameRecord := { RName : string; RIP : string }.
Record PeerBinding := { BName : string; BAnchor : string }.
Record ObservedRecord := { OName : string; OIP : string; ObservedAt : Z }.

Record Snapshot := {
  Format : string;
  SiteID : string;
  Zone : string;
  Serial : Z;
  GeneratedAt : string;
  GeneratedAtUnix : Z;
  TTLSeconds : Z;
  SnapCAID : string;
  Records : list NameRecord;
  PeerBindings : list PeerBinding }.

Record Meta := {
  MSerial : Z;
  MAge : Z;
  MGrade : Grade;
  MSiteID : string;
  MZone : string;
  MRecords : nat }.

(** time.Duration(secs)*time.Second. *)
Definition seconds (secs : Z) : Z := wrap64 (secs * second).

Definition GradeAt (s : Snapshot) (now : Z) : Meta :=
  let age := time_sub now (time_unix (GeneratedAtUnix s)) in
  let g := if (GeneratedAtUnix s <=? 0)%Z || (seconds (TTLSeconds s) <=? age)%Z then GradeExpired
           else if (FreshBound <=? age)%Z then GradeAging
           else GradeFresh in
  {| MSerial := Serial s; MAge := Z.max 0 age; MGrade := g; MSiteID := SiteID s;
     MZone := Zone s; MRecords := length (Records s) |}.

(** [strings.ToLower(strings.TrimSuffix(name, "."))]. *)
Definition canonical (name : string) : string := to_lower (trim_suffix name ".").

Definition Lookup (s : Snapshot) (name : string) : option NameRecord :=
  let want := canonical name in
  find_first (fun r => bool_decide (to_lower (RName r) = want)) (Records s).

(** ** Libraries *)
Class NamesLib := {
  base64_decode : string -> option chars;
  json_snapshot : chars -> option Snapshot;
  addr : Type;
  ParseAddr : string -> option addr;
  Is6 : addr -> bool }.

Inductive snapshot_error :=
  | ENoRoots
  | ESigBase64
  | ErrBadSignature
  | ESnapMalformed
  | ESnapFormat (f : string)
  | EReadSnapshot
  | EReadSig.

Inductive Source := SourceLive | SourceSnapshot | SourceObserved.

Inductive pick_error :=
  | ESnapshotIP (name ip : string)
  | EObservedIP (name ip : string)
  | EUnresolved.

Section names.
Context {C : Crypto} {L : NamesLib}.

(** The loop over the trust roots: a nil root verifies nothing. *)
Definition any_root (roots : list (option PublicKey)) (digest sig : chars) : bool :=
  existsb (fun pub => match pub with Some k => VerifyASN1 k digest sig | None => false end) roots.

Definition VerifyAndParse (artifact sig : chars) (roots : list (option PublicKey))
    : result snapshot_error Snapshot :=
  if length roots =? 0 then Err ENoRoots
  else
    der ← of_option ESigBase64 (base64_decode (trim_space (l2s sig)));
    let digest := sha256 artifact in
    if negb (any_root roots digest der) then Err ErrBadSignature
    else
      snap ← of_option ESnapMalformed (json_snapshot artifact);
      if negb (bool_decide (Format snap = SnapshotFormat)) then Err (ESnapFormat (Format snap))
      else Ok snap.

Record Answer := {
  AIP : addr;
  ASource : Source;
  AMeta : option Meta;
  AObservedAge : Z }.

Definition observedAnswer (obs : ObservedRecord) (now : Z) : result pick_error Answer :=
  ip ← of_option (EObservedIP (OName obs) (OIP obs)) (ParseAddr (OIP obs));
  let age := time_sub now (time_unix (ObservedAt obs)) in
  Ok {| AIP := ip; ASource := SourceObserved; AMeta := None; AObservedAge := Z.max 0 age |}.

(** The [if obs != nil { return observedAnswer(...) }; return error] tail. *)
Definition fall_observed (obs : option ObservedRecord) (now : Z) : result pick_error Answer :=
  match obs with
  | Some o => observedAnswer o now
  | None => Err EUnresolved
  end.

Definition snapshotAnswer (meta : Meta) (name : string) (rec : NameRecord) : result pick_error Answer :=
  ip ← of_option (ESnapshotIP name (RIP rec)) (ParseAddr (RIP rec));
  Ok {| AIP := ip; ASource := SourceSnapshot; AMeta := Some meta; AObservedAge := 0 |}.

Definition expired (m : Meta) : bool := match MGrade m with GradeExpired => true | _ => false end.

(** [snap] carries the snapshot, why it could not be read, or a nil of both. *)
Definition PickFallback (snap : result snapshot_error (option Snapshot)) (obs : option ObservedRecord)
    (name : string) (now : Z) : result pick_error Answer :=
  match snap with
  | Err _ => fall_observed obs now
  | Ok None => fall_observed obs now
  | Ok (Some s) =>
    let meta := GradeAt s now in
    if expired meta then fall_observed obs now
    else
      match Lookup s name with
      | Some rec =>
        match obs with
        | Some o =>
          if negb (bool_decide (OIP o = RIP rec)) && (GeneratedAtUnix s <? ObservedAt o)%Z
          then observedAnswer o now
          else snapshotAnswer meta name rec
        | None => snapshotAnswer meta name rec
        end
      | None => fall_observed obs now
      end
  end.

(** ** Lemmas *)
Lemma any_root_spec roots digest sig :
  any_root roots digest sig = true <-> exists k, Some k ∈ roots /\ VerifyASN1 k digest sig = true.
Proof.
  unfold any_root. rewrite existsb_exists. split.
  - intros ([k|] & Hk & Hv); [|done]. exists k. by rewrite list_elem_of_In.
  - intros (k & Hk%list_elem_of_In & Hv). by exists (Some k).
Qed.

(** [artifact] is signed by a root. *)
Definition root_signed (roots : list (option PublicKey)) (artifact sig : chars) : Prop :=
  exists der k, base64_decode (trim_space (l2s sig)) = Some der /\ Some k ∈ roots /\
    VerifyASN1 k (sha256 artifact) der = true.

Lemma VerifyAndParse_Ok artifact sig roots snap :
  VerifyAndParse artifact sig roots = Ok snap <->
  root_signed roots artifact sig /\ json_snapshot artifact = Some snap /\ Format snap = SnapshotFormat.
Proof.
  unfold VerifyAndParse, root_signed. destruct roots as [|r roots]; cbn [length Nat.eqb].
  { split; [done|]. intros [(der & k & _ & Hk & _) _]. by apply elem_of_nil in Hk. }
  destruct (base64_decode _) as [der|]; cbn [of_option mbind result_bind].
  2:{ split; [done|]. by intros [(der & k & ? & _) _]. }
  destruct (any_root (r :: roots) (sha256 artifact) der) eqn:E; cbn [negb].
  - apply any_root_spec in E as (k & Hk & Hv).
    destruct (json_snapshot artifact) as [s|]; cbn [of_option mbind result_bind];
      [|split; [done|naive_solver]].
    destruct (bool_decide_reflect (Format s = SnapshotFormat)); cbn [negb]; [|naive_solver].
    split; [intros [= <-]|naive_solver]. split_and!; [|done|done]. by exists der, k.
  - split; [done|]. intros [(der' & k & [= <-] & Hk & Hv) _].
    rewrite (proj2 (any_root_spec _ _ _)) in E by eauto. done.
Qed.

Lemma seconds_le n : (0 <= n)%Z -> (seconds n <= n * second)%Z.
Proof. intros. apply wrap64_le. unfold second. lia. Qed.

(** Far-future timestamps wrap into the past: such a snapshot is long expired. *)
Lemma time_unix_wrapped sec :
  (int64_max - unixToInternal < sec <= int64_max)%Z -> (time_unix sec < - (2 ^ 63 - 2 ^ 40) * second)%Z.
Proof.
  intros Hs. unfold time_unix.
  assert (wrap64 (sec + unixToInternal) = sec + unixToInternal - 2 ^ 64)%Z as ->.
  { unfold wrap64. rewrite <-(Z.mod_unique (sec + unixToInternal + 2 ^ 63) (2 ^ 64) 1
      (sec + unixToInternal - 2 ^ 63)); unfold int64_max, unixToInternal in *; lia. }
  unfold int64_max, unixToInternal, second in *. lia.
Qed.

(** A snapshot that is not expired is inside its declared TTL, whatever the
    wrap-around did. *)
Lemma not_expired s now :
  (0 <= TTLSeconds s)%Z -> (GeneratedAtUnix s <= int64_max)%Z -> (0 <= now <= int64_max)%Z ->
  expired (GradeAt s now) = false ->
  (0 < GeneratedAtUnix s)%Z /\ (now < (GeneratedAtUnix s + TTLSeconds s) * second)%Z.
Proof.
  unfold expired, GradeAt. cbn [MGrade]. intros Httl Hgen Hnow.
  pose proof (seconds_le _ Httl). pose proof (wrap64_range (TTLSeconds s * second)) as Hr.
  fold (seconds (TTLSeconds s)) in Hr.
  destruct (Z.leb_spec (GeneratedAtUnix s) 0); cbn [orb]; [done|].
  destruct (Z.leb_spec (seconds (TTLSeconds s)) (time_sub now (time_unix (GeneratedAtUnix s)))); [done|].
  intros _. split; [done|]. unfold time_sub, sat64 in *.
  destruct (Z.le_gt_cases (GeneratedAtUnix s) (int64_max - unixToInternal)).
  - rewrite time_unix_small in * by lia. unfold int64_min, int64_max, second in *. lia.
  - pose proof (time_unix_wrapped (GeneratedAtUnix s) ltac:(lia)).
    unfold int64_min, int64_max, second in *. lia.
Qed.

Lemma Lookup_Some s name r :
  Lookup s name = Some r -> r ∈ Records s /\ to_lower (RName r) = canonical name.
Proof.
  unfold Lookup. cbv zeta. intros [Hr Hn]%find_first_elem. by apply bool_decide_eq_true in Hn.
Qed.

Lemma observedAnswer_Ok o now a :
  observedAnswer o now = Ok a -> ASource a = SourceObserved /\ ParseAddr (OIP o) = Some (AIP a) /\
    AMeta a = None.
Proof.
  unfold observedAnswer. destruct (ParseAddr (OIP o)); cbn; [|done]. by intros [= <-].
Qed.

Lemma fall_observed_Ok obs now a :
  fall_observed obs now = Ok a ->
  exists o, obs = Some o /\ observedAnswer o now = Ok a.
Proof. destruct obs; cbn; [eauto|done]. Qed.

(** ** Properties *)

(** A snapshot is only accepted with a signature: [VerifyAndParse] returns a
    snapshot if and only if the detached signature, base64 of a DER value,
    verifies under one of the non-nil roots over the SHA-256 of the exact
    bytes, and those bytes parse to a snapshot of the known format; without
    roots it always refuses. *)
Theorem VerifyAndParse_exact (artifact sig : chars) (roots : list (option PublicKey)) (snap : Snapshot) :
  (VerifyAndParse artifact sig roots = Ok snap <->
   root_signed roots artifact sig /\ json_snapshot artifact = Some snap /\ Format snap = SnapshotFormat) /\
  VerifyAndParse artifact sig [] = Err ENoRoots.
Proof. split; [apply VerifyAndParse_Ok|done]. Qed.

(** C20: The fallback is fail-closed and labelled. An answer attributed to the
    snapshot comes from a record of a readable snapshot with that name whose
    true age is inside its declared TTL (the int64 wrap-around of TTL and
    timestamps can only expire it earlier), and is not contradicted by a newer
    observation; any other answer is labelled observed and is the given
    observation's address. *)
Theorem PickFallback_fail_closed (snap : result snapshot_error (option Snapshot))
    (obs : option ObservedRecord) (name : string) (now : Z) (a : Answer) :
  (forall s, snap = Ok (Some s) -> (0 <= TTLSeconds s < 2 ^ 64)%Z /\ (GeneratedAtUnix s <= int64_max)%Z) ->
  (0 <= now <= int64_max)%Z ->
  PickFallback snap obs name now = Ok a ->
  match ASource a with
  | SourceLive => False
  | SourceSnapshot =>
    exists s r, snap = Ok (Some s) /\ r ∈ Records s /\ to_lower (RName r) = canonical name /\
      ParseAddr (RIP r) = Some (AIP a) /\ AMeta a = Some (GradeAt s now) /\
      (0 < GeneratedAtUnix s)%Z /\ (now < (GeneratedAtUnix s + TTLSeconds s) * second)%Z /\
      forall o, obs = Some o -> OIP o = RIP r \/ (ObservedAt o <= GeneratedAtUnix s)%Z
  | SourceObserved => exists o, obs = Some o /\ ParseAddr (OIP o) = Some (AIP a)
  end.
Proof.
  intros Hrange Hnow Hpick.
  set (observed := exists o, obs = Some o /\ ParseAddr (OIP o) = Some (AIP a)).
  assert (forall o, obs = Some o -> observedAnswer o now = Ok a -> ASource a = SourceObserved /\ observed)
    as Hobs by (intros o Ho (-> & Hp & _)%observedAnswer_Ok; split; [done|by exists o]).
  assert (fall_observed obs now = Ok a -> ASource a = SourceObserved /\ observed) as Hfall
    by (intros (o & Ho & Ha)%fall_observed_Ok; by eapply Hobs).
  unfold PickFallback in Hpick.
  destruct snap as [[s|]|e]; [|by destruct (Hfall Hpick) as [-> ?]..]. cbv zeta in Hpick.
  destruct (expired (GradeAt s now)) eqn:Eexp; [by destruct (Hfall Hpick) as [-> ?]|].
  destruct (Lookup s name) as [r|] eqn:El; [|by destruct (Hfall Hpick) as [-> ?]].
  apply Lookup_Some in El as [Hr Hn]. destruct (Hrange s eq_refl) as [Httl Hgen].
  apply not_expired in Eexp as [Hpos Hage]; [|lia..].
  assert ((forall o, obs = Some o -> OIP o = RIP r \/ (ObservedAt o <= GeneratedAtUnix s)%Z) ->
    snapshotAnswer (GradeAt s now) name r = Ok a -> ASource a = SourceSnapshot /\
    exists s' r', Ok (E := snapshot_error) (Some s) = Ok (Some s') /\ r' ∈ Records s' /\
      to_lower (RName r') = canonical name /\ ParseAddr (RIP r') = Some (AIP a) /\
      AMeta a = Some (GradeAt s' now) /\ (0 < GeneratedAtUnix s')%Z /\
      (now < (GeneratedAtUnix s' + TTLSeconds s') * second)%Z /\
      forall o, obs = Some o -> OIP o = RIP r' \/ (ObservedAt o <= GeneratedAtUnix s')%Z) as Hsnap.
  { intros Hcon Ha. unfold snapshotAnswer in Ha.
    destruct (ParseAddr (RIP r)) as [ip|] eqn:Ep; cbn in Ha; [|done]. injection Ha as <-.
    split; [done|]. exists s, r. by split_and!. }
  destruct obs as [o|]; [|by destruct (Hsnap ltac:(done) Hpick) as [-> ?]].
  destruct (bool_decide_reflect (OIP o = RIP r)) as [Heq|Hne];
    destruct (Z.ltb_spec (GeneratedAtUnix s) (ObservedAt o)); cbn [negb andb] in Hpick;
    first [by destruct (Hobs o eq_refl Hpick) as [-> ?]
          |destruct (Hsnap ltac:(intros ? [= <-]; auto) Hpick) as [-> ?]; done].
Qed.
End names.

(** A toy library: base64 is the identity, an artifact is the name and address
    of its only record, and addresses are strings that are not empty. *)
Module ToyNames.
#[export] Existing Instance Toy.crypto.
Definition snap_of (id : string) : Snapshot :=
  {| Format := SnapshotFormat; SiteID := "lab"; Zone := "zone"; Serial := Z.of_nat (String.length id);
     GeneratedAt := ""; GeneratedAtUnix := 1000; TTLSeconds := 1000; SnapCAID := "ca";
     Records := [{| RName := "svc"; RIP := id |}];
     PeerBindings := [{| BName := "peer"; BAnchor := "anchor" |}] |}.
#[export] Instance lib : NamesLib := {|
  base64_decode s := Some (s2l s);
  json_snapshot b := Some (snap_of (l2s b));
  addr := string;
  ParseAddr s := if bool_decide (s = "") then None else Some s;
  Is6 a := false |}.
End ToyNames.

Lemma PickFallback_fail_closed_witness :
  exists r, r ∈ Records (ToyNames.snap_of "10.0.0.1") /\ RIP r = "10.0.0.1".
Proof.
  destruct (PickFallback_fail_closed (L := ToyNames.lib) (Ok (Some (ToyNames.snap_of "10.0.0.1"))) None "SVC."
    (1500 * second) {| AIP := ("10.0.0.1" : addr (NamesLib := ToyNames.lib)); ASource := SourceSnapshot;
      AMeta := Some (GradeAt (ToyNames.snap_of "10.0.0.1") (1500 * second)); AObservedAge := 0 |})
    as (s & r & [= <-] & Hr & _ & Hp & _).
  - intros s [= <-]. cbn. unfold int64_max. lia.
  - unfold int64_max, second. lia.
  - by vm_compute.
  - exists r. split; [exact Hr|]. cbn in Hr. apply list_elem_of_singleton in Hr as ->. reflexivity.
Defined.
