(* ===== verification/NamesStore.v ===== *)
(** The on-disk name store: internal/names/store.go.

    The four files live on the file system of Fs.v; a file's content carries
    the modification time its last write stamped, which os.Stat reports. The
    observed tier's JSON is represented by the records it encodes
    ([ObservedJson]), any other content is [Bytes]. The store's memory (the
    verified-snapshot cache with its stat key, and the write-suppression memo)
    is part of the state the operations thread. *)
From stdpp Require Import base tactics list gmap strings sorting.
From Stdlib Require Import ZArith Ascii Lia.
From S2P Require Import Prelude GoStr Fs Bundle Names.
Local Open Scope list_scope.

Inductive nfile := SnapshotFile | SigFile | ObservedFile | ClaimsFile.
#[export] Instance nfile_eq_dec : EqDecision nfile.
Proof. solve_decision. Defined.
#[export] Instance nfile_countable : Countable nfile.
Proof.
  apply (inj_countable'
    (fun f => match f with SnapshotFile => 0 | SigFile => 1 | ObservedFile => 2 | ClaimsFile => 3 end)
    (fun n => match n with 0 => SnapshotFile | 1 => SigFile | 2 => ObservedFile | _ => ClaimsFile end)).
  by intros [].
Defined.

Inductive ndata := Bytes (b : chars) | ObservedJson (l : list ObservedRecord).
Record ncontent := { ndat : ndata; mtime : Z }.

Abbreviation ndisk := (gmap (file nfile) ncontent).
Abbreviation nworld := (world nfile ncontent).

Definition ObservedTTL : Z := (30 * 24 * 3600 * second)%Z.
Definition ObservedMax : nat := 512.
Definition obsSuppress : Z := (60 * second)%Z.

(** Size and mtime of the artifact, then of the signature. *)
Definition statkey : Type := (Z * Z) * (Z * Z).

Record obsMark := { mark_ip : string; mark_at : Z }.

(** [Store], with the disk it is over. *)
Record store := {
  fs : nworld;
  snapCache : option Snapshot;
  snapCacheKey : option statkey;
  lastObs : gmap string obsMark }.

Inductive store_error :=
  | ESnapshot (e : snapshot_error)
  | ErrNotNewer
  | EWriteNames (e : fserr)
  | EClaimsMalformed.

Definition set_fs (w : nworld) (st : store) : store :=
  {| fs := w; snapCache := snapCache st; snapCacheKey := snapCacheKey st; lastObs := lastObs st |}.
Definition set_cache (s : option Snapshot) (k : option statkey) : action store store_error unit :=
  fun st => (Ok tt, {| fs := fs st; snapCache := s; snapCacheKey := k; lastObs := lastObs st |}).
Definition set_mark (name : string) (m : obsMark) : action store store_error unit :=
  fun st => (Ok tt, {| fs := fs st; snapCache := snapCache st; snapCacheKey := snapCacheKey st;
                       lastObs := <[name := m]> (lastObs st) |}).

(** Other processes can write the files as well: [others] says what they make of
    the disk just before a file call of the store, if anything. *)
Class Others := others : nat -> ndisk -> option ndisk.
Definition meddle {O : Others} (w : nworld) : nworld :=
  match others (ticks w) (disk w) with Some d => set_disk d w | None => w end.
Definition on_fs {O : Others} {E A} (m : action nworld E A) : action store E A := fun st =>
  let '(r, w) := m (meddle (fs st)) in (r, set_fs w st).

(** What json.Unmarshal makes of bytes that this store did not write. *)
Class NamesJson := {
  raw_observed : chars -> option (list ObservedRecord) }.

Definition size_of (c : ncontent) : Z :=
  match ndat c with Bytes b => Z.of_nat (length b) | ObservedJson _ => 0 end.

Section operations.
Context {C : Crypto} {L : NamesLib} {J : NamesJson} {O : Others}.
Context (roots : list (option PublicKey)) (ok : nat -> bool).

Abbreviation act := (action store store_error).

Definition atomic_steps : list wstep := [WWrite; WChmod; WClose].
Definition no_content : ncontent := {| ndat := Bytes []; mtime := 0 |}.

(** Written at [now]. *)
Definition writeAtomic (now : Z) (path : nfile) (data : ndata) : act unit :=
  on_fs (with_err EWriteNames (write_temp ok no_content atomic_steps path {| ndat := data; mtime := now |})).

(** os.Stat, which fails as a read does. *)
Definition snapStatKey : act (option statkey) :=
  a ← attempt (on_fs (read_file ok (Named SnapshotFile)));
  match a with
  | Err _ => mret None
  | Ok a =>
    s ← attempt (on_fs (read_file ok (Named SigFile)));
    match s with
    | Err _ => mret None
    | Ok s => mret (Some ((size_of a, mtime a), (size_of s, mtime s)))
    end
  end.

Definition bytes_of_content (c : ncontent) : chars :=
  match ndat c with Bytes b => b | ObservedJson _ => [] end.

(** The cached snapshot, if [key] is the one it was verified under. *)
Definition cache_hit (st : store) (key : option statkey) : option Snapshot :=
  if bool_decide (key <> None) && bool_decide (key = snapCacheKey st) then snapCache st else None.

Definition loadSnapshotLocked : act Snapshot :=
  key ← snapStatKey;
  st ← run get;
  match cache_hit st key with
  | Some snap => mret snap
  | None =>
    artifact ← on_fs (with_err (fun _ => ESnapshot EReadSnapshot) (read_file ok (Named SnapshotFile)));
    sig ← on_fs (with_err (fun _ => ESnapshot EReadSig) (read_file ok (Named SigFile)));
    match VerifyAndParse (bytes_of_content artifact) (bytes_of_content sig) roots with
    | Err e => _ ← set_cache None None; fail (ESnapshot e)
    | Ok snap => _ ← set_cache (Some snap) key; mret snap
    end
  end.

Definition LoadSnapshot : act Snapshot := loadSnapshotLocked.

Definition PutSnapshot (now : Z) (artifact sig : chars) : act Snapshot :=
  cand ← lift (map_err ESnapshot (VerifyAndParse artifact sig roots));
  r ← attempt loadSnapshotLocked;
  _ ← match r with
      | Ok cached => if (Serial cand <=? Serial cached)%Z then fail ErrNotNewer else mret tt
      | Err _ => mret tt
      end;
  _ ← writeAtomic now SigFile (Bytes sig);
  _ ← writeAtomic now SnapshotFile (Bytes artifact);
  key ← snapStatKey;
  _ ← set_cache (Some cand) key;
  mret cand.

(** ** The observed tier *)
Definition parse_observed (c : ncontent) : option (list ObservedRecord) :=
  match ndat c with Bytes b => raw_observed b | ObservedJson l => Some l end.

Definition loadObserved : act (list ObservedRecord) :=
  r ← attempt (on_fs (read_file ok (Named ObservedFile)));
  match r with
  | Err _ => mret []
  | Ok b => match parse_observed b with None => mret [] | Some l => mret l end
  end.

(** [now.Sub(time.Unix(o.ObservedAt, 0)) >= ObservedTTL]. *)
Definition stale (now : Z) (o : ObservedRecord) : bool :=
  (ObservedTTL <=? time_sub now (time_unix (ObservedAt o)))%Z.

Definition newest_first (a b : ObservedRecord) : Prop := (ObservedAt b <= ObservedAt a)%Z.
#[export] Instance newest_first_dec a b : Decision (newest_first a b).
Proof. unfold newest_first. apply _. Defined.

(** now.Unix(). *)
Definition unix (now : Z) : Z := (now / second)%Z.

(** The records [RecordObservation] writes back. *)
Definition upsert (records : list ObservedRecord) (want ip : string) (now : Z) : list ObservedRecord :=
  let kept := filter (fun o => to_lower (OName o) <> want /\ stale now o = false) records in
  let kept := kept ++ [{| OName := want; OIP := ip; ObservedAt := unix now |}] in
  take ObservedMax (merge_sort newest_first kept).

Definition suppressed (st : store) (want ip : string) (now : Z) : bool :=
  match lastObs st !! want with
  | Some m => bool_decide (mark_ip m = ip) && (time_sub now (mark_at m) <? obsSuppress)%Z
  | None => false
  end.

Definition RecordObservation (name ip : string) (now : Z) : act unit :=
  let want := canonical name in
  st ← run get;
  if suppressed st want ip now then mret tt
  else
    _ ← set_mark want {| mark_ip := ip; mark_at := now |};
    records ← loadObserved;
    writeAtomic now ObservedFile (ObservedJson (upsert records want ip now)).

(** The loop of [LookupObserved]. *)
Definition lookup_records (records : list ObservedRecord) (want : string) (now : Z) : option ObservedRecord :=
  find_first (fun o => negb (stale now o) && bool_decide (to_lower (OName o) = want)) records.

Definition LookupObserved (name : string) (now : Z) : act (option ObservedRecord) :=
  records ← loadObserved;
  mret (lookup_records records (canonical name) now).

Definition ObservedCount (now : Z) : act nat :=
  records ← loadObserved;
  mret (length (filter (fun o => stale now o = false) records)).

End operations.

(** The store has the files to itself while an operation runs, unless said
    otherwise. *)
#[export] Instance no_others : Others := fun _ _ => None.

Section store.
Context {C : Crypto} {L : NamesLib} {J : NamesJson}.
Context (roots : list (option PublicKey)) (ok : nat -> bool).

(** ** What is on disk *)
Definition stat_key (d : ndisk) : option statkey :=
  a ← d !! Named SnapshotFile; s ← d !! Named SigFile;
  Some ((size_of a, mtime a), (size_of s, mtime s)).

(** What a process that just started reads, if the reads succeed. *)
Definition disk_snapshot (d : ndisk) : result store_error Snapshot :=
  a ← of_option (ESnapshot EReadSnapshot) (d !! Named SnapshotFile);
  s ← of_option (ESnapshot EReadSig) (d !! Named SigFile);
  map_err ESnapshot (VerifyAndParse (bytes_of_content a) (bytes_of_content s) roots).

(** The cache is the disk's snapshot whenever its key is the disk's. *)
Definition coherent (st : store) : Prop :=
  forall s k, snapCache st = Some s -> snapCacheKey st = Some k ->
  stat_key (disk (fs st)) = Some k -> disk_snapshot (disk (fs st)) = Ok s.

Definition key_before (now : Z) (k : option statkey) : Prop :=
  forall z1 m1 z2 m2, k = Some ((z1, m1), (z2, m2)) -> (m1 < now /\ m2 < now)%Z.

(** Every modification time the store has seen is before [now]. *)
Definition before (now : Z) (st : store) : Prop :=
  key_before now (snapCacheKey st) /\
  forall f c, disk (fs st) !! Named f = Some c -> (mtime c < now)%Z.

Lemma stat_key_visible d d' : visible d = visible d' -> stat_key d = stat_key d'.
Proof. intros E. unfold stat_key. by rewrite !(lookup_visible_eq d d' _ E). Qed.
Lemma disk_snapshot_visible d d' : visible d = visible d' -> disk_snapshot d = disk_snapshot d'.
Proof. intros E. unfold disk_snapshot. by rewrite !(lookup_visible_eq d d' _ E). Qed.

Lemma on_fs_alone {E A} (m : action nworld E A) st : on_fs m st = let '(r, w) := m (fs st) in (r, set_fs w st).
Proof. done. Qed.

(** Reading changes nothing but the tick. *)
Definition same_disk (st st' : store) : Prop :=
  disk (fs st') = disk (fs st) /\ past (fs st') = past (fs st).
Definition same_memory (st st' : store) : Prop :=
  snapCache st' = snapCache st /\ snapCacheKey st' = snapCacheKey st.

Lemma same_disk_refl st : same_disk st st.
Proof. done. Qed.
Lemma same_disk_trans st1 st2 st3 : same_disk st1 st2 -> same_disk st2 st3 -> same_disk st1 st3.
Proof. intros [E1 E2] [E3 E4]. split; congruence. Qed.

(** The next [n] file calls work. *)
Definition fine (n : nat) (st : store) : Prop := forall i, i < n -> ok (ticks (fs st) + i) = true.
Lemma fine_0 n st : fine (S n) st -> ok (ticks (fs st)) = true.
Proof. intros H. rewrite <-(Nat.add_0_r (ticks (fs st))). apply H. lia. Qed.
Lemma fine_later n m st st' :
  fine n st -> ticks (fs st) <= ticks (fs st') -> ticks (fs st') + m <= ticks (fs st) + n -> fine m st'.
Proof.
  intros H H1 H2 i Hi. replace (ticks (fs st') + i) with (ticks (fs st) + (ticks (fs st') - ticks (fs st) + i)) by lia.
  apply H. lia.
Qed.
Lemma fine_all n st : (forall i, ok i = true) -> fine n st.
Proof. by intros H i _. Qed.

Lemma on_fs_read {E} (g : fserr -> E) f st r st' :
  on_fs (with_err g (read_file ok (Named f))) st = (r, st') ->
  same_disk st st' /\ same_memory st st' /\ ticks (fs st') = S (ticks (fs st)) /\
  (forall c, r = Ok c -> disk (fs st) !! Named f = Some c) /\
  (ok (ticks (fs st)) = true -> is_ok r = bool_decide (is_Some (disk (fs st) !! Named f))).
Proof.
  rewrite on_fs_alone. unfold with_err, read_file, same_disk, same_memory.
  destruct (disk (fs st) !! Named f) as [c|] eqn:Ed; [destruct (ok _) eqn:Eo|]; intros [= <- <-]; cbn;
    split_and!; try done; by intros ? [= <-].
Qed.

Lemma on_fs_read' f st r st' :
  on_fs (read_file ok (Named f)) st = (r, st') ->
  same_disk st st' /\ same_memory st st' /\ ticks (fs st') = S (ticks (fs st)) /\
  (forall c, r = Ok c -> disk (fs st) !! Named f = Some c) /\
  (ok (ticks (fs st)) = true -> is_ok r = bool_decide (is_Some (disk (fs st) !! Named f))).
Proof.
  intros E. apply (on_fs_read id f). rewrite <-E, !on_fs_alone. unfold with_err. by destruct (read_file _ _ _) as [[?|?] ?].
Qed.

Lemma snapStatKey_spec st r st' :
  snapStatKey ok st = (r, st') ->
  same_disk st st' /\ same_memory st st' /\ ticks (fs st) <= ticks (fs st') <= ticks (fs st) + 2 /\
  exists k, r = Ok k /\ (k = None \/ k = stat_key (disk (fs st))).
Proof.
  unfold snapStatKey, stat_key. unfold mbind at 1, action_bind, attempt at 1.
  destruct (on_fs (read_file ok (Named SnapshotFile)) st) as [r1 st1] eqn:H1.
  apply on_fs_read' in H1 as (Hd1 & Hm1 & Ht1 & Hr1 & _).
  destruct r1 as [a|e].
  2:{ intros [= <- <-]. split_and!; [done..|lia|lia|]. exists None. by split; [|left]. }
  rewrite (Hr1 a eq_refl). unfold mbind at 1, attempt.
  destruct (on_fs (read_file ok (Named SigFile)) st1) as [r2 st2] eqn:H2.
  apply on_fs_read' in H2 as (Hd2 & Hm2 & Ht2 & Hr2 & _).
  assert (same_disk st st2) by (by eapply same_disk_trans).
  assert (same_memory st st2) by (unfold same_memory in *; naive_solver congruence).
  destruct Hd1 as [Hd1 _]. rewrite Hd1 in Hr2.
  destruct r2 as [s|e]; intros [= <- <-]; (split_and!; [done|done|lia|lia|]).
  - rewrite (Hr2 s eq_refl). cbn. eexists. by split; [|right].
  - exists None. by split; [|left].
Qed.

Lemma cache_hit_Some st key snap :
  cache_hit st key = Some snap ->
  snapCache st = Some snap /\ exists k, key = Some k /\ snapCacheKey st = Some k.
Proof.
  unfold cache_hit. destruct (bool_decide_reflect (key <> None)); [|done].
  destruct (bool_decide_reflect (key = snapCacheKey st)) as [->|]; [|done]. cbn. intros Hs.
  split; [done|]. destruct (snapCacheKey st) as [k|]; [|done]. by exists k.
Qed.

(** The read-and-verify path of [loadSnapshotLocked], after the key was taken. *)
Definition read_verify {O : Others} (key : option statkey) : action store store_error Snapshot :=
  artifact ← on_fs (with_err (fun _ => ESnapshot EReadSnapshot) (read_file ok (Named SnapshotFile)));
  sig ← on_fs (with_err (fun _ => ESnapshot EReadSig) (read_file ok (Named SigFile)));
  match VerifyAndParse (bytes_of_content artifact) (bytes_of_content sig) roots with
  | Err e => _ ← set_cache None None; fail (ESnapshot e)
  | Ok snap => _ ← set_cache (Some snap) key; mret snap
  end.

Lemma read_verify_spec key st r st' :
  read_verify key st = (r, st') ->
  same_disk st st' /\
  (same_memory st st' \/ snapCacheKey st' = None \/
    snapCacheKey st' = key /\ exists s, snapCache st' = Some s /\ disk_snapshot (disk (fs st)) = Ok s) /\
  (forall s, r = Ok s -> disk_snapshot (disk (fs st)) = Ok s) /\
  (fine 2 st -> is_ok r = is_ok (disk_snapshot (disk (fs st)))).
Proof.
  unfold disk_snapshot, read_verify. unfold mbind at 1, action_bind.
  destruct (on_fs _ st) as [r1 st1] eqn:E1. apply on_fs_read in E1 as (Hd1 & Hm1 & Ht1 & Hr1 & Hok1).
  destruct r1 as [a|e].
  2:{ intros [= <- <-]. split_and!; [done|by left|done|]. intros Hok%fine_0. specialize (Hok1 Hok).
      symmetry in Hok1. apply bool_decide_eq_false in Hok1.
      destruct (disk (fs st) !! Named SnapshotFile); [by destruct Hok1|done]. }
  rewrite (Hr1 a eq_refl). cbn [of_option mbind result_bind]. unfold mbind at 1, action_bind.
  destruct (on_fs _ st1) as [r2 st2] eqn:E2. apply on_fs_read in E2 as (Hd2 & Hm2 & Ht2 & Hr2 & Hok2).
  assert (same_disk st st2) as Hd by (by eapply same_disk_trans).
  assert (same_memory st st2) as Hm by (unfold same_memory in *; naive_solver congruence).
  destruct Hd1 as [Hd1 _]. rewrite Hd1 in Hr2, Hok2.
  destruct r2 as [s|e].
  2:{ intros [= <- <-]. split_and!; [done|by left|done|]. intros Hok.
      assert (ok (ticks (fs st1)) = true) as Hok' by (apply (fine_0 0), (fine_later 2 1 st); [done|lia|lia]).
      specialize (Hok2 Hok'). symmetry in Hok2. apply bool_decide_eq_false in Hok2.
      destruct (disk (fs st) !! Named SigFile); [by destruct Hok2|done]. }
  rewrite (Hr2 s eq_refl). cbn [of_option mbind result_bind].
  destruct (VerifyAndParse _ _ _) as [snap|e]; intros [= <- <-]; cbn; (split_and!; [done|..]).
  - right; right. split; [done|]. by exists snap.
  - by intros ? [= <-].
  - done.
  - right; by left.
  - done.
  - done.
Qed.

Lemma load_spec st r st' :
  loadSnapshotLocked roots ok st = (r, st') -> coherent st ->
  same_disk st st' /\ coherent st' /\
  (snapCacheKey st' = snapCacheKey st \/ snapCacheKey st' = None \/
   snapCacheKey st' = stat_key (disk (fs st))) /\
  (forall s, r = Ok s -> disk_snapshot (disk (fs st)) = Ok s) /\
  (fine 4 st -> is_ok r = is_ok (disk_snapshot (disk (fs st)))).
Proof.
  intros Hrun Hco. unfold loadSnapshotLocked in Hrun. unfold mbind at 1, action_bind in Hrun.
  destruct (snapStatKey ok st) as [r0 st0] eqn:E0.
  apply snapStatKey_spec in E0 as ([Hd0 Hp0] & (Hc0 & Hk0) & Ht0 & key & -> & Hkey).
  unfold mbind at 1, action_bind, run, get in Hrun. cbn beta iota in Hrun.
  assert (coherent st0) as Hco0 by (intros s k; rewrite Hc0, Hk0, Hd0; apply Hco).
  destruct (cache_hit st0 key) as [snap|] eqn:Eh.
  - unfold mret, action_ret in Hrun. injection Hrun as <- <-. apply cache_hit_Some in Eh as (Hs & k & -> & Hk).
    destruct Hkey as [Hkey|Hkey]; [done|].
    assert (disk_snapshot (disk (fs st)) = Ok snap) as Hsnap.
    { rewrite <-Hd0. eapply Hco0; [done..|]. by rewrite Hd0. }
    split_and!; [done|done|by left|by intros ? [= <-]|]. by rewrite Hsnap.
  - apply (read_verify_spec key) in Hrun as ([Hd1 Hp1] & Hmem & Hr & Hok). rewrite Hd0 in *.
    split_and!; [split; congruence| | |done|].
    + intros s k Hs Hk Hst. rewrite Hd1 in *.
      destruct Hmem as [(Hc1 & Hk1)|[Hk1|(Hk1 & s' & Hs' & Hds)]].
      * rewrite Hc1 in Hs. rewrite Hk1 in Hk. specialize (Hco0 s k Hs Hk). rewrite Hd0 in Hco0.
        by apply Hco0.
      * congruence.
      * congruence.
    + destruct Hmem as [(_ & Hk1)|[Hk1|(Hk1 & _)]]; [left; congruence|by right; left|].
      destruct Hkey as [-> | ->]; [by right; left|by right; right].
    + intros Hf. apply Hok, (fine_later 4 2 st); [done|lia|lia].
Qed.

(** ** Writing *)
Lemma write_spec now path data st r st' :
  writeAtomic ok now path data st = (r, st') ->
  let v := visible (disk (fs st)) in
  let v' := <[Named path := {| ndat := data; mtime := now |}]> v in
  same_memory st st' /\
  (r = Ok tt /\ visible (disk (fs st')) = v' \/ (exists e, r = Err (EWriteNames e)) /\ visible (disk (fs st')) = v) /\
  step_to (fun d => visible d = v \/ visible d = v') (fs st) (fs st') /\
  ((forall n, ok n = true) -> r = Ok tt).
Proof.
  unfold writeAtomic. rewrite on_fs_alone. unfold with_err.
  destruct (write_temp ok no_content atomic_steps path {| ndat := data; mtime := now |} (fs st))
    as [r1 w1] eqn:E.
  pose proof (write_temp_ok ok no_content atomic_steps path {| ndat := data; mtime := now |} (fs st)) as Hok.
  rewrite E in Hok. cbn in Hok. intros [= <- <-]. apply write_temp_spec in E as [Hr Hs]; [|apply list_elem_of_here].
  cbn. split_and!; [done| |done|intros H; by rewrite (Hok H)].
  destruct Hr as [[-> Hv]|[[e ->] Hv]]; [by left|right]. split; [by eexists|done].
Qed.

Lemma stat_key_write v now data f :
  f = SnapshotFile \/ f = SigFile ->
  forall z1 m1 z2 m2, stat_key (<[Named f := {| ndat := data; mtime := now |}]> v) = Some ((z1, m1), (z2, m2)) ->
  m1 = now \/ m2 = now.
Proof.
  unfold stat_key. intros [-> | ->] z1 m1 z2 m2; rewrite lookup_insert_eq.
  - cbn. destruct (_ !! Named SigFile); cbn; [|done]. intros [= <- <- <- <-]. by left.
  - rewrite lookup_insert_ne by done. destruct (_ !! Named SnapshotFile); cbn; [|done].
    intros [= <- <- <- <-]. by right.
Qed.

(** A write later than everything the cache knows invalidates the cache. *)
Lemma coherent_write st st' now data f :
  f = SnapshotFile \/ f = SigFile ->
  before now st -> same_memory st st' ->
  visible (disk (fs st')) = <[Named f := {| ndat := data; mtime := now |}]> (visible (disk (fs st))) ->
  coherent st'.
Proof.
  intros Hf [Hk _] (_ & Hk') Hv s [[z1 m1] [z2 m2]] _ Hkey Hst. rewrite Hk' in Hkey.
  rewrite <-(stat_key_visible _ _ (visible_idem _)), Hv in Hst.
  apply stat_key_write in Hst; [|done]. destruct (Hk _ _ _ _ Hkey). lia.
Qed.

Lemma coherent_same st st' :
  same_memory st st' -> visible (disk (fs st')) = visible (disk (fs st)) -> coherent st -> coherent st'.
Proof.
  intros (Hc & Hk) Hv Hco s k. rewrite Hc, Hk, (stat_key_visible _ _ Hv), (disk_snapshot_visible _ _ Hv).
  apply Hco.
Qed.

(** A write to another file does not concern the snapshot. *)
Lemma coherent_other st st' f c :
  f <> SnapshotFile -> f <> SigFile -> same_memory st st' ->
  visible (disk (fs st')) = <[Named f := c]> (visible (disk (fs st))) -> coherent st -> coherent st'.
Proof.
  intros Hf1 Hf2 (Hc & Hk) Hv Hco s k. rewrite Hc, Hk. unfold stat_key, disk_snapshot.
  rewrite !(lookup_visible_insert _ _ _ _ _ Hv), !bool_decide_eq_false_2 by congruence. apply Hco.
Qed.

Lemma disk_snapshot_pair v now1 now2 artifact sig :
  disk_snapshot (<[Named SnapshotFile := {| ndat := Bytes artifact; mtime := now1 |}]>
    (<[Named SigFile := {| ndat := Bytes sig; mtime := now2 |}]> v)) =
  map_err ESnapshot (VerifyAndParse artifact sig roots).
Proof.
  unfold disk_snapshot. by rewrite lookup_insert_eq, lookup_insert_ne, lookup_insert_eq by done.
Qed.

(** A torn pair, new signature over the old artifact, verifies at most as the
    old snapshot. *)
Lemma disk_snapshot_torn v now sig s old :
  disk_snapshot (<[Named SigFile := {| ndat := Bytes sig; mtime := now |}]> v) = Ok s ->
  disk_snapshot v = Ok old -> s = old.
Proof.
  unfold disk_snapshot. rewrite (lookup_insert_ne v (Named SigFile) (Named SnapshotFile)) by done.
  destruct (v !! Named SnapshotFile) as [a|]; cbn; [|done].
  rewrite lookup_insert_eq. destruct (v !! Named SigFile) as [c|]; cbn; [|done].
  rewrite !map_err_Ok, !VerifyAndParse_Ok. intros (_ & H1 & _) (_ & H2 & _). congruence.
Qed.

(** The two writes and the cache update that end [PutSnapshot]. *)
Definition put_writes {O : Others} (now : Z) (artifact sig : chars) (cand : Snapshot) : action store store_error Snapshot :=
  _ ← writeAtomic ok now SigFile (Bytes sig);
  _ ← writeAtomic ok now SnapshotFile (Bytes artifact);
  key ← snapStatKey ok;
  _ ← set_cache (Some cand) key;
  mret cand.

Lemma put_writes_spec now artifact sig cand st r st' :
  put_writes now artifact sig cand st = (r, st') -> VerifyAndParse artifact sig roots = Ok cand ->
  coherent st -> before now st ->
  let v := visible (disk (fs st)) in
  let v1 := <[Named SigFile := {| ndat := Bytes sig; mtime := now |}]> v in
  let v2 := <[Named SnapshotFile := {| ndat := Bytes artifact; mtime := now |}]> v1 in
  coherent st' /\
  (snapCacheKey st' = snapCacheKey st \/ snapCacheKey st' = None \/
   snapCacheKey st' = stat_key (disk (fs st'))) /\
  step_to (fun d => visible d = v \/ visible d = v1 \/ visible d = v2) (fs st) (fs st') /\
  (r = Ok cand /\ visible (disk (fs st')) = v2 \/ exists e, r = Err (EWriteNames e)) /\
  ((forall n, ok n = true) -> is_ok r = true).
Proof.
  intros Hrun Hv Hco Hbef v v1 v2. unfold put_writes in Hrun. unfold mbind at 1, action_bind in Hrun.
  destruct (writeAtomic ok now SigFile (Bytes sig) st) as [r1 st1] eqn:E1.
  apply write_spec in E1 as (Hm1 & Hw1 & Hs1 & Hok1).
  assert (coherent st1) as Hco1.
  { destruct Hw1 as [[_ Hv1]|[_ Hv1]]; [by eapply (coherent_write st); eauto|by eapply coherent_same]. }
  assert (step_to (fun d => visible d = v \/ visible d = v1 \/ visible d = v2) (fs st) (fs st1)) as Hs1'
    by (eapply step_to_mono; [|exact Hs1]; intros d [?|?]; auto).
  destruct Hw1 as [[-> Hv1]|[[e ->] Hv1]]; cbn beta iota in Hrun.
  2:{ injection Hrun as <- <-. split_and!; [done|left; apply Hm1|done|right; by eexists|].
      intros H. by specialize (Hok1 H). }
  unfold mbind at 1 in Hrun.
  destruct (writeAtomic ok now SnapshotFile (Bytes artifact) st1) as [r2 st2] eqn:E2.
  apply write_spec in E2 as (Hm2 & Hw2 & Hs2 & Hok2). rewrite Hv1 in Hw2, Hs2.
  assert (same_memory st st2) as Hm by (unfold same_memory in *; naive_solver congruence).
  assert (step_to (fun d => visible d = v \/ visible d = v1 \/ visible d = v2) (fs st) (fs st2)) as Hs2'
    by (eapply step_to_trans; [exact Hs1'|]; eapply step_to_mono; [|exact Hs2]; intros d [?|?]; auto).
  destruct Hw2 as [[-> Hv2]|[[e ->] Hv2]]; cbn beta iota in Hrun.
  2:{ injection Hrun as <- <-. split_and!; [|left; apply Hm|done|right; by eexists|intros H; by specialize (Hok2 H)].
      eapply (coherent_write st); [by right|done|done|exact Hv2]. }
  unfold mbind at 1 in Hrun. destruct (snapStatKey ok st2) as [r3 st3] eqn:E3.
  apply snapStatKey_spec in E3 as ([Hd3 Hp3] & _ & _ & key & -> & Hkey).
  cbn in Hrun. injection Hrun as <- <-. cbn. rewrite Hd3. split_and!; [|by right| |by left|done].
  - intros s k. cbn. intros [= <-] -> Hst. rewrite Hd3 in *.
    by rewrite (disk_snapshot_visible _ _ (eq_sym (visible_idem _))), Hv2, disk_snapshot_pair, Hv.
  - eapply step_to_trans; [exact Hs2'|]. exists []. unfold crash_disks. cbn. by rewrite Hd3, Hp3.
Qed.

Lemma Put_spec now artifact sig st r st' :
  PutSnapshot roots ok now artifact sig st = (r, st') -> coherent st -> before now st ->
  let v := visible (disk (fs st)) in
  let v1 := <[Named SigFile := {| ndat := Bytes sig; mtime := now |}]> v in
  let v2 := <[Named SnapshotFile := {| ndat := Bytes artifact; mtime := now |}]> v1 in
  coherent st' /\
  (snapCacheKey st' = snapCacheKey st \/ snapCacheKey st' = None \/
   snapCacheKey st' = stat_key (disk (fs st)) \/ snapCacheKey st' = stat_key (disk (fs st'))) /\
  step_to (fun d => visible d = v \/
    (visible d = v1 \/ visible d = v2) /\ exists cand, VerifyAndParse artifact sig roots = Ok cand /\
       (fine 4 st -> forall old, disk_snapshot v = Ok old -> (Serial old < Serial cand)%Z))
    (fs st) (fs st') /\
  (forall cand, r = Ok cand -> VerifyAndParse artifact sig roots = Ok cand /\ visible (disk (fs st')) = v2) /\
  (forall e, r = Err e -> (forall n, ok n = true) \/ (forall x, e <> EWriteNames x) -> visible (disk (fs st')) = v).
Proof.
  intros Hrun Hco Hbef v v1 v2. unfold PutSnapshot in Hrun. unfold mbind at 1, action_bind, lift in Hrun.
  destruct (VerifyAndParse artifact sig roots) as [cand|e] eqn:Ev; cbn [map_err] in Hrun.
  2:{ injection Hrun as <- <-. split_and!; [done|by left|apply step_to_refl|done|done]. }
  unfold mbind at 1, attempt in Hrun.
  destruct (loadSnapshotLocked roots ok st) as [r0 st0] eqn:E0. pose proof E0 as Hload.
  apply load_spec in Hload as ([Hd0 Hp0] & Hco0 & Hk0 & Hr0 & Hok0); [|done].
  assert (step_to (fun d => False) (fs st) (fs st0)) as Hs0.
  { exists []. unfold crash_disks. by rewrite Hd0, Hp0. }
  assert (before now st0) as Hbef0.
  { destruct Hbef as [Hb1 Hb2]. split; [|by rewrite Hd0].
    destruct Hk0 as [->|[->|Hk]]; [done|by intros ?????|].
    rewrite Hk. intros z1 m1 z2 m2. unfold stat_key.
    destruct (disk (fs st) !! Named SnapshotFile) as [c1|] eqn:E1; cbn; [|done].
    destruct (disk (fs st) !! Named SigFile) as [c2|] eqn:E2; cbn; [|done].
    intros [= _ <- _ <-]. split; by eapply Hb2. }
  set (keepP := fun d : ndisk => visible d = v \/
    (visible d = v1 \/ visible d = v2) /\ exists cand', Ok (E := snapshot_error) cand = Ok cand' /\
       (fine 4 st -> forall old, disk_snapshot v = Ok old -> (Serial old < Serial cand')%Z)).
  assert (step_to keepP (fs st) (fs st0)) as Hs0'
    by (eapply step_to_mono; [|exact Hs0]; done).
  destruct r0 as [cached|e0]; [destruct (Z.leb_spec (Serial cand) (Serial cached)) as [Hle|Hlt]|].
  { unfold mbind, action_bind, fail in Hrun. injection Hrun as <- <-.
    split_and!; [done|rewrite Hd0; tauto|done|done|intros; by rewrite Hd0]. }
  all: assert (fine 4 st -> forall old, disk_snapshot v = Ok old -> (Serial old < Serial cand)%Z) as Hser
    by (intros Hok old; specialize (Hok0 Hok); unfold v;
        rewrite (disk_snapshot_visible _ _ (visible_idem (disk (fs st))));
        first [by rewrite (Hr0 _ eq_refl); intros [= <-] | intros Hold; by rewrite Hold in Hok0]).
  all: unfold mbind at 1, mret, action_ret in Hrun; cbn beta iota in Hrun.
  all: change (put_writes now artifact sig cand st0 = (r, st')) in Hrun.
  all: apply put_writes_spec in Hrun as (Hco' & Hk' & Hs & Hr & Hok); [|done..].
  all: rewrite Hd0 in *; fold v v1 v2 in Hs, Hr; (split_and!; [done| | | |]).
  all: try (destruct Hk' as [Hk'|Hk']; [rewrite Hk'|]; tauto).
  all: try (eapply step_to_trans; [exact Hs0'|]; eapply step_to_mono; [|exact Hs];
    intros d [?|[?|?]]; [by left|right..]; (split; [by auto|by exists cand])).
  all: try (intros cand' ->; destruct Hr as [[[= ->] ?]|[? ?]]; done).
  all: intros e -> [H|H]; [by specialize (Hok H)|destruct Hr as [[? _]|[x [= ->]]]; [done|by destruct (H x)]].
Qed.

(** ** Observations *)
Lemma loadObserved_spec st r st' :
  loadObserved ok st = (r, st') ->
  same_disk st st' /\ same_memory st st' /\ exists l, r = Ok l /\
    ((forall n, ok n = true) ->
     l = default [] (c ← disk (fs st) !! Named ObservedFile; parse_observed c)).
Proof.
  unfold loadObserved. unfold mbind at 1, action_bind, attempt.
  destruct (on_fs (read_file ok (Named ObservedFile)) st) as [r1 st1] eqn:H1.
  apply on_fs_read' in H1 as (Hd1 & Hm1 & _ & Hr1 & Hok1).
  destruct r1 as [c|e].
  - rewrite (Hr1 c eq_refl). cbn. destruct (parse_observed c); intros [= <- <-]; eauto 10.
  - intros [= <- <-]. split_and!; [done..|]. exists []. split; [done|]. intros Hok.
    specialize (Hok1 (Hok _)). symmetry in Hok1. apply bool_decide_eq_false in Hok1.
    destruct (disk (fs st) !! Named ObservedFile); [by destruct Hok1|done].
Qed.

Lemma Record_spec name ip now st r st' :
  RecordObservation ok name ip now st = (r, st') ->
  let v := visible (disk (fs st)) in
  let written (u : ndisk) := u = v \/
    exists l, u = <[Named ObservedFile := {| ndat := ObservedJson l; mtime := now |}]> v in
  snapCache st' = snapCache st /\ snapCacheKey st' = snapCacheKey st /\
  written (visible (disk (fs st'))) /\ step_to (fun d => written (visible d)) (fs st) (fs st').
Proof.
  intros Hrun v written. unfold RecordObservation in Hrun. cbv zeta in Hrun.
  unfold mbind at 1, action_bind, run, get in Hrun.
  destruct (suppressed st (canonical name) ip now).
  { injection Hrun as <- <-. split_and!; [done..|by left|apply step_to_refl]. }
  unfold mbind at 1, set_mark in Hrun. set (st0 := {| fs := fs st; lastObs := _ |}) in Hrun.
  cbn beta iota in Hrun. unfold mbind at 1 in Hrun. destruct (loadObserved ok st0) as [r1 st1] eqn:E1.
  apply loadObserved_spec in E1 as ([Hd1 Hp1] & (Hc1 & Hk1) & l & -> & _). cbn beta iota in Hrun.
  change (disk (fs st0)) with (disk (fs st)) in Hd1. change (past (fs st0)) with (past (fs st)) in Hp1.
  apply write_spec in Hrun as ((Hc2 & Hk2) & Hw & Hs & _). rewrite Hd1 in Hw, Hs.
  split_and!; [by rewrite Hc2, Hc1|by rewrite Hk2, Hk1| |].
  - destruct Hw as [[_ Hv]|[_ Hv]]; [right; by eexists|by left].
  - eapply (step_to_trans _ _ (fs st1)); [exists []; unfold crash_disks; by rewrite Hd1, Hp1|].
    eapply step_to_mono; [|exact Hs]. intros d [Hv|Hv]; [by left|right; by eexists].
Qed.
End store.

(** ** The store over time

    A state is the store and the clock of the file system. Steps are the
    daemon's operations under any oracle, another process rewriting a file
    (which stamps a new time), and a crash or restart, which keeps one of the
    disks exposed so far and empties the memory. *)
Section machine.
Context {C : Crypto} {L : NamesLib} {J : NamesJson}.
Context (roots : list (option PublicKey)).

Definition reset (d : ndisk) : store :=
  {| fs := World d [] 0; snapCache := None; snapCacheKey := None; lastObs := ∅ |}.

Inductive nlabel :=
  | NLoad
  | NPut (artifact sig : chars)
  | NRecord (name ip : string)
  | NTamper (f : nfile) (data : ndata)
  | NCrash.

Inductive names_step : store * Z -> nlabel -> store * Z -> Prop :=
  | step_load ok st t : names_step (st, t) NLoad ((LoadSnapshot roots ok st).2, t)
  | step_put ok st t now artifact sig :
      (t < now)%Z ->
      names_step (st, t) (NPut artifact sig) ((PutSnapshot roots ok now artifact sig st).2, now)
  | step_record ok st t now name ip :
      (t < now)%Z ->
      names_step (st, t) (NRecord name ip) ((RecordObservation ok name ip now st).2, now)
  | step_tamper st t now f data :
      (t < now)%Z ->
      names_step (st, t) (NTamper f data)
        (set_fs (set_disk (<[Named f := {| ndat := data; mtime := now |}]> (disk (fs st))) (fs st)) st, now)
  | step_crash st t d : d ∈ crash_disks (fs st) -> names_step (st, t) NCrash (reset d, t).

Definition stamped (t : Z) (d : ndisk) : Prop :=
  forall f c, d !! Named f = Some c -> (mtime c <= t)%Z.

Definition names_inv (p : store * Z) : Prop :=
  coherent roots p.1 /\ key_before (p.2 + 1) (snapCacheKey p.1) /\
  Forall (stamped p.2) (crash_disks (fs p.1)).

Lemma stamped_visible t d d' : visible d = visible d' -> stamped t d -> stamped t d'.
Proof. intros E Hd f c. rewrite <-(lookup_visible_eq _ _ f E). apply Hd. Qed.
Lemma stamped_later t t' d : (t <= t')%Z -> stamped t d -> stamped t' d.
Proof. intros Ht Hd f c Hc. specialize (Hd f c Hc). lia. Qed.
Lemma stamped_write t f data v : stamped t v -> stamped t (<[Named f := {| ndat := data; mtime := t |}]> v).
Proof.
  intros Hv f' c. destruct (decide (f' = f)) as [->|]; [rewrite lookup_insert_eq|rewrite lookup_insert_ne by congruence].
  - intros [= <-]. cbn. lia.
  - apply Hv.
Qed.

Lemma inv_before p now : names_inv p -> (p.2 < now)%Z -> before now p.1.
Proof.
  intros (_ & Hk & Hd) Hn. split.
  - intros z1 m1 z2 m2 E. specialize (Hk _ _ _ _ E). lia.
  - intros f c Hc. apply Forall_cons in Hd as [Hd _]. specialize (Hd f c Hc). lia.
Qed.

Lemma crash_stamped t t' w w' P :
  (t <= t')%Z -> Forall (stamped t) (crash_disks w) -> step_to P w w' ->
  (forall d, P d -> stamped t' d) -> Forall (stamped t') (crash_disks (N := nfile) (C := ncontent) w').
Proof.
  intros Ht Hw (new & -> & Hnew) HP. apply Forall_app. split.
  - eapply Forall_impl; [exact Hnew|exact HP].
  - eapply Forall_impl; [exact Hw|]. intros d. by apply stamped_later.
Qed.

Lemma stat_key_before t d : stamped t d -> key_before (t + 1) (stat_key d).
Proof.
  intros Hd z1 m1 z2 m2. unfold stat_key.
  destruct (d !! Named SnapshotFile) as [a|] eqn:E1; cbn; [|done].
  destruct (d !! Named SigFile) as [s|] eqn:E2; cbn; [|done]. intros [= _ <- _ <-].
  pose proof (Hd _ _ E1). pose proof (Hd _ _ E2). lia.
Qed.

Lemma names_step_inv p l p' : names_inv p -> names_step p l p' -> names_inv p'.
Proof.
  intros Hinv Hstep. pose proof Hinv as (Hco & Hk & Hd). unfold names_inv.
  destruct Hstep as [ok st t|ok st t now artifact sig Hn|ok st t now name ip Hn|st t now f data Hn|st t d Hc];
    cbn [fst snd] in *.
  - destruct (LoadSnapshot roots ok st) as [r st'] eqn:E.
    apply load_spec in E as ([Hd' Hp'] & Hco' & Hk' & _); [|done]. cbn [fst snd]. split_and!; [done| |].
    + destruct Hk' as [->|[-> | ->]]; [done|by intros ?????|]. apply stat_key_before.
      by apply Forall_cons in Hd as [? _].
    + unfold crash_disks. by rewrite Hd', Hp'.
  - pose proof (inv_before _ _ Hinv Hn) as Hbef. cbn in Hbef.
    destruct (PutSnapshot roots ok now artifact sig st) as [r st'] eqn:E.
    apply Put_spec in E as (Hco' & Hk' & Hs & _); [|done..]. cbn [fst snd].
    apply Forall_cons in Hd as Hd'. destruct Hd' as [Hd' _].
    assert (stamped now (visible (disk (fs st)))) as Hv
      by (eapply stamped_visible; [symmetry; apply visible_idem|]; eapply stamped_later; [|exact Hd']; lia).
    assert (Forall (stamped now) (crash_disks (fs st'))) as Hall.
    { eapply crash_stamped; [|exact Hd|exact Hs|]; [lia|]. intros d Hcase.
      apply (stamped_visible _ (visible d)); [apply visible_idem|].
      destruct Hcase as [->|[[-> | ->] _]]; auto using stamped_write. }
    split_and!; [done| |done]. apply Forall_cons in Hall as [Hlast _].
    assert (key_before (now + 1) (snapCacheKey st)) as Hold
      by (intros z1 m1 z2 m2 Ek; specialize (Hk _ _ _ _ Ek); lia).
    destruct Hk' as [->|[->|[-> | ->]]]; [done|by intros ?????| |by apply stat_key_before].
    apply stat_key_before. eapply stamped_later; [|exact Hd']. lia.
  - destruct (RecordObservation ok name ip now st) as [r st'] eqn:E. cbn [fst snd].
    apply Record_spec in E as (Hc' & Hk' & Hv & Hs).
    assert (Forall (stamped now) (crash_disks (fs st'))) as Hall.
    { apply Forall_cons in Hd as Hd'. destruct Hd' as [Hd' _].
      eapply crash_stamped; [|exact Hd|exact Hs|]; [lia|]. intros d Hcase.
      apply (stamped_visible _ (visible d)); [apply visible_idem|].
      assert (stamped now (visible (disk (fs st)))) as Hv'
        by (eapply stamped_visible; [symmetry; apply visible_idem|]; eapply stamped_later; [|exact Hd']; lia).
      destruct Hcase as [->|[l ->]]; auto using stamped_write. }
    split_and!; [|intros z1 m1 z2 m2; rewrite Hk'; intros Ek; specialize (Hk _ _ _ _ Ek); lia|done].
    destruct Hv as [Hv|[l Hv]]; [by eapply (coherent_same roots st)|].
    by eapply (coherent_other roots st); [..|exact Hv|].
  - pose proof (inv_before _ _ Hinv Hn) as Hbef. cbn in Hbef.
    apply Forall_cons in Hd as Hd'. destruct Hd' as [Hd' _]. split_and!; cbn.
    + destruct (decide (f = SnapshotFile \/ f = SigFile)) as [Hf|Hf].
      * eapply (coherent_write roots st _ now data f); [done|done|done|]. cbn. apply visible_insert.
      * eapply (coherent_other roots st _ f); [naive_solver..|done| |done]. cbn. apply visible_insert.
    + intros z1 m1 z2 m2 Ek. specialize (Hk _ _ _ _ Ek). lia.
    + constructor; [apply stamped_write; eapply stamped_later; [|exact Hd']; lia|].
      eapply Forall_impl; [exact Hd|]. intros d. apply stamped_later. lia.
  - split_and!; cbn; [by intros s k|by intros ?????|].
    rewrite Forall_forall in Hd. apply Forall_singleton. by apply Hd.
Qed.
End machine.

(** ** The observed tier after an observation *)
Section observed.
Context {C : Crypto} {L : NamesLib} {J : NamesJson}.

#[export] Instance newest_first_total : Total newest_first.
Proof. intros a b. unfold newest_first. lia. Qed.
#[export] Instance newest_first_trans : Transitive newest_first.
Proof. intros a b c. unfold newest_first. lia. Qed.

Lemma elem_of_upsert records want ip now o :
  o ∈ upsert records want ip now ->
  o = {| OName := want; OIP := ip; ObservedAt := unix now |} \/
  (o ∈ records /\ to_lower (OName o) <> want /\ stale now o = false).
Proof.
  unfold upsert. intros Ho%elem_of_take. destruct Ho as (i & Ho & _).
  apply list_elem_of_lookup_2 in Ho. rewrite merge_sort_Permutation in Ho.
  apply elem_of_app in Ho as [Ho|Ho]; [right|left; by apply list_elem_of_singleton in Ho].
  apply list_elem_of_filter in Ho. tauto.
Qed.

(** When the clock is ahead of every other record, the new one is first. *)
Lemma upsert_head records want ip now :
  Forall (fun o => to_lower (OName o) <> want -> (ObservedAt o < unix now)%Z) records ->
  exists l, upsert records want ip now = {| OName := want; OIP := ip; ObservedAt := unix now |} :: l.
Proof.
  intros Hr. unfold upsert. set (new := {| OName := want; OIP := ip; ObservedAt := unix now |}).
  set (kept := filter _ records).
  assert (Forall (fun o => (ObservedAt o < unix now)%Z) kept) as Hk.
  { apply Forall_forall. intros o [[Hw _] Ho]%list_elem_of_filter. rewrite Forall_forall in Hr. auto. }
  pose proof (merge_sort_Permutation newest_first (kept ++ [new])) as Hp.
  pose proof (StronglySorted_merge_sort newest_first (kept ++ [new])) as Hs.
  assert (new ∈ merge_sort newest_first (kept ++ [new])) as Hin by (rewrite Hp; set_solver).
  destruct (merge_sort newest_first (kept ++ [new])) as [|o l]; [by apply elem_of_nil in Hin|].
  exists (take 511 l). change ObservedMax with (S 511). cbn [take]. f_equal.
  assert (o ∈ kept ++ [new]) as Ho by (rewrite <-Hp; apply list_elem_of_here).
  apply elem_of_app in Ho as [Ho|Ho]; [|by apply list_elem_of_singleton in Ho].
  exfalso. rewrite Forall_forall in Hk. specialize (Hk o Ho).
  apply elem_of_cons in Hin as [<-|Hin]; [cbn in Hk; lia|].
  apply StronglySorted_inv in Hs as [_ Hs]. rewrite Forall_forall in Hs.
  specialize (Hs new Hin). unfold newest_first, new in Hs. cbn in Hs. lia.
Qed.

Lemma unix_not_stale name ip now :
  (0 <= now <= int64_max)%Z -> stale now {| OName := name; OIP := ip; ObservedAt := unix now |} = false.
Proof.
  intros Hn. unfold stale, unix. cbn [ObservedAt]. apply Z.leb_gt.
  pose proof (Z.div_mod now second ltac:(done)). pose proof (Z.mod_pos_bound now second ltac:(done)).
  assert (0 <= now / second <= int64_max - unixToInternal)%Z as Hu.
  { split; [apply Z.div_pos; unfold second; lia|].
    apply Z.div_le_upper_bound; unfold second, int64_max, unixToInternal in *; lia. }
  rewrite time_unix_small by done. unfold time_sub. rewrite sat64_small.
  - unfold ObservedTTL, second in *. lia.
  - unfold int64_min, int64_max, second in *. lia.
Qed.

Definition observed_on (d : ndisk) : list ObservedRecord :=
  default [] (c ← d !! Named ObservedFile; parse_observed c).

(** Recording a live answer, when no call fails and the write is not
    suppressed: the observed tier then holds at most 512 records, none stale,
    only the new one under its name, all others taken from before; and unless
    the clock ran backwards, looking the name up (any case, trailing dot or
    not) gives the address just learned. *)
Theorem Record_then_Lookup (ok : nat -> bool) (name ip : string) (now : Z) (st st' : store)
    (r : result store_error unit) :
  (forall n, ok n = true) -> (0 <= now <= int64_max)%Z ->
  suppressed st (canonical name) ip now = false ->
  RecordObservation ok name ip now st = (r, st') ->
  r = Ok tt /\
  length (observed_on (disk (fs st'))) <= 512 /\
  (forall o, o ∈ observed_on (disk (fs st')) ->
     o = {| OName := canonical name; OIP := ip; ObservedAt := unix now |} \/
     o ∈ observed_on (disk (fs st)) /\ to_lower (OName o) <> canonical name /\ stale now o = false) /\
  (Forall (fun o => to_lower (OName o) <> canonical name -> (ObservedAt o < unix now)%Z)
     (observed_on (disk (fs st))) ->
   forall name', canonical name' = canonical name -> to_lower (canonical name) = canonical name ->
   (LookupObserved ok name' now st').1 =
     Ok (Some {| OName := canonical name; OIP := ip; ObservedAt := unix now |})).
Proof.
  intros Hok Hnow Hsup Hrun. unfold RecordObservation in Hrun. cbv zeta in Hrun.
  unfold mbind at 1, action_bind, run, get in Hrun. rewrite Hsup in Hrun.
  unfold mbind at 1, set_mark in Hrun. set (st0 := {| fs := fs st; lastObs := _ |}) in Hrun.
  cbn beta iota in Hrun. unfold mbind at 1 in Hrun. destruct (loadObserved ok st0) as [r1 st1] eqn:E1.
  apply loadObserved_spec in E1 as ([Hd1 _] & _ & l & -> & Hl). cbn beta iota in Hrun.
  specialize (Hl Hok). change (disk (fs st0)) with (disk (fs st)) in Hl, Hd1.
  fold (observed_on (disk (fs st))) in Hl. subst l.
  apply write_spec in Hrun as (_ & Hw & _ & Hr). specialize (Hr Hok). subst r.
  destruct Hw as [[_ Hv]|[[e He] _]]; [|done]. rewrite Hd1 in Hv.
  assert (observed_on (disk (fs st')) = upsert (observed_on (disk (fs st))) (canonical name) ip now) as Hobs.
  { unfold observed_on at 1.
    by rewrite (lookup_visible_insert _ _ _ _ _ Hv), bool_decide_eq_true_2 by done. }
  rewrite Hobs. split_and!; [done| |apply elem_of_upsert|].
  - unfold upsert. apply length_take_le.
  - intros Hold name' Hname' Hlow. unfold LookupObserved. unfold mbind, action_bind.
    destruct (loadObserved ok st') as [r2 st2] eqn:E2.
    apply loadObserved_spec in E2 as (_ & _ & l & -> & Hl). specialize (Hl Hok).
    fold (observed_on (disk (fs st'))) in Hl. rewrite Hobs in Hl. subst l.
    unfold mret, action_ret. cbn beta iota. cbn [fst].
    destruct (upsert_head (observed_on (disk (fs st))) (canonical name) ip now Hold) as [l ->].
    unfold lookup_records. cbn [find_first]. rewrite unix_not_stale by done.
    rewrite Hname'. cbn [OName]. by rewrite bool_decide_eq_true_2.
Qed.
End observed.

(** ** Files anyone may rewrite at any time *)
Section meddled.
Context {C : Crypto} {L : NamesLib} {J : NamesJson}.
Context (roots : list (option PublicKey)).

(** Some bytes that a root signed parse to the snapshot. *)
Definition vouched (s : Snapshot) : Prop :=
  exists artifact sig, root_signed roots artifact sig /\ json_snapshot artifact = Some s.
Definition cache_vouched (st : store) : Prop := forall s, snapCache st = Some s -> vouched s.

(** The operations under any failures and with anything done to the files before
    each of their calls; between them any disk at all, with any times on its
    files; a restart empties the memory. *)
Inductive any_step : store -> unit -> store -> Prop :=
  | any_load O ok st : any_step st tt (LoadSnapshot (O := O) roots ok st).2
  | any_put O ok now artifact sig st : any_step st tt (PutSnapshot (O := O) roots ok now artifact sig st).2
  | any_record O ok name ip now st : any_step st tt (RecordObservation (O := O) ok name ip now st).2
  | any_files st d : any_step st tt (set_fs (set_disk d (fs st)) st)
  | any_restart st d : any_step st tt (reset d).
Definition fresh (st : store) : Prop := exists d, st = reset d.

Lemma vouched_parse artifact sig s : VerifyAndParse artifact sig roots = Ok s -> vouched s.
Proof. intros (H1 & H2 & _)%VerifyAndParse_Ok. by exists artifact, sig. Qed.

(** An action that leaves a vouched snapshot in the cache and gives [P]. *)
Definition vouches {E A} (P : A -> Prop) (m : action store E A) : Prop := forall st,
  cache_vouched st -> cache_vouched (m st).2 /\ forall a, (m st).1 = Ok a -> P a.

Lemma vouches_bind {E A B} (P : A -> Prop) (Q : B -> Prop) m (k : A -> action store E B) :
  vouches P m -> (forall a, P a -> vouches Q (k a)) -> vouches Q (m ≫= k).
Proof.
  intros Hm Hk st Hst. unfold mbind, action_bind. destruct (Hm st Hst) as [H1 H2]. destruct (m st) as [[a|e] st1]; cbn in *; [|done].
  by apply Hk; [apply H2|].
Qed.
Lemma vouches_attempt {E F A} (P : A -> Prop) (m : action store E A) :
  vouches P m -> vouches (fun r => forall a, r = Ok a -> P a) (attempt (F := F) m).
Proof.
  intros Hm st Hst. unfold attempt. destruct (Hm st Hst) as [H1 H2]. destruct (m st) as [r st1]; cbn in *.
  split; [done|]. by intros ? [= <-].
Qed.
Lemma vouches_ret {E A} (P : A -> Prop) a : P a -> vouches (E := E) P (mret a).
Proof. intros Ha st Hst. cbn. split; [done|]. by intros ? [= <-]. Qed.
Lemma vouches_fail {E A} (P : A -> Prop) e : vouches (E := E) P (fail e).
Proof. by intros st Hst. Qed.
Lemma vouches_on_fs {O : Others} {E A} (m : action nworld E A) : vouches (fun _ => True) (on_fs m).
Proof. intros st Hst. unfold on_fs. by destruct (m (meddle (fs st))). Qed.
Lemma vouches_lift {E A} (r : result E A) : vouches (fun a => r = Ok a) (lift r).
Proof. intros st Hst. by destruct r. Qed.
Lemma vouches_get {E} : vouches (E := E) cache_vouched (run get).
Proof. intros st Hst. split; [done|]. by intros ? [= <-]. Qed.
Lemma vouches_set_cache o k : (forall s, o = Some s -> vouched s) -> vouches (fun _ => True) (set_cache o k).
Proof. by intros Ho st Hst. Qed.
Lemma vouches_set_mark name m : vouches (fun _ => True) (set_mark name m).
Proof. by intros st Hst. Qed.

Section call.
Context {O : Others} (ok : nat -> bool).

Lemma vouches_statkey : vouches (fun _ => True) (snapStatKey ok).
Proof.
  unfold snapStatKey. eapply vouches_bind; [apply vouches_attempt, vouches_on_fs|]. intros [a|e] _; [|by apply vouches_ret].
  eapply vouches_bind; [apply vouches_attempt, vouches_on_fs|]. intros [c|e] _; by apply vouches_ret.
Qed.
Lemma vouches_write now f data : vouches (fun _ => True) (writeAtomic ok now f data).
Proof. apply vouches_on_fs. Qed.

Lemma vouches_load : vouches vouched (LoadSnapshot roots ok).
Proof.
  unfold LoadSnapshot, loadSnapshotLocked. eapply vouches_bind; [apply vouches_statkey|]. intros key _.
  eapply vouches_bind; [apply vouches_get|]. intros st Hst. destruct (cache_hit st key) as [s|] eqn:Eh.
  - apply vouches_ret, Hst. by apply cache_hit_Some in Eh as [? _].
  - eapply vouches_bind; [apply vouches_on_fs|]. intros a _. eapply vouches_bind; [apply vouches_on_fs|]. intros c _.
    destruct (VerifyAndParse _ _ _) as [s|e] eqn:Ev.
    + apply vouched_parse in Ev. eapply vouches_bind; [apply vouches_set_cache; by intros ? [= <-]|]. intros _ _. by apply vouches_ret.
    + eapply vouches_bind; [by apply vouches_set_cache|]. intros _ _. apply vouches_fail.
Qed.

Lemma vouches_put now artifact sig : vouches vouched (PutSnapshot roots ok now artifact sig).
Proof.
  unfold PutSnapshot. eapply vouches_bind; [apply vouches_lift|]. cbv beta. intros cand Hc. apply map_err_Ok, vouched_parse in Hc.
  eapply vouches_bind; [apply vouches_attempt, vouches_load|]. cbv beta. intros r _.
  eapply vouches_bind with (P := fun _ => True); [destruct r; [destruct (_ <=? _)%Z; [apply vouches_fail|]|]; by apply vouches_ret|]. intros _ _.
  eapply vouches_bind; [apply vouches_write|]. intros _ _. eapply vouches_bind; [apply vouches_write|]. intros _ _.
  eapply vouches_bind; [apply vouches_statkey|]. intros key _.
  eapply vouches_bind; [apply vouches_set_cache; by intros ? [= <-]|]. intros _ _. by apply vouches_ret.
Qed.

Lemma vouches_record name ip now : vouches (fun _ => True) (RecordObservation ok name ip now).
Proof.
  unfold RecordObservation. cbv zeta. eapply vouches_bind; [apply vouches_get|]. intros st _. destruct (suppressed _ _ _ _); [by apply vouches_ret|].
  eapply vouches_bind; [apply vouches_set_mark|]. intros _ _. eapply vouches_bind with (P := fun _ => True); [|intros l _; apply vouches_write].
  unfold loadObserved. eapply vouches_bind; [apply vouches_attempt, vouches_on_fs|]. intros r _.
  destruct r as [c|]; [destruct (parse_observed c)|]; by apply vouches_ret.
Qed.
End call.

Lemma any_step_vouched st l st' : cache_vouched st -> any_step st l st' -> cache_vouched st'.
Proof.
  intros Hst Hs. revert Hst. destruct Hs as [O ok st|O ok now artifact sig st|O ok name ip now st|st d|st d]; intros Hst; [exact (proj1 (vouches_load ok _ Hst))|exact (proj1 (vouches_put ok _ _ _ _ Hst))|exact (proj1 (vouches_record ok _ _ _ _ Hst))|done|done].
Qed.
Lemma any_reachable st : reachable any_step fresh st -> cache_vouched st.
Proof. apply reachable_invariant; [by intros ? [d ->]|]. intros s l s'. apply any_step_vouched. Qed.
End meddled.

(** ** What the store promises *)
Section spec.
Context {C : Crypto} {L : NamesLib} {J : NamesJson}.
Context (roots : list (option PublicKey)).
(** A store just opened over the files of [d]. *)
Definition opened (p : store * Z) : Prop := exists d t, p = (reset d, t) /\ stamped t d.

Lemma opened_inv p : reachable (names_step roots) opened p -> names_inv roots p.
Proof.
  apply reachable_invariant; [|by apply names_step_inv].
  intros p' (d & t' & -> & Hd). split_and!; cbn; [by intros ??|by intros ?????|by apply Forall_singleton].
Qed.

(** C18: Every snapshot served was signed by a trust root. Whatever the other
    processes do to the files, at any time, between the operations and before any
    file call inside one, with any sizes and times, under any failures and
    restarts: what [LoadSnapshot] returns parses from bytes that a trust root
    signed. And it is fresh as far as the stat identity can tell: if the others
    write only between the operations, and each write of a file gets a later time
    than every write before it, then what [LoadSnapshot] returns is what the
    current files hold, the artifact as it is on disk now under the signature as
    it is on disk now. *)
Theorem LoadSnapshot_authentic (ok : nat -> bool) (st : store) (s : Snapshot) :
  (forall O : Others, reachable (any_step roots) fresh st -> (LoadSnapshot (O := O) roots ok st).1 = Ok s ->
     vouched roots s) /\
  (forall t, reachable (names_step roots) opened (st, t) -> (LoadSnapshot roots ok st).1 = Ok s ->
     exists a c, disk (fs st) !! Named SnapshotFile = Some a /\ disk (fs st) !! Named SigFile = Some c /\
       root_signed roots (bytes_of_content a) (bytes_of_content c) /\
       json_snapshot (bytes_of_content a) = Some s).
Proof.
  split.
  - intros O Hr%any_reachable Hl. by apply (vouches_load roots ok st Hr).
  - intros t (Hco & _ & _)%opened_inv Hl. unfold LoadSnapshot in Hl. destruct (loadSnapshotLocked roots ok st) as [r st'] eqn:E.
    apply load_spec in E as (_ & _ & _ & Hs & _); [|done]. cbn in Hl. subst r.
    specialize (Hs s eq_refl). unfold disk_snapshot in Hs.
    destruct (disk (fs st) !! Named SnapshotFile) as [a|]; cbn in Hs; [|done].
    destruct (disk (fs st) !! Named SigFile) as [c|]; cbn in Hs; [|done].
    apply map_err_Ok, VerifyAndParse_Ok in Hs as (H1 & H2 & _). by exists a, c.
Qed.

(** C19: The replay bound, failing writes and crashes included. Take any state the
    store reaches while the others write only between its operations and each
    write of a file gets a later time than every write before it. If the four file
    calls by which [PutSnapshot] reads the current snapshot work, then no disk
    it goes through and none it leaves replaces a readable snapshot by one whose
    serial is not higher, whichever of its later calls fail: a torn write leaves
    the old snapshot or none. When it returns a snapshot, that is what the disk
    then holds, and it verified; when it refuses the candidate, or no call fails
    and it returns an error, the files are as they were. *)
Theorem PutSnapshot_monotone (ok : nat -> bool) (t now : Z) (artifact sig : chars) (st st' : store)
    (r : result store_error Snapshot) :
  reachable (names_step roots) opened (st, t) -> (t < now)%Z ->
  PutSnapshot roots ok now artifact sig st = (r, st') ->
  (fine ok 4 st -> forall d old s, d ∈ crash_disks (fs st') -> d ∉ crash_disks (fs st) ->
     disk_snapshot roots (disk (fs st)) = Ok old -> disk_snapshot roots d = Ok s ->
     s = old \/ (Serial old < Serial s)%Z) /\
  (match r with
   | Ok s => VerifyAndParse artifact sig roots = Ok s /\ disk_snapshot roots (disk (fs st')) = Ok s
   | Err e => (forall n, ok n = true) \/ (forall x, e <> EWriteNames x) -> visible (disk (fs st')) = visible (disk (fs st))
   end).
Proof.
  intros Hreach%opened_inv Hn Hrun. pose proof (inv_before _ _ _ Hreach Hn) as Hbef. destruct Hreach as (Hco & _ & _).
  apply Put_spec in Hrun as (_ & _ & Hs & Hr & Hf); [|done..]. split.
  - intros Hfine d old s Hd Hnd Hold Hsnap.
    destruct (step_to_crash _ _ _ _ Hs Hd) as [?|[Hv|[Hv (cand & Hc & Hser)]]]; [done|left|].
    + rewrite <-(disk_snapshot_visible roots (disk (fs st)) d) in Hsnap by done. congruence.
    + rewrite (disk_snapshot_visible roots _ _ (eq_sym (visible_idem d))) in Hsnap.
      rewrite (disk_snapshot_visible roots _ _ (eq_sym (visible_idem (disk (fs st))))) in Hold.
      destruct Hv as [Hv|Hv]; rewrite Hv in Hsnap.
      * left. by eapply disk_snapshot_torn.
      * right. rewrite disk_snapshot_pair, Hc in Hsnap. injection Hsnap as <-. by apply Hser.
  - destruct r as [s|e]; [|by apply Hf]. destruct (Hr s eq_refl) as [Hc Hv]. split; [done|].
    by rewrite (disk_snapshot_visible roots _ _ (eq_sym (visible_idem (disk (fs st'))))), Hv, disk_snapshot_pair, Hc.
Qed.
End spec.
(** ** Concrete runs *)
Module ToyNamesStore.
#[export] Existing Instance Toy.crypto.
#[export] Existing Instance ToyNames.lib.
#[export] Instance json : NamesJson := {| raw_observed _ := None |}.
Definition roots : list (option PublicKey) := [Some ("ca" : @PublicKey Toy.crypto)].
Definition fine : nat -> bool := fun _ => true.
Definition st0 : store := reset ∅.
Definition st1 : store := (PutSnapshot roots fine 5 (s2l "abc") (s2l "ca") st0).2.
Definition st2 : store := (PutSnapshot roots fine 6 (s2l "abcd") (s2l "ca") st1).2.
Definition st3 : store := (RecordObservation fine "Peer." "10.0.0.7" (90 * second) st2).2.
End ToyNamesStore.
Import ToyNamesStore.

Lemma st0_opened : opened (st0, 0%Z).
Proof. exists ∅, 0%Z. split; [reflexivity|]. intros f c Hc. by rewrite lookup_empty in Hc. Qed.
Lemma st1_reached : reachable (names_step roots) opened (st1, 5%Z).
Proof.
  apply (reach_step _ _ (st0, 0%Z) (NPut (s2l "abc") (s2l "ca"))); [apply reach_init, st0_opened|].
  apply (step_put roots fine st0 0 5). lia.
Qed.

Lemma Record_then_Lookup_witness :
  (LookupObserved fine "PEER" (90 * second) st3).1 =
    Ok (Some {| OName := "peer"; OIP := "10.0.0.7"; ObservedAt := 90 |}).
Proof.
  refine (proj2 (proj2 (proj2 (Record_then_Lookup fine "Peer." "10.0.0.7" (90 * second) st2 st3 (Ok tt) _ _ _ _)))
    _ "PEER" _ _).
  - done.
  - unfold int64_max, second. lia.
  - by vm_compute.
  - assert ((RecordObservation fine "Peer." "10.0.0.7" (90 * second) st2).1 = Ok tt) as E by (by vm_compute).
    rewrite (surjective_pairing (RecordObservation _ _ _ _ _)), E. reflexivity.
  - assert (observed_on (disk (fs st2)) = []) as -> by (by vm_compute). constructor.
  - by vm_compute.
  - by vm_compute.
Defined.

Lemma LoadSnapshot_authentic_witness :
  vouched roots (ToyNames.snap_of "abc") /\
  exists a, disk (fs st1) !! Named SnapshotFile = Some a /\
    json_snapshot (bytes_of_content a) = Some (ToyNames.snap_of "abc").
Proof.
  destruct (LoadSnapshot_authentic roots fine st1 (ToyNames.snap_of "abc")) as [Hv Hd]. split.
  - apply (Hv no_others); [|by vm_compute].
    apply (reach_step _ _ st0 tt); [apply reach_init; by exists ∅|]. apply any_put.
  - destruct (Hd 5%Z st1_reached) as (a & c & Ha & _ & _ & Hj); [by vm_compute|]. by exists a.
Defined.

Lemma PutSnapshot_monotone_witness : disk_snapshot roots (disk (fs st2)) = Ok (ToyNames.snap_of "abcd").
Proof.
  assert ((PutSnapshot roots fine 6 (s2l "abcd") (s2l "ca") st1).1 = Ok (ToyNames.snap_of "abcd")) as E
    by (by vm_compute).
  refine (proj2 (proj2 (PutSnapshot_monotone roots fine 5 6 (s2l "abcd") (s2l "ca") st1 st2 (Ok (ToyNames.snap_of "abcd")) st1_reached _ _))).
  - lia.
  - rewrite (surjective_pairing (PutSnapshot _ _ _ _ _ _)), E. reflexivity.
Defined.

(** What the stat identity cannot tell. A rewrite that keeps the size and the
    time of the file: the store goes on serving what no file holds. *)
Definition rewritten : store :=
  set_fs (set_disk (<[Named SnapshotFile := {| ndat := Bytes (s2l "abd"); mtime := 5 |}]> (disk (fs st1))) (fs st1)) st1.
Lemma stale_after_same_identity :
  (LoadSnapshot roots fine rewritten).1 = Ok (ToyNames.snap_of "abc") /\
  disk_snapshot roots (disk (fs rewritten)) <> Ok (ToyNames.snap_of "abc").
Proof. split; [by vm_compute|]. vm_compute. discriminate. Qed.

(** A rewrite between the last write of [PutSnapshot] and its stat of the pair:
    the identity of the other's file is taken for the candidate's. *)
Definition at_the_stat : Others := fun n d =>
  if n =? ticks (fs st2) - 2
  then Some (<[Named SnapshotFile := {| ndat := Bytes (s2l "zz"); mtime := 9 |}]> d) else None.
Definition raced : store := (PutSnapshot (O := at_the_stat) roots fine 6 (s2l "abcd") (s2l "ca") st1).2.
Lemma stale_after_raced_put :
  (LoadSnapshot roots fine raced).1 = Ok (ToyNames.snap_of "abcd") /\
  disk_snapshot roots (disk (fs raced)) <> Ok (ToyNames.snap_of "abcd").
Proof. split; [by vm_compute|]. vm_compute. discriminate. Qed.
