(* ===== verification/Claims.v ===== *)
(** Self-claims of peers: internal/names/claims.go.

    A claim envelope is checked offline against the cached snapshot: the leaf
    certificate, its signature on the artifact, its identity and the
    snapshot's binding of the name. X.509 and JSON are the class [ClaimsLib];
    the certificate's fields that the source reads are the record [Leaf]. *)
From stdpp Require Import base tactics list gmap strings.
From Stdlib Require Import ZArith Ascii Lia.
From S2P Require Import Prelude GoStr Fs Bundle Names NamesStore.
Local Open Scope list_scope.

Definition ClaimFormat : string := "goat-name-claim-v1".

Record ClaimArtifact := {
  CFormat : string;
  CName : string;
  CIP : string;
  CAnchor : string;
  CIssuedAtUnix : Z;
  CTTLSeconds : Z }.

Record ClaimEnvelope := { ArtifactB64 : string; SigB64 : string; LeafPEM : string }.

(** The fields of an x509.Certificate that the checks read. *)
Record Leaf {C : Crypto} := {
  RawTBSCertificate : chars;
  LeafSignature : chars;
  LeafNotBefore : Z;
  LeafNotAfter : Z;
  LeafKey : any_key;
  CommonName : string;
  URIs : list string }.

Class ClaimsLib {C : Crypto} := {
  pem_first : string -> option pem_block;
  parse_leaf : chars -> option Leaf;
  json_claim : chars -> option ClaimArtifact;
  json_envelopes : chars -> option (list ClaimEnvelope) }.

(** [^[0-9a-f]{32}$]. *)
Definition hex_lower (c : ascii) : bool :=
  is_digit c || ((97 <=? code c)%N && (code c <=? 102)%N).
Definition anchorShaped (s : string) : bool :=
  (length (s2l s) =? 32) && forallb hex_lower (s2l s).

(** [s[strings.Index(s, key)+len(key):]], when [key] occurs. *)
Fixpoint after_first (key l : chars) : option chars :=
  match strip_prefix key l with
  | Some r => Some r
  | None => match l with [] => None | _ :: l' => after_first key l' end
  end.

(** The loops of [leafIdentity] over the URIs and the two keys: the first
    value that is not empty. *)
Definition uri_value (s key : string) : option string :=
  match after_first (s2l key) (s2l s) with
  | Some (c :: v) => Some (l2s (c :: v))
  | _ => None
  end.

Fixpoint first_value (l : list (string * string)) : string :=
  match l with
  | [] => ""
  | (s, key) :: l' => match uri_value s key with Some v => v | None => first_value l' end
  end.

Definition leafIdentity {C : Crypto} (leaf : Leaf) : string :=
  if anchorShaped (CommonName leaf) then CommonName leaf
  else first_value (URIs leaf ≫= (fun uri => [(uri, "org="); (uri, "vendor=")])).

Inductive claim_error :=
  | ECNoRoots
  | ELeafPEM
  | ELeafX509
  | ELeafUnrooted
  | ELeafWindow
  | EArtifactBase64
  | EClaimSigBase64
  | ELeafKey
  | EClaimSig
  | EClaimMalformed
  | EClaimFormat
  | ENoIdentity
  | EIdentityMismatch
  | ENoBinding
  | ECrossClaim
  | EClaimExpired
  | EClaimIP.

Section claims.
Context {C : Crypto} {L : NamesLib} {CL : ClaimsLib}.

Record ValidClaim := { VName : string; VIP : addr; VAge : Z }.

Definition guard_err {E} (b : bool) (e : E) : result E unit := if b then Ok tt else Err e.

Definition find_binding (snap : Snapshot) (wanted : string) : option PeerBinding :=
  find_first (fun b => bool_decide (to_lower (BName b) = wanted)) (PeerBindings snap).

Definition VerifyClaim (env : ClaimEnvelope) (snap : Snapshot) (roots : list (option PublicKey)) (now : Z)
    : result claim_error ValidClaim :=
  _ ← guard_err (negb (length roots =? 0)) ECNoRoots;
  block ← of_option ELeafPEM (pem_first (LeafPEM env));
  _ ← guard_err (bool_decide (BlockType block = "CERTIFICATE")) ELeafPEM;
  leaf ← of_option ELeafX509 (parse_leaf (BlockBytes block));
  _ ← guard_err (any_root roots (sha256 (RawTBSCertificate leaf)) (LeafSignature leaf)) ELeafUnrooted;
  _ ← guard_err (negb ((now <? LeafNotBefore leaf)%Z || (LeafNotAfter leaf <? now)%Z)) ELeafWindow;
  artifact ← of_option EArtifactBase64 (base64_decode (trim_space (ArtifactB64 env)));
  sig ← of_option EClaimSigBase64 (base64_decode (trim_space (SigB64 env)));
  leafKey ← match LeafKey leaf with EcdsaKey k => Ok k | OtherKey _ => Err ELeafKey end;
  _ ← guard_err (VerifyASN1 leafKey (sha256 artifact) sig) EClaimSig;
  claim ← of_option EClaimMalformed (json_claim artifact);
  _ ← guard_err (bool_decide (CFormat claim = ClaimFormat)) EClaimFormat;
  let leafID := leafIdentity leaf in
  _ ← guard_err (negb (bool_decide (leafID = ""))) ENoIdentity;
  _ ← guard_err (bool_decide (leafID = CAnchor claim)) EIdentityMismatch;
  let wanted := canonical (CName claim) in
  bound ← of_option ENoBinding (find_binding snap wanted);
  _ ← guard_err (bool_decide (BAnchor bound = CAnchor claim)) ECrossClaim;
  let age := time_sub now (time_unix (CIssuedAtUnix claim)) in
  _ ← guard_err (negb ((CIssuedAtUnix claim <=? 0)%Z || (seconds (CTTLSeconds claim) <=? age)%Z)) EClaimExpired;
  ip ← of_option EClaimIP (ParseAddr (CIP claim));
  Ok {| VName := wanted; VIP := ip; VAge := Z.max 0 age |}.

(** ** The claims file *)
Context (roots : list (option PublicKey)) (ok : nat -> bool).

Definition read_envelopes : action store store_error (option (list ClaimEnvelope)) :=
  r ← attempt (on_fs (read_file ok (Named ClaimsFile)));
  match r with
  | Err _ => mret None
  | Ok c => mret (match ndat c with Bytes b => json_envelopes b | ObservedJson _ => None end)
  end.

(** The loop of [LookupClaim]: the valid claim of least age, the first on ties. *)
Fixpoint best_claim (envs : list ClaimEnvelope) (snap : Snapshot) (wanted : string) (now : Z)
    (best : option ValidClaim) : option ValidClaim :=
  match envs with
  | [] => best
  | env :: envs' =>
    let best' :=
      match VerifyClaim env snap roots now with
      | Err _ => best
      | Ok vc =>
        if negb (bool_decide (VName vc = wanted)) then best
        else match best with
             | None => Some vc
             | Some b => if (VAge vc <? VAge b)%Z then Some vc else best
             end
      end in
    best_claim envs' snap wanted now best'
  end.

Definition LookupClaim (name : string) (snap : Snapshot) (now : Z) : action store store_error (option ValidClaim) :=
  envs ← read_envelopes;
  match envs with
  | None => mret None
  | Some envs => mret (best_claim envs snap (canonical name) now None)
  end.

Definition PutClaims (now : Z) (body : chars) : action store store_error unit :=
  match json_envelopes body with
  | None => fail EClaimsMalformed
  | Some _ => writeAtomic ok now ClaimsFile (Bytes body)
  end.

Definition ClaimCount : action store store_error nat :=
  envs ← read_envelopes;
  mret (match envs with None => 0 | Some l => length l end).

(** ** Lemmas *)
Lemma guard_err_Ok {E} b (e : E) u : guard_err b e = Ok u <-> b = true.
Proof. unfold guard_err. destruct b, u; naive_solver. Qed.

Lemma of_option_Ok {E A} (e : E) (o : option A) a : of_option e o = Ok a <-> o = Some a.
Proof. destruct o; cbn; naive_solver. Qed.

Lemma find_binding_Some snap wanted b :
  find_binding snap wanted = Some b -> b ∈ PeerBindings snap /\ to_lower (BName b) = wanted.
Proof. intros [Hb Hn]%find_first_elem. by apply bool_decide_eq_true in Hn. Qed.

(** [vc] is backed by [env]: the whole chain of trust. *)
Definition backed (env : ClaimEnvelope) (snap : Snapshot) (now : Z) (vc : ValidClaim) : Prop :=
  exists block leaf k artifact sig claim b,
    pem_first (LeafPEM env) = Some block /\ parse_leaf (BlockBytes block) = Some leaf /\
    (exists root, Some root ∈ roots /\
       VerifyASN1 root (sha256 (RawTBSCertificate leaf)) (LeafSignature leaf) = true) /\
    (LeafNotBefore leaf <= now <= LeafNotAfter leaf)%Z /\
    base64_decode (trim_space (ArtifactB64 env)) = Some artifact /\
    base64_decode (trim_space (SigB64 env)) = Some sig /\
    LeafKey leaf = EcdsaKey k /\ VerifyASN1 k (sha256 artifact) sig = true /\
    json_claim artifact = Some claim /\
    b ∈ PeerBindings snap /\ to_lower (BName b) = VName vc /\ VName vc = canonical (CName claim) /\
    BAnchor b = leafIdentity leaf /\ leafIdentity leaf <> "" /\ CAnchor claim = leafIdentity leaf /\
    (0 < CIssuedAtUnix claim)%Z /\
    (time_sub now (time_unix (CIssuedAtUnix claim)) < seconds (CTTLSeconds claim))%Z /\
    ParseAddr (CIP claim) = Some (VIP vc) /\
    VAge vc = Z.max 0 (time_sub now (time_unix (CIssuedAtUnix claim))).

Lemma VerifyClaim_backed env snap now vc :
  VerifyClaim env snap roots now = Ok vc -> backed env snap now vc.
Proof.
  unfold VerifyClaim. intros H.
  apply bind_Ok in H as (_ & _ & H). apply bind_Ok in H as (block & Hblock%of_option_Ok & H).
  apply bind_Ok in H as (_ & _ & H). apply bind_Ok in H as (leaf & Hleaf%of_option_Ok & H).
  apply bind_Ok in H as (_ & Hroot%guard_err_Ok & H). apply bind_Ok in H as (_ & Hwin%guard_err_Ok & H).
  apply bind_Ok in H as (artifact & Hart%of_option_Ok & H). apply bind_Ok in H as (sig & Hsig%of_option_Ok & H).
  apply bind_Ok in H as (k & Hk & H). apply bind_Ok in H as (_ & Hv%guard_err_Ok & H).
  apply bind_Ok in H as (claim & Hc%of_option_Ok & H). apply bind_Ok in H as (_ & _ & H).
  apply bind_Ok in H as (_ & Hid%guard_err_Ok & H). apply bind_Ok in H as (_ & Hanch%guard_err_Ok & H).
  apply bind_Ok in H as (b & Hb%of_option_Ok & H). apply bind_Ok in H as (_ & Hcross%guard_err_Ok & H).
  apply bind_Ok in H as (_ & Hexp%guard_err_Ok & H). apply bind_Ok in H as (ip & Hip%of_option_Ok & H).
  injection H as <-. apply any_root_spec in Hroot. apply find_binding_Some in Hb as [Hb Hbn].
  apply negb_true_iff, orb_false_iff in Hwin as [?%Z.ltb_ge ?%Z.ltb_ge].
  apply negb_true_iff, bool_decide_eq_false in Hid. apply bool_decide_eq_true in Hanch, Hcross.
  apply negb_true_iff, orb_false_iff in Hexp as [?%Z.leb_gt ?%Z.leb_gt].
  destruct (LeafKey leaf) as [k'|] eqn:Ek; [|done]. injection Hk as ->.
  exists block, leaf, k, artifact, sig, claim, b. cbn. split_and!; try done; congruence.
Qed.

Lemma best_claim_spec envs snap wanted now best :
  let r := best_claim envs snap wanted now best in
  let valid vc := exists env, env ∈ envs /\ VerifyClaim env snap roots now = Ok vc /\ VName vc = wanted in
  (forall vc, r = Some vc -> best = Some vc \/ valid vc) /\
  (forall vc, valid vc \/ best = Some vc -> exists b, r = Some b /\ (VAge b <= VAge vc)%Z).
Proof.
  revert best. induction envs as [|env envs IH]; intros best; cbn.
  { split; [by left|]. intros vc [(env & Henv & _)| ->]; [by apply elem_of_nil in Henv|].
    exists vc. split; [done|lia]. }
  match goal with |- context [best_claim envs snap wanted now ?b] => set (best' := b) end.
  destruct (IH best') as [IH1 IH2]. split.
  - intros vc Hvc. destruct (IH1 vc Hvc) as [Hb|(env' & He & Hv & Hn)].
    + unfold best' in Hb. destruct (VerifyClaim env snap roots now) as [vc'|] eqn:Ev; [|by left].
      destruct (bool_decide_reflect (VName vc' = wanted)) as [Hn|]; cbn in Hb; [|by left].
      destruct best as [b|].
      * destruct (VAge vc' <? VAge b)%Z; [|by left]. injection Hb as ->. right.
        exists env. split; [apply list_elem_of_here|done].
      * injection Hb as ->. right. exists env. split; [apply list_elem_of_here|done].
    + right. exists env'. set_solver.
  - intros vc Hvc. assert (Hstep : forall b, best' = Some b -> (VAge b <= VAge vc)%Z ->
      exists c, best_claim envs snap wanted now best' = Some c /\ (VAge c <= VAge vc)%Z).
    { intros b Hb Hle. destruct (IH2 b (or_intror Hb)) as (c & Hc & ?). exists c. split; [done|lia]. }
    destruct Hvc as [(env' & [->|He]%elem_of_cons & Hv & Hn)|Hbest].
    + unfold best' in Hstep at 1. rewrite Hv in Hstep. rewrite bool_decide_eq_true_2 in Hstep by done.
      cbn [negb] in Hstep. destruct best as [b|].
      * destruct (Z.ltb_spec (VAge vc) (VAge b)); eapply Hstep; try done; lia.
      * eapply Hstep; [done|lia].
    + destruct (IH2 vc) as (c & Hc & ?); [left; by exists env'|by exists c].
    + unfold best' in Hstep at 1. rewrite Hbest in Hstep.
      destruct (VerifyClaim env snap roots now) as [vc'|]; [|eapply Hstep; [done|lia]].
      destruct (negb _); [eapply Hstep; [done|lia]|].
      destruct (Z.ltb_spec (VAge vc') (VAge vc)); eapply Hstep; try done; lia.
Qed.
End claims.

(** ** What a looked-up claim guarantees *)
Section spec.
Context {C : Crypto} {L : NamesLib} {CL : ClaimsLib}.
Context (roots : list (option PublicKey)).

Definition envelopes_on (d : ndisk) : list ClaimEnvelope :=
  default [] (c ← d !! Named ClaimsFile;
              match ndat c with Bytes b => json_envelopes b | ObservedJson _ => None end).

(** C21: A peer can only claim its own name. A claim [LookupClaim] returns is
    for the name asked, comes from an envelope of the claims file, and the
    chain of trust behind it is complete: leaf signed by a trust root and in
    its window, artifact signed by the leaf key, leaf identity equal to the
    claimed anchor and to the anchor the snapshot binds the name to, address
    well-formed, inside the declared TTL. No valid claim for the name is
    fresher, and a name the snapshot binds to no anchor (a service name) has
    no claim. *)
Theorem LookupClaim_own_name (ok : nat -> bool) (name : string) (snap : Snapshot) (now : Z) (st : store)
    (vc : ValidClaim) :
  (LookupClaim roots ok name snap now st).1 = Ok (Some vc) ->
  VName vc = canonical name /\
  (exists env, env ∈ envelopes_on (disk (fs st)) /\ backed roots env snap now vc) /\
  (exists b, b ∈ PeerBindings snap /\ to_lower (BName b) = canonical name) /\
  (forall env vc', env ∈ envelopes_on (disk (fs st)) -> VerifyClaim env snap roots now = Ok vc' ->
     VName vc' = canonical name -> (VAge vc <= VAge vc')%Z).
Proof.
  unfold LookupClaim, read_envelopes. unfold mbind at 1 2, action_bind, attempt, on_fs, read_file, meddle, others, no_others. cbv beta iota.
  unfold envelopes_on. destruct (disk (fs st) !! Named ClaimsFile) as [c|]; [|done].
  destruct (ok _); [|done]. cbn.
  destruct (match ndat c with Bytes b => json_envelopes b | _ => None end) as [envs|]; [|done].
  cbn. intros [= Hbest].
  destruct (best_claim_spec roots envs snap (canonical name) now None) as [Hsound Hmin].
  destruct (Hsound vc Hbest) as [?|(env & Henv & Hv & Hn)]; [done|].
  pose proof (VerifyClaim_backed _ _ _ _ _ Hv) as Hback. split_and!.
  - done.
  - by exists env.
  - destruct Hback as (?&?&?&?&?&?&b&_&_&_&_&_&_&_&_&_&Hb&Hbn&_). exists b. by rewrite Hbn.
  - intros env' vc' Henv' Hv' Hn'. destruct (Hmin vc') as (b & Hb & ?); [left; by exists env'|].
    rewrite Hbest in Hb. by injection Hb as <-.
Qed.
End spec.

Module ToyClaims.
#[export] Existing Instance Toy.crypto.
#[export] Existing Instance ToyNames.lib.
Definition env : ClaimEnvelope := {| ArtifactB64 := "10.0.0.9"; SigB64 := "leaf1"; LeafPEM := "leaf1" |}.
#[export] Instance lib : ClaimsLib := {|
  pem_first s := Some {| BlockType := "CERTIFICATE"; BlockBytes := s2l s |};
  parse_leaf b := Some {| RawTBSCertificate := b; LeafSignature := s2l "ca"; LeafNotBefore := 0;
    LeafNotAfter := 10 ^ 15; LeafKey := EcdsaKey (l2s b : @PublicKey Toy.crypto); CommonName := "x";
    URIs := ["spiffe://goat?org=anchor"] |};
  json_claim b := Some {| CFormat := ClaimFormat; CName := "Peer."; CIP := l2s b; CAnchor := "anchor";
    CIssuedAtUnix := 1000; CTTLSeconds := 100 |};
  json_envelopes b := Some [env] |}.
Definition st : store := (PutClaims ToyNamesStore.fine 7 (s2l "[]") (reset ∅)).2.
End ToyClaims.

Import ToyClaims.

Lemma LookupClaim_own_name_witness :
  exists env : ClaimEnvelope, env ∈ envelopes_on (disk (fs ToyClaims.st)) /\
    ParseAddr "10.0.0.9" = Some ("10.0.0.9" : @addr ToyNames.lib).
Proof.
  destruct (LookupClaim_own_name ToyNamesStore.roots ToyNamesStore.fine "PEER" (ToyNames.snap_of "abc")
    (1050 * second) ToyClaims.st
    {| VName := "peer"; VIP := ("10.0.0.9" : @addr ToyNames.lib); VAge := 50 * second |}) as (_ & (env & He & _) & _).
  - by vm_compute.
  - exists env. split; [exact He|reflexivity].
Defined.
