(* ===== verification/Forwarder.v ===== *)
(** The fallback forwarder: internal/names/forwarder.go and refresh.go; the service
    around them is in NamesService.v.

    DNS messages keep what the source looks at. The exchange with an upstream
    (github.com/miekg/dns) and the HTTP fetches are arguments. [handle] is one
    query; [rebind] is the recovery loop of [supervise] over the outcomes of
    its attempts to listen. *)
From stdpp Require Import base tactics list gmap strings.
From Stdlib Require Import ZArith Ascii Lia.
From S2P Require Import Prelude GoStr Fs Bundle Names NamesStore Claims.
Local Open Scope list_scope.

Definition TypeA : Z := 1.
Definition TypeAAAA : Z := 28.
Definition RcodeSuccess : Z := 0.
Definition RcodeFormatError : Z := 1.
Definition RcodeServerFailure : Z := 2.

Inductive rr := RR_A (name : string) (ip : chars) | RR_AAAA (name : string) (ip : chars) | RR_Other.
Record response := { Rcode : Z; Answers : list rr }.
Record question := { QName : string; Qtype : Z }.
Definition request : Type := list question.

(** [v4_text] is netip.AddrFromSlice(ip.To4()).String(), [v6_text] the same
    on the bytes as they are; [None] where AddrFromSlice fails. *)
Class ForwarderLib := {
  exchange : request -> string -> option response;
  v4_text : chars -> option string;
  v6_text : chars -> option string }.

Inductive reply {L : NamesLib} :=
  | Relayed (m : response)
  | RcodeReply (rcode : Z)
  | EmptyReply
  | AddrReply (v6 : bool) (name : string) (ip : addr).

Record forwarder := {
  fstore : store;
  upstreams : list string;
  served : Z;
  lastFall : Z;
  healthy : bool;
  notified : list bool }.

Definition set_store (st : store) (f : forwarder) : forwarder :=
  {| fstore := st; upstreams := upstreams f; served := served f; lastFall := lastFall f;
     healthy := healthy f; notified := notified f |}.
Definition count_served (now : Z) (f : forwarder) : forwarder :=
  {| fstore := fstore f; upstreams := upstreams f; served := wrap64 (served f + 1);
     lastFall := unix now; healthy := healthy f; notified := notified f |}.

(** A store operation, its error handed over as a value. *)
Definition on_store {A} (m : action store store_error A) : state forwarder (result store_error A) := fun f =>
  let '(r, st) := m (fstore f) in (r, set_store st f).

Section forwarder.
Context {C : Crypto} {L : NamesLib} {J : NamesJson} {CL : ClaimsLib} {FL : ForwarderLib}.
Context (roots : list (option PublicKey)) (ok : nat -> bool).

(** The address an upstream is dialled at. *)
Definition upstream_addr (up : string) : string :=
  match split_host_port up with Some _ => up | None => join_host_port up "53" end.

Fixpoint try_each (req : request) (ups : list string) : option response :=
  match ups with
  | [] => None
  | up :: ups' =>
    let up := trim_space up in
    if bool_decide (up = "") then try_each req ups'
    else match exchange req (upstream_addr up) with
         | Some resp => Some resp
         | None => try_each req ups'
         end
  end.

Definition tryUpstreams (f : forwarder) (req : request) : option response := try_each req (upstreams f).

Definition observe (name : string) (ip : option string) (now : Z) : state forwarder unit :=
  match ip with
  | Some ip => _ ← on_store (RecordObservation ok name ip now); mret tt
  | None => mret tt
  end.

Fixpoint record_rrs (l : list rr) (now : Z) : state forwarder unit :=
  match l with
  | [] => mret tt
  | RR_A name ip :: l' => _ ← observe name (v4_text ip) now; record_rrs l' now
  | RR_AAAA name ip :: l' => _ ← observe name (v6_text ip) now; record_rrs l' now
  | RR_Other :: l' => record_rrs l' now
  end.

Definition recordLiveAnswers (resp : response) (now : Z) : state forwarder unit :=
  record_rrs (Answers resp) now.

(** A relayed answer: success with records, or a definitive failure. *)
Definition live_success (m : response) : bool :=
  (Rcode m =? RcodeSuccess)%Z && (0 <? length (Answers m)).
Definition live_failure (m : response) : bool :=
  negb (Rcode m =? RcodeSuccess)%Z && negb (Rcode m =? RcodeServerFailure)%Z.

(** An answer of a fallback tier is counted. *)
Definition answer (wantV6 : bool) (name : string) (ip : addr) (now : Z) : state forwarder reply :=
  _ ← modify (count_served now); mret (AddrReply wantV6 name ip).

(** The verified self-claim of the right family, if any. *)
Definition claim_tier (q : question) (wantV6 : bool) (snap : result store_error Snapshot) (now : Z)
    : state forwarder (option ValidClaim) :=
  match snap with
  | Err _ => mret None
  | Ok s =>
    r ← on_store (LookupClaim roots ok (QName q) s now);
    mret (match r with
          | Ok (Some vc) => if Bool.eqb (Is6 (VIP vc)) wantV6 then Some vc else None
          | _ => None
          end)
  end.

(** The snapshot and the observed records. *)
Definition record_tier (q : question) (wantV6 : bool) (snap : result store_error Snapshot) (now : Z)
    : state forwarder reply :=
  obs ← on_store (LookupObserved ok (QName q) now);
  let obs := match obs with Ok o => o | Err _ => None end in
  let snap' := match snap with
               | Ok s => Ok (Some s)
               | Err (ESnapshot e) => Err e
               | Err _ => Err EReadSnapshot
               end in
  match PickFallback snap' obs (QName q) now with
  | Err _ => mret (RcodeReply RcodeServerFailure)
  | Ok ans =>
    if negb (Bool.eqb (Is6 (AIP ans)) wantV6) then mret EmptyReply
    else answer wantV6 (QName q) (AIP ans) now
  end.

(** The fallback tiers, reached when no upstream answered definitively. *)
Definition fallback (q : question) (now : Z) : state forwarder reply :=
  if negb (Qtype q =? TypeA)%Z && negb (Qtype q =? TypeAAAA)%Z then mret (RcodeReply RcodeServerFailure)
  else
    let wantV6 := (Qtype q =? TypeAAAA)%Z in
    snap ← on_store (LoadSnapshot roots ok);
    vc ← claim_tier q wantV6 snap now;
    match vc with
    | Some vc => answer wantV6 (QName q) (VIP vc) now
    | None => record_tier q wantV6 snap now
    end.

Definition handle (req : request) (now : Z) : state forwarder reply :=
  match req with
  | [] => mret (RcodeReply RcodeFormatError)
  | q :: _ =>
    f ← get;
    match tryUpstreams f req with
    | Some resp =>
      if live_success resp then _ ← recordLiveAnswers resp now; mret (Relayed resp)
      else if live_failure resp then mret (Relayed resp)
      else fallback q now
    | None => fallback q now
    end
  end.

(** ** Supervision *)
Definition setHealthy (up : bool) (f : forwarder) : forwarder :=
  let changed := negb (Bool.eqb (healthy f) up) in
  {| fstore := fstore f; upstreams := upstreams f; served := served f; lastFall := lastFall f;
     healthy := up; notified := if changed then notified f ++ [up] else notified f |}.

Definition rebindDelays : list Z := [second; 2 * second; 5 * second; 15 * second; 30 * second]%Z.
Definition rebind_delay (i : nat) : Z :=
  nth (Nat.min i (length rebindDelays - 1)) rebindDelays 0%Z.

(** The loop after a serve crash, from attempt [i] on; [outcomes] says which
    attempts get the listener back, its end is the cancelled context. The
    result says whether the forwarder serves again. *)
Fixpoint rebind (i : nat) (outcomes : list bool) : state forwarder bool :=
  f ← get;
  _ ← (if i =? length rebindDelays then modify (setHealthy false) else mret tt);
  match outcomes with
  | [] => mret false
  | true :: _ => _ ← modify (setHealthy true); mret true
  | false :: outcomes' => rebind (S i) outcomes'
  end.

(** ** Refresh *)
Definition GetBaseURL (siteID zone : string) : string :=
  let siteID := trim_space siteID in
  let zone := trim_space (trim_suffix zone ".") in
  if bool_decide (siteID = "") || bool_decide (zone = "") then ""
  else "https://get." +:+ siteID +:+ "." +:+ zone.

Inductive refresh_error := ENoBaseURL | EFetch | ENotNewerKept | ERefused (e : store_error).

(** http.Client.Do: status, and what reading the body gives - its bytes up to an
    error, and whether one came. *)
Record http_response := { rs_status : Z; rs_body : chars; rs_complete : bool }.
(** 1 << 20: bytes past it are not read, nor is an error among them met. *)
Definition artifact_limit : Z := 1048576.
Definition fetch (do_get : string -> option http_response) (url : string) : option chars :=
  resp ← do_get url;
  if negb (rs_status resp =? 200)%Z then None
  else if (artifact_limit <=? Z.of_nat (length (rs_body resp)))%Z then Some (take (Z.to_nat artifact_limit) (rs_body resp))
  else if rs_complete resp then Some (rs_body resp) else None.

(** [fetch] maps a URL to the body of a 200 answer. *)
Definition Refresh (fetch : string -> option chars) (now : Z) (baseURL : string)
    : action store refresh_error Snapshot :=
  if bool_decide (baseURL = "") then fail ENoBaseURL
  else
    let base := trim_suffix baseURL "/" in
    artifact ← lift (of_option EFetch (fetch (base +:+ "/name-snapshot.json")));
    sig ← lift (of_option EFetch (fetch (base +:+ "/name-snapshot.json.sig")));
    accepted ← with_err (fun e => match e with ErrNotNewer => ENotNewerKept | e => ERefused e end)
                 (PutSnapshot roots ok now artifact sig);
    _ ← match fetch (base +:+ "/claims.json") with
        | Some claims => r ← attempt (PutClaims ok now claims); mret tt
        | None => mret tt
        end;
    mret accepted.

(** ** Lemmas *)
Lemma state_bind_eq {S A B} (m : state S A) (g : A -> state S B) s a s' :
  m s = (a, s') -> (m ≫= g) s = g a s'.
Proof. unfold mbind, state_bind. by intros ->. Qed.

Opaque artifact_limit.
(** A fetch gives the body of a 200 answer, cut at the limit: what is shorter is
    given whole and only when it was read to its end. *)
Theorem fetch_exact do_get url b :
  fetch do_get url = Some b <->
  exists resp, do_get url = Some resp /\ rs_status resp = 200%Z /\
    b = take (Z.to_nat artifact_limit) (rs_body resp) /\ (Z.of_nat (length b) < artifact_limit -> rs_complete resp = true)%Z.
Proof.
  assert (0 < artifact_limit)%Z as Hpos by done. unfold fetch. destruct (do_get url) as [resp|]; cbn [mbind option_bind]; [|split; [done|by intros (? & ? & _)]].
  destruct (Z.eqb_spec (rs_status resp) 200) as [Hs|Hs]; cbn [negb].
  - destruct (Z.leb_spec artifact_limit (Z.of_nat (length (rs_body resp)))).
    + split; [intros [= <-]; exists resp; split_and!; [done..|]; rewrite length_take; lia|by intros (? & [= <-] & _ & -> & _)].
    + destruct (rs_complete resp) eqn:Ec.
      * split; [intros [= <-]; exists resp; rewrite take_ge by lia; by split_and!|]. intros (? & [= <-] & _ & -> & _). by rewrite take_ge by lia.
      * split; [done|]. intros (? & [= <-] & _ & -> & Hc). rewrite take_ge in Hc by lia. rewrite Hc in Ec by done. done.
  - split; [done|]. by intros (? & [= <-] & ? & _).
Qed.
Transparent artifact_limit.

(** Store operations leave the forwarder's own fields alone. *)
Definition same_counters (f f' : forwarder) : Prop :=
  served f' = served f /\ lastFall f' = lastFall f /\ healthy f' = healthy f /\
  notified f' = notified f /\ upstreams f' = upstreams f.

Lemma same_counters_refl f : same_counters f f.
Proof. by split_and!. Qed.
Lemma same_counters_trans f1 f2 f3 : same_counters f1 f2 -> same_counters f2 f3 -> same_counters f1 f3.
Proof. unfold same_counters. naive_solver congruence. Qed.

Lemma on_store_counters {A} (m : action store store_error A) f r f' :
  on_store m f = (r, f') -> same_counters f f'.
Proof. unfold on_store. destruct (m (fstore f)). intros [= <- <-]. by split_and!. Qed.

(** [quiet m]: running [m] leaves the counters alone. *)
Definition quiet {A} (m : state forwarder A) : Prop := forall f, same_counters f (m f).2.

Lemma quiet_ret {A} (a : A) : quiet (mret a).
Proof. intros f. apply same_counters_refl. Qed.
Lemma quiet_on_store {A} (m : action store store_error A) : quiet (on_store m).
Proof. intros f. destruct (on_store m f) as [r f'] eqn:E. by eapply on_store_counters. Qed.
Lemma quiet_bind {A B} (m : state forwarder A) (g : A -> state forwarder B) :
  quiet m -> (forall a, quiet (g a)) -> quiet (m ≫= g).
Proof.
  intros Hm Hg f. unfold mbind, state_bind. specialize (Hm f). destruct (m f) as [a f1].
  eapply same_counters_trans; [exact Hm|apply Hg].
Qed.
Create HintDb quiet discriminated.
#[local] Hint Resolve quiet_ret quiet_on_store : quiet.

Lemma quiet_record_rrs l now : quiet (record_rrs l now).
Proof.
  assert (forall name ip, quiet (observe name ip now)) as Ho.
  { intros name [ip|]; unfold observe; [apply quiet_bind|]; auto with quiet. }
  induction l as [|[name ip|name ip|] l IH]; cbn [record_rrs]; auto with quiet;
    apply quiet_bind; auto.
Qed.

Lemma quiet_claim_tier q v6 snap now : quiet (claim_tier q v6 snap now).
Proof. destruct snap; cbn; [apply quiet_bind|]; auto with quiet. Qed.

Lemma claim_tier_family q v6 snap now f vc f' :
  claim_tier q v6 snap now f = (Some vc, f') -> Is6 (VIP vc) = v6.
Proof.
  unfold claim_tier. destruct snap as [s|]; [|done]. unfold mbind, state_bind.
  destruct (on_store _ f) as [[[vc'|]|] f1]; [|done..].
  destruct (Bool.eqb_spec (Is6 (VIP vc')) v6) as [E|]; [|done]. by intros [= <- _].
Qed.

(** What the fallback tiers may reply, and its effect on the counters. *)
Definition tier_reply (q : question) (now : Z) (f : forwarder) (rep : reply) (f' : forwarder) : Prop :=
  match rep with
  | Relayed _ => False
  | AddrReply v6 name ip =>
    name = QName q /\ Is6 ip = v6 /\ v6 = (Qtype q =? TypeAAAA)%Z /\
    served f' = wrap64 (served f + 1) /\ lastFall f' = unix now
  | _ => same_counters f f'
  end.

Lemma answer_reply q ip now f0 f rep f' :
  same_counters f0 f -> Is6 ip = (Qtype q =? TypeAAAA)%Z ->
  answer (Qtype q =? TypeAAAA)%Z (QName q) ip now f = (rep, f') -> tier_reply q now f0 rep f'.
Proof. intros (Hs & _) H6 [= <- <-]. cbn. by rewrite Hs. Qed.

Lemma record_tier_reply q snap now f0 f rep f' :
  same_counters f0 f -> record_tier q (Qtype q =? TypeAAAA)%Z snap now f = (rep, f') ->
  tier_reply q now f0 rep f'.
Proof.
  intros Hf. unfold record_tier. unfold mbind, state_bind.
  pose proof (quiet_on_store (LookupObserved ok (QName q) now) f) as Hq.
  destruct (on_store (LookupObserved ok (QName q) now) f) as [obs f1]. cbn in Hq. cbv zeta.
  pose proof (same_counters_trans _ _ _ Hf Hq) as Hf1.
  destruct (PickFallback _ _ _ _) as [ans|]; [|by intros [= <- <-]].
  destruct (Bool.eqb_spec (Is6 (AIP ans)) (Qtype q =? TypeAAAA)%Z); cbn [negb]; [|by intros [= <- <-]].
  by apply answer_reply.
Qed.

Lemma fallback_reply q now f rep f' : fallback q now f = (rep, f') -> tier_reply q now f rep f'.
Proof.
  unfold fallback. destruct (negb _ && negb _).
  { intros [= <- <-]. apply same_counters_refl. }
  cbv zeta. unfold mbind at 1, state_bind.
  pose proof (quiet_on_store (LoadSnapshot roots ok) f) as Hq1.
  destruct (on_store (LoadSnapshot roots ok) f) as [snap f1]. cbn in Hq1.
  unfold mbind at 1. pose proof (quiet_claim_tier q (Qtype q =? TypeAAAA)%Z snap now f1) as Hq2.
  destruct (claim_tier q _ snap now f1) as [[vc|] f2] eqn:E; cbn in Hq2;
    pose proof (same_counters_trans _ _ _ Hq1 Hq2).
  - apply claim_tier_family in E. by apply answer_reply.
  - by apply record_tier_reply.
Qed.

(** The first upstream to respond, all before it silent. *)
Lemma try_each_Some req ups resp :
  try_each req ups = Some resp ->
  exists l1 up l2, ups = l1 ++ up :: l2 /\ trim_space up <> "" /\
    exchange req (upstream_addr (trim_space up)) = Some resp /\
    Forall (fun u => trim_space u = "" \/ exchange req (upstream_addr (trim_space u)) = None) l1.
Proof.
  induction ups as [|up ups IH]; cbn [try_each]; [done|]. cbv zeta.
  destruct (bool_decide_reflect (trim_space up = "")) as [E|E].
  - intros (l1 & u & l2 & -> & ? & ? & ?)%IH. exists (up :: l1), u, l2. split_and!; auto.
  - destruct (exchange req _) as [r|] eqn:Ex.
    + intros [= <-]. exists [], up, ups. split_and!; auto.
    + intros (l1 & u & l2 & -> & ? & ? & ?)%IH. exists (up :: l1), u, l2. split_and!; auto.
Qed.

(** C22: Live answers are never shadowed, and fallback answers are counted and
    of the right family. If an upstream gives records or a definitive failure
    (anything but SERVFAIL or an empty success), the reply is that response
    verbatim and no counter moves; a relayed reply is always such a response;
    an address from a fallback tier is only given when there is none, for the
    name asked, with the family asked, and raises the fallback count by one. *)
Theorem handle_live_first (q : question) (qs : request) (now : Z) (f f' : forwarder) (rep : reply) :
  handle (q :: qs) now f = (rep, f') ->
  let live := match tryUpstreams f (q :: qs) with
              | Some m => if live_success m || live_failure m then Some m else None
              | None => None
              end in
  match live with
  | Some m => rep = Relayed m /\ same_counters f f'
  | None => tier_reply q now f rep f'
  end.
Proof.
  unfold handle. unfold mbind at 1, state_bind, get.
  destruct (tryUpstreams f (q :: qs)) as [m|]; cbn; [|by apply fallback_reply].
  destruct (live_success m); cbn [orb].
  - unfold mbind, state_bind. pose proof (quiet_record_rrs (Answers m) now f) as Hq.
    unfold recordLiveAnswers. destruct (record_rrs (Answers m) now f) as [u f1]. by intros [= <- <-].
  - destruct (live_failure m); [|by apply fallback_reply].
    intros [= <- <-]. split; [done|apply same_counters_refl].
Qed.

End forwarder.

(** *** Supervision *)

(** The failed attempts before the first success. *)
Fixpoint lead_fails (outcomes : list bool) : nat :=
  match outcomes with false :: l => S (lead_fails l) | _ => 0 end.

(** Once the ladder is exhausted, recovery is announced and nothing else. *)
Lemma rebind_unhealthy i outcomes f b f' :
  rebind i outcomes f = (b, f') -> 5 < i -> healthy f = false ->
  b = bool_decide (true ∈ outcomes) /\ healthy f' = b /\
  notified f' = notified f ++ (if b then [true] else []).
Proof.
  revert i f. induction outcomes as [|[] outcomes IH]; intros i f; cbn [rebind];
    unfold mbind, state_bind, get, modify, mret, state_ret; intros Hrun Hi Hf;
    (destruct (Nat.eqb_spec i (length rebindDelays)) as [E|_]; [cbn in E; lia|]).
  - injection Hrun as <- <-. by rewrite app_nil_r, Hf.
  - injection Hrun as <- <-. cbn. rewrite Hf. cbn. by rewrite bool_decide_eq_true_2 by set_solver.
  - destruct (IH (S i) f Hrun ltac:(lia) Hf) as (-> & H1 & H2).
    assert (bool_decide (true ∈ false :: outcomes) = bool_decide (true ∈ outcomes)) as ->
      by (apply bool_decide_ext; set_solver). done.
Qed.

Lemma rebind_healthy i outcomes f b f' :
  rebind i outcomes f = (b, f') -> i <= 5 -> healthy f = true ->
  b = bool_decide (true ∈ outcomes) /\
  (i + lead_fails outcomes < 5 -> healthy f' = true /\ notified f' = notified f) /\
  (5 <= i + lead_fails outcomes -> healthy f' = b /\
     notified f' = notified f ++ (if b then [false; true] else [false])).
Proof.
  revert i f. induction outcomes as [|o outcomes IH]; intros i f; cbn [rebind lead_fails];
    unfold mbind, state_bind, get, modify, mret, state_ret; intros Hrun Hi Hf.
  - destruct (Nat.eqb_spec i (length rebindDelays)) as [E|E]; cbn in E; injection Hrun as <- <-;
      cbn; rewrite ?Hf; cbn; (split; [done|]); split; intros; try lia; done.
  - destruct (Nat.eqb_spec i (length rebindDelays)) as [->|E].
    + destruct o.
      * injection Hrun as <- <-. cbn. rewrite Hf. cbn. rewrite <-app_assoc.
        rewrite bool_decide_eq_true_2 by set_solver. split_and!; [done|lia|done].
      * apply rebind_unhealthy in Hrun as (-> & H1 & H2); [|cbn; lia|done].
        assert (bool_decide (true ∈ false :: outcomes) = bool_decide (true ∈ outcomes)) as ->
          by (apply bool_decide_ext; set_solver).
        cbn in H2. rewrite Hf in H2. cbn in H2. rewrite <-app_assoc in H2. cbn.
        split_and!; [done|lia|]. intros _. rewrite H2. by destruct (bool_decide _).
    + destruct o.
      * injection Hrun as <- <-. cbn in E. cbn. rewrite Hf. cbn.
        rewrite bool_decide_eq_true_2 by set_solver. split_and!; [done|done|lia].
      * cbn in E. destruct (IH (S i) f Hrun ltac:(lia) Hf) as (-> & H1 & H2).
        assert (bool_decide (true ∈ false :: outcomes) = bool_decide (true ∈ outcomes)) as ->
          by (apply bool_decide_ext; set_solver).
        split_and!; [done|intros; apply H1; lia|intros; apply H2; lia].
Qed.

(** C37: A crashed listener fails open and recovers. Starting healthy, the
    supervisor serves again exactly if some attempt gets the listener back; up
    to four failed attempts go unnoticed, from the fifth on the daemon is told
    once that the forwarder is down, and once that it is back if it comes
    back; the health flag is what was announced last. *)
Theorem rebind_fails_open (outcomes : list bool) (f f' : forwarder) (b : bool) :
  rebind 0 outcomes f = (b, f') -> healthy f = true ->
  b = bool_decide (true ∈ outcomes) /\
  (if lead_fails outcomes <? 5
   then healthy f' = true /\ notified f' = notified f
   else healthy f' = b /\ notified f' = notified f ++ (if b then [false; true] else [false])).
Proof.
  intros Hrun Hf. destruct (rebind_healthy 0 outcomes f b f' Hrun ltac:(lia) Hf) as (-> & H1 & H2).
  split; [done|]. destruct (Nat.ltb_spec (lead_fails outcomes) 5); auto.
Qed.

(** ** Concrete runs *)
Module ToyForwarder.
#[export] Existing Instance Toy.crypto.
#[export] Existing Instance ToyNames.lib.
#[export] Existing Instance ToyNamesStore.json.
#[export] Existing Instance ToyClaims.lib.
(** Only the second upstream is up, and it says NXDOMAIN. *)
#[export] Instance lib : ForwarderLib := {|
  exchange req up := if bool_decide (up = "10.0.0.2:53") then Some {| Rcode := 3; Answers := [] |} else None;
  v4_text _ := None; v6_text _ := None |}.
Definition fwd (ups : list string) : forwarder :=
  {| fstore := ToyNamesStore.st1; upstreams := ups; served := 0; lastFall := 0; healthy := true; notified := [] |}.
Definition q : question := {| QName := "svc."; Qtype := TypeA |}.
End ToyForwarder.
Import ToyForwarder.

Lemma handle_live_first_witness :
  (handle ToyNamesStore.roots ToyNamesStore.fine [q] (1500 * second) (fwd ["10.0.0.1"; " 10.0.0.2"])).1
    = Relayed {| Rcode := 3; Answers := [] |}.
Proof.
  pose proof (handle_live_first ToyNamesStore.roots ToyNamesStore.fine q [] (1500 * second)
    (fwd ["10.0.0.1"; " 10.0.0.2"]) _ _ (surjective_pairing _)) as H.
  assert (tryUpstreams (fwd ["10.0.0.1"; " 10.0.0.2"]) [q] = Some {| Rcode := 3; Answers := [] |}) as E
    by (by vm_compute).
  rewrite E in H. exact (proj1 H).
Defined.

Lemma rebind_fails_open_witness :
  notified (rebind 0 [false; false; false; false; false; true] (fwd [])).2 = [false; true].
Proof.
  exact (proj2 (proj2 (rebind_fails_open [false; false; false; false; false; true] (fwd []) _ _
    (surjective_pairing _) eq_refl))).
Defined.
