(* ===== verification/PeerPing.v ===== *)
(** Live round-trip latency to mesh peers: internal/peerping.

    The probe codec (peerping.go), the rolling history (ring.go), one probe
    (pinger.go) as a function of what the clock and the socket give, one
    datagram of the responder (responder.go) and the reconciliation of the
    samplers (manager.go). The loss percentage, a float, is in GoFloat.v. *)
From stdpp Require Import base tactics list gmap fin_maps strings.
From Stdlib Require Import ZArith Ascii Lia.
From S2P Require Import Prelude GoStr.
Local Open Scope list_scope.

Definition DefaultPort : Z := 51822.
Definition DefaultInterval : Z := second.
Definition DefaultTimeout : Z := (2 * second)%Z.
Definition DefaultHistory : Z := 120.

(** ** The probe packet *)
Definition magic : chars := s2l "gpng".
Definition version : N := 1.
Definition packetLen : nat := length magic + 1 + 8.

Inductive probe_error := errShortPacket | errBadMagic | errBadVersion.

(** binary.BigEndian on [n] bytes. *)
Fixpoint put_be (n : nat) (z : Z) : chars :=
  match n with
  | O => []
  | S n' => ascii_of_N (Z.to_N (Z.shiftr z (8 * Z.of_nat n') mod 256)) :: put_be n' z
  end.
Definition get_be (l : chars) : Z := foldl (fun z c => Z.shiftl z 8 + Z.of_N (code c))%Z 0%Z l.

Definition encodeProbe (seq : Z) : chars := magic ++ [ascii_of_N version] ++ put_be 8 seq.

Definition decodeProbe (b : chars) : result probe_error Z :=
  if length b <? packetLen then Err errShortPacket
  else if negb (bool_decide (take 4 b = magic)) then Err errBadMagic
  else if negb (bool_decide (code <$> (b !! 4) = Some version)) then Err errBadVersion
  else Ok (get_be (take 8 (drop 5 b))).

(** What the responder sends back for a datagram. *)
Definition echo (b : chars) : option chars :=
  match decodeProbe b with Ok _ => Some b | Err _ => None end.

(** ** The ring *)
Record Sample := { Seq : Z; At : Z; RTT : Z; Lost : bool }.
Definition zero_sample : Sample := {| Seq := 0; At := 0; RTT := 0; Lost := false |}.

Record Ring := { buf : list Sample; head : nat; num : nat }.

Definition NewRing (capacity : Z) : Ring :=
  let capacity := if (capacity <=? 0)%Z then DefaultHistory else capacity in
  {| buf := replicate (Z.to_nat capacity) zero_sample; head := 0; num := 0 |}.

Definition Cap (r : Ring) : nat := length (buf r).
Definition Len (r : Ring) : nat := num r.

Definition Add (s : Sample) (r : Ring) : Ring :=
  {| buf := <[head r := s]> (buf r);
     head := (head r + 1) mod length (buf r);
     num := if num r <? length (buf r) then num r + 1 else num r |}.

Definition nth_sample (r : Ring) (i : nat) : Sample := nth (i mod length (buf r)) (buf r) zero_sample.
(** [(r.head - r.n + len(r.buf)) % len(r.buf)]. *)
Definition start (r : Ring) : nat := (head r + length (buf r) - num r) mod length (buf r).

Definition Samples (r : Ring) : list Sample :=
  (fun i => nth_sample r (start r + i)) <$> seq 0 (num r).

Definition Last (r : Ring) : option Sample :=
  if num r =? 0 then None else Some (nth_sample r (head r + length (buf r) - 1)).

Record Stats := {
  SN : nat;
  SLost : nat;
  SMin : Z;
  SMax : Z;
  SAvg : Z;
  SLast : Z }.

Definition no_stats (n : nat) : Stats :=
  {| SN := n; SLost := 0; SMin := 0; SMax := 0; SAvg := 0; SLast := 0 |}.

(** One iteration of the loop of [Stats], with the running sum and count. *)
Definition stats_step (acc : Stats * Z * Z) (s : Sample) : Stats * Z * Z :=
  let '(st, sum, ok) := acc in
  if Lost s then
    ({| SN := SN st; SLost := S (SLost st); SMin := SMin st; SMax := SMax st; SAvg := SAvg st;
        SLast := SLast st |}, sum, ok)
  else
    ({| SN := SN st; SLost := SLost st;
        SMin := if (ok =? 0)%Z || (RTT s <? SMin st)%Z then RTT s else SMin st;
        SMax := if (SMax st <? RTT s)%Z then RTT s else SMax st;
        SAvg := SAvg st; SLast := RTT s |}, wrap64 (sum + RTT s), (ok + 1)%Z).

Definition ring_stats (r : Ring) : Stats :=
  if num r =? 0 then no_stats 0
  else
    let '(st, sum, ok) := foldl stats_step (no_stats (num r), 0%Z, 0%Z) (Samples r) in
    {| SN := SN st; SLost := SLost st; SMin := SMin st; SMax := SMax st;
       SAvg := if (0 <? ok)%Z then Z.quot sum ok else SAvg st; SLast := SLast st |}.

(** ** One probe

    What [Probe] meets, in order: whether the send failed, then per iteration
    whether the context is done, the clock for the remaining time, what the
    read gave, and the clocks read afterwards. *)
Inductive read_event :=
  | Datagram (b : chars)
  | ReadTimeout
  | ReadError (ctx_done : bool).

Record iteration := {
  it_done : bool;
  it_now : Z;
  it_read : read_event;
  it_at : Z;
  it_end : Z }.

Inductive probe_failure := ESend | ECtx | ERead.

Definition lost_sample (seq at_ : Z) : Sample := {| Seq := seq; At := at_; RTT := 0; Lost := true |}.

(** [None]: still waiting when the events end. *)
Fixpoint probe_loop (seq start_ deadline : Z) (its : list iteration) : option (result probe_failure Sample) :=
  match its with
  | [] => None
  | it :: its' =>
    if it_done it then Some (Err ECtx)
    else
      let remaining := time_sub deadline (it_now it) in
      if (remaining <=? 0)%Z then Some (Ok (lost_sample seq (it_at it)))
      else
        match it_read it with
        | ReadTimeout => Some (Ok (lost_sample seq (it_at it)))
        | ReadError true => Some (Err ECtx)
        | ReadError false => Some (Err ERead)
        | Datagram b =>
          match decodeProbe b with
          | Err _ => probe_loop seq start_ deadline its'
          | Ok gotSeq =>
            if negb (gotSeq =? seq)%Z then probe_loop seq start_ deadline its'
            else Some (Ok {| Seq := seq; At := it_at it; RTT := time_sub (it_end it) start_; Lost := false |})
          end
        end
  end.

Definition probe_timeout (t : Z) : Z := if (0 <? t)%Z then t else DefaultTimeout.

Definition Probe (timeout seq start_ : Z) (sent : bool) (its : list iteration)
    : option (result probe_failure Sample) :=
  if sent then probe_loop seq start_ (start_ + probe_timeout timeout) its else Some (Err ESend).

(** ** The manager *)
Record Target := { TIP : string; TPort : Z }.
Definition target_port (t : Target) : Z := if (0 <? TPort t)%Z then TPort t else DefaultPort.
Definition target_addr (t : Target) : string := join_host_port (TIP t) (itoa (target_port t)).

Record peerRunner := { prTarget : Target; prRing : Ring; prSampler : nat }.

(** The goroutines that are running are the samplers of [running], by the
    address they ping. *)
Record Manager := {
  mHistory : Z;
  mStarted : bool;
  mStopped : bool;
  mConn : bool;
  mPeers : gmap string peerRunner;
  running : gmap nat string;
  next_sampler : nat }.

Inductive start_error := EAlreadyStarted | EBind.

Definition set_peers (ps : gmap string peerRunner) (run : gmap nat string) (n : nat) (m : Manager) : Manager :=
  {| mHistory := mHistory m; mStarted := mStarted m; mStopped := mStopped m; mConn := mConn m;
     mPeers := ps; running := run; next_sampler := n |}.

Definition NewManager (history : Z) : Manager :=
  {| mHistory := history; mStarted := false; mStopped := false; mConn := false; mPeers := ∅; running := ∅;
     next_sampler := 0 |}.

(** [bind]: no BindAddr, or whether the listen succeeds. *)
Definition Start (bind : option bool) : action Manager start_error unit := fun m =>
  if mStarted m then (Err EAlreadyStarted, m)
  else
    let m' := {| mHistory := mHistory m; mStarted := true; mStopped := mStopped m;
                 mConn := match bind with Some true => true | _ => mConn m end;
                 mPeers := mPeers m; running := running m; next_sampler := next_sampler m |} in
    match bind with Some false => (Err EBind, m') | _ => (Ok tt, m') end.

Definition wanted (targets : list Target) : gmap string Target :=
  foldl (fun w t => if bool_decide (TIP t = "") then w else <[TIP t := t]> w) ∅ targets.

Definition cancel (ip : string) (m : Manager) : Manager :=
  match mPeers m !! ip with
  | Some pr => set_peers (delete ip (mPeers m)) (delete (prSampler pr) (running m)) (next_sampler m) m
  | None => m
  end.

Definition start_sampler (t : Target) (m : Manager) : Manager :=
  match mPeers m !! TIP t with
  | Some _ => m
  | None =>
    let id := next_sampler m in
    set_peers (<[TIP t := {| prTarget := t; prRing := NewRing (mHistory m); prSampler := id |}]> (mPeers m))
              (<[id := target_addr t]> (running m)) (S id) m
  end.

Definition SetTargets (targets : list Target) (m : Manager) : Manager :=
  if negb (mStarted m) || mStopped m then m
  else
    let w := wanted targets in
    let gone := filter (fun ip => w !! ip = None) ((map_to_list (mPeers m)).*1) in
    let m := foldl (fun m ip => cancel ip m) m gone in
    foldl (fun m t => start_sampler t m) m ((map_to_list w).*2).

Definition Stop (m : Manager) : Manager :=
  if mStopped m then m
  else
    let m := {| mHistory := mHistory m; mStarted := mStarted m; mStopped := true; mConn := mConn m;
                mPeers := mPeers m; running := running m; next_sampler := next_sampler m |} in
    let m := foldl (fun m ip => cancel ip m) m ((map_to_list (mPeers m)).*1) in
    {| mHistory := mHistory m; mStarted := mStarted m; mStopped := mStopped m; mConn := false;
       mPeers := mPeers m; running := running m; next_sampler := next_sampler m |}.

Definition Snapshot (m : Manager) : gmap string Stats := (fun pr => ring_stats (prRing pr)) <$> mPeers m.
Definition PeerSamples (ip : string) (m : Manager) : option (list Sample) :=
  (fun pr => Samples (prRing pr)) <$> mPeers m !! ip.

(** ** The packet round trip *)
Lemma get_be_app l c : get_be (l ++ [c]) = (get_be l * 256 + Z.of_N (code c))%Z.
Proof. unfold get_be. rewrite foldl_app. cbn. by rewrite Z.shiftl_mul_pow2 by lia. Qed.

Lemma code_of_mod z : Z.of_N (code (ascii_of_N (Z.to_N (z mod 256)))) = (z mod 256)%Z.
Proof.
  pose proof (Z.mod_pos_bound z 256 ltac:(lia)). unfold code. rewrite N_ascii_embedding by lia. lia.
Qed.

Lemma put_be_snoc n z : put_be (S n) z = put_be n (Z.shiftr z 8) ++ [ascii_of_N (Z.to_N (z mod 256))].
Proof.
  induction n as [|n IH]; [cbn; by rewrite Z.shiftr_0_r|].
  change (put_be (S (S n)) z) with
    (ascii_of_N (Z.to_N (Z.shiftr z (8 * Z.of_nat (S n)) mod 256)) :: put_be (S n) z).
  assert (Z.shiftr z (8 * Z.of_nat (S n)) = Z.shiftr (Z.shiftr z 8) (8 * Z.of_nat n)) as ->
    by (rewrite Z.shiftr_shiftr by lia; f_equal; lia).
  by rewrite IH.
Qed.

Lemma get_put_be n z : (0 <= z < 256 ^ Z.of_nat n)%Z -> get_be (put_be n z) = z.
Proof.
  revert z. induction n as [|n IH]; intros z Hz; [cbn in *; lia|].
  rewrite Nat2Z.inj_succ, Z.pow_succ_r in Hz by lia.
  assert (Z.shiftr z 8 = z / 256)%Z as Hz8 by (by rewrite Z.shiftr_div_pow2 by lia).
  rewrite put_be_snoc, get_be_app, code_of_mod, Hz8, IH
    by (split; [apply Z.div_pos; lia|apply Z.div_lt_upper_bound; lia]).
  pose proof (Z.div_mod z 256 ltac:(lia)). lia.
Qed.

Lemma length_put_be n z : length (put_be n z) = n.
Proof. induction n; cbn; congruence. Qed.

Lemma put_get_be l : put_be (length l) (get_be l) = l.
Proof.
  induction l as [|c l IH] using rev_ind; [done|]. rewrite length_app, Nat.add_comm. cbn [length plus].
  rewrite put_be_snoc, get_be_app. f_equal.
  - rewrite Z.shiftr_div_pow2 by lia. change (2 ^ 8)%Z with 256%Z.
    pose proof (N_ascii_bounded c). rewrite Z.div_add_l, Z.div_small by (unfold code; lia).
    by rewrite Z.add_0_r.
  - f_equal. rewrite Z.add_comm, Z.mod_add, Z.mod_small by (pose proof (N_ascii_bounded c); unfold code; lia).
    rewrite N2Z.id. apply ascii_N_embedding.
Qed.

Lemma get_be_bound l : (0 <= get_be l < 256 ^ Z.of_nat (length l))%Z.
Proof.
  induction l as [|c l IH] using rev_ind; [cbn; lia|].
  rewrite get_be_app, length_app, Nat.add_comm, Nat2Z.inj_succ, Z.pow_succ_r by lia.
  pose proof (N_ascii_bounded c). unfold code. lia.
Qed.

Lemma decodeProbe_Ok (b : chars) (seq : Z) :
  decodeProbe b = Ok seq <-> (0 <= seq < 2 ^ 64)%Z /\ exists rest, b = encodeProbe seq ++ rest.
Proof.
  unfold decodeProbe, encodeProbe. change packetLen with 13. split.
  - destruct (Nat.ltb_spec (length b) 13) as [|Hl]; [done|].
    do 13 (destruct b as [|? b]; [cbn in Hl; lia|]).
    case_bool_decide as Hm; cbn [negb]; [|done]. case_bool_decide as Hv; cbn [negb]; [|done].
    cbn in Hm, Hv. intros [= <-]. cbn [take drop]. rewrite !take_0.
    match goal with |- context [get_be ?l] => pose proof (get_be_bound l) as Hb; pose proof (put_get_be l) as Hp end.
    cbn [length] in Hb, Hp. split; [exact Hb|]. exists b. rewrite Hp.
    injection Hm as -> -> -> ->. injection Hv as Hv.
    match type of Hv with code ?c = _ => assert (c = ascii_of_N version) as ->
      by (rewrite <-Hv; symmetry; apply ascii_N_embedding) end. done.
  - intros (Hs & rest & ->). rewrite !length_app, length_put_be.
    destruct (Nat.ltb_spec (length magic + (length [ascii_of_N version] + 8) + length rest) 13) as [Hl|_];
      [cbn in Hl; lia|].
    assert (forall l, drop 5 ((magic ++ [ascii_of_N version] ++ l) ++ rest) = l ++ rest) as Hdrop by done.
    rewrite Hdrop, (take_app_le (put_be 8 seq) rest 8), (take_ge (put_be 8 seq) 8)
      by (by rewrite length_put_be).
    rewrite !bool_decide_eq_true_2 by done. cbn [negb]. by rewrite get_put_be.
Qed.

(** ** The ring as a window *)
Definition ring_ok (r : Ring) : Prop := head r < length (buf r) /\ num r <= length (buf r).

Lemma mod_wrap a c : 0 < c -> a < 2 * c -> a mod c = if a <? c then a else a - c.
Proof.
  intros Hc Ha. destruct (Nat.ltb_spec a c); [by apply Nat.mod_small|].
  symmetry. apply (Nat.mod_unique a c 1); lia.
Qed.

Lemma NewRing_ok c : ring_ok (NewRing c) /\ Samples (NewRing c) = [].
Proof.
  unfold ring_ok, NewRing. cbv zeta. cbn [buf head num].
  destruct (Z.leb_spec c 0); rewrite length_replicate; (split; [|done]);
    unfold DefaultHistory; lia.
Qed.

Lemma Add_ok s r : ring_ok r -> ring_ok (Add s r).
Proof.
  intros [H1 H2]. unfold ring_ok, Add. cbn [buf head num]. rewrite length_insert. split.
  - apply Nat.mod_upper_bound. lia.
  - destruct (Nat.ltb_spec (num r) (length (buf r))); lia.
Qed.

Lemma length_Samples r : length (Samples r) = num r.
Proof. unfold Samples. by rewrite length_fmap, length_seq. Qed.

Lemma Samples_lookup r i : i < num r -> Samples r !! i = Some (nth_sample r (start r + i)).
Proof. intros Hi. unfold Samples. by rewrite list_lookup_fmap, lookup_seq_lt. Qed.

Lemma nth_sample_Add r s i :
  ring_ok r -> nth_sample (Add s r) i =
    if bool_decide (i mod length (buf r) = head r) then s else nth_sample r i.
Proof.
  intros [H1 H2]. unfold nth_sample, Add. cbn. rewrite length_insert.
  pose proof (Nat.mod_upper_bound i (length (buf r)) ltac:(lia)).
  rewrite !nth_lookup. case_bool_decide as E.
  - by rewrite E, list_lookup_insert_eq.
  - by rewrite list_lookup_insert_ne.
Qed.

Lemma start_spec r :
  ring_ok r -> start r = if head r <? num r then head r + length (buf r) - num r else head r - num r.
Proof.
  intros [H1 H2]. unfold start. rewrite mod_wrap by lia.
  destruct (Nat.ltb_spec (head r + length (buf r) - num r) (length (buf r))),
    (Nat.ltb_spec (head r) (num r)); lia.
Qed.

(** The slot the next sample goes to is the one after the window. *)
Lemma slot_head r i :
  ring_ok r -> i <= num r ->
  (start r + i) mod length (buf r) = head r <-> i = num r \/ (i = 0 /\ num r = length (buf r)).
Proof.
  intros Hok Hi. pose proof Hok as [H1 H2]. rewrite start_spec by done.
  destruct (Nat.ltb_spec (head r) (num r)); rewrite mod_wrap by lia;
    repeat match goal with |- context [?a <? ?b] => destruct (Nat.ltb_spec a b) end; lia.
Qed.

Lemma start_Add s r :
  ring_ok r ->
  start (Add s r) = if num r <? length (buf r) then start r else (start r + 1) mod length (buf r).
Proof.
  intros Hok. pose proof Hok as [H1 H2]. pose proof (Add_ok s r Hok) as Hok'.
  rewrite (start_spec _ Hok'), (start_spec _ Hok). unfold Add. cbn [head num buf]. rewrite length_insert.
  rewrite !mod_wrap by (destruct (Nat.ltb_spec (head r) (num r)); lia).
  repeat match goal with |- context [?a <? ?b] => destruct (Nat.ltb_spec a b) end; lia.
Qed.

Lemma nth_sample_mod r i : nth_sample r (i mod length (buf r)) = nth_sample r i.
Proof. unfold nth_sample. by rewrite Nat.Div0.mod_mod. Qed.

(** Adding a sample shifts the window by one when it is full. *)
Lemma Samples_Add s r :
  ring_ok r ->
  Samples (Add s r) = (if num r <? length (buf r) then Samples r else drop 1 (Samples r)) ++ [s].
Proof.
  intros Hok. pose proof Hok as [H1 H2]. set (c := length (buf r)) in *.
  assert (num (Add s r) = if num r <? c then num r + 1 else num r) as Hn by done.
  set (w := if num r <? c then Samples r else drop 1 (Samples r)).
  assert (length w = num (Add s r) - 1 /\ 0 < num (Add s r)) as [Hw Hpos].
  { unfold w. rewrite Hn. destruct (Nat.ltb_spec (num r) c); rewrite ?length_drop, length_Samples; lia. }
  apply list_eq. intros i. destruct (Nat.lt_ge_cases i (num (Add s r))) as [Hi|Hi].
  2:{ rewrite !lookup_ge_None_2; [done|rewrite length_app, Hw; cbn [length]; lia|by rewrite length_Samples]. }
  rewrite Samples_lookup, nth_sample_Add, start_Add by done. fold c. clear Hw Hpos. revert Hi.
  rewrite Hn. unfold w. destruct (Nat.ltb_spec (num r) c) as [E|E]; intros Hi.
  - destruct (decide (i = num r)) as [->|Hne].
    + rewrite bool_decide_eq_true_2 by (apply slot_head; auto).
      rewrite lookup_app_r, length_Samples, Nat.sub_diag by (rewrite length_Samples; lia). done.
    + rewrite bool_decide_eq_false_2 by (unfold c; rewrite slot_head by (done || lia); fold c; lia).
      rewrite lookup_app_l by (rewrite length_Samples; lia). rewrite Samples_lookup by lia. done.
  - assert (((start r + 1) mod c + i) mod c = (start r + S i) mod c) as Hmod
      by (rewrite Nat.Div0.add_mod_idemp_l; f_equal; lia).
    rewrite Hmod. assert (nth_sample r ((start r + 1) mod c + i) = nth_sample r (start r + S i)) as ->.
    { rewrite <-(nth_sample_mod r ((start r + 1) mod c + i)). fold c. rewrite Hmod. apply nth_sample_mod. }
    destruct (decide (S i = num r)) as [Hl|Hne].
    + rewrite bool_decide_eq_true_2 by (apply slot_head; auto; lia).
      rewrite lookup_app_r, length_drop, length_Samples by (rewrite length_drop, length_Samples; lia).
      replace (i - (num r - 1)) with 0 by lia. done.
    + rewrite bool_decide_eq_false_2 by (unfold c; rewrite slot_head by (done || lia); fold c; lia).
      rewrite lookup_app_l by (rewrite length_drop, length_Samples; lia).
      rewrite lookup_drop, Samples_lookup by lia. done.
Qed.

Lemma ring_window r l0 l :
  ring_ok r -> Samples r = lastn (Cap r) l0 ->
  let r' := foldl (fun r s => Add s r) r l in
  ring_ok r' /\ Cap r' = Cap r /\ Samples r' = lastn (Cap r) (l0 ++ l).
Proof.
  revert r l0. induction l as [|s l IH]; intros r l0 Hok Hr; cbn [foldl]; [by rewrite app_nil_r|].
  assert (Cap (Add s r) = Cap r) as Hc by apply length_insert.
  rewrite cons_middle, app_assoc, <-Hc. apply IH; [by apply Add_ok|].
  rewrite Hc, Samples_Add by done. pose proof (length_Samples r) as Hlen. rewrite Hr in Hlen |- *.
  unfold lastn in *. fold (Cap r). rewrite length_drop in Hlen. rewrite length_app. cbn [length].
  destruct Hok as [H1 H2]. fold (Cap r) in H1, H2.
  destruct (Nat.ltb_spec (num r) (Cap r)).
  - replace (length l0 - Cap r) with 0 by lia. replace (length l0 + 1 - Cap r) with 0 by lia. done.
  - rewrite drop_drop. replace (length l0 + 1 - Cap r) with (length l0 - Cap r + 1) by lia.
    rewrite drop_app_le by lia. done.
Qed.

Lemma ring_window_new capacity l :
  let cap := Z.to_nat (if (capacity <=? 0)%Z then DefaultHistory else capacity) in
  let r := foldl (fun r s => Add s r) (NewRing capacity) l in
  Samples r = lastn cap l /\ Last r = last l /\ Len r = Nat.min (length l) cap /\ Cap r = cap.
Proof.
  intros cap r. destruct (NewRing_ok capacity) as [Hok0 Hs0].
  assert (Cap (NewRing capacity) = cap) as Hc0 by (unfold Cap, NewRing; cbn; apply length_replicate).
  destruct (ring_window (NewRing capacity) [] l Hok0) as (Hok & Hc & Hs); [done|].
  fold r in Hok, Hc, Hs. cbn [app] in Hs. rewrite Hc0 in Hc, Hs. clearbody r.
  assert (Len r = Nat.min (length l) (cap)) as Hlen.
  { unfold Len. rewrite <-length_Samples, Hs. unfold lastn. rewrite length_drop. lia. }
  split_and!; [done| |done|done].
  assert (0 < cap) as Hpos by (rewrite <-Hc; destruct Hok; unfold Cap; lia).
  unfold Last. destruct (Nat.eqb_spec (num r) 0) as [E|E].
  - unfold Len in Hlen. destruct l; [done|]. cbn [length] in Hlen. lia.
  - pose proof (Samples_lookup r (num r - 1) ltac:(lia)) as Hl. rewrite Hs in Hl.
    unfold lastn in Hl. unfold Len in Hlen. rewrite lookup_drop in Hl.
    rewrite last_lookup. replace (Nat.pred (length l)) with (length l - cap + (num r - 1)) by lia.
    rewrite Hl. f_equal. rewrite <-(nth_sample_mod r (start r + _)), <-(nth_sample_mod r (head r + _ - _)).
    f_equal. destruct Hok as [H1 H2]. fold (Cap r) in *. rewrite start_spec by done. fold (Cap r).
    destruct (Nat.ltb_spec (head r) (num r)); rewrite !mod_wrap by lia;
      repeat match goal with |- context [?a <? ?b] => destruct (Nat.ltb_spec a b) end; lia.
Qed.

(** The ring is a sliding window: after any samples were added to a new
    ring, [Samples] is the last [Cap] of them, oldest first, [Last] the newest
    and [Len] their number; a capacity that is not positive means the default. *)
Theorem ring_refines_window (capacity : Z) (l : list Sample) :
  let cap := if (capacity <=? 0)%Z then DefaultHistory else capacity in
  let r := foldl (fun r s => Add s r) (NewRing capacity) l in
  Samples r = lastn (Z.to_nat cap) l /\ Last r = last l /\
  Len r = Nat.min (length l) (Z.to_nat cap) /\ Cap r = Z.to_nat cap.
Proof. apply ring_window_new. Qed.

(** ** One probe *)

(** A probe is only answered by its own echo. A sample that is not lost
    comes from a datagram received before the deadline that carries exactly
    this probe's sequence number, all datagrams before it being junk or late
    echoes; its RTT is the time from the send to that read. A lost sample
    means the deadline passed or the read timed out, which is never an error;
    an error means the send failed, the context ended or the socket failed. *)
Theorem Probe_own_echo (timeout seq start_ : Z) (sent : bool) (its : list iteration)
    (r : result probe_failure Sample) :
  Probe timeout seq start_ sent its = Some r ->
  let deadline := (start_ + probe_timeout timeout)%Z in
  let other it := it_done it = false /\ exists b, it_read it = Datagram b /\ decodeProbe b <> Ok seq in
  match r with
  | Err ESend => sent = false
  | _ => exists its1 it its2, its = its1 ++ it :: its2 /\ Forall other its1 /\
    match r with
    | Ok s =>
      Seq s = seq /\ At s = it_at it /\ it_done it = false /\
      if Lost s
      then RTT s = 0%Z /\ ((time_sub deadline (it_now it) <= 0)%Z \/ it_read it = ReadTimeout)
      else RTT s = time_sub (it_end it) start_ /\ (0 < time_sub deadline (it_now it))%Z /\
           exists b, it_read it = Datagram b /\ decodeProbe b = Ok seq
    | Err ECtx => it_done it = true \/ it_read it = ReadError true
    | Err _ => it_read it = ReadError false
    end
  end.
Proof.
  unfold Probe. destruct sent; [|by intros [= <-]]. generalize (start_ + probe_timeout timeout)%Z as deadline.
  intros deadline Hrun. cbv zeta.
  set (other := fun it => it_done it = false /\ exists b, it_read it = Datagram b /\ decodeProbe b <> Ok seq).
  assert (exists its1 it its2, its = its1 ++ it :: its2 /\ Forall other its1 /\
    probe_loop seq start_ deadline [it] = Some r) as (its1 & it & its2 & -> & Ho & Hit).
  { induction its as [|it its IH]; cbn [probe_loop] in Hrun; [done|].
    destruct (it_done it) eqn:Ed; [exists [], it, its; split_and!; [done..|]; cbn; by rewrite Ed|].
    destruct (Z.leb_spec (time_sub deadline (it_now it)) 0) as [Hd|Hd];
      [exists [], it, its; split_and!; [done..|]; cbn; rewrite Ed; by destruct (Z.leb_spec (time_sub deadline (it_now it)) 0); [|lia]|].
    destruct (it_read it) as [b| |c] eqn:Er.
    2,3: exists [], it, its; split_and!; [done..|]; cbn; rewrite Ed, Er;
      by destruct (Z.leb_spec (time_sub deadline (it_now it)) 0); [lia|].
    assert (decodeProbe b <> Ok seq -> probe_loop seq start_ deadline its = Some r ->
      exists its1 it0 its2, it :: its = its1 ++ it0 :: its2 /\ Forall other its1 /\
        probe_loop seq start_ deadline [it0] = Some r) as Hskip.
    { intros Hb Hr. destruct (IH Hr) as (l1 & it0 & l2 & -> & Hf & H0).
      exists (it :: l1), it0, l2. split_and!; [done| |done]. constructor; [|done].
      split; [done|by exists b]. }
    destruct (decodeProbe b) as [got|e] eqn:Eb; [|by apply Hskip].
    destruct (Z.eqb_spec got seq) as [->|Hne]; cbn [negb] in Hrun; [|apply Hskip; congruence].
    exists [], it, its. split_and!; [done..|]. cbn. rewrite Ed, Er, Eb, Z.eqb_refl. cbn [negb].
    by destruct (Z.leb_spec (time_sub deadline (it_now it)) 0); [lia|]. }
  cbn [probe_loop] in Hit.
  assert (match r with
    | Ok s => Seq s = seq /\ At s = it_at it /\ it_done it = false /\
      if Lost s
      then RTT s = 0%Z /\ ((time_sub deadline (it_now it) <= 0)%Z \/ it_read it = ReadTimeout)
      else RTT s = time_sub (it_end it) start_ /\ (0 < time_sub deadline (it_now it))%Z /\
           exists b, it_read it = Datagram b /\ decodeProbe b = Ok seq
    | Err ECtx => it_done it = true \/ it_read it = ReadError true
    | Err ESend => False
    | Err ERead => it_read it = ReadError false
    end) as Hcase.
  { destruct (it_done it); [injection Hit as <-; by left|].
    destruct (Z.leb_spec (time_sub deadline (it_now it)) 0); [injection Hit as <-; cbn; auto 10|].
    destruct (it_read it) as [b| |[]]; [|injection Hit as <-; cbn; auto 10..].
    destruct (decodeProbe b) as [got|] eqn:Eb; [|done].
    destruct (Z.eqb_spec got seq) as [->|]; [|done]. injection Hit as <-. cbn. split_and!; eauto. }
  destruct r as [s|[]]; [| |by exists its1, it, its2..]; [by exists its1, it, its2|done].
Qed.

(** ** The samplers *)

(** The goroutines that run are exactly the registered samplers, at their
    targets' addresses. *)
Definition manager_ok (m : Manager) : Prop :=
  (forall ip pr, mPeers m !! ip = Some pr ->
     prSampler pr < next_sampler m /\ TIP (prTarget pr) = ip /\
     running m !! prSampler pr = Some (target_addr (prTarget pr))) /\
  (forall id a, running m !! id = Some a ->
     id < next_sampler m /\ exists ip pr, mPeers m !! ip = Some pr /\ prSampler pr = id) /\
  (forall ip1 ip2 pr1 pr2, mPeers m !! ip1 = Some pr1 -> mPeers m !! ip2 = Some pr2 ->
     prSampler pr1 = prSampler pr2 -> ip1 = ip2).

Lemma cancel_ok ip m : manager_ok m -> manager_ok (cancel ip m).
Proof.
  intros (H1 & H2 & H3). unfold cancel. destruct (mPeers m !! ip) as [pr|] eqn:E; [|done].
  split_and!; cbn.
  - intros ip' pr' [Hne Hp]%lookup_delete_Some. destruct (H1 _ _ Hp) as (? & ? & Hr). split_and!; [done..|].
    apply lookup_delete_Some. split; [|done]. intros Heq. apply Hne. by eapply H3.
  - intros id a [Hne Hr]%lookup_delete_Some. destruct (H2 _ _ Hr) as (? & ip' & pr' & Hp & <-).
    split; [done|]. exists ip', pr'. split; [|done]. apply lookup_delete_Some. split; [|done].
    intros <-. apply Hne. congruence.
  - intros ip1 ip2 pr1 pr2 [_ Hp1]%lookup_delete_Some [_ Hp2]%lookup_delete_Some. by eapply H3.
Qed.

Lemma cancel_peers ip m : mPeers (cancel ip m) = delete ip (mPeers m).
Proof. unfold cancel. destruct (mPeers m !! ip) eqn:E; [done|]. by rewrite delete_id. Qed.

Lemma cancel_flags ip m :
  mStarted (cancel ip m) = mStarted m /\ mStopped (cancel ip m) = mStopped m /\
  mHistory (cancel ip m) = mHistory m.
Proof. unfold cancel. by destruct (mPeers m !! ip). Qed.

Lemma start_sampler_ok t m : manager_ok m -> manager_ok (start_sampler t m).
Proof.
  intros (H1 & H2 & H3). unfold start_sampler. destruct (mPeers m !! TIP t) as [pr|] eqn:E; [done|].
  split_and!; cbn.
  - intros ip pr [[<- <-]|[Hne Hp]]%lookup_insert_Some.
    + cbn. split_and!; [lia|done|apply lookup_insert_eq].
    + destruct (H1 _ _ Hp) as (? & ? & ?). split_and!; [lia|done|]. by rewrite lookup_insert_ne by lia.
  - intros id a [[<- <-]|[Hne Hr]]%lookup_insert_Some.
    + split; [lia|]. eexists _, _. split; [apply lookup_insert_eq|done].
    + destruct (H2 _ _ Hr) as (? & ip & pr & Hp & <-). split; [lia|]. exists ip, pr. split; [|done].
      rewrite lookup_insert_ne; [done|]. intros <-. congruence.
  - intros ip1 ip2 pr1 pr2 [[<- <-]|[Hne1 Hp1]]%lookup_insert_Some
      [[<- <-]|[Hne2 Hp2]]%lookup_insert_Some; cbn; [done| | |by eapply H3].
    + intros Hs. destruct (H1 _ _ Hp2) as (? & _). lia.
    + intros Hs. destruct (H1 _ _ Hp1) as (? & _). lia.
Qed.

Lemma start_sampler_peers t m ip :
  mPeers (start_sampler t m) !! ip =
    match mPeers m !! ip with
    | Some pr => Some pr
    | None => if bool_decide (TIP t = ip)
              then Some {| prTarget := t; prRing := NewRing (mHistory m); prSampler := next_sampler m |}
              else None
    end.
Proof.
  unfold start_sampler. destruct (mPeers m !! TIP t) as [pr|] eqn:E.
  - destruct (mPeers m !! ip) eqn:E'; [done|]. case_bool_decide; [congruence|done].
  - cbn. destruct (decide (TIP t = ip)) as [<-|Hne].
    + by rewrite lookup_insert_eq, E, bool_decide_eq_true_2.
    + rewrite lookup_insert_ne by done. destruct (mPeers m !! ip); [done|].
      by rewrite bool_decide_eq_false_2.
Qed.

Lemma cancel_all ips m :
  manager_ok m -> let m' := foldl (fun m ip => cancel ip m) m ips in
  manager_ok m' /\ (forall ip, mPeers m' !! ip = if bool_decide (ip ∈ ips) then None else mPeers m !! ip) /\
  mStarted m' = mStarted m /\ mStopped m' = mStopped m.
Proof.
  revert m. induction ips as [|ip ips IH]; intros m Hm; cbn [foldl].
  { split_and!; [done| |done|done]. intros ip. by rewrite bool_decide_eq_false_2 by apply not_elem_of_nil. }
  destruct (IH (cancel ip m) (cancel_ok _ _ Hm)) as (H1 & H2 & H3 & H4).
  destruct (cancel_flags ip m) as (F1 & F2 & _). split_and!; [done| |congruence|congruence].
  intros ip'. rewrite H2, cancel_peers. destruct (decide (ip' = ip)) as [->|Hne].
  - rewrite lookup_delete_eq, (bool_decide_eq_true_2 (ip ∈ ip :: ips)) by apply list_elem_of_here.
    by case_bool_decide.
  - rewrite lookup_delete_ne by congruence.
    by rewrite (bool_decide_ext (ip' ∈ ip :: ips) (ip' ∈ ips)) by set_solver.
Qed.

Lemma start_all ts m :
  manager_ok m -> let m' := foldl (fun m t => start_sampler t m) m ts in
  manager_ok m' /\
  (forall ip pr, mPeers m !! ip = Some pr -> mPeers m' !! ip = Some pr) /\
  (forall ip, is_Some (mPeers m' !! ip) <-> is_Some (mPeers m !! ip) \/ exists t, t ∈ ts /\ TIP t = ip) /\
  mStarted m' = mStarted m /\ mStopped m' = mStopped m.
Proof.
  revert m. induction ts as [|t ts IH]; intros m Hm; cbn [foldl].
  { split_and!; [done..| |done|done]. intros ip. split; [auto|]. intros [?|(t & Ht & _)]; [done|].
    by apply elem_of_nil in Ht. }
  destruct (IH (start_sampler t m) (start_sampler_ok _ _ Hm)) as (H1 & H2 & H3 & H4 & H5).
  split_and!; [done| | |rewrite H4|rewrite H5]; [| |unfold start_sampler; by destruct (mPeers m !! TIP t)..].
  - intros ip pr Hp. apply H2. by rewrite start_sampler_peers, Hp.
  - intros ip. rewrite H3, start_sampler_peers. split.
    + intros [Hs|(t' & Ht' & <-)]; [|right; exists t'; set_solver].
      destruct (mPeers m !! ip); [by left|]. case_bool_decide; [|by destruct Hs].
      right. exists t. set_solver.
    + intros [[pr ->]|(t' & [->|Ht']%elem_of_cons & <-)]; [left; eauto| |right; eauto].
      left. destruct (mPeers m !! TIP t); [eauto|]. rewrite bool_decide_eq_true_2 by done. eauto.
Qed.

Lemma wanted_spec ts ip t :
  wanted ts !! ip = Some t -> ip <> "" /\ TIP t = ip /\ t ∈ ts.
Proof.
  unfold wanted. induction ts as [|t' ts IH] using rev_ind; [done|].
  rewrite foldl_app. cbn. case_bool_decide as E.
  - intros (? & ? & ?)%IH. set_solver.
  - intros [[<- <-]|[Hne (? & ? & ?)%IH]]%lookup_insert_Some; set_solver.
Qed.
Lemma wanted_is_Some ts ip : is_Some (wanted ts !! ip) <-> ip <> "" /\ exists t, t ∈ ts /\ TIP t = ip.
Proof.
  split; [intros [t Ht]; apply wanted_spec in Ht; naive_solver|].
  intros (Hne & t & Ht & Hip). unfold wanted. induction ts as [|t' ts IH] using rev_ind; [by apply elem_of_nil in Ht|].
  rewrite foldl_app. cbn. apply elem_of_app in Ht as [Ht|Ht].
  - case_bool_decide; [auto|]. destruct (decide (TIP t' = ip)) as [->|]; [by rewrite lookup_insert_eq|].
    rewrite lookup_insert_ne by done. auto.
  - apply list_elem_of_singleton in Ht as ->. rewrite bool_decide_eq_false_2 by congruence.
    rewrite Hip. by rewrite lookup_insert_eq.
Qed.

Lemma Stop_clean m :
  manager_ok m -> mStopped m = false ->
  running (Stop m) = ∅ /\ mPeers (Stop m) = ∅ /\ mStopped (Stop m) = true.
Proof.
  intros Hm Hs. unfold Stop. rewrite Hs.
  set (m0 := {| mStopped := true |}). assert (manager_ok m0) as Hm0 by done.
  destruct (cancel_all ((map_to_list (mPeers m0)).*1) m0 Hm0) as ((_ & H2 & _) & Hp & _ & Ht).
  set (m1 := foldl _ m0 _) in *. cbn [running mPeers mStopped].
  assert (mPeers m1 = ∅) as E1.
  { apply map_eq. intros ip. rewrite Hp, lookup_empty. case_bool_decide as Hin; [done|].
    destruct (mPeers m0 !! ip) as [pr|] eqn:E; [|done]. exfalso. apply Hin.
    apply list_elem_of_fmap. exists (ip, pr). split; [done|]. by apply elem_of_map_to_list. }
  split_and!; [|done|done]. apply map_eq. intros id. rewrite lookup_empty.
  destruct (running m1 !! id) as [a|] eqn:E; [|done].
  destruct (H2 _ _ E) as (_ & ip & pr & Hpr & _). by rewrite E1 in Hpr.
Qed.

Lemma SetTargets_ok targets m :
  manager_ok m -> mStarted m = true -> mStopped m = false ->
  let m' := SetTargets targets m in
  manager_ok m' /\
  (forall ip, is_Some (mPeers m' !! ip) <-> ip <> "" /\ exists t, t ∈ targets /\ TIP t = ip) /\
  (forall ip pr, mPeers m !! ip = Some pr -> is_Some (mPeers m' !! ip) -> mPeers m' !! ip = Some pr) /\
  mStopped m' = false /\ mStarted m' = true.
Proof.
  intros Hm Hstart Hstop m'.
  set (gone := filter (fun ip => wanted targets !! ip = None) ((map_to_list (mPeers m)).*1)).
  destruct (cancel_all gone m Hm) as (Hm1 & Hp1 & Hs1 & Ht1).
  set (m1 := foldl (fun m ip => cancel ip m) m gone) in *.
  destruct (start_all ((map_to_list (wanted targets)).*2) m1 Hm1) as (Hm2 & Hk2 & Hp2 & Hg2 & Hf2).
  assert (m' = foldl (fun m t => start_sampler t m) m1 (map_to_list (wanted targets)).*2) as Em'.
  { unfold m', SetTargets. rewrite Hstart, Hstop. done. }
  rewrite <-Em' in Hm2, Hk2, Hp2, Hg2, Hf2. rewrite Ht1, Hstop in Hf2. rewrite Hs1, Hstart in Hg2.
  assert (forall ip, is_Some (mPeers m' !! ip) <-> is_Some (wanted targets !! ip)) as Hdom.
  { intros ip. rewrite Hp2, Hp1. split.
    - intros [Hs|(t & Ht & <-)].
      + case_bool_decide as Hg; [by destruct Hs|]. destruct (wanted targets !! ip) eqn:Ew; [done|].
        exfalso. apply Hg. apply list_elem_of_filter. split; [done|]. destruct Hs as [pr Hpr].
        apply list_elem_of_fmap. exists (ip, pr). split; [done|]. by apply elem_of_map_to_list.
      + apply list_elem_of_fmap in Ht as ([ip t'] & -> & Ht%elem_of_map_to_list). cbn.
        destruct (wanted_spec _ _ _ Ht) as (_ & -> & _). eauto.
    - intros [t Ht]. right. exists t. destruct (wanted_spec _ _ _ Ht) as (_ & Hip & _). split; [|done].
      apply list_elem_of_fmap. exists (ip, t). split; [done|]. by apply elem_of_map_to_list. }
  split_and!; [done| | |done|].
  - intros ip. by rewrite Hdom, wanted_is_Some.
  - intros ip pr Hpr Hs. apply Hk2. rewrite Hp1. rewrite bool_decide_eq_false_2; [done|].
    intros [Hw _]%list_elem_of_filter. apply Hdom in Hs. rewrite Hw in Hs. by destruct Hs.
  - done.
Qed.


Definition idle : Manager :=
  {| mHistory := 8; mStarted := true; mStopped := false; mConn := true;
     mPeers := ∅; running := ∅; next_sampler := 0 |}.

