(* ===== verification/PingLoops.v ===== *)
(** The goroutines of internal/peerping: the responder's read loop
    (responder.go) and the sampler of one peer (pinger.go), as functions of
    what their sockets, clocks and contexts give them. *)
From stdpp Require Import base tactics list gmap strings.
From Stdlib Require Import ZArith Ascii Lia.
From S2P Require Import Prelude GoStr.
From S2P Require Import PeerPing.
Local Open Scope list_scope.

(** The buffer of a read: what a longer datagram has beyond it is lost. *)
Definition read_buffer : nat := Z.to_nat 1500.

(** ** The responder *)

(** What one iteration of [Serve] meets: the context is done at its top, the
    read's deadline passes, the read fails (with the context done or not), or a
    datagram arrives. *)
Inductive serve_event :=
  | CtxDone
  | Idle
  | ReadFails (ctx_done : bool)
  | Arrives (b : chars) (from : string).

Inductive serve_result := SCtxErr | SReadErr.

Definition ctxErr (ctx_done : bool) : serve_result := if ctx_done then SCtxErr else SReadErr.

(** The echoes written, with their destinations, and how the loop ended;
    [None]: it still runs. Whether a write succeeds makes no difference. *)
Fixpoint Serve (evs : list serve_event) : list (chars * string) * option serve_result :=
  match evs with
  | [] => ([], None)
  | CtxDone :: _ => ([], Some SCtxErr)
  | Idle :: evs' => Serve evs'
  | ReadFails c :: _ => ([], Some (ctxErr c))
  | Arrives b from :: evs' =>
    match echo (take read_buffer b) with
    | None => Serve evs'
    | Some b => let '(out, r) := Serve evs' in ((b, from) :: out, r)
    end
  end.

(** [bind]: net.ListenPacket succeeds. *)
Definition ListenAndServe (bind : bool) (evs : list serve_event) : option (list (chars * string) * option serve_result) :=
  if bind then Some (Serve evs) else None.

(** ** The sampler *)

(** One call of the closure [probe] of [Run]: what [Probe] meets, whether the
    context is done when its error is looked at, and the clock for the sample of
    a failed probe. *)
Record probe_call := {
  pc_start : Z;
  pc_sent : bool;
  pc_its : list iteration;
  pc_ctx_done : bool;
  pc_now : Z }.

Inductive sampling := Sampled (s : Sample) | Skipped | Waiting.

Definition probe (timeout seq : Z) (p : probe_call) : sampling :=
  match Probe timeout seq (pc_start p) (pc_sent p) (pc_its p) with
  | None => Waiting
  | Some (Ok s) => Sampled s
  | Some (Err _) => if pc_ctx_done p then Skipped else Sampled (lost_sample seq (pc_now p))
  end.

Inductive run_event := Tick (p : probe_call) | Done.
Inductive run_end := REnded | RResolve | RListen | RWaiting | RRunning.

(** The loop of [Run], the first probe being its first tick; seq is uint64. *)
Fixpoint run_loop (timeout : Z) (evs : list run_event) (seq : Z) (ring : Ring) : Ring * run_end :=
  match evs with
  | [] => (ring, RRunning)
  | Done :: _ => (ring, REnded)
  | Tick p :: evs' =>
    let seq := ((seq + 1) mod 2 ^ 64)%Z in
    match probe timeout seq p with
    | Waiting => (ring, RWaiting)
    | Skipped => run_loop timeout evs' seq ring
    | Sampled s => run_loop timeout evs' seq (Add s ring)
    end
  end.

Definition Run (resolves binds : bool) (timeout : Z) (first : probe_call) (evs : list run_event) (ring : Ring)
    : Ring * run_end :=
  if negb resolves then (ring, RResolve)
  else if negb binds then (ring, RListen)
  else run_loop timeout (Tick first :: evs) 0 ring.

(** ** Theorems *)
Definition valid_probe (e : serve_event) : option (chars * string) :=
  match e with
  | Arrives b from => if is_ok (decodeProbe (take read_buffer b)) then Some (take read_buffer b, from) else None
  | _ => None
  end.
Definition ends (e : serve_event) : bool := match e with CtxDone | ReadFails _ => true | _ => false end.

Lemma Serve_echoes evs :
  Forall (fun e => ends e = false) evs -> Serve evs = (omap valid_probe evs, None).
Proof.
  induction 1 as [|e evs He Hevs IH]; [done|]. cbn. destruct e as [| |c|b from]; try done.
  cbn. unfold echo. destruct (decodeProbe _); cbn; [by rewrite IH|done].
Qed.

Lemma Serve_app evs1 evs2 :
  Forall (fun e => ends e = false) evs1 ->
  Serve (evs1 ++ evs2) = ((omap valid_probe evs1) ++ (Serve evs2).1, (Serve evs2).2).
Proof.
  induction 1 as [|e evs He Hevs IH]; [cbn; by destruct (Serve evs2)|].
  cbn. destruct e as [| |c|b from]; try done. cbn. unfold echo. destruct (decodeProbe _); cbn; [by rewrite IH|done].
Qed.

(** The sample the [i]-th probe of a run leaves. *)
Definition sample_of (timeout : Z) (i : nat) (p : probe_call) : Sample :=
  match probe timeout (Z.of_nat (S i)) p with
  | Sampled s => s
  | _ => lost_sample (Z.of_nat (S i)) (pc_now p)
  end.
Definition answered (timeout seq : Z) (p : probe_call) : bool :=
  match probe timeout seq p with Sampled _ => true | _ => false end.

Lemma run_loop_samples timeout ps evs k ring :
  (Z.of_nat (k + length ps) < 2 ^ 64)%Z ->
  (forall i p, ps !! i = Some p -> answered timeout (Z.of_nat (S (k + i))) p = true) ->
  run_loop timeout ((Tick <$> ps) ++ evs) (Z.of_nat k) ring =
  run_loop timeout evs (Z.of_nat (k + length ps))
    (foldl (fun r s => Add s r) ring (imap (fun i => sample_of timeout (k + i)) ps)).
Proof.
  revert k ring. induction ps as [|p ps IH]; intros k ring Hb Ha; cbn [length] in *.
  { by rewrite Nat.add_0_r. }
  cbn [fmap list_fmap app run_loop imap foldl].
  replace ((Z.of_nat k + 1) mod 2 ^ 64)%Z with (Z.of_nat (S k)) by (rewrite Z.mod_small; lia).
  pose proof (Ha 0 p eq_refl) as H0. rewrite Nat.add_0_r in H0. unfold answered in H0.
  assert (exists s, probe timeout (Z.of_nat (S k)) p = Sampled s /\ sample_of timeout (k + 0) p = s) as (s & Hs & Es).
  { unfold sample_of. rewrite Nat.add_0_r. destruct (probe timeout (Z.of_nat (S k)) p); eauto; done. }
  rewrite Hs, Es.
  rewrite IH; [|lia|intros i q Hi; specialize (Ha (S i) q Hi); by rewrite Nat.add_succ_r in Ha].
  rewrite Nat.add_succ_r. do 2 f_equal. apply imap_ext. intros i q _. cbn. by rewrite Nat.add_succ_r.
Qed.

(** The sampler's history. While the context lasts and every probe comes to
    an end, each tick leaves exactly one sample: the ring then holds the last
    [Cap] of them, numbered consecutively from 1, whatever went wrong with some
    of them - a failed send or read is a lost sample and the sampling goes on.
    A sample that is not lost was measured from a datagram that carries its own
    number. [Run] ends with the context and not before. *)
Theorem Run_history (capacity timeout : Z) (first : probe_call) (ps : list probe_call) :
  let calls := first :: ps in
  (Z.of_nat (length calls) < 2 ^ 64)%Z ->
  (forall i p, calls !! i = Some p -> answered timeout (Z.of_nat (S i)) p = true) ->
  let samples := imap (sample_of timeout) calls in
  let cap := Z.to_nat (if (capacity <=? 0)%Z then DefaultHistory else capacity) in
  let '(ring, e) := Run true true timeout first ((Tick <$> ps) ++ [Done]) (NewRing capacity) in
  e = REnded /\ Samples ring = lastn cap samples /\ Last ring = last samples /\
  forall i p, calls !! i = Some p ->
    exists s, samples !! i = Some s /\ Seq s = Z.of_nat (S i) /\
      (Lost s = false -> exists it b, it ∈ pc_its p /\ it_read it = Datagram b /\
         decodeProbe b = Ok (Z.of_nat (S i)) /\ RTT s = time_sub (it_end it) (pc_start p)).
Proof.
  intros calls Hb Ha samples cap. unfold Run. cbn [negb].
  change (Tick first :: (Tick <$> ps) ++ [Done]) with ((Tick <$> calls) ++ [Done]).
  pose proof (run_loop_samples timeout calls [Done] 0 (NewRing capacity)) as Hr. cbn [plus] in Hr. change (Z.of_nat 0) with 0%Z in Hr.
  rewrite Hr by done. cbn [run_loop]. change (imap (fun i => sample_of timeout i) calls) with samples.
  destruct (ring_window_new capacity samples) as (Hs & Hl & _). split_and!; [done|exact Hs|exact Hl|].
  intros i p Hi. exists (sample_of timeout i p). unfold samples. rewrite list_lookup_imap, Hi.
  split; [done|]. specialize (Ha i p Hi). unfold answered, sample_of, probe in *.
  destruct (Probe timeout (Z.of_nat (S i)) _ _ _) as [r|] eqn:Ep; [|done].
  apply Probe_own_echo in Ep. destruct r as [s|e].
  - destruct Ep as (its1 & it & its2 & -> & _ & Hq & _ & _ & Hl'). split; [done|]. intros E. rewrite E in Hl'.
    destruct Hl' as (Hrtt & _ & b & Hread & Hdec). exists it, b. split_and!; try done. set_solver.
  - destruct (pc_ctx_done p); [done|]. by split.
Qed.

(** The responder reflects probes and nothing else. As long as its read loop
    is not ended by the context or a failed read, it sends back, in order and
    each to its own source, exactly the datagrams that start with the encoding of
    a 64-bit number - byte for byte, up to the size of its buffer - and drops
    every other one. What comes after such a stretch does not change it, and the
    loop ends only with the context's error or a failed read. *)
Theorem Serve_reflects (evs rest : list serve_event) :
  Forall (fun e => ends e = false) evs ->
  exists out, Serve evs = (out, None) /\
    (Serve (evs ++ rest)).1 = out ++ (Serve rest).1 /\ (Serve (evs ++ rest)).2 = (Serve rest).2 /\
    forall b from, (b, from) ∈ out <->
      exists raw seq tail, Arrives raw from ∈ evs /\ b = take read_buffer raw /\
        (0 <= seq < 2 ^ 64)%Z /\ b = encodeProbe seq ++ tail.
Proof.
  intros He. exists (omap valid_probe evs). rewrite (Serve_app evs rest He). split_and!; [by apply Serve_echoes|done..|].
  intros b from. rewrite list_elem_of_omap. split.
  - intros (e & Hin & Hv). destruct e as [| |c|raw f]; try done. cbn in Hv.
    destruct (decodeProbe (take read_buffer raw)) as [seq|] eqn:Ed; [|done]. injection Hv as <- <-.
    apply decodeProbe_Ok in Ed as (Hs & tail & E). by exists raw, seq, tail.
  - intros (raw & seq & tail & Hin & -> & Hs & E). exists (Arrives raw from). split; [done|]. cbn.
    assert (decodeProbe (take read_buffer raw) = Ok seq) as -> by (apply decodeProbe_Ok; eauto). done.
Qed.

(** ** A run *)
Module Pings.
Definition own (n : Z) : probe_call :=
  {| pc_start := 100; pc_sent := true; pc_ctx_done := false; pc_now := 0;
     pc_its := [ {| it_done := false; it_now := 110; it_read := Datagram (encodeProbe n); it_at := 120; it_end := 131 |} ] |}.
Definition unsent : probe_call :=
  {| pc_start := 100; pc_sent := false; pc_ctx_done := false; pc_now := 140; pc_its := [] |}.
Definition traffic : list serve_event := [Idle; Arrives (s2l "junk") "a:1"; Arrives (encodeProbe 5) "b:2"].
End Pings.

Lemma Run_history_witness :
  Samples (Run true true 0 (Pings.own 1) ((Tick <$> [Pings.unsent; Pings.own 3]) ++ [Done]) (NewRing 2)).1 =
    [lost_sample 2 140; {| Seq := 3; At := 120; RTT := 31; Lost := false |}] /\
  (Run true true 0 (Pings.own 1) ((Tick <$> [Pings.unsent; Pings.own 3]) ++ [Done]) (NewRing 2)).2 = REnded.
Proof.
  split; [vm_compute; reflexivity|].
  pose proof (Run_history 2 0 (Pings.own 1) [Pings.unsent; Pings.own 3]) as H.
  destruct (Run _ _ _ _ _ _) as [ring e]. apply H; [reflexivity|].
  intros [|[|[|i]]] p Hp; [injection Hp as <-; vm_compute; reflexivity..|discriminate].
Defined.

Lemma Serve_reflects_witness :
  Serve Pings.traffic = ([(encodeProbe 5, "b:2")], None) /\ (encodeProbe 5, "b:2") ∈ (Serve Pings.traffic).1.
Proof.
  split; [vm_compute; reflexivity|].
  destruct (Serve_reflects Pings.traffic []) as (out & -> & _ & _ & Hout).
  { apply Forall_forall. intros e He. unfold Pings.traffic in He. set_solver. }
  apply Hout. exists (encodeProbe 5), 5%Z, []. split_and!; [right; right; left|vm_compute; reflexivity|lia..|].
  by rewrite app_nil_r.
Defined.
