(* ===== verification/GoFloat.v ===== *)
(** Go's float64 and float32 where the program computes with them, as the binary
    formats of IEEE 754 rounding to nearest even (SpecFloat), how fmt writes
    them, and what the program makes of durations with them: names.AgeHuman, the
    loss of a window of probes, milliseconds.

    A compiler may fuse a product and a sum into one rounding; the operations here
    are the separate ones. *)
From stdpp Require Import base tactics list strings.
From Stdlib Require Import ZArith Ascii Lia.
From Stdlib.Floats Require Import SpecFloat.
From S2P Require Import Prelude GoStr GoFmt.
From S2P Require Import PeerPing.
Local Open Scope list_scope.

(** ** Numbers *)
Abbreviation f64 := spec_float.
Definition f64_of_int (z : Z) : f64 := binary_normalize 53 1024 z 0 false.
Definition f64_add : f64 -> f64 -> f64 := SFadd 53 1024.
Definition f64_mul : f64 -> f64 -> f64 := SFmul 53 1024.
Definition f64_div : f64 -> f64 -> f64 := SFdiv 53 1024.
Abbreviation f32 := spec_float.
Definition f32_of_int (z : Z) : f32 := binary_normalize 24 128 z 0 false.
Definition f32_add : f32 -> f32 -> f32 := SFadd 24 128.
Definition f32_sub : f32 -> f32 -> f32 := SFsub 24 128.
Definition f32_mul : f32 -> f32 -> f32 := SFmul 24 128.
Definition f32_div : f32 -> f32 -> f32 := SFdiv 24 128.
(** float32(x) of a float64. *)
Definition f32_of_f64 (x : f64) : f32 :=
  match x with S754_finite s m e => binary_round 24 128 s m e | _ => x end.
(** int64(x) of a finite number: towards zero. *)
Definition trunc (x : f64) : Z :=
  match x with
  | S754_finite s m e =>
    let n := if (0 <=? e)%Z then Z.shiftl (Z.pos m) e else Z.shiftr (Z.pos m) (- e) in
    if s then (- n)%Z else n
  | _ => 0%Z
  end.

(** Rounding a quotient to the nearest integer, ties to even. *)
Definition div_nearest (a b : Z) : Z :=
  let '(q, r) := Z.div_eucl a b in
  if (2 * r <? b)%Z then q else if (b <? 2 * r)%Z then (q + 1)%Z else if Z.even q then q else (q + 1)%Z.
(** %.<digits>f *)
Definition fixed_digits (digits : nat) (m : positive) (e : Z) : Z :=
  let scaled := (Z.pos m * 10 ^ Z.of_nat digits)%Z in
  if (0 <=? e)%Z then Z.shiftl scaled e else div_nearest scaled (Z.shiftl 1 (- e)).
Definition with_point (digits : nat) (q : Z) : string :=
  match digits with
  | O => itoa q
  | _ => itoa (q / 10 ^ Z.of_nat digits) +:+ "." +:+ pad digits (q mod 10 ^ Z.of_nat digits)
  end.
Definition fmt_fixed (digits : nat) (x : f64) : string :=
  match x with
  | S754_zero s => (if s then "-" else "") +:+ with_point digits 0
  | S754_infinity s => if s then "-Inf" else "+Inf"
  | S754_nan => "NaN"
  | S754_finite s m e => (if s then "-" else "") +:+ with_point digits (fixed_digits digits m e)
  end.
Example fmt_fixed_ok :
  (fun p : Z * Z => fmt_fixed 1 (f64_div (f64_of_int p.1) (f64_of_int p.2))) <$> [(1, 4); (3, 4); (1536, 1024); (1, 3); (2, 3); (-7, 2); (0, 5)]%Z =
    ["0.2"; "0.8"; "1.5"; "0.3"; "0.7"; "-3.5"; "0.0"] /\
  (fun p : Z * Z => fmt_fixed 0 (f64_div (f64_of_int p.1) (f64_of_int p.2))) <$> [(5, 2); (7, 2); (99, 100)]%Z = ["2"; "4"; "1"].
Proof. split; vm_compute; reflexivity. Qed.

(** ** Durations and losses *)

(** d.Seconds() *)
Definition Seconds (d : Z) : f64 :=
  f64_add (f64_of_int (Z.quot d second)) (f64_div (f64_of_int (Z.rem d second)) (f64_of_int second)).
Definition AgeHuman (d : Z) : string :=
  let s := trunc (Seconds d) in
  let s := if (s <? 0)%Z then 0%Z else s in
  if (s <? 3600)%Z then itoa (Z.quot s 60) +:+ "m"
  else if (s <? 86400)%Z then itoa (Z.quot s 3600) +:+ "h"
  else itoa (Z.quot s 86400) +:+ "d".

Definition millisecond : Z := 1000000%Z.
Definition durMs (d : Z) : f64 := f64_div (f64_of_int d) (f64_of_int millisecond).
(** The LossPct of Ring.Stats. *)
Definition loss_of (lost n : nat) : f64 :=
  f64_mul (f64_div (f64_of_int (Z.of_nat lost)) (f64_of_int (Z.of_nat n))) (f64_of_int 100).
Definition LossPct (st : Stats) : f64 := if SN st =? 0 then S754_zero false else loss_of (SLost st) (SN st).

(** The line of the devices pane for a measured peer, and its sizes. *)
Definition rtt_text (st : Stats) : string :=
  "RTT  last " +:+ fmt_fixed 1 (durMs (SLast st)) +:+ " ms   avg " +:+ fmt_fixed 1 (durMs (SAvg st)) +:+ " ms   min " +:+
  fmt_fixed 1 (durMs (SMin st)) +:+ " ms   max " +:+ fmt_fixed 1 (durMs (SMax st)) +:+ " ms   loss " +:+ fmt_fixed 0 (LossPct st) +:+
  "%   (n=" +:+ itoa (Z.of_nat (SN st)) +:+ ")".
Definition decimal (n div : Z) : string := fmt_fixed 1 (f64_div (f64_of_int n) (f64_of_int div)).
Example rtt_text_ok :
  rtt_text {| SN := 7; SLost := 1; SMin := 1249999; SMax := 20000000; SAvg := 5000001; SLast := 1350000 |} =
    "RTT  last 1.4 ms   avg 5.0 ms   min 1.2 ms   max 20.0 ms   loss 14%   (n=7)" /\
  AgeHuman <$> [-5 * second; 59 * second; 3600 * second - 1; 3600 * second; 90000 * second; 10 ^ 8 * second - 1]%Z =
    ["0m"; "0m"; "59m"; "1h"; "1d"; "1157d"].
Proof. split; vm_compute; reflexivity. Qed.

(** ** Theorems *)
Lemma div_nearest_spec a b : (0 < b)%Z -> (2 * Z.abs (div_nearest a b * b - a) <= b)%Z.
Proof.
  intros Hb. unfold div_nearest. pose proof (Z.div_mod a b ltac:(lia)). pose proof (Z.mod_pos_bound a b Hb).
  unfold Z.div, Z.modulo in *. destruct (Z.div_eucl a b) as [q r].
  destruct (Z.ltb_spec (2 * r) b); [nia|]. destruct (Z.ltb_spec b (2 * r)); [nia|]. destruct (Z.even _); nia.
Qed.

(** What is written with a fixed number of digits is the number rounded to them:
    off by half a unit of the last digit at most. *)
Theorem fixed_digits_nearest (digits : nat) (m : positive) (e : Z) :
  let q := fixed_digits digits m e in
  ((0 <= e -> q = Z.pos m * 2 ^ e * 10 ^ Z.of_nat digits) /\
   (e < 0 -> 2 * Z.abs (q * 2 ^ (- e) - Z.pos m * 10 ^ Z.of_nat digits) <= 2 ^ (- e)))%Z.
Proof.
  unfold fixed_digits. cbn zeta. split; intros He.
  - rewrite (proj2 (Z.leb_le _ _)), Z.shiftl_mul_pow2 by done. lia.
  - rewrite (proj2 (Z.leb_gt _ _)), Z.shiftl_mul_pow2, Z.mul_1_l by lia. apply div_nearest_spec. apply Z.pow_pos_nonneg; lia.
Qed.

(** An age is one number and one unit: minutes below an hour, hours below a day,
    days from then on, each the whole units that have passed; a negative age is
    zero minutes. *)
Theorem AgeHuman_reads (d : Z) :
  let s := Z.max 0 (trunc (Seconds d)) in
  exists n unit_ text, AgeHuman d = itoa n +:+ text /\ (n * unit_ <= s < (n + 1) * unit_)%Z /\
    ((text = "m" /\ unit_ = 60 /\ 0 <= n < 60) \/ (text = "h" /\ unit_ = 3600 /\ 1 <= n < 24) \/ (text = "d" /\ unit_ = 86400 /\ 1 <= n))%Z.
Proof.
  cbn zeta. unfold AgeHuman. assert ((if (trunc (Seconds d) <? 0)%Z then 0 else trunc (Seconds d)) = Z.max 0 (trunc (Seconds d)))%Z as ->
    by (destruct (Z.ltb_spec (trunc (Seconds d)) 0); lia).
  set (s := Z.max 0 (trunc (Seconds d))). assert (0 <= s)%Z as Hs by lia. clearbody s.
  assert (forall u, (0 < u)%Z -> (Z.quot s u * u <= s < (Z.quot s u + 1) * u)%Z /\ (0 <= Z.quot s u)%Z) as Hq.
  { intros u Hu. pose proof (Z.quot_rem' s u). pose proof (Z.rem_bound_pos s u Hs Hu). pose proof (Z.quot_pos s u Hs Hu). lia. }
  destruct (Z.ltb_spec s 3600); [|destruct (Z.ltb_spec s 86400)]; eexists _, _, _; (split; [reflexivity|]).
  - destruct (Hq 60%Z); [lia|]. split; [exact H0|]. left. split_and!; lia || done.
  - destruct (Hq 3600%Z); [lia|]. split; [exact H1|]. right. left. split_and!; lia || done.
  - destruct (Hq 86400%Z); [lia|]. split; [exact H1|]. right. right. split_and!; lia || done.
Qed.

(** For one window, by computation. *)
Definition loss_right (n lost : nat) : bool :=
  match loss_of lost n with
  | S754_zero false => lost =? 0
  | S754_finite false m e =>
    let k := fixed_digits 0 m e in (2 * Z.abs (k * Z.of_nat n - 100 * Z.of_nat lost) <=? Z.of_nat n)%Z
  | _ => false
  end.

(** The loss shown for a full window or any part of it: a whole number of percent
    nearest to the share of the probes that were lost. It is 0 for a window in
    which none was lost only, and 100 for one in which all were only. *)
Theorem loss_shown (st : Stats) :
  (Z.of_nat (SN st) <= DefaultHistory)%Z -> SLost st <= SN st ->
  exists k, fmt_fixed 0 (LossPct st) = itoa k /\ (2 * Z.abs (k * Z.of_nat (SN st) - 100 * Z.of_nat (SLost st)) <= Z.of_nat (SN st))%Z /\
    (SN st <> 0 -> (k = 0%Z <-> SLost st = 0) /\ (k = 100%Z <-> SLost st = SN st)).
Proof.
  intros Hn Hl. enough (exists k, fmt_fixed 0 (LossPct st) = itoa k /\
      (2 * Z.abs (k * Z.of_nat (SN st) - 100 * Z.of_nat (SLost st)) <= Z.of_nat (SN st))%Z) as (k & Hk & Hb).
  { exists k. split; [done|]. split; [done|]. intros H0. unfold DefaultHistory in Hn. split; split; intros H; nia. }
  unfold LossPct. destruct (Nat.eqb_spec (SN st) 0) as [H0|H0].
  { exists 0%Z. split; [done|]. rewrite H0 in *. lia. }
  assert (forallb (fun n => forallb (loss_right n) (seq 0 (S n))) (seq 1 120) = true) as Hall by (vm_compute; reflexivity).
  rewrite forallb_forall in Hall. specialize (Hall (SN st)). rewrite forallb_forall in Hall. unfold DefaultHistory in Hn.
  assert (loss_right (SN st) (SLost st) = true) as H by (apply Hall; apply in_seq; lia). unfold loss_right in H.
  destruct (loss_of (SLost st) (SN st)) as [[]|[]| |[] m e]; try done.
  - apply Nat.eqb_eq in H. exists 0%Z. split; [done|]. rewrite H. lia.
  - apply Z.leb_le in H. exists (fixed_digits 0 m e). split; [done|exact H].
Qed.
