(* ===== verification/TrustAnchor.v ===== *)
(** The compiled-in trust anchors: internal/trustanchor (anchor.go, verify.go)
    and the descriptor checks of cmd/anchorgen (decode, decodePEM), whose
    output NewSet loads.

    Instants are Unix nanoseconds, so the conversions to UTC change nothing.
    What the generated file declares are the literals [embedded_literal]; its text is
    in AnchorGen.v. YAML, PEM, X.509 and RFC 3339 are parameters. *)
From stdpp Require Import base tactics list sorting sets strings.
From Stdlib Require Import ZArith Ascii Lia.
From S2P Require Import Prelude GoStr GoSort Bundle.
Local Open Scope list_scope.

Inductive anchor_error :=
  | EAnchorName (i : nat)
  | EAnchorNoKey (name : string)
  | EAnchorSPKI (name : string)
  | EAnchorCurve (name got : string)
  | EAnchorWindow (name : string).

Inductive anchor_verify_error :=
  | ErrEmptySignature
  | ErrNoActiveAnchors
  | ErrUntrusted
  | PanicNilKey.

(** Errors of the generator; [EGenPEM] stands for every error of decodePEM. *)
Inductive gen_error :=
  | EGenName (i : nat)
  | EGenDuplicate (name : string)
  | EGenIssuer (name : string)
  | EGenFrom (name : string)
  | EGenUntil (name : string)
  | EGenWindow (name : string)
  | EGenPEM (name : string).

Section trustanchor.
Context {C : Crypto} {P : PemX509} {SS : SortSlice}.

Record Anchor := {
  AName : string;
  AIssuer : string;
  APublicKey : option PublicKey;
  ASPKI : chars;
  AValidFrom : Z;
  AValidUntil : Z }.

Definition active (a : Anchor) (at_ : Z) : bool :=
  if (at_ <? AValidFrom a)%Z then false
  else if (AValidUntil a <? at_)%Z then false
  else true.

(** The clock of a [Set] is an argument of [Verify]. *)
Record AnchorSet := { anchors : list Anchor }.

Definition parseSPKI (spki : chars) : option PublicKey :=
  match ParsePKIXPublicKey spki with
  | Some (EcdsaKey k) => Some k
  | _ => None
  end.

Definition with_key (k : PublicKey) (a : Anchor) : Anchor :=
  {| AName := AName a; AIssuer := AIssuer a; APublicKey := Some k; ASPKI := ASPKI a;
     AValidFrom := AValidFrom a; AValidUntil := AValidUntil a |}.

(** The key an anchor comes with, or the one its SPKI holds. *)
Definition anchor_key (a : Anchor) : result anchor_error PublicKey :=
  match APublicKey a with
  | Some k => Ok k
  | None =>
    if length (ASPKI a) =? 0 then Err (EAnchorNoKey (AName a))
    else of_option (EAnchorSPKI (AName a)) (parseSPKI (ASPKI a))
  end.

(** One iteration of the loop of [NewSet]. *)
Definition check_anchor (i : nat) (a : Anchor) : result anchor_error Anchor :=
  if bool_decide (AName a = "") then Err (EAnchorName i)
  else
    k ← anchor_key a;
    match wrong_curve k with
    | Some got => Err (EAnchorCurve (AName a) got)
    | None =>
      if negb (AValidFrom a <? AValidUntil a)%Z then Err (EAnchorWindow (AName a))
      else Ok (with_key k a)
    end.

Fixpoint check_anchors (i : nat) (l : list Anchor) : result anchor_error (list Anchor) :=
  match l with
  | [] => Ok []
  | a :: l' => a ← check_anchor i a; l' ← check_anchors (S i) l'; Ok (a :: l')
  end.

Definition NewSet (l : list Anchor) : result anchor_error AnchorSet :=
  out ← check_anchors 0 l; Ok {| anchors := out |}.

(** [None]: the panic on malformed embedded data. *)
Definition Default (embedded : list Anchor) : option AnchorSet :=
  match NewSet embedded with Ok s => Some s | Err _ => None end.

Definition All (s : AnchorSet) : list Anchor := anchors s.

Definition Active (s : AnchorSet) (at_ : Z) : list Anchor :=
  sort_slice (fun a b => AValidFrom a <? AValidFrom b)%Z (filter (fun a => active a at_ = true) (anchors s)).

Fixpoint verify_loop (l : list Anchor) (now : Z) (digest sig : chars) (hasActive : bool)
    : result anchor_verify_error Anchor :=
  match l with
  | [] => Err (if negb hasActive then ErrNoActiveAnchors else ErrUntrusted)
  | a :: l' =>
    if negb (active a now) then verify_loop l' now digest sig hasActive
    else
      match APublicKey a with
      | None => Err PanicNilKey
      | Some k =>
        if VerifyASN1 k digest sig then Ok a else verify_loop l' now digest sig true
      end
  end.

Definition Verify (s : AnchorSet) (now : Z) (bundleSig bundleBytes : chars)
    : result anchor_verify_error Anchor :=
  if length bundleSig =? 0 then Err ErrEmptySignature
  else verify_loop (anchors s) now (sha256 bundleBytes) bundleSig false.

(** ** The generator *)
Record yamlAnchor := {
  YName : string;
  YIssuer : string;
  YValidFrom : string;
  YValidUntil : string;
  YPublicKeyPEM : string }.

Record genAnchor := {
  GName : string;
  GIssuer : string;
  GValidFrom : Z;
  GValidUntil : Z;
  GSpki : chars }.

(** time.Parse(time.RFC3339, _) and x509.MarshalPKIXPublicKey. *)
Context (parse_rfc3339 : string -> option Z) (MarshalPKIX : PublicKey -> option chars).

Definition decodePEM (s : string) : option chars :=
  '(block, _) ← pem_decode (s2l s);
  key ← (if bool_decide (BlockType block = "PUBLIC KEY") then ParsePKIXPublicKey (BlockBytes block)
         else if bool_decide (BlockType block = "CERTIFICATE") then ParseCertificate (BlockBytes block)
         else None);
  match key with
  | OtherKey _ => None
  | EcdsaKey k => match wrong_curve k with Some _ => None | None => MarshalPKIX k end
  end.

(** One iteration of the loop of [decode]; [seen] are the names before it. *)
Definition decode_one (i : nat) (seen : list string) (a : yamlAnchor) : result gen_error genAnchor :=
  if bool_decide (YName a = "") then Err (EGenName i)
  else if bool_decide (YName a ∈ seen) then Err (EGenDuplicate (YName a))
  else if bool_decide (YIssuer a = "") then Err (EGenIssuer (YName a))
  else
    from ← of_option (EGenFrom (YName a)) (parse_rfc3339 (YValidFrom a));
    until ← of_option (EGenUntil (YName a)) (parse_rfc3339 (YValidUntil a));
    if negb (from <? until)%Z then Err (EGenWindow (YName a))
    else
      spki ← of_option (EGenPEM (YName a)) (decodePEM (YPublicKeyPEM a));
      Ok {| GName := YName a; GIssuer := YIssuer a; GValidFrom := from; GValidUntil := until;
            GSpki := spki |}.

Fixpoint decode_loop (i : nat) (seen : list string) (l : list yamlAnchor)
    : result gen_error (list genAnchor) :=
  match l with
  | [] => Ok []
  | a :: l' => g ← decode_one i seen a; gs ← decode_loop (S i) (YName a :: seen) l'; Ok (g :: gs)
  end.

Definition decode (l : list yamlAnchor) : result gen_error (list genAnchor) :=
  out ← decode_loop 0 [] l;
  Ok (sort_slice (fun a b => str_ltb (GName a) (GName b)) out).

(** The literal that [emit] writes for an anchor. *)
Definition embedded_literal (g : genAnchor) : Anchor :=
  {| AName := GName g; AIssuer := GIssuer g; APublicKey := None; ASPKI := GSpki g;
     AValidFrom := GValidFrom g; AValidUntil := GValidUntil g |}.
End trustanchor.

(** ** Lemmas *)
Section lemmas.
Context {C : Crypto} {P : PemX509} {SS : SortSlice}.

(** What [NewSet] guarantees of an anchor of the set. *)
Definition anchor_ok (a : Anchor) : Prop :=
  AName a <> "" /\ (AValidFrom a < AValidUntil a)%Z /\
  exists k, APublicKey a = Some k /\ curve_name k = Some P256.

Lemma check_anchor_Ok i a a' :
  check_anchor i a = Ok a' <->
  AName a <> "" /\ (AValidFrom a < AValidUntil a)%Z /\
  exists k, anchor_key a = Ok k /\ curve_name k = Some P256 /\ a' = with_key k a.
Proof.
  unfold check_anchor. case_bool_decide; [naive_solver|]. rewrite bind_Ok. split.
  - intros (k & Hk & Hr). destruct (wrong_curve k) eqn:Hw; [done|].
    destruct (Z.ltb_spec (AValidFrom a) (AValidUntil a)); [|done]. injection Hr as <-.
    apply wrong_curve_None in Hw. naive_solver.
  - intros (_ & Hlt & k & Hk & Hw & ->). exists k. split; [done|].
    rewrite (proj2 (wrong_curve_None k) Hw).
    by destruct (Z.ltb_spec (AValidFrom a) (AValidUntil a)); [|lia].
Qed.

Lemma check_anchor_ok i a a' : check_anchor i a = Ok a' -> anchor_ok a'.
Proof. rewrite check_anchor_Ok. unfold anchor_ok. naive_solver. Qed.

(** Go's index only appears in an error. *)
Lemma check_anchors_Forall2 i l l' :
  check_anchors i l = Ok l' <-> Forall2 (fun a a' => check_anchor 0 a = Ok a') l l'.
Proof.
  revert i l'. induction l as [|a l IH]; intros i l'; cbn [check_anchors].
  - split; [intros [= <-]; constructor|by intros ->%Forall2_nil_inv_l].
  - rewrite bind_Ok. setoid_rewrite bind_Ok. split.
    + intros (a' & Ha & l'' & Hl & [= <-]). constructor; [|by apply (IH (S i))].
      by rewrite check_anchor_Ok in *.
    + intros (a' & l'' & Ha & Hl & ->)%Forall2_cons_inv_l. exists a'.
      split; [by rewrite check_anchor_Ok in *|]. exists l''. by rewrite IH.
Qed.

Lemma NewSet_Ok l s :
  NewSet l = Ok s <-> Forall2 (fun a a' => check_anchor 0 a = Ok a') l (anchors s).
Proof.
  unfold NewSet. rewrite bind_Ok. setoid_rewrite check_anchors_Forall2. destruct s as [out]. split.
  - by intros (l' & Hl & [= <-]).
  - intros Hl. by exists out.
Qed.

Lemma NewSet_ok l s : NewSet l = Ok s -> Forall anchor_ok (anchors s).
Proof.
  rewrite NewSet_Ok. intros H. induction H as [|a a' ? ? Ha]; constructor; [|done].
  by eapply check_anchor_ok.
Qed.

(** The anchor that is active and whose key verifies the signature. *)
Definition vouches (now : Z) (payload sig : chars) (a : Anchor) : bool :=
  active a now && match APublicKey a with Some k => VerifyASN1 k (sha256 payload) sig | None => false end.

Lemma verify_loop_spec l now payload sig h :
  Forall anchor_ok l ->
  verify_loop l now (sha256 payload) sig h =
    match find_first (vouches now payload sig) l with
    | Some a => Ok a
    | None => Err (if h || existsb (fun a => active a now) l then ErrUntrusted else ErrNoActiveAnchors)
    end.
Proof.
  intros Hl. revert h. induction Hl as [|a l (_ & _ & k & Hk & _) Hl IH]; intros h; cbn.
  { by destruct h. }
  unfold vouches at 1. rewrite Hk. destruct (active a now); cbn [negb andb].
  - destruct (VerifyASN1 k (sha256 payload) sig); [done|]. rewrite IH. by destruct h.
  - apply IH.
Qed.

Lemma active_spec a at_ : active a at_ = true <-> (AValidFrom a <= at_ <= AValidUntil a)%Z.
Proof. unfold active. destruct (Z.ltb_spec at_ (AValidFrom a)), (Z.ltb_spec (AValidUntil a) at_); lia. Qed.
End lemmas.

(** ** The generator's lemmas *)
Section generator_lemmas.
Context {C : Crypto} {P : PemX509} {SS : SortSlice}.
Context (parse_rfc3339 : string -> option Z) (MarshalPKIX : PublicKey -> option chars).

(** What a descriptor denotes, whatever surrounds it. *)
Definition denotes (y : yamlAnchor) (g : genAnchor) : Prop :=
  YName y <> "" /\ YIssuer y <> "" /\ GName g = YName y /\ GIssuer g = YIssuer y /\
  parse_rfc3339 (YValidFrom y) = Some (GValidFrom g) /\
  parse_rfc3339 (YValidUntil y) = Some (GValidUntil g) /\
  (GValidFrom g < GValidUntil g)%Z /\
  decodePEM MarshalPKIX (YPublicKeyPEM y) = Some (GSpki g).

Lemma decode_one_Ok i seen y g :
  decode_one parse_rfc3339 MarshalPKIX i seen y = Ok g <-> (YName y ∉ seen) /\ denotes y g.
Proof.
  unfold decode_one, denotes.
  case_bool_decide; [naive_solver|]. case_bool_decide; [naive_solver|].
  case_bool_decide; [naive_solver|].
  rewrite bind_Ok. setoid_rewrite bind_Ok. split.
  - intros (f & Hf & u & Hu & Hr). destruct (Z.ltb_spec f u); [cbn in Hr|done].
    destruct (parse_rfc3339 (YValidFrom y)), (parse_rfc3339 (YValidUntil y)); simplify_eq/=.
    destruct (decodePEM _ _); simplify_eq/=. done.
  - intros (_ & _ & _ & Hn & Hi & -> & -> & Hlt & ->). exists (GValidFrom g). split; [done|].
    exists (GValidUntil g). split; [done|]. destruct (Z.ltb_spec (GValidFrom g) (GValidUntil g)); [|lia].
    cbn. rewrite <-Hn, <-Hi. by destruct g.
Qed.

Lemma decode_loop_Ok i seen ys gs :
  decode_loop parse_rfc3339 MarshalPKIX i seen ys = Ok gs <->
  Forall (fun y => YName y ∉ seen) ys /\ NoDup (YName <$> ys) /\ Forall2 denotes ys gs.
Proof.
  revert i seen gs. induction ys as [|y ys IH]; intros i seen gs; cbn [decode_loop].
  - split; [intros [= <-]; repeat constructor|by intros (_ & _ & ->%Forall2_nil_inv_l)].
  - rewrite bind_Ok. setoid_rewrite bind_Ok. setoid_rewrite decode_one_Ok. setoid_rewrite IH.
    cbn [fmap list_fmap]. rewrite Forall_cons, NoDup_cons. split.
    + intros (g & (Hs & Hg) & gs' & (Hf & Hnd & H2) & [= <-]). split_and!; [done| | |done|by constructor].
      * eapply Forall_impl; [done|]. set_solver.
      * intros (y' & Hy & Hin)%list_elem_of_fmap. rewrite Forall_forall in Hf.
        specialize (Hf y' Hin). rewrite <-Hy in Hf. set_solver.
    + intros ((Hs & Hf) & (Hni & Hnd) & H2). apply Forall2_cons_inv_l in H2 as (g & gs' & Hg & H2 & ->).
      exists g. split; [done|]. exists gs'. split_and!; [|done..].
      apply Forall_forall. intros y' Hy' [Heq|Hin]%elem_of_cons.
      * apply Hni. rewrite <-Heq. by apply list_elem_of_fmap_2.
      * rewrite Forall_forall in Hf. by eapply Hf.
Qed.

Lemma denotes_names ys gs : Forall2 denotes ys gs -> YName <$> ys = GName <$> gs.
Proof. induction 1 as [|y g ys gs (_ & _ & Hn & _) _ IH]; [done|]. cbn. by rewrite IH, Hn. Qed.

Lemma NoDup_fmap_inj {A B} (f : A -> B) l a b : NoDup (f <$> l) -> a ∈ l -> b ∈ l -> f a = f b -> a = b.
Proof.
  induction l as [|x l IH]; [by intros _ ?%elem_of_nil|]. cbn. intros [Hx Hl]%NoDup_cons.
  intros [->|Ha]%elem_of_cons [->|Hb]%elem_of_cons Hf; [done| | |by apply IH].
  - destruct Hx. rewrite Hf. by apply list_elem_of_fmap_2.
  - destruct Hx. rewrite <-Hf. by apply list_elem_of_fmap_2.
Qed.

Definition by_name (a b : genAnchor) : bool := str_ltb (GName a) (GName b).
#[local] Instance by_name_order : WeakOrder by_name.
Proof. exact (weak_order_key GName str_ltb str_ltb_weak_order). Qed.

Lemma sort_by_name_unique l1 l2 :
  NoDup (GName <$> l1) -> l1 ≡ₚ l2 -> sort_slice by_name l1 = sort_slice by_name l2.
Proof.
  intros Hnd Hp. apply (sorted_unique by_name).
  - intros a b. rewrite sort_slice_perm. intros Ha Hb Hab Hba.
    by apply (NoDup_fmap_inj GName l1), str_ltb_separates.
  - apply sort_slice_sorted, _.
  - apply sort_slice_sorted, _.
  - by rewrite !sort_slice_perm.
Qed.

Lemma decode_elems ys gs :
  decode parse_rfc3339 MarshalPKIX ys = Ok gs <->
  exists gs0, NoDup (YName <$> ys) /\ Forall2 denotes ys gs0 /\ gs = sort_slice by_name gs0.
Proof.
  unfold decode. rewrite bind_Ok. setoid_rewrite decode_loop_Ok. split.
  - intros (gs0 & (_ & Hnd & H2) & [= <-]). by exists gs0.
  - intros (gs0 & Hnd & H2 & ->). exists gs0. split_and!; [|done..].
    apply Forall_forall. intros *. set_solver.
Qed.

(** crypto/x509: what MarshalPKIXPublicKey writes, ParsePKIXPublicKey reads
    back; the empty input is no key. *)
Hypothesis pkix_roundtrip : forall k der, MarshalPKIX k = Some der -> ParsePKIXPublicKey der = Some (EcdsaKey k).
Hypothesis pkix_empty : ParsePKIXPublicKey [] = None.

Lemma decodePEM_key s der :
  decodePEM MarshalPKIX s = Some der ->
  exists k, curve_name k = Some P256 /\ parseSPKI der = Some k /\ der <> [].
Proof.
  unfold decodePEM. intros ([block rest] & _ & (key & _ & Hk)%bind_Some)%bind_Some.
  destruct key as [k|]; [|done]. destruct (wrong_curve k) eqn:Hw; [done|].
  apply wrong_curve_None in Hw. pose proof (pkix_roundtrip _ _ Hk) as Hp. exists k.
  split_and!; [done|unfold parseSPKI; by rewrite Hp|]. intros ->. congruence.
Qed.

Lemma literal_loads y g :
  denotes y g -> exists k, curve_name k = Some P256 /\ check_anchor 0 (embedded_literal g) = Ok (with_key k (embedded_literal g)).
Proof.
  intros (Hn & _ & En & _ & _ & _ & Hlt & Hpem). destruct (decodePEM_key _ _ Hpem) as (k & Hc & Hk & Hne).
  exists k. split; [done|]. apply check_anchor_Ok. cbn. split_and!; [congruence|done|]. exists k.
  split_and!; [|done..]. unfold anchor_key. cbn. rewrite Hk. by destruct (GSpki g).
Qed.

End generator_lemmas.

Section properties.
Context {C : Crypto} {P : PemX509} {SS : SortSlice}.

(** C25: Anchor verification is exact and never faults: on a set built by
    [NewSet], [Verify] accepts a non-empty signature exactly when some anchor
    whose window contains the current time (both ends included) carries a
    P-256 key that verifies it, and returns the first such anchor in insertion
    order. With no active anchor it reports the stale binary, with active
    anchors none of which verifies it reports an untrusted signature, and the
    empty signature is refused before anything else; the nil-key panic is
    unreachable. *)
Theorem Verify_first_active (l : list Anchor) (s : AnchorSet) (now : Z) (sig payload : chars) :
  NewSet l = Ok s ->
  match Verify s now sig payload with
  | Ok a =>
    sig <> [] /\ (AValidFrom a <= now <= AValidUntil a)%Z /\
    (exists k, APublicKey a = Some k /\ curve_name k = Some P256 /\ VerifyASN1 k (sha256 payload) sig = true) /\
    exists l1 l2, All s = l1 ++ a :: l2 /\ Forall (fun b => vouches now payload sig b = false) l1
  | Err ErrEmptySignature => sig = []
  | Err ErrNoActiveAnchors => sig <> [] /\ forall a, a ∈ All s -> active a now = false
  | Err ErrUntrusted =>
    sig <> [] /\ (exists a, a ∈ All s /\ active a now = true) /\
    forall a k, a ∈ All s -> active a now = true -> APublicKey a = Some k -> VerifyASN1 k (sha256 payload) sig = false
  | Err PanicNilKey => False
  end.
Proof.
  intros Hok%NewSet_ok. unfold Verify. destruct sig as [|c sig]; [done|]. cbn [length Nat.eqb].
  rewrite verify_loop_spec by done. unfold All.
  destruct (find_first _ _) as [a|] eqn:E.
  - destruct (find_first_elem _ _ _ E) as [Hin _]. apply find_first_Some in E as (Hv & l1 & l2 & El & Hl1).
    unfold vouches in Hv. apply andb_true_iff in Hv as [Ha Hk].
    rewrite Forall_forall in Hok. destruct (Hok a Hin) as (_ & _ & k & Ek & Hc). rewrite Ek in Hk.
    split_and!; [done|by apply active_spec|by apply active_spec|by exists k|by exists l1, l2].
  - apply find_first_None in E. rewrite Forall_forall in E. cbn [orb].
    destruct (existsb _ _) eqn:Ex.
    + apply existsb_exists in Ex as (a & Ha%list_elem_of_In & Hact).
      split_and!; [done|by exists a|]. intros b k Hb Hbact Hk. specialize (E b Hb).
      unfold vouches in E. by rewrite Hbact, Hk in E.
    + split; [done|]. intros a Ha. destruct (active a now) eqn:Hact; [|done].
      assert (existsb (fun a => active a now) (anchors s) = true); [|congruence].
      apply existsb_exists. exists a. by rewrite <-list_elem_of_In.
Qed.

(** The generator and the binary agree. Whatever order the descriptors are
    written in, [decode] produces the same anchors, sorted by their distinct
    names; and the literals emitted for them always load: [Default] does not
    panic on them, and the set carries each descriptor's name, issuer and
    window with the P-256 key of its PEM block. *)
Theorem anchorgen_loads (parse_rfc3339 : string -> option Z) (MarshalPKIX : PublicKey -> option chars)
    (ys : list yamlAnchor) (gs : list genAnchor) :
  (forall k der, MarshalPKIX k = Some der -> ParsePKIXPublicKey der = Some (EcdsaKey k)) ->
  ParsePKIXPublicKey [] = None ->
  decode parse_rfc3339 MarshalPKIX ys = Ok gs ->
  (forall ys', ys' ≡ₚ ys -> decode parse_rfc3339 MarshalPKIX ys' = Ok gs) /\
  GName <$> gs ≡ₚ YName <$> ys /\ NoDup (GName <$> gs) /\
  StronglySorted (fun a b => String.le (GName a) (GName b)) gs /\
  exists s, Default (embedded_literal <$> gs) = Some s /\
    Forall2 (fun g a => AName a = GName g /\ AIssuer a = GIssuer g /\ AValidFrom a = GValidFrom g /\
                        AValidUntil a = GValidUntil g /\
                        APublicKey a = parseSPKI (GSpki g) /\ is_Some (APublicKey a)) gs (All s).
Proof.
  intros Hrt Hnil (gs0 & Hnd & H2 & ->)%decode_elems.
  assert (NoDup (GName <$> gs0)) as Hnd0 by (by rewrite <-(denotes_names _ _ _ _ H2)).
  split_and!.
  - intros ys' Hp. apply decode_elems.
    destruct (Permutation_Forall2 (Permutation_sym Hp) H2) as (gs0' & Hp' & H2').
    exists gs0'. split_and!; [by rewrite Hp|done|]. by apply sort_by_name_unique.
  - rewrite sort_slice_perm. by rewrite (denotes_names _ _ _ _ H2).
  - by rewrite sort_slice_perm.
  - pose proof (sort_slice_sorted by_name gs0 by_name_order) as Hs.
    induction Hs as [|g gs Hs IH Hg]; constructor; [done|].
    eapply Forall_impl; [done|]. intros g' Hle. by apply str_ltb_false in Hle.
  - assert (Forall (fun g => exists k, curve_name k = Some P256 /\
      check_anchor 0 (embedded_literal g) = Ok (with_key k (embedded_literal g))) (sort_slice by_name gs0)) as Hall.
    { rewrite sort_slice_perm. apply Forall_forall. intros g Hg.
      apply list_elem_of_lookup in Hg as [i Hi]. destruct (Forall2_lookup_r _ _ _ _ _ H2 Hi) as (y & _ & Hy).
      by eapply literal_loads. }
    generalize dependent (sort_slice by_name gs0). clear. intros gs Hall.
    assert (exists l, Forall2 (fun g a => exists k, curve_name k = Some P256 /\
      check_anchor 0 (embedded_literal g) = Ok a /\ a = with_key k (embedded_literal g)) gs l) as [l Hl].
    { induction Hall as [|g gs (k & Hc & Hg) _ [l IH]]; [by exists []|]. eexists (_ :: l). constructor; [|done]. by exists k. }
    exists {| anchors := l |}. unfold Default. rewrite (proj2 (NewSet_Ok _ {| anchors := l |})).
    + split; [done|]. cbn [All anchors]. eapply Forall2_impl; [exact Hl|].
      intros g a (k & _ & Hk & ->). cbn. apply check_anchor_Ok in Hk as (_ & _ & k' & Ha & _ & Hk').
      injection Hk' as <-. unfold anchor_key in Ha. cbn in Ha.
      destruct (length (GSpki g) =? 0); [done|]. destruct (parseSPKI (GSpki g)); [|done].
      injection Ha as ->. by eauto 10.
    + cbn [anchors]. apply Forall2_fmap_l. eapply Forall2_impl; [exact Hl|]. by intros g a (k & _ & Hk & _).
Qed.
End properties.

(** ** Concrete anchors *)
Module ToyAnchors.
(** A PEM text is its block type, a line feed and the key. *)
#[export, refine] Instance pem : PemX509 (C := Toy.crypto) := {|
  pem_decode data := '(ty, rest) ← cut "010"%char data; Some ({| BlockType := l2s ty; BlockBytes := rest |}, []);
  ParsePKIXPublicKey der := if bool_decide (der = []) then None else Some (EcdsaKey (C := Toy.crypto) (l2s der));
  ParseCertificate _ := None |}.
Proof.
  intros data b rest. destruct (cut _ data) as [[h t]|] eqn:E; cbn; [|done]. intros [= <- <-].
  apply cut_Some in E as [-> _]. rewrite length_app. cbn. lia.
Defined.

Definition rfc3339 (s : string) : option Z := if bool_decide (s = "") then None else Some (Z.of_nat (String.length s)).
Definition marshal (k : @PublicKey Toy.crypto) : option chars :=
  if bool_decide (s2l k = []) then None else Some (s2l k).

Definition yaml (name until : string) : yamlAnchor :=
  {| YName := name; YIssuer := "ca"; YValidFrom := "t"; YValidUntil := until;
     YPublicKeyPEM := l2s (s2l "PUBLIC KEY" ++ "010"%char :: s2l name) |}.
Definition ys : list yamlAnchor := [yaml "new" "tttt"; yaml "cur" "ttt"].
Definition gs : list genAnchor :=
  match decode (C := Toy.crypto) (SS := insertion_sort) rfc3339 marshal ys with Ok gs => gs | Err _ => [] end.
Definition set_of (ks : list (string * Z * Z)) : list (Anchor (C := Toy.crypto)) :=
  (fun '(k, f, u) => {| AName := k; AIssuer := "ca"; APublicKey := Some (k : @PublicKey Toy.crypto);
                        ASPKI := []; AValidFrom := f; AValidUntil := u |}) <$> ks.
End ToyAnchors.

Lemma anchorgen_loads_witness :
  GName <$> ToyAnchors.gs = ["cur"; "new"] /\
  exists s, Default (C := Toy.crypto) (P := ToyAnchors.pem) (embedded_literal <$> ToyAnchors.gs) = Some s.
Proof.
  split; [vm_compute; reflexivity|].
  destruct (anchorgen_loads (C := Toy.crypto) (P := ToyAnchors.pem) (SS := insertion_sort)
    ToyAnchors.rfc3339 ToyAnchors.marshal ToyAnchors.ys ToyAnchors.gs) as (_ & _ & _ & _ & s & Hs & _).
  - unfold ToyAnchors.marshal. intros k der. case_bool_decide as E; [discriminate|]. intros [= <-]. cbn.
    rewrite bool_decide_eq_false_2 by done. by rewrite l2s_s2l.
  - reflexivity.
  - vm_compute. reflexivity.
  - by exists s.
Defined.

Lemma Verify_first_active_witness :
  is_ok (Verify (C := Toy.crypto) {| anchors := ToyAnchors.set_of [("a", 0, 10); ("b", 5, 20)]%Z |} 7 (s2l "b") (s2l "x")) = true /\
  ["a"; "b"] <> ([] : list string).
Proof.
  pose proof (Verify_first_active (C := Toy.crypto) (P := ToyAnchors.pem)
    (ToyAnchors.set_of [("a", 0, 10); ("b", 5, 20)]%Z)
    {| anchors := ToyAnchors.set_of [("a", 0, 10); ("b", 5, 20)]%Z |} 7 (s2l "b") (s2l "x") eq_refl) as H.
  split; [|discriminate]. destruct (Verify _ _ _ _) as [a|[]]; [reflexivity|discriminate H|..].
  - destruct H as [_ H]. specialize (H _ (list_elem_of_here _ _)). discriminate H.
  - destruct H as (_ & _ & H).
    specialize (H _ "b" (list_elem_of_further _ _ _ (list_elem_of_here _ _)) eq_refl eq_refl). discriminate H.
  - destruct H.
Defined.
