(* ===== verification/AnchorGen.v ===== *)
(** What cmd/anchorgen writes: run, emit, formatBytes and formatTime of
    src/cmd/anchorgen/main.go, over the checks of TrustAnchor.v.

    Instants are Unix nanoseconds. gofmt, YAML and the files are parameters.
    [read_embedded] is what Go makes of the literals in the text, so that the
    theorem can say that nothing is lost on the way into the binary. *)
From stdpp Require Import base tactics list strings.
From Stdlib Require Import ZArith Ascii Lia.
From S2P Require Import Prelude GoStr GoSort GoFmt Bundle TrustAnchor.
Local Open Scope list_scope.

(** ** time.Date *)
Definition days_of (y m d : Z) : Z :=
  let y := if (m <=? 2)%Z then (y - 1)%Z else y in
  let doy := ((153 * (if (m <=? 2)%Z then m + 9 else m - 3) + 2) / 5 + d - 1)%Z in
  let yoe := (y mod 400)%Z in
  (y / 400 * era_days + (365 * yoe + yoe / 4 - yoe / 100 + doy) - 719468)%Z.
(** time.Date(y, m, d, hh, mm, ss, ns, time.UTC) of a valid date and time of day *)
Definition Date (y m d hh mm ss ns : Z) : Z := ((days_of y m d * 86400 + hh * 3600 + mm * 60 + ss) * second + ns)%Z.

(** ** The text *)
Definition spaced : chars := s2l ", ".
Definition byte_literal (c : ascii) : chars := s2l "0x" ++ [hex_digit (code c / 16); hex_digit (code c mod 16)].
Definition formatBytes (b : chars) : chars := join spaced (byte_literal <$> b).

(** t.Year(), t.Month(), ..., t.Nanosecond() *)
Definition time_fields (t : Z) : list Z :=
  let s := (t / second)%Z in
  let '(y, m, d) := civil (s / 86400) in
  let r := (s mod 86400)%Z in
  [y; m; d; r / 3600; r mod 3600 / 60; r mod 60; t mod second]%Z.
Definition formatTime (t : Z) : chars :=
  s2l "time.Date(" ++ join spaced (s2l ∘ itoa <$> time_fields t) ++ s2l ", time.UTC)".

Definition tab : ascii := "009".
Definition newline : ascii := "010".
(** "\t\t<label>" and ",": one field of an anchor's literal *)
Definition field_line (label : string) (v : chars) : chars := tab :: tab :: s2l label ++ v ++ [","%char].
Definition open_line : chars := tab :: s2l "{".
Definition close_line : chars := tab :: s2l "},".
Definition anchor_lines (a : genAnchor) : list chars :=
  [open_line;
   field_line "Name:       " (quote (s2l (GName a)));
   field_line "Issuer:     " (quote (s2l (GIssuer a)));
   field_line "SPKI:       " (s2l "[]byte{" ++ formatBytes (GSpki a) ++ s2l "}");
   field_line "ValidFrom:  " (formatTime (GValidFrom a));
   field_line "ValidUntil: " (formatTime (GValidUntil a));
   close_line].
Definition var_line : chars := s2l "var embedded = []Anchor{".
Definition header_lines (pkgName : string) : list chars :=
  [s2l "// Code generated by cmd/anchorgen. DO NOT EDIT.";
   s2l "// Source: anchors.yaml — re-run `go generate ./internal/trustanchor`";
   s2l "// to regenerate after editing the YAML descriptor.";
   [];
   s2l "package " ++ s2l pkgName;
   [];
   s2l "import " ++ quote (s2l "time");
   [];
   s2l "// embedded carries the SubjectPublicKeyInfo (DER) for each pinned";
   s2l "// anchor; NewSet inflates SPKI into *ecdsa.PublicKey at package-init time.";
   var_line].
Definition unlines (l : list chars) : chars := l ≫= (fun w => w ++ [newline]).
(** The buffer before format.Source. *)
Definition source_text (pkgName : string) (anchors : list genAnchor) : chars :=
  unlines (header_lines pkgName ++ (anchors ≫= anchor_lines) ++ [s2l "}"]).

Inductive run_error :=
  | ERead
  | EParseYAML
  | ENoAnchors
  | EDecode (e : gen_error)
  | EGofmt
  | EWrite.

(** [format_source]: format.Source. *)
Definition emit (format_source : chars -> option chars) (pkgName : string) (anchors : list genAnchor) : result run_error chars :=
  of_option EGofmt (format_source (source_text pkgName anchors)).

Section run.
Context {C : Crypto} {P : PemX509} {SS : SortSlice}.
Context (parse_rfc3339 : string -> option Z) (MarshalPKIX : PublicKey -> option chars)
  (format_source : chars -> option chars) (yaml : chars -> option (list yamlAnchor)).

(** [input] is what reading the descriptor gives; [write] the outcome of
    writing a text, the file after a failure included. The state is the file
    at the output path. *)
Definition run (input : option chars) (write : chars -> bool * option chars) (pkgName : string)
    : action (option chars) run_error unit := fun out =>
  match
    raw ← of_option ERead input;
    doc ← of_option EParseYAML (yaml raw);
    if bool_decide (doc = []) then Err ENoAnchors
    else anchors ← map_err EDecode (decode parse_rfc3339 MarshalPKIX doc); emit format_source pkgName anchors
  with
  | Err e => (Err e, out)
  | Ok src => let '(ok, file) := write src in if ok then (Ok tt, Some src) else (Err EWrite, file)
  end.
End run.

(** ** Reading the literals *)
Definition unhex (c : ascii) : option N :=
  let n := code c in
  if is_digit c then Some (n - 48)%N
  else if (97 <=? n)%N && (n <=? 102)%N then Some (n - 87)%N else None.
Definition unhex2 (a b : ascii) : option ascii := h ← unhex a; l ← unhex b; Some (ascii_of_N (h * 16 + l)).

Fixpoint read_bytes (l : chars) : option chars :=
  match l with
  | [] => Some []
  | "0"%char :: "x"%char :: a :: b :: rest =>
    c ← unhex2 a b;
    match rest with
    | [] => Some [c]
    | ","%char :: " "%char :: rest' => cs ← read_bytes rest'; Some (c :: cs)
    | _ => None
    end
  | _ => None
  end.

(** The body of an interpreted string literal. *)
Fixpoint unescape (l : chars) : option chars :=
  match l with
  | [] => Some []
  | "\"%char :: "x"%char :: a :: b :: l' => c ← unhex2 a b; cs ← unescape l'; Some (c :: cs)
  | "\"%char :: e :: l' =>
    c ← (match N.to_nat (code e) with
         | 34 => Some (ascii_of_N 34) | 92 => Some (ascii_of_N 92) | 97 => Some (ascii_of_N 7) | 98 => Some (ascii_of_N 8)
         | 102 => Some (ascii_of_N 12) | 110 => Some (ascii_of_N 10) | 114 => Some (ascii_of_N 13)
         | 116 => Some (ascii_of_N 9) | 118 => Some (ascii_of_N 11) | _ => None
         end);
    cs ← unescape l'; Some (c :: cs)
  | c :: l' => cs ← unescape l'; Some (c :: cs)
  end.

Definition between (p s : chars) (l : chars) : option chars := r ← strip_prefix p l; strip_suffix s r.
Definition unquote (l : chars) : option string := l2s <$> (between [dquote] [dquote] l ≫= unescape).
Definition read_field (label : string) (l : chars) : option chars := between (tab :: tab :: s2l label) [","%char] l.
Definition read_spki (l : chars) : option chars := between (s2l "[]byte{") (s2l "}") l ≫= read_bytes.
Definition unspaced (w : chars) : chars := match w with " "%char :: w' => w' | _ => w end.
Definition read_date (l : chars) : option Z :=
  l ← between (s2l "time.Date(") (s2l ", time.UTC)") l;
  match (fun w => parse_uint (l2s (unspaced w))) <$> split ","%char l with
  | [y; m; d; hh; mm; ss; ns] => Some (Date y m d hh mm ss ns)
  | _ => None
  end.

Fixpoint read_anchors (l : list chars) : option (list genAnchor) :=
  match l with
  | o :: n :: i :: k :: f :: u :: c :: l' =>
    if bool_decide (o = open_line) && bool_decide (c = close_line) then
      name ← (read_field "Name:       " n ≫= unquote);
      issuer ← (read_field "Issuer:     " i ≫= unquote);
      spki ← (read_field "SPKI:       " k ≫= read_spki);
      from ← (read_field "ValidFrom:  " f ≫= read_date);
      until ← (read_field "ValidUntil: " u ≫= read_date);
      rest ← read_anchors l';
      Some ({| GName := name; GIssuer := issuer; GValidFrom := from; GValidUntil := until; GSpki := spki |} :: rest)
    else if bool_decide (o = s2l "}") then Some [] else None
  | w :: _ => if bool_decide (w = s2l "}") then Some [] else None
  | [] => None
  end.
Fixpoint after_line (w : chars) (l : list chars) : option (list chars) :=
  match l with
  | [] => None
  | x :: l' => if bool_decide (x = w) then Some l' else after_line w l'
  end.
Definition read_embedded (l : chars) : option (list genAnchor) := after_line var_line (split newline l) ≫= read_anchors.

(** ** Lemmas *)
Lemma between_app p s r : between p s (p ++ r ++ s) = Some r.
Proof.
  unfold between. assert (strip_prefix p (p ++ r ++ s) = Some (r ++ s)) as -> by (by apply strip_prefix_Some).
  by apply strip_suffix_Some.
Qed.
Lemma unhex2_digits c : unhex2 (hex_digit (code c / 16)) (hex_digit (code c mod 16)) = Some c.
Proof. by destruct c as [[] [] [] [] [] [] [] []]. Qed.

Lemma read_bytes_formatBytes b : read_bytes (formatBytes b) = Some b.
Proof.
  unfold formatBytes. induction b as [|c b IH]; [done|]. destruct b as [|c' b].
  - change (read_bytes (join spaced (byte_literal <$> [c]))) with
      (c0 ← unhex2 (hex_digit (code c / 16)) (hex_digit (code c mod 16)); Some [c0]).
    by rewrite unhex2_digits.
  - change (read_bytes (join spaced (byte_literal <$> c :: c' :: b))) with
      (c0 ← unhex2 (hex_digit (code c / 16)) (hex_digit (code c mod 16));
       cs ← read_bytes (join spaced (byte_literal <$> c' :: b)); Some (c0 :: cs)).
    by rewrite unhex2_digits, IH.
Qed.

Lemma unescape_escape c l : unescape (escape c ++ l) = cs ← unescape l; Some (c :: cs).
Proof. by destruct c as [[] [] [] [] [] [] [] []]. Qed.
Lemma unquote_quote s : unquote (quote (s2l s)) = Some s.
Proof.
  unfold unquote. change (quote (s2l s)) with ([dquote] ++ (s2l s ≫= escape) ++ [dquote]). rewrite between_app.
  cbn [mbind option_bind]. assert (unescape (s2l s ≫= escape) = Some (s2l s)) as ->.
  - induction (s2l s) as [|c l IH]; [done|]. cbn [mbind list_bind]. by rewrite unescape_escape, IH.
  - cbn. by rewrite l2s_s2l.
Qed.

(** *** Dates *)
Lemma date_in_era_bounds doe :
  (0 <= doe < era_days)%Z ->
  let yoe := ((doe - doe / 1460 + doe / 36524 - doe / 146096) / 365)%Z in
  let doy := (doe - (365 * yoe + yoe / 4 - yoe / 100))%Z in
  (0 <= yoe < 400 /\ 0 <= doy <= 366)%Z.
Proof.
  unfold era_days. cbv zeta. intros H.
  Z.to_euclidean_division_equations. lia.
Qed.

(** The civil date of a day number is a date, and the day numbered so. *)
Lemma days_of_civil days :
  let '(y, m, d) := civil days in days_of y m d = days /\ (1 <= m <= 12)%Z /\ (1 <= d <= 31)%Z.
Proof.
  unfold civil, date_in_era. set (z := (days + 719468)%Z).
  assert (0 <= z mod era_days < era_days)%Z as Hz by (apply Z.mod_pos_bound; done).
  destruct (date_in_era_bounds _ Hz) as [Hyoe Hdoy]. revert Hyoe Hdoy. cbv zeta.
  set (yoe := ((_ - _ + _ - _) / 365)%Z). set (doy := (z mod era_days - _)%Z). intros Hyoe Hdoy.
  set (mp := ((5 * doy + 2) / 153)%Z). assert (0 <= mp <= 11)%Z as Hmp by (subst mp; Z.to_euclidean_division_equations; lia).
  assert (1 <= doy - (153 * mp + 2) / 5 + 1 <= 31)%Z as Hd by (subst mp; Z.to_euclidean_division_equations; lia).
  pose proof (Z.div_mod z era_days ltac:(done)) as Hdm.
  assert (forall y, (y = yoe + z / era_days * 400)%Z -> (y / 400 = z / era_days /\ y mod 400 = yoe)%Z) as Hy.
  { intros y ->. split; [rewrite Z.div_add by done; rewrite Z.div_small by lia; lia|].
    rewrite Z.mod_add by done. by rewrite Z.mod_small. }
  destruct (Hy _ eq_refl) as [Hq Hr]. unfold days_of.
  destruct (Z.ltb_spec mp 10) as [Hlt|Hge].
  - rewrite (proj2 (Z.leb_gt (mp + 3) 2)) by lia. rewrite Hq, Hr. split_and!; [|lia..].
    replace (mp + 3 - 3)%Z with mp by lia. subst doy. lia.
  - rewrite (proj2 (Z.leb_le (mp - 9) 2)) by lia.
    replace (yoe + 1 + z / era_days * 400 - 1)%Z with (yoe + z / era_days * 400)%Z by lia.
    rewrite Hq, Hr. split_and!; [|lia..]. replace (mp - 9 + 9)%Z with mp by lia. subst doy. lia.
Qed.

(** The year of an instant; RFC 3339 has the years 0 to 9999. *)
Definition year_of (t : Z) : Z := (civil (t / second / 86400)).1.1.

Lemma split_spaced (w : chars) ws :
  Forall (fun v => ","%char ∉ v) (w :: ws) -> split ","%char (join spaced (w :: ws)) = w :: (cons " "%char <$> ws).
Proof.
  revert w. induction ws as [|v ws IH]; intros w Hall; apply Forall_cons in Hall as [Hw Hall].
  - by apply split_nosep.
  - change (join spaced (w :: v :: ws)) with (w ++ ","%char :: (" "%char :: join spaced (v :: ws))).
    rewrite split_app by done. specialize (IH v Hall). cbn [split].
    change (eqb " " ",") with false. cbn iota. by rewrite IH.
Qed.

Lemma unspaced_itoa z : unspaced (s2l (itoa z)) = s2l (itoa z).
Proof.
  pose proof (itoa_clean z " "%char eq_refl ltac:(done)) as H. destruct (s2l (itoa z)) as [|c l] eqn:E; [done|].
  destruct (decide (c = " "%char)) as [->|Hc]; [destruct H; by left|].
  by destruct c as [[] [] [] [] [] [] [] []].
Qed.

Definition readable_field (z : Z) : Prop := (0 <= z <= uint64_max)%Z.
Lemma read_fields zs :
  Forall readable_field zs -> zs <> [] ->
  (fun w => parse_uint (l2s (unspaced w))) <$> split ","%char (join spaced (s2l ∘ itoa <$> zs)) = zs.
Proof.
  intros Hz Hne. destruct zs as [|z zs]; [done|]. cbn [fmap list_fmap]. rewrite split_spaced.
  - apply Forall_cons in Hz as [Hz Hzs]. cbn [fmap list_fmap compose]. rewrite unspaced_itoa, l2s_s2l, parse_uint_itoa by done. f_equal.
    rewrite <-!list_fmap_compose. induction Hzs as [|z' zs Hz' _ IH]; [done|]. cbn [fmap list_fmap]. f_equal; [|by apply IH].
    unfold compose. cbn [unspaced]. by rewrite l2s_s2l, parse_uint_itoa.
  - apply Forall_cons. split; [by apply itoa_clean|]. apply Forall_fmap, Forall_forall. intros z' _. by apply itoa_clean.
Qed.

Lemma time_fields_ok t :
  (0 <= year_of t <= 9999)%Z ->
  exists y m d hh mm ss ns, time_fields t = [y; m; d; hh; mm; ss; ns] /\ Forall readable_field (time_fields t) /\
    Date y m d hh mm ss ns = t.
Proof.
  unfold year_of, time_fields, Date. intros Hy. pose proof (days_of_civil (t / second / 86400)) as Hc.
  destruct (civil (t / second / 86400)) as [[y m] d]. cbn in Hy. destruct Hc as (Hd & Hm & Hdd).
  do 7 eexists. split; [reflexivity|]. unfold readable_field. rewrite Hd. clear Hd.
  change uint64_max with 18446744073709551615%Z. change second with 1000000000%Z. split.
  - repeat apply Forall_cons_2; [..|apply Forall_nil_2]; Z.to_euclidean_division_equations; lia.
  - Z.to_euclidean_division_equations. lia.
Qed.

Lemma read_date_formatTime t : (0 <= year_of t <= 9999)%Z -> read_date (formatTime t) = Some t.
Proof.
  intros Hy. destruct (time_fields_ok t Hy) as (y & m & d & hh & mm & ss & ns & E & Hf & Hd).
  unfold read_date, formatTime. rewrite between_app. cbn [mbind option_bind].
  rewrite read_fields by (done || by rewrite E). by rewrite E, Hd.
Qed.

(** *** Lines *)
Definition one_line (w : chars) : Prop := newline ∉ w.
Lemma split_unlines l : Forall one_line l -> split newline (unlines l) = l ++ [[]].
Proof.
  induction 1 as [|w l Hw _ IH]; [done|]. change (unlines (w :: l)) with ((w ++ [newline]) ++ unlines l).
  rewrite <-app_assoc. cbn [app]. rewrite split_app by done. by rewrite IH.
Qed.
Lemma one_line_app v w : one_line (v ++ w) <-> one_line v /\ one_line w.
Proof. unfold one_line. rewrite elem_of_app. tauto. Qed.
Lemma one_line_dec w : bool_decide (newline ∉ w) = true -> one_line w.
Proof. by intros ?%bool_decide_eq_true. Qed.

Lemma escape_line c : one_line (escape c).
Proof. apply one_line_dec. by destruct c as [[] [] [] [] [] [] [] []]. Qed.
Lemma quote_line w : one_line (quote w).
Proof.
  unfold quote. change (one_line ([dquote] ++ (w ≫= escape) ++ [dquote])). rewrite !one_line_app. split_and!; [by apply one_line_dec| |by apply one_line_dec].
  intros (c & Hc & Hin)%list_elem_of_bind. by apply escape_line in Hc.
Qed.
Lemma spaced_line ws : Forall one_line ws -> one_line (join spaced ws).
Proof.
  induction 1 as [|w ws Hw Hws IH]; [by apply one_line_dec|]. destruct ws as [|v ws]; [done|].
  change (one_line (w ++ spaced ++ join spaced (v :: ws))). rewrite !one_line_app. split_and!; [done|by apply one_line_dec|done].
Qed.
Lemma formatBytes_line b : one_line (formatBytes b).
Proof.
  apply spaced_line, Forall_fmap, Forall_forall. intros c _. apply one_line_dec. by destruct c as [[] [] [] [] [] [] [] []].
Qed.
Lemma formatTime_line t : one_line (formatTime t).
Proof.
  unfold formatTime. rewrite !one_line_app. split_and!; [by apply one_line_dec| |by apply one_line_dec].
  apply spaced_line, Forall_fmap, Forall_forall. intros z _. by apply itoa_clean.
Qed.
Lemma field_line_line label v : bool_decide (newline ∉ s2l label) = true -> one_line v -> one_line (field_line label v).
Proof.
  intros Hl%bool_decide_eq_true Hv. change (one_line ([tab; tab] ++ s2l label ++ v ++ [","%char])). rewrite !one_line_app.
  split_and!; [by apply one_line_dec|done..|by apply one_line_dec].
Qed.
Lemma anchor_lines_line a : Forall one_line (anchor_lines a).
Proof.
  unfold anchor_lines. repeat apply Forall_cons_2; [..|apply Forall_nil_2]; try (by apply one_line_dec);
    apply field_line_line; try reflexivity; try apply quote_line; try apply formatTime_line.
  rewrite !one_line_app. split_and!; [by apply one_line_dec|apply formatBytes_line|by apply one_line_dec].
Qed.

Lemma read_field_line label v : read_field label (field_line label v) = Some v.
Proof.
  unfold read_field, field_line. change (tab :: tab :: s2l label ++ v ++ [","%char]) with ((tab :: tab :: s2l label) ++ v ++ [","%char]).
  apply between_app.
Qed.

(** The years RFC 3339 writes. *)
Definition has_rfc_years (a : genAnchor) : Prop := (0 <= year_of (GValidFrom a) <= 9999)%Z /\ (0 <= year_of (GValidUntil a) <= 9999)%Z.
Lemma read_anchors_lines anchors rest :
  Forall has_rfc_years anchors -> read_anchors ((anchors ≫= anchor_lines) ++ s2l "}" :: rest) = Some anchors.
Proof.
  induction 1 as [|a anchors [Hf Hu] _ IH].
  - cbn [mbind list_bind app]. destruct rest as [|? [|? [|? [|? [|? [|? ?]]]]]]; reflexivity.
  - change ((a :: anchors) ≫= anchor_lines) with (anchor_lines a ++ (anchors ≫= anchor_lines)). rewrite <-app_assoc.
    unfold anchor_lines at 1. cbn [app read_anchors].
    rewrite !read_field_line, !bool_decide_eq_true_2 by done. cbn [andb]. cbn [mbind option_bind].
    unfold read_spki. rewrite !unquote_quote, between_app. cbn [mbind option_bind].
    rewrite read_bytes_formatBytes, !read_date_formatTime by done. cbn [mbind option_bind]. rewrite IH. by destruct a.
Qed.

Lemma after_header pkgName rest : after_line var_line (header_lines pkgName ++ rest) = Some rest.
Proof.
  unfold header_lines. cbn [app after_line]. repeat (rewrite bool_decide_eq_false_2 by done).
  by rewrite bool_decide_eq_true_2.
Qed.

Lemma embedded_source_reads_back (pkgName : string) (anchors : list genAnchor) :
  newline ∉ s2l pkgName -> Forall has_rfc_years anchors ->
  read_embedded (source_text pkgName anchors) = Some anchors.
Proof.
  intros Hp Ha. unfold read_embedded, source_text. rewrite split_unlines.
  - rewrite <-app_assoc, after_header. cbn [mbind option_bind]. rewrite <-app_assoc. by apply read_anchors_lines.
  - rewrite !Forall_app. split_and!; [| |repeat constructor; by apply one_line_dec].
    + unfold header_lines. repeat apply Forall_cons_2; [..|apply Forall_nil_2]; try (by apply one_line_dec).
      rewrite one_line_app. split; [by apply one_line_dec|done].
    + apply Forall_forall. intros w (a & Hw & _)%list_elem_of_bind. pose proof (anchor_lines_line a) as Hl.
      rewrite Forall_forall in Hl. by apply Hl.
Qed.

(** [quote] is Go's on ASCII. *)
Definition ascii_names (a : genAnchor) : Prop := Forall (fun c => (code c < 128)%N) (s2l (GName a) ++ s2l (GIssuer a)).

Section anchorgen.
Context {C : Crypto} {P : PemX509} {SS : SortSlice}.
Context (parse_rfc3339 : string -> option Z) (MarshalPKIX : PublicKey -> option chars)
  (format_source : chars -> option chars) (yaml : chars -> option (list yamlAnchor)).

(** C29: Nothing is lost on the way into the binary, as long as the texts are plain. A
    run of the generator that succeeds read a descriptor whose anchors all passed
    the checks of [decode], and leaves at the output path what gofmt makes of the
    source text of those anchors. If the package name has no line break, the names
    and issuers are ASCII and the windows lie in years of four digits, that text,
    read as Go reads literals, is those anchors: names, issuers, every byte of the
    keys, and the windows to the nanosecond; and no two such sets of anchors have
    one text. (How %q writes other letters is not modelled.) A run that fails
    before it writes leaves the output as it was. *)
Theorem anchorgen_writes_anchors input write pkgName out r out' :
  run parse_rfc3339 MarshalPKIX format_source yaml input write pkgName out = (r, out') ->
  match r with
  | Ok _ => exists raw doc anchors src,
      input = Some raw /\ yaml raw = Some doc /\ doc <> [] /\ decode parse_rfc3339 MarshalPKIX doc = Ok anchors /\
      format_source (source_text pkgName anchors) = Some src /\ out' = Some src /\
      (newline ∉ s2l pkgName -> Forall has_rfc_years anchors -> Forall ascii_names anchors ->
       read_embedded (source_text pkgName anchors) = Some anchors /\
       forall anchors', Forall has_rfc_years anchors' -> Forall ascii_names anchors' ->
         source_text pkgName anchors' = source_text pkgName anchors -> anchors' = anchors)
  | Err EWrite => exists src, out' = (write src).2
  | Err _ => out' = out
  end.
Proof.
  unfold run, emit. destruct input as [raw|]; cbn -[source_text decode]; [|by intros [= <- <-]].
  destruct (yaml raw) as [doc|] eqn:Ey; cbn -[source_text decode]; [|by intros [= <- <-]].
  case_bool_decide as Hne; [by intros [= <- <-]|].
  destruct (decode _ _ doc) as [anchors|e] eqn:Ed; cbn -[source_text]; [|by intros [= <- <-]].
  destruct (format_source (source_text pkgName anchors)) as [src|] eqn:Ef; cbn -[source_text]; [|by intros [= <- <-]].
  destruct (write src) as [[] file] eqn:Ew; intros [= <- <-]; [|exists src; by rewrite Ew].
  exists raw, doc, anchors, src. split_and!; try done. intros Hp Ha _.
  assert (forall l, Forall has_rfc_years l -> read_embedded (source_text pkgName l) = Some l) as Hrd
    by (intros; by apply embedded_source_reads_back).
  split; [by apply Hrd|]. intros l Hl _ Heq. apply Hrd in Hl. rewrite Heq, Hrd in Hl by done. congruence.
Qed.
End anchorgen.

(** A run over two descriptors; the file is read back. *)
Lemma anchorgen_writes_anchors_witness :
  let write src := (true, Some src) in
  let text := source_text "trustanchor" ToyAnchors.gs in
  run (C := Toy.crypto) (P := ToyAnchors.pem) (SS := insertion_sort) ToyAnchors.rfc3339 ToyAnchors.marshal Some
    (fun _ => Some ToyAnchors.ys) (Some []) write "trustanchor" None = (Ok tt, Some text) /\
  read_embedded text = Some ToyAnchors.gs.
Proof.
  intros write text.
  assert (run (C := Toy.crypto) (P := ToyAnchors.pem) (SS := insertion_sort) ToyAnchors.rfc3339 ToyAnchors.marshal Some
    (fun _ => Some ToyAnchors.ys) (Some []) write "trustanchor" None = (Ok tt, Some text)) as E by (vm_compute; reflexivity).
  split; [exact E|].
  destruct (anchorgen_writes_anchors (C := Toy.crypto) (P := ToyAnchors.pem) (SS := insertion_sort) _ _ _ _ _ _ _ _ _ _ E)
    as (raw & doc & anchors & src & [= <-] & [= <-] & _ & Hd & _ & _ & H).
  assert (anchors = ToyAnchors.gs) as -> by (unfold ToyAnchors.gs; by rewrite Hd).
  apply H; [apply one_line_dec; vm_compute; reflexivity|repeat constructor; vm_compute; discriminate|].
  repeat constructor.
Defined.
