(* ===== verification/Reachability.v ===== *)
(** Endpoint probing: internal/reachability (reachability.go, prober.go).

    One probe is a function of what the clock and the socket give ([conn]); a
    round is a step relation of the launching loop and its goroutines; Run is
    a fold over the rounds and what the consumer's channel does. *)
From stdpp Require Import base tactics list sorting sets strings.
From Stdlib Require Import ZArith Ascii Lia.
From S2P Require Import Prelude GoStr GoSort.
Local Open Scope list_scope.

Definition DefaultTimeout : Z := (3 * second)%Z.
Definition DefaultMaxParallel : Z := 5.
Definition DefaultInterval : Z := (5 * 60 * second)%Z.
Definition NetworkTCP : string := "tcp".
Definition NetworkUDP : string := "udp".

Record Endpoint := { Network : string; Address : string }.
Definition network (e : Endpoint) : string :=
  if bool_decide (Network e = "") then NetworkUDP else Network e.

Inductive probe_error := EUnknownNetwork (n : string) | EConn (msg : string) | ECtx.
Record Result := { REndpoint : Endpoint; Reachable : bool; RTT : Z; RErr : option probe_error }.

Definition EndpointsUDP (addrs : list string) : list Endpoint :=
  (fun a => {| Network := NetworkUDP; Address := a |}) <$> addrs.

Definition defaultUDPPayload : chars := bytes_of [0;0;1;0;0;0;0;0;0;0;0;0]%N.

Record Prober := { PTimeout : Z; PMaxParallel : Z; PUDPPayload : option chars }.

Definition timeout (p : Prober) : Z := if (0 <? PTimeout p)%Z then PTimeout p else DefaultTimeout.
Definition maxParallel (p : Prober) : Z := if (0 <? PMaxParallel p)%Z then PMaxParallel p else DefaultMaxParallel.
Definition udpPayload (p : Prober) : chars := default defaultUDPPayload (PUDPPayload p).

(** What one probe meets: the successive readings of the clock, and the
    errors of the dial and of the connection's calls. *)
Record conn := {
  clock0 : Z;
  clock1 : Z;
  clock2 : Z;
  dial : string -> string -> Z -> option string;
  set_deadline : Z -> option string;
  write : chars -> option string;
  read : option string }.

Definition unreachable (ep : Endpoint) (e : probe_error) : Result :=
  {| REndpoint := ep; Reachable := false; RTT := 0; RErr := Some e |}.
Definition reached (ep : Endpoint) (rtt : Z) : Result :=
  {| REndpoint := ep; Reachable := true; RTT := rtt; RErr := None |}.

Definition probeTCP (c : conn) (ep : Endpoint) (timeout : Z) : Result :=
  let rtt := time_sub (clock1 c) (clock0 c) in
  match dial c NetworkTCP (Address ep) timeout with
  | Some e => unreachable ep (EConn e)
  | None => reached ep rtt
  end.

Definition probeUDP (p : Prober) (c : conn) (ep : Endpoint) (timeout : Z) : Result :=
  match dial c NetworkUDP (Address ep) timeout with
  | Some e => unreachable ep (EConn e)
  | None =>
    let deadline := (clock0 c + timeout)%Z in
    match set_deadline c deadline with
    | Some e => unreachable ep (EConn e)
    | None =>
      match write c (udpPayload p) with
      | Some e => unreachable ep (EConn e)
      | None =>
        match read c with
        | Some e => unreachable ep (EConn e)
        | None => reached ep (time_sub (clock2 c) (clock1 c))
        end
      end
    end
  end.

Definition probeOne (p : Prober) (c : conn) (ep : Endpoint) : Result :=
  if bool_decide (network ep = NetworkTCP) then probeTCP c ep (timeout p)
  else if bool_decide (network ep = NetworkUDP) then probeUDP p c ep (timeout p)
  else unreachable ep (EUnknownNetwork (Network ep)).

Definition result_less (a b : Result) : bool :=
  if negb (Bool.eqb (Reachable a) (Reachable b)) then Reachable a
  else if negb (Reachable a) then false
  else (RTT a <? RTT b)%Z.

Definition sortResults (rs : list Result) : list Result := slice_stable result_less rs.

(** ** One round *)
Section pool.
Context (p : Prober) (conns : nat -> conn) (endpoints : list Endpoint).

(** The loop variable, whether the loop saw the cancelled context, the
    goroutines that hold the semaphore, and the results array. *)
Record pool := { next : nat; stopped : bool; workers : list nat; slots : list (option Result) }.

Definition pool_init : pool :=
  {| next := 0; stopped := false; workers := []; slots := replicate (length endpoints) None |}.

(** Probe's loop over [j := i .. len(endpoints)) on cancellation. *)
Definition mark_rest (i : nat) (l : list (option Result)) : list (option Result) :=
  take i l ++ ((fun ep => Some (unreachable ep ECtx)) <$> drop i endpoints).

Inductive pool_step : pool -> pool -> Prop :=
  | step_launch st ep :
      stopped st = false -> endpoints !! next st = Some ep ->
      (Z.of_nat (length (workers st)) < maxParallel p)%Z ->
      pool_step st {| next := S (next st); stopped := false; workers := next st :: workers st; slots := slots st |}
  | step_finish st l1 i l2 ep :
      workers st = l1 ++ i :: l2 -> endpoints !! i = Some ep ->
      pool_step st {| next := next st; stopped := stopped st; workers := l1 ++ l2;
                      slots := <[i := Some (probeOne p (conns i) ep)]> (slots st) |}
  | step_cancel st :
      stopped st = false -> next st < length endpoints ->
      pool_step st {| next := next st; stopped := true; workers := workers st;
                      slots := mark_rest (next st) (slots st) |}.

(** The loop is over and the WaitGroup is at zero. *)
Definition pool_done (st : pool) : Prop :=
  (stopped st = true \/ next st = length endpoints) /\ workers st = [].

(** What [Probe] returns in a final state: nil on no endpoints. *)
Definition Probe_result (st : pool) : list Result :=
  if length endpoints =? 0 then [] else sortResults (omap id (slots st)).

Definition probe_all : list Result := imap (fun i ep => probeOne p (conns i) ep) endpoints.
End pool.

(** ** Run *)
Definition fingerprint_one (r : Result) : chars :=
  s2l (network (REndpoint r)) ++ "|"%char :: s2l (Address (REndpoint r)) ++ "|"%char ::
  (if Reachable r then ["1"%char] else ["0"%char]).
Definition fingerprint (rs : list Result) : chars := join [","%char] (fingerprint_one <$> rs).

(** prev before the first round: a text [fingerprint] never produces. *)
Definition uninit : chars := "000"%char :: s2l "uninit".

(** What the select of [emit] meets: nil channel, a ready receiver, the
    cancelled context, a full channel. *)
Inductive consumer := NilChannel | Ready | CtxDone | Full.

Record run_state := { prev : chars; delivered : list (list Result) }.
Definition run_init : run_state := {| prev := uninit; delivered := [] |}.

Definition emit (st : run_state) (round : list Result * consumer) : run_state :=
  let '(rs, c) := round in
  let fp := fingerprint rs in
  if bool_decide (fp = prev st) then st
  else {| prev := fp;
          delivered := match c with Ready => delivered st ++ [rs] | _ => delivered st end |}.

Definition Run (rounds : list (list Result * consumer)) : run_state := foldl emit run_init rounds.

Definition interval_or_default (i : Z) : Z := if (i <=? 0)%Z then DefaultInterval else i.

(** ** Lemmas *)
#[export] Instance result_less_order : WeakOrder result_less.
Proof.
  split.
  - intros [? [] ra ?] [? [] rb ?]; cbn; unfold result_less; cbn; lia || done.
  - intros [? [] ra ?] [? [] rb ?] [? [] rc ?]; unfold result_less; cbn; lia || done.
Qed.

(** The order of the candidates. [sortResults] returns a permutation of
    its input in which no unreachable endpoint precedes a reachable one and
    reachable ones are in ascending RTT; the unreachable keep their input
    order, and so do reachable endpoints of equal RTT. *)
Theorem sortResults_order (rs : list Result) :
  sortResults rs ≡ₚ rs /\
  (exists up down, sortResults rs = up ++ down /\
     Forall (fun r => Reachable r = true) up /\ down = filter (fun r => Reachable r = false) rs /\
     StronglySorted (fun a b => (RTT a <= RTT b)%Z) up) /\
  forall rtt, filter (fun r => Reachable r = true /\ RTT r = rtt) (sortResults rs) =
              filter (fun r => Reachable r = true /\ RTT r = rtt) rs.
Proof.
  split_and!.
  - apply slice_stable_perm.
  - exists (filter (fun r => Reachable r = true) (sortResults rs)), (filter (fun r => Reachable r = false) rs).
    unfold sortResults.
    rewrite <-(slice_stable_filter result_less (fun r => Reachable r = false) rs).
    2: { intros [? [] ? ?] [? [] ? ?]; by unfold result_less; cbn. }
    pose proof (slice_stable_sorted result_less rs) as Hs.
    split_and!; [|apply Forall_forall; by intros x [? _]%list_elem_of_filter|done|].
    + induction Hs as [|r l Hl IH Hr]; [done|]. rewrite !filter_cons.
      destruct (Reachable r) eqn:E.
      * rewrite decide_True, decide_False by congruence. cbn. by f_equal.
      * rewrite decide_False, decide_True by congruence.
        assert (filter (fun r => Reachable r = true) l = []) as En.
        { destruct (filter _ l) as [|x k] eqn:Ek; [done|]. exfalso.
          assert (x ∈ filter (fun r => Reachable r = true) l) as [Hx Hin]%list_elem_of_filter by (rewrite Ek; set_solver).
          rewrite Forall_forall in Hr. specialize (Hr x Hin). unfold not_after, result_less in Hr.
          by rewrite E, Hx in Hr. }
        rewrite En in *. cbn in *. by f_equal.
    + induction Hs as [|r l Hl IH Hr]; [constructor|]. rewrite filter_cons. case_decide as E; [|done].
      constructor; [done|]. apply Forall_forall. intros x [Hx Hin]%list_elem_of_filter.
      rewrite Forall_forall in Hr. specialize (Hr x Hin). unfold not_after, result_less in Hr.
      rewrite E, Hx in Hr. cbn in Hr. lia.
  - intros rtt. apply slice_stable_filter; [apply _|]. intros a b [Ha Hra] [Hb Hrb].
    unfold result_less. rewrite Ha, Hb. cbn. lia.
Qed.

Lemma omap_id_Some {A} (l : list A) : omap id (Some <$> l) = l.
Proof. induction l as [|x l IH]; [done|]. cbn. by f_equal. Qed.

Lemma maxParallel_pos p : (0 < maxParallel p)%Z.
Proof. unfold maxParallel, DefaultMaxParallel. destruct (Z.ltb_spec 0 (PMaxParallel p)); lia. Qed.

Section pool_lemmas.
Context (p : Prober) (conns : nat -> conn) (endpoints : list Endpoint).

Definition outcome (i : nat) : option Result := probeOne p (conns i) <$> endpoints !! i.

Record pool_ok (st : pool) : Prop := {
  po_next : next st <= length endpoints;
  po_len : length (slots st) = length endpoints;
  po_bound : (Z.of_nat (length (workers st)) <= maxParallel p)%Z;
  po_nodup : NoDup (workers st);
  po_workers : forall i, i ∈ workers st -> i < next st;
  po_filled : forall i, i < next st -> (i ∉ workers st) -> slots st !! i = Some (outcome i);
  po_rest : stopped st = true -> forall i ep, next st <= i -> endpoints !! i = Some ep ->
    slots st !! i = Some (Some (unreachable ep ECtx)) }.

Lemma length_mark_rest i l : length l = length endpoints -> length (mark_rest endpoints i l) = length l.
Proof. unfold mark_rest. intros. rewrite length_app, length_take, length_fmap, length_drop. lia. Qed.

Lemma pool_init_ok : pool_ok (pool_init endpoints).
Proof.
  split; cbn; [lia|by rewrite length_replicate|pose proof (maxParallel_pos p); lia|constructor| |lia|done].
  by intros i ?%elem_of_nil.
Qed.

Lemma pool_step_ok st st' : pool_ok st -> pool_step p conns endpoints st st' -> pool_ok st'.
Proof.
  intros [H1 H2 H3 H4 H5 H6 H7] Hs. destruct Hs as [st ep Hst Hep Hw|st l1 i l2 ep Hw Hep|st Hst Hn].
  - apply lookup_lt_Some in Hep. split; cbn; [lia|done|lia| | | |by intros].
    + apply NoDup_cons. split; [|done]. intros Hin%H5. lia.
    + intros i [->|Hi%H5]%elem_of_cons; lia.
    + intros i Hi Hni. apply not_elem_of_cons in Hni as [Hne Hni]. apply H6; [lia|done].
  - assert (i < next st) as Hi by (apply H5; rewrite Hw; set_solver).
    rewrite Hw in H4. apply NoDup_app in H4 as (Hn1 & Hn2 & [Hil2 Hn3]%NoDup_cons).
    assert (i ∉ l1 ++ l2) as Hni. { intros [Ha|Hb]%elem_of_app; [|done]. apply (Hn2 _ Ha). set_solver. }
    split; cbn; [done|by rewrite length_insert| | | | |].
    + rewrite Hw, length_app in H3. rewrite length_app. cbn in H3. lia.
    + apply NoDup_app. split_and!; [done| |done]. intros x Hx Hx2. apply (Hn2 x Hx). set_solver.
    + intros j Hj. apply H5. rewrite Hw. set_solver.
    + intros j Hj Hnj. destruct (decide (j = i)) as [->|Hne].
      * rewrite list_lookup_insert_eq by lia. unfold outcome. by rewrite Hep.
      * rewrite list_lookup_insert_ne by done. apply H6; [done|]. rewrite Hw. set_solver.
    + intros Hst j ep' Hj Hep'. rewrite list_lookup_insert_ne by lia. by apply H7.
  - split; cbn; [done|by rewrite length_mark_rest|done..| |].
    + intros i Hi Hni. unfold mark_rest. rewrite lookup_app_l by (rewrite length_take; lia).
      rewrite lookup_take by done. rewrite decide_True by done. by apply H6.
    + intros _ i ep Hi Hep. pose proof (lookup_lt_Some _ _ _ Hep). unfold mark_rest.
      rewrite lookup_app_r; rewrite length_take, Nat.min_l by lia; [|done].
      rewrite list_lookup_fmap, lookup_drop. replace (next st + (i - next st)) with i by lia.
      by rewrite Hep.
Qed.

(** Every step makes progress. *)
Definition pool_measure (st : pool) : nat :=
  (if stopped st then 0 else 2 * (length endpoints - next st)) + length (workers st).

Lemma pool_step_measure st st' : pool_step p conns endpoints st st' -> pool_measure st' < pool_measure st.
Proof.
  unfold pool_measure. destruct 1 as [st ep Hst Hep Hw|st l1 i l2 ep Hw Hep|st Hst Hn]; cbn.
  - apply lookup_lt_Some in Hep. rewrite Hst. lia.
  - rewrite Hw, !length_app. cbn. lia.
  - rewrite Hst. lia.
Qed.

Lemma pool_progress st : pool_ok st -> pool_done endpoints st \/ exists st', pool_step p conns endpoints st st'.
Proof.
  intros [H1 H2 H3 H4 H5 H6 H7]. destruct (workers st) as [|i ws] eqn:Ew.
  - destruct (decide (stopped st = true \/ next st = length endpoints)) as [Hd|Hd]; [left; by split|].
    right. destruct (endpoints !! next st) as [ep|] eqn:Ee.
    + eexists. eapply step_launch; [by destruct (stopped st); [destruct Hd; left|]|done|].
      rewrite Ew. pose proof (maxParallel_pos p). done.
    + apply lookup_ge_None in Ee. destruct Hd. right. lia.
  - right. assert (i < length endpoints) as Hi.
    { pose proof (H5 i ltac:(set_solver)). lia. }
    apply lookup_lt_is_Some in Hi as [ep Hep]. eexists. eapply (step_finish _ _ _ _ [] i ws); [done|exact Hep].
Qed.

(** What the array holds at the end, when the first [k] probes were launched. *)
Definition round_results (k : nat) : list Result :=
  take k (probe_all p conns endpoints) ++ ((fun ep => unreachable ep ECtx) <$> drop k endpoints).

Lemma pool_final st :
  pool_ok st -> pool_done endpoints st ->
  slots st = Some <$> round_results (next st) /\ (stopped st = false -> next st = length endpoints).
Proof.
  intros [H1 H2 H3 H4 H5 H6 H7] [Hd Hw]. split; [|by destruct Hd as [->|]]. apply list_eq. intros i.
  unfold round_results, probe_all. rewrite list_lookup_fmap.
  assert (length (take (next st) (imap (fun i ep => probeOne p (conns i) ep) endpoints)) = next st) as Hl
    by (rewrite length_take, length_imap; lia).
  destruct (decide (i < next st)) as [Hi|Hi].
  - rewrite H6 by (done || (rewrite Hw; apply not_elem_of_nil)).
    rewrite lookup_app_l by lia. rewrite lookup_take, decide_True, list_lookup_imap by done. unfold outcome.
    destruct (endpoints !! i) eqn:E; [done|]. apply lookup_ge_None in E. lia.
  - rewrite lookup_app_r by lia. rewrite Hl, list_lookup_fmap, lookup_drop.
    replace (next st + (i - next st)) with i by lia. destruct (endpoints !! i) as [ep|] eqn:E.
    + apply H7; [|lia|done]. destruct Hd as [Hd|Hd]; [done|]. apply lookup_lt_Some in E. lia.
    + apply lookup_ge_None in E. cbn. apply lookup_ge_None. lia.
Qed.
End pool_lemmas.

Definition pool_reachable (p : Prober) (conns : nat -> conn) (endpoints : list Endpoint) : pool -> Prop :=
  reachable (fun st (_ : unit) st' => pool_step p conns endpoints st st') (fun st => st = pool_init endpoints).

Lemma pool_reachable_ok p conns endpoints st : pool_reachable p conns endpoints st -> pool_ok p conns endpoints st.
Proof.
  apply reachable_invariant; [intros ? ->; apply pool_init_ok|intros s _ s' Hok; by apply pool_step_ok].
Qed.

(** C30: A probe round under every interleaving of its goroutines. At most
    [maxParallel] probes are in flight; the round never deadlocks and every
    step brings it closer to its end; and a finished round returns, sorted,
    one result per endpoint: the probe's own for the endpoints launched, the
    context's error for those that were not when it was cancelled, and no
    endpoint is left out unless it was cancelled. *)
Theorem Probe_any_interleaving (p : Prober) (conns : nat -> conn) (endpoints : list Endpoint) (st : pool) :
  pool_reachable p conns endpoints st ->
  (Z.of_nat (length (workers st)) <= maxParallel p)%Z /\
  (pool_done endpoints st \/ exists st', pool_step p conns endpoints st st') /\
  (forall st', pool_step p conns endpoints st st' -> pool_measure endpoints st' < pool_measure endpoints st) /\
  (pool_done endpoints st ->
   length (Probe_result endpoints st) = length endpoints /\
   Probe_result endpoints st = sortResults (round_results p conns endpoints (next st)) /\
   (stopped st = false -> Probe_result endpoints st = sortResults (probe_all p conns endpoints))).
Proof.
  intros Hok%pool_reachable_ok. split_and!.
  - apply Hok.
  - by apply pool_progress.
  - intros st'. apply pool_step_measure.
  - intros Hd. destruct (pool_final _ _ _ _ Hok Hd) as [Hs Hn].
    assert (Probe_result endpoints st = sortResults (round_results p conns endpoints (next st))) as E.
    { unfold Probe_result. rewrite Hs, omap_id_Some. destruct endpoints as [|ep eps]; cbn [length Nat.eqb].
      - unfold round_results, probe_all, imap. by rewrite drop_nil, take_nil.
      - done. }
    split_and!; [|done|].
    + rewrite E. unfold sortResults. rewrite slice_stable_perm. unfold round_results, probe_all.
      rewrite length_app, length_take, length_fmap, length_drop, length_imap.
      destruct Hok. lia.
    + intros Hst. rewrite E. unfold round_results. rewrite Hn, drop_ge, take_ge; [|unfold probe_all; rewrite length_imap; lia|lia|done].
      cbn. by rewrite app_nil_r.
Qed.

(** ** The fingerprint *)

(** The part of a result the fingerprint keeps. *)
Definition seen (r : Result) : string * string * bool :=
  (network (REndpoint r), Address (REndpoint r), Reachable r).
Definition view (rs : list Result) : list (string * string * bool) := seen <$> rs.

(** Networks and addresses without the separators. *)
Definition clean (r : Result) : Prop :=
  ("|"%char ∉ s2l (network (REndpoint r))) /\ (","%char ∉ s2l (network (REndpoint r))) /\
  ("|"%char ∉ s2l (Address (REndpoint r))) /\ (","%char ∉ s2l (Address (REndpoint r))).

Lemma fingerprint_one_inj r r' :
  clean r -> clean r' -> fingerprint_one r = fingerprint_one r' -> seen r = seen r'.
Proof.
  intros (Hn & _ & Ha & _) (Hn' & _ & Ha' & _). unfold fingerprint_one. intros E.
  assert (cut "|"%char (fingerprint_one r) = cut "|"%char (fingerprint_one r')) as Ec by (unfold fingerprint_one; by rewrite E).
  unfold fingerprint_one in Ec.
  rewrite (proj2 (cut_Some _ _ _ _) (conj eq_refl Hn)) in Ec.
  rewrite (proj2 (cut_Some _ _ _ _) (conj eq_refl Hn')) in Ec. injection Ec as En Er.
  assert (cut "|"%char (s2l (Address (REndpoint r)) ++ "|"%char :: (if Reachable r then ["1"%char] else ["0"%char])) =
          cut "|"%char (s2l (Address (REndpoint r')) ++ "|"%char :: (if Reachable r' then ["1"%char] else ["0"%char]))) as Ec by (by rewrite Er).
  rewrite (proj2 (cut_Some _ _ _ _) (conj eq_refl Ha)) in Ec.
  rewrite (proj2 (cut_Some _ _ _ _) (conj eq_refl Ha')) in Ec. injection Ec as Ea Eb.
  unfold seen. apply s2l_inj in En, Ea. rewrite En, Ea. by destruct (Reachable r), (Reachable r').
Qed.

Lemma fingerprint_one_nosep r : clean r -> ","%char ∉ fingerprint_one r.
Proof.
  intros (_ & Hn & _ & Ha). unfold fingerprint_one. rewrite !not_elem_of_app, !not_elem_of_cons, not_elem_of_app, not_elem_of_cons.
  split_and!; [done|done|done|done|]. destruct (Reachable r); set_solver.
Qed.

Lemma fingerprint_split rs : Forall clean rs -> rs <> [] -> split ","%char (fingerprint rs) = fingerprint_one <$> rs.
Proof.
  intros Hc Hne. apply split_join; [by destruct rs|]. apply Forall_fmap.
  eapply Forall_impl; [done|]. intros r. apply fingerprint_one_nosep.
Qed.

Lemma fingerprint_bar r rs : "|"%char ∈ fingerprint (r :: rs).
Proof.
  unfold fingerprint. cbn [fmap list_fmap]. assert ("|"%char ∈ fingerprint_one r) as H
    by (unfold fingerprint_one; apply elem_of_app; right; apply list_elem_of_here).
  destruct (fingerprint_one <$> rs); cbn [join]; [done|]. apply elem_of_app. by left.
Qed.

Lemma fingerprint_inj rs rs' :
  Forall clean rs -> Forall clean rs' -> fingerprint rs = fingerprint rs' <-> view rs = view rs'.
Proof.
  intros Hc Hc'. split; intros E.
  - destruct rs as [|r rs], rs' as [|r' rs']; [done| | |].
    + exfalso. pose proof (fingerprint_bar r' rs') as Hb. rewrite <-E in Hb. by apply elem_of_nil in Hb.
    + exfalso. pose proof (fingerprint_bar r rs) as Hb. rewrite E in Hb. by apply elem_of_nil in Hb.
    + assert (fingerprint_one <$> r :: rs = fingerprint_one <$> r' :: rs') as El
        by (rewrite <-!fingerprint_split by done; by rewrite E).
      clear E. revert El Hc Hc'. generalize (r :: rs) (r' :: rs'). clear.
      induction l as [|x l IH]; intros [|y l']; [done..|]. cbn. intros [= E El] [Hx Hl]%Forall_cons [Hy Hl']%Forall_cons.
      unfold view. cbn. f_equal; [by apply fingerprint_one_inj|by apply IH].
  - unfold fingerprint. f_equal. revert rs' E Hc'. clear. induction rs as [|x rs IH]; intros [|y rs']; [done..|].
    unfold view. cbn. intros [= En Ea Eb Er] Hc. f_equal; [|apply IH; [done|by inversion Hc]].
    unfold fingerprint_one. by rewrite En, Ea, Eb.
Qed.

Lemma fingerprint_not_uninit rs : fingerprint rs <> uninit.
Proof.
  destruct rs as [|r rs]; [done|]. intros E. pose proof (fingerprint_bar r rs) as Hb. rewrite E in Hb.
  apply contains_true in Hb. by vm_compute in Hb.
Qed.

(** The snapshots a consumer gets: those whose view differs from the view of
    the round before, when it is ready for them. *)
Fixpoint received (before : option (list (string * string * bool))) (rounds : list (list Result * consumer))
    : list (list Result) :=
  match rounds with
  | [] => []
  | (rs, c) :: rounds' =>
    (if bool_decide (before = Some (view rs)) then []
     else match c with Ready => [rs] | _ => [] end) ++ received (Some (view rs)) rounds'
  end.

Definition knows (st : run_state) (before : option (list (string * string * bool))) : Prop :=
  match before with
  | None => prev st = uninit
  | Some v => exists rs, Forall clean rs /\ v = view rs /\ prev st = fingerprint rs
  end.

Lemma emit_spec st before rs c :
  knows st before -> Forall clean rs ->
  knows (emit st (rs, c)) (Some (view rs)) /\
  delivered (emit st (rs, c)) = delivered st ++
    (if bool_decide (before = Some (view rs)) then [] else match c with Ready => [rs] | _ => [] end).
Proof.
  intros Hk Hc. unfold emit.
  assert (fingerprint rs = prev st <-> before = Some (view rs)) as Heq.
  { destruct before as [v|]; cbn in Hk.
    - destruct Hk as (rs0 & Hc0 & -> & ->). rewrite (fingerprint_inj rs rs0) by done.
      split; [by intros ->|by intros [= ->]].
    - rewrite Hk. split; [|done]. by intros ?%fingerprint_not_uninit. }
  destruct (decide (fingerprint rs = prev st)) as [E|E].
  - rewrite (bool_decide_eq_true_2 _ E), bool_decide_eq_true_2 by (apply Heq; exact E).
    rewrite app_nil_r. split; [|done]. by exists rs.
  - rewrite (bool_decide_eq_false_2 _ E), bool_decide_eq_false_2 by (intros Hb; apply E, Heq, Hb). cbn.
    split; [by exists rs|]. destruct c; by rewrite ?app_nil_r.
Qed.

Lemma run_received st before rounds :
  knows st before -> Forall (fun x => Forall clean x.1) rounds ->
  delivered (foldl emit st rounds) = delivered st ++ received before rounds.
Proof.
  revert st before. induction rounds as [|[rs c] rounds IH]; intros st before Hk Hc; cbn [foldl received].
  { by rewrite app_nil_r. }
  apply Forall_cons in Hc as [Hrs Hc]. destruct (emit_spec st before rs c Hk Hrs) as [Hk' Hd].
  rewrite (IH _ (Some (view rs))) by done. rewrite Hd. by rewrite <-app_assoc.
Qed.

Lemma received_last before rounds :
  Forall (fun x => x.2 = Ready) rounds ->
  match last rounds with
  | None => received before rounds = []
  | Some (rs, _) =>
    match last (received before rounds) with
    | Some rs' => view rs' = view rs
    | None => before = Some (view rs)
    end
  end.
Proof.
  intros Hr. revert before. induction Hr as [|[rs c] rounds Hc Hr IH]; intros before; [done|].
  cbn in Hc. subst c. specialize (IH (Some (view rs))).
  destruct rounds as [|x rounds]; [cbn; by case_bool_decide|].
  change (last ((rs, Ready) :: x :: rounds)) with (last (x :: rounds)).
  destruct (last (x :: rounds)) as [[rs' c']|] eqn:El; [|by apply last_None in El].
  change (received before ((rs, Ready) :: x :: rounds)) with
    ((if bool_decide (before = Some (view rs)) then [] else [rs]) ++ received (Some (view rs)) (x :: rounds)).
  rewrite last_app. destruct (last (received _ _)) as [rs2|]; [done|].
  injection IH as Hv. case_bool_decide as Hb; cbn; congruence.
Qed.

(** Run reports every change and nothing else. Over results whose
    endpoints contain no separator, a snapshot is sent exactly when the sorted
    sequence of (network, address, reachable) differs from the previous
    round's, the first round always, so RTT noise is filtered; a consumer that
    is always ready ends up with the current view. *)
Theorem Run_sends_changes (rounds : list (list Result * consumer)) :
  Forall (fun x => Forall clean x.1) rounds ->
  delivered (Run rounds) = received None rounds /\
  (Forall (fun x => x.2 = Ready) rounds ->
   view <$> last (delivered (Run rounds)) = (fun x => view x.1) <$> last rounds).
Proof.
  intros Hc. unfold Run.
  assert (delivered (foldl emit run_init rounds) = received None rounds) as E by (by apply (run_received run_init None)).
  split; [done|]. intros Hr. rewrite E. pose proof (received_last None rounds Hr) as Hl.
  destruct (last rounds) as [[rs c]|]; [|by rewrite Hl].
  destruct (last (received None rounds)); [|done]. cbn. by f_equal.
Qed.

(** A snapshot that met a full channel is not sent by the next tick, nor by
    any later one that sees the same view, however ready the consumer is. *)
Theorem dropped_snapshot_lost (rounds : list (list Result * consumer)) (rs : list Result) (n : nat) :
  fingerprint rs <> prev (Run rounds) ->
  delivered (Run (rounds ++ (rs, Full) :: replicate n (rs, Ready))) = delivered (Run rounds).
Proof.
  unfold Run. rewrite foldl_app. generalize (foldl emit run_init rounds). intros st Hne. cbn [foldl].
  set (st' := emit st (rs, Full)).
  assert (delivered st' = delivered st /\ prev st' = fingerprint rs) as [<- Hp]
    by (unfold st', emit; by rewrite bool_decide_eq_false_2).
  clearbody st'. induction n as [|n IH]; [done|]. cbn [replicate foldl].
  replace (emit st' (rs, Ready)) with st'; [done|]. unfold emit. by rewrite bool_decide_eq_true_2.
Qed.

(** A round over two relays, one of which answers. *)
Module ToyProbe.
Definition prober : Prober := {| PTimeout := 0; PMaxParallel := 1; PUDPPayload := None |}.
Definition relays : list Endpoint := EndpointsUDP ["10.0.0.1:51820"; "10.0.0.2:51820"].
Definition conns (i : nat) : conn :=
  {| clock0 := 0; clock1 := 5; clock2 := 17; dial _ _ _ := None; set_deadline _ := None; write _ := None;
     read := if i =? 0 then Some "i/o timeout" else None |}.
Definition result_of (i : nat) : Result := nth i (probe_all prober conns relays) (unreachable {| Network := ""; Address := "" |} ECtx).
Definition finished : pool :=
  {| next := 2; stopped := false; workers := []; slots := [Some (result_of 0); Some (result_of 1)] |}.

Definition launched0 : pool := {| next := 1; stopped := false; workers := [0]; slots := [None; None] |}.
Definition finished0 : pool := {| next := 1; stopped := false; workers := []; slots := [Some (result_of 0); None] |}.
Definition launched1 : pool := {| next := 2; stopped := false; workers := [1]; slots := [Some (result_of 0); None] |}.

Lemma finished_reachable : pool_reachable prober conns relays finished.
Proof.
  apply (reach_step _ _ launched1 tt); [|exact (step_finish prober conns relays launched1 [] 1 [] _ eq_refl eq_refl)].
  apply (reach_step _ _ finished0 tt); [|by refine (step_launch prober conns relays finished0 _ eq_refl eq_refl _)].
  apply (reach_step _ _ launched0 tt); [|exact (step_finish prober conns relays launched0 [] 0 [] _ eq_refl eq_refl)].
  apply (reach_step _ _ (pool_init relays) tt);
    [by apply reach_init|by refine (step_launch prober conns relays (pool_init relays) _ eq_refl eq_refl _)].
Qed.

Definition rounds : list (list Result * consumer) := [([result_of 0], Ready); ([result_of 1], Ready)].
End ToyProbe.

Lemma Probe_any_interleaving_witness :
  RTT <$> Probe_result ToyProbe.relays ToyProbe.finished = [12; 0]%Z /\
  length (Probe_result ToyProbe.relays ToyProbe.finished) = 2.
Proof.
  split; [vm_compute; reflexivity|].
  destruct (Probe_any_interleaving ToyProbe.prober ToyProbe.conns ToyProbe.relays ToyProbe.finished
              ToyProbe.finished_reachable) as (_ & _ & _ & H).
  apply H. split; [by right|done].
Defined.

Lemma Run_sends_changes_witness :
  length (delivered (Run ToyProbe.rounds)) = 2 /\ delivered (Run ToyProbe.rounds) = received None ToyProbe.rounds.
Proof.
  split; [vm_compute; reflexivity|]. apply Run_sends_changes.
  repeat constructor; by rewrite <-contains_false.
Defined.
