(* ===== verification/Tunnel.v ===== *)
(** The wg-cp0 outer tunnel: internal/tunnel/tunnel.go.

    [FromBundle] derives the single-peer configuration, the manager drives a
    platform tunnel (the class [TunnelDevice], wireguard-go on desktop), and
    [TunnelManager] is what the daemon relies on, with the manager as an
    instance. Address parsing is net/netip's ([NetipLib]). *)
From stdpp Require Import base tactics list strings.
From Stdlib Require Import ZArith Ascii Lia.
From S2P Require Import Prelude GoStr Bundle.
Local Open Scope list_scope.

Inductive os := Linux | Darwin | Windows | Mobile.
Definition DefaultInterfaceName (o : os) : string :=
  match o with Darwin => "utun" | _ => "wg-cp0" end.
Definition DefaultMTU : Z := 1280.

(** net/netip; [host_prefix ip] is [PrefixFrom(ip, ip.BitLen())]. *)
Class NetipLib := {
  ip_addr : Type;
  prefix : Type;
  parse_addr : string -> option ip_addr;
  parse_prefix : string -> option prefix;
  host_prefix : ip_addr -> prefix }.

Inductive TState := StateClosed | StateConfiguring | StateUp | StateError.
#[export] Instance TState_eq_dec : EqDecision TState.
Proof. solve_decision. Defined.

Inductive tunnel_error :=
  | EPrivateKeyLen
  | EPeerKeyLen
  | ENotConfigured
  | ECreate
  | ETunConfigure
  | ETunUp
  | ETunDown
  | ETunClose
  | ETunStats
  | EUnpaired (msg : string)
  | EMissingKeypair
  | EMissingAddress
  | EParseAddress
  | EParseMeshAddr (s : string)
  | EParseAllowedIPs (s : string)
  | ErrNoEndpoint.

Section config.
Context {N : NetipLib} (platform : os).

Record PeerConfig := {
  PeerPublicKey : chars;
  PeerEndpoint : string;
  PeerAllowedIPs : list prefix;
  PersistentKeepalive : Z }.

Record TConfig := {
  InterfaceName : string;
  PrivateKey : chars;
  LocalAddress : prefix;
  TPeer : PeerConfig;
  MTU : Z;
  ListenPort : Z;
  DNSServers : list ip_addr;
  SearchDomains : list string;
  MatchDomains : list string }.

Fixpoint parse_allowed (l : list string) : result tunnel_error (list prefix) :=
  match l with
  | [] => Ok []
  | s :: l' =>
    p ← of_option (EParseAllowedIPs s) (parse_prefix s);
    ps ← parse_allowed l';
    Ok (p :: ps)
  end.

(** The literal [FromBundle] returns for the relay it picked. *)
Definition bundle_config (b : EnrollmentBundle) (addr : prefix) (e : KnownEndpoint) (allowed : list prefix) : TConfig :=
  {| InterfaceName := DefaultInterfaceName platform;
     PrivateKey := CPDevicePrivkey b;
     LocalAddress := addr;
     TPeer := {| PeerPublicKey := Pubkey e; PeerEndpoint := Addr e; PeerAllowedIPs := allowed;
                 PersistentKeepalive := (25 * second)%Z |};
     MTU := DefaultMTU; ListenPort := 0; DNSServers := []; SearchDomains := []; MatchDomains := [] |}.

Definition relay_config (b : EnrollmentBundle) (addr : prefix) (e : KnownEndpoint) : result tunnel_error TConfig :=
  host ← (if bool_decide (MeshAddr e = "") then Ok []
          else ip ← of_option (EParseMeshAddr (MeshAddr e)) (parse_addr (MeshAddr e)); Ok [host_prefix ip]);
  extra ← parse_allowed (EpAllowedIPs e);
  Ok (bundle_config b addr e (host ++ extra)).

Definition FromBundle (b : EnrollmentBundle) : result tunnel_error TConfig :=
  _ ← map_err EUnpaired (CheckCPDeviceKeypair b);
  if negb (length (CPDevicePrivkey b) =? 32) || negb (length (CPDevicePubkey b) =? 32) then Err EMissingKeypair
  else if bool_decide (CPDeviceAddress b = "") then Err EMissingAddress
  else
    addr ← of_option EParseAddress (parse_prefix (CPDeviceAddress b));
    match find_first (fun e => bool_decide (EpKind e = KindRelay)) (KnownEndpoints b) with
    | Some e => relay_config b addr e
    | None => Err ErrNoEndpoint
    end.
End config.

(** ** The manager *)

(** Stats; the counters are uint64. *)
Record TStats := { TBytesIn : Z; TBytesOut : Z; TLastHandshake : Z }.
Definition no_tstats : TStats := {| TBytesIn := 0; TBytesOut := 0; TLastHandshake := (-62135596800 * second)%Z |}.

(** A platform tunnel; [create] is newPlatformTunnel. *)
Class TunnelDevice {N : NetipLib} := {
  device : Type;
  create : option device;
  dev_configure : TConfig -> device -> bool * device;
  dev_up : device -> bool * device;
  dev_down : device -> bool * device;
  dev_stats : device -> option TStats * device;
  dev_close : device -> bool }.

Section manager.
Context {N : NetipLib} {D : TunnelDevice} (platform : os).

(** The zero Config, whose InterfaceName is empty, is [None]. *)
Record Manager := {
  tun : option device;
  mstate : TState;
  mcfg : option TConfig;
  lastErr : option tunnel_error }.

Definition NewManager : Manager := {| tun := None; mstate := StateClosed; mcfg := None; lastErr := None |}.

Definition with_defaults (cfg : TConfig) : TConfig :=
  {| InterfaceName := if bool_decide (InterfaceName cfg = "") then DefaultInterfaceName platform else InterfaceName cfg;
     PrivateKey := PrivateKey cfg; LocalAddress := LocalAddress cfg; TPeer := TPeer cfg;
     MTU := if (MTU cfg =? 0)%Z then DefaultMTU else MTU cfg;
     ListenPort := ListenPort cfg; DNSServers := DNSServers cfg;
     SearchDomains := SearchDomains cfg; MatchDomains := MatchDomains cfg |}.

Definition Configure (cfg : TConfig) : action Manager tunnel_error unit := fun m =>
  let cfg := with_defaults cfg in
  if negb (length (PrivateKey cfg) =? 32) then (Err EPrivateKeyLen, m)
  else if negb (length (PeerPublicKey (TPeer cfg)) =? 32) then (Err EPeerKeyLen, m)
  else
    match tun m with
    | Some t =>
      let '(ok, t') := dev_configure cfg t in
      (if ok then Ok tt else Err ETunConfigure,
       {| tun := Some t'; mstate := mstate m; mcfg := Some cfg; lastErr := lastErr m |})
    | None => (Ok tt, {| tun := None; mstate := mstate m; mcfg := Some cfg; lastErr := lastErr m |})
    end.

Definition failed (e : tunnel_error) (t : option device) (m : Manager) : result tunnel_error unit * Manager :=
  (Err e, {| tun := t; mstate := StateError; mcfg := mcfg m; lastErr := Some e |}).

Definition Connect : action Manager tunnel_error unit := fun m =>
  match mcfg m with
  | None => (Err ENotConfigured, m)
  | Some cfg =>
    match (match tun m with Some t => Some t | None => create end) with
    | None => failed ECreate (tun m) m
    | Some t =>
      let '(ok, t) := dev_configure cfg t in
      if negb ok then failed ETunConfigure (Some t) m
      else
        let '(ok, t) := dev_up t in
        if negb ok then failed ETunUp (Some t) m
        else (Ok tt, {| tun := Some t; mstate := StateUp; mcfg := mcfg m; lastErr := None |})
    end
  end.

Definition Disconnect : action Manager tunnel_error unit := fun m =>
  match tun m with
  | None => (Ok tt, {| tun := None; mstate := StateClosed; mcfg := mcfg m; lastErr := lastErr m |})
  | Some t =>
    let '(ok, t) := dev_down t in
    if negb ok then failed ETunDown (Some t) m
    else (Ok tt, {| tun := Some t; mstate := StateClosed; mcfg := mcfg m; lastErr := lastErr m |})
  end.

Definition Close : action Manager tunnel_error unit := fun m =>
  match tun m with
  | None => (Ok tt, m)
  | Some t =>
    (if dev_close t then Ok tt else Err ETunClose,
     {| tun := None; mstate := StateClosed; mcfg := mcfg m; lastErr := lastErr m |})
  end.

(** State, Config and LastError are the fields. *)
Definition Stats : action Manager tunnel_error TStats := fun m =>
  match tun m with
  | None => (Ok no_tstats, m)
  | Some t =>
    let '(st, t) := dev_stats t in
    (of_option ETunStats st, {| tun := Some t; mstate := mstate m; mcfg := mcfg m; lastErr := lastErr m |})
  end.
End manager.

(** ** What the daemon relies on *)
Class TunnelManager {N : NetipLib} := {
  tmgr : Type;
  t_state : tmgr -> TState;
  t_configure : TConfig -> action tmgr tunnel_error unit;
  t_connect : action tmgr tunnel_error unit;
  t_disconnect : action tmgr tunnel_error unit;
  t_close : action tmgr tunnel_error unit;
  t_stats : action tmgr tunnel_error TStats;
  t_configure_state cfg m : t_state (t_configure cfg m).2 = t_state m;
  t_connect_up m m' : t_connect m = (Ok tt, m') -> t_state m' = StateUp;
  t_disconnect_down m : t_state (t_disconnect m).2 <> StateUp;
  t_disconnect_closed m m' : t_disconnect m = (Ok tt, m') -> t_state m' = StateClosed;
  t_close_up m : t_state (t_close m).2 = StateUp -> t_state m = StateUp;
  t_stats_state m : t_state (t_stats m).2 = t_state m }.

#[export, refine] Instance manager_tunnel {N : NetipLib} {D : TunnelDevice} (platform : os) : TunnelManager := {|
  tmgr := Manager;
  t_state := mstate;
  t_configure := Configure platform;
  t_connect := Connect;
  t_disconnect := Disconnect;
  t_close := Close;
  t_stats := Stats |}.
Proof.
  - intros cfg m. unfold Configure. case_match; [done|]. case_match; [done|].
    destruct (tun m) as [t|]; [|done]. by destruct (dev_configure _ t).
  - intros m m'. unfold Connect, failed. destruct (mcfg m) as [cfg|]; [|done].
    destruct (match tun m with Some t => Some t | None => create end) as [t|]; [|done].
    destruct (dev_configure cfg t) as [[] t1]; [|done]. cbn [negb].
    destruct (dev_up t1) as [[] t2]; [|done]. cbn [negb]. by intros [= <-].
  - intros m. unfold Disconnect, failed. destruct (tun m) as [t|]; [|done].
    by destruct (dev_down t) as [[] t1].
  - intros m m'. unfold Disconnect, failed. destruct (tun m) as [t|]; [|by intros [= <-]].
    destruct (dev_down t) as [[] t1]; [|done]. cbn [negb]. by intros [= <-].
  - intros m. unfold Close. by destruct (tun m).
  - intros m. unfold Stats. destruct (tun m) as [t|]; [|done]. by destruct (dev_stats t).
Defined.

(** ** Theorems *)
Section properties.
Context {N : NetipLib} {D : TunnelDevice} (platform : os).

Lemma parse_allowed_Ok l ps : parse_allowed l = Ok ps <-> Forall2 (fun s p => parse_prefix s = Some p) l ps.
Proof.
  revert ps. induction l as [|s l IH]; intros ps; cbn [parse_allowed].
  - split; [intros [= <-]; constructor|by intros ->%Forall2_nil_inv_l].
  - rewrite bind_Ok. setoid_rewrite bind_Ok. setoid_rewrite IH. split.
    + intros (p & Hp & ps' & H2 & [= <-]). constructor; [|done]. by destruct (parse_prefix s); simplify_eq/=.
    + intros (p & ps' & Hp & H2 & ->)%Forall2_cons_inv_l. exists p. rewrite Hp. split; [done|]. by exists ps'.
Qed.

Lemma relay_config_Ok b addr e cfg :
  relay_config platform b addr e = Ok cfg <-> exists host extra,
    (if bool_decide (MeshAddr e = "") then host = []
     else exists ip, parse_addr (MeshAddr e) = Some ip /\ host = [host_prefix ip]) /\
    Forall2 (fun s p => parse_prefix s = Some p) (EpAllowedIPs e) extra /\
    cfg = bundle_config platform b addr e (host ++ extra).
Proof.
  unfold relay_config. rewrite bind_Ok. setoid_rewrite bind_Ok. setoid_rewrite parse_allowed_Ok.
  case_bool_decide as Hm; [naive_solver|]. setoid_rewrite bind_Ok.
  destruct (parse_addr (MeshAddr e)) as [ip|]; cbn; naive_solver.
Qed.

Lemma FromBundle_keys b cfg :
  FromBundle platform b = Ok cfg -> length (CPDevicePrivkey b) = 32 /\ length (CPDevicePubkey b) = 32.
Proof.
  unfold FromBundle. rewrite bind_Ok. intros (_ & _ & H).
  destruct (Nat.eqb_spec (length (CPDevicePrivkey b)) 32), (Nat.eqb_spec (length (CPDevicePubkey b)) 32); done.
Qed.

Lemma FromBundle_privkey b cfg : FromBundle platform b = Ok cfg -> PrivateKey cfg = CPDevicePrivkey b.
Proof.
  unfold FromBundle. intros H. apply bind_Ok in H as (_ & _ & H). case_match; [done|]. case_match; [done|].
  apply bind_Ok in H as (addr & _ & H). destruct (find_first _ _) as [e|]; [|done].
  by apply relay_config_Ok in H as (? & ? & _ & _ & ->).
Qed.

Lemma Configure_fresh cfg m :
  tun m = None -> length (PrivateKey cfg) = 32 ->
  is_ok (Configure platform cfg m).1 = (length (PeerPublicKey (TPeer cfg)) =? 32).
Proof.
  intros Htun Hp. unfold Configure. cbn [PrivateKey TPeer with_defaults]. rewrite Hp, Htun. cbn [Nat.eqb negb].
  by destruct (length (PeerPublicKey (TPeer cfg)) =? 32).
Qed.

(** The outer tunnel's configuration, exactly. [FromBundle] succeeds if and
    only if the bundle carries both 32-byte wg-cp0 keys and an address that
    parses, has a relay endpoint, and the addresses of its first relay parse.
    The peer is that first relay, reached through its mesh address as a host
    route followed by its allowed prefixes in order; no other endpoint is
    used, and the manager accepts the configuration exactly when the relay's
    key has 32 bytes. *)
Theorem FromBundle_exact (b : EnrollmentBundle) (cfg : TConfig) (m : Manager) :
  (FromBundle platform b = Ok cfg <->
   exists e l1 l2 addr host extra,
     KnownEndpoints b = l1 ++ e :: l2 /\ EpKind e = KindRelay /\ Forall (fun x => EpKind x <> KindRelay) l1 /\
     length (CPDevicePrivkey b) = 32 /\ length (CPDevicePubkey b) = 32 /\
     CPDeviceAddress b <> "" /\ parse_prefix (CPDeviceAddress b) = Some addr /\
     (if bool_decide (MeshAddr e = "") then host = []
      else exists ip, parse_addr (MeshAddr e) = Some ip /\ host = [host_prefix ip]) /\
     Forall2 (fun s p => parse_prefix s = Some p) (EpAllowedIPs e) extra /\
     cfg = bundle_config platform b addr e (host ++ extra)) /\
  (FromBundle platform b = Ok cfg -> tun m = None ->
   is_ok (Configure platform cfg m).1 = (length (PeerPublicKey (TPeer cfg)) =? 32)).
Proof.
  split; [split|].
  - intros H. destruct (FromBundle_keys _ _ H) as [H1 H2]. revert H. unfold FromBundle. rewrite H1, H2. cbn [Nat.eqb negb orb].
    rewrite bind_Ok. intros (_ & _ & H). case_bool_decide as Ha; [done|].
    apply bind_Ok in H as (addr & Haddr & H).
    destruct (find_first _ (KnownEndpoints b)) as [e|] eqn:E; [|done].
    apply find_first_Some in E as (He & l1 & l2 & El & Hl1). apply relay_config_Ok in H as (host & extra & Hh & Hx & Hcfg).
    exists e, l1, l2, addr, host, extra. split_and!; try done.
    + by apply bool_decide_eq_true in He.
    + eapply Forall_impl; [exact Hl1|]. intros x Hx'. by apply bool_decide_eq_false in Hx'.
    + by destruct (parse_prefix (CPDeviceAddress b)); simplify_eq/=.
  - intros (e & l1 & l2 & addr & host & extra & El & He & Hl1 & H1 & H2 & Ha & Haddr & Hh & Hx & Hcfg).
    unfold FromBundle, CheckCPDeviceKeypair, nonempty. rewrite H1, H2. cbn.
    rewrite bool_decide_eq_false_2, Haddr, El by done. cbn.
    assert (find_first (fun e => bool_decide (EpKind e = KindRelay)) (l1 ++ e :: l2) = Some e) as ->.
    { clear -Hl1 He. induction Hl1 as [|x l Hx Hl IH]; cbn.
      - by rewrite bool_decide_eq_true_2.
      - by rewrite bool_decide_eq_false_2. }
    apply relay_config_Ok. by exists host, extra.
  - intros H Htun. apply Configure_fresh; [done|].
    rewrite (FromBundle_privkey _ _ H). by destruct (FromBundle_keys _ _ H).
Qed.
End properties.

(** A tunnel whose prefixes are their texts and whose device always works. *)
Module ToyTunnel.
#[export] Instance netip : NetipLib := {|
  ip_addr := string; prefix := string;
  parse_addr s := if bool_decide (s = "") then None else Some s;
  parse_prefix s := if bool_decide (s = "") then None else Some s;
  host_prefix ip := ip +:+ "/32" |}.

#[export] Instance dev : TunnelDevice := {|
  device := bool;
  create := Some false;
  dev_configure _ d := (true, d);
  dev_up _ := (true, true);
  dev_down _ := (true, false);
  dev_stats t := (Some no_tstats, t);
  dev_close _ := true |}.

Definition relay : KnownEndpoint :=
  {| Addr := "192.0.2.1:51820"; Pubkey := replicate 32 "k"%char; EpKind := KindRelay; MeshAddr := "198.18.0.3";
     EpAllowedIPs := ["198.18.0.0/24"] |}.

(** The toy bundle of a device with its keys and one relay. *)
Definition with_relay (b : EnrollmentBundle) : EnrollmentBundle :=
  {| Version := Version b; DeviceID := DeviceID b; PeerPubkey := PeerPubkey b; ACLGroups := ACLGroups b;
     Site := Site b; KnownEndpoints := [relay]; IssuedAt := IssuedAt b;
     ActivationDeadline := ActivationDeadline b; ExpiresAt := ExpiresAt b; Nonce := Nonce b; CAID := CAID b;
     SnitchProbeKey := SnitchProbeKey b; TLSTrustAnchor := TLSTrustAnchor b;
     CPDevicePubkey := replicate 32 "p"%char; CPDevicePrivkey := replicate 32 "s"%char;
     CPDeviceAddress := "198.18.0.6/24"; MeshSetup := MeshSetup b; MobileCert := MobileCert b;
     Signature := Signature b |}.
Definition bundle : EnrollmentBundle := with_relay (Toy.bundle_of "d" "ca1").
End ToyTunnel.

Lemma FromBundle_exact_witness :
  exists cfg : TConfig (N := ToyTunnel.netip),
    PeerAllowedIPs (TPeer cfg) = ["198.18.0.3/32"; "198.18.0.0/24"] /\
    is_ok (Configure (D := ToyTunnel.dev) Linux cfg NewManager).1 = true.
Proof.
  eexists. split; [|rewrite (proj2 (FromBundle_exact (D := ToyTunnel.dev) Linux ToyTunnel.bundle _ NewManager));
    [|reflexivity..]]; reflexivity.
Defined.
