(* ===== verification/Uapi.v ===== *)
(** The text interface of wireguard-go: internal/tunnel/uapi.go.

    [buildUAPI] renders a configuration as key=value lines, [readUAPIStats] reads
    the counters from the lines a device answers with. Resolving a host name is
    an argument ([NetHost]). *)
From stdpp Require Import base tactics list strings.
From Stdlib Require Import ZArith Ascii Lia.
From S2P Require Import Prelude GoStr.
From S2P Require Import Bundle.
From S2P Require Import Tunnel.
Local Open Scope list_scope.

(** netip.Prefix.String and net.LookupIP, the latter as the texts of the
    addresses; both texts are single lines. *)
Class NetHost {N : NetipLib} := {
  prefix_text : prefix -> string;
  lookup_ip : string -> option (list string);
  prefix_line p : "010"%char ∉ s2l (prefix_text p);
  lookup_line h ips ip : lookup_ip h = Some ips -> ip ∈ ips -> "010"%char ∉ s2l ip }.

(** hex.EncodeToString *)
Definition hex_encode (l : chars) : string :=
  l2s (l ≫= fun c => [hex_digit (code c / 16); hex_digit (code c mod 16)]).

Definition nl : ascii := "010".
(** Fprintf("k=%s\n", v) *)
Definition setting (k v : string) : string := k +:+ "=" +:+ v +:+ String.String nl "".

Inductive uapi_error := EUPrivateKey | EUPublicKey | ESplitEndpoint | EResolveEndpoint.

Section uapi.
Context {N : NetipLib} {L : NetHost}.

(** The endpoint as an address: nothing when there is none. *)
Definition resolve_endpoint (endpoint : string) : result uapi_error (option string) :=
  if bool_decide (endpoint = "") then Ok None
  else
    '(host, port) ← of_option ESplitEndpoint (split_host_port endpoint);
    match lookup_ip host with
    | Some (ip :: _) => Ok (Some (join_host_port ip port))
    | _ => Err EResolveEndpoint
    end.

(** int(d.Seconds()), exact for durations below 2^23 seconds. *)
Definition whole_seconds (d : Z) : Z := Z.quot d second.

Definition buildUAPI (cfg : TConfig) : result uapi_error string :=
  if negb (length (PrivateKey cfg) =? 32) then Err EUPrivateKey
  else if negb (length (PeerPublicKey (TPeer cfg)) =? 32) then Err EUPublicKey
  else
    endpoint ← resolve_endpoint (PeerEndpoint (TPeer cfg));
    Ok (setting "private_key" (hex_encode (PrivateKey cfg)) +:+
        (if (0 <? ListenPort cfg)%Z then setting "listen_port" (itoa (ListenPort cfg)) else "") +:+
        setting "replace_peers" "true" +:+
        setting "public_key" (hex_encode (PeerPublicKey (TPeer cfg))) +:+
        (match endpoint with Some e => setting "endpoint" e | None => "" end) +:+
        (if (0 <? PersistentKeepalive (TPeer cfg))%Z
         then setting "persistent_keepalive_interval" (itoa (whole_seconds (PersistentKeepalive (TPeer cfg)))) else "") +:+
        setting "replace_allowed_ips" "true" +:+
        foldr (fun p s => setting "allowed_ip" (prefix_text p) +:+ s) "" (PeerAllowedIPs (TPeer cfg))).
End uapi.

(** strings.IndexByte(line, '=') with the first byte excluded. *)
Definition splitKV (line : string) : option (string * string) :=
  '(k, v) ← cut "="%char (s2l line);
  match k with [] => None | _ => Some (l2s k, l2s v) end.

Definition read_line (st : TStats) (line : string) : TStats :=
  match splitKV line with
  | None => st
  | Some (k, v) =>
    if bool_decide (k = "tx_bytes") then
      {| TBytesIn := TBytesIn st; TBytesOut := parse_uint v; TLastHandshake := TLastHandshake st |}
    else if bool_decide (k = "rx_bytes") then
      {| TBytesIn := parse_uint v; TBytesOut := TBytesOut st; TLastHandshake := TLastHandshake st |}
    else if bool_decide (k = "last_handshake_time_sec") then
      let s := parse_int v in
      if (0 <? s)%Z then {| TBytesIn := TBytesIn st; TBytesOut := TBytesOut st; TLastHandshake := time_unix s |} else st
    else st
  end.

(** The lines the device wrote, and whether IpcGetOperation returned nil. *)
Definition readUAPIStats (lines : list string) (ok : bool) : TStats * bool := (foldl read_line no_tstats lines, ok).

(** ** Theorems *)

(** The settings a text carries, as [splitKV] reads its lines. *)
Definition settings (text : string) : list (string * string) :=
  omap splitKV (l2s <$> split nl (s2l text)).

Definition key_ok (k : string) : Prop := k <> "" /\ ("="%char ∉ s2l k) /\ (nl ∉ s2l k).

Lemma settings_cons k v rest :
  key_ok k -> nl ∉ s2l v -> settings (setting k v +:+ rest) = (k, v) :: settings rest.
Proof.
  intros (Hk & Heq & Hnl) Hv. unfold settings, setting.
  assert (s2l ((k +:+ "=" +:+ v +:+ String.String nl "") +:+ rest) = (s2l k ++ "="%char :: s2l v) ++ nl :: s2l rest) as ->.
  { rewrite !s2l_app. cbn. rewrite <-!app_assoc. cbn. by rewrite <-app_assoc. }
  rewrite split_app.
  - cbn [fmap list_fmap omap list_omap]. unfold splitKV at 1. rewrite s2l_l2s, (proj2 (cut_Some _ _ (s2l k) (s2l v))) by done.
    cbn. destruct (s2l k) as [|c kl] eqn:E; [by destruct k|]. by rewrite <-E, !l2s_s2l.
  - rewrite elem_of_app, elem_of_cons. intros [?|[?|?]]; done.
Qed.

Lemma key_lit k : bool_decide (k <> "" /\ Forall (fun c => c <> "="%char /\ c <> nl) (s2l k)) = true -> key_ok k.
Proof.
  intros [Hk Hf]%bool_decide_eq_true. rewrite Forall_forall in Hf. split_and!; [done|intros Hc%Hf..]; by destruct Hc.
Qed.

Lemma value_lit v : bool_decide (nl ∉ s2l v) = true -> nl ∉ s2l v.
Proof. intros H. by apply bool_decide_eq_true in H. Qed.

Lemma settings_nil : settings "" = [].
Proof. reflexivity. Qed.

Lemma hex_digit_code n : (n < 16)%N ->
  hex_digit n <> nl /\ code (hex_digit n) = (if (n <? 10)%N then 48 + n else 87 + n)%N.
Proof.
  intros Hn. assert (code (hex_digit n) = (if (n <? 10)%N then 48 + n else 87 + n)%N) as Hc.
  { unfold code, hex_digit. apply N_ascii_embedding. destruct (N.ltb_spec n 10); lia. }
  split; [|done]. intros E. rewrite E in Hc. change (code nl) with 10%N in Hc. destruct (N.ltb_spec n 10); lia.
Qed.

Lemma code_split c : (code c / 16 < 16)%N /\ (code c mod 16 < 16)%N.
Proof. pose proof (N_ascii_bounded c) as H. unfold code. split; [apply N.Div0.div_lt_upper_bound; lia|by apply N.mod_lt]. Qed.

Lemma hex_line l : nl ∉ s2l (hex_encode l).
Proof.
  unfold hex_encode. rewrite s2l_l2s. intros (c & Hc & _)%list_elem_of_bind. destruct (code_split c) as [H1 H2].
  apply hex_digit_code in H1 as [H1 _]. apply hex_digit_code in H2 as [H2 _].
  repeat (apply elem_of_cons in Hc as [Hc|Hc]; [congruence|]). by apply elem_of_nil in Hc.
Qed.

Lemma hex_digit_inj m n : (m < 16)%N -> (n < 16)%N -> hex_digit m = hex_digit n -> m = n.
Proof.
  intros Hm Hn E. pose proof (proj2 (hex_digit_code m Hm)) as Hm'. pose proof (proj2 (hex_digit_code n Hn)) as Hn'.
  rewrite E, Hn' in Hm'. destruct (N.ltb_spec m 10), (N.ltb_spec n 10); lia.
Qed.

Lemma hex_encode_inj l l' : hex_encode l = hex_encode l' -> l = l'.
Proof.
  unfold hex_encode. intros H. apply (f_equal s2l) in H. rewrite !s2l_l2s in H. revert l' H.
  induction l as [|c l IH]; intros [|c' l'] H; try done. cbn in H. injection H as H1 H2 H.
  destruct (code_split c), (code_split c'). apply hex_digit_inj in H1; [|done..]. apply hex_digit_inj in H2; [|done..].
  f_equal; [|by apply IH]. rewrite <-(ascii_N_embedding c), <-(ascii_N_embedding c'). f_equal.
  fold (code c) (code c'). rewrite (N.div_mod' (code c) 16), (N.div_mod' (code c') 16). congruence.
Qed.

Lemma cut_last_elems sep l h t c : cut_last sep l = Some (h, t) -> c ∈ h \/ c ∈ t -> c ∈ l.
Proof. intros [-> _]%cut_last_Some. rewrite elem_of_app, elem_of_cons. naive_solver. Qed.

(** The port is part of the text that was split. *)
Lemma split_host_port_chars s host port c :
  split_host_port s = Some (host, port) -> c ∈ s2l port -> c ∈ s2l s.
Proof.
  unfold split_host_port. destruct (s2l s) as [|d rest] eqn:E; [done|]. destruct (Ascii.eqb d "[").
  - unfold split_bracketed. destruct (cut "]" rest) as [[h after]|] eqn:Ec; [|done]. cbn.
    apply cut_Some in Ec as [-> _]. destruct after as [|x p]; [done|]. destruct (Ascii.eqb x ":"); [|done].
    case_match; [done|]. intros [= <- <-]. rewrite s2l_l2s, elem_of_cons, elem_of_app, !elem_of_cons. auto.
  - destruct (cut_last ":" (d :: rest)) as [[h p]|] eqn:Ec; [|done]. cbn. case_match; [done|].
    intros [= <- <-]. rewrite s2l_l2s. intros Hc. eapply cut_last_elems; [exact Ec|by right].
Qed.

Lemma join_host_port_line host port : nl ∉ s2l host -> nl ∉ s2l port -> nl ∉ s2l (join_host_port host port).
Proof.
  intros Hh Hp. unfold join_host_port. destruct (contains _ _); rewrite s2l_l2s, ?elem_of_cons, elem_of_app, ?elem_of_cons;
    intros H; destruct_or! H; done.
Qed.

Lemma itoa_line z : nl ∉ s2l (itoa z).
Proof. intros [H|H]%itoa_chars; done. Qed.

Section theorems.
Context {N : NetipLib} {L : NetHost}.

Lemma resolve_endpoint_line endpoint e :
  nl ∉ s2l endpoint -> resolve_endpoint endpoint = Ok (Some e) -> nl ∉ s2l e.
Proof.
  intros Hn. unfold resolve_endpoint. case_bool_decide; [done|].
  destruct (split_host_port endpoint) as [[host port]|] eqn:Es; [|done]. cbn.
  destruct (lookup_ip host) as [[|ip ips]|] eqn:El; [done| |done]. intros [= <-]. apply join_host_port_line.
  - eapply lookup_line; [exact El|apply list_elem_of_here].
  - intros Hc. by apply Hn, (split_host_port_chars _ _ _ _ Es).
Qed.

(** The settings of a configuration whose endpoint resolved to [endpoint]. *)
Definition wanted (cfg : TConfig) (endpoint : option string) : list (string * string) :=
  ("private_key", hex_encode (PrivateKey cfg)) ::
  (if (0 <? ListenPort cfg)%Z then [("listen_port", itoa (ListenPort cfg))] else []) ++
  ("replace_peers", "true") ::
  ("public_key", hex_encode (PeerPublicKey (TPeer cfg))) ::
  (match endpoint with Some e => [("endpoint", e)] | None => [] end) ++
  (if (0 <? PersistentKeepalive (TPeer cfg))%Z
   then [("persistent_keepalive_interval", itoa (whole_seconds (PersistentKeepalive (TPeer cfg))))] else []) ++
  ("replace_allowed_ips", "true") :: ((fun p => ("allowed_ip", prefix_text p)) <$> PeerAllowedIPs (TPeer cfg)).

Lemma settings_allowed l :
  settings (foldr (fun p s => setting "allowed_ip" (prefix_text p) +:+ s) "" l) = (fun p => ("allowed_ip", prefix_text p)) <$> l.
Proof.
  induction l as [|p l IH]; [done|]. cbn [foldr fmap list_fmap]. rewrite settings_cons; [by rewrite IH|by apply key_lit|apply prefix_line].
Qed.

Lemma settings_if (b : bool) k v rest :
  key_ok k -> nl ∉ s2l v ->
  settings ((if b then setting k v else "") +:+ rest) = (if b then [(k, v)] else []) ++ settings rest.
Proof. intros Hk Hv. destruct b; [by apply settings_cons|done]. Qed.

(** C34: The device is told exactly the configuration. When [buildUAPI] succeeds
    for a configuration whose endpoint holds no line break, the lines of its
    text, read back, are the private key, the listen port if it is set, the
    peer's key, the endpoint with its host resolved to an address and its port
    kept, the keepalive in whole seconds if it is set, and the allowed prefixes
    in order, and nothing else. Two configurations with the same text have the
    same keys. *)
Theorem buildUAPI_reads_back (cfg cfg' : TConfig) (text : string) :
  buildUAPI cfg = Ok text -> nl ∉ s2l (PeerEndpoint (TPeer cfg)) ->
  (exists endpoint, resolve_endpoint (PeerEndpoint (TPeer cfg)) = Ok endpoint /\ settings text = wanted cfg endpoint) /\
  (buildUAPI cfg' = Ok text -> nl ∉ s2l (PeerEndpoint (TPeer cfg')) ->
   PrivateKey cfg' = PrivateKey cfg /\ PeerPublicKey (TPeer cfg') = PeerPublicKey (TPeer cfg)).
Proof.
  assert (forall c, buildUAPI c = Ok text -> nl ∉ s2l (PeerEndpoint (TPeer c)) ->
    exists endpoint, resolve_endpoint (PeerEndpoint (TPeer c)) = Ok endpoint /\ settings text = wanted c endpoint) as Hread.
  { intros c Hb Hn. unfold buildUAPI in Hb. destruct (negb _); [done|]. destruct (negb _); [done|].
    apply bind_Ok in Hb as (endpoint & Hep & Ht). injection Ht as <-. exists endpoint. split; [done|].
    rewrite settings_cons; [|by apply key_lit|apply hex_line].
    rewrite settings_if; [|by apply key_lit|apply itoa_line].
    rewrite settings_cons; [|by apply key_lit|by apply value_lit].
    rewrite settings_cons; [|by apply key_lit|apply hex_line].
    assert (forall rest, settings ((match endpoint with Some e => setting "endpoint" e | None => "" end) +:+ rest) =
      (match endpoint with Some e => [("endpoint", e)] | None => [] end) ++ settings rest) as ->.
    { intros rest. destruct endpoint as [e|]; [|done].
      apply settings_cons; [by apply key_lit|by eapply resolve_endpoint_line]. }
    rewrite settings_if; [|by apply key_lit|apply itoa_line].
    rewrite settings_cons; [|by apply key_lit|by apply value_lit]. by rewrite settings_allowed. }
  intros Hb Hn. split; [by apply Hread|]. intros Hb' Hn'.
  destruct (Hread cfg Hb Hn) as (e & _ & Hs). destruct (Hread cfg' Hb' Hn') as (e' & _ & Hs'). rewrite Hs in Hs'.
  unfold wanted in Hs'. injection Hs' as Hp Hs'. split; [by apply hex_encode_inj|].
  destruct (0 <? ListenPort cfg)%Z, (0 <? ListenPort cfg')%Z; cbn in Hs'; try discriminate Hs';
    injection Hs'; intros; by apply hex_encode_inj.
Qed.
End theorems.

(** *** Counters *)

(** The value of the last line with key [k]. *)
Definition last_value (k : string) (lines : list string) : option string :=
  foldl (fun acc l => match splitKV l with Some (k', v) => if bool_decide (k' = k) then Some v else acc | None => acc end)
    None lines.

Lemma read_stats_counters lines ok :
  TBytesOut (readUAPIStats lines ok).1 = match last_value "tx_bytes" lines with Some v => parse_uint v | None => 0%Z end /\
  TBytesIn (readUAPIStats lines ok).1 = match last_value "rx_bytes" lines with Some v => parse_uint v | None => 0%Z end.
Proof.
  unfold readUAPIStats. cbn [fst]. induction lines as [|l lines [IH1 IH2]] using rev_ind; [done|].
  unfold last_value in *. rewrite !foldl_app. cbn [foldl]. revert IH1 IH2.
  generalize (foldl read_line no_tstats lines). intros st IH1 IH2. unfold read_line.
  destruct (splitKV l) as [[k v]|]; [|done]. destruct (bool_decide_reflect (k = "tx_bytes")) as [->|H1]; [done|].
  destruct (bool_decide_reflect (k = "rx_bytes")) as [->|H2]; [done|].
  destruct (bool_decide (k = "last_handshake_time_sec")); [|done]. by destruct (0 <? parse_int v)%Z.
Qed.

(** A peer whose one endpoint has a line break in its port adds a setting of
    its own to the text: a route for everything. *)
Module Injection.
#[export] Existing Instance ToyTunnel.netip.
#[export, refine] Instance hosts : NetHost := {|
  prefix_text p := l2s (filter (fun c => c <> nl) (s2l p));
  lookup_ip h := if bool_decide (nl ∈ s2l h) then None else Some [h] |}.
Proof.
  - intros p. rewrite s2l_l2s, list_elem_of_filter. by intros [? _].
  - intros h ips ip. case_bool_decide; [done|]. intros [= <-] ->%list_elem_of_singleton. done.
Defined.

Definition peer (endpoint : string) : TConfig :=
  {| InterfaceName := "wg-cp0"; PrivateKey := replicate 32 "s"%char; LocalAddress := "198.18.0.6/24" : prefix;
     TPeer := {| PeerPublicKey := replicate 32 "p"%char; PeerEndpoint := endpoint;
                 PeerAllowedIPs := ["198.18.0.0/24" : prefix]; PersistentKeepalive := (25 * second)%Z |};
     MTU := 1280; ListenPort := 0; DNSServers := []; SearchDomains := []; MatchDomains := [] |}.

Lemma buildUAPI_reads_back_witness :
  exists text, buildUAPI (peer "192.0.2.1:51820") = Ok text /\
    settings text !! 3 = Some ("endpoint", "192.0.2.1:51820").
Proof.
  destruct (buildUAPI (peer "192.0.2.1:51820")) as [text|e] eqn:E; [|vm_compute in E; discriminate E].
  exists text. split; [reflexivity|].
  destruct (proj1 (buildUAPI_reads_back (peer "192.0.2.1:51820") (peer "") text E ltac:(by apply value_lit)))
    as (endpoint & He & ->). vm_compute in He. injection He as <-. reflexivity.
Defined.

Lemma endpoint_injects :
  exists text, buildUAPI (peer ("192.0.2.1:51820" +:+ String.String nl "allowed_ip=0.0.0.0/0")) = Ok text /\
    ("allowed_ip", "0.0.0.0/0") ∈ settings text.
Proof.
  eexists. split; [vm_compute; reflexivity|].
  apply (list_elem_of_lookup_2 _ 4). vm_compute. reflexivity.
Qed.
End Injection.
