(* ===== verification/Devices.v ===== *)
(** The platform tunnels under the manager: internal/tunnel/tunnel_desktop.go
    with platform_{linux,darwin,windows}.go, and the mobile entry point,
    runmobile.go and runmobile_engine.go.

    [sys n] tells whether the n-th call to the system or to wireguard-go
    succeeds; a platform function (assigning an address, adding or deleting a
    route) counts as one call. [routes] are the routes that were added and not
    deleted since. The manager of Tunnel.v runs on [desktop_device]. *)
From stdpp Require Import base tactics list sets strings.
From Stdlib Require Import ZArith Ascii Lia.
From S2P Require Import Prelude GoStr.
From S2P Require Import Bundle.
From S2P Require Import Tunnel.
From S2P Require Import Uapi.
Local Open Scope list_scope.

Section desktop.
Context {N : NetipLib} {L : NetHost} {PE : EqDecision prefix}.

(** The system: its calls, the name the kernel gave the interface, what the
    device answers to an IPC get, the clock. *)
Record System := {
  sys : nat -> bool;
  tun_name : nat -> option string;
  ipc_get : nat -> list string * bool;
  clock : nat -> Z }.
Context (S : System).

(** The wireguard-go device over its TUN: the settings it accepted last, and
    whether it is up. *)
Record WgDevice := { accepted : option string; running : bool }.

(** desktopTunnel; d.t and d.dev are set and cleared together ([opened]). *)
Record desktopTunnel := {
  opened : option WgDevice;
  dcfg : option TConfig;
  dstats : TStats;
  lastStat : Z;
  statErr : bool;
  closed : bool;
  routes : list (string * prefix);
  calls : nat }.

Definition zero_time : Z := (-62135596800 * second)%Z.
Definition newPlatformTunnel : desktopTunnel :=
  {| opened := None; dcfg := None; dstats := no_tstats; lastStat := zero_time; statErr := true; closed := false;
     routes := []; calls := 0 |}.

#[export] Instance set_opened : Setter opened := fun g d =>
  {| opened := g (opened d); dcfg := dcfg d; dstats := dstats d; lastStat := lastStat d; statErr := statErr d;
     closed := closed d; routes := routes d; calls := calls d |}.
#[export] Instance set_dcfg : Setter dcfg := fun g d =>
  {| opened := opened d; dcfg := g (dcfg d); dstats := dstats d; lastStat := lastStat d; statErr := statErr d;
     closed := closed d; routes := routes d; calls := calls d |}.
#[export] Instance set_routes : Setter routes := fun g d =>
  {| opened := opened d; dcfg := dcfg d; dstats := dstats d; lastStat := lastStat d; statErr := statErr d;
     closed := closed d; routes := g (routes d); calls := calls d |}.
#[export] Instance set_calls : Setter calls := fun g d =>
  {| opened := opened d; dcfg := dcfg d; dstats := dstats d; lastStat := lastStat d; statErr := statErr d;
     closed := closed d; routes := routes d; calls := g (calls d) |}.

Inductive desktop_error := ECreateTUN | EUapi (e : uapi_error) | EIpcSet | ENotOpen | EDeviceUp | EAssign | ERoute | EDeviceDown.
Abbreviation tact := (action desktopTunnel desktop_error).

(** A call that changes the tunnel by [f] if it succeeds. *)
Definition call (e : desktop_error) (f : desktopTunnel -> desktopTunnel) : tact unit := fun d =>
  let d' := d <| calls := Datatypes.S (calls d) |> in
  if sys S (calls d) then (Ok tt, f d') else (Err e, d').
Definition device_do (f : WgDevice -> WgDevice) (d : desktopTunnel) : desktopTunnel := d <| opened := f <$> opened d |>.

Definition open : tact unit := fun d =>
  match opened d with
  | Some _ => (Ok tt, d)
  | None => call ECreateTUN (fun d => d <| opened := Some {| accepted := None; running := false |} |>) d
  end.

Definition with_name (cfg : TConfig) (name : string) : TConfig :=
  {| InterfaceName := name; PrivateKey := PrivateKey cfg; LocalAddress := LocalAddress cfg; TPeer := TPeer cfg;
     MTU := MTU cfg; ListenPort := ListenPort cfg; DNSServers := DNSServers cfg; SearchDomains := SearchDomains cfg;
     MatchDomains := MatchDomains cfg |}.
(** The kernel's name for the interface, where it gives one. *)
Definition real_name (cfg : TConfig) (n : nat) : TConfig :=
  match tun_name S n with
  | Some name => if bool_decide (name = "") then cfg else with_name cfg name
  | None => cfg
  end.

Definition Configure (cfg : TConfig) : tact unit :=
  _ ← open;
  n ← run (gets calls);
  let cfg := real_name cfg n in
  uapi ← lift (map_err EUapi (buildUAPI cfg));
  _ ← call EIpcSet (device_do (fun w => {| accepted := Some uapi; running := running w |}));
  run (modify (fun d => d <| dcfg := Some cfg |>)).

Definition drop_route (r : string * prefix) (l : list (string * prefix)) : list (string * prefix) :=
  filter (fun x => x <> r) l.
Definition platformAssignAddress (ifaceName : string) (addr : prefix) : tact unit := call EAssign id.
Definition platformAddRoute (ifaceName : string) (p : prefix) : tact unit :=
  call ERoute (fun d => d <| routes := (ifaceName, p) :: drop_route (ifaceName, p) (routes d) |>).
Definition platformDelRoute (ifaceName : string) (p : prefix) : tact unit :=
  call ERoute (fun d => d <| routes := drop_route (ifaceName, p) (routes d) |>).

Fixpoint add_routes (ifaceName : string) (ps : list prefix) : tact unit :=
  match ps with
  | [] => mret tt
  | p :: ps => _ ← platformAddRoute ifaceName p; add_routes ifaceName ps
  end.
Fixpoint del_routes (ifaceName : string) (ps : list prefix) : tact unit :=
  match ps with
  | [] => mret tt
  | p :: ps => _ ← ignore (platformDelRoute ifaceName p); del_routes ifaceName ps
  end.

(** The address of the zero configuration is not valid. *)
Definition Up : tact unit := fun d =>
  match opened d with
  | None => (Err ENotOpen, d)
  | Some _ =>
    (_ ← call EDeviceUp (device_do (fun w => {| accepted := accepted w; running := true |}));
     match dcfg d with
     | None => fail EAssign
     | Some cfg =>
       _ ← platformAssignAddress (InterfaceName cfg) (LocalAddress cfg);
       add_routes (InterfaceName cfg) (PeerAllowedIPs (TPeer cfg))
     end) d
  end.

Definition Down : tact unit := fun d =>
  match opened d with
  | None => (Ok tt, d)
  | Some _ =>
    (_ ← match dcfg d with
         | Some cfg => del_routes (InterfaceName cfg) (PeerAllowedIPs (TPeer cfg))
         | None => mret tt
         end;
     call EDeviceDown (device_do (fun w => {| accepted := accepted w; running := false |}))) d
  end.

(** The error is the second component: statErr is [false] for an error. *)
Definition Stats : state desktopTunnel (TStats * bool) := fun d =>
  match opened d with
  | None => ((no_tstats, true), d)
  | Some _ =>
    if (time_sub (clock S (calls d)) (lastStat d) <? second)%Z then ((dstats d, statErr d), d)
    else
      let '(st, ok) := let '(lines, ok) := ipc_get S (calls d) in readUAPIStats lines ok in
      ((st, ok), {| opened := opened d; dcfg := dcfg d; dstats := st; lastStat := clock S (Datatypes.S (calls d)); statErr := ok;
                    closed := closed d; routes := routes d; calls := Datatypes.S (calls d) |})
  end.

(** Close returns nil. *)
Definition Close (d : desktopTunnel) : desktopTunnel :=
  if closed d then d
  else {| opened := None; dcfg := dcfg d; dstats := dstats d; lastStat := lastStat d; statErr := statErr d;
          closed := true; routes := routes d; calls := calls d |}.

Definition succeeds {A} (r : result desktop_error A * desktopTunnel) : bool * desktopTunnel := (is_ok r.1, r.2).

#[export] Instance desktop_device : TunnelDevice := {|
  device := desktopTunnel;
  create := Some newPlatformTunnel;
  dev_configure cfg d := succeeds (Configure cfg d);
  dev_up d := succeeds (Up d);
  dev_down d := succeeds (Down d);
  dev_stats d := let '((st, ok), d) := Stats d in (if ok then Some st else None, d);
  dev_close d := true |}.

(** ** Theorems *)
#[local] Arguments drop_route : simpl never.

Definition own (cfg : TConfig) : list (string * prefix) :=
  (fun p => (InterfaceName cfg, p)) <$> PeerAllowedIPs (TPeer cfg).

Lemma call_Ok e f d d' : call e f d = (Ok tt, d') -> d' = f (d <| calls := Datatypes.S (calls d) |>).
Proof. unfold call. destruct (sys S (calls d)); [|done]. by intros [= <-]. Qed.

Lemma Configure_Ok cfg d d' :
  Configure cfg d = (Ok tt, d') -> exists n text b, let cfg1 := real_name cfg n in
    buildUAPI cfg1 = Ok text /\ dcfg d' = Some cfg1 /\ opened d' = Some {| accepted := Some text; running := b |} /\
    routes d' = routes d.
Proof.
  unfold Configure. rewrite action_bind_Ok. intros ([] & d1 & Ho & H). rewrite action_bind_Ok in H.
  destruct H as (n & d2 & Hn & H). unfold run, gets in Hn. injection Hn as <- <-.
  rewrite action_bind_Ok in H. destruct H as (text & d3 & Hl & H). unfold lift in Hl. injection Hl as Hl <-.
  apply map_err_Ok in Hl. rewrite action_bind_Ok in H. destruct H as ([] & d4 & ->%call_Ok & H).
  unfold run, modify in H. injection H as <-.
  assert (exists w, opened d1 = Some w /\ routes d1 = routes d) as (w & Hw & Hr).
  { unfold open in Ho. destruct (opened d) eqn:E; [injection Ho as <-; eauto|]. apply call_Ok in Ho as ->. cbn. eauto. }
  exists (calls d1), text, (running w). cbn. rewrite Hw. done.
Qed.

Lemma elem_of_drop_route r x l : x ∈ drop_route r l <-> x <> r /\ x ∈ l.
Proof. unfold drop_route. by rewrite list_elem_of_filter. Qed.

(** What adding routes does, whether or not it gets to the end. *)
Lemma add_routes_spec i ps d :
  let '(r, d') := add_routes i ps d in
  dcfg d' = dcfg d /\ opened d' = opened d /\
  (forall x, x ∈ routes d -> x ∈ routes d') /\
  (forall x, x ∈ routes d' -> x ∈ routes d \/ x ∈ (pair i <$> ps)) /\
  (r = Ok tt -> forall p, p ∈ ps -> (i, p) ∈ routes d').
Proof.
  revert d. induction ps as [|p ps IH]; intros d; cbn [add_routes].
  { split_and!; try done; [by left|]. intros _ q Hq. by apply elem_of_nil in Hq. }
  unfold mbind, action_bind, platformAddRoute, call. destruct (sys S (calls d)); [|by split_and!; auto].
  match goal with |- context [add_routes i ps ?d1] => specialize (IH d1); destruct (add_routes i ps d1) as [r d'] end.
  destruct IH as (H1 & H2 & H3 & H4 & H5). cbn in *. split_and!; [done|done| | |].
  - intros x Hx. apply H3. rewrite elem_of_cons, elem_of_drop_route. destruct (decide (x = (i, p))); auto.
  - intros x Hx. apply H4 in Hx. rewrite elem_of_cons, elem_of_drop_route in Hx. rewrite elem_of_cons. naive_solver.
  - intros Hr q [->|Hq]%elem_of_cons; [|by apply H5]. apply H3. by apply list_elem_of_here.
Qed.

Lemma del_routes_spec i ps d :
  exists d', del_routes i ps d = (Ok tt, d') /\ dcfg d' = dcfg d /\ opened d' = opened d /\ calls d <= calls d' /\
    (forall x, x ∈ routes d' -> x ∈ routes d) /\
    (forall x, x ∈ routes d -> x ∉ (pair i <$> ps) -> x ∈ routes d') /\
    ((forall n, calls d <= n -> sys S n = true) -> forall x, x ∈ routes d' -> x ∉ (pair i <$> ps)).
Proof.
  revert d. induction ps as [|p ps IH]; intros d; cbn [del_routes].
  { eexists. split_and!; try done. intros _ x _ Hx. by apply elem_of_nil in Hx. }
  rewrite (action_bind_eq _ _ _ _ _ (ignore_Ok _ _)). destruct (IH (platformDelRoute i p d).2) as (d' & -> & H1 & H2 & H3 & H4 & H5 & H6).
  unfold platformDelRoute, call in *. exists d'.
  destruct (sys S (calls d)) eqn:E; cbn in *; (split_and!; [done|done|done|lia|..]).
  - intros x Hx. by apply H4, elem_of_drop_route in Hx as [_ ?].
  - intros x Hx [Hne Hps]%not_elem_of_cons. apply H5; [|done]. by apply elem_of_drop_route.
  - intros Hok x Hx. apply not_elem_of_cons. split; [by apply H4, elem_of_drop_route in Hx as [? _]|].
    apply H6; [|done]. intros n Hn. apply Hok. lia.
  - done.
  - intros x Hx [Hne Hps]%not_elem_of_cons. by apply H5.
  - intros Hok. rewrite Hok in E by lia. done.
Qed.

Lemma Up_spec d cfg w :
  opened d = Some w -> dcfg d = Some cfg ->
  let '(r, d') := Up d in
  dcfg d' = Some cfg /\ (exists b, opened d' = Some {| accepted := accepted w; running := b |}) /\
  (forall x, x ∈ routes d -> x ∈ routes d') /\
  (forall x, x ∈ routes d' -> x ∈ routes d \/ x ∈ own cfg) /\
  (r = Ok tt -> opened d' = Some {| accepted := accepted w; running := true |} /\ forall x, x ∈ own cfg -> x ∈ routes d').
Proof.
  intros Ho Hc. unfold Up. rewrite Ho. unfold mbind, action_bind, platformAssignAddress, call.
  destruct (sys S (calls d)); cbn; [|rewrite Hc; split_and!; auto; [exists (running w); by destruct w|done]].
  rewrite Hc. match goal with |- context [sys S ?n] => destruct (sys S n) end; cbn;
    [|rewrite Ho; cbn; split_and!; eauto; done].
  match goal with |- context [add_routes ?i ?ps ?d1] => pose proof (add_routes_spec i ps d1) as H; destruct (add_routes i ps d1) as [r d'] end.
  cbn in H. rewrite Ho in H. destruct H as (H1 & H2 & H3 & H4 & H5). split_and!; [congruence|by exists true|done|done|].
  intros Hr. split; [done|]. intros x (p & -> & Hp)%list_elem_of_fmap. by apply H5.
Qed.

(** Down, when no call fails from then on. *)
Lemma Down_quiet d cfg w :
  opened d = Some w -> dcfg d = Some cfg -> (forall n, calls d <= n -> sys S n = true) ->
  exists d', Down d = (Ok tt, d') /\ opened d' = Some {| accepted := accepted w; running := false |} /\
    forall x, x ∈ routes d' <-> x ∈ routes d /\ x ∉ own cfg.
Proof.
  intros Ho Hc Hok. unfold Down. rewrite Ho, Hc.
  destruct (del_routes_spec (InterfaceName cfg) (PeerAllowedIPs (TPeer cfg)) d) as (d' & E & _ & H2 & H3 & H4 & H5 & H6).
  rewrite (action_bind_eq _ _ _ _ _ E). unfold call. rewrite Hok by done. eexists. split; [done|].
  cbn. rewrite H2, Ho. split; [done|]. intros x. split; [|intros [? ?]; by apply H5]. intros Hx. auto.
Qed.

(** C28: A connected outer tunnel is the configured one, and disconnecting takes
    back what connecting installed. When the manager's Connect returns nil over a
    desktop device, the device holds the text of exactly the manager's
    configuration (with the name the kernel gave the interface), is up, and
    every allowed prefix is routed to it; routes it added before are kept and no
    other is added. When no call fails afterwards, Disconnect brings the device
    down and leaves exactly the routes that are not of that configuration. *)
Theorem connect_installs (m m' : Manager) (cfg : TConfig) :
  mcfg m = Some cfg -> Tunnel.Connect m = (Ok tt, m') ->
  exists n text d, let cfg' := real_name cfg n in
    tun m' = Some d /\ buildUAPI cfg' = Ok text /\ dcfg d = Some cfg' /\
    opened d = Some {| accepted := Some text; running := true |} /\
    (forall x, x ∈ routes d <-> x ∈ own cfg' \/ exists d0, tun m = Some d0 /\ x ∈ routes d0) /\
    ((forall k, calls d <= k -> sys S k = true) ->
     exists d1, tun (Tunnel.Disconnect m').2 = Some d1 /\ mstate (Tunnel.Disconnect m').2 = StateClosed /\
       opened d1 = Some {| accepted := Some text; running := false |} /\
       forall x, x ∈ routes d1 <-> x ∈ routes d /\ x ∉ own cfg').
Proof.
  intros Hc. unfold Tunnel.Connect. rewrite Hc. set (start := match tun m with Some t => Some t | None => create end).
  assert (exists d0, start = Some d0 /\ forall x, x ∈ routes d0 <-> exists d, tun m = Some d /\ x ∈ routes d) as (d0 & -> & Hr0).
  { unfold start. destruct (tun m) as [d|]; [exists d; naive_solver|]. eexists. split; [done|]. cbn.
    intros x. split; [intros Hx; by apply elem_of_nil in Hx|naive_solver]. }
  cbn [dev_configure dev_up desktop_device succeeds].
  destruct (Configure cfg d0) as [[[]|e] d1] eqn:E1; [|done]. cbn [is_ok fst snd negb].
  destruct (Configure_Ok _ _ _ E1) as (n & text & b & Hb & Hd & Ho & Hr). pose proof (Up_spec d1 _ _ Ho Hd) as HU.
  destruct (Up d1) as [[[]|e] d2] eqn:E2; [|done]. cbn [is_ok fst snd negb].
  destruct HU as (U1 & _ & U3 & U4 & U5). destruct (U5 eq_refl) as [U6 U7]. intros [= <-].
  exists n, text, d2. split_and!; [done|done|done|done| |].
  - intros x. rewrite <-Hr0, <-Hr. split; [intros Hx%U4; tauto|intros [?|?]; auto].
  - intros Hok. destruct (Down_quiet d2 _ _ U6 U1 Hok) as (d3 & E3 & D1 & D2).
    unfold Tunnel.Disconnect. cbn [tun dev_down desktop_device succeeds]. rewrite E3. cbn. eauto.
Qed.
End desktop.

(** ** The mobile entry point *)
Section mobile.
Context {N : NetipLib} {L : NetHost}.

(** What a run does to the descriptor it is given and to the device over it;
    [Serving] is the wait for the context. *)
Inductive mobile_event := DupFd (fd : Z) | CloseFd | WrapTun (mtu : Z) | NewDevice | IpcSet (text : string) | DeviceUp
  | Serving | CloseDevice.
Inductive mobile_error := ENilConfig | EInvalidFd (fd : Z) | EMobilePrivateKey | EMobilePeerKey | EDup | EWrap
  | EBuildUapi (e : uapi_error) | EApplyUapi | EMobileUp.

(** Which of the calls succeed. *)
Record MobileCalls := { dup_ok : bool; wrap_ok : bool; ipcset_ok : bool; up_ok : bool }.
Context (K : MobileCalls).

Definition runMobileEngine (cfg : TConfig) : result mobile_error unit * list mobile_event :=
  match buildUAPI cfg with
  | Err e => (Err (EBuildUapi e), [NewDevice; CloseDevice])
  | Ok uapi =>
    if negb (ipcset_ok K) then (Err EApplyUapi, [NewDevice; IpcSet uapi; CloseDevice])
    else if negb (up_ok K) then (Err EMobileUp, [NewDevice; IpcSet uapi; DeviceUp; CloseDevice])
    else (Ok tt, [NewDevice; IpcSet uapi; DeviceUp; Serving; CloseDevice])
  end.

Definition RunOnMobile (fd : Z) (cfg : option TConfig) : result mobile_error unit * list mobile_event :=
  match cfg with
  | None => (Err ENilConfig, [])
  | Some cfg =>
    if (fd <? 0)%Z then (Err (EInvalidFd fd), [])
    else if negb (length (PrivateKey cfg) =? 32) then (Err EMobilePrivateKey, [])
    else if negb (length (PeerPublicKey (TPeer cfg)) =? 32) then (Err EMobilePeerKey, [])
    else
      let mtu := if (MTU cfg =? 0)%Z then DefaultMTU else MTU cfg in
      if negb (dup_ok K) then (Err EDup, [DupFd fd])
      else if negb (wrap_ok K) then (Err EWrap, [DupFd fd; WrapTun mtu; CloseFd])
      else let '(r, l) := runMobileEngine cfg in (r, DupFd fd :: WrapTun mtu :: l)
  end.

Definition closes (e : mobile_event) : bool := match e with CloseFd | CloseDevice => true | _ => false end.

(** A run owns its descriptor and closes it exactly once. If duplicating the
    descriptor was tried and worked, the duplicate is closed exactly once, as
    the last thing, on every path; otherwise nothing is closed. The run serves
    if and only if it returns nil, and then the device was given exactly the
    text of the configuration before it came up. *)
Theorem RunOnMobile_closes_once (fd : Z) (cfg : option TConfig) :
  let '(r, trace) := RunOnMobile fd cfg in
  (trace = [] \/ trace = [DupFd fd] /\ dup_ok K = false \/
   exists l e, trace = DupFd fd :: l ++ [e] /\ closes e = true /\ Forall (fun x => closes x = false) l) /\
  (r = Ok tt <-> Serving ∈ trace) /\
  (r = Ok tt -> exists c mtu text, cfg = Some c /\ buildUAPI c = Ok text /\
     trace = [DupFd fd; WrapTun mtu; NewDevice; IpcSet text; DeviceUp; Serving; CloseDevice]).
Proof.
  unfold RunOnMobile, runMobileEngine. destruct cfg as [cfg|].
  2:{ split_and!; [by left|split; [done|intros H; by apply elem_of_nil in H]|done]. }
  assert (forall e : mobile_error, (Err e : result mobile_error unit) = Ok tt <-> Serving ∈ []) as Hnil.
  { intros e. split; [done|intros H; by apply elem_of_nil in H]. }
  destruct (fd <? 0)%Z; [by split_and!; [left|apply Hnil|]|].
  destruct (negb (length (PrivateKey cfg) =? 32)); [by split_and!; [left|apply Hnil|]|].
  destruct (negb (length (PeerPublicKey (TPeer cfg)) =? 32)); [by split_and!; [left|apply Hnil|]|].
  generalize (if (MTU cfg =? 0)%Z then DefaultMTU else MTU cfg). intros mtu.
  destruct (dup_ok K); cbn [negb]; [|split_and!; [right; left; done|set_solver|done]].
  destruct (wrap_ok K); cbn [negb]; [|split_and!; [right; right; exists [WrapTun mtu], CloseFd; by repeat constructor|set_solver|done]].
  destruct (buildUAPI cfg) as [text|e] eqn:Eb; [|split_and!; [right; right; exists [WrapTun mtu; NewDevice], CloseDevice; by repeat constructor|set_solver|done]].
  destruct (ipcset_ok K); cbn [negb]; [|split_and!; [right; right; exists [WrapTun mtu; NewDevice; IpcSet text], CloseDevice; by repeat constructor|set_solver|done]].
  destruct (up_ok K); cbn [negb]; [|split_and!; [right; right; exists [WrapTun mtu; NewDevice; IpcSet text; DeviceUp], CloseDevice; by repeat constructor|set_solver|done]].
  split_and!; [right; right; exists [WrapTun mtu; NewDevice; IpcSet text; DeviceUp; Serving], CloseDevice; by repeat constructor|set_solver|].
  intros _. by exists cfg, mtu, text.
Qed.
End mobile.

(** ** A desktop to run *)
Module ToyDesktop.
#[export] Existing Instance ToyTunnel.netip.
#[export] Existing Instance Injection.hosts.
#[export] Instance prefix_eq : EqDecision prefix := String.eq_dec.

Definition quiet : System := {| sys _ := true; tun_name _ := Some "utun7"; ipc_get _ := ([], true); clock n := Z.of_nat n |}.
Definition configured (allowed : list string) : TConfig :=
  let c := Injection.peer "192.0.2.1:51820" in
  {| InterfaceName := InterfaceName c; PrivateKey := PrivateKey c; LocalAddress := LocalAddress c;
     TPeer := {| PeerPublicKey := PeerPublicKey (TPeer c); PeerEndpoint := PeerEndpoint (TPeer c);
                 PeerAllowedIPs := allowed; PersistentKeepalive := PersistentKeepalive (TPeer c) |};
     MTU := MTU c; ListenPort := 0; DNSServers := []; SearchDomains := []; MatchDomains := [] |}.
Definition idle (cfg : TConfig) : Manager (D := desktop_device quiet) :=
  {| tun := None; mstate := StateClosed; mcfg := Some cfg; lastErr := None |}.

Lemma connect_installs_witness :
  let m := (Tunnel.Connect (D := desktop_device quiet) (idle (configured ["198.18.0.0/24"]))).2 in
  exists d, tun m = Some d /\ ("utun7", "198.18.0.0/24" : prefix) ∈ routes d /\
    exists d1, tun (Tunnel.Disconnect m).2 = Some d1 /\ ("utun7", "198.18.0.0/24" : prefix) ∉ routes d1.
Proof.
  destruct (Tunnel.Connect (D := desktop_device quiet) (idle (configured ["198.18.0.0/24"]))) as [r m] eqn:E.
  assert (r = Ok tt) as -> by (change r with (fst (r, m)); rewrite <-E; vm_compute; reflexivity).
  destruct (connect_installs quiet (idle (configured ["198.18.0.0/24"])) m (configured ["198.18.0.0/24"]) eq_refl E) as (n & text & d & Ht & _ & _ & _ & Hr & Hd).
  assert (("utun7", "198.18.0.0/24" : prefix) ∈ own (real_name quiet (configured ["198.18.0.0/24"]) n)) as Hin
    by (apply list_elem_of_here).
  exists d. split; [exact Ht|]. split; [apply Hr; by left|].
  destruct Hd as (d1 & Ht1 & _ & _ & Hr1); [done|]. exists d1. split; [exact Ht1|]. intros Hx. by apply Hr1 in Hx as [_ ?].
Defined.

(** A configuration that replaces another while the tunnel is up: the routes of
    the first stay after Disconnect. *)
Lemma reconfigure_leaks_routes :
  let m1 := (Tunnel.Connect (D := desktop_device quiet) (idle (configured ["198.18.0.0/24"]))).2 in
  let m2 := (Tunnel.Configure Linux (configured ["10.0.0.0/8"]) m1).2 in
  let m3 := (Tunnel.Disconnect m2).2 in
  mstate m3 = StateClosed /\ (routes <$> tun m3) = Some [("utun7", "198.18.0.0/24" : prefix)].
Proof. vm_compute. split; reflexivity. Qed.

Definition all_work : MobileCalls := {| dup_ok := true; wrap_ok := true; ipcset_ok := true; up_ok := true |}.
End ToyDesktop.
