(* ===== verification/Platform.v ===== *)
(** The commands the desktop tunnel runs on each system:
    internal/tunnel/platform_{linux,darwin,windows}.go.

    [exec n argv] tells whether the n-th command succeeds; the state is the list
    of the commands run so far. [perform] is a platform function; Devices.v counts
    it as one call to the system, which [Up_runs_commands] justifies. *)
From stdpp Require Import base tactics list strings.
From Stdlib Require Import ZArith Ascii Lia.
From S2P Require Import Prelude GoStr.
From S2P Require Import Tunnel.
From S2P Require Import Uapi.
From S2P Require Import Devices.
Local Open Scope list_scope.

(** The three systems a desktop tunnel is built for. *)
Inductive desktop := OnLinux | OnDarwin | OnWindows.
Definition DefaultInterfaceName (s : desktop) : string := match s with OnDarwin => "utun" | _ => "wg-cp0" end.

(** netip.Prefix: Addr().String() and Bits(), of a prefix that is valid. *)
Class PrefixParts {N : NetipLib} := {
  prefix_valid : prefix -> bool;
  addr_string : prefix -> string;
  prefix_bits : prefix -> Z }.

(** ** Dotted masks *)
Definition dotted (a b c d : Z) : string := itoa a +:+ "." +:+ itoa b +:+ "." +:+ itoa c +:+ "." +:+ itoa d.
(** A shift of a uint32 drops what leaves its 32 bits. *)
Definition mask_of (bits : Z) : Z := Z.land (Z.shiftl 0xFFFFFFFF (32 - bits)) 0xFFFFFFFF.
Definition prefixToMask (bits : Z) : string :=
  if ((bits <? 0) || (32 <? bits))%Z then "255.255.255.255"
  else
    let mask := mask_of bits in
    dotted (Z.land (Z.shiftr mask 24) 255) (Z.land (Z.shiftr mask 16) 255) (Z.land (Z.shiftr mask 8) 255) (Z.land mask 255).

(** ** The platform functions *)
Section platform.
Context {N : NetipLib} {L : NetHost} {PP : PrefixParts} (exec : nat -> list string -> bool).

Inductive command_error := EInvalidPrefix | ECommand (argv : list string).
Abbreviation cact := (action (list (list string)) command_error).
Definition command (argv : list string) : cact unit := fun l =>
  (if exec (length l) argv then Ok tt else Err (ECommand argv), l ++ [argv]).
(** A command whose result nobody looks at. *)
Definition diagnose (argv : list string) : cact unit := ignore (E := command_error) (command argv).

Definition assign_address (s : desktop) (ifaceName : string) (addr : prefix) : cact unit :=
  if negb (prefix_valid addr) then fail EInvalidPrefix
  else
    match s with
    | OnLinux =>
      _ ← command ["ip"; "address"; "replace"; prefix_text addr; "dev"; ifaceName];
      _ ← command ["ip"; "link"; "set"; "dev"; ifaceName; "up"];
      _ ← diagnose ["ip"; "-d"; "addr"; "show"; "dev"; ifaceName];
      diagnose ["ip"; "-d"; "route"; "show"; "dev"; ifaceName]
    | OnDarwin =>
      let ip := addr_string addr in
      command ["ifconfig"; ifaceName; "inet"; ip +:+ "/" +:+ itoa (prefix_bits addr); ip; "alias"; "up"]
    | OnWindows =>
      command ["netsh"; "interface"; "ipv4"; "set"; "address"; "name=" +:+ ifaceName; "static"; addr_string addr;
               prefixToMask (prefix_bits addr)]
    end.
(** The command that adds or deletes a route. *)
Definition route_argv (s : desktop) (adding : bool) (ifaceName : string) (p : prefix) : list string :=
  match s with
  | OnLinux => ["ip"; "route"; if adding then "replace" else "del"; prefix_text p; "dev"; ifaceName]
  | OnDarwin => ["route"; "-q"; "-n"; if adding then "add" else "delete"; "-inet"; prefix_text p; "-interface"; ifaceName]
  | OnWindows => ["netsh"; "interface"; "ipv4"; if adding then "add" else "delete"; "route"; prefix_text p; "interface=" +:+ ifaceName]
  end.
Definition add_route (s : desktop) (ifaceName : string) (p : prefix) : cact unit :=
  _ ← command (route_argv s true ifaceName p);
  match s with
  | OnLinux => diagnose ["ip"; "route"; "show"; prefix_text p; "dev"; ifaceName]
  | _ => mret tt
  end.
Definition del_route (s : desktop) (ifaceName : string) (p : prefix) : cact unit := command (route_argv s false ifaceName p).

(** What Up does after the device is up. *)
Fixpoint add_all (s : desktop) (ifaceName : string) (ps : list prefix) : cact unit :=
  match ps with
  | [] => mret tt
  | p :: ps => _ ← add_route s ifaceName p; add_all s ifaceName ps
  end.
Definition bring_up (s : desktop) (cfg : TConfig) : cact unit :=
  _ ← assign_address s (InterfaceName cfg) (LocalAddress cfg); add_all s (InterfaceName cfg) (PeerAllowedIPs (TPeer cfg)).
End platform.

(** ** Theorems *)

(** Four numbers between dots. *)
Definition read_dotted (s : string) : option Z :=
  match split "."%char (s2l s) with
  | [a; b; c; d] =>
    let n w := parse_uint (l2s w) in Some (((n a * 256 + n b) * 256 + n c) * 256 + n d)%Z
  | _ => None
  end.

Lemma small_bits (P : Z -> bool) : forallb (fun n => P (Z.of_nat n)) (seq 0 33) = true -> forall b, (0 <= b <= 32)%Z -> P b = true.
Proof.
  intros H b Hb. rewrite forallb_forall in H. rewrite <-(Z2Nat.id b) by lia. apply H. apply in_seq. lia.
Qed.

Lemma mask_reads bits : (0 <= bits <= 32)%Z -> read_dotted (prefixToMask bits) = Some (2 ^ 32 - 2 ^ (32 - bits))%Z.
Proof.
  intros Hb. set (P b := bool_decide (read_dotted (prefixToMask b) = Some (2 ^ 32 - 2 ^ (32 - b))%Z)).
  assert (P bits = true) as H by (apply small_bits; [vm_compute; reflexivity|done]).
  by apply bool_decide_eq_true in H.
Qed.

(** The dotted mask is the prefix length: for 0 to 32 bits its four numbers are
    those of the word whose [bits] upper bits are ones and whose others are zeros;
    any other length gives the mask of one host. *)
Theorem prefixToMask_exact (bits : Z) :
  ((0 <= bits <= 32)%Z -> read_dotted (prefixToMask bits) = Some (2 ^ 32 - 2 ^ (32 - bits))%Z /\
     forall i, (0 <= i < 32)%Z -> Z.testbit (2 ^ 32 - 2 ^ (32 - bits)) i = (32 - bits <=? i)%Z) /\
  (~ (0 <= bits <= 32)%Z -> prefixToMask bits = "255.255.255.255").
Proof.
  split.
  - intros Hb. split.
    + by apply mask_reads.
    + intros i Hi. replace (2 ^ 32 - 2 ^ (32 - bits))%Z with (Z.shiftl (Z.ones bits) (32 - bits)).
      * rewrite Z.shiftl_spec by lia. destruct (Z.leb_spec (32 - bits) i); [apply Z.ones_spec_low; lia|apply Z.testbit_neg_r; lia].
      * rewrite Z.shiftl_mul_pow2, Z.ones_equiv by lia. rewrite <-Z.sub_1_r, Z.mul_sub_distr_r, <-Z.pow_add_r by lia. f_equal; [f_equal|]; lia.
  - intros Hb. unfold prefixToMask. destruct (Z.ltb_spec bits 0); [done|]. destruct (Z.ltb_spec 32 bits); [done|]. lia.
Qed.

Section theorems.
Context {N : NetipLib} {L : NetHost} {PP : PrefixParts} {PE : EqDecision prefix}.
Implicit Types (exec : nat -> list string -> bool) (l : list (list string)).

Lemma diagnose_Ok exec argv l : diagnose exec argv l = (Ok tt, l ++ [argv]).
Proof. by unfold diagnose; rewrite ignore_Ok. Qed.

(** A deletion names what the addition named: the commands that add and that
    delete a route differ in the verb alone, and two routes with the same command
    are of the same interface and the same prefix text. *)
Theorem route_commands_match (s : desktop) (i i' : string) (p p' : prefix) (adding : bool) :
  (exists before after, forall b, exists verb, route_argv s b i p = before ++ verb :: after) /\
  route_argv s true i p <> route_argv s false i p /\
  (route_argv s adding i p = route_argv s adding i' p' -> i = i' /\ prefix_text p = prefix_text p').
Proof.
  split_and!.
  - destruct s; cbn [route_argv].
    + exists ["ip"; "route"], [prefix_text p; "dev"; i]. intros b. by exists (if b then "replace" else "del").
    + exists ["route"; "-q"; "-n"], ["-inet"; prefix_text p; "-interface"; i]. intros b. by exists (if b then "add" else "delete").
    + exists ["netsh"; "interface"; "ipv4"], ["route"; prefix_text p; "interface=" +:+ i]. intros b. by exists (if b then "add" else "delete").
  - by destruct s.
  - destruct s; cbn [route_argv]; intros H; injection H as Hp Hi; [done..|]. split; [by repeat injection Hi as Hi|done].
Qed.

(** The outcomes of a sequence of platform functions, up to the first that fails. *)
Fixpoint script (ops : list (action (list (list string)) command_error unit)) l : list bool :=
  match ops with
  | [] => []
  | op :: ops => let '(r, l') := op l in is_ok r :: if is_ok r then script ops l' else []
  end.
Definition up_ops exec s cfg : list (action (list (list string)) command_error unit) :=
  assign_address exec s (InterfaceName cfg) (LocalAddress cfg) :: (add_route exec s (InterfaceName cfg) <$> PeerAllowedIPs (TPeer cfg)).
(** The calls of the desktop tunnel from the [n]-th on turn out as [bs] says. *)
Definition plays (S : System) (n : nat) (bs : list bool) : Prop := forall k b, bs !! k = Some b -> sys S (n + k) = b.
Lemma plays_cons S n b bs : plays S n (b :: bs) -> sys S n = b /\ plays S (Datatypes.S n) bs.
Proof.
  intros H. split; [rewrite <-(Nat.add_0_r n); by apply (H 0)|]. intros k c Hk.
  replace (Datatypes.S n + k) with (n + Datatypes.S k) by lia. by apply H.
Qed.

Lemma add_route_log exec s i p l r l' :
  add_route exec s i p l = (r, l') -> (forall a, a ∈ l -> a ∈ l') /\ (r = Ok tt -> route_argv s true i p ∈ l').
Proof.
  unfold add_route, mbind, action_bind, command. destruct (exec _ _).
  - destruct s; [rewrite diagnose_Ok|..]; intros [= <- <-]; (split; [intros a Ha|intros _]); rewrite ?elem_of_app; auto using list_elem_of_here.
  - intros [= <- <-]. split; [|done]. intros a Ha. rewrite elem_of_app. by left.
Qed.

Lemma add_all_plays exec s i ps (S : System) d l :
  plays S (calls d) (script (add_route exec s i <$> ps) l) ->
  is_ok (add_routes S i ps d).1 = is_ok (add_all exec s i ps l).1 /\
  calls (add_routes S i ps d).2 = calls d + length (script (add_route exec s i <$> ps) l) /\
  (forall a, a ∈ l -> a ∈ (add_all exec s i ps l).2) /\
  (is_ok (add_all exec s i ps l).1 = true -> forall p, p ∈ ps -> route_argv s true i p ∈ (add_all exec s i ps l).2).
Proof.
  revert d l. induction ps as [|p ps IH]; intros d l; cbn [add_all add_routes fmap list_fmap script].
  { intros _. cbn. split_and!; [done|lia|done|]. intros _ p Hp. by apply elem_of_nil in Hp. }
  unfold mbind at 1 2 3 4 5 6. unfold action_bind. destruct (add_route exec s i p l) as [r l'] eqn:E.
  destruct (add_route_log _ _ _ _ _ _ _ E) as [Hl Hr]. intros [Hs Hp]%plays_cons. unfold platformAddRoute, call. rewrite Hs.
  destruct r as [[]|e]; cbn [is_ok fst snd length] in *.
  - match goal with |- context [add_routes S i ps ?d1] => destruct (IH d1 l') as (H1 & H2 & H3 & H4); [exact Hp|] end.
    cbn [calls] in H2. split_and!; [done|rewrite H2; cbn; lia|by auto|]. intros Hok q [->|Hq]%elem_of_cons; [by apply H3, Hr|by apply H4].
  - split_and!; [done|cbn; lia|done|done].
Qed.

Lemma Up_eq (S : System) d cfg w :
  opened d = Some w -> dcfg d = Some cfg -> sys S (calls d) = true ->
  exists d1, calls d1 = Datatypes.S (Datatypes.S (calls d)) /\
    Up S d = if sys S (Datatypes.S (calls d)) then add_routes S (InterfaceName cfg) (PeerAllowedIPs (TPeer cfg)) d1 else (Err EAssign, d1).
Proof.
  intros Ho Hc Hs. unfold Up. rewrite Ho. unfold mbind, action_bind, platformAssignAddress, call. rewrite Hs. cbn. rewrite Hc.
  change (calls (device_do _ _)) with (Datatypes.S (calls d)). destruct (sys S (Datatypes.S (calls d))); eexists; (split; [|reflexivity]); done.
Qed.

(** Up runs the platform's commands. When the calls of the desktop tunnel turn
    out the way the system's commands do - one call a platform function - Up
    succeeds exactly when they do, makes one call for each it gets to, and on
    success a command has routed every allowed prefix to the interface. *)
Theorem Up_runs_commands exec s (S : System) d cfg w l :
  opened d = Some w -> dcfg d = Some cfg -> sys S (calls d) = true ->
  plays S (Datatypes.S (calls d)) (script (up_ops exec s cfg) l) ->
  let '(r, l') := bring_up exec s cfg l in
  is_ok (Up S d).1 = is_ok r /\
  calls (Up S d).2 = Datatypes.S (calls d) + length (script (up_ops exec s cfg) l) /\
  (is_ok r = true -> forall p, p ∈ PeerAllowedIPs (TPeer cfg) -> route_argv s true (InterfaceName cfg) p ∈ l').
Proof.
  intros Ho Hc Hup Hp. destruct (Up_eq S d cfg w Ho Hc Hup) as (d1 & Hd1 & ->). unfold bring_up, up_ops in *. cbn [script] in *.
  unfold mbind, action_bind. destruct (assign_address exec s _ _ l) as [r l1]. apply plays_cons in Hp as [Hs Hp]. rewrite Hs.
  destruct r as [[]|e]; cbn [is_ok fst snd length] in *; [|by split_and!; [|rewrite Hd1; lia|]].
  rewrite <-Hd1 in Hp. destruct (add_all_plays _ _ _ _ _ _ _ Hp) as (H1 & H2 & _ & H4).
  destruct (add_all _ _ _ _ l1) as [r2 l2]. split_and!; [exact H1|rewrite H2, Hd1; lia|exact H4].
Qed.
End theorems.

(** ** A machine on which every command succeeds, and one that refuses routes *)
Module ToyPlatform.
#[export] Existing Instance ToyTunnel.netip.
#[export] Existing Instance Injection.hosts.
#[export] Instance parts : PrefixParts := {| prefix_valid p := negb (bool_decide (p = "")); addr_string p := p; prefix_bits _ := 24%Z |}.
Definition no_routes (_ : nat) (argv : list string) : bool := negb (bool_decide ("route" ∈ argv)).
Definition system : System := {| sys n := n <? 2; tun_name _ := None; ipc_get _ := ([], false); clock _ := 0%Z |}.
Definition device0 : desktopTunnel :=
  {| opened := Some {| accepted := None; running := false |}; dcfg := Some (Injection.peer "192.0.2.1:51820"); dstats := no_tstats; lastStat := 0;
     statErr := true; closed := false; routes := []; calls := 0 |}.
(** The address is assigned, the first route is refused: three calls. *)
Lemma Up_runs_commands_witness : is_ok (Up system device0).1 = false /\ calls (Up system device0).2 = 3.
Proof.
  destruct (Up_runs_commands no_routes OnWindows system device0 (Injection.peer "192.0.2.1:51820") {| accepted := None; running := false |} [])
    as (H1 & H2 & _); [reflexivity|reflexivity|reflexivity| |].
  - intros [|[|k]] b Hk; vm_compute in Hk; [injection Hk as <-; reflexivity..|discriminate Hk].
  - split; [exact H1|exact H2].
Defined.
End ToyPlatform.
