(* ===== verification/DnsAdapter.v ===== *)
(** The host resolver's contract: internal/tunnel/dns/dns.go, with the adapters
    that do nothing (adapter_linux.go without systemd-resolved,
    adapter_mobile.go).

    The adapters that act are DnsSystemd.v, DnsScutil.v and DnsNrpt.v. *)
From stdpp Require Import base tactics list strings.
From Stdlib Require Import ZArith Lia.
From S2P Require Import Prelude GoStr.
From S2P Require Import Tunnel.
Local Open Scope list_scope.

(** net/netip's address with port, its text, and net/url. *)
Class NetText {N : NetipLib} := {
  parse_addr_port : string -> option (ip_addr * Z);
  addr_text : ip_addr -> string;
  url_hostname : string -> option string }.

(** tunneldns.Config *)
Record DnsConfig {N : NetipLib} := {
  Nameservers : list ip_addr;
  DSearchDomains : list string;
  DMatchDomains : list string;
  Port : Z }.

(** ErrNotImplemented is returned by no adapter. *)
Inductive dns_error := ErrPortUnsupported | EAdapter.

Section contract.
Context {N : NetipLib}.

(** [for _, d := range cfg.SearchDomains ...; for _, d := range cfg.MatchDomains ...] *)
Definition all_domains (c : DnsConfig) : list string := DSearchDomains c ++ DMatchDomains c.
Definition custom_port (c : DnsConfig) : bool := negb (Port c =? 0)%Z && negb (Port c =? 53)%Z.
Definition has_servers (c : DnsConfig) : bool := match Nameservers c with [] => false | _ => true end.

(** tunneldns.Adapter. [effective c]: the platform has something to register
    for [c]. [serves h iface c]: the adapter registered [c] and the host still
    holds it. *)
Class HostDNS := {
  resolver : Type;
  effective : DnsConfig -> bool;
  serves : resolver -> string -> DnsConfig -> Prop;
  dns_apply : string -> DnsConfig -> action resolver dns_error unit;
  dns_restore : action resolver dns_error unit;
  effective_servers c ns p : effective c = true -> ns <> [] ->
    effective {| Nameservers := ns; DSearchDomains := DSearchDomains c; DMatchDomains := DMatchDomains c;
                 Port := p |} = true;
  dns_apply_serves iface c h h' : effective c = true -> dns_apply iface c h = (Ok tt, h') -> serves h' iface c;
  dns_restore_drops iface c h h' : effective c = true -> serves h iface c ->
    dns_restore h = (Ok tt, h') -> ~ serves h' iface c }.

(** ** Adapters that do nothing *)
Definition noop_Apply (ifaceName : string) (c : DnsConfig) : action unit dns_error unit := mret tt.
Definition noop_Restore : action unit dns_error unit := mret tt.

#[local, refine] Instance noop_adapter : HostDNS := {|
  resolver := unit;
  effective _ := false;
  serves _ _ _ := True;
  dns_apply := noop_Apply;
  dns_restore := noop_Restore |}.
Proof. all: done. Defined.
End contract.

(** Addresses that are numbers. *)
Module ToyAddr.
#[export] Instance netip : NetipLib := {|
  ip_addr := Z; prefix := Z; parse_addr s := None; parse_prefix s := None; host_prefix a := a |}.
#[export] Instance net_text : NetText := {|
  parse_addr_port s := None; addr_text := itoa; url_hostname _ := None |}.
End ToyAddr.
