(* ===== verification/Environ.v ===== *)
(** The environment of the process, and the list of variables the iOS shell hands
    over: src/mobile/ios/GoatClientSDK/env_list.go and applyEnv of client.go. The
    list of the Android shell is in AndroidVpn.v. *)
From stdpp Require Import base tactics list gmap strings.
From Stdlib Require Import ZArith Ascii Lia.
From S2P Require Import Prelude GoStr.
Local Open Scope list_scope.

Abbreviation Environ := (gmap string string).

(** syscall.Setenv: a key that is empty or has an equals sign or a NUL in it, or
    a value with a NUL, is refused. *)
Definition nul : ascii := "000".
Definition settable (key value : string) : bool :=
  negb (bool_decide (key = "")) && negb (contains "="%char (s2l key)) && negb (contains nul (s2l key)) && negb (contains nul (s2l value)).
Definition Setenv (key value : string) (env : Environ) : Environ := if settable key value then <[key := value]> env else env.
(** One Setenv for each entry of a map, in the order its range takes. *)
Definition set_all (vars : gmap string string) (env : Environ) : Environ := map_fold Setenv env vars.

(** What is set does not depend on the order of the range. *)
Lemma set_all_lookup vars env k :
  set_all vars env !! k =
  match vars !! k with Some v => if settable k v then Some v else env !! k | None => env !! k end.
Proof.
  unfold set_all. revert k. induction vars as [|key value e He Hf IH] using map_first_key_ind; intros k.
  - by rewrite map_fold_empty.
  - rewrite map_fold_insert_first_key by done. unfold Setenv at 1. destruct (decide (k = key)) as [->|Hk].
    + rewrite lookup_insert_eq. destruct (settable key value); [by rewrite lookup_insert_eq|]. by rewrite IH, He.
    + rewrite lookup_insert_ne by done. destruct (settable key value); [rewrite lookup_insert_ne by done|]; apply IH.
Qed.

(** ** iOS *)
Module IosEnv.
(** [None] is a nil list. *)
Abbreviation EnvList := (gmap string string).
Definition NewEnvList : EnvList := ∅.
Definition Put (key value : string) (el : EnvList) : EnvList := <[key := value]> el.
Definition Get (key : string) (el : EnvList) : string := default "" (el !! key).
Definition allItems (el : option EnvList) : gmap string string := default ∅ el.
Definition applyEnv (list_ : option EnvList) (env : Environ) : Environ := set_all (allItems list_) env.

(** The engine starts with the variables that were put last and that a system can
    hold; every other variable, and all of them without a list, is as it was. *)
Theorem applyEnv_last_put (puts : list (string * string)) (env : Environ) (k : string) :
  let el := foldl (fun el p => Put p.1 p.2 el) NewEnvList puts in
  applyEnv (Some el) env !! k =
    match snd <$> last (filter (fun p => p.1 = k) puts) with
    | Some v => if settable k v then Some v else env !! k
    | None => env !! k
    end /\
  applyEnv None env = env /\ Get k el = default "" (snd <$> last (filter (fun p => p.1 = k) puts)).
Proof.
  cbv zeta. set (el := foldl _ NewEnvList puts). assert (el !! k = snd <$> last (filter (fun p => p.1 = k) puts)) as He.
  { unfold el. clear el. induction puts as [|[k' v] puts IH] using rev_ind; [done|]. rewrite foldl_app, filter_app. cbn [foldl fst snd].
    unfold Put at 1. destruct (decide (k' = k)) as [->|Hk].
    - by rewrite lookup_insert_eq, filter_cons_True, filter_nil, last_snoc by done.
    - by rewrite lookup_insert_ne, filter_cons_False, filter_nil, app_nil_r by done. }
  split; [|split].
  - unfold applyEnv. rewrite set_all_lookup. change (allItems (Some el)) with el. by rewrite He.
  - unfold applyEnv, set_all. apply map_fold_empty.
  - unfold Get. by rewrite He.
Qed.
End IosEnv.
