(* ===== verification/AndroidVpn.v ===== *)
(** What the Android shell and the engine hand to each other:
    src/mobile/android/GoatClientSDK/types_android.go (DNSList, EnvList), the
    joining functions at the end of client_android.go, and configureInterface of
    Shell/app/src/main/java/io/dlf_dds/goat_client/TunAdapterImpl.kt, which takes
    the strings apart again and builds the VPN interface. *)
From stdpp Require Import base tactics list gmap strings.
From Stdlib Require Import ZArith Ascii Lia.
From S2P Require Import Prelude GoStr.
From S2P Require Import Environ.
From S2P Require Import Bundle.
From S2P Require Import Tunnel.
From S2P Require Import Uapi.
From S2P Require Import DnsAdapter.
Local Open Scope list_scope.

(** ** Environment variables *)
Abbreviation EnvList := (gmap string string).
Definition NewEnvList : EnvList := ∅.
Definition Put (key value : string) (e : EnvList) : EnvList := <[key := value]> e.
Definition Get (key : string) (e : EnvList) : string := default "" (e !! key).

(** The order of the range over the map does not matter ([exportEnv_lookup]). *)
Definition exportEnv (envList : option EnvList) (env : Environ) : Environ :=
  match envList with
  | None => env
  | Some e => set_all e env
  end.

(** ** Sockets of the engine: protect_android.go *)
Abbreviation protect_fn := (option (Z -> bool)).
Definition setAndroidProtectSocketFn (fn : Z -> bool) (_ : protect_fn) : protect_fn := Some fn.
Definition AndroidProtectSocket (installed : protect_fn) (fd : Z) : bool := match installed with Some fn => fn fd | None => false end.

(** ** DNS resolvers *)
Section lists.
Context {N : NetipLib} {T : NetText} {L : NetHost}.
(** netip.Addr.Unmap *)
Context (Unmap : ip_addr -> ip_addr).

Definition DNSList : Type := list (ip_addr * Z).
Definition NewDNSList : DNSList := [].
(** [None]: no address. *)
Definition Add (s : string) (d : DNSList) : option DNSList :=
  match parse_addr_port s with
  | Some ap => Some (d ++ [ap])
  | None => addr ← parse_addr s; Some (d ++ [(Unmap addr, 53%Z)])
  end.
Definition DNSList_Get (i : Z) (d : DNSList) : option string :=
  if (i <? 0)%Z || (Z.of_nat (length d) <=? i)%Z then None else addr_text ∘ fst <$> d !! Z.to_nat i.
Definition Size (d : DNSList) : nat := length d.
Definition dnsListSnapshot (d : option DNSList) : list ip_addr := match d with None => [] | Some d => d.*1 end.

Definition comma : chars := s2l ",".
Definition joinDNSAddrs (addrs : list ip_addr) : string := l2s (join comma (s2l ∘ addr_text <$> addrs)).
Definition joinAllowedIPs (prefixes : list prefix) : string := l2s (join comma (s2l ∘ prefix_text <$> prefixes)).

(** The arguments of TunAdapter.ConfigureInterface. *)
Record InterfaceRequest := { ReqAddress : string; ReqMtu : Z; ReqDns : string; ReqSearchDomains : string; ReqRoutes : string }.
Definition interface_request (cfg : TConfig) (dns : option DNSList) : InterfaceRequest :=
  {| ReqAddress := prefix_text (LocalAddress cfg); ReqMtu := MTU cfg; ReqDns := joinDNSAddrs (dnsListSnapshot dns);
     ReqSearchDomains := ""; ReqRoutes := joinAllowedIPs (PeerAllowedIPs (TPeer cfg)) |}.
End lists.

(** ** The shell *)

(** String.toIntOrNull, on ASCII digits *)
Definition int_max : Z := (2 ^ 31 - 1)%Z.
Definition all_digits (l : chars) : bool := negb (bool_decide (l = [])) && forallb is_digit l.
Definition toIntOrNull (s : string) : option Z :=
  let '(neg, l) := match s2l s with
                   | c :: l => if Ascii.eqb c "-"%char then (true, l) else if Ascii.eqb c "+"%char then (false, l) else (false, c :: l)
                   | [] => (false, [])
                   end in
  let n := parse_uint (l2s l) in
  if negb (all_digits l) then None
  else if neg then (if (n <=? int_max + 1)%Z then Some (- n)%Z else None)
  else if (n <=? int_max)%Z then Some n else None.

Definition parseCidr (s : string) : option (string * Z) :=
  match split "/"%char (s2l s) with
  | [a; n] => prefix ← toIntOrNull (l2s n); Some (l2s a, prefix)
  | _ => None
  end.
(** Char.isWhitespace, of an ASCII character *)
Definition isWhitespace (c : ascii) : bool := let n := code c in ((9 <=? n) && (n <=? 13) || (28 <=? n) && (n <=? 32))%N.
Definition isNotBlank (s : string) : bool := existsb (fun c => negb (isWhitespace c)) (s2l s).
Definition pieces (s : string) : list string := filter (fun w => isNotBlank w = true) (l2s <$> split ";"%char (s2l s)).

(** VpnService.Builder. Each of its calls throws on what it does not accept:
    addAddress on a loopback or any-local address, addRoute on one with host bits,
    addDnsServer on what is no address. *)
Record Accepts := {
  accepts_address : string * Z -> bool;
  accepts_route : string * Z -> bool;
  accepts_dns : string -> bool;
  accepts_domain : string -> bool }.
Record Builder := {
  Mtu : Z;
  Addresses : list (string * Z);
  Routes : list (string * Z);
  DnsServers : list string;
  SearchDomains : list string }.
Definition toInt (n : Z) : Z := ((n + 2 ^ 31) mod 2 ^ 32 - 2 ^ 31)%Z.

(** The interface that is established, [None] when an exception leaves the function;
    [attached]: a service is attached, [established]: establish returns a
    descriptor. *)
Definition configureInterface (sys : Accepts) (attached established : bool) (r : InterfaceRequest) : option Builder :=
  if negb attached then None
  else
    let addresses := option_list (parseCidr (ReqAddress r)) in
    let routes := omap parseCidr (pieces (ReqRoutes r)) in
    if forallb (accepts_address sys) addresses && forallb (accepts_route sys) routes &&
       forallb (accepts_dns sys) (pieces (ReqDns r)) && forallb (accepts_domain sys) (pieces (ReqSearchDomains r)) && established
    then Some {| Mtu := toInt (ReqMtu r); Addresses := addresses; Routes := routes; DnsServers := pieces (ReqDns r);
                 SearchDomains := pieces (ReqSearchDomains r) |}
    else None.

(** ** Theorems *)
Lemma Get_Put key value k e : Get k (Put key value e) = if bool_decide (k = key) then value else Get k e.
Proof. unfold Get, Put. case_bool_decide; subst; [by rewrite lookup_insert_eq|by rewrite lookup_insert_ne]. Qed.

(** The environment after the variables were exported. *)
Lemma exportEnv_lookup e env k :
  exportEnv (Some e) env !! k =
  match e !! k with Some v => if settable k v then Some v else env !! k | None => env !! k end.
Proof. apply set_all_lookup. Qed.

(** *** Texts of addresses *)
Definition plain_text (s : string) : Prop :=
  s <> "" /\ forall c, c ∈ s2l s -> c <> "/"%char /\ c <> ";"%char /\ c <> ","%char /\ isWhitespace c = false.

(** net/netip: a valid prefix is written as an address, a slash and its bits; the
    text of its address, which has no zone, has no slash, separator or blank in
    it. *)
Class AddrTexts {N : NetipLib} {T : NetText} {L : NetHost} := {
  valid_prefix : prefix -> Prop;
  addr_of : prefix -> string;
  bits_of : prefix -> Z;
  prefix_text_cidr p : valid_prefix p -> prefix_text p = addr_of p +:+ "/" +:+ itoa (bits_of p);
  bits_range p : valid_prefix p -> (0 <= bits_of p <= 128)%Z;
  addr_of_plain p : valid_prefix p -> plain_text (addr_of p) }.

(** The number of slashes. *)
Definition slashes (l : chars) : nat := length (filter (fun c => c = "/"%char) l).
Lemma length_split l : length (split "/"%char l) = S (slashes l).
Proof.
  unfold slashes. induction l as [|c l IH]; [done|]. cbn [split]. destruct (Ascii.eqb_spec c "/"%char) as [->|Hc].
  - rewrite filter_cons_True by done. cbn. by rewrite IH.
  - rewrite filter_cons_False by done. destruct (split _ l); [done|]. done.
Qed.
Lemma slashes_app l k : slashes (l ++ k) = slashes l + slashes k.
Proof. unfold slashes. by rewrite filter_app, length_app. Qed.
Lemma no_slashes l : "/"%char ∉ l -> slashes l = 0.
Proof.
  unfold slashes. induction l as [|c l IH]; [done|]. intros [Hc Hl]%not_elem_of_cons. by rewrite filter_cons_False, IH by done.
Qed.
Lemma parseCidr_slashes s : slashes (s2l s) <> 1 -> parseCidr s = None.
Proof.
  intros H. unfold parseCidr. pose proof (length_split (s2l s)) as Hl.
  destruct (split _ _) as [|a [|n [|? ?]]]; try done. cbn in Hl. lia.
Qed.

Lemma toIntOrNull_itoa z : (0 <= z <= 128)%Z -> toIntOrNull (itoa z) = Some z.
Proof.
  intros Hz. assert (forallb (fun n => bool_decide (toIntOrNull (itoa (Z.of_nat n)) = Some (Z.of_nat n))) (seq 0 129) = true) as H
    by reflexivity.
  rewrite forallb_forall in H. specialize (H (Z.to_nat z)). rewrite Z2Nat.id in H by lia.
  apply bool_decide_eq_true in H; [done|]. apply in_seq. lia.
Qed.

(** A text without separators is one piece. *)
Lemma pieces_one s : ";"%char ∉ s2l s -> isNotBlank s = true -> pieces s = [s].
Proof.
  intros Hs Hb. unfold pieces. rewrite split_nosep by done. cbn [fmap list_fmap]. rewrite l2s_s2l.
  by rewrite filter_cons_True.
Qed.
Lemma pieces_empty : pieces "" = [].
Proof. done. Qed.
Lemma notblank_app s t : isNotBlank (l2s (s2l s ++ t)) = isNotBlank s || existsb (fun c => negb (isWhitespace c)) t.
Proof. unfold isNotBlank. by rewrite s2l_l2s, existsb_app. Qed.
Lemma plain_notblank s : plain_text s -> isNotBlank s = true.
Proof.
  intros [Hne Hs]. destruct (s2l s) as [|c l] eqn:E; [destruct Hne; by rewrite <-(l2s_s2l s), E|].
  unfold isNotBlank. rewrite E. cbn [existsb]. destruct (Hs c ltac:(by left)) as (_ & _ & _ & ->). done.
Qed.

Section interface.
Context {N : NetipLib} {T : NetText} {L : NetHost} {A : AddrTexts}.
Definition cidr (p : prefix) : string * Z := (addr_of p, bits_of p).

Lemma prefix_chars p : valid_prefix p -> s2l (prefix_text p) = s2l (addr_of p) ++ "/"%char :: s2l (itoa (bits_of p)).
Proof. intros Hv. by rewrite prefix_text_cidr, !s2l_app. Qed.
Lemma addr_of_no_slash p : valid_prefix p -> "/"%char ∉ s2l (addr_of p).
Proof. intros Hv H%(proj2 (addr_of_plain p Hv)). by destruct H. Qed.
Lemma prefix_slashes p : valid_prefix p -> slashes (s2l (prefix_text p)) = 1.
Proof.
  intros Hv. rewrite prefix_chars by done. change ("/"%char :: s2l (itoa (bits_of p))) with (["/"%char] ++ s2l (itoa (bits_of p))).
  rewrite !slashes_app, (no_slashes (s2l (addr_of p))), (no_slashes (s2l (itoa _))); [done| |by apply addr_of_no_slash].
  by apply itoa_clean.
Qed.
Lemma parseCidr_prefix p : valid_prefix p -> parseCidr (prefix_text p) = Some (cidr p).
Proof.
  intros Hv. unfold parseCidr. rewrite prefix_chars, split_app by (try apply addr_of_no_slash; done). rewrite split_nosep by by apply itoa_clean.
  rewrite !l2s_s2l. cbn [mbind option_bind]. by rewrite toIntOrNull_itoa by by apply bits_range.
Qed.

(** No semicolon, not blank. *)
Definition one_piece (s : string) : Prop := (";"%char ∉ s2l s) /\ isNotBlank s = true.
Lemma plain_one_piece s : plain_text s -> one_piece s.
Proof. intros Hs. split; [intros H%(proj2 Hs); by destruct H as (_ & H & _)|by apply plain_notblank]. Qed.
Lemma prefix_one_piece p : valid_prefix p -> one_piece (prefix_text p).
Proof.
  intros Hv. pose proof (addr_of_plain p Hv) as Hp. split.
  - rewrite prefix_chars, not_elem_of_app, not_elem_of_cons by done. split_and!; [|done|by apply itoa_clean].
    intros H%(proj2 Hp). by destruct H as (_ & H & _).
  - unfold isNotBlank. rewrite prefix_chars, existsb_app by done. apply orb_true_iff. left. by apply plain_notblank.
Qed.

Lemma join_one_piece (s : string) ss : Forall one_piece (s :: ss) -> one_piece (l2s (join comma (s2l <$> s :: ss))).
Proof.
  revert s. induction ss as [|t ss IH]; intros s Hall; apply Forall_cons in Hall as [Hs Hall].
  - cbn [fmap list_fmap join]. by rewrite l2s_s2l.
  - specialize (IH t Hall). change (join comma (s2l <$> s :: t :: ss)) with (s2l s ++ comma ++ join comma (s2l <$> t :: ss)).
    destruct Hs as [H1 H2], IH as [H3 _]. split.
    + rewrite s2l_l2s, !not_elem_of_app. rewrite s2l_l2s in H3. split_and!; [done| |done].
      intros H. apply list_elem_of_singleton in H. discriminate H.
    + by rewrite notblank_app, H2.
Qed.
Lemma join_pieces {B} (f : B -> string) (l : list B) :
  Forall (fun b => one_piece (f b)) l ->
  pieces (l2s (join comma (s2l ∘ f <$> l))) = match l with [] => [] | _ => [l2s (join comma (s2l ∘ f <$> l))] end.
Proof.
  intros Hf. destruct l as [|b l]; [done|].
  assert (one_piece (l2s (join comma (s2l ∘ f <$> b :: l)))) as [H1 H2]; [|by apply pieces_one].
  rewrite list_fmap_compose. cbn [fmap list_fmap]. apply join_one_piece. apply Forall_cons in Hf as [Hb Hf].
  apply Forall_cons. split; [done|]. by apply Forall_fmap.
Qed.

Lemma join_slashes p ps : Forall valid_prefix (p :: ps) -> slashes (join comma (s2l ∘ prefix_text <$> p :: ps)) = S (length ps).
Proof.
  revert p. induction ps as [|q ps IH]; intros p [Hp Hv]%Forall_cons; [by apply prefix_slashes|].
  change (join comma (s2l ∘ prefix_text <$> p :: q :: ps)) with (s2l (prefix_text p) ++ comma ++ join comma (s2l ∘ prefix_text <$> q :: ps)).
  by rewrite !slashes_app, prefix_slashes, IH.
Qed.

Lemma prefixes_one_piece ps : Forall valid_prefix ps -> Forall (fun p => one_piece (prefix_text p)) ps.
Proof. intros Hv. eapply Forall_impl; [exact Hv|apply prefix_one_piece]. Qed.

(** The routes that arrive. *)
Definition routes_set (ps : list prefix) : list (string * Z) := match ps with [p] => [cidr p] | _ => [] end.
Lemma routes_arriving ps : Forall valid_prefix ps -> omap parseCidr (pieces (joinAllowedIPs ps)) = routes_set ps.
Proof.
  intros Hv. unfold joinAllowedIPs. rewrite join_pieces by by apply prefixes_one_piece. destruct ps as [|p [|q ps]]; [done|..].
  - cbn [fmap list_fmap join compose]. rewrite l2s_s2l. cbn. apply Forall_cons in Hv as [Hp _]. by rewrite parseCidr_prefix.
  - cbn [omap list_omap]. rewrite parseCidr_slashes; [done|]. by rewrite s2l_l2s, join_slashes.
Qed.

(** With the separator the shell expects, all of them would. *)
Lemma routes_with_semicolons ps : Forall valid_prefix ps ->
  omap parseCidr (pieces (l2s (join (s2l ";") (s2l ∘ prefix_text <$> ps)))) = cidr <$> ps.
Proof.
  intros Hv. unfold pieces. rewrite s2l_l2s. destruct ps as [|p ps]; [done|]. rewrite split_join; [|done|].
  - rewrite <-list_fmap_compose. induction Hv as [|q qs Hq Hqs IH]; [done|]. cbn [fmap list_fmap].
    destruct (prefix_one_piece q Hq) as [_ Hb]. change ((l2s ∘ (s2l ∘ prefix_text)) q) with (l2s (s2l (prefix_text q))). rewrite l2s_s2l, filter_cons_True by done.
    cbn [omap list_omap]. by rewrite parseCidr_prefix, IH.
  - apply Forall_fmap. eapply Forall_impl; [exact Hv|]. intros q Hq. by apply prefix_one_piece.
Qed.

(** C15: What the Android shell makes of what the engine asks for. The engine
    separates with commas, the shell with semicolons. Let the tunnel's prefixes be
    valid and its resolvers without zones, and let the system take no text with a
    comma for a DNS server. Then, whatever else it accepts: with two resolvers or
    more the call throws and the run fails. Otherwise it succeeds exactly if the
    system accepts the tunnel's address, the route - one if the peer has exactly
    one allowed prefix, none at all if it has several - and the resolver if there
    is one, and establishes the interface; and the interface has those and nothing
    else. *)
Theorem android_interface_exact (sys : Accepts) (established : bool) (cfg : TConfig) (dns : option DNSList) :
  valid_prefix (LocalAddress cfg) -> Forall valid_prefix (PeerAllowedIPs (TPeer cfg)) ->
  Forall (fun a => plain_text (addr_text a)) (dnsListSnapshot dns) ->
  (forall s, accepts_dns sys s = true -> ","%char ∉ s2l s) ->
  configureInterface sys true established (interface_request cfg dns) =
  match dnsListSnapshot dns with
  | _ :: _ :: _ => None
  | servers =>
    if accepts_address sys (cidr (LocalAddress cfg)) && forallb (accepts_route sys) (routes_set (PeerAllowedIPs (TPeer cfg))) &&
       forallb (accepts_dns sys) (addr_text <$> servers) && established
    then Some {| Mtu := toInt (MTU cfg); Addresses := [cidr (LocalAddress cfg)];
                 Routes := routes_set (PeerAllowedIPs (TPeer cfg)); DnsServers := addr_text <$> servers; SearchDomains := [] |}
    else None
  end.
Proof.
  intros Hv Hvs Hz Hcomma. unfold configureInterface, interface_request. cbn [negb ReqAddress ReqRoutes ReqDns ReqSearchDomains ReqMtu].
  rewrite parseCidr_prefix, routes_arriving, pieces_empty by done.
  change (option_list (Some (cidr (LocalAddress cfg)))) with [cidr (LocalAddress cfg)]. unfold joinDNSAddrs. rewrite join_pieces by (eapply Forall_impl; [exact Hz|]; intros; by apply plain_one_piece).
  destruct (dnsListSnapshot dns) as [|a [|a' l]].
  - cbn [forallb fmap list_fmap]. by rewrite !andb_true_r.
  - cbn [fmap list_fmap join compose]. rewrite l2s_s2l. cbn [forallb]. by rewrite !andb_true_r.
  - cbn [forallb]. destruct (accepts_dns sys _) eqn:E; [|by rewrite !andb_false_l, !andb_false_r]. apply Hcomma in E. rewrite s2l_l2s in E. destruct E.
    change (join comma (s2l ∘ addr_text <$> a :: a' :: l)) with (s2l (addr_text a) ++ comma ++ join comma (s2l ∘ addr_text <$> a' :: l)).
    rewrite !elem_of_app. right. left. by left.
Qed.

(** A relay with an address on the mesh and a subnet behind it: no routes. *)
Lemma relay_subnet_without_routes (b : EnrollmentBundle) (e : KnownEndpoint) (cfg : TConfig) :
  FromBundle Mobile b = Ok cfg -> find_first (fun e => bool_decide (EpKind e = KindRelay)) (KnownEndpoints b) = Some e ->
  MeshAddr e <> "" -> EpAllowedIPs e <> [] -> routes_set (PeerAllowedIPs (TPeer cfg)) = [].
Proof.
  unfold FromBundle. intros (_ & _ & H)%bind_Ok He Hm Hs. destruct (negb _ || negb _); [done|]. case_bool_decide; [done|].
  apply bind_Ok in H as (addr & _ & H). rewrite He in H. unfold relay_config in H. rewrite bool_decide_eq_false_2 in H by done.
  apply bind_Ok in H as (host & Hh & H). apply bind_Ok in Hh as (ip & _ & [= <-]).
  apply bind_Ok in H as (extra & Hx & [= <-]). cbn. destruct (EpAllowedIPs e) as [|s l]; [done|].
  cbn in Hx. apply bind_Ok in Hx as (p & _ & Hx). by apply bind_Ok in Hx as (ps & _ & [= <-]).
Qed.

(** The port of a resolver goes no further than the list. *)
Lemma port_dropped Unmap (s : string) (d d' : DNSList) a p :
  parse_addr_port s = Some (a, p) -> Add Unmap s d = Some d' -> dnsListSnapshot (Some d') = dnsListSnapshot (Some d) ++ [a].
Proof. unfold Add. intros -> [= <-]. cbn. by rewrite fmap_app. Qed.
End interface.

(** ** Addresses that are numbers *)
Module ToyVpn.
#[export] Instance netip : NetipLib := {|
  ip_addr := Z; prefix := Z * Z;
  parse_addr s := if all_digits (s2l s) then Some (parse_uint s) else None;
  parse_prefix s := '(a, n) ← cut "/"%char (s2l s); Some (parse_uint (l2s a), parse_uint (l2s n));
  host_prefix a := (a, 32%Z) |}.
#[export] Instance net_text : NetText := {|
  parse_addr_port s := '(a, p) ← cut ":"%char (s2l s); Some (parse_uint (l2s a), parse_uint (l2s p));
  addr_text := itoa; url_hostname _ := None |}.
Definition bits (p : Z * Z) : Z := (p.2 mod 129)%Z.
#[export, refine] Instance hosts : NetHost := {|
  prefix_text p := itoa p.1 +:+ "/" +:+ itoa (bits p);
  lookup_ip h := None |}.
Proof.
  - intros p. rewrite !s2l_app, !not_elem_of_app. split_and!; [by apply itoa_clean|set_solver|by apply itoa_clean].
  - done.
Defined.
Lemma itoa_plain z : plain_text (itoa z).
Proof.
  split; [apply itoa_nonempty|]. intros c [Hc| ->]%itoa_chars; [|done].
  revert Hc. by destruct c as [[] [] [] [] [] [] [] []].
Qed.
#[export, refine] Instance texts : AddrTexts := {| valid_prefix _ := True; addr_of p := itoa p.1; bits_of := bits |}.
Proof.
  - done.
  - intros p _. pose proof (Z.mod_pos_bound p.2 129 ltac:(done)). unfold bits. lia.
  - intros p _. apply itoa_plain.
Defined.

Definition cfg (routes : list (Z * Z)) : TConfig :=
  {| InterfaceName := ""; PrivateKey := []; LocalAddress := (7, 32)%Z : prefix;
     TPeer := {| PeerPublicKey := []; PeerEndpoint := ""; PeerAllowedIPs := routes : list prefix; PersistentKeepalive := 0 |};
     MTU := 1280; ListenPort := 0; DNSServers := []; Tunnel.SearchDomains := []; MatchDomains := [] |}.
Definition numeric (s : string) : bool := negb (contains ","%char (s2l s)).
(** A builder that refuses the prefix of all addresses as the tunnel's own. *)
Definition sys : Accepts :=
  {| accepts_address a := negb (bool_decide (a.1 = "0")); accepts_route _ := true; accepts_dns := numeric; accepts_domain _ := true |}.
Abbreviation interface routes dns := (configureInterface sys true true (interface_request (cfg routes) dns)).

Lemma android_interface_exact_witness :
  (Routes <$> interface [(3, 32)]%Z None) = Some [("3", 32%Z)] /\
  (Routes <$> interface [(3, 32); (0, 24)]%Z None) = Some [] /\
  interface [(3, 32)]%Z (Some [(1, 53); (2, 53)]%Z) = None.
Proof.
  assert (forall routes dns, interface routes dns =
    match dnsListSnapshot dns with
    | _ :: _ :: _ => None
    | servers => if forallb numeric (addr_text <$> servers)
                 then Some {| Mtu := toInt 1280; Addresses := [cidr ((7, 32)%Z : prefix)];
                              Routes := routes_set routes; DnsServers := addr_text <$> servers; SearchDomains := [] |}
                 else None
    end) as H.
  { intros routes dns. rewrite (android_interface_exact sys true (cfg routes) dns).
    - destruct (dnsListSnapshot dns) as [|a [|]]; [..|reflexivity]; destruct routes as [|? [|]]; cbn; by rewrite ?andb_true_r.
    - exact I.
    - by apply Forall_forall.
    - apply Forall_forall. intros a _. apply itoa_plain.
    - intros s Hs%negb_true_iff. by apply contains_false. }
  rewrite !H. split; [|split]; reflexivity.
Defined.
End ToyVpn.
