(* ===== verification/DnsSystemd.v ===== *)
(** Host DNS on Linux: internal/tunnel/dns/adapter_linux.go, the adapter that
    drives systemd-resolved over D-Bus.

    [bus n] is how the n-th call ends; a call that is lost may have taken effect.
    [resolved] is what the service holds per link, changed by the calls as
    org.freedesktop.resolve1 documents ([effect]). *)
From stdpp Require Import base tactics list gmap strings.
From Stdlib Require Import ZArith Ascii Lia.
From S2P Require Import Prelude GoStr.
From S2P Require Import Tunnel.
From S2P Require Import DnsAdapter.
Local Open Scope list_scope.

(** netip.Addr's Is4, Is6 and As16. *)
Class NetBytes {N : NetipLib} := {
  is4 : ip_addr -> bool;
  is6 : ip_addr -> bool;
  as16 : ip_addr -> chars }.

Inductive reply := Done | Refused (unknownObject : bool) | Lost (took : bool).
Inductive bus_error := EUnknownObject | EBus.

(** What resolved holds for a link. *)
Record Link := {
  lServers : list (Z * chars * Z);
  lDomains : list (string * bool);
  lDNSSEC : string;
  lDNSOverTLS : string;
  lDefaultRoute : option bool }.
Definition unconfigured : Link :=
  {| lServers := []; lDomains := []; lDNSSEC := ""; lDNSOverTLS := ""; lDefaultRoute := None |}.

Inductive method :=
  | SetDNS (servers : list (Z * chars))
  | SetDNSEx (servers : list (Z * chars * Z))
  | SetDNSSEC (s : string)
  | SetDNSOverTLS (s : string)
  | SetDomains (l : list (string * bool))
  | SetDefaultRoute (b : bool)
  | Revert.

(** SetDNS leaves the port to the default, which resolve1 writes as 0. *)
Definition effect (m : method) (l : Link) : Link :=
  let mk s d sec tls r := {| lServers := s; lDomains := d; lDNSSEC := sec; lDNSOverTLS := tls; lDefaultRoute := r |} in
  match m with
  | SetDNS servers => mk ((fun a => (a, 0%Z)) <$> servers) (lDomains l) (lDNSSEC l) (lDNSOverTLS l) (lDefaultRoute l)
  | SetDNSEx servers => mk servers (lDomains l) (lDNSSEC l) (lDNSOverTLS l) (lDefaultRoute l)
  | SetDNSSEC s => mk (lServers l) (lDomains l) s (lDNSOverTLS l) (lDefaultRoute l)
  | SetDNSOverTLS s => mk (lServers l) (lDomains l) (lDNSSEC l) s (lDefaultRoute l)
  | SetDomains ds => mk (lServers l) ds (lDNSSEC l) (lDNSOverTLS l) (lDefaultRoute l)
  | SetDefaultRoute b => mk (lServers l) (lDomains l) (lDNSSEC l) (lDNSOverTLS l) (Some b)
  | Revert => unconfigured
  end.

(** net.InterfaceByName and the manager's GetLink: the path of an interface's
    link, which is no empty string. *)
Class Resolve1 := {
  interface_by_name : nat -> string -> option Z;
  get_link : nat -> Z -> option string;
  bus : nat -> reply;
  get_link_path n i p : get_link n i = Some p -> p <> "" }.

Create HintDb stays discriminated.

Section systemd.
Context {N : NetipLib} {B : NetBytes} {R : Resolve1}.

(** systemdAdapter (its ifaceIdx is never read), what resolved holds, and the
    calls made so far. *)
Record systemdAdapter := {
  linkPath : string;
  ifaceNm : string;
  applied : bool;
  resolved : gmap string Link;
  calls : nat }.

#[export] Instance set_applied : Setter applied := fun g s =>
  {| linkPath := linkPath s; ifaceNm := ifaceNm s; applied := g (applied s); resolved := resolved s; calls := calls s |}.
#[export] Instance set_linkPath : Setter linkPath := fun g s =>
  {| linkPath := g (linkPath s); ifaceNm := ifaceNm s; applied := applied s; resolved := resolved s; calls := calls s |}.
#[export] Instance set_ifaceNm : Setter ifaceNm := fun g s =>
  {| linkPath := linkPath s; ifaceNm := g (ifaceNm s); applied := applied s; resolved := resolved s; calls := calls s |}.
#[export] Instance set_resolved : Setter resolved := fun g s =>
  {| linkPath := linkPath s; ifaceNm := ifaceNm s; applied := applied s; resolved := g (resolved s); calls := calls s |}.
#[export] Instance set_calls : Setter calls := fun g s =>
  {| linkPath := linkPath s; ifaceNm := ifaceNm s; applied := applied s; resolved := resolved s; calls := g (calls s) |}.

Abbreviation sact := (action systemdAdapter).
Definition update {E} (f : systemdAdapter -> systemdAdapter) : sact E unit := run (modify f).

Definition held (s : systemdAdapter) (path : string) : Link := default unconfigured (resolved s !! path).
Definition take_effect (m : method) (s : systemdAdapter) : systemdAdapter :=
  s <| resolved := <[linkPath s := effect m (held s (linkPath s))]> (resolved s) |>.
Definition tick (s : systemdAdapter) : systemdAdapter := s <| calls := S (calls s) |>.

Definition callLink (m : method) : sact bus_error unit := fun s =>
  match bus (calls s) with
  | Done => (Ok tt, tick (take_effect m s))
  | Refused unknown => (Err (if unknown then EUnknownObject else EBus), tick s)
  | Lost took => (Err EBus, tick (if took then take_effect m s else s))
  end.

Definition flushCaches : sact bus_error unit := fun s =>
  (match bus (calls s) with Done => Ok tt | _ => Err EBus end, tick s).

Definition resolveLink (ifaceName : string) : sact bus_error unit := fun s =>
  if negb (bool_decide (linkPath s = "")) && bool_decide (ifaceNm s = ifaceName) then (Ok tt, s)
  else
    match (idx ← interface_by_name (calls s) ifaceName; get_link (calls s) idx) with
    | None => (Err EBus, tick s)
    | Some path => (Ok tt, tick (s <| linkPath := path |> <| ifaceNm := ifaceName |>))
    end.

(** unix.AF_INET and unix.AF_INET6 *)
Definition AF_INET : Z := 2.
Definition AF_INET6 : Z := 10.
Definition dbusAddr (ns : ip_addr) : Z * chars :=
  (if is6 ns then AF_INET6 else AF_INET, if is4 ns then drop 12 (as16 ns) else as16 ns).

Definition dns_call (c : DnsConfig) : method :=
  if custom_port c then SetDNSEx ((fun ns => (dbusAddr ns, Port c)) <$> Nameservers c)
  else SetDNS (dbusAddr <$> Nameservers c).

Definition domainArgs (c : DnsConfig) : list (string * bool) :=
  ((fun d => (d, false)) <$> DSearchDomains c) ++ ((fun d => (d, true)) <$> DMatchDomains c).

Definition set_domains (c : DnsConfig) : sact bus_error unit :=
  match domainArgs c with [] => mret tt | args => callLink (SetDomains args) end.

(** The calls on the link once it is resolved. *)
Definition configure_link (c : DnsConfig) : sact dns_error unit :=
  _ ← with_err (fun _ => EAdapter) (callLink (dns_call c));
  _ ← ignore (callLink (SetDNSSEC "no"));
  _ ← ignore (callLink (SetDNSOverTLS "no"));
  _ ← with_err (fun _ => EAdapter) (set_domains c);
  _ ← ignore (callLink (SetDefaultRoute false));
  _ ← update (fun s => s <| applied := true |>);
  ignore flushCaches.

Definition Apply (ifaceName : string) (c : DnsConfig) : sact dns_error unit :=
  if negb (has_servers c) then mret tt
  else _ ← with_err (fun _ => EAdapter) (resolveLink ifaceName); configure_link c.

Definition Restore : sact dns_error unit := fun s =>
  if negb (applied s) || bool_decide (linkPath s = "") then (Ok tt, s)
  else
    match callLink Revert s with
    | (Ok _, s) => ignore flushCaches (s <| applied := false |>)
    | (Err EUnknownObject, s) => (Ok tt, s <| applied := false |> <| linkPath := "" |>)
    | (Err EBus, s) => (Err EAdapter, s)
    end.

(** ** Theorems *)

(** The servers a link is given. *)
Definition servers_of (c : DnsConfig) : list (Z * chars * Z) :=
  (fun ns => (dbusAddr ns, if custom_port c then Port c else 0%Z)) <$> Nameservers c.

(** The link of [iface] holds [c], and the adapter knows. *)
Definition holds (s : systemdAdapter) (iface : string) (c : DnsConfig) : Prop :=
  applied s = true /\ linkPath s <> "" /\ ifaceNm s = iface /\
  lServers (held s (linkPath s)) = servers_of c /\
  (domainArgs c <> [] -> lDomains (held s (linkPath s)) = domainArgs c).

Definition same_link (s s' : systemdAdapter) : Prop :=
  linkPath s' = linkPath s /\ ifaceNm s' = ifaceNm s /\ applied s' = applied s.

Lemma held_take_effect m s : held (take_effect m s) (linkPath s) = effect m (held s (linkPath s)).
Proof. unfold held at 1, take_effect. cbn. by rewrite lookup_insert_eq. Qed.

Lemma callLink_spec m s :
  let '(r, s') := callLink m s in
  same_link s s' /\
  (held s' (linkPath s) = effect m (held s (linkPath s)) \/ is_ok r = false /\ resolved s' = resolved s).
Proof.
  unfold callLink. pose proof (held_take_effect m s) as He. unfold held in *.
  destruct (bus (calls s)) as [|u|[]]; (split; [done|]); cbn in *; auto.
Qed.

(** A call that changes neither servers nor domains, whatever becomes of it. *)
Definition keeps (s s' : systemdAdapter) : Prop :=
  same_link s s' /\ lServers (held s' (linkPath s)) = lServers (held s (linkPath s)) /\
  lDomains (held s' (linkPath s)) = lDomains (held s (linkPath s)).

Lemma keeps_trans s1 s2 s3 : keeps s1 s2 -> keeps s2 s3 -> keeps s1 s3.
Proof. unfold keeps, same_link. intros ((H1 & H2 & H3) & H4 & H5) ((? & ? & ?) & ? & ?). rewrite H1 in *. split_and!; congruence. Qed.

Definition setting (m : method) : bool := match m with SetDNSSEC _ | SetDNSOverTLS _ | SetDefaultRoute _ => true | _ => false end.

Lemma ignore_setting {E} m s : setting m = true -> exists s', ignore (F := E) (callLink m) s = (Ok tt, s') /\ keeps s s'.
Proof.
  intros Hm. pose proof (callLink_spec m s) as H. unfold ignore, mbind, action_bind, attempt, mret, action_ret.
  destruct (callLink m s) as [r s']. destruct H as [Hs H]. exists s'. split; [done|]. split; [done|].
  destruct H as [->|[_ Hr]]; [by destruct m|]. unfold held. by rewrite Hr.
Qed.

Lemma resolveLink_Ok iface s s' :
  resolveLink iface s = (Ok tt, s') -> linkPath s' <> "" /\ ifaceNm s' = iface.
Proof.
  unfold resolveLink. case_bool_decide as Hp; case_bool_decide as Hi; cbn [negb andb];
    try (intros [= <-]; by split); destruct (interface_by_name (calls s) iface) as [idx|]; cbn; try done;
    destruct (get_link (calls s) idx) as [path|] eqn:E; try done; intros [= <-]; cbn; split; try done;
    by eapply get_link_path.
Qed.

Lemma callLink_Ok m s s' :
  callLink m s = (Ok tt, s') -> same_link s s' /\ held s' (linkPath s) = effect m (held s (linkPath s)).
Proof. intros H. pose proof (callLink_spec m s) as Hc. rewrite H in Hc. destruct Hc as [? [?|[? _]]]; done. Qed.

Lemma set_domains_Ok c s s' :
  set_domains c s = (Ok tt, s') ->
  same_link s s' /\ lServers (held s' (linkPath s)) = lServers (held s (linkPath s)) /\
  lDomains (held s' (linkPath s)) = match domainArgs c with [] => lDomains (held s (linkPath s)) | args => args end.
Proof.
  unfold set_domains. destruct (domainArgs c) as [|x l]; [intros [= <-]; done|].
  intros (Hs & He)%callLink_Ok. by rewrite He.
Qed.

(** Apply that returned nil. *)
Lemma Apply_Ok iface c s s' :
  has_servers c = true -> Apply iface c s = (Ok tt, s') ->
  applied s' = true /\ linkPath s' <> "" /\ ifaceNm s' = iface /\
  lServers (held s' (linkPath s')) = servers_of c /\
  (domainArgs c <> [] -> lDomains (held s' (linkPath s')) = domainArgs c).
Proof.
  intros Hn. unfold Apply. rewrite Hn. cbn [negb]. rewrite action_bind_Ok.
  intros ([] & s1 & (Hp & Hi)%with_err_Ok%resolveLink_Ok & H). unfold configure_link in H. rewrite action_bind_Ok in H.
  destruct H as ([] & s2 & ((H2p & H2i & _) & H2e)%with_err_Ok%callLink_Ok & H).
  destruct (ignore_setting (E := dns_error) (SetDNSSEC "no") s2 eq_refl) as (s3 & E3 & K3).
  rewrite (action_bind_eq _ _ _ _ _ E3) in H.
  destruct (ignore_setting (E := dns_error) (SetDNSOverTLS "no") s3 eq_refl) as (s4 & E4 & K4).
  rewrite (action_bind_eq _ _ _ _ _ E4) in H. rewrite action_bind_Ok in H.
  destruct H as ([] & s5 & ((H5p & H5i & _) & H5s & H5d)%with_err_Ok%set_domains_Ok & H).
  destruct (ignore_setting (E := dns_error) (SetDefaultRoute false) s5 eq_refl) as (s6 & E6 & K6).
  rewrite (action_bind_eq _ _ _ _ _ E6) in H.
  unfold ignore, mbind, action_bind, update, run, modify, attempt, flushCaches, mret, action_ret in H.
  cbn in H. injection H as <-. cbn. change (held _ _) with (held s6 (linkPath s6)).
  destruct (keeps_trans _ _ _ K3 K4) as ((K1 & K2 & _) & Ks & Kd).
  destruct K6 as ((K6p & K6i & _) & K6s & K6d). rewrite K6p, K6s, K6d, H5p, H5s, H5d, K1, Ks, Kd, H2p, H2e.
  split_and!; [done|done|congruence| |].
  - unfold dns_call, servers_of. destruct (custom_port c); cbn; [done|]. by rewrite <-list_fmap_compose.
  - intros Hd. by destruct (domainArgs c).
Qed.

Lemma Restore_idle s : applied s = false -> Restore s = (Ok tt, s).
Proof. unfold Restore. by intros ->. Qed.

Lemma Restore_spec s :
  applied s = true -> linkPath s <> "" ->
  let '(r, s') := Restore s in
  match r with
  | Ok _ => applied s' = false /\ (held s' (linkPath s) = unconfigured \/ linkPath s' = "")
  | Err _ => applied s' = true /\ linkPath s' = linkPath s
  end.
Proof.
  intros Ha Hp. unfold Restore. rewrite Ha, bool_decide_eq_false_2 by done. cbn [negb orb].
  pose proof (callLink_spec Revert s) as H. destruct (callLink Revert s) as [[[]|[]] s1]; destruct H as ((H1 & H2 & H3) & He).
  - destruct He as [He|[? _]]; [|done]. split; [done|]. left. exact He.
  - split; [done|]. by right.
  - by rewrite H1, H3.
Qed.

(** The links of other interfaces. *)
Definition others (p : string) (s s' : systemdAdapter) : Prop := forall q, q <> p -> resolved s' !! q = resolved s !! q.

Lemma others_trans p s1 s2 s3 : others p s1 s2 -> others p s2 s3 -> others p s1 s3.
Proof. intros H1 H2 q Hq. by rewrite H2, H1. Qed.

Lemma others_callLink m s : others (linkPath s) s (callLink m s).2.
Proof.
  intros q Hq. unfold callLink. by destruct (bus (calls s)) as [|u|[]]; cbn; try rewrite lookup_insert_ne by done.
Qed.

Lemma others_resolveLink iface s p : others p s (resolveLink iface s).2.
Proof.
  intros q _. unfold resolveLink. destruct (negb _ && _); [done|].
  by destruct (idx ← interface_by_name _ _; get_link _ idx).
Qed.

(** [m] keeps the links other than the one it works on. *)
Definition stays {E A} (m : sact E A) : Prop :=
  forall s, linkPath (m s).2 = linkPath s /\ others (linkPath s) s (m s).2.

Lemma stays_callLink m : stays (callLink m).
Proof.
  intros s. split; [|apply others_callLink]. pose proof (callLink_spec m s) as H.
  destruct (callLink m s). by destruct H as ((? & _) & _).
Qed.
Lemma stays_bind {E A A'} (m : sact E A) (f : A -> sact E A') : stays m -> (forall a, stays (f a)) -> stays (m ≫= f).
Proof.
  intros Hm Hf s. unfold mbind, action_bind. specialize (Hm s). destruct (m s) as [[a|e] s1]; [|done].
  destruct Hm as [Hl Ho]. destruct (Hf a s1) as [Hl' Ho']. cbn in *. rewrite Hl in *. split; [done|].
  by eapply others_trans.
Qed.
Lemma stays_with_err {E F A} (f : E -> F) (m : sact E A) : stays m -> stays (with_err f m).
Proof. intros Hm s. specialize (Hm s). unfold with_err. by destruct (m s). Qed.
Lemma stays_ignore {E F A} (m : sact E A) : stays m -> stays (ignore (F := F) m).
Proof. intros Hm s. specialize (Hm s). unfold ignore, mbind, action_bind, attempt. by destruct (m s). Qed.
Lemma stays_flush : stays flushCaches.
Proof. done. Qed.
Lemma stays_update {E} f : (forall s, linkPath (f s) = linkPath s /\ resolved (f s) = resolved s) -> stays (E := E) (update f).
Proof. intros Hf s. destruct (Hf s) as [H1 H2]. split; [exact H1|]. intros q _. cbn. by rewrite H2. Qed.
Lemma stays_set_domains c : stays (set_domains c).
Proof. unfold set_domains. destruct (domainArgs c); [done|apply stays_callLink]. Qed.
#[local] Hint Resolve stays_callLink stays_bind stays_with_err stays_ignore stays_flush stays_set_domains stays_update : stays.

Lemma stays_configure c : stays (configure_link c).
Proof. unfold configure_link. eauto 20 with stays. Qed.

Lemma Apply_others iface c s : others (linkPath (Apply iface c s).2) s (Apply iface c s).2.
Proof.
  unfold Apply. destruct (has_servers c); cbn [negb]; [|done]. unfold mbind, action_bind, with_err.
  pose proof (others_resolveLink iface s) as Hr. destruct (resolveLink iface s) as [[[]|e] s1]; [|apply Hr].
  destruct (stays_configure c s1) as [Hl Ho]. cbn [map_err]. rewrite Hl. eapply others_trans; [apply Hr|exact Ho].
Qed.

Lemma Restore_others s : others (linkPath s) s (Restore s).2.
Proof.
  unfold Restore. destruct (_ || _); [done|]. pose proof (others_callLink Revert s) as H.
  destruct (callLink Revert s) as [[[]|[]] s1]; exact H.
Qed.


(** An error leaves [applied] as it was. *)
Definition err_keeps {E A} (m : sact E A) : Prop := forall s, is_ok (m s).1 = false -> applied (m s).2 = applied s.
Definition keeps_applied {E A} (m : sact E A) : Prop := forall s, applied (m s).2 = applied s.

Lemma err_keeps_bind {E A A'} (m : sact E A) (f : A -> sact E A') :
  keeps_applied m -> (forall a, err_keeps (f a)) -> err_keeps (m ≫= f).
Proof.
  intros Hm Hf s. unfold mbind, action_bind. specialize (Hm s). destruct (m s) as [[a|e] s1]; [|done].
  cbn in Hm. rewrite <-Hm. apply Hf.
Qed.
Lemma keeps_applied_call m : keeps_applied (callLink m).
Proof. intros s. pose proof (callLink_spec m s) as H. destruct (callLink m s). by destruct H as ((_ & _ & ?) & _). Qed.
Lemma keeps_applied_err {E F A} (f : E -> F) (m : sact E A) : keeps_applied m -> keeps_applied (with_err f m).
Proof. intros Hm s. specialize (Hm s). unfold with_err. by destruct (m s). Qed.
Lemma keeps_applied_ignore {E F A} (m : sact E A) : keeps_applied m -> keeps_applied (ignore (F := F) m).
Proof. intros Hm s. specialize (Hm s). unfold ignore, mbind, action_bind, attempt. by destruct (m s). Qed.
Lemma keeps_applied_domains c : keeps_applied (set_domains c).
Proof. unfold set_domains. destruct (domainArgs c); [done|apply keeps_applied_call]. Qed.
Lemma keeps_applied_resolve iface : keeps_applied (resolveLink iface).
Proof.
  intros s. unfold resolveLink. destruct (negb _ && _); [done|]. by destruct (idx ← interface_by_name _ _; get_link _ idx).
Qed.
#[local] Hint Resolve err_keeps_bind keeps_applied_call keeps_applied_err keeps_applied_ignore keeps_applied_domains
  keeps_applied_resolve : stays.

(** An Apply that failed on a link that had nothing applied is not undone:
    Restore returns nil and does nothing, whatever the calls before the failing
    one have set. *)
Lemma failed_Apply_idle iface c s :
  applied s = false -> is_ok (Apply iface c s).1 = false -> Restore (Apply iface c s).2 = (Ok tt, (Apply iface c s).2).
Proof.
  intros Ha Hok. apply Restore_idle. rewrite <-Ha. clear Ha. revert s Hok. change (err_keeps (Apply iface c)).
  unfold Apply. destruct (negb (has_servers c)); [done|]. unfold configure_link.
  assert (err_keeps (E := dns_error) (_ ← update (fun s => s <| applied := true |>); ignore flushCaches)) by done.
  eauto 20 with stays.
Qed.

(** The adapter keeps the daemon's contract. *)
#[export, refine] Instance systemd_dns : HostDNS := {|
  resolver := systemdAdapter;
  effective := has_servers;
  serves := holds;
  dns_apply := Apply;
  dns_restore := Restore |}.
Proof.
  - intros c ns p _ Hns. by destruct ns.
  - intros iface c h h'. apply Apply_Ok.
  - intros iface c h h' _ (Ha & Hp & _) Hr (Ha' & _). pose proof (Restore_spec h Ha Hp) as H. rewrite Hr in H.
    destruct H as [H _]. congruence.
Defined.
End systemd.

(** A bus that resolves every interface to one link and refuses the calls of
    the given numbers. *)
Module ToyBus.
#[export] Existing Instance ToyTunnel.netip.
#[export] Instance bytes : NetBytes := {| is4 _ := true; is6 _ := false; as16 a := replicate 12 "000"%char ++ s2l a |}.
Definition link_path : string := "/org/freedesktop/resolve1/link/_37".
#[refine] Definition refusing (l : list nat) : Resolve1 := {|
  interface_by_name _ _ := Some 7%Z;
  get_link _ _ := Some link_path;
  bus n := if bool_decide (n ∈ l) then Refused false else Done |}.
Proof. by intros n i p [= <-]. Defined.
Definition config : DnsConfig :=
  {| Nameservers := ["abcd" : ip_addr]; DSearchDomains := ["mesh.lab"]; DMatchDomains := ["lab"]; Port := 5353 |}.
Definition idle : systemdAdapter :=
  {| linkPath := ""; ifaceNm := ""; applied := false; resolved := ∅; calls := 0 |}.

(** The fourth call after the lookup, SetDomains, is refused: the nameservers
    stay on the link after Restore. *)
Lemma half_applied_stays :
  let s1 := (Apply (R := refusing [4]) "wg-cp0" config idle).2 in
  let r := Restore (R := refusing [4]) s1 in
  (Apply (R := refusing [4]) "wg-cp0" config idle).1 = Err EAdapter /\
  r.1 = Ok tt /\ lServers (held r.2 link_path) = [(2%Z, s2l "abcd", 5353%Z)].
Proof. repeat split; reflexivity. Qed.
End ToyBus.
