(* ===== verification/DnsScutil.v ===== *)
(** Host DNS on macOS: internal/tunnel/dns/adapter_darwin.go, the adapter that
    writes entries of the dynamic store with scutil(8).

    The scripts are built as the source builds them; what running one does to
    the store is the class [Scutil]. A key is represented by its kind and index,
    [key_text] is the string the source uses. Flushing the resolver's cache,
    whose failure is only logged, is left out. *)
From stdpp Require Import base tactics list gmap strings pretty.
From Stdlib Require Import ZArith Ascii Lia.
From S2P Require Import Prelude GoStr.
From S2P Require Import Tunnel.
From S2P Require Import DnsAdapter.
Local Open Scope list_scope.

Definition scutilMaxDomainsPerKey : nat := 50.
Definition scutilMaxBytesPerKey : nat := 1500.
Definition defaultDNSPort : Z := 53.

(** ** Batches *)

(** The loop variables: batches, current, currentBytes. *)
Record batching := { batches : list (list string); current : list string; currentBytes : nat }.

Definition batch_step (b : batching) (d : string) : batching :=
  let add := String.length d + (if 0 <? currentBytes b then 1 else 0) in
  let b := if negb (length (current b) =? 0) &&
              ((scutilMaxDomainsPerKey <=? length (current b)) || (scutilMaxBytesPerKey <? currentBytes b + add))
           then {| batches := batches b ++ [current b]; current := []; currentBytes := 0 |} else b in
  {| batches := batches b; current := current b ++ [d];
     currentBytes := if currentBytes b =? 0 then String.length d else currentBytes b + (1 + String.length d) |}.

Definition splitDomainsIntoBatches (domains : list string) : list (list string) :=
  match domains with
  | [] => []
  | _ =>
    let b := foldl batch_step {| batches := []; current := []; currentBytes := 0 |} domains in
    if 0 <? length (current b) then batches b ++ [current b] else batches b
  end.

(** ** Scripts *)

(** The suffix of a key: scutilSearchKind or scutilMatchKind. *)
Inductive kind := Search | Match.
#[export] Instance kind_eq_dec : EqDecision kind.
Proof. solve_decision. Defined.
#[export] Instance kind_countable : Countable kind.
Proof. apply (inj_countable' (fun k => match k with Search => true | Match => false end)
  (fun b => if b : bool then Search else Match)). by intros []. Defined.
Definition kind_text (k : kind) : string := match k with Search => "Search" | Match => "Match" end.

Abbreviation key := (kind * nat)%type.
Definition key_text (k : key) : string :=
  "State:/Network/Service/goat-client-" +:+ kind_text k.1 +:+ "-" +:+ itoa (Z.of_nat k.2) +:+ "/DNS".

(** strings.Contains *)
Fixpoint str_contains (s sub : chars) : bool :=
  bool_decide (is_Some (strip_prefix sub s)) || match s with [] => false | _ :: s' => str_contains s' sub end.

(** strings.Join(batch, " ") *)
Definition join_words (ws : list string) : string := l2s (join (s2l " ") (s2l <$> ws)).

Definition nl : ascii := "010".
Definition lines_text (ls : list string) : string := l2s (ls ≫= fun l => s2l l ++ [nl]).

Definition write_lines (k : key) (domains server port : string) (enableSearch : bool) : list string :=
  ["open"; "d.init"; "set " +:+ key_text k; "d.add SupplementalMatchDomains * " +:+ domains;
   "d.add SupplementalMatchDomainsNoSearch # " +:+ (if enableSearch then "0" else "1");
   "d.add ServerAddresses * " +:+ server; "d.add ServerPort # " +:+ port; "set " +:+ key_text k; "quit"].
Definition write_script (k : key) (domains server port : string) (enableSearch : bool) : string :=
  lines_text (write_lines k domains server port enableSearch).
Definition remove_script (k : key) : string := lines_text ["open"; "remove " +:+ key_text k; "quit"].

(** A word of scutil's command language. *)
Definition word (s : string) : bool := negb (bool_decide (s = "")) && forallb (fun c => 32 <? code c)%N (s2l s).

Record Entry := { eDomains : list string; eNoSearch : string; eServer : string; ePort : string }.

(** scutil as its manual describes it, for the keys and words of the adapter:
    a run that exits with 0 has done what the script says, one that does not
    may have, and no other key changes. [range st s] is the order in which the
    source iterates over the map [s]. *)
Class Scutil {N : NetipLib} {U : NetText} := {
  dynstore : Type;
  dynamic : dynstore -> key -> option Entry;
  scutil : string -> dynstore -> bool * dynstore;
  range : dynstore -> gset key -> list key;
  range_perm st s : range st s ≡ₚ elements s;
  addr_word (a : ip_addr) : word (addr_text a) = true;
  run_write k ds server port b st :
    ds <> [] -> length ds <= 99 -> forallb word (server :: port :: ds) = true ->
    let '(ok, st') := scutil (write_script k (join_words ds) server port b) st in
    (forall q, q <> k -> dynamic st' q = dynamic st q) /\
    (ok = true -> dynamic st' k =
       Some {| eDomains := ds; eNoSearch := if b then "0" else "1"; eServer := server; ePort := port |});
  run_remove k st :
    let '(ok, st') := scutil (remove_script k) st in
    (forall q, q <> k -> dynamic st' q = dynamic st q) /\
    (ok = true -> dynamic st' k = None) }.

Section adapter.
Context {N : NetipLib} {U : NetText} {S : Scutil}.

(** scutilAdapter and the dynamic store. *)
Record scutilAdapter := { createdKeys : gset key; store : dynstore }.
Abbreviation sact := (action scutilAdapter).

Definition runScutil (script : string) : sact dns_error unit := fun s =>
  let '(ok, st) := scutil script (store s) in
  (if ok then Ok tt else Err EAdapter, {| createdKeys := createdKeys s; store := st |}).

Definition writeDNSState (k : key) (domains server : string) (port : Z) (enableSearch : bool) : sact dns_error unit :=
  runScutil (write_script k domains server (itoa port) enableSearch).
Definition removeKey (k : key) : sact dns_error unit := runScutil (remove_script k).

Definition created (f : gset key -> gset key) : sact dns_error unit :=
  run (modify (fun s => {| createdKeys := f (createdKeys s); store := store s |})).

(** firstErr, the loops' accumulator. *)
Definition first_err (a b : option dns_error) : option dns_error := match a with Some e => Some e | None => b end.
Definition err_of {A} (r : result dns_error A) : option dns_error := match r with Ok _ => None | Err e => Some e end.

Fixpoint remove_loop (substr : string) (ks : list key) : sact dns_error unit :=
  match ks with
  | [] => mret tt
  | k :: ks =>
    if negb (str_contains (s2l (key_text k)) (s2l substr)) then remove_loop substr ks
    else
      r ← attempt (removeKey k);
      match r with
      | Ok _ => _ ← created (fun s => s ∖ {[k]}); remove_loop substr ks
      | Err e => _ ← attempt (E := dns_error) (remove_loop substr ks); fail e
      end
  end.
Definition removeKeysContaining (substr : string) : sact dns_error unit := fun s =>
  remove_loop substr (range (store s) (createdKeys s)) s.

Fixpoint add_loop (suffix : kind) (i : nat) (bs : list (list string)) (server : string) (port : Z)
    (enableSearch : bool) : sact dns_error unit :=
  match bs with
  | [] => mret tt
  | batch :: bs =>
    _ ← writeDNSState (suffix, i) (join_words batch) server port enableSearch;
    _ ← created (fun s => {[(suffix, i)]} ∪ s);
    add_loop suffix (i + 1) bs server port enableSearch
  end.
Definition addBatchedDomains (suffix : kind) (domains : list string) (server : string) (port : Z)
    (enableSearch : bool) : sact dns_error unit :=
  add_loop suffix 0 (splitDomainsIntoBatches domains) server port enableSearch.

(** [if len(domains) > 0 { addBatchedDomains(...) }] *)
Definition add_domains (suffix : kind) (domains : list string) (server : string) (port : Z) (enableSearch : bool)
    : sact dns_error unit :=
  match domains with [] => mret tt | _ => addBatchedDomains suffix domains server port enableSearch end.

Definition Apply (ifaceName : string) (c : DnsConfig) : sact dns_error unit :=
  match Nameservers c with
  | [] => mret tt
  | ns :: _ =>
    let primary := addr_text ns in
    let port := if (Port c =? 0)%Z then defaultDNSPort else Port c in
    _ ← ignore (removeKeysContaining (kind_text Search));
    _ ← ignore (removeKeysContaining (kind_text Match));
    _ ← add_domains Search (DSearchDomains c) primary port true;
    add_domains Match (DMatchDomains c) primary port false
  end.

Fixpoint restore_loop (ks : list key) : sact dns_error (option dns_error) :=
  match ks with
  | [] => mret None
  | k :: ks => r ← attempt (removeKey k); e ← restore_loop ks; mret (first_err (err_of r) e)
  end.
Definition Restore : sact dns_error unit := fun s =>
  if size (createdKeys s) =? 0 then (Ok tt, s)
  else (e ← restore_loop (range (store s) (createdKeys s));
        _ ← created (fun _ => ∅);
        match e with Some e => fail e | None => mret tt end) s.
End adapter.

(** ** Theorems *)

(** *** Batches *)
Definition bytes (b : list string) : nat := String.length (join_words b).
Definition fits (b : list string) : Prop :=
  b <> [] /\ length b <= scutilMaxDomainsPerKey /\ (bytes b <= scutilMaxBytesPerKey \/ length b = 1).
(** [b] has no room for the first domain of what follows. *)
Definition full_for (b : list string) (next : list string) : Prop :=
  exists d, head next = Some d /\
    (length b = scutilMaxDomainsPerKey \/ scutilMaxBytesPerKey < bytes b + 1 + String.length d).
Fixpoint packed (bs : list (list string)) : Prop :=
  match bs with
  | [] => True
  | b :: bs' => fits b /\ match bs' with [] => True | b' :: _ => full_for b b' end /\ packed bs'
  end.

Lemma length_s2l s : length (s2l s) = String.length s.
Proof. induction s as [|c s IH]; cbn; [done|by rewrite IH]. Qed.

Lemma length_l2s l : String.length (l2s l) = length l.
Proof. by rewrite <-length_s2l, s2l_l2s. Qed.

Lemma bytes_one d : bytes [d] = String.length d.
Proof. unfold bytes, join_words. cbn. by rewrite length_l2s, length_s2l. Qed.

Lemma bytes_snoc b d : b <> [] -> bytes (b ++ [d]) = bytes b + (1 + String.length d).
Proof.
  unfold bytes, join_words. rewrite !length_l2s. induction b as [|x b IH]; [done|]. intros _.
  destruct b as [|y b]; [cbn; rewrite length_app; cbn; by rewrite !length_s2l|].
  specialize (IH ltac:(done)). cbn in *. rewrite !length_app in *. cbn in *. rewrite IH. lia.
Qed.

Lemma packed_snoc bs b next :
  packed (bs ++ [b]) -> full_for b next -> fits next -> packed (bs ++ [b] ++ [next]).
Proof.
  induction bs as [|x bs IH]; cbn; [naive_solver|]. intros (Hx & Hn & Hp) Hf Hnext.
  split_and!; [done| |by apply IH]. destruct bs; [|done]. done.
Qed.

Lemma packed_last bs b b' :
  packed (bs ++ [b]) -> head b' = head b -> fits b' -> packed (bs ++ [b']).
Proof.
  induction bs as [|x bs IH]; cbn; [naive_solver|]. intros (Hx & Hn & Hp) Hh Hf. split_and!; [done| |by apply IH].
  destruct bs as [|y bs]; [|done]. cbn in *. destruct Hn as (d & Hd & H). exists d. by rewrite Hh.
Qed.

(** What holds once the domains [ds] have been read. *)
Record batched (ds : list string) (b : batching) : Prop := {
  b_all : concat (batches b) ++ current b = ds;
  b_current : current b <> [];
  b_bytes : currentBytes b = bytes (current b);
  b_packed : packed (batches b ++ [current b]) }.

Lemma str_pos (d : string) : d <> "" -> 0 < String.length d.
Proof. destruct d; cbn; [done|lia]. Qed.

Lemma bytes_pos b : b <> [] -> Forall (fun d => d <> "") b -> 0 < bytes b.
Proof.
  intros Hb Hf. destruct b as [|d b] using rev_ind; [done|]. clear IHb. apply Forall_app in Hf as [_ Hd]. apply Forall_cons in Hd as [Hd _].
  apply str_pos in Hd.
  destruct b; [by rewrite app_nil_l, bytes_one|]. rewrite bytes_snoc by done. lia.
Qed.

Lemma batch_step_ok ds b d :
  Forall (fun d => d <> "") (ds ++ [d]) -> batched ds b -> batched (ds ++ [d]) (batch_step b d).
Proof.
  intros [Hds Hd]%Forall_app [Ha Hc Hb Hp]. apply Forall_cons in Hd as [Hd _].
  pose proof (str_pos d Hd) as Hlen.
  assert (Forall (fun d => d <> "") (current b)) as Hcur by (rewrite <-Ha in Hds; by apply Forall_app in Hds as [_ ?]).
  pose proof (bytes_pos _ Hc Hcur) as Hpos. rewrite <-Hb in Hpos.
  assert (fits (current b)) as Hfit by (clear -Hp; induction (batches b); cbn in *; naive_solver).
  assert (1 <= length (current b)) as Hl1 by (destruct (current b); cbn; [done|lia]).
  unfold batch_step. rewrite (proj2 (Nat.ltb_lt 0 (currentBytes b)) Hpos).
  rewrite (proj2 (Nat.eqb_neq (length (current b)) 0)) by lia. cbn [negb andb].
  destruct (Nat.leb_spec scutilMaxDomainsPerKey (length (current b))) as [Hfull|Hroom];
    [|destruct (Nat.ltb_spec scutilMaxBytesPerKey (currentBytes b + (String.length d + 1))) as [Hbig|Hsmall]]; cbn [orb].
  1,2: assert (full_for (current b) [d]) as Hf by (exists d; split; [done|]; destruct Hfit as (_ & ? & _); rewrite <-?Hb; lia);
       assert (fits [d]) as Hfd by (split_and!; [done|cbn; unfold scutilMaxDomainsPerKey; lia|by right]);
       constructor; cbn [batches current currentBytes]; [rewrite concat_app; cbn; by rewrite app_nil_r, <-Ha|done
       |by change ([] ++ [d]) with [d]; rewrite bytes_one|rewrite <-app_assoc; by apply packed_snoc].
  assert (currentBytes b + (1 + String.length d) = bytes (current b ++ [d])) as Hb' by (rewrite bytes_snoc by done; lia).
  constructor; cbn [batches current currentBytes].
  - by rewrite app_assoc, Ha.
  - by destruct (current b).
  - rewrite (proj2 (Nat.eqb_neq (currentBytes b) 0)) by lia. done.
  - eapply packed_last; [exact Hp|by destruct (current b)|]. split_and!; [by destruct (current b)| |left; lia].
    rewrite length_app. cbn. lia.
Qed.

Lemma batched_start d : d <> "" -> batched [d] (batch_step {| batches := []; current := []; currentBytes := 0 |} d).
Proof.
  intros Hd. change (batch_step _ d) with {| batches := []; current := [d]; currentBytes := String.length d |}.
  constructor; cbn [batches current currentBytes]; [done|done|by rewrite bytes_one|].
  split_and!; [|done..]. split_and!; [done|cbn; unfold scutilMaxDomainsPerKey; lia|by right].
Qed.

Lemma batched_foldl ds ds' b :
  Forall (fun d => d <> "") (ds ++ ds') -> batched ds b -> batched (ds ++ ds') (foldl batch_step b ds').
Proof.
  revert ds b. induction ds' as [|d ds' IH]; intros ds b Hf Hb; [by rewrite app_nil_r|].
  rewrite cons_middle, app_assoc in Hf |- *. cbn. apply IH; [done|]. apply batch_step_ok; [|done].
  by apply Forall_app in Hf as [? _].
Qed.

Lemma split_batches domains :
  Forall (fun d => d <> "") domains ->
  concat (splitDomainsIntoBatches domains) = domains /\ packed (splitDomainsIntoBatches domains).
Proof.
  intros Hf. destruct domains as [|d ds]; [done|]. unfold splitDomainsIntoBatches. cbn [foldl].
  destruct (batched_foldl [d] ds _ Hf (batched_start d ltac:(by apply Forall_cons in Hf as [? _]))) as [Ha Hc Hb Hp].
  destruct (current _) as [|x l] eqn:E; [done|]. cbn [length Nat.ltb Nat.leb]. split; [|done].
  rewrite concat_app. cbn. by rewrite app_nil_r.
Qed.

Lemma bytes_app b b' : b <> [] -> bytes b <= bytes (b ++ b').
Proof.
  intros Hb. induction b' as [|d b' IH] using rev_ind; [by rewrite app_nil_r|].
  rewrite app_assoc, bytes_snoc by by destruct b. lia.
Qed.

Lemma packed_fits b bs : packed (b :: bs) -> fits b.
Proof. by intros (? & _). Qed.

(** The first batch of one packing is no proper prefix of the first of another. *)
Lemma packed_first b1 bs1 l bs2 :
  packed (b1 :: bs1) -> packed ((b1 ++ l) :: bs2) -> concat bs1 = l ++ concat bs2 -> l = [].
Proof.
  intros (Hf1 & Hn & Hp) (Hf2 & _) Hc. destruct l as [|d l]; [done|exfalso].
  destruct bs1 as [|b' bs1]; [done|]. destruct Hn as (d' & Hd & Hfull). destruct (packed_fits _ _ Hp) as (Hne & _).
  destruct b' as [|x b']; [done|]. cbn in Hd, Hc. injection Hd as ->. injection Hc as -> Hc.
  destruct Hf1 as (Hb1 & _ & _). destruct Hf2 as (_ & Hlen & Hbytes).
  rewrite length_app in Hlen. cbn in Hlen. rewrite length_app in Hbytes. cbn in Hbytes.
  pose proof (bytes_app (b1 ++ [d]) l ltac:(by destruct b1)) as Hm. rewrite <-app_assoc in Hm. cbn [app] in Hm.
  rewrite bytes_snoc in Hm by done. assert (1 <= length b1) by (destruct b1; cbn; [done|lia]). lia.
Qed.

Lemma packed_unique (bs1 bs2 : list (list string)) : packed bs1 -> packed bs2 -> concat bs1 = concat bs2 -> bs1 = bs2.
Proof.
  revert bs2. induction bs1 as [|b1 bs1 IH]; intros [|b2 bs2] H1 H2 Hc; try done.
  - destruct (packed_fits _ _ H2) as (? & _). by destruct b2.
  - destruct (packed_fits _ _ H1) as (? & _). by destruct b1.
  - cbn in Hc. apply app_eq_inv in Hc as [(l & -> & Hc)|(l & -> & Hc)].
    + pose proof (packed_first _ _ _ _ H2 H1 Hc) as ->. rewrite app_nil_r in *. f_equal.
      apply IH; [by destruct H1 as (_ & _ & ?)|by destruct H2 as (_ & _ & ?)|done].
    + pose proof (packed_first _ _ _ _ H1 H2 Hc) as ->. rewrite app_nil_r in *. f_equal.
      apply IH; [by destruct H1 as (_ & _ & ?)|by destruct H2 as (_ & _ & ?)|done].
Qed.

(** The batches are the greedy packing, and the only one. For a list of
    nonempty domains, [splitDomainsIntoBatches] gives the unique way to cut the
    list into consecutive nonempty batches of at most 50 domains and, unless a
    batch is a single domain, at most 1500 bytes once joined by blanks, such
    that no batch had room for the domain that follows it. *)
Theorem batches_greedy (domains : list string) (bs : list (list string)) :
  Forall (fun d => d <> "") domains ->
  splitDomainsIntoBatches domains = bs <-> concat bs = domains /\ packed bs.
Proof.
  intros Hf. destruct (split_batches domains Hf) as [Hc Hp]. split; [by intros <-|].
  intros [Hc' Hp']. apply packed_unique; [done..|]. by rewrite Hc, Hc'.
Qed.

Lemma batches_words domains b :
  forallb word domains = true -> b ∈ splitDomainsIntoBatches domains ->
  b <> [] /\ length b <= scutilMaxDomainsPerKey /\ forallb word b = true.
Proof.
  rewrite forallb_Forall. intros Hw Hb.
  assert (Forall (fun d => d <> "") domains) as Hne.
  { eapply Forall_impl; [exact Hw|]. intros d Hd ->. done. }
  destruct (split_batches domains Hne) as [Hc Hp].
  assert (fits b) as (H1 & H2 & _).
  { clear -Hb Hp. induction (splitDomainsIntoBatches domains) as [|x bs IH]; [by apply elem_of_nil in Hb|].
    destruct Hp as (Hx & _ & Hp). apply elem_of_cons in Hb as [->|Hb]; auto. }
  split_and!; [done..|]. rewrite <-Hc, Forall_concat in Hw. rewrite Forall_forall in Hw.
  by apply forallb_Forall, Hw.
Qed.

Section theorems.
Context {N : NetipLib} {U : NetText} {S : Scutil}.

(** What scutil is told about the domains of one kind. *)
Definition registers (h : scutilAdapter) (suffix : kind) (domains : list string) (server port : string) (b : bool) : Prop :=
  forall i batch, splitDomainsIntoBatches domains !! i = Some batch ->
    (suffix, i) ∈ createdKeys h /\
    dynamic (store h) (suffix, i) =
      Some {| eDomains := batch; eNoSearch := if b then "0" else "1"; eServer := server; ePort := port |}.

Definition server_of (c : DnsConfig) : string := match Nameservers c with [] => "" | ns :: _ => addr_text ns end.
Definition port_of (c : DnsConfig) : string := itoa (if (Port c =? 0)%Z then defaultDNSPort else Port c).

Definition holds (h : scutilAdapter) (iface : string) (c : DnsConfig) : Prop :=
  registers h Search (DSearchDomains c) (server_of c) (port_of c) true /\
  registers h Match (DMatchDomains c) (server_of c) (port_of c) false.

Definition sensible (c : DnsConfig) : bool :=
  has_servers c && negb (bool_decide (all_domains c = [])) && forallb word (all_domains c).

(** The adapter knows every key of its own there is. *)
Definition owned (s : scutilAdapter) : Prop := forall k, is_Some (dynamic (store s) k) -> k ∈ createdKeys s.

Lemma itoa_word z : word (itoa z) = true.
Proof.
  unfold word. rewrite bool_decide_eq_false_2 by apply itoa_nonempty. cbn [negb andb].
  apply forallb_Forall, Forall_forall. intros c [Hc| ->]%itoa_chars; [|done].
  apply is_digit_range in Hc. apply N.ltb_lt. lia.
Qed.

Lemma removeKey_spec k s :
  let '(r, s') := removeKey k s in
  createdKeys s' = createdKeys s /\ (forall q, q <> k -> dynamic (store s') q = dynamic (store s) q) /\
  (is_ok r = true -> dynamic (store s') k = None).
Proof.
  unfold removeKey, runScutil. pose proof (run_remove k (store s)) as H.
  destruct (scutil (remove_script k) (store s)) as [[] st]; cbn; naive_solver.
Qed.

Lemma write_entry_spec k ds server port b s :
  ds <> [] -> length ds <= scutilMaxDomainsPerKey -> forallb word (server :: ds) = true ->
  let '(r, s') := writeDNSState k (join_words ds) server port b s in
  createdKeys s' = createdKeys s /\ (forall q, q <> k -> dynamic (store s') q = dynamic (store s) q) /\
  (is_ok r = true -> dynamic (store s') k =
     Some {| eDomains := ds; eNoSearch := if b then "0" else "1"; eServer := server; ePort := itoa port |}).
Proof.
  intros Hne Hl Hw. unfold writeDNSState, runScutil.
  pose proof (run_write k ds server (itoa port) b (store s) Hne) as H.
  destruct (scutil (write_script _ _ _ _ _) (store s)) as [ok st].
  assert (length ds <= 99) as Hl' by (unfold scutilMaxDomainsPerKey in Hl; lia).
  specialize (H Hl'). cbn [forallb] in *. rewrite itoa_word in H. specialize (H Hw). by destruct ok.
Qed.

(** Loops over the keys that exist. *)
Lemma remove_loop_owned substr ks s :
  NoDup ks -> (forall k, k ∈ ks -> k ∈ createdKeys s) -> owned s -> owned (remove_loop substr ks s).2.
Proof.
  revert s. induction ks as [|k ks IH]; intros s Hnd Hin Ho; [done|]. apply NoDup_cons in Hnd as [Hk Hnd].
  cbn [remove_loop]. destruct (negb _); [apply IH; [done| |done]; set_solver|].
  unfold attempt, mbind, action_bind. pose proof (removeKey_spec k s) as H.
  destruct (removeKey k s) as [r s1]. destruct H as (Hc & Hq & Hr). destruct r as [[]|e].
  - unfold created, run, modify. cbn. apply IH; [done|cbn; rewrite Hc; set_solver|]. intros q Hs. cbn in *.
    destruct (decide (q = k)) as [->|Hne]; [rewrite Hr in Hs by done; by destruct Hs|].
    rewrite Hq in Hs by done. rewrite Hc. apply Ho in Hs. set_solver.
  - assert (owned s1) as Ho1.
    { intros q Hs. rewrite Hc. destruct (decide (q = k)) as [->|Hne]; [set_solver|]. rewrite Hq in Hs by done. by apply Ho. }
    specialize (IH s1 Hnd ltac:(rewrite Hc; set_solver) Ho1). by destruct (remove_loop substr ks s1).
Qed.

Lemma removeKeys_owned substr s : owned s -> owned (removeKeysContaining substr s).2.
Proof.
  unfold removeKeysContaining. apply remove_loop_owned.
  - rewrite range_perm. apply NoDup_elements.
  - intros k. rewrite range_perm. by rewrite elem_of_elements.
Qed.

Lemma add_loop_frame suffix i bs server port b s :
  (forall batch, batch ∈ bs -> batch <> [] /\ length batch <= scutilMaxDomainsPerKey /\ forallb word batch = true) ->
  word server = true ->
  let '(r, s') := add_loop suffix i bs server port b s in
  createdKeys s ⊆ createdKeys s' /\
  (forall q, (forall j, j < length bs -> q <> (suffix, i + j)) -> dynamic (store s') q = dynamic (store s) q) /\
  (is_ok r = true -> (owned s -> owned s') /\ forall j batch, bs !! j = Some batch ->
     (suffix, i + j) ∈ createdKeys s' /\ dynamic (store s') (suffix, i + j) =
       Some {| eDomains := batch; eNoSearch := if b then "0" else "1"; eServer := server; ePort := itoa port |}).
Proof.
  intros Hbs Hsrv. revert i s. induction bs as [|batch bs IH]; intros i s; [done|].
  destruct (Hbs batch) as (Hne & Hl & Hw); [apply list_elem_of_here|].
  specialize (IH ltac:(intros; apply Hbs; by apply list_elem_of_further)). cbn [add_loop].
  unfold mbind, action_bind. pose proof (write_entry_spec (suffix, i) batch server port b s Hne Hl) as H.
  cbn [forallb] in H. rewrite Hsrv in H. specialize (H Hw).
  destruct (writeDNSState _ _ _ _ _ s) as [[[]|e] s1]; destruct H as (Hc & Hq & Hr); cbn.
  2:{ split_and!; [by rewrite Hc| |done]. intros q Hj. apply Hq. rewrite <-(Nat.add_0_r i). apply Hj. cbn. lia. }
  specialize (IH (i + 1) {| createdKeys := {[(suffix, i)]} ∪ createdKeys s1; store := store s1 |}).
  destruct (add_loop suffix (i + 1) bs server port b _) as [r s2]. destruct IH as (IHc & IHq & IHr). cbn in *.
  split_and!.
  - rewrite <-Hc. set_solver.
  - intros q Hj. rewrite IHq; [apply Hq; rewrite <-(Nat.add_0_r i); apply Hj; lia|].
    intros j Hj'. rewrite <-Nat.add_assoc. apply Hj. lia.
  - intros Hok. destruct (IHr Hok) as [IHo IHe]. split.
    + intros Ho. apply IHo. intros q Hs. cbn in *. destruct (decide (q = (suffix, i))) as [->|Hne']; [set_solver|].
      rewrite Hq in Hs by done. apply Ho in Hs. rewrite Hc. set_solver.
    + intros [|j] batch'; cbn; [intros [= <-]|].
      * rewrite Nat.add_0_r. split; [set_solver|]. rewrite IHq; [by apply Hr|]. intros j _ [=]. lia.
      * intros Hb. rewrite <-Nat.add_succ_comm, <-(Nat.add_1_r i). by apply IHe.
Qed.

Lemma scutil_Apply_Ok iface c s s' :
  sensible c = true -> Apply iface c s = (Ok tt, s') -> holds s' iface c /\ (owned s -> owned s').
Proof.
  unfold sensible, all_domains. rewrite !andb_true_iff, forallb_app, andb_true_iff.
  intros [[Hn _] [Hws Hwm]]. unfold Apply, has_servers, holds, server_of, port_of in *.
  destruct (Nameservers c) as [|ns l]; [done|]. set (server := addr_text ns). set (port := if (Port c =? 0)%Z then _ else _).
  assert (forall sub s0, exists s1, ignore (F := dns_error) (removeKeysContaining sub) s0 = (Ok tt, s1) /\ (owned s0 -> owned s1)) as Hrm.
  { intros sub s0. exists (removeKeysContaining sub s0).2. split; [|apply removeKeys_owned].
    unfold ignore, mbind, action_bind, attempt. by destruct (removeKeysContaining sub s0). }
  destruct (Hrm (kind_text Search) s) as (s1 & E1 & O1). rewrite (action_bind_eq _ _ _ _ _ E1).
  destruct (Hrm (kind_text Match) s1) as (s2 & E2 & O2). rewrite (action_bind_eq _ _ _ _ _ E2).
  assert (forall suffix ds b s0 s1, forallb word ds = true ->
    add_domains suffix ds server port b s0 = (Ok tt, s1) ->
    registers s1 suffix ds server (itoa port) b /\ (owned s0 -> owned s1) /\ createdKeys s0 ⊆ createdKeys s1 /\
    forall q, q.1 <> suffix -> dynamic (store s1) q = dynamic (store s0) q) as Hadd.
  { intros suffix ds b s0 s3 Hw E. destruct ds as [|d ds].
    { injection E as <-. split_and!; try done. }
    pose proof (add_loop_frame suffix 0 (splitDomainsIntoBatches (d :: ds)) server port b s0) as H.
    cbn [add_domains] in E. unfold addBatchedDomains in E. rewrite E in H.
    destruct H as (Hc & Hq & Hr); [by intros; apply (batches_words (d :: ds))|apply addr_word|].
    destruct (Hr eq_refl) as [Ho He]. split_and!; [|done|done|].
    - intros i batch Hi. apply (He i). done.
    - intros q Hne. apply Hq. intros j _ ->. by destruct Hne. }
  rewrite action_bind_Ok. intros ([] & s3 & E3 & E4).
  destruct (Hadd _ _ _ _ _ Hws E3) as (R3 & O3 & _ & _).
  destruct (Hadd _ _ _ _ _ Hwm E4) as (R4 & O4 & C4 & Q4). split; [|auto].
  split; [|done]. intros i batch Hi. destruct (R3 i batch Hi) as [H1 H2].
  split; [set_solver|]. by rewrite Q4.
Qed.

Lemma restore_loop_spec ks s :
  exists e s', restore_loop ks s = (Ok e, s') /\
    (forall q, q ∉ ks -> dynamic (store s') q = dynamic (store s) q) /\
    (e = None -> forall k, k ∈ ks -> dynamic (store s') k = None).
Proof.
  revert s. induction ks as [|k ks IH]; intros s.
  { eexists _, _. split_and!; [done|done|]. intros _ k Hk. by apply elem_of_nil in Hk. }
  cbn [restore_loop]. pose proof (removeKey_spec k s) as H. unfold attempt. unfold mbind, action_bind at 1.
  destruct (removeKey k s) as [r s1]. destruct H as (_ & Hq & Hr).
  destruct (IH s1) as (e & s' & E & Hq' & Hr'). unfold action_bind. rewrite E. eexists _, _. split; [done|]. split.
  - intros q [Hk Hks]%not_elem_of_cons. by rewrite Hq', Hq.
  - destruct r as [[]|]; [|done]. cbn. intros He q [->|Hk]%elem_of_cons; [|by apply Hr'].
    destruct (decide (k ∈ ks)); [by apply Hr'|]. rewrite Hq' by done. by apply Hr.
Qed.

Lemma scutil_Restore_spec s :
  createdKeys s <> ∅ ->
  let '(r, s') := Restore s in
  createdKeys s' = ∅ /\
  (is_ok r = true -> forall k, k ∈ createdKeys s -> dynamic (store s') k = None) /\
  (forall k, k ∉ createdKeys s -> dynamic (store s') k = dynamic (store s) k).
Proof.
  intros Hne. unfold Restore. destruct (Nat.eqb_spec (size (createdKeys s)) 0) as [Hz|_].
  { apply size_empty_iff in Hz. apply leibniz_equiv in Hz. done. }
  unfold mbind, action_bind. destruct (restore_loop_spec (range (store s) (createdKeys s)) s) as (e & s' & -> & Hq & Hr).
  unfold created, run, modify. setoid_rewrite range_perm in Hr. setoid_rewrite range_perm in Hq.
  setoid_rewrite elem_of_elements in Hr. setoid_rewrite elem_of_elements in Hq.
  destruct e; cbn; split_and!; auto; done.
Qed.

Lemma registers_keys h suffix ds server port b :
  forallb word ds = true -> ds <> [] -> registers h suffix ds server port b -> createdKeys h <> ∅.
Proof.
  intros Hw Hne Hr Hk. assert (Forall (fun d => d <> "") ds) as Hf.
  { apply forallb_Forall in Hw. eapply Forall_impl; [exact Hw|]. by intros d Hd ->. }
  destruct (split_batches ds Hf) as [Hc _].
  destruct (splitDomainsIntoBatches ds) as [|batch bs] eqn:E; [by destruct Hne|].
  destruct (Hr 0 batch) as [Hin _]; [by rewrite E|]. set_solver.
Qed.

Lemma holds_keys h iface c : sensible c = true -> holds h iface c -> createdKeys h <> ∅.
Proof.
  unfold sensible, all_domains. rewrite !andb_true_iff, negb_true_iff, bool_decide_eq_false, forallb_app, andb_true_iff.
  intros [[_ Hne] [Hws Hwm]] [Hs Hm]. destruct (DSearchDomains c) as [|d ds] eqn:E.
  - by apply (registers_keys h _ _ _ _ _ Hwm Hne Hm).
  - by apply (registers_keys h _ _ _ _ _ Hws ltac:(done) Hs).
Qed.

(** What a successful Apply registers, and what Restore leaves. After an
    Apply that returned nil, every batch of the search domains and of the match
    domains has its entry in the dynamic store, with the first nameserver, the
    requested port (53 by default) and search enabled for the search domains
    only; and if the adapter knew every key of its own before, it still does.
    In that case a Restore that returns nil leaves no entry of the adapter. Restore
    forgets every key, those whose removal failed too. *)
Theorem scutil_lifecycle (iface : string) (c : DnsConfig) (s : scutilAdapter) :
  sensible c = true ->
  (Apply iface c s).1 = Ok tt ->
  let s1 := (Apply iface c s).2 in
  let s2 := (Restore s1).2 in
  holds s1 iface c /\
  (owned s -> owned s1 /\ ((Restore s1).1 = Ok tt -> forall k, dynamic (store s2) k = None)) /\
  createdKeys s2 = ∅ /\ Restore s2 = (Ok tt, s2).
Proof.
  intros Hc Hok s1 s2. destruct (scutil_Apply_Ok iface c s s1 Hc) as [Hh Ho]; [rewrite <-Hok; by destruct (Apply iface c s)|].
  assert (createdKeys s2 = ∅ /\ (owned s1 -> (Restore s1).1 = Ok tt -> forall k, dynamic (store s2) k = None)) as [H1 H2].
  { unfold s2. destruct (decide (createdKeys s1 = ∅)) as [He|He].
    - unfold Restore. rewrite He. cbn. split; [done|]. intros Hown _ k.
      destruct (dynamic (store s1) k) eqn:Ek; [|done]. assert (k ∈ createdKeys s1) by (apply Hown; eauto). set_solver.
    - pose proof (scutil_Restore_spec s1 He) as H. destruct (Restore s1) as [r s']. cbn in *. destruct H as (Hk & Hr & Hq).
      split; [done|]. intros Hown -> k. destruct (decide (k ∈ createdKeys s1)); [by apply Hr|].
      rewrite Hq by done. destruct (dynamic (store s1) k) eqn:Ek; [|done]. exfalso. eauto. }
  split_and!; [done| |done|].
  - intros Hown. split; auto.
  - unfold Restore. by rewrite H1.
Qed.

(** The adapter keeps the daemon's contract. *)
#[refine] Definition scutil_dns : HostDNS := {|
  resolver := scutilAdapter;
  effective := sensible;
  serves := holds;
  dns_apply := Apply;
  dns_restore := Restore |}.
Proof.
  - intros c ns p He Hns. unfold sensible in *. apply andb_true_iff in He as [He H3]. apply andb_true_iff in He as [_ H2].
    unfold has_servers, all_domains in *. cbn [DSearchDomains DMatchDomains Nameservers]. destruct ns; [done|].
    by rewrite H2, H3.
  - intros iface c h h' He Ha. by apply (scutil_Apply_Ok iface c h).
  - intros iface c h h' He Hh Hr Hh'.
    assert (createdKeys h' = ∅) as Hk; [|by apply (holds_keys h' iface c)].
    pose proof (scutil_Restore_spec h (holds_keys h iface c He Hh)) as H. rewrite Hr in H. by destruct H.
Defined.
End theorems.

(** A scutil that reads the scripts line by line. *)
Module ToyScutil.
#[export] Existing Instance ToyAddr.netip.
#[export] Existing Instance ToyAddr.net_text.

Definition strip (p : string) (l : chars) : option chars := strip_prefix (s2l p) l.
Definition parse (lines : list chars) : option (string * option Entry) :=
  match lines with
  | [_; l; _; _] => k ← strip "remove " l; Some (l2s k, None)
  | [_; _; l1; l2; l3; l4; l5; _; _; _] =>
    k ← strip "set " l1;
    ds ← strip "d.add SupplementalMatchDomains * " l2;
    b ← strip "d.add SupplementalMatchDomainsNoSearch # " l3;
    srv ← strip "d.add ServerAddresses * " l4;
    p ← strip "d.add ServerPort # " l5;
    Some (l2s k, Some {| eDomains := l2s <$> split " "%char ds; eNoSearch := l2s b; eServer := l2s srv; ePort := l2s p |})
  | _ => None
  end.

(** The store, and the runs that fail. *)
Definition run_script (script : string) (st : gmap string Entry * list bool) : bool * (gmap string Entry * list bool) :=
  let '(m, outcomes) := st in
  let ok := match outcomes with ok :: _ => ok | [] => true end in
  (ok, (match parse (split nl (s2l script)) with
        | Some (k, e) => if ok : bool then partial_alter (fun _ => e) k m else m
        | None => m
        end, tail outcomes)).

Definition line_ok (s : string) : Prop := nl ∉ s2l s.

Lemma script_split_lines ls : Forall line_ok ls -> split nl (s2l (lines_text ls)) = (s2l <$> ls) ++ [[]].
Proof.
  unfold lines_text. rewrite s2l_l2s. induction 1 as [|l ls Hl _ IH]; [done|]. cbn.
  rewrite <-app_assoc. cbn. by rewrite split_app, IH.
Qed.

Lemma key_text_inj k k' : key_text k = key_text k' -> k = k'.
Proof.
  destruct k as [kd i], k' as [kd' i']. unfold key_text. cbn [fst snd]. intros H. apply (f_equal s2l) in H.
  rewrite !s2l_app in H. apply app_inv_head in H.
  assert (kd = kd') as <- by (destruct kd, kd'; done).
  do 2 apply app_inv_head in H. apply app_inv_tail, s2l_inj in H. apply (inj pretty) in H. f_equal. lia.
Qed.

Lemma word_line s : word s = true -> line_ok s /\ " "%char ∉ s2l s.
Proof.
  unfold word. intros [_ H]%andb_true_iff. apply forallb_Forall in H. rewrite Forall_forall in H.
  split; intros Hc%H; done.
Qed.

Lemma line_app s s' : line_ok s -> line_ok s' -> line_ok (s +:+ s').
Proof. unfold line_ok. rewrite s2l_app, elem_of_app. by intros ?? [?|?]. Qed.

Lemma line_lit s : bool_decide (nl ∉ s2l s) = true -> line_ok s.
Proof. intros H. by apply bool_decide_eq_true in H. Qed.

Lemma line_lit_app p s : bool_decide (nl ∉ s2l p) = true -> line_ok s -> line_ok (p +:+ s).
Proof. intros H%line_lit. by apply line_app. Qed.

Lemma key_line k : line_ok (key_text k).
Proof.
  unfold key_text. pose proof (proj1 (word_line _ (itoa_word (Z.of_nat k.2)))) as Hi.
  repeat apply line_app; try done; try (by apply line_lit). destruct k.1; by apply line_lit.
Qed.

Lemma join_line ds : forallb word ds = true -> line_ok (join_words ds).
Proof.
  intros H%forallb_Forall. unfold line_ok, join_words. rewrite s2l_l2s. induction H as [|d ds Hd _ IH]; [apply not_elem_of_nil|].
  apply word_line in Hd as [Hd _]. destruct ds as [|d' ds]; [done|]. cbn in *. rewrite elem_of_app, elem_of_cons.
  intros [?|[?|?]]; done.
Qed.

Lemma strip_app p s : strip p (s2l (p +:+ s)) = Some (s2l s).
Proof. apply strip_prefix_Some, s2l_app. Qed.

Lemma parse_remove k : parse (split nl (s2l (remove_script k))) = Some (key_text k, None).
Proof.
  unfold remove_script. rewrite script_split_lines.
  - cbn [fmap list_fmap app parse]. rewrite strip_app. cbn. by rewrite l2s_s2l.
  - repeat (apply Forall_cons; split); try apply Forall_nil_2; try (by apply line_lit); try done. apply line_app; [by apply line_lit|apply key_line].
Qed.

Lemma parse_write k ds server port b :
  ds <> [] -> forallb word (server :: port :: ds) = true ->
  parse (split nl (s2l (write_script k (join_words ds) server port b))) =
    Some (key_text k, Some {| eDomains := ds; eNoSearch := if b then "0" else "1"; eServer := server; ePort := port |}).
Proof.
  intros Hne Hw. cbn [forallb] in Hw. apply andb_true_iff in Hw as [Hs Hw]. apply andb_true_iff in Hw as [Hp Hw].
  unfold write_script. rewrite script_split_lines.
  - unfold write_lines. cbn [fmap list_fmap app parse]. rewrite !strip_app. cbn.
    rewrite !l2s_s2l. unfold join_words. rewrite s2l_l2s, split_join.
    + f_equal. f_equal. f_equal. f_equal. rewrite <-list_fmap_compose. rewrite <-(list_fmap_id ds) at 2.
      apply list_fmap_ext. intros i x _. apply l2s_s2l.
    + by destruct ds.
    + apply Forall_fmap, Forall_forall. intros d Hd. apply forallb_Forall in Hw. rewrite Forall_forall in Hw.
      by apply word_line, Hw.
  - apply word_line in Hs as [Hs _]. apply word_line in Hp as [Hp _]. apply join_line in Hw. pose proof (key_line k) as Hk.
    unfold write_lines. repeat (apply Forall_cons; split); try apply Forall_nil_2; try (by apply line_lit);
      (apply line_lit_app; [reflexivity|]); try done.
    destruct b; by apply line_lit.
Qed.

#[export, refine] Instance scutil_lines : Scutil := {|
  dynstore := gmap string Entry * list bool;
  dynamic st k := st.1 !! key_text k;
  scutil := run_script;
  range _ s := elements s;
  addr_word := itoa_word |}.
Proof.
  - done.
  - intros k ds server port b [m outcomes] Hne _ Hw. unfold run_script. rewrite parse_write by done.
    destruct (match outcomes with ok :: _ => ok | [] => true end); cbn; [|done]. split.
    + intros q Hq. apply lookup_partial_alter_ne. intros E. by apply Hq, key_text_inj.
    + intros _. by rewrite lookup_partial_alter_eq.
  - intros k [m outcomes]. unfold run_script. rewrite parse_remove.
    destruct (match outcomes with ok :: _ => ok | [] => true end); cbn; [|done]. split.
    + intros q Hq. apply lookup_partial_alter_ne. intros E. by apply Hq, key_text_inj.
    + intros _. by rewrite lookup_partial_alter_eq.
Defined.

Definition config : DnsConfig :=
  {| Nameservers := [198%Z]; DSearchDomains := ["mesh.lab"]; DMatchDomains := ["lab"; "test"]; Port := 5353 |}.
Definition fresh (outcomes : list bool) : scutilAdapter := {| createdKeys := ∅; store := (∅, outcomes) |}.

Lemma scutil_lifecycle_witness :
  let s1 := (Apply "utun7" config (fresh [])).2 in
  dynamic (store s1) (Match, 0) =
    Some {| eDomains := ["lab"; "test"]; eNoSearch := "1"; eServer := "198"; ePort := "5353" |} /\
  forall k, dynamic (store (Restore s1).2) k = None.
Proof.
  destruct (scutil_lifecycle "utun7" config (fresh [])) as ((_ & Hm) & Ho & _); [reflexivity|vm_compute; reflexivity|].
  split; [exact (proj2 (Hm 0 ["lab"; "test"] eq_refl))|].
  apply Ho; [intros k [x Hx]; discriminate Hx|vm_compute; reflexivity].
Defined.

Lemma batches_greedy_witness :
  length <$> splitDomainsIntoBatches (replicate 60 "mesh.lab") = [50; 10] /\
  concat (splitDomainsIntoBatches (replicate 60 "mesh.lab")) = replicate 60 "mesh.lab".
Proof.
  split; [vm_compute; reflexivity|].
  apply (batches_greedy (replicate 60 "mesh.lab") _); [|reflexivity].
  apply Forall_forall. intros d Hd%elem_of_replicate. by destruct Hd as [-> _].
Defined.

(** The run that removes the entry fails: Restore reports it and forgets the
    key, and a second Restore returns nil with the entry still there. *)
Lemma failed_removal_forgotten :
  let c := {| Nameservers := [198%Z]; DSearchDomains := ["lab"]; DMatchDomains := []; Port := 0 |} in
  let s1 := (Apply "utun7" c (fresh [true; false])).2 in
  let '(r2, s2) := Restore s1 in
  let '(r3, s3) := Restore s2 in
  r2 = Err EAdapter /\ r3 = Ok tt /\ is_Some (dynamic (store s3) (Search, 0)).
Proof. vm_compute. eauto. Qed.
End ToyScutil.
