(* ===== verification/DnsNrpt.v ===== *)
(** Host DNS on Windows: internal/tunnel/dns/adapter_windows.go, the adapter that
    writes the rules of the Name Resolution Policy Table in the registry.

    A rule's key is its number; [reg n] tells whether the n-th registry call
    succeeds. Flushing the resolver's cache, which returns nothing, is left out. *)
From stdpp Require Import base tactics list gmap strings.
From Stdlib Require Import ZArith Ascii Lia.
From S2P Require Import Prelude GoStr.
From S2P Require Import Tunnel.
From S2P Require Import DnsAdapter.
Local Open Scope list_scope.

Definition nrptVersionValue : Z := 2.
Definition nrptConfigOptsValue : Z := 8.
Definition nrptMaxDomainsPerRule : nat := 50.

(** The values of a rule's key: Version, Name, GenericDNSServers, ConfigOptions. *)
Record Rule := { rVersion : option Z; rName : option (list string); rServers : option string; rOptions : option Z }.
Definition empty_rule : Rule := {| rVersion := None; rName := None; rServers := None; rOptions := None |}.

Section adapter.
Context {N : NetipLib} {U : NetText} (reg : nat -> bool).

(** nrptAdapter, the rules of the registry, and the calls made so far. *)
Record nrptAdapter := { ruleCount : nat; rules : gmap nat Rule; calls : nat }.
Abbreviation nact := (action nrptAdapter dns_error).

(** A registry call that changes [rules] by [f] if it succeeds. *)
Definition registry_call (f : gmap nat Rule -> gmap nat Rule) : nact unit := fun s =>
  if reg (calls s) then (Ok tt, {| ruleCount := ruleCount s; rules := f (rules s); calls := S (calls s) |})
  else (Err EAdapter, {| ruleCount := ruleCount s; rules := rules s; calls := S (calls s) |}).

(** CreateKey opens a key that exists. *)
Definition CreateKey (i : nat) : nact unit :=
  registry_call (fun m => match m !! i with Some _ => m | None => <[i := empty_rule]> m end).
(** A key that is not there is not an error for the caller. *)
Definition DeleteKey (i : nat) : nact unit := registry_call (delete i).
Definition set_value (i : nat) (f : Rule -> Rule) : nact unit := registry_call (alter f i).

Definition writeNRPTRule (i : nat) (domains : list string) (dnsCSV : string) : nact unit :=
  _ ← CreateKey i;
  _ ← set_value i (fun r => {| rVersion := Some nrptVersionValue; rName := rName r; rServers := rServers r; rOptions := rOptions r |});
  _ ← set_value i (fun r => {| rVersion := rVersion r; rName := Some domains; rServers := rServers r; rOptions := rOptions r |});
  _ ← set_value i (fun r => {| rVersion := rVersion r; rName := rName r; rServers := Some dnsCSV; rOptions := rOptions r |});
  set_value i (fun r => {| rVersion := rVersion r; rName := rName r; rServers := rServers r; rOptions := Some nrptConfigOptsValue |}).

Definition set_count (n : nat) : nact unit :=
  run (modify (fun s => {| ruleCount := n; rules := rules s; calls := calls s |})).

(** The loop over the rules to delete, with firstErr. *)
Fixpoint delete_loop (ids : list nat) : nact (option dns_error) :=
  match ids with
  | [] => mret None
  | i :: ids =>
    r ← attempt (DeleteKey i);
    e ← delete_loop ids;
    mret (match r with Err e' => Some e' | Ok _ => e end)
  end.
Definition removeRulesLocked : nact unit := fun s =>
  (e ← delete_loop (seq 0 (ruleCount s));
   _ ← set_count 0;
   match e with Some e => fail e | None => mret tt end) s.

Definition nrpt_domains (c : DnsConfig) : list string := (fun d => "." +:+ trim_suffix d ".") <$> all_domains c.
Definition dns_csv (c : DnsConfig) : string := l2s (join (s2l ";") (s2l ∘ addr_text <$> Nameservers c)).

(** domains[i:end] for i = 0, 50, ... *)
Definition rule_domains (domains : list string) (j : nat) : list string :=
  take nrptMaxDomainsPerRule (drop (nrptMaxDomainsPerRule * j) domains).
Definition rule_number (domains : list string) : nat :=
  (length domains + (nrptMaxDomainsPerRule - 1)) / nrptMaxDomainsPerRule.

Fixpoint write_loop (domains : list string) (dnsCSV : string) (js : list nat) : nact unit :=
  match js with
  | [] => set_count (rule_number domains)
  | created :: js =>
    r ← attempt (writeNRPTRule created (rule_domains domains created) dnsCSV);
    match r with
    | Err e => _ ← set_count created; fail e
    | Ok _ => write_loop domains dnsCSV js
    end
  end.

Definition Apply (ifaceName : string) (c : DnsConfig) : nact unit :=
  if negb (has_servers c) then mret tt
  else if custom_port c then fail ErrPortUnsupported
  else
    match nrpt_domains c with
    | [] => mret tt
    | domains =>
      _ ← ignore removeRulesLocked;
      write_loop domains (dns_csv c) (seq 0 (rule_number domains))
    end.

Definition Restore : nact unit := removeRulesLocked.

(** ** Theorems *)

(** The rule Apply writes. *)
Definition full_rule (domains : list string) (csv : string) : Rule :=
  {| rVersion := Some nrptVersionValue; rName := Some domains; rServers := Some csv;
     rOptions := Some nrptConfigOptsValue |}.

Definition holds (h : nrptAdapter) (iface : string) (c : DnsConfig) : Prop :=
  ruleCount h = rule_number (nrpt_domains c) /\
  forall j, j < ruleCount h -> rules h !! j = Some (full_rule (rule_domains (nrpt_domains c) j) (dns_csv c)).

Definition expressible (c : DnsConfig) : bool :=
  has_servers c && match all_domains c with [] => false | _ => true end.

Lemma delete_loop_spec ids s :
  exists e s', delete_loop ids s = (Ok e, s') /\ ruleCount s' = ruleCount s /\
    (forall j, j ∉ ids -> rules s' !! j = rules s !! j) /\
    (forall j, rules s !! j = None -> rules s' !! j = None) /\
    ((forall n, reg n = true) -> e = None) /\
    (e = None -> forall j, j ∈ ids -> rules s' !! j = None).
Proof.
  revert s. induction ids as [|i ids IH]; intros s.
  { eexists _, _. split_and!; try done. intros _ j Hj. by apply elem_of_nil in Hj. }
  cbn [delete_loop]. unfold mbind, action_bind, attempt, DeleteKey, registry_call.
  destruct (reg (calls s)) eqn:E.
  all: edestruct IH as (e & s' & Hr & Hc & H1 & H2 & H3 & H4); rewrite Hr; eexists _, _; split; [done|];
    cbn in *; split_and!; [done|intros j [Hi Hj]%not_elem_of_cons| | |].
  - by rewrite H1, lookup_delete_ne by done.
  - intros j Hj. apply H2. rewrite lookup_delete_None. auto.
  - done.
  - intros He j [->|Hj]%elem_of_cons; [apply H2, lookup_delete_eq|by apply H4].
  - by rewrite H1.
  - intros j Hj. by apply H2.
  - intros He. by rewrite He in E.
  - done.
Qed.

Lemma registry_call_Ok f s s' :
  registry_call f s = (Ok tt, s') -> ruleCount s' = ruleCount s /\ rules s' = f (rules s).
Proof. unfold registry_call. destruct (reg (calls s)); [|done]. by intros [= <-]. Qed.

Lemma write_rule_Ok i domains csv s s' :
  writeNRPTRule i domains csv s = (Ok tt, s') ->
  ruleCount s' = ruleCount s /\ rules s' !! i = Some (full_rule domains csv) /\
  (forall j, j <> i -> rules s' !! j = rules s !! j).
Proof.
  unfold writeNRPTRule. rewrite action_bind_Ok. setoid_rewrite action_bind_Ok. setoid_rewrite action_bind_Ok.
  setoid_rewrite action_bind_Ok.
  intros ([] & s1 & [C1 R1]%registry_call_Ok & [] & s2 & [C2 R2]%registry_call_Ok & [] & s3 & [C3 R3]%registry_call_Ok &
    [] & s4 & [C4 R4]%registry_call_Ok & [C5 R5]%registry_call_Ok).
  split_and!; [congruence| |].
  - rewrite R5, R4, R3, R2, R1, !lookup_alter_eq. by destruct (rules s !! i) eqn:E; rewrite ?E, ?lookup_insert_eq.
  - intros j Hj. rewrite R5, R4, R3, R2, R1, !lookup_alter_ne by done.
    by destruct (rules s !! i); rewrite ?lookup_insert_ne by done.
Qed.

Lemma write_loop_Ok domains csv js s s' :
  NoDup js -> write_loop domains csv js s = (Ok tt, s') ->
  ruleCount s' = rule_number domains /\
  (forall j, j ∈ js -> rules s' !! j = Some (full_rule (rule_domains domains j) csv)) /\
  (forall j, j ∉ js -> rules s' !! j = rules s !! j).
Proof.
  revert s. induction js as [|i js IH]; intros s; cbn [write_loop].
  { intros _ [= <-]. split_and!; [done| |done]. intros j Hj. by apply elem_of_nil in Hj. }
  intros [Hi Hnd]%NoDup_cons. unfold mbind, action_bind, attempt.
  destruct (writeNRPTRule i (rule_domains domains i) csv s) as [[[]|e] s1] eqn:E; [|done].
  apply write_rule_Ok in E as (_ & Hr & Ho). intros H. destruct (IH s1 Hnd H) as (Hc & Hin & Hout).
  split_and!; [done| |].
  - intros j [->|Hj]%elem_of_cons; [by rewrite Hout|by apply Hin].
  - intros j [Hne Hj]%not_elem_of_cons. by rewrite Hout, Ho.
Qed.

Lemma write_loop_succeeds domains csv js s :
  (forall n, reg n = true) -> exists s', write_loop domains csv js s = (Ok tt, s').
Proof.
  intros Hok. revert s. induction js as [|i js IH]; intros s; cbn [write_loop]; [by eexists|].
  unfold mbind, action_bind, attempt, writeNRPTRule, CreateKey, set_value, registry_call. unfold mbind, action_bind.
  rewrite !Hok. apply IH.
Qed.

(** *** The rules cover the domains *)
Lemma rule_domains_nonempty domains j : j < rule_number domains -> rule_domains domains j <> [].
Proof.
  unfold rule_number, rule_domains, nrptMaxDomainsPerRule. change (50 - 1) with 49. intros Hj He. apply (f_equal length) in He. cbn [length] in He.
  rewrite length_take, length_drop in He. pose proof (Nat.div_mod_eq (length domains + 49) 50).
  pose proof (Nat.mod_upper_bound (length domains + 49) 50 ltac:(lia)). lia.
Qed.

Lemma rule_domains_cover domains d :
  d ∈ domains <-> exists j, j < rule_number domains /\ d ∈ rule_domains domains j.
Proof.
  unfold rule_domains. setoid_rewrite list_elem_of_lookup at 1. split.
  - intros [i Hi]. pose proof (lookup_lt_Some _ _ _ Hi). pose proof (Nat.div_mod_eq i 50).
    pose proof (Nat.mod_upper_bound i 50 ltac:(lia)).
    exists (i / 50). split.
    + unfold rule_number, nrptMaxDomainsPerRule. apply Nat.div_le_lower_bound; lia.
    + apply list_elem_of_lookup. exists (i mod 50). unfold nrptMaxDomainsPerRule. rewrite lookup_take_lt, lookup_drop by lia.
      by replace (50 * (i / 50) + i mod 50) with i by lia.
  - intros (j & _ & [i Hi]%list_elem_of_lookup). apply lookup_take_Some in Hi as [Hi _]. rewrite lookup_drop in Hi. eauto.
Qed.

Lemma removeRules_spec s :
  let '(r, s') := removeRulesLocked s in
  ruleCount s' = 0 /\
  (forall j, ruleCount s <= j -> rules s' !! j = rules s !! j) /\
  (forall j, rules s !! j = None -> rules s' !! j = None) /\
  (r = Ok tt -> forall j, j < ruleCount s -> rules s' !! j = None) /\
  ((forall n, reg n = true) -> r = Ok tt).
Proof.
  unfold removeRulesLocked. destruct (delete_loop_spec (seq 0 (ruleCount s)) s) as (e & s' & E & _ & H1 & H2 & H3 & H4).
  unfold mbind, action_bind. rewrite E. unfold set_count, run, modify. setoid_rewrite elem_of_seq in H1.
  setoid_rewrite elem_of_seq in H4.
  destruct e as [e|]; cbn; split_and!; try done; try (intros j Hj; apply H1; lia).
  - by intros ?%H3.
  - intros _ j Hj. apply H4; [done|lia].
Qed.

Lemma Apply_unfold iface c s :
  expressible c = true -> custom_port c = false ->
  Apply iface c s = write_loop (nrpt_domains c) (dns_csv c) (seq 0 (rule_number (nrpt_domains c))) (removeRulesLocked s).2.
Proof.
  unfold expressible, Apply. intros [Hn Hd]%andb_true_iff Hp. rewrite Hn, Hp. cbn [negb].
  assert (exists d ds, nrpt_domains c = d :: ds) as (d & ds & ->).
  { unfold nrpt_domains. destruct (all_domains c) as [|d ds]; [done|]. cbn. eauto. }
  by rewrite (action_bind_eq _ _ _ _ _ (ignore_Ok _ _)).
Qed.

(** No rule of the adapter's key beyond those it counts. *)
Definition owned (s : nrptAdapter) : Prop := forall j, is_Some (rules s !! j) -> j < ruleCount s.

Lemma nrpt_Apply_Ok iface c s s1 :
  expressible c = true -> Apply iface c s = (Ok tt, s1) ->
  custom_port c = false /\ holds s1 iface c /\
  (forall j, ruleCount s1 <= j -> rules s1 !! j = rules (removeRulesLocked s).2 !! j).
Proof.
  intros He H. destruct (custom_port c) eqn:Hp.
  { unfold expressible, Apply in *. destruct (has_servers c); [|done]. by rewrite Hp in H. }
  rewrite Apply_unfold in H by done. apply write_loop_Ok in H as (Hc & Hin & Hout); [|apply NoDup_seq].
  setoid_rewrite elem_of_seq in Hin. setoid_rewrite elem_of_seq in Hout.
  split_and!; [done|split; [done|intros j Hj; apply Hin; lia]|intros j Hj; apply Hout; lia].
Qed.

Lemma quiet_lifecycle iface c s :
  expressible c = true -> custom_port c = false -> (forall n, reg n = true) ->
  (Apply iface c s).1 = Ok tt /\ (Restore (Apply iface c s).2).1 = Ok tt /\
  (owned s -> rules (Restore (Apply iface c s).2).2 = ∅).
Proof.
  intros He Hp Hok. pose proof (removeRules_spec s) as H.
  destruct (write_loop_succeeds (nrpt_domains c) (dns_csv c) (seq 0 (rule_number (nrpt_domains c)))
    (removeRulesLocked s).2 Hok) as [s1 E]. rewrite <-(Apply_unfold iface) in E by done.
  destruct (nrpt_Apply_Ok iface c s s1 He E) as (_ & _ & Hout). rewrite E. cbn [fst snd]. split; [done|].
  unfold Restore. pose proof (removeRules_spec s1) as H1. destruct (removeRulesLocked s1) as [r2 s2]. cbn.
  destruct H1 as (_ & H1b & _ & H1d & H1e). split; [auto|]. intros Hown. apply map_empty. intros j.
  destruct (decide (j < ruleCount s1)) as [Hj|Hj]; [apply H1d; auto|]. rewrite H1b, Hout by lia.
  destruct (removeRulesLocked s) as [r0 s0]. cbn in *. destruct H as (_ & _ & Hn & Hd & Hr).
  destruct (decide (j < ruleCount s)); [apply Hd; auto|]. apply Hn. destruct (rules s !! j) eqn:Ej; [|done].
  exfalso. assert (j < ruleCount s) by (apply Hown; eauto). lia.
Qed.

Lemma length_rule_domains domains j : length (rule_domains domains j) <= nrptMaxDomainsPerRule.
Proof. apply length_take_le. Qed.

(** The Windows adapter, exactly. A configuration with another port than 53 is
    refused and nothing changes. Otherwise, after an Apply that returned nil,
    every domain is in the Name list of some rule, every counted rule is
    complete and names at most 50 of the domains and no other, and the rules
    are ceil(n / 50). A Restore that returns nil has deleted all of them and
    writes none. If no registry call fails, Apply succeeds, and a registry
    without stray rules is empty of rules after Restore. *)
Theorem nrpt_lifecycle (iface : string) (c : DnsConfig) (s : nrptAdapter) :
  expressible c = true ->
  let '(r, s1) := Apply iface c s in
  let '(r', s2) := Restore s1 in
  (custom_port c = true -> r = Err ErrPortUnsupported /\ s1 = s) /\
  (r = Ok tt ->
     ruleCount s1 = rule_number (nrpt_domains c) /\
     (forall d, d ∈ nrpt_domains c <-> exists j names, j < ruleCount s1 /\ d ∈ names /\
        rules s1 !! j = Some (full_rule names (dns_csv c))) /\
     (forall j, j < ruleCount s1 -> exists names, 0 < length names <= nrptMaxDomainsPerRule /\
        rules s1 !! j = Some (full_rule names (dns_csv c)))) /\
  (r' = Ok tt -> ruleCount s2 = 0 /\ forall j, j < ruleCount s1 -> rules s2 !! j = None) /\
  (custom_port c = false -> (forall n, reg n = true) -> r = Ok tt /\ r' = Ok tt /\ (owned s -> rules s2 = ∅)).
Proof.
  intros He. destruct (Apply iface c s) as [r s1] eqn:E. destruct (Restore s1) as [r' s2] eqn:E'. split_and!.
  - intros Hp. unfold expressible, Apply in *. destruct (has_servers c); [|done]. rewrite Hp in E. by injection E as <- <-.
  - intros ->. destruct (nrpt_Apply_Ok iface c s s1 He E) as (_ & [Hc Hh] & _). rewrite Hc in *. split_and!; [done| |].
    + intros d. rewrite rule_domains_cover. split.
      * intros (j & Hj & Hd). exists j, (rule_domains (nrpt_domains c) j). auto.
      * intros (j & names & Hj & Hd & Hr). rewrite Hh in Hr by done. injection Hr as <-. eauto.
    + intros j Hj. exists (rule_domains (nrpt_domains c) j). split; [|by apply Hh].
      pose proof (rule_domains_nonempty _ _ Hj). pose proof (length_rule_domains (nrpt_domains c) j).
      destruct (rule_domains _ j); cbn in *; [done|lia].
  - intros ->. pose proof (removeRules_spec s1) as H. unfold Restore in E'. rewrite E' in H.
    destruct H as (H1 & _ & _ & H2 & _). auto.
  - intros Hp Hok. destruct (quiet_lifecycle iface c s He Hp Hok) as (H1 & H2 & H3). rewrite E in *. cbn in *.
    rewrite E' in *. auto.
Qed.

(** The adapter keeps the daemon's contract. *)
#[refine] Definition nrpt_dns : HostDNS := {|
  resolver := nrptAdapter;
  effective := expressible;
  serves := holds;
  dns_apply := Apply;
  dns_restore := Restore |}.
Proof.
  - intros c ns p He Hns. unfold expressible, has_servers in *. apply andb_true_iff in He as [_ He]. by destruct ns.
  - intros iface c h h' He Ha. by apply (nrpt_Apply_Ok iface c h).
  - intros iface c h h' He [Hc _] Hr [Hc' _]. pose proof (removeRules_spec h) as H. unfold Restore in Hr. rewrite Hr in H.
    destruct H as [H _]. rewrite H in Hc'. unfold expressible in He. apply andb_true_iff in He as [_ He].
    unfold rule_number, nrpt_domains in Hc'. rewrite length_fmap in Hc'. destruct (all_domains c) as [|d ds]; [done|].
    cbn [length] in Hc'. symmetry in Hc'. apply Nat.div_small_iff in Hc'; unfold nrptMaxDomainsPerRule in *; lia.
Defined.
End adapter.

Module ToyRegistry.
Import ToyAddr.
Definition config (p : Z) : DnsConfig :=
  {| Nameservers := [198%Z; 199%Z]; DSearchDomains := ["mesh.lab."]; DMatchDomains := replicate 60 "lab"; Port := p |}.
Definition fresh : nrptAdapter := {| ruleCount := 0; rules := ∅; calls := 0 |}.

Lemma nrpt_lifecycle_witness :
  let s1 := (Apply (fun _ => true) "wg-cp0" (config 0) fresh).2 in
  ruleCount s1 = 2 /\ rules (Restore (fun _ => true) s1).2 = ∅.
Proof.
  pose proof (nrpt_lifecycle (fun _ => true) "wg-cp0" (config 0) fresh eq_refl) as H.
  destruct (Apply (fun _ => true) "wg-cp0" (config 0) fresh) as [r s1] eqn:E1. cbn [snd].
  destruct (Restore (fun _ => true) s1) as [r' s2] eqn:E2. destruct H as (_ & Hr & _ & Hq).
  destruct (Hq eq_refl (fun _ => eq_refl)) as (Hr1 & _ & He). split.
  - destruct (Hr Hr1) as [-> _]. vm_compute. reflexivity.
  - apply He. intros j [x Hx]. discriminate Hx.
Defined.

(** The third registry call of a rule fails: its key exists but is not counted,
    and Restore, which returns nil, leaves it. *)
Lemma partial_rule_stays :
  let reg n := negb (n =? 2) in
  let '(r, s1) := Apply reg "wg-cp0" (config 0) fresh in
  let '(r', s2) := Restore reg s1 in
  r = Err EAdapter /\ r' = Ok tt /\ is_Some (rules s2 !! 0).
Proof. vm_compute. eauto. Qed.
End ToyRegistry.

