(* ===== verification/InnerMesh.v ===== *)
(** The inner mesh: internal/innermesh (innermesh.go, frombundle.go,
    netbird.go, fake.go).

    [Netbird] drives netbird's embed client; whether its calls succeed is
    decided by an oracle, and [live] are the clients that were started and not
    stopped since. [Mesh] is what the daemon relies on, with both
    implementations as instances. *)
From stdpp Require Import base tactics list gmap strings.
From Stdlib Require Import ZArith Ascii Lia.
From S2P Require Import Prelude GoStr Bundle.
Local Open Scope list_scope.

Inductive MState := StateClosed | StateConfiguring | StateUp | StateError.
#[export] Instance MState_eq_dec : EqDecision MState.
Proof. solve_decision. Defined.

Definition MState_String (s : MState) : string :=
  match s with
  | StateConfiguring => "configuring"
  | StateUp => "up"
  | StateError => "error"
  | StateClosed => "closed"
  end.

Record MConfig := {
  SetupKey : string;
  ManagementURL : string;
  PreferKernelWG : bool;
  AdminAccessToken : string;
  CMobileCert : chars;
  PreSharedKey : chars;
  RosenpassEnabled : bool;
  RosenpassPermissive : bool;
  ConfigPath : string;
  StatePath : string;
  BundleDeviceID : string }.

Definition zero_config : MConfig :=
  {| SetupKey := ""; ManagementURL := ""; PreferKernelWG := false; AdminAccessToken := ""; CMobileCert := [];
     PreSharedKey := []; RosenpassEnabled := false; RosenpassPermissive := false; ConfigPath := "";
     StatePath := ""; BundleDeviceID := "" |}.

Record PeerStatus := {
  IP : string;
  PubKey : string;
  FQDN : string;
  Connected : bool;
  Relayed : bool;
  LocalICEType : string;
  RemoteICEType : string;
  RelayAddress : string;
  LastHandshake : Z;
  BytesRx : Z;
  BytesTx : Z;
  Latency : Z }.

Definition Path (p : PeerStatus) : string := if Relayed p then "relayed" else "direct".

(** [None]: os.Hostname failed. *)
Definition defaultDeviceID (hostname : option string) : string :=
  match hostname with Some h => if bool_decide (h = "") then "goat-client" else h | None => "goat-client" end.

Definition composeIdentity (bundleDeviceID deviceID : string) : string :=
  let bundleDeviceID := trim_space bundleDeviceID in
  let deviceID := trim_space deviceID in
  if negb (bool_decide (bundleDeviceID = "")) && negb (bool_decide (deviceID = ""))
  then bundleDeviceID +:+ " (" +:+ deviceID +:+ ")"
  else if negb (bool_decide (bundleDeviceID = "")) then bundleDeviceID
  else deviceID.

Inductive mesh_error :=
  | EBundleNil
  | ErrBundleMissingInnerMeshSetup
  | EManagementURLRequired
  | ESetupKeyRequired
  | EMeshClosed
  | ENotConfigured
  | EMkdir (path : string)
  | EBuildClient
  | EStart
  | EStop
  | EStatus
  | EInjected
  | ECtxDone.

(** Slices of the bundle are copied: values here share nothing. *)
Definition FromBundle (b : option EnrollmentBundle) : result mesh_error MConfig :=
  match b with
  | None => Err EBundleNil
  | Some b =>
    if negb (HasInnerMesh b) then Err ErrBundleMissingInnerMeshSetup
    else
      let s := MeshSetup b in
      Ok {| SetupKey := SetupSetupKey s; ManagementURL := SetupManagementURL s; PreferKernelWG := false;
            AdminAccessToken := SetupAdminAccessToken s; CMobileCert := MobileCert b;
            PreSharedKey := SetupPreSharedKey s; RosenpassEnabled := SetupRosenpassEnabled s;
            RosenpassPermissive := SetupRosenpassPermissive s; ConfigPath := ""; StatePath := "";
            BundleDeviceID := DeviceID b |}
  end.

(** [parse_prefix s] is the text of the address of netip.ParsePrefix. *)
Definition bareOverlayIP (parse_prefix : string -> option string) (s : string) : string :=
  if bool_decide (s = "") then s
  else match parse_prefix s with Some ip => ip | None => s end.

(** ** The log buffer *)
Definition newline : ascii := ascii_of_N 10.

Record ringWriter := { rbuf : chars; rcap : nat }.
Definition newRingWriter (capBytes : Z) : ringWriter :=
  {| rbuf := []; rcap := if (capBytes <=? 0)%Z then Z.to_nat 65536 else Z.to_nat capBytes |}.

Definition Write (p : chars) (r : ringWriter) : ringWriter :=
  let buf := rbuf r ++ p in
  if length buf <=? rcap r then {| rbuf := buf; rcap := rcap r |}
  else
    let excess := length buf - rcap r in
    {| rbuf := match cut newline (drop excess buf) with
               | Some (h, _) => drop (excess + length h + 1) buf
               | None => drop excess buf
               end;
       rcap := rcap r |}.

Definition splitLines (s : chars) : list chars := filter (fun l => l <> []) (split newline s).

Definition Lines (tail : Z) (r : ringWriter) : list chars :=
  if length (rbuf r) =? 0 then []
  else
    let all := splitLines (rbuf r) in
    if (tail <=? 0)%Z || (Z.of_nat (length all) <=? tail)%Z then all
    else drop (length all - Z.to_nat tail) all.

(** ** Netbird *)

(** The parts of netbird's FullStatus the source reads; counters are int64. *)
Record PeerState := {
  SIP : string;
  SPubKey : string;
  SFQDN : string;
  SConnStatus : string;
  SRelayed : bool;
  SLocalIceCandidateType : string;
  SRemoteIceCandidateType : string;
  SRelayServerAddress : string;
  SLastWireguardHandshake : Z;
  SBytesRx : Z;
  SBytesTx : Z;
  SLatency : Z;
  SRosenpassEnabled : bool }.
Record FullStatus := { SPeers : list PeerState; SLocalIP : string }.

Definition uint64 (z : Z) : Z := (z mod 2 ^ 64)%Z.

Record MStats := {
  PeerCount : Z;
  BytesIn : Z;
  BytesOut : Z;
  StLastHandshake : Z;
  RosenpassPeers : Z }.
(** The zero time.Time, 1 January of the year 1. *)
Definition zero_time : Z := (-62135596800 * second)%Z.

Definition zero_stats : MStats :=
  {| PeerCount := 0; BytesIn := 0; BytesOut := 0; StLastHandshake := zero_time; RosenpassPeers := 0 |}.

(** The loop of [Stats]. *)
Definition add_peer (out : MStats) (p : PeerState) : MStats :=
  {| PeerCount := PeerCount out;
     BytesIn := uint64 (BytesIn out + uint64 (SBytesRx p));
     BytesOut := uint64 (BytesOut out + uint64 (SBytesTx p));
     StLastHandshake := if (StLastHandshake out <? SLastWireguardHandshake p)%Z
                        then SLastWireguardHandshake p else StLastHandshake out;
     RosenpassPeers := if SRosenpassEnabled p then RosenpassPeers out + 1 else RosenpassPeers out |}.
Definition sum_stats (ps : list PeerState) : MStats :=
  foldl add_peer {| PeerCount := Z.of_nat (length ps); BytesIn := 0; BytesOut := 0; StLastHandshake := zero_time;
                    RosenpassPeers := 0 |} ps.

Definition peer_status (p : PeerState) : PeerStatus :=
  {| IP := SIP p; PubKey := SPubKey p; FQDN := SFQDN p;
     Connected := bool_decide (SConnStatus p = "Connected"); Relayed := SRelayed p;
     LocalICEType := SLocalIceCandidateType p; RemoteICEType := SRemoteIceCandidateType p;
     RelayAddress := SRelayServerAddress p; LastHandshake := SLastWireguardHandshake p;
     BytesRx := uint64 (SBytesRx p); BytesTx := uint64 (SBytesTx p); Latency := SLatency p |}.

(** embed.Options *)
Record options := {
  ODeviceName : string;
  OSetupKey : string;
  OManagementURL : string;
  OPreSharedKey : chars;
  OConfigPath : string;
  OStatePath : string;
  ORosenpassEnabled : bool;
  ORosenpassPermissive : bool }.

Record Netbird := {
  ncfg : MConfig;
  client : option nat;
  nstate : MState;
  nclosed : bool;
  deviceID : string;
  live : gmap nat options;
  next_client : nat;
  nticks : nat }.

Definition NewNetbird (deviceID : string) : Netbird :=
  {| ncfg := zero_config; client := None; nstate := StateClosed; nclosed := false; deviceID := deviceID;
     live := ∅; next_client := 0; nticks := 0 |}.

Definition NewWithDeviceID (hostname : option string) (deviceID : string) : Netbird :=
  if bool_decide (deviceID = "") then NewNetbird (defaultDeviceID hostname) else NewNetbird deviceID.

Definition set_nstate (s : MState) (n : Netbird) : Netbird :=
  {| ncfg := ncfg n; client := client n; nstate := s; nclosed := nclosed n; deviceID := deviceID n;
     live := live n; next_client := next_client n; nticks := nticks n |}.

Section netbird.
Context (ok : nat -> bool).

Definition Configure (cfg : MConfig) : action Netbird mesh_error unit := fun n =>
  if bool_decide (ManagementURL cfg = "") then (Err EManagementURLRequired, n)
  else if bool_decide (SetupKey cfg = "") then (Err ESetupKeyRequired, n)
  else if nclosed n then (Err EMeshClosed, n)
  else (Ok tt, {| ncfg := cfg; client := client n; nstate := StateConfiguring; nclosed := nclosed n;
                  deviceID := deviceID n; live := live n; next_client := next_client n; nticks := nticks n |}).

(** One call of the outside world. *)
Definition call (e : mesh_error) : action Netbird mesh_error unit := fun n =>
  (if ok (nticks n) then Ok tt else Err e,
   {| ncfg := ncfg n; client := client n; nstate := nstate n; nclosed := nclosed n; deviceID := deviceID n;
      live := live n; next_client := next_client n; nticks := S (nticks n) |}).

Fixpoint make_dirs (paths : list string) : action Netbird mesh_error unit :=
  match paths with
  | [] => mret tt
  | p :: ps => if bool_decide (p = "") then make_dirs ps else _ ← call (EMkdir p); make_dirs ps
  end.

Definition client_options (n : Netbird) : options :=
  let cfg := ncfg n in
  {| ODeviceName := composeIdentity (BundleDeviceID cfg) (deviceID n); OSetupKey := SetupKey cfg;
     OManagementURL := ManagementURL cfg; OPreSharedKey := PreSharedKey cfg; OConfigPath := ConfigPath cfg;
     OStatePath := StatePath cfg; ORosenpassEnabled := RosenpassEnabled cfg;
     ORosenpassPermissive := RosenpassPermissive cfg |}.

(** n.client = client; n.state = StateUp *)
Definition record_client (o : options) (n : Netbird) : Netbird :=
  {| ncfg := ncfg n; client := Some (next_client n); nstate := StateUp; nclosed := nclosed n;
     deviceID := deviceID n; live := <[next_client n := o]> (live n); next_client := S (next_client n);
     nticks := nticks n |}.

Definition Connect : action Netbird mesh_error unit := fun n =>
  if nclosed n then (Err EMeshClosed, n)
  else if bool_decide (ManagementURL (ncfg n) = "") then (Err ENotConfigured, n)
  else
    let o := client_options n in
    match (_ ← make_dirs [ConfigPath (ncfg n); StatePath (ncfg n)];
           _ ← call EBuildClient;
           call EStart) (set_nstate StateConfiguring n) with
    | (Err e, n') => (Err e, set_nstate StateError n')
    | (Ok _, n') => (Ok tt, record_client o n')
    end.

Definition drop_client (closed : bool) (n : Netbird) : Netbird :=
  {| ncfg := ncfg n; client := None; nstate := StateClosed; nclosed := closed; deviceID := deviceID n;
     live := match client n with Some c => delete c (live n) | None => live n end;
     next_client := next_client n; nticks := nticks n |}.

Definition Disconnect : action Netbird mesh_error unit := fun n =>
  let n' := drop_client (nclosed n) n in
  match client n with
  | None => (Ok tt, n')
  | Some _ => call EStop n'
  end.

Definition Close (n : Netbird) : Netbird := drop_client true n.

(** [status] is what client.Status() gives for a client. *)
Definition Stats (status : nat -> option FullStatus) (n : Netbird) : result mesh_error MStats :=
  match client n with
  | None => Ok zero_stats
  | Some c => fs ← of_option EStatus (status c); Ok (sum_stats (SPeers fs))
  end.

Definition Peers (status : nat -> option FullStatus) (n : Netbird) : result mesh_error (list PeerStatus) :=
  match client n with
  | None => Ok []
  | Some c => fs ← of_option EStatus (status c); Ok (peer_status <$> SPeers fs)
  end.

Definition LocalIP (status : nat -> option FullStatus) (parse_prefix : string -> option string) (n : Netbird)
    : result mesh_error string :=
  match client n with
  | None => Ok ""
  | Some c => fs ← of_option EStatus (status c); Ok (bareOverlayIP parse_prefix (SLocalIP fs))
  end.
End netbird.

(** ** Fake *)
Record Fake := {
  fcfg : MConfig;
  fstate : MState;
  fclosed : bool;
  fpeers : list PeerStatus;
  failConnects : Z }.

Definition fake_with (s : MState) (fails : Z) (f : Fake) : Fake :=
  {| fcfg := fcfg f; fstate := s; fclosed := fclosed f; fpeers := fpeers f; failConnects := fails |}.

Definition FakeConfigure (cfg : MConfig) : action Fake mesh_error unit := fun f =>
  if fclosed f then (Err EMeshClosed, f)
  else (Ok tt, {| fcfg := cfg; fstate := fstate f; fclosed := fclosed f; fpeers := fpeers f;
                  failConnects := failConnects f |}).

(** [in_time]: the simulated bring-up ends before the context. *)
Definition FakeConnect (in_time : bool) : action Fake mesh_error unit := fun f =>
  if fclosed f then (Err EMeshClosed, f)
  else if (0 <? failConnects f)%Z then (Err EInjected, fake_with StateError (failConnects f - 1) f)
  else if in_time then (Ok tt, fake_with StateUp (failConnects f) f)
  else (Err ECtxDone, fake_with StateClosed (failConnects f) f).

Definition FakeDisconnect : action Fake mesh_error unit := fun f => (Ok tt, fake_with StateClosed (failConnects f) f).

Definition FakeClose (f : Fake) : Fake :=
  {| fcfg := fcfg f; fstate := StateClosed; fclosed := true; fpeers := fpeers f; failConnects := failConnects f |}.

Definition FakePeers (f : Fake) : result mesh_error (list PeerStatus) :=
  if bool_decide (fstate f = StateUp) then Ok (fpeers f) else Ok [].
Definition FakeLocalIP (f : Fake) : result mesh_error string :=
  if bool_decide (fstate f = StateUp) then Ok "100.92.0.1" else Ok "".

(** ** What the daemon relies on *)
Class Mesh := {
  mesh : Type;
  mesh_state : mesh -> MState;
  mesh_peers : mesh -> result mesh_error (list PeerStatus);
  mesh_local_ip : mesh -> result mesh_error string;
  mesh_stats : mesh -> result mesh_error MStats;
  mesh_logs : Z -> mesh -> list chars;
  mesh_configure : MConfig -> action mesh mesh_error unit;
  mesh_connect : action mesh mesh_error unit;
  mesh_disconnect : action mesh mesh_error unit;
  mesh_close : mesh -> mesh;
  mesh_connect_up m m' : mesh_connect m = (Ok tt, m') -> mesh_state m' = StateUp;
  mesh_configure_up cfg m : mesh_state (mesh_configure cfg m).2 = StateUp -> mesh_state m = StateUp;
  mesh_disconnect_closed m : mesh_state (mesh_disconnect m).2 = StateClosed;
  mesh_close_closed m : mesh_state (mesh_close m) = StateClosed }.

(** [log] is the buffer the embed client has written its output to. *)
#[export, refine] Instance netbird_mesh (ok : nat -> bool) (status : nat -> option FullStatus)
    (parse_prefix : string -> option string) (log : Netbird -> ringWriter) : Mesh := {|
  mesh := Netbird;
  mesh_state := nstate;
  mesh_peers := Peers status;
  mesh_local_ip := LocalIP status parse_prefix;
  mesh_stats := Stats status;
  mesh_logs tail n := Lines tail (log n);
  mesh_configure := Configure;
  mesh_connect := Connect ok;
  mesh_disconnect := Disconnect ok;
  mesh_close := Close |}.
Proof.
  - intros m m'. unfold Connect. case_match; [done|]. case_match; [done|].
    case_match. case_match; [by intros [= <-]|done].
  - intros cfg m. unfold Configure. by repeat case_match.
  - intros m. unfold Disconnect. by destruct (client m).
  - done.
Defined.

(** [now - upAt] in seconds and the time 30 seconds ago come from the clock. *)
Definition FakeStats (uptime ago30 : Z) (f : Fake) : result mesh_error MStats :=
  if bool_decide (fstate f = StateUp)
  then Ok {| PeerCount := Z.of_nat (length (fpeers f)); BytesIn := uptime * 1024; BytesOut := uptime * 256;
             StLastHandshake := ago30; RosenpassPeers := 0 |}
  else Ok zero_stats.

(** The fake's log lines are an argument; FakeMesh.v has them. *)
#[export, refine] Instance fake_mesh (in_time : bool) (uptime ago30 : Z) (flogs : Fake -> list chars) : Mesh := {|
  mesh := Fake;
  mesh_state := fstate;
  mesh_peers := FakePeers;
  mesh_local_ip := FakeLocalIP;
  mesh_stats := FakeStats uptime ago30;
  mesh_logs tail f := if (tail <=? 0)%Z || (Z.of_nat (length (flogs f)) <? tail)%Z then flogs f
                      else drop (length (flogs f) - Z.to_nat tail) (flogs f);
  mesh_configure := FakeConfigure;
  mesh_connect := FakeConnect in_time;
  mesh_disconnect := FakeDisconnect;
  mesh_close := FakeClose |}.
Proof.
  - intros m m'. unfold FakeConnect. case_match; [done|]. case_match; [done|].
    destruct in_time; [|done]. by intros [= <-].
  - intros cfg m. unfold FakeConfigure. by destruct (fclosed m).
  - done.
  - done.
Defined.

(** ** Connect as its two stretches under the lock

    What the first hands to the second; the client is built and started
    between them, without the lock. *)
Class MeshSections {M : Mesh} := {
  attempt_of : Type;
  connect_begin : action mesh mesh_error attempt_of;
  connect_finish : attempt_of -> action mesh mesh_error unit;
  connect_sections m : mesh_connect m = (t ← connect_begin; connect_finish t) m }.

Definition netbird_begin : action Netbird mesh_error options := fun n =>
  if nclosed n then (Err EMeshClosed, n)
  else if bool_decide (ManagementURL (ncfg n) = "") then (Err ENotConfigured, n)
  else (Ok (client_options n), set_nstate StateConfiguring n).
Definition netbird_finish (ok : nat -> bool) (o : options) : action Netbird mesh_error unit := fun n =>
  match (_ ← make_dirs ok [OConfigPath o; OStatePath o]; _ ← call ok EBuildClient; call ok EStart) n with
  | (Err e, n') => (Err e, set_nstate StateError n')
  | (Ok _, n') => (Ok tt, record_client o n')
  end.
#[export, refine] Instance netbird_sections ok status parse_prefix log : MeshSections (M := netbird_mesh ok status parse_prefix log) := 
  @Build_MeshSections (netbird_mesh ok status parse_prefix log) options netbird_begin (netbird_finish ok) _.
Proof.
  intros n. cbn. unfold Connect, mbind, action_bind, netbird_begin. destruct (nclosed n); [done|]. by case_bool_decide.
Defined.

Definition fake_begin : action Fake mesh_error unit := fun f =>
  if fclosed f then (Err EMeshClosed, f)
  else if (0 <? failConnects f)%Z then (Err EInjected, fake_with StateError (failConnects f - 1) f)
  else (Ok tt, fake_with StateConfiguring (failConnects f) f).
Definition fake_finish (in_time : bool) (_ : unit) : action Fake mesh_error unit := fun f =>
  if in_time then (Ok tt, fake_with StateUp (failConnects f) f) else (Err ECtxDone, fake_with StateClosed (failConnects f) f).
#[export, refine] Instance fake_sections in_time uptime ago30 flogs : MeshSections (M := fake_mesh in_time uptime ago30 flogs) := 
  @Build_MeshSections (fake_mesh in_time uptime ago30 flogs) unit fake_begin (fake_finish in_time) _.
Proof.
  intros f. cbn. unfold FakeConnect, mbind, action_bind, fake_begin, fake_finish. destruct (fclosed f); [done|].
  destruct (0 <? failConnects f)%Z; [done|]. by destruct in_time.
Defined.

(** ** Theorems *)
Lemma make_dirs_frame ok paths n :
  let n' := (make_dirs ok paths n).2 in
  live n' = live n /\ client n' = client n /\ next_client n' = next_client n /\ nclosed n' = nclosed n /\
  ncfg n' = ncfg n /\ deviceID n' = deviceID n.
Proof.
  revert n. induction paths as [|p ps IH]; intros n; cbn [make_dirs]; [done|].
  case_bool_decide; [apply IH|]. unfold mbind, action_bind, call.
  destruct (ok (nticks n)); [|done]. destruct (IH {| ncfg := ncfg n; client := client n; nstate := nstate n;
    nclosed := nclosed n; deviceID := deviceID n; live := live n; next_client := next_client n;
    nticks := S (nticks n) |}) as (?&?&?&?&?&?). done.
Qed.

(** The handle of an implementation: up exactly when it has a client, that
    client runs, and nothing else does. *)
Record netbird_ok (n : Netbird) : Prop := {
  nb_up : nstate n = StateUp -> is_Some (client n);
  nb_live : forall c, client n = Some c -> is_Some (live n !! c);
  nb_only : forall c, is_Some (live n !! c) -> client n = Some c;
  nb_next : forall c, is_Some (live n !! c) -> c < next_client n;
  nb_closed : nclosed n = true -> client n = None /\ nstate n = StateClosed }.

Lemma Connect_cases ok n :
  match Connect ok n with
  | (Ok _, n') =>
    nclosed n = false /\ ManagementURL (ncfg n) <> "" /\ nstate n' = StateUp /\ nclosed n' = false /\
    client n' = Some (next_client n) /\ live n' = <[next_client n := client_options n]> (live n) /\
    next_client n' = S (next_client n)
  | (Err _, n') =>
    live n' = live n /\ client n' = client n /\ next_client n' = next_client n /\ nclosed n' = nclosed n /\
    (n' = n \/ nstate n' = StateError /\ nclosed n = false)
  end.
Proof.
  unfold Connect. destruct (nclosed n) eqn:Ec; [by auto 10|]. case_bool_decide as Eu; [by auto 10|].
  pose proof (make_dirs_frame ok [ConfigPath (ncfg n); StatePath (ncfg n)] (set_nstate StateConfiguring n)) as H.
  unfold mbind at 1, action_bind at 1.
  destruct (make_dirs _ _ _) as [[[]|e] n1]; cbn [snd] in H; destruct H as (Hl & Hc & Hn & Hcl & _).
  - unfold mbind, action_bind, call. destruct (ok (nticks n1)); cbn [nticks].
    + destruct (ok (S (nticks n1))); cbn; rewrite Hn, Hl, Hcl, ?Hc; by auto 10.
    + cbn. rewrite Hn, Hl, Hcl, Hc. by auto 10.
  - cbn. rewrite Hn, Hl, Hcl, Hc. by auto 10.
Qed.

Lemma drop_client_ok closed n : netbird_ok n -> netbird_ok (drop_client closed n).
Proof.
  intros [H1 H2 H3 H4 H5]. split; cbn; try done.
  - intros c Hc. destruct (client n) as [c'|] eqn:E.
    + apply lookup_delete_is_Some in Hc as [Hne Hc]. specialize (H3 c Hc). congruence.
    + specialize (H3 c Hc). congruence.
  - intros c Hc. apply H4. destruct (client n); [by apply lookup_delete_is_Some in Hc as [_ ?]|done].
Qed.

(** The mesh handle does not lose its client, as long as it is brought up
    only when it holds none. From a fresh handle, whatever configurations are
    stored and whatever the embed client answers: a handle that says it is up
    holds the one client that runs; the client was started with the stored
    configuration, under the composed device name; Disconnect and Close leave
    no client running, even when stopping it fails; and after Close neither
    Configure nor Connect does anything. *)
Theorem netbird_lifecycle (ok : nat -> bool) (n : Netbird) (cfg : MConfig) :
  netbird_ok n ->
  netbird_ok (Configure cfg n).2 /\ netbird_ok (Disconnect ok n).2 /\ netbird_ok (Close n) /\
  (client n = None ->
   netbird_ok (Connect ok n).2 /\
   forall n', Connect ok n = (Ok tt, n') -> exists c, client n' = Some c /\ live n' = <[c := client_options n]> ∅) /\
  live (Disconnect ok n).2 = ∅ /\ live (Close n) = ∅ /\
  is_ok (Configure cfg (Close n)).1 = false /\ is_ok (Connect ok (Close n)).1 = false.
Proof.
  intros Hok. pose proof Hok as [H1 H2 H3 H4 H5].
  assert (client n = None -> live n = ∅) as Hnone.
  { intros E. apply map_eq. intros c. rewrite lookup_empty. destruct (live n !! c) eqn:El; [|done].
    specialize (H3 c ltac:(eauto)). congruence. }
  assert (live (drop_client true n) = ∅) as Hdrop.
  { cbn. destruct (client n) as [c|] eqn:E; [|by apply Hnone]. apply map_eq. intros c'. rewrite lookup_empty.
    destruct (decide (c' = c)) as [->|Hne]; [apply lookup_delete_eq|]. rewrite lookup_delete_ne by done.
    destruct (live n !! c') eqn:El; [|done]. specialize (H3 c' ltac:(eauto)). congruence. }
  assert (forall cl, netbird_ok (drop_client cl n)) as Hd by (intros; by apply drop_client_ok).
  split_and!.
  - unfold Configure. case_bool_decide; [done|]. case_bool_decide; [done|]. destruct (nclosed n) eqn:E; [done|].
    by split.
  - unfold Disconnect. destruct (client n) eqn:E; [|by apply Hd]. unfold call. destruct (Hd (nclosed n)). by split.
  - apply Hd.
  - intros Hc. pose proof (Connect_cases ok n) as HC. specialize (Hnone Hc). destruct (Connect ok n) as [[[]|e] n'].
    + destruct HC as (_ & _ & Hs & Hcl & Hcc & Hl & Hn). rewrite Hnone in Hl. split; cbn [snd].
      * split; rewrite ?Hcc, ?Hl, ?Hn; try done; intros c.
        -- intros [= <-]. rewrite lookup_insert_eq. by eauto.
        -- intros [<-|[_ [? ?]]]%lookup_insert_is_Some; [done|]. by rewrite lookup_empty in *.
        -- intros [<-|[_ [? ?]]]%lookup_insert_is_Some; [lia|]. by rewrite lookup_empty in *.
        -- congruence.
      * intros n'' [= <-]. eexists. by rewrite Hcc, Hl.
    + destruct HC as (Hl & Hcc & Hn & Hcl & Hst). split; [|done]. cbn [snd].
      split; rewrite ?Hl, ?Hcc, ?Hn, ?Hcl; try done.
      * by destruct Hst as [->|[-> _]].
      * intros Hcls. destruct (H5 Hcls). split; [done|]. destruct Hst as [->|[_ ?]]; [done|congruence].
  - unfold Disconnect. destruct (client n) eqn:E; cbn; rewrite ?E; [|by apply Hnone].
    unfold drop_client in Hdrop. cbn in Hdrop. by rewrite E in Hdrop.
  - done.
  - unfold Configure. by repeat case_bool_decide.
  - done.
Qed.

(** A second Connect without a Disconnect leaves the first client running,
    with nothing left to stop it. *)
Theorem second_Connect_leaks (ok : nat -> bool) (n n' : Netbird) (c : nat) :
  netbird_ok n -> client n = Some c -> Connect ok n = (Ok tt, n') ->
  is_Some (live n' !! c) /\ client n' <> Some c /\ is_Some ((live (Disconnect ok n').2) !! c).
Proof.
  intros [_ H2 _ H4 _] Hc HC. pose proof (Connect_cases ok n) as H. rewrite HC in H.
  destruct H as (_ & _ & _ & _ & Hcc & Hl & _). specialize (H2 c Hc). pose proof (H4 c H2).
  assert (is_Some (live n' !! c)) as Hs by (rewrite Hl, lookup_insert_ne by lia; done).
  split_and!; [done|rewrite Hcc; intros [= ?]; lia|].
  unfold Disconnect. rewrite Hcc. cbn. rewrite Hcc, lookup_delete_ne by lia. done.
Qed.

Lemma Write_bound p r : length (rbuf (Write p r)) <= rcap r.
Proof.
  unfold Write. destruct (Nat.leb_spec (length (rbuf r ++ p)) (rcap r)); [done|]. cbn [rbuf rcap].
  destruct (cut newline (drop (length (rbuf r ++ p) - rcap r) (rbuf r ++ p))) as [[h t]|]; rewrite length_drop; lia.
Qed.

Definition fresh_configured : Netbird :=
  (Configure {| SetupKey := "key"; ManagementURL := "https://mgmt"; PreferKernelWG := false; AdminAccessToken := "";
                CMobileCert := []; PreSharedKey := []; RosenpassEnabled := true; RosenpassPermissive := true;
                ConfigPath := "/p/config.json"; StatePath := "/p/state.json"; BundleDeviceID := "ops-laptop-04" |}
             (NewNetbird " phone ")).2.

Lemma fresh_configured_ok : netbird_ok fresh_configured.
Proof. split; try done; intros c [x Hx]; by vm_compute in Hx. Qed.

Lemma netbird_lifecycle_witness :
  ODeviceName (client_options fresh_configured) = "ops-laptop-04 (phone)" /\
  exists c n', Connect (fun _ => true) fresh_configured = (Ok tt, n') /\
    live n' = <[c := client_options fresh_configured]> ∅.
Proof.
  split; [vm_compute; reflexivity|].
  destruct (netbird_lifecycle (fun _ => true) fresh_configured zero_config fresh_configured_ok) as (_ & _ & _ & H & _).
  destruct (H eq_refl) as [_ H']. clear H.
  destruct (Connect (fun _ => true) fresh_configured) as [[[]|e] n'] eqn:E.
  - destruct (H' n' eq_refl) as (c & _ & Hl). exists c, n'. split; [reflexivity|exact Hl].
  - exfalso. vm_compute in E. discriminate E.
Defined.
