(* ===== verification/FakeMesh.v ===== *)
(** The mesh double in full: internal/innermesh/fake.go with the lines it logs,
    over the [Fake] of InnerMesh.v.

    An operation logs messages under the stamp of the clock; the log keeps the
    last 256 lines. *)
From stdpp Require Import base tactics list strings.
From Stdlib Require Import ZArith Ascii Lia.
From S2P Require Import Prelude GoStr GoFmt.
From S2P Require Import InnerMesh.
Local Open Scope list_scope.

Definition fakeLogCap : nat := 256.
Definition fake_peer (ip name kind remote relay : string) (ago rx tx ms now : Z) : PeerStatus :=
  {| IP := ip; PubKey := "fakepubkey-" +:+ name; FQDN := name +:+ ".goat"; Connected := true; Relayed := negb (bool_decide (relay = ""));
     LocalICEType := kind; RemoteICEType := remote; RelayAddress := relay; LastHandshake := (now - ago * second)%Z;
     BytesRx := rx; BytesTx := tx; Latency := (ms * 1000000)%Z |}.
Definition fakePeers (now : Z) : list PeerStatus :=
  [fake_peer "100.92.0.11" "alpha" "host" "srflx" "" 20 4096 2048 8 now;
   fake_peer "100.92.0.12" "bravo" "srflx" "srflx" "" 35 8192 1024 21 now;
   fake_peer "100.92.0.13" "charlie" "relay" "relay" "relay.goat:33073" 50 512 512 0 now].

Record logged := { core : Fake; log_lines : list string }.
Definition NewFake (now : Z) : logged :=
  {| core := {| fcfg := zero_config; fstate := StateClosed; fclosed := false; fpeers := fakePeers now; failConnects := 0 |}; log_lines := [] |}.
Definition LastConfig (f : logged) : MConfig := fcfg (core f).
Definition SetFailConnects (n : Z) (f : logged) : logged := {| core := fake_with (fstate (core f)) n (core f); log_lines := log_lines f |}.
Definition State (f : logged) : MState := fstate (core f).

Definition line (now : Z) (msg : string) : string := rfc3339 now +:+ " " +:+ msg.
Definition append_log (now : Z) (msg : string) (l : list string) : list string :=
  let l := l ++ [line now msg] in if fakeLogCap <? length l then drop (length l - fakeLogCap) l else l.
Definition Logs (tail : Z) (f : logged) : list string :=
  let l := log_lines f in
  if (tail <=? 0)%Z || (Z.of_nat (length l) <? tail)%Z then l else drop (length l - Z.to_nat tail) l.

(** The messages of an operation, by what it returned: [Connect] logs when it
    starts and when it is done, the others when they have done something. *)
Inductive fake_op := OpConfigure (cfg : MConfig) | OpConnect (in_time : bool) | OpDisconnect | OpClose.
Definition run_op (op : fake_op) (f : Fake) : result mesh_error unit * Fake :=
  match op with
  | OpConfigure cfg => FakeConfigure cfg f
  | OpConnect in_time => FakeConnect in_time f
  | OpDisconnect => FakeDisconnect f
  | OpClose => (Ok tt, FakeClose f)
  end.
Definition messages (op : fake_op) (r : result mesh_error unit) : list string :=
  match op, r with
  | OpConfigure _, Ok _ => ["configure: profile applied"]
  | OpConnect _, Ok _ => ["connect: configuring"; "connect: state=up"]
  | OpConnect _, Err EInjected => ["connect: injected failure"]
  | OpConnect _, Err ECtxDone => ["connect: configuring"; "connect: ctx canceled mid-connect"]
  | OpDisconnect, Ok _ => ["disconnect: state=closed"]
  | OpClose, Ok _ => ["close: released"]
  | _, _ => []
  end.
(** Each message comes with its own reading of the clock. *)
Definition do_op (clock : nat -> Z) (op : fake_op) (f : logged) : result mesh_error unit * logged :=
  let '(r, c) := run_op op (core f) in
  (r, {| core := c; log_lines := foldl (fun l im => append_log (clock im.1) im.2 l) (log_lines f) (imap pair (messages op r)) |}).

(** ** Theorems *)
Lemma append_log_lastn now msg l all : l = lastn fakeLogCap all -> append_log now msg l = lastn fakeLogCap (all ++ [line now msg]).
Proof.
  intros ->. unfold append_log. rewrite <-lastn_app_lastn. destruct (Nat.ltb_spec fakeLogCap (length (lastn fakeLogCap all ++ [line now msg]))); [done|].
  by rewrite (lastn_all _ (_ ++ _)).
Qed.
Lemma append_logs_lastn clock ms : forall l all, l = lastn fakeLogCap all ->
  foldl (fun l im => append_log (clock im.1) im.2 l) l ms = lastn fakeLogCap (all ++ ((fun im : nat * string => line (clock im.1) im.2) <$> ms)).
Proof.
  induction ms as [|[i m] ms IH]; intros l all Hl; cbn [foldl fmap list_fmap]; [by rewrite app_nil_r|].
  rewrite (IH _ (all ++ [line (clock i) m])) by by apply append_log_lastn. by rewrite <-app_assoc.
Qed.

(** What a run of operations writes, the log being of any length. *)
Fixpoint written (ops : list ((nat -> Z) * fake_op)) (f : Fake) : list string :=
  match ops with
  | [] => []
  | (clock, op) :: ops =>
    let '(r, f') := run_op op f in
    ((fun im : nat * string => line (clock im.1) im.2) <$> imap pair (messages op r)) ++ written ops f'
  end.
Definition run_ops (ops : list ((nat -> Z) * fake_op)) (f : logged) : logged := foldl (fun f p => (do_op p.1 p.2 f).2) f ops.

(** The log is a window of everything that was logged: after any operations it
    holds the last 256 lines written, in order, and [Logs] gives the last of them
    that were asked for, all of them when that is none or more than there are. *)
Theorem fake_log_window (now : Z) (ops : list ((nat -> Z) * fake_op)) (tail : Z) :
  let f := run_ops ops (NewFake now) in let all := written ops (core (NewFake now)) in
  log_lines f = lastn fakeLogCap all /\
  (Logs tail f = if (tail <=? 0)%Z then lastn fakeLogCap all else lastn (Nat.min fakeLogCap (Z.to_nat tail)) all).
Proof.
  cbv zeta. assert (log_lines (run_ops ops (NewFake now)) = lastn fakeLogCap (written ops (core (NewFake now)))) as Hl.
  { enough (forall f pre, log_lines f = lastn fakeLogCap pre -> log_lines (run_ops ops f) = lastn fakeLogCap (pre ++ written ops (core f))) as H
      by by apply (H _ []).
    induction ops as [|[clock op] ops IH]; intros f pre Hf; cbn [run_ops foldl written]; [by rewrite app_nil_r|].
    specialize (IH (do_op clock op f).2). unfold do_op in *. cbn [fst snd] in *. destruct (run_op op (core f)) as [r c]. cbn [snd core log_lines] in IH.
    rewrite app_assoc. apply IH. by apply append_logs_lastn. }
  split; [done|]. unfold Logs. rewrite Hl, length_lastn. set (all := written _ _). destruct (Z.leb_spec tail 0); [done|]. cbn [orb].
  destruct (Z.ltb_spec (Z.of_nat (Nat.min fakeLogCap (length all))) tail).
  - unfold lastn. f_equal. lia.
  - rewrite <-(lastn_lastn (Nat.min fakeLogCap (Z.to_nat tail)) fakeLogCap all) by lia.
    pose proof (length_lastn fakeLogCap all) as Hn. set (l := lastn fakeLogCap all) in *. unfold lastn. f_equal. lia.
Qed.

(** A mesh that failed to come up twice by injection, then came up. *)
Example fake_log_ok :
  let op o := ((fun _ => 0%Z), o) in
  Logs 3 (run_ops (op <$> [OpConfigure zero_config; OpConnect true; OpConnect true]) (SetFailConnects 1 (NewFake 0))) =
    ["1970-01-01T00:00:00Z connect: injected failure"; "1970-01-01T00:00:00Z connect: configuring"; "1970-01-01T00:00:00Z connect: state=up"].
Proof. vm_compute. reflexivity. Qed.
