(* ===== verification/FakeMgmt.v ===== *)
(** The doubles the mesh tests run against: internal/innermesh/fakemgmt
    (server.go, login.go, sync.go) and internal/innermesh/fakesignal/server.go.

    The netbird envelope - Curve25519 and ChaCha20Poly1305 over a protobuf - is
    [Envelope] and [Wire]. A call in progress is what it still has to do; the
    server's mutex is held by Stop while gRPC waits for the calls in progress. *)
From stdpp Require Import base tactics list strings.
From Stdlib Require Import ZArith Ascii Lia.
From S2P Require Import Prelude GoStr.
Local Open Scope list_scope.

(** wgtypes.Key and encryption.EncryptMessage, DecryptMessage: what is sealed
    between two keys opens between them. *)
Class Envelope := {
  key : Type;
  pubkey : Type;
  public : key -> pubkey;
  key_text : pubkey -> string;
  parse_key : string -> option pubkey;
  seal : pubkey -> key -> chars -> option chars;
  unseal : pubkey -> key -> chars -> option chars;
  parse_key_text p : parse_key (key_text p) = Some p;
  unseal_seal k k' m b : seal (public k) k' m = Some b -> unseal (public k') k b = Some m }.
(** A protobuf message. *)
Class Wire (A : Type) := {
  marshal : A -> option chars;
  unmarshal : chars -> option A;
  unmarshal_marshal a b : marshal a = Some b -> unmarshal b = Some a }.

Record EncryptedMessage := { WgPubKey : string; Body : chars }.
Record PeerConfig := { Address : string; Fqdn : string }.
(** HostConfig_Protocol of the management protocol. *)
Inductive protocol := UDP | TCP | HTTP | HTTPS | DTLS.
#[export] Instance protocol_eq_dec : EqDecision protocol.
Proof. solve_decision. Defined.
Record NetbirdConfig := { SignalUri : string; SignalProtocol : protocol }.
Record LoginResponse := { LPeerConfig : PeerConfig; LNetbirdConfig : NetbirdConfig }.
Record NetworkMap := { MSerial : Z; MPeerConfig : PeerConfig; RemotePeersIsEmpty : bool; FirewallRulesIsEmpty : bool }.
Record SyncResponse := { SNetbirdConfig : NetbirdConfig; SPeerConfig : PeerConfig; SNetworkMap : NetworkMap }.

Inductive fake_error := EParseKey | EDecrypt | EEncrypt | EStopped | EGenerateKey | EListen | ESignalServer | ESend.

Definition fakePeerAddress : string := "10.42.0.7/16".
Definition fakePeerFQDN : string := "fake-peer.fakemgmt.local".

Section fakemgmt.
Context {E : Envelope} {LoginRequest SyncRequest : Type}.
Context {WLogin : Wire LoginRequest} {WSync : Wire SyncRequest} {WLoginR : Wire LoginResponse} {WSyncR : Wire SyncResponse}.

Definition EncryptMessage {A} `{Wire A} (remote : pubkey) (mine : key) (m : A) : option chars := b ← marshal m; seal remote mine b.
Definition DecryptMessage {A} `{Wire A} (remote : pubkey) (mine : key) (b : chars) : option A := unseal remote mine b ≫= unmarshal.

(** [grpcSrv]: whether gRPC serves. *)
Record Server := {
  wgKey : key;
  signalURI : string;
  grpcSrv : bool;
  addr : string;
  stopped : bool;
  lastLogin : option LoginRequest }.

(** Options are applied in order; the last signal address wins. *)
Inductive Option := WithSignalURI (uri : string).
Definition apply_option (s : Server) (o : Option) : Server :=
  match o with
  | WithSignalURI uri =>
    {| wgKey := wgKey s; signalURI := uri; grpcSrv := grpcSrv s; addr := addr s; stopped := stopped s; lastLogin := lastLogin s |}
  end.
Definition NewServer (generated : option key) (opts : list Option) : result fake_error Server :=
  k ← of_option EGenerateKey generated;
  Ok (foldl apply_option {| wgKey := k; signalURI := ""; grpcSrv := false; addr := ""; stopped := false; lastLogin := None |} opts).

(** Serve up to the point where gRPC takes calls. *)
Definition Serve (ln_addr : string) : action Server fake_error unit := fun s =>
  if stopped s then (Err EStopped, s)
  else (Ok tt, {| wgKey := wgKey s; signalURI := signalURI s; grpcSrv := true; addr := if bool_decide (addr s = "") then ln_addr else addr s;
                  stopped := stopped s; lastLogin := lastLogin s |}).
Definition Addr (s : Server) : string := addr s.
Definition LastLogin (s : Server) : option LoginRequest := lastLogin s.
Definition PublicKey (s : Server) : pubkey := public (wgKey s).

(** The server [Listen] hands out, its goroutine in Serve. *)
Definition Listen (generated : option key) (opts : list Option) (bound : option string) : result fake_error Server :=
  s ← NewServer generated opts;
  a ← of_option EListen bound;
  Ok {| wgKey := wgKey s; signalURI := signalURI s; grpcSrv := grpcSrv s; addr := a; stopped := stopped s; lastLogin := lastLogin s |}.

(** ** The calls *)
Definition GetServerKey (s : Server) : string := key_text (public (wgKey s)).

Definition peerConfig : PeerConfig := {| Address := fakePeerAddress; Fqdn := fakePeerFQDN |}.
Definition netbirdConfig (s : Server) : NetbirdConfig := {| SignalUri := signalURI s; SignalProtocol := HTTP |}.

(** Up to the lock: whose request it is, and the request. *)
Definition open_login (msg : EncryptedMessage) (s : Server) : result fake_error (pubkey * LoginRequest) :=
  clientPubKey ← of_option EParseKey (parse_key (WgPubKey msg));
  req ← of_option EDecrypt (DecryptMessage clientPubKey (wgKey s) (Body msg));
  Ok (clientPubKey, req).
Definition store_login (req : LoginRequest) (s : Server) : Server :=
  {| wgKey := wgKey s; signalURI := signalURI s; grpcSrv := grpcSrv s; addr := addr s; stopped := stopped s; lastLogin := Some req |}.
Definition answer_login (clientPubKey : pubkey) (s : Server) : result fake_error EncryptedMessage :=
  body ← of_option EEncrypt (EncryptMessage clientPubKey (wgKey s) {| LPeerConfig := peerConfig; LNetbirdConfig := netbirdConfig s |});
  Ok {| WgPubKey := GetServerKey s; Body := body |}.
Definition Login (msg : EncryptedMessage) : action Server fake_error EncryptedMessage := fun s =>
  match open_login msg s with
  | Err e => (Err e, s)
  | Ok (clientPubKey, req) => let s := store_login req s in (answer_login clientPubKey s, s)
  end.

Definition sync_response (s : Server) : SyncResponse :=
  {| SNetbirdConfig := netbirdConfig s; SPeerConfig := peerConfig;
     SNetworkMap := {| MSerial := 1; MPeerConfig := peerConfig; RemotePeersIsEmpty := true; FirewallRulesIsEmpty := true |} |}.
(** The one message the stream gets, before Sync waits for the client. *)
Definition Sync (msg : EncryptedMessage) (s : Server) : result fake_error EncryptedMessage :=
  clientPubKey ← of_option EParseKey (parse_key (WgPubKey msg));
  _ ← of_option EDecrypt (DecryptMessage (A := SyncRequest) clientPubKey (wgKey s) (Body msg));
  body ← of_option EEncrypt (EncryptMessage clientPubKey (wgKey s) (sync_response s));
  Ok {| WgPubKey := GetServerKey s; Body := body |}.

(** What a client with a key of its own makes of the server: it asks for its
    key, seals a request, opens the answer. *)
Definition client_seal {A} `{Wire A} (k : key) (s : Server) (m : A) : option EncryptedMessage :=
  remote ← parse_key (GetServerKey s); b ← EncryptMessage remote k m; Some {| WgPubKey := key_text (public k); Body := b |}.
Definition client_open {A} `{Wire A} (k : key) (msg : EncryptedMessage) : option A :=
  remote ← parse_key (WgPubKey msg); DecryptMessage remote k (Body msg).

(** ** Calls in progress and Stop *)
Inductive rpc := Storing (req : LoginRequest) | Stored | Streaming.
(** [stopping]: Stop holds the mutex and waits in GracefulStop. *)
Record live := { srv : Server; calls : list rpc; stopping : bool }.
Definition with_calls (l : list rpc) (w : live) : live := {| srv := srv w; calls := l; stopping := stopping w |}.
Definition mark_stopped (s : Server) : Server :=
  {| wgKey := wgKey s; signalURI := signalURI s; grpcSrv := grpcSrv s; addr := addr s; stopped := true; lastLogin := lastLogin s |}.

Inductive live_move :=
  | Arrive (r : rpc)       (* a call whose message was opened, while gRPC takes calls *)
  | Store (i : nat)        (* Login takes the mutex *)
  | Return (i : nat)       (* a login returns, or a stream whose client went away *)
  | Stop
  | StopReturns.
Definition live_do (m : live_move) (w : live) : option live :=
  match m with
  | Arrive r => if grpcSrv (srv w) && negb (stopped (srv w)) then Some (with_calls (calls w ++ [r]) w) else None
  | Store i =>
    match calls w !! i with
    | Some (Storing req) =>
      if stopping w then None
      else Some {| srv := store_login req (srv w); calls := <[i := Stored]> (calls w); stopping := stopping w |}
    | _ => None
    end
  | Return i =>
    match calls w !! i with
    | Some Stored | Some Streaming => Some (with_calls (delete i (calls w)) w)
    | _ => None
    end
  | Stop =>
    if stopping w then None
    else if stopped (srv w) then Some w
    else Some {| srv := mark_stopped (srv w); calls := calls w; stopping := grpcSrv (srv w) |}
  | StopReturns => if stopping w && bool_decide (calls w = []) then Some {| srv := srv w; calls := []; stopping := false |} else None
  end.
Definition live_step (w : live) (m : live_move) (w' : live) : Prop := live_do m w = Some w'.

(** ** Theorems *)
Lemma client_seal_opens {A} {WA : Wire A} k s (m : A) msg :
  client_seal k s m = Some msg ->
  parse_key (WgPubKey msg) = Some (public k) /\ DecryptMessage (public k) (wgKey s) (Body msg) = Some m.
Proof.
  unfold client_seal, GetServerKey, EncryptMessage, DecryptMessage. rewrite parse_key_text. cbn [mbind option_bind].
  destruct (marshal m) as [b|] eqn:Em; [|done]. cbn [mbind option_bind].
  destruct (seal _ _ b) as [c|] eqn:Es; [|done]. intros [= <-]. cbn [WgPubKey Body].
  rewrite parse_key_text, (unseal_seal _ _ _ _ Es). split; [done|]. by apply unmarshal_marshal.
Qed.

Lemma client_opens {A} {WA : Wire A} k s (m : A) body :
  EncryptMessage (public k) (wgKey s) m = Some body ->
  client_open k {| WgPubKey := GetServerKey s; Body := body |} = Some m.
Proof.
  unfold client_open, EncryptMessage, DecryptMessage, GetServerKey. cbn [WgPubKey Body]. rewrite parse_key_text. cbn [mbind option_bind].
  destruct (marshal m) as [b|] eqn:Em; [|done]. cbn [mbind option_bind]. intros Hs.
  rewrite (unseal_seal _ _ _ _ Hs). by apply unmarshal_marshal.
Qed.

Lemma answered_or {A} (f : chars -> A) (o : option chars) :
  (of_option EEncrypt o ≫= fun b => Ok (f b)) = Err EEncrypt \/ exists out, (of_option EEncrypt o ≫= fun b => Ok (f b)) = Ok out.
Proof. destruct o; cbn; eauto. Qed.

(** The fake answers as netbird's client expects. A client that asks for the
    server's key, seals its login and its sync request with it and opens the
    answers gets, whenever they could be written, the same peer configuration from
    Login, from Sync and in the network map, and the signal address the server was
    made with; the login that was sent is the one the server shows. A message
    under no key, or one that does not open, is refused and leaves no trace. *)
Theorem handshake_consistent (s s' : Server) (k : key) (req : LoginRequest) (sreq : SyncRequest) (msg smsg : EncryptedMessage)
    (r : result fake_error EncryptedMessage) :
  client_seal k s req = Some msg -> client_seal k s sreq = Some smsg -> Login msg s = (r, s') ->
  LastLogin s' = Some req /\ (r = Err EEncrypt \/ exists out, r = Ok out) /\
  (forall out, r = Ok out -> exists lr, client_open k out = Some lr /\ LPeerConfig lr = peerConfig /\ SignalUri (LNetbirdConfig lr) = signalURI s) /\
  (Sync smsg s' = Err EEncrypt \/ exists out, Sync smsg s' = Ok out) /\
  (forall out, Sync smsg s' = Ok out -> exists sr, client_open k out = Some sr /\ SPeerConfig sr = peerConfig /\
     MPeerConfig (SNetworkMap sr) = peerConfig /\ SignalUri (SNetbirdConfig sr) = signalURI s) /\
  (forall bad e s1, open_login bad s = Err e -> Login bad s = (Err e, s1) -> s1 = s).
Proof.
  intros Hm Hs Hl. apply client_seal_opens in Hm as [Hk Hd]. apply client_seal_opens in Hs as [Hk' Hd'].
  unfold Login in Hl. assert (open_login msg s = Ok (public k, req)) as Ho by (unfold open_login; by rewrite Hk; cbn; rewrite Hd).
  rewrite Ho in Hl. injection Hl as <- <-. split; [done|].
  set (s' := store_login req s). assert (Sync smsg s' = of_option EEncrypt (EncryptMessage (public k) (wgKey s') (sync_response s')) ≫= fun body =>
    Ok {| WgPubKey := GetServerKey s'; Body := body |}) as Hsync by (unfold Sync; rewrite Hk'; cbn [of_option]; cbn; by rewrite Hd').
  rewrite Hsync. clear Hsync. unfold answer_login. split_and!.
  - apply answered_or.
  - intros out Hout. destruct (EncryptMessage _ _ _) as [body|] eqn:Ee; [|done]. injection Hout as <-.
    eexists. split; [exact (client_opens k s' _ body Ee)|]. by split_and!.
  - apply answered_or.
  - intros out Hout. destruct (EncryptMessage _ _ (sync_response s')) as [body|] eqn:Ee; [|done]. injection Hout as <-.
    eexists. split; [exact (client_opens k s' _ body Ee)|]. by split_and!.
  - intros bad e s1 Hb. unfold Login. rewrite Hb. by intros [= <-].
Qed.

(** Stop waits for the calls in progress with the mutex in its hand, and a login
    that was let in needs it: neither ever gets on. *)
Definition deadlocked (w : live) : Prop := stopping w = true /\ exists req, Storing req ∈ calls w.

Lemma deadlocked_step w m w' : deadlocked w -> live_do m w = Some w' -> deadlocked w'.
Proof.
  intros [Hs (req & Hr)]. destruct m as [r|i|i| |]; cbn [live_do].
  - destruct (grpcSrv _ && _); [|done]. intros [= <-]. split; [done|]. exists req. cbn. apply elem_of_app. by left.
  - destruct (calls w !! i) as [[]|]; try done. by rewrite Hs.
  - destruct (calls w !! i) as [c|] eqn:Ec; [|done].
    assert (c <> Storing req -> deadlocked (with_calls (delete i (calls w)) w)) as Hd.
    { intros Hne. split; [done|]. exists req. cbn. apply list_elem_of_lookup in Hr as [j Hj].
      assert (j <> i) as Hji by (intros ->; congruence). apply list_elem_of_lookup.
      destruct (decide (j < i)); [exists j; by rewrite list_lookup_delete_lt|]. exists (j - 1).
      rewrite list_lookup_delete_ge by lia. by replace (S (j - 1)) with j by lia. }
    destruct c; try done; intros [= <-]; by apply Hd.
  - by rewrite Hs.
  - rewrite Hs. case_bool_decide as Hc; [|done]. rewrite Hc in Hr. by apply elem_of_nil in Hr.
Qed.
Theorem stop_deadlocks_with_login (w w' : live) :
  deadlocked w -> reachable live_step (fun v => v = w) w' -> stopping w' = true /\ live_do StopReturns w' = None.
Proof.
  intros Hw Hr. assert (deadlocked w') as [Hs (req & Hin)].
  { revert w' Hr. apply reachable_invariant; [by intros v ->|]. intros v m v' Hv Hm. by eapply deadlocked_step. }
  split; [done|]. cbn [live_do]. rewrite Hs. case_bool_decide as Hc; [|done]. rewrite Hc in Hin. by apply elem_of_nil in Hin.
Qed.
End fakemgmt.

(** ** The signal server *)
Record SignalServer := { sgSrv : bool; sgAddr : string; sgStopped : bool }.
Definition Signal_Listen (upstream : bool) (bound : option string) : result fake_error SignalServer :=
  _ ← (if upstream then Ok tt else Err ESignalServer);
  a ← of_option EListen bound;
  Ok {| sgSrv := true; sgAddr := a; sgStopped := false |}.
Definition Signal_Stop (s : SignalServer) : SignalServer := {| sgSrv := sgSrv s; sgAddr := sgAddr s; sgStopped := true |}.
Definition Signal_Addr (s : SignalServer) : string := sgAddr s.

(** ** Keys that are lengths *)
Module ToyEnvelope.
Definition marks (n : nat) : chars := replicate n "x"%char.
(** A sealed text is the text under as many marks as both keys are long. *)
Definition under (n : nat) : chars := marks n ++ ["|"%char].
#[export, refine] Instance envelope : Envelope := {|
  key := nat; pubkey := nat; public k := k; key_text p := l2s (marks p); parse_key t := Some (length (s2l t));
  seal p k m := Some (under (p + k) ++ m); unseal p k b := strip_prefix (under (p + k)) b |}.
Proof.
  - intros p. unfold marks. by rewrite s2l_l2s, length_replicate.
  - intros k k' m b [= <-]. apply strip_prefix_Some. by rewrite (Nat.add_comm k').
Defined.
#[export, refine] Instance wire_text : Wire chars := {| marshal := Some; unmarshal := Some |}.
Proof. congruence. Defined.
#[export] Instance PeerConfig_eq_dec : EqDecision PeerConfig.
Proof. solve_decision. Defined.
#[export] Instance NetworkMap_eq_dec : EqDecision NetworkMap.
Proof. solve_decision. Defined.
(** The fake's answers differ in the signal address only. *)
#[export, refine] Instance wire_login : Wire LoginResponse := {|
  marshal r := if decide (LPeerConfig r = peerConfig /\ SignalProtocol (LNetbirdConfig r) = HTTP) then Some (s2l (SignalUri (LNetbirdConfig r))) else None;
  unmarshal b := Some {| LPeerConfig := peerConfig; LNetbirdConfig := {| SignalUri := l2s b; SignalProtocol := HTTP |} |} |}.
Proof. intros [pc [uri pr]] b. cbn. case_decide as Hp; [|done]. intros [= <-]. destruct Hp as [-> ->]. by rewrite l2s_s2l. Defined.
Definition empty_map : NetworkMap :=
  {| MSerial := 1; MPeerConfig := peerConfig; RemotePeersIsEmpty := true; FirewallRulesIsEmpty := true |}.
#[export, refine] Instance wire_sync : Wire SyncResponse := {|
  marshal r := if decide (SPeerConfig r = peerConfig /\ SNetworkMap r = empty_map /\ SignalProtocol (SNetbirdConfig r) = HTTP) then Some (s2l (SignalUri (SNetbirdConfig r))) else None;
  unmarshal b := Some {| SNetbirdConfig := {| SignalUri := l2s b; SignalProtocol := HTTP |}; SPeerConfig := peerConfig; SNetworkMap := empty_map |} |}.
Proof. intros [[uri pr] pc nm] b. cbn. case_decide as Hp; [|done]. intros [= <-]. destruct Hp as (-> & -> & ->). by rewrite l2s_s2l. Defined.

Definition fake : Server (LoginRequest := chars) :=
  match Listen (Some 3) [WithSignalURI "127.0.0.1:7"] (Some "127.0.0.1:9") with Ok s => s | Err _ => Build_Server 0 "" false "" false None end.
Lemma handshake_consistent_witness :
  exists out s' lr, Login (LoginRequest := chars) {| WgPubKey := "xxxxx"; Body := under 8 ++ s2l "laptop" |} fake = (Ok out, s') /\
    LastLogin s' = Some (s2l "laptop") /\ client_open (A := LoginResponse) 5 out = Some lr /\ SignalUri (LNetbirdConfig lr) = "127.0.0.1:7".
Proof.
  destruct (Login (LoginRequest := chars) {| WgPubKey := "xxxxx"; Body := under 8 ++ s2l "laptop" |} fake) as [r s'] eqn:El.
  assert (client_seal (E := envelope) 5 fake (s2l "laptop") = Some {| WgPubKey := "xxxxx"; Body := under 8 ++ s2l "laptop" |}) as Hm
    by (vm_compute; reflexivity).
  assert (client_seal (E := envelope) 5 fake (s2l "sync") = Some {| WgPubKey := "xxxxx"; Body := under 8 ++ s2l "sync" |}) as Hs
    by (vm_compute; reflexivity).
  destruct (handshake_consistent (SyncRequest := chars) fake s' 5 (s2l "laptop") (s2l "sync") _ _ r Hm Hs El) as (H1 & _ & H2 & _).
  destruct r as [out|e]; [|vm_compute in El; discriminate El].
  destruct (H2 out eq_refl) as (lr & Hlr & _ & Hu). exists out, s', lr. split; [reflexivity|]. split; [exact H1|]. split; [exact Hlr|].
  rewrite Hu. vm_compute. reflexivity.
Defined.

(** A login is let in, then Stop is called. *)
Definition serving : Server (E := envelope) (LoginRequest := chars) :=
  @Build_Server envelope chars 3 "" true "a" false None.
Definition login_then_stop : live :=
  {| srv := mark_stopped serving;
     calls := [Storing (s2l "laptop")]; stopping := true |}.
Lemma stop_deadlocks_with_login_witness :
  (exists w0, calls w0 = [] /\ drive live_do w0 [Arrive (Storing (s2l "laptop")); Stop] = login_then_stop) /\
  live_do (LoginRequest := chars) StopReturns login_then_stop = None.
Proof.
  split; [exists {| srv := serving; calls := []; stopping := false |}; split; reflexivity|].
  apply (stop_deadlocks_with_login (E := envelope) login_then_stop login_then_stop).
  - split; [reflexivity|]. exists (s2l "laptop"). by left.
  - by apply reach_init.
Defined.
End ToyEnvelope.
