(* ===== verification/Dialer.v ===== *)
(** The gRPC dialer of the management API: internal/ipc/grpc/dialer.go.

    crypto/x509 and grpc.DialContext are what it is given; a connection is made
    of the address, the time it may take and the options, in order. *)
From stdpp Require Import base tactics sets list strings.
From Stdlib Require Import ZArith Ascii Lia.
From S2P Require Import Prelude GoStr.
Local Open Scope list_scope.

(** x509.CertPool: what a pool trusts after certificates of a PEM text were
    added; [append_certs] is [None] when the text has none. *)
Class CertPools := {
  certificate : Type;
  cert_pool : Type;
  trusts : cert_pool -> certificate -> Prop;
  empty_pool : cert_pool;
  append_certs : cert_pool -> chars -> option cert_pool;
  certs_of : chars -> list certificate;
  empty_trusts c : ~ trusts empty_pool c;
  append_trusts p pem p' c : append_certs p pem = Some p' -> trusts p' c <-> trusts p c \/ c ∈ certs_of pem }.

Section dialer.
Context {CP : CertPools} {extra : Type}.

Inductive transport := Insecure | TLS (roots : cert_pool) (serverName : string).
Inductive dial_option :=
  | WithTransport (t : transport)
  | WithBlock
  | WithKeepalive (time timeout : Z)
  | Extra (o : extra).
Record dialing := { d_addr : string; d_timeout : Z; d_opts : list dial_option }.
Inductive dial_error := ERootUnparsed | EDial (e : string).

(** [goatOfflineCARoot] is compiled in; [js] is the platform "js"; the system's
    pool is [None] when there is none. *)
Context (goatOfflineCARoot : chars) (js : bool) (system_pool : option cert_pool).

Definition server_name (addr : string) : string := match split_host_port addr with Some (h, _) => h | None => addr end.
Definition transport_for (addr : string) (tlsEnabled : bool) : result dial_error transport :=
  if tlsEnabled && negb js then
    roots ← of_option ERootUnparsed (append_certs (default empty_pool system_pool) goatOfflineCARoot);
    Ok (TLS roots (server_name addr))
  else Ok Insecure.
Definition CreateConnection {conn} (dial : dialing -> result string conn) (addr : string) (tlsEnabled : bool) (extraOpts : list extra)
    : result dial_error conn :=
  t ← transport_for addr tlsEnabled;
  map_err EDial (dial {| d_addr := addr; d_timeout := (30 * second)%Z;
                         d_opts := [WithTransport t; WithBlock; WithKeepalive (30 * second) (10 * second)] ++ (Extra <$> extraOpts) |}).

(** A dial with TLS trusts the roots of the system and the goat root compiled in,
    and those only, and checks the certificate against the host without its port;
    without a goat root that parses there is no dial at all. What comes back is
    what that dial gave. *)
Theorem dials_with_goat_root {conn} (dial : dialing -> result string conn) addr extraOpts r :
  js = false -> CreateConnection dial addr true extraOpts = r ->
  (append_certs (default empty_pool system_pool) goatOfflineCARoot = None -> r = Err ERootUnparsed) /\
  (forall p, append_certs (default empty_pool system_pool) goatOfflineCARoot = Some p ->
     exists d roots name rest, d_addr d = addr /\ d_opts d = WithTransport (TLS roots name) :: rest /\ r = map_err EDial (dial d) /\
       (forall c, trusts roots c <-> (exists s, system_pool = Some s /\ trusts s c) \/ c ∈ certs_of goatOfflineCARoot) /\
       (forall host port, addr = join_host_port host port -> no_brackets host -> no_brackets port -> ":"%char ∉ s2l port -> name = host) /\
       (split_host_port addr = None -> name = addr)).
Proof.
  intros Hj <-. unfold CreateConnection, transport_for. rewrite Hj. cbn [negb andb]. split.
  - by intros ->.
  - intros p Hp. rewrite Hp. cbn [of_option mbind result_bind].
    eexists {| d_addr := addr; d_timeout := _; d_opts := _ |}, p, (server_name addr), _.
    split; [reflexivity|]. split; [reflexivity|]. split; [reflexivity|]. split_and!.
    + intros c. rewrite (append_trusts _ _ _ c Hp). destruct system_pool as [s|]; cbn [default]; [naive_solver|].
      pose proof (empty_trusts c). naive_solver.
    + intros host port -> H1 H2 H3. unfold server_name. by rewrite split_join_host_port.
    + intros Hs. unfold server_name. by rewrite Hs.
Qed.
End dialer.

(** ** Pools that are lists of bytes *)
Module ToyPools.
#[export, refine] Instance pools : CertPools := {|
  certificate := ascii; cert_pool := chars; trusts p c := c ∈ p; empty_pool := [];
  append_certs p pem := match pem with [] => None | _ => Some (p ++ pem) end; certs_of pem := pem |}.
Proof.
  - intros c Hc. by apply elem_of_nil in Hc.
  - intros p [|a l] p' c; [done|]. intros [= <-]. by rewrite elem_of_app.
Defined.
Lemma dials_with_goat_root_witness : exists roots rest,
  CreateConnection (extra := unit) (s2l "g") false (Some (s2l "s" : @cert_pool pools)) Ok "[fd00::1]:443" true [] =
    Ok {| d_addr := "[fd00::1]:443"; d_timeout := (30 * second)%Z; d_opts := WithTransport (TLS roots "fd00::1") :: rest |} /\
  trusts roots "g"%char.
Proof.
  destruct (dials_with_goat_root (extra := unit) (s2l "g") false (Some (s2l "s" : @cert_pool pools)) Ok "[fd00::1]:443" [] _ eq_refl eq_refl) as [_ H].
  destruct (H _ eq_refl) as (d & roots & name & rest & Ha & Ho & Hr & Ht & Hn & _).
  assert (name = "fd00::1") as -> by (apply (Hn "fd00::1" "443"); [reflexivity|split; by apply contains_false|split; by apply contains_false|by apply contains_false]).
  exists roots, rest. split; [|apply Ht; right; by left]. vm_compute in Hr. injection Hr as Hr. rewrite <-Hr in Ho. cbn in Ho.
  injection Ho as Hroots Hrest. rewrite <-Hroots, <-Hrest. vm_compute. reflexivity.
Defined.
End ToyPools.
