(* ===== verification/MobileBundle.v ===== *)
(** What the two mobile clients share: the stored bundle of
    src/mobile/{android,ios}/GoatClientSDK, its verification against the
    compiled-in anchors, its capabilities.

    [Disk] maps paths to contents; an import writes a temporary file beside the
    bundle and renames it. [FileCalls] tells which system calls succeed. *)
From stdpp Require Import base tactics list gmap strings.
From Stdlib Require Import ZArith Ascii Lia.
From S2P Require Import Prelude GoStr.
From S2P Require Import Bundle.
From S2P Require Import TrustAnchor.
From S2P Require Import Tunnel.
From S2P Require Import InnerMesh.
From S2P Require Import Uapi.
From S2P Require Import Devices.
Local Open Scope list_scope.

Abbreviation Disk := (gmap string chars).

(** Which calls of an import succeed, and what a failed write leaves in the
    temporary file. *)
Record FileCalls := { mkdir_ok : bool; write_ok : bool; rename_ok : bool; remove_ok : bool; torn : chars }.

(** The reasons of a failure. *)
Inductive client_error :=
  | EEmptyPayload
  | ENoFiles
  | EEmptyPath
  | ENoBundleImported
  | EReadBundle
  | EParseBundle (msg : string)
  | ERebuildSignable
  | EVerifyBundle (e : anchor_verify_error)
  | EBundleExpiry (e : expiry_error)
  | EKeypairUnpaired (msg : string)
  | EMkdirParent
  | EWriteTemp
  | ERenameBundle
  | EInnerMesh (e : mesh_error)
  | ETunnelConfig (e : tunnel_error)
  | EVpnService
  | EVpnFd (fd : Z)
  | EEngine (e : mobile_error)
  | ERenewFd (fd : Z)
  | ERenewUnsupported.

Section shared.
Context {K : BundleCodec} {C : Crypto} (embedded : AnchorSet (C := C)).

(** Unmarshal, Signable, Verify against the anchors, CheckExpiry; [now] is the
    time of the check. *)
Definition verified_bundle (now : Z) (raw : chars) : result client_error EnrollmentBundle :=
  parsed ← map_err EParseBundle (Unmarshal raw);
  signable ← of_option ERebuildSignable (Signable parsed);
  _ ← map_err EVerifyBundle (Verify embedded now (Signature parsed) signable);
  _ ← map_err EBundleExpiry (CheckExpiry parsed now);
  Ok parsed.

(** MkdirAll, WriteFile of the temporary file, Rename. *)
Definition write_bundle (k : FileCalls) (path : string) (raw : chars) : action Disk client_error unit := fun d =>
  let tmp := path +:+ ".tmp" in
  if negb (mkdir_ok k) then (Err EMkdirParent, d)
  else if negb (write_ok k) then (Err EWriteTemp, <[tmp := torn k]> d)
  else if negb (rename_ok k) then (Err ERenameBundle, if remove_ok k then delete tmp d else <[tmp := raw]> d)
  else (Ok tt, <[path := raw]> (delete tmp d)).

(** The checks and the write of an import. *)
Definition store_import (k : FileCalls) (now : Z) (path : string) (raw : chars) : action Disk client_error unit :=
  parsed ← lift (verified_bundle now raw);
  _ ← lift (map_err EKeypairUnpaired (CheckCPDeviceKeypair parsed));
  write_bundle k path raw.

Definition bool_text (b : bool) : string := if b then "true" else "false".
(** dquote s dquote *)
Definition quoted (s : string) : string := String.String dquote s +:+ String.String dquote "".
Definition capsJSON (wgCp0 innerMesh hasMobileCert : bool) : string :=
  "{" +:+ quoted "wg_cp0" +:+ ":" +:+ bool_text wgCp0 +:+ "," +:+ quoted "inner_mesh" +:+ ":" +:+ bool_text innerMesh +:+
  "," +:+ quoted "has_mobile_cert" +:+ ":" +:+ bool_text hasMobileCert +:+ "}".

(** The capabilities of the file at [path], none when it cannot be read. *)
Definition stored_capabilities (path : string) (d : Disk) : string :=
  match d !! path with
  | None => capsJSON false false false
  | Some raw =>
    match Unmarshal raw with
    | Err _ => capsJSON false false false
    | Ok parsed => capsJSON (HasWgCp0 parsed) (HasInnerMesh parsed) (HasMobileCert parsed)
    end
  end.

(** mode == "wg-cp0-only" || mode == "combined", and the other. *)
Definition hasOuter (mode : string) : bool := bool_decide (mode = "wg-cp0-only" \/ mode = "combined").
Definition hasInner (mode : string) : bool := bool_decide (mode = "netbird-only" \/ mode = "combined").
Definition or_default (mode : string) : string := if bool_decide (mode = "") then "wg-cp0-only" else mode.

(** Bringing the inner mesh up on a fresh handle: FromBundle, Configure, Connect.
    The second component is the handle that was closed because one of the last
    two failed. *)
Definition start_mesh {M : Mesh} (fresh : mesh) (b : EnrollmentBundle) : result client_error mesh * option mesh :=
  match FromBundle (Some b) with
  | Err e => (Err (EInnerMesh e), None)
  | Ok imCfg =>
    match mesh_configure imCfg fresh with
    | (Err e, m) => (Err (EInnerMesh e), Some (mesh_close m))
    | (Ok _, m) =>
      match mesh_connect m with
      | (Err e, m) => (Err (EInnerMesh e), Some (mesh_close m))
      | (Ok _, m) => (Ok m, None)
      end
    end
  end.

(** mesh.Disconnect and mesh.Close *)
Definition release_mesh {M : Mesh} (m : mesh) : mesh := mesh_close (mesh_disconnect m).2.

(** ** Lemmas *)

(** A bundle the anchors vouch for at [now]. *)
Definition trusted_at (now : Z) (raw : chars) (b : EnrollmentBundle) : Prop :=
  Unmarshal raw = Ok b /\ (now <= ExpiresAt b)%Z /\
  exists payload a, Signable b = Some payload /\ Verify embedded now (Signature b) payload = Ok a.

Lemma verified_bundle_Ok now raw b : verified_bundle now raw = Ok b <-> trusted_at now raw b.
Proof.
  unfold verified_bundle, trusted_at. rewrite bind_Ok. setoid_rewrite map_err_Ok. split.
  - intros (b' & Hu & H). apply bind_Ok in H as (payload & Hp & H). apply bind_Ok in H as (a & Hv%map_err_Ok & H).
    apply bind_Ok in H as ([] & He%map_err_Ok & [= ->]).
    unfold CheckExpiry in He. destruct (Z.ltb_spec (ExpiresAt b) now); [done|]. split_and!; [done|lia|].
    exists payload, a. split; [|done]. by destruct (Signable b); simplify_eq/=.
  - intros (Hu & He & payload & a & Hp & Hv). exists b. split; [done|]. rewrite Hp. cbn. rewrite Hv. cbn.
    unfold CheckExpiry. destruct (Z.ltb_spec (ExpiresAt b) now); [lia|done].
Qed.

Lemma tmp_ne path : path +:+ ".tmp" <> path.
Proof. intros H. apply (f_equal s2l), (f_equal length) in H. rewrite s2l_app, length_app in H. cbn in H. lia. Qed.

Lemma write_bundle_spec k path raw d :
  let '(r, d') := write_bundle k path raw d in
  d' !! path = (if is_ok r then Some raw else d !! path) /\
  forall q, q <> path -> q <> path +:+ ".tmp" -> d' !! q = d !! q.
Proof.
  pose proof (tmp_ne path) as Hne. unfold write_bundle.
  destruct (mkdir_ok k); [|done]. destruct (write_ok k); cbn [negb].
  2:{ split; [by rewrite lookup_insert_ne|]. intros q ??. by rewrite lookup_insert_ne. }
  destruct (rename_ok k); cbn [negb is_ok].
  - split; [by rewrite lookup_insert_eq|]. intros q ??. by rewrite lookup_insert_ne, lookup_delete_ne.
  - destruct (remove_ok k); (split; [|intros q ??]); by rewrite ?lookup_delete_ne, ?lookup_insert_ne.
Qed.

Lemma store_import_spec k now path raw d :
  let '(r, d') := store_import k now path raw d in
  d' !! path = (if is_ok r then Some raw else d !! path) /\
  (is_ok r = true -> exists b, trusted_at now raw b /\ CheckCPDeviceKeypair b = Ok tt) /\
  forall q, q <> path -> q <> path +:+ ".tmp" -> d' !! q = d !! q.
Proof.
  unfold store_import, mbind, action_bind, lift.
  destruct (verified_bundle now raw) as [b|e] eqn:Ev; [|done]. apply verified_bundle_Ok in Ev.
  destruct (CheckCPDeviceKeypair b) as [[]|msg] eqn:Ek; [|done]. cbn [map_err].
  pose proof (write_bundle_spec k path raw d) as H. destruct (write_bundle k path raw d). destruct H as [H1 H2]. eauto.
Qed.

Lemma release_closed {M : Mesh} m : mesh_state (release_mesh m) = StateClosed.
Proof. apply mesh_close_closed. Qed.

Lemma start_mesh_up {M : Mesh} fresh b m o : start_mesh fresh b = (Ok m, o) -> mesh_state m = StateUp.
Proof.
  unfold start_mesh. destruct (FromBundle _); [|done]. destruct (mesh_configure _ fresh) as [[[]|e] m1]; [|done].
  destruct (mesh_connect m1) as [[[]|e] m2] eqn:E; [|done]. intros [= <- _]. by eapply mesh_connect_up.
Qed.
Lemma start_mesh_none {M : Mesh} fresh b m o : start_mesh fresh b = (Ok m, o) -> o = None.
Proof.
  unfold start_mesh. destruct (FromBundle _); [|done]. destruct (mesh_configure _ _) as [[]]; [|done].
  destruct (mesh_connect _) as [[]]; [|done]. congruence.
Qed.
Lemma start_mesh_closed {M : Mesh} fresh b e m : start_mesh fresh b = (Err e, Some m) -> mesh_state m = StateClosed.
Proof.
  unfold start_mesh. destruct (FromBundle _); [|done]. destruct (mesh_configure _ fresh) as [[[]|e1] m1].
  2:{ intros [= _ <-]. apply mesh_close_closed. }
  destruct (mesh_connect m1) as [[[]|e2] m2]; [done|]. intros [= _ <-]. apply mesh_close_closed.
Qed.
End shared.

(** A phone: bundles carry a relay and an inner-mesh setup, one anchor vouches
    for them until time 1000, every call works. *)
Module ToyPhone.
#[export] Existing Instance Toy.crypto.
#[export] Existing Instance ToyTunnel.netip.
#[export] Existing Instance Injection.hosts.
#[export] Instance fake : Mesh := fake_mesh true 0 0 (fun _ => []).

Definition bundle_of (id sig : string) : EnrollmentBundle :=
  let b := ToyTunnel.with_relay (Toy.bundle_of id sig) in
  {| Version := Version b; DeviceID := DeviceID b; PeerPubkey := PeerPubkey b; ACLGroups := ACLGroups b;
     Site := Site b; KnownEndpoints := KnownEndpoints b; IssuedAt := IssuedAt b;
     ActivationDeadline := ActivationDeadline b; ExpiresAt := ExpiresAt b; Nonce := Nonce b; CAID := CAID b;
     SnitchProbeKey := SnitchProbeKey b; TLSTrustAnchor := TLSTrustAnchor b; CPDevicePubkey := CPDevicePubkey b;
     CPDevicePrivkey := CPDevicePrivkey b; CPDeviceAddress := CPDeviceAddress b;
     MeshSetup := {| SetupManagementURL := "https://mgmt.lab"; SetupSetupKey := "key"; SetupAdminAccessToken := "";
                     SetupPreSharedKey := []; SetupRosenpassEnabled := false; SetupRosenpassPermissive := false |};
     MobileCert := MobileCert b; Signature := Signature b |}.
#[export] Instance codec : BundleCodec := {|
  cbor_marshal b := Some (s2l (DeviceID b) ++ "|"%char :: Signature b);
  cbor_unmarshal data := '(id, sig) ← cut "|"%char data; Some (bundle_of (l2s id) (l2s sig)) |}.

Definition embedded : AnchorSet := {| anchors := ToyAnchors.set_of [("ca1", 0, 1000)]%Z |}.
Definition new_mesh (deviceID : string) : mesh :=
  {| fcfg := zero_config; fstate := InnerMesh.StateClosed; fclosed := false; fpeers := []; failConnects := 0 |}.
Definition all_ok : FileCalls := {| mkdir_ok := true; write_ok := true; rename_ok := true; remove_ok := true; torn := [] |}.
Definition path : string := "/data/bundle.cbor".
Definition payload : chars := s2l "phone-1|ca1".
Definition quiet_calls : MobileCalls := {| dup_ok := true; wrap_ok := true; ipcset_ok := true; up_ok := true |}.
End ToyPhone.
