(* ===== verification/Android.v ===== *)
(** The Android client: src/mobile/android/GoatClientSDK/client_android.go.

    [World] is the client with what it works on. A run of the engine is a
    sequence of phases, one per stretch of code that the lock separates; the
    application's calls may come between any two of them ([world_step]). Nothing
    in the client keeps two runs apart, so any number may be in progress.
    A failing stretch includes its call of fail. The engine below is
    RunOnMobile of Devices.v, the inner mesh any [Mesh]. *)
From stdpp Require Import base tactics list gmap sets strings.
From Stdlib Require Import ZArith Ascii Lia.
From S2P Require Import Prelude GoStr.
From S2P Require Import Bundle.
From S2P Require Import TrustAnchor.
From S2P Require Import Tunnel.
From S2P Require Import InnerMesh.
From S2P Require Import Uapi.
From S2P Require Import Devices.
From S2P Require Import MobileBundle.
Local Open Scope list_scope.

Inductive cstate := Unconfigured | Imported | Connecting | Connected | Disconnected | Error.
#[export] Instance cstate_eq_dec : EqDecision cstate.
Proof. solve_decision. Defined.
Definition state_text (s : cstate) : string :=
  match s with
  | Unconfigured => "unconfigured" | Imported => "imported" | Connecting => "connecting"
  | Connected => "connected" | Disconnected => "disconnected" | Error => "error"
  end.

Section android.
Context {K : BundleCodec} {C : Crypto} {N : NetipLib} {L : NetHost} {M : Mesh}.
Context (embedded : AnchorSet (C := C)) (deviceName : string) (NewWithDeviceID : string -> mesh).

(** Client; [files] is the ConfigurationFilePath of the attached PlatformFiles,
    [ctxCancel] names the context its function cancels, [reason] is empty
    where it is [None]. *)
Record Client := {
  files : option string;
  state : cstate;
  reason : option client_error;
  since : Z;
  bundleSum : string;
  mode : string;
  innerMesh : option mesh;
  ctxCancel : option nat }.

#[export] Instance set_files : Setter files := fun g c =>
  {| files := g (files c); state := state c; reason := reason c; since := since c; bundleSum := bundleSum c;
     mode := mode c; innerMesh := innerMesh c; ctxCancel := ctxCancel c |}.
#[export] Instance set_bundleSum : Setter bundleSum := fun g c =>
  {| files := files c; state := state c; reason := reason c; since := since c; bundleSum := g (bundleSum c);
     mode := mode c; innerMesh := innerMesh c; ctxCancel := ctxCancel c |}.
#[export] Instance set_mode : Setter mode := fun g c =>
  {| files := files c; state := state c; reason := reason c; since := since c; bundleSum := bundleSum c;
     mode := g (mode c); innerMesh := innerMesh c; ctxCancel := ctxCancel c |}.
#[export] Instance set_innerMesh : Setter innerMesh := fun g c =>
  {| files := files c; state := state c; reason := reason c; since := since c; bundleSum := bundleSum c;
     mode := mode c; innerMesh := g (innerMesh c); ctxCancel := ctxCancel c |}.
#[export] Instance set_ctxCancel : Setter ctxCancel := fun g c =>
  {| files := files c; state := state c; reason := reason c; since := since c; bundleSum := bundleSum c;
     mode := mode c; innerMesh := innerMesh c; ctxCancel := g (ctxCancel c) |}.

(** c.state = s; c.reason = r; c.since = time.Now() *)
Definition enter (s : cstate) (r : option client_error) (t : Z) (c : Client) : Client :=
  {| files := files c; state := s; reason := r; since := t; bundleSum := bundleSum c;
     mode := mode c; innerMesh := innerMesh c; ctxCancel := ctxCancel c |}.

Definition NewClient (t : Z) : Client :=
  {| files := None; state := Unconfigured; reason := None; since := t; bundleSum := ""; mode := ""; innerMesh := None;
     ctxCancel := None |}.

(** ** The application's calls *)
Definition bundleChecksum (b : chars) : string := hex_encode (sha256 b).

Definition ImportBundle (k : FileCalls) (now : Z) (bytes : chars) (c : Client) (d : Disk)
    : result client_error unit * (Client * Disk) :=
  match bytes with
  | [] => (Err EEmptyPayload, (c, d))
  | _ =>
    match files c with
    | None => (Err ENoFiles, (c, d))
    | Some cfgPath =>
      if bool_decide (cfgPath = "") then (Err EEmptyPath, (c, d))
      else
        match store_import embedded k now cfgPath bytes d with
        | (Err e, d) => (Err e, (c, d))
        | (Ok _, d) =>
          let c := c <| bundleSum := bundleChecksum bytes |> in
          (Ok tt, (if bool_decide (state c = Unconfigured) || bool_decide (state c = Error)
                   then enter Imported None now c else c, d))
        end
    end
  end.

Definition BundleCapabilities (c : Client) (d : Disk) : string :=
  match files c with
  | None => capsJSON false false false
  | Some cfgPath => if bool_decide (cfgPath = "") then capsJSON false false false else stored_capabilities cfgPath d
  end.

Definition Configure (path : string) (c : Client) : Client := c <| files := Some path |>.
Definition SetMode (m : string) (c : Client) : Client := c <| mode := m |>.
Definition RenewTun (fd : Z) : option client_error := if (fd <? 0)%Z then Some (ERenewFd fd) else Some ERenewUnsupported.

(** What GetTunnelStatus renders: the inner mesh's state and counters if there
    is one. *)
Record TunnelStatus := {
  SState : string;
  SReason : option client_error;
  SBundleSum : string;
  SMode : string;
  SInner : option (string * MStats) }.
Definition GetTunnelStatus (c : Client) : TunnelStatus :=
  {| SState := state_text (state c); SReason := reason c; SBundleSum := bundleSum c; SMode := mode c;
     SInner := m ← innerMesh c;
               Some (MState_String (mesh_state m), match mesh_stats m with Ok st => st | Err _ => zero_stats end) |}.

(** ** Runs *)

(** Where a run is. [Ready] has stored the connected state and not called the
    engine yet; in [Serving] the engine is up and blocked on the context. *)
Inductive phase :=
  | Loading
  | Verified
  | InnerDone
  | Waiting
  | Ready (fd : Z) (cfg : TConfig)
  | Serving (fd : Z) (cfg : TConfig)
  | Closing (r : result client_error unit).

(** A call of Run: the mode it read, the bundle it parsed with the bytes it came
    from and when its expiry was checked, whether the deferred release of the
    inner mesh is in place. *)
Record run_state := {
  rmode : string;
  parsed : option (EnrollmentBundle * (Z * chars));
  deferred : bool;
  rphase : phase }.

(** The client, what it works on, and the calls of Run in progress, each under
    the number of its context. [opened] counts the meshes the runs made,
    [released] lists those they closed; [overlapped] records whether a run
    ever began while another was in progress, [returned] what the runs gave. *)
Record World := {
  client : Client;
  disk : Disk;
  cancelled : gset nat;
  next_ctx : nat;
  runs : gmap nat run_state;
  opened : nat;
  released : list mesh;
  overlapped : bool;
  returned : list (result client_error unit) }.

Definition with_client (c : Client) (w : World) : World :=
  {| client := c; disk := disk w; cancelled := cancelled w; next_ctx := next_ctx w; runs := runs w;
     opened := opened w; released := released w; overlapped := overlapped w; returned := returned w |}.
Definition with_run (i : nat) (r : run_state) (w : World) : World :=
  {| client := client w; disk := disk w; cancelled := cancelled w; next_ctx := next_ctx w;
     runs := <[i := r]> (runs w);
     opened := opened w; released := released w; overlapped := overlapped w; returned := returned w |}.
Definition at_phase (p : phase) (r : run_state) : run_state :=
  {| rmode := rmode r; parsed := parsed r; deferred := deferred r; rphase := p |}.

(** Run up to its first unlock. Nothing keeps it from beginning while another
    call of Run is in progress. *)
Definition start_run (path : string) (t : Z) (w : World) : World :=
  let c := enter Connecting None t (client w <| files := Some path |>) <| ctxCancel := Some (next_ctx w) |> in
  {| client := c; disk := disk w; cancelled := cancelled w; next_ctx := S (next_ctx w);
     runs := <[next_ctx w := {| rmode := or_default (mode (client w)); parsed := None; deferred := false; rphase := Loading |}]> (runs w);
     opened := opened w; released := released w;
     overlapped := overlapped w || bool_decide (runs w <> ∅); returned := returned w |}.

(** What a stretch meets: whether the bundle's file can be read, the clock, the descriptor the VpnService gives (none
    for an error), the engine's calls. *)
Record RunEnv := { renv_read : bool; renv_now : Z; renv_fd : option Z; renv_calls : MobileCalls }.

(** The file's bytes with the bundle they parse to; [renv_read]: reading a file
    that exists works. *)
Definition loadVerifiedBundle (env : RunEnv) (c : Client) (d : Disk) : result client_error (EnrollmentBundle * (Z * chars)) :=
  cfgPath ← of_option ENoFiles (files c);
  if bool_decide (cfgPath = "") then Err EEmptyPath
  else raw ← of_option ENoBundleImported (d !! cfgPath);
       if renv_read env then b ← verified_bundle embedded (renv_now env) raw; Ok (b, (renv_now env, raw)) else Err EReadBundle.

(** c.fail and the return. *)
Definition fail_run (e : client_error) (env : RunEnv) (i : nat) (r : run_state) (w : World) : World :=
  with_run i (at_phase (Closing (Err e)) r) (with_client (enter Error (Some e) (renv_now env) (client w)) w).
Definition enter_run (s : cstate) (p : phase) (env : RunEnv) (i : nat) (r : run_state) (w : World) : World :=
  with_run i (at_phase p r) (with_client (enter s (reason (client w)) (renv_now env) (client w)) w).

Definition load_stretch (env : RunEnv) (i : nat) (r : run_state) (w : World) : World :=
  match loadVerifiedBundle env (client w) (disk w) with
  | Err e => fail_run e env i r w
  | Ok p => with_run i {| rmode := rmode r; parsed := Some p; deferred := deferred r; rphase := Verified |} w
  end.

(** The mesh that came up replaces whatever c.innerMesh held. *)
Definition hold_mesh (m : mesh) (w : World) : World :=
  {| client := client w <| innerMesh := Some m |>; disk := disk w; cancelled := cancelled w; next_ctx := next_ctx w;
     runs := runs w; opened := S (opened w); released := released w; overlapped := overlapped w;
     returned := returned w |}.
(** The mesh that failed to come up, if it was made. *)
Definition drop_failed (o : option mesh) (w : World) : World :=
  {| client := client w; disk := disk w; cancelled := cancelled w; next_ctx := next_ctx w;
     runs := runs w; opened := length (option_list o) + opened w; released := option_list o ++ released w;
     overlapped := overlapped w; returned := returned w |}.

Definition inner_stretch (b : EnrollmentBundle) (env : RunEnv) (i : nat) (r : run_state) (w : World) : World :=
  if hasInner (rmode r) then
    match start_mesh (NewWithDeviceID deviceName) b with
    | (Err e, o) => fail_run e env i r (drop_failed o w)
    | (Ok m, _) => with_run i {| rmode := rmode r; parsed := parsed r; deferred := true; rphase := InnerDone |} (hold_mesh m w)
    end
  else with_run i (at_phase InnerDone r) w.

Definition outer_stretch (b : EnrollmentBundle) (env : RunEnv) (i : nat) (r : run_state) (w : World) : World :=
  if negb (hasOuter (rmode r)) then enter_run Connected Waiting env i r w
  else
    match Tunnel.FromBundle Mobile b with
    | Err e => fail_run (ETunnelConfig e) env i r w
    | Ok cfg =>
      match renv_fd env with
      | None => fail_run EVpnService env i r w
      | Some fd =>
        if (fd <? 0)%Z then fail_run (EVpnFd fd) env i r w
        else enter_run Connected (Ready fd cfg) env i r w
      end
    end.

(** RunOnMobile up to where it blocks. *)
Definition engine_stretch (fd : Z) (cfg : TConfig) (env : RunEnv) (i : nat) (r : run_state) (w : World) : World :=
  match (RunOnMobile (renv_calls env) fd (Some cfg)).1 with
  | Err e => fail_run (EEngine e) env i r w
  | Ok _ => with_run i (at_phase (Serving fd cfg) r) w
  end.

(** <-ctx.Done() and what follows it. *)
Definition await (env : RunEnv) (i : nat) (r : run_state) (w : World) : option World :=
  if bool_decide (i ∈ cancelled w) then Some (enter_run Disconnected (Closing (Ok tt)) env i r w) else None.

(** The deferred calls: the release of the mesh the client holds by then, then
    cancel. *)
Definition finish_run (res : result client_error unit) (i : nat) (r : run_state) (w : World) : World :=
  let m := if deferred r then innerMesh (client w) else None in
  {| client := if deferred r then client w <| innerMesh := None |> else client w;
     disk := disk w; cancelled := {[i]} ∪ cancelled w; next_ctx := next_ctx w; runs := delete i (runs w);
     opened := opened w; released := option_list (release_mesh <$> m) ++ released w; overlapped := overlapped w;
     returned := res :: returned w |}.

(** The next stretch of run [i], if it is not blocked on its context. *)
Definition run_step (env : RunEnv) (i : nat) (w : World) : option World :=
  r ← runs w !! i;
  match rphase r with
  | Loading => Some (load_stretch env i r w)
  | Verified => '(b, _) ← parsed r; Some (inner_stretch b env i r w)
  | InnerDone => '(b, _) ← parsed r; Some (outer_stretch b env i r w)
  | Waiting => await env i r w
  | Ready fd cfg => Some (engine_stretch fd cfg env i r w)
  | Serving _ _ => await env i r w
  | Closing res => Some (finish_run res i r w)
  end.

Definition Stop (w : World) : World :=
  {| client := client w <| ctxCancel := None |>; disk := disk w;
     cancelled := match ctxCancel (client w) with Some i => {[i]} ∪ cancelled w | None => cancelled w end;
     next_ctx := next_ctx w; runs := runs w; opened := opened w; released := released w;
     overlapped := overlapped w; returned := returned w |}.

(** ** The client and its application *)
Inductive act :=
  | AConfigure (path : string)
  | AImport (k : FileCalls) (now : Z) (bytes : chars)
  | ASetMode (m : string)
  | ARun (path : string) (t : Z)
  | AStop
  | AStretch (i : nat) (env : RunEnv).

Definition with_disk (c : Client) (d : Disk) (w : World) : World :=
  {| client := c; disk := d; cancelled := cancelled w; next_ctx := next_ctx w; runs := runs w;
     opened := opened w; released := released w; overlapped := overlapped w; returned := returned w |}.

Definition perform (a : act) (w : World) : option World :=
  match a with
  | AConfigure path => Some (with_client (Configure path (client w)) w)
  | AImport k now bytes =>
    let '(_, (c, d)) := ImportBundle k now bytes (client w) (disk w) in Some (with_disk c d w)
  | ASetMode m => Some (with_client (SetMode m (client w)) w)
  | ARun path t => Some (start_run path t w)
  | AStop => Some (Stop w)
  | AStretch i env => run_step env i w
  end.
Definition world_step (w : World) (a : act) (w' : World) : Prop := perform a w = Some w'.

(** A new client on a disk. *)
Definition boot (t : Z) (d : Disk) : World :=
  {| client := NewClient t; disk := d; cancelled := ∅; next_ctx := 0; runs := ∅; opened := 0; released := [];
     overlapped := false; returned := [] |}.
Definition installed (w : World) : Prop := exists t d, w = boot t d.

(** ** Theorems *)
Abbreviation reaches := (reachable world_step installed).

(** The bundle the run works with is the one its bytes verified to. *)
Definition verified_run (r : run_state) (b : EnrollmentBundle) : Prop :=
  exists now raw, parsed r = Some (b, (now, raw)) /\ trusted_at embedded now raw b.

Definition up_phase (p : phase) : bool := match p with Waiting | Ready _ _ | Serving _ _ => true | _ => false end.
Definition early (p : phase) : bool := match p with Loading | Verified | InnerDone => true | _ => false end.

(** What a phase says about its run. *)
Definition run_fits (r : run_state) : Prop :=
  match rphase r with
  | Loading => deferred r = false
  | Verified => (exists b, verified_run r b) /\ deferred r = false
  | InnerDone => (exists b, verified_run r b) /\ deferred r = hasInner (rmode r)
  | Waiting => (exists b, verified_run r b) /\ deferred r = hasInner (rmode r) /\ hasOuter (rmode r) = false
  | Ready fd cfg | Serving fd cfg =>
      (exists b, verified_run r b /\ Tunnel.FromBundle Mobile b = Ok cfg) /\ deferred r = hasInner (rmode r) /\
      hasOuter (rmode r) = true /\ (0 <= fd)%Z
  | Closing _ => deferred r = true -> exists b, verified_run r b
  end.

(** The mesh is the one the run set up from its bundle. *)
Definition owns (r : run_state) (m : mesh) : Prop :=
  deferred r = true /\ exists b, verified_run r b /\ start_mesh (NewWithDeviceID deviceName) b = (Ok m, None).

Definition some_run (w : World) (P : run_state -> Prop) : Prop := exists i r, runs w !! i = Some r /\ P r.

(** As long as no two runs were in progress at once. *)
Record alone (w : World) : Prop := {
  al_one : forall i r, runs w !! i = Some r -> runs w = {[i := r]};
  al_early : forall i r, runs w !! i = Some r -> early (rphase r) = true -> state (client w) = Connecting;
  al_up : forall i r, runs w !! i = Some r -> up_phase (rphase r) = true -> state (client w) = Connected;
  al_mesh : forall i r, runs w !! i = Some r -> deferred r = true -> is_Some (innerMesh (client w));
  al_reason : is_Some (reason (client w)) -> state (client w) = Error;
  al_count : opened w = length (released w) + length (option_list (innerMesh (client w))) }.

Record android_ok (w : World) : Prop := {
  ok_connected : state (client w) = Connected -> some_run w (fun r => up_phase (rphase r) = true);
  ok_connecting : state (client w) = Connecting -> some_run w (fun r => early (rphase r) = true);
  ok_fits : forall i r, runs w !! i = Some r -> run_fits r;
  ok_fresh : forall i r, runs w !! i = Some r -> i < next_ctx w;
  ok_reason : state (client w) = Error -> is_Some (reason (client w));
  ok_mesh : forall m, innerMesh (client w) = Some m -> some_run w (fun r => owns r m);
  ok_released : Forall (fun m => mesh_state m = StateClosed) (released w);
  ok_alone : overlapped w = false -> alone w }.

Lemma installed_ok w : installed w -> android_ok w.
Proof. intros (t & d & ->). constructor; cbn; try done. constructor; cbn; done. Qed.

(** A run moves on and the client's state with it; the mesh and what the run
    holds of it stay. *)
Record moves (w : World) (c : Client) (r r' : run_state) : Prop := {
  mv_fits : run_fits r';
  mv_mesh : innerMesh c = innerMesh (client w);
  mv_deferred : deferred r' = deferred r;
  mv_parsed : deferred r = true -> parsed r' = parsed r;
  mv_connected : state c = Connected -> up_phase (rphase r') = true \/ state (client w) = Connected /\ up_phase (rphase r) = false;
  mv_connecting : state c = Connecting -> early (rphase r') = true \/ state (client w) = Connecting /\ early (rphase r) = false;
  mv_error : state c = Error -> is_Some (reason c);
  mv_alone : alone w -> (early (rphase r') = true -> state c = Connecting) /\
    (up_phase (rphase r') = true -> state c = Connected) /\ (is_Some (reason c) -> state c = Error) }.

Lemma some_run_insert w i r r' (P : run_state -> Prop) c :
  runs w !! i = Some r -> some_run w P -> (P r -> P r') -> some_run (with_run i r' (with_client c w)) P.
Proof.
  intros E (j & rj & Ej & Hj) HP. destruct (decide (j = i)) as [->|Hne].
  - exists i, r'. cbn. rewrite lookup_insert_eq. split; [done|]. apply HP. congruence.
  - exists j, rj. cbn. by rewrite lookup_insert_ne.
Qed.
Lemma some_run_other w i r r' (P : run_state -> Prop) c :
  runs w !! i = Some r -> some_run w P -> (P r' \/ ~ P r) -> some_run (with_run i r' (with_client c w)) P.
Proof. intros E H HP. eapply some_run_insert; [done|done|]. tauto. Qed.

Lemma moves_ok i r r' c w : android_ok w -> runs w !! i = Some r -> moves w c r r' -> android_ok (with_run i r' (with_client c w)).
Proof.
  intros [K1 K2 K3 K4 K5 K6 K7 K8] E [V1 V2 V3 V4 V5 V6 V7 V8].
  assert (some_run (with_run i r' (with_client c w)) (fun r => r = r')) as (j & ? & Ej & ->).
  { exists i, r'. cbn. by rewrite lookup_insert_eq. }
  constructor; cbn [client with_run with_client runs overlapped released next_ctx].
  - intros Hs. destruct (V5 Hs) as [Hu|[Hs' Hu]]; [by exists j, r'|]. eapply some_run_other; [done|by apply K1|]. right. by rewrite Hu.
  - intros Hs. destruct (V6 Hs) as [Hu|[Hs' Hu]]; [by exists j, r'|]. eapply some_run_other; [done|by apply K2|]. right. by rewrite Hu.
  - intros k rk [[-> <-]|[Hne Hk]]%lookup_insert_Some; [done|by apply (K3 k)].
  - intros k rk [[-> <-]|[Hne Hk]]%lookup_insert_Some; [by apply (K4 k r)|by apply (K4 k rk)].
  - done.
  - intros m Hm. rewrite V2 in Hm. eapply some_run_insert; [done|by apply K6|]. intros [Hd (b & (now & raw & Hp & Ht) & Hb)].
    split; [congruence|]. exists b. split; [|done]. exists now, raw. by rewrite V4.
  - done.
  - intros Ho. specialize (K8 Ho). destruct (V8 K8) as (A1 & A2 & A3). destruct K8 as [L1 L2 L3 L4 L5 L6].
    assert (forall k rk, <[i:=r']> (runs w) !! k = Some rk -> k = i /\ rk = r') as Hone.
    { intros k rk [[-> <-]|[Hne Hk]]%lookup_insert_Some; [done|]. rewrite (L1 i r E) in Hk.
      by apply lookup_singleton_Some in Hk as [? _]. }
    constructor; cbn [client with_run with_client runs overlapped released opened].
    + intros k rk [-> ->]%Hone. rewrite (L1 i r E). by rewrite insert_singleton_eq.
    + intros k rk [-> ->]%Hone. done.
    + intros k rk [-> ->]%Hone. done.
    + intros k rk [-> ->]%Hone. rewrite V2, V3. by apply (L4 i).
    + done.
    + by rewrite V2.
Qed.

(** The common cases of [moves]: the client stays as it is; it fails; the run
    stores a state. *)
Lemma moves_quiet w r r' :
  android_ok w -> run_fits r' -> deferred r' = deferred r -> (deferred r = true -> parsed r' = parsed r) ->
  early (rphase r') = early (rphase r) -> up_phase (rphase r') = up_phase (rphase r) ->
  (exists i, runs w !! i = Some r) -> moves w (client w) r r'.
Proof.
  intros [K1 K2 K3 K4 K5 K6 K7 K8] Hf Hd Hp He Hu [i E]. constructor; try done; rewrite ?He, ?Hu.
  - intros Hs. destruct (up_phase (rphase r)); auto.
  - intros Hs. destruct (early (rphase r)); auto.
  - intros [L1 L2 L3 L4 L5 L6]. split_and!; [by apply (L2 i)|by apply (L3 i)|done].
Qed.

Lemma fail_ok e env i r w : android_ok w -> runs w !! i = Some r -> android_ok (fail_run e env i r w).
Proof.
  intros Hok E. pose proof (ok_fits w Hok i r E) as Hf. apply (moves_ok i r); [done|done|].
  constructor; cbn; try done; try (by eexists). intros Hd. unfold run_fits in Hf. destruct (rphase r);
    first [congruence | naive_solver].
Qed.

Lemma enter_ok s p env i r w :
  android_ok w -> runs w !! i = Some r -> run_fits (at_phase p r) -> s <> Error ->
  (s = Connected /\ up_phase p = true /\ early (rphase r) = true \/
   s <> Connecting /\ s <> Connected /\ up_phase p = false /\ early p = false /\ up_phase (rphase r) = true) ->
  android_ok (enter_run s p env i r w).
Proof.
  intros Hok E Hf Hs Hp. apply (moves_ok i r); [done|done|]. constructor; cbn; try done; try tauto.
  - intros ->. naive_solver.
  - intros [L1 L2 L3 L4 L5 L6]. destruct Hp as [(-> & Hu & He)|(? & ? & Hu & He & Hup)].
    + split_and!; [destruct p; done|done|]. intros Hr. specialize (L5 Hr). rewrite (L2 i r E He) in L5. done.
    + rewrite Hu, He. split_and!; [done|done|]. intros Hr. specialize (L5 Hr). rewrite (L3 i r E Hup) in L5. done.
Qed.

Lemma load_Ok env c d p : loadVerifiedBundle env c d = Ok p ->
  exists b now raw, p = (b, (now, raw)) /\ trusted_at embedded now raw b.
Proof.
  unfold loadVerifiedBundle. intros H. apply bind_Ok in H as (path & _ & H). case_bool_decide; [done|].
  apply bind_Ok in H as (raw & _ & H). destruct (renv_read env); [|done]. apply bind_Ok in H as (b & Hb%verified_bundle_Ok & [= <-]).
  by exists b, (renv_now env), raw.
Qed.

Lemma drop_failed_ok o w : android_ok w -> Forall (fun m => mesh_state m = StateClosed) (option_list o) -> android_ok (drop_failed o w).
Proof.
  intros [K1 K2 K3 K4 K5 K6 K7 K8] Ho. constructor; cbn; try done; [by apply Forall_app|].
  intros Hov. destruct (K8 Hov) as [L1 L2 L3 L4 L5 L6]. constructor; cbn; try done. rewrite length_app, L6. lia.
Qed.

Lemma inner_ok b env i r w :
  android_ok w -> runs w !! i = Some r -> rphase r = Verified -> verified_run r b -> android_ok (inner_stretch b env i r w).
Proof.
  intros Hok E Ep Hb. pose proof (ok_fits w Hok i r E) as Hf. unfold run_fits in Hf. rewrite Ep in Hf. destruct Hf as [_ Hd].
  unfold inner_stretch. destruct (hasInner (rmode r)) eqn:Ei.
  2:{ apply (moves_ok i r (at_phase InnerDone r) (client w)); [done|done|]. apply moves_quiet; cbn; try done; [|by rewrite Ep..|by eexists].
      unfold run_fits. cbn. split; [by exists b|congruence]. }
  destruct (start_mesh _ b) as [[m|e] o] eqn:Em.
  2:{ apply fail_ok; [|done]. apply drop_failed_ok; [done|]. destruct o; [|by constructor].
      apply Forall_singleton. by eapply start_mesh_closed. }
  destruct Hok as [K1 K2 K3 K4 K5 K6 K7 K8].
  set (r' := {| rmode := _ |}). assert (owns r' m) as Hown.
  { split; [done|]. exists b. split; [done|]. by rewrite Em, (start_mesh_none _ _ _ _ Em). }
  constructor; cbn [client with_run hold_mesh runs overlapped released next_ctx].
  - intros Hs. apply K1 in Hs. eapply (some_run_other w i r r' _ (client w)) in Hs; [done..|]. right. by rewrite Ep.
  - intros _. exists i, r'. cbn. by rewrite lookup_insert_eq.
  - intros k rk [[-> <-]|[Hne Hk]]%lookup_insert_Some; [|by apply (K3 k)]. unfold run_fits. cbn. split; [by exists b|done].
  - intros k rk [[-> <-]|[Hne Hk]]%lookup_insert_Some; [by apply (K4 k r)|by apply (K4 k rk)].
  - done.
  - intros m' [= <-]. exists i, r'. cbn. by rewrite lookup_insert_eq.
  - done.
  - intros Ho. destruct (K8 Ho) as [L1 L2 L3 L4 L5 L6].
    assert (forall k rk, <[i:=r']> (runs w) !! k = Some rk -> k = i /\ rk = r') as Hone.
    { intros k rk [[-> <-]|[Hne Hk]]%lookup_insert_Some; [done|]. rewrite (L1 i r E) in Hk.
      by apply lookup_singleton_Some in Hk as [? _]. }
    constructor; cbn [client with_run hold_mesh runs overlapped released opened].
    + intros k rk [-> ->]%Hone. rewrite (L1 i r E). by rewrite insert_singleton_eq.
    + intros k rk [-> ->]%Hone. intros _. apply (L2 i r E). by rewrite Ep.
    + intros k rk [-> ->]%Hone. done.
    + intros k rk [-> ->]%Hone. intros _. by exists m.
    + done.
    + cbn. rewrite L6. destruct (innerMesh (client w)) eqn:Em'; cbn; [|lia].
      destruct (K6 _ eq_refl) as (j & rj & Ej & [Hdj _]). rewrite (L1 i r E) in Ej. apply lookup_singleton_Some in Ej as [_ <-]. congruence.
Qed.

Lemma outer_ok b env i r w :
  android_ok w -> runs w !! i = Some r -> rphase r = InnerDone -> verified_run r b -> android_ok (outer_stretch b env i r w).
Proof.
  intros Hok E Ep Hb. pose proof (ok_fits w Hok i r E) as Hf. unfold run_fits in Hf. rewrite Ep in Hf. destruct Hf as [_ Hd].
  unfold outer_stretch. destruct (hasOuter (rmode r)) eqn:Eo; cbn [negb].
  2:{ apply enter_ok; [done|done| |done|left; by rewrite Ep]. unfold run_fits. cbn. split_and!; [by exists b|done|done]. }
  destruct (Tunnel.FromBundle Mobile b) as [cfg|e] eqn:Et; [|by apply fail_ok].
  destruct (renv_fd env) as [fd|]; [|by apply fail_ok]. destruct (Z.ltb_spec fd 0); [by apply fail_ok|].
  apply enter_ok; [done|done| |done|left; by rewrite Ep]. unfold run_fits. cbn. split_and!; [by exists b|done..].
Qed.

Lemma await_ok env i r w w' :
  android_ok w -> runs w !! i = Some r -> up_phase (rphase r) = true -> await env i r w = Some w' -> android_ok w'.
Proof.
  intros Hok E Hu. unfold await. case_bool_decide; [|done]. intros [= <-]. pose proof (ok_fits w Hok i r E) as Hf.
  apply enter_ok; [done|done| |done|by right]. unfold run_fits in *. cbn. intros _. destruct (rphase r); try done; naive_solver.
Qed.

Lemma delete_alone w i r :
  alone w -> runs w !! i = Some r -> delete i (runs w) = ∅.
Proof. intros [L1 _ _ _ _ _] E. rewrite (L1 i r E). by rewrite delete_singleton_eq. Qed.

Lemma finish_ok res i r w :
  android_ok w -> runs w !! i = Some r -> rphase r = Closing res -> android_ok (finish_run res i r w).
Proof.
  intros [K1 K2 K3 K4 K5 K6 K7 K8] E Ep.
  assert (forall P, some_run w P -> ~ P r -> some_run (finish_run res i r w) P) as Hrun.
  { intros P (j & rj & Ej & Hj) Hn. exists j, rj. cbn. split; [|done]. apply lookup_delete_Some. split; [|done].
    intros <-. rewrite E in Ej. by injection Ej as ->. }
  constructor; cbn [client finish_run runs overlapped released next_ctx].
  - intros Hs. apply Hrun; [apply K1; by destruct (deferred r)|by rewrite Ep].
  - intros Hs. apply Hrun; [apply K2; by destruct (deferred r)|by rewrite Ep].
  - intros k rk [_ Hk]%lookup_delete_Some. by apply (K3 k).
  - intros k rk [_ Hk]%lookup_delete_Some. by apply (K4 k rk).
  - destruct (deferred r); exact K5.
  - intros m Hm. destruct (deferred r) eqn:Ed; [done|]. apply Hrun; [by apply K6|]. intros [Hd _]. congruence.
  - apply Forall_app. split; [|done]. destruct (if deferred r then _ else _); [|by constructor]. apply Forall_singleton, release_closed.
  - intros Ho. specialize (K8 Ho). pose proof (delete_alone w i r K8 E) as Hem. destruct K8 as [L1 L2 L3 L4 L5 L6].
    constructor; cbn; rewrite ?Hem; try done.
    + by destruct (deferred r).
    + rewrite L6, length_app. destruct (deferred r) eqn:Ed; cbn; [|lia]. destruct (innerMesh (client w)); cbn; lia.
Qed.

Lemma stretch_ok env i w w' : android_ok w -> run_step env i w = Some w' -> android_ok w'.
Proof.
  intros Hok. unfold run_step. destruct (runs w !! i) as [r|] eqn:E; [|done]. cbn [mbind option_bind].
  pose proof (ok_fits w Hok i r E) as Hf. unfold run_fits in Hf.
  destruct (rphase r) as [| | | |fd cfg|fd cfg|res] eqn:Ep.
  - intros [= <-]. unfold load_stretch. destruct (loadVerifiedBundle _ _ _) as [p|e] eqn:El; [|by apply fail_ok].
    apply load_Ok in El as (b & now & raw & -> & Ht).
    apply (moves_ok i r _ (client w)); [done|done|]. apply moves_quiet; cbn; try done; [|congruence|by rewrite Ep..|by eexists].
    unfold run_fits. cbn. split; [|done]. by exists b, now, raw.
  - destruct Hf as [(b & now & raw & Hp & Ht) _]. rewrite Hp. intros [= <-]. apply inner_ok; [done..|]. by exists now, raw.
  - destruct Hf as [(b & now & raw & Hp & Ht) _]. rewrite Hp. intros [= <-]. apply outer_ok; [done..|]. by exists now, raw.
  - apply await_ok; [done|done|by rewrite Ep].
  - intros [= <-]. unfold engine_stretch. destruct (RunOnMobile _ _ _).1 as [[]|e]; [|by apply fail_ok].
    apply (moves_ok i r _ (client w)); [done|done|]. apply moves_quiet; cbn; try done; [by rewrite Ep..|by eexists].
  - apply await_ok; [done|done|by rewrite Ep].
  - intros [= <-]. by apply finish_ok.
Qed.

(** What the application changes of the client outside its runs. *)
Lemma frame_ok w c d x :
  android_ok w -> innerMesh c = innerMesh (client w) ->
  (state c = state (client w) /\ reason c = reason (client w) \/
   state c = Imported /\ reason c = None /\ (state (client w) = Unconfigured \/ state (client w) = Error)) ->
  android_ok {| client := c; disk := d; cancelled := x; next_ctx := next_ctx w; runs := runs w; opened := opened w;
                released := released w; overlapped := overlapped w; returned := returned w |}.
Proof.
  intros [K1 K2 K3 K4 K5 K6 K7 K8] Hm Hs. constructor; cbn; rewrite ?Hm; try done.
  1-3: destruct Hs as [[-> Hr]|(-> & _)]; rewrite ?Hr; done.
  intros Ho. destruct (K8 Ho) as [L1 L2 L3 L4 L5 L6]. destruct Hs as [[Hs Hr]|(Hs & Hr & Hold)].
  - constructor; cbn; rewrite ?Hm, ?Hs, ?Hr; done.
  - constructor; cbn; rewrite ?Hm, ?Hs, ?Hr; try done.
    + intros k rk Hk He. rewrite (L2 k rk Hk He) in Hold. naive_solver.
    + intros k rk Hk He. rewrite (L3 k rk Hk He) in Hold. naive_solver.
Qed.

Lemma import_client k now bytes c d : let '(_, (c', _)) := ImportBundle k now bytes c d in
  innerMesh c' = innerMesh c /\
  (state c' = state c /\ reason c' = reason c \/ state c' = Imported /\ reason c' = None /\ (state c = Unconfigured \/ state c = Error)).
Proof.
  unfold ImportBundle. destruct bytes as [|x bytes]; [by auto|]. destruct (files c) as [path|]; [|by auto].
  case_bool_decide; [by auto|]. destruct (store_import _ _ _ _ _ _) as [[[]|e] d']; [|by auto]. cbn [state set set_bundleSum].
  destruct (bool_decide_reflect (state c = Unconfigured)), (bool_decide_reflect (state c = Error)); cbn; auto 6.
Qed.

Lemma start_ok path t w : android_ok w -> android_ok (start_run path t w).
Proof.
  intros [K1 K2 K3 K4 K5 K6 K7 K8]. set (r' := {| rmode := or_default (mode (client w)); parsed := None; deferred := false; rphase := Loading |}).
  assert (runs w !! next_ctx w = None) as Hfresh by (destruct (runs w !! next_ctx w) as [r|] eqn:E; [apply K4 in E; lia|done]).
  constructor; cbn [client start_run runs overlapped released next_ctx]; try done.
  - intros _. exists (next_ctx w), r'. cbn. by rewrite lookup_insert_eq.
  - intros k rk [[<- <-]|[Hne Hk]]%lookup_insert_Some; [done|by apply (K3 k)].
  - intros k rk [[<- <-]|[Hne Hk]]%lookup_insert_Some; [lia|]. apply K4 in Hk. lia.
  - intros m Hm. destruct (K6 m Hm) as (j & rj & Ej & Hj). exists j, rj. cbn. split; [|done]. rewrite lookup_insert_ne; [done|]. intros <-. congruence.
  - intros [Ho Hem]%orb_false_iff. apply bool_decide_eq_false in Hem. assert (runs w = ∅) as Hemp by (destruct (decide (runs w = ∅)); tauto).
    destruct (K8 Ho) as [L1 L2 L3 L4 L5 L6]. constructor; cbn; rewrite ?Hemp; try done.
    all: intros k rk Hk; rewrite insert_empty in Hk; apply lookup_singleton_Some in Hk as [<- <-]; done.
Qed.

Lemma perform_ok a w w' : android_ok w -> perform a w = Some w' -> android_ok w'.
Proof.
  intros Hok. destruct a as [path|k now bytes|m|path t| |i env]; cbn [perform].
  - intros [= <-]. apply (frame_ok w); [done|done|by left].
  - pose proof (import_client k now bytes (client w) (disk w)) as H. destruct (ImportBundle _ _ _ _ _) as [? [c d]].
    intros [= <-]. apply (frame_ok w); [done|apply H..].
  - intros [= <-]. apply (frame_ok w); [done|done|by left].
  - intros [= <-]. by apply start_ok.
  - intros [= <-]. apply (frame_ok w); [done|done|by left].
  - by apply stretch_ok.
Qed.

Lemma reaches_ok w : reaches w -> android_ok w.
Proof. apply reachable_invariant; [apply installed_ok|]. intros s a s' H1 H2. by apply (perform_ok a s). Qed.


(** *** Stop *)
Definition rank (i : nat) (w : World) : nat :=
  match runs w !! i with
  | None => 0
  | Some r =>
    match rphase r with
    | Loading => 6 | Verified => 5 | InnerDone => 4 | Ready _ _ => 3 | Waiting | Serving _ _ => 2 | Closing _ => 1
    end
  end.

Lemma rank_run i r w : rank i (with_run i r w) = match rphase r with
    | Loading => 6 | Verified => 5 | InnerDone => 4 | Ready _ _ => 3 | Waiting | Serving _ _ => 2 | Closing _ => 1 end.
Proof. unfold rank. cbn. by rewrite lookup_insert_eq. Qed.
Lemma rank_idle i w : rank i w = 0 <-> runs w !! i = None.
Proof. unfold rank. destruct (runs w !! i) as [r|]; [|done]. by destruct (rphase r). Qed.

Lemma stretch_advances env i w :
  android_ok w -> i ∈ cancelled w -> 0 < rank i w ->
  exists w', run_step env i w = Some w' /\ rank i w' < rank i w /\ i ∈ cancelled w'.
Proof.
  intros Hok Hc Hr. unfold run_step. unfold rank in Hr at 1. destruct (runs w !! i) as [r|] eqn:E; [|lia]. cbn [mbind option_bind].
  assert (forall e w0, cancelled w0 = cancelled w -> 1 < rank i w -> exists w', Some (fail_run e env i r w0) = Some w' /\
    rank i w' < rank i w /\ i ∈ cancelled w') as Hfail.
  { intros e w0 H0 H1. eexists. split; [done|]. unfold fail_run. rewrite rank_run. split; [done|]. by cbn; rewrite H0. }
  assert (1 < rank i w -> exists w', await env i r w = Some w' /\ rank i w' < rank i w /\ i ∈ cancelled w') as Hawait.
  { intros H1. unfold await. rewrite bool_decide_eq_true_2 by done. eexists. split; [done|]. unfold enter_run. by rewrite rank_run. }
  assert (forall r' w0, cancelled w0 = cancelled w -> rank i (with_run i r' w0) < rank i w -> exists w', Some (with_run i r' w0) = Some w' /\
    rank i w' < rank i w /\ i ∈ cancelled w') as Hgo.
  { intros r' w0 H0 H1. eexists. split_and!; [done|done|]. by cbn; rewrite H0. }
  pose proof (ok_fits w Hok i r E) as Hf. unfold run_fits in Hf. unfold rank in Hfail, Hawait, Hgo. rewrite E in Hfail, Hawait, Hgo.
  cbn [runs with_run] in Hgo. setoid_rewrite lookup_insert_eq in Hgo. unfold rank. rewrite E.
  destruct (rphase r) as [| | | |fd cfg|fd cfg|res] eqn:Ep.
  - unfold load_stretch. destruct (loadVerifiedBundle _ _ _); [apply Hgo|apply Hfail]; cbn; auto with lia.
  - destruct Hf as [(b & now & raw & Hp & _) _]. rewrite Hp. cbn. unfold inner_stretch.
    destruct (hasInner (rmode r)); [destruct (start_mesh _ _) as [[m|e] o]|]; first [apply Hfail; cbn; auto with lia|apply Hgo; cbn; auto with lia].
  - destruct Hf as [(b & now & raw & Hp & _) _]. rewrite Hp. cbn. unfold outer_stretch, enter_run.
    destruct (hasOuter (rmode r)); cbn [negb]; [destruct (Tunnel.FromBundle Mobile b); [destruct (renv_fd env) as [fd|]; [destruct (fd <? 0)%Z|]|]|];
      first [apply Hfail; cbn; auto with lia|apply Hgo; cbn; auto with lia].
  - apply Hawait. lia.
  - unfold engine_stretch. destruct (RunOnMobile _ _ _).1 as [[]|e]; [apply Hgo|apply Hfail]; cbn; auto with lia.
  - apply Hawait. lia.
  - eexists. split; [done|]. cbn. rewrite lookup_delete_eq. split; [lia|set_solver].
Qed.

(** Stop ends the run it was meant for. From any state the client reaches, once
    Stop was called, the run whose context it cancels, or one whose context was
    cancelled before, returns within six stretches of its own, whatever they
    meet. If it was the only one, no mesh is left and the client is neither
    connecting nor connected. *)
Theorem android_stop_returns (w : World) (i : nat) (r : run_state) (envs : list RunEnv) :
  reaches w -> runs w !! i = Some r -> ctxCancel (client w) = Some i \/ i ∈ cancelled w -> 6 <= length envs ->
  let w' := drive (fun env => run_step env i) (Stop w) envs in
  runs w' !! i = None /\ reaches w' /\
  (runs w' = ∅ -> innerMesh (client w') = None /\ state (client w') <> Connecting /\ state (client w') <> Connected).
Proof.
  intros Hw E Hc Hlen w'. assert (reaches (Stop w)) as Hs by by apply (reach_step _ _ w AStop).
  assert (reaches w') as Hw'.
  { apply (drive_reachable (fun env => run_step env i) _ (AStretch i)); [by intros|exact Hs]. }
  destruct (drive_ends (fun env => run_step env i) (rank i) (fun w => android_ok w /\ i ∈ cancelled w)) with (es := envs) (w := Stop w) as (Hr & _).
  - intros e w1 [Hok1 Hc1] Hr. destruct (stretch_advances e i w1 Hok1 Hc1 Hr) as (w2 & E2 & ? & ?). exists w2. split_and!; try done.
    by apply (stretch_ok e i w1).
  - intros e w1 Hi%rank_idle. unfold run_step. by rewrite Hi.
  - split; [by apply reaches_ok|]. cbn. destruct Hc as [->|Hc]; [set_solver|]. destruct (ctxCancel (client w)); set_solver.
  - unfold rank. cbn. rewrite E. destruct (rphase r); lia.
  - apply rank_idle in Hr. split_and!; [done|done|]. intros He. destruct (reaches_ok w' Hw') as [K1 K2 _ _ _ K6 _ _].
    assert (forall P, some_run w' P -> False) as Hnone by (intros P (k & rk & Ek & _); by rewrite He in Ek).
    split_and!; [|by intros H%K2%Hnone|by intros H%K1%Hnone]. destruct (innerMesh (client w')) eqn:Em; [|done].
    destruct (Hnone _ (K6 _ eq_refl)).
Qed.

(** An import is verified and atomic. If ImportBundle returns nil, the bytes
    verify against the compiled-in anchors, had not expired, carry a paired
    device key, and are what the bundle's file holds; a client that was
    unconfigured or in error is imported, any other keeps its state. If it
    returns an error, the file holds what it held and the client is unchanged. *)
Theorem android_import_exact (k : FileCalls) (now : Z) (bytes : chars) (c : Client) (d : Disk) :
  let '(r, (c', d')) := ImportBundle k now bytes c d in
  match r with
  | Ok _ => exists path b, files c = Some path /\ path <> "" /\ bytes <> [] /\
      trusted_at embedded now bytes b /\ CheckCPDeviceKeypair b = Ok tt /\ d' !! path = Some bytes /\
      bundleSum c' = bundleChecksum bytes /\ mode c' = mode c /\ innerMesh c' = innerMesh c /\
      state c' = (if bool_decide (state c = Unconfigured \/ state c = Error) then Imported else state c)
  | Err _ => c' = c /\ forall path, files c = Some path -> d' !! path = d !! path
  end.
Proof.
  unfold ImportBundle. destruct bytes as [|x bytes]; [done|]. destruct (files c) as [path|] eqn:Ef; [|done].
  case_bool_decide; [by split; [|intros ? [= <-]]|].
  pose proof (store_import_spec embedded k now path (x :: bytes) d) as Hs.
  destruct (store_import _ _ _ _ _ _) as [[[]|e] d1]; destruct Hs as (H1 & H2 & _).
  2:{ split; [done|]. by intros ? [= <-]. }
  destruct (H2 eq_refl) as (b & Ht & Hk). exists path, b. cbn [state set set_bundleSum].
  destruct (bool_decide_reflect (state c = Unconfigured)), (bool_decide_reflect (state c = Error)); cbn [orb]; cbn;
    (split_and!; try done); by first [rewrite bool_decide_eq_true_2 by auto | rewrite bool_decide_eq_false_2 by tauto].
Qed.
End android.

(** ** A phone to run *)
Module AndroidRun.
Import ToyPhone.
Definition env : RunEnv := {| renv_read := true; renv_now := 5; renv_fd := Some 3%Z; renv_calls := quiet_calls |}.
Definition after (l : list act) : option World :=
  foldl (fun w a => w ≫= perform embedded "Pixel 8" new_mesh a) (Some (boot 0 ∅)) l.
Definition stretches (i n : nat) : list act := replicate n (AStretch i env).
Definition session (m : string) : list act :=
  [AConfigure path; AImport all_ok 5 payload; ASetMode m; ARun path 5] ++ stretches 0 4.

Lemma after_reaches l w : after l = Some w -> reachable (world_step embedded "Pixel 8" new_mesh) installed w.
Proof.
  unfold after. revert w. induction l as [|a l IH] using rev_ind; intros w.
  - intros [= <-]. apply reach_init. by exists 0%Z, ∅.
  - rewrite foldl_app. cbn [foldl]. destruct (foldl _ _ l) as [w0|] eqn:E; [|done]. cbn. intros H.
    by apply (reach_step _ _ w0 a); [apply IH|].
Qed.

(** A schedule that runs, and what it shows of the state it ends in. *)
Lemma after_shows {A} (f : World -> A) l a : f <$> after l = Some a -> exists w, after l = Some w /\ f w = a.
Proof. destruct (after l) as [w|]; [|done]. intros [= <-]. by exists w. Qed.


Lemma android_stop_returns_witness :
  exists w r, after (session "combined") = Some w /\ runs w !! 0 = Some r /\
    runs (drive (fun env => run_step embedded "Pixel 8" new_mesh env 0) (Stop w) (replicate 6 env)) !! 0 = None.
Proof.
  destruct (after_shows (fun w => (bool_decide (is_Some (runs w !! 0)), ctxCancel (client w))) (session "combined")
    (true, Some 0)) as (w & E & Hw); [vm_compute; reflexivity|].
  injection Hw as Hr%bool_decide_eq_true Hc. destruct Hr as [r Hr]. exists w, r. split_and!; [done|done|].
  apply (android_stop_returns embedded "Pixel 8" new_mesh w 0 r (replicate 6 env) (after_reaches _ _ E) Hr); [by left|cbn; lia].
Defined.

(** A mode no one knows: the run neither starts a tunnel nor a mesh, and the
    client shows connected. *)
Lemma unknown_mode_connects :
  exists w, after (take 7 (session "Combined")) = Some w /\
    state (client w) = Connected /\ innerMesh (client w) = None /\ rphase <$> runs w !! 0 = Some Waiting.
Proof. eexists. split; [vm_compute; reflexivity|]. split_and!; vm_compute; reflexivity. Qed.

(** The client shows connected before the engine was called. *)
Lemma connected_before_the_engine :
  exists w fd cfg, after (take 7 (session "wg-cp0-only")) = Some w /\ state (client w) = Connected /\
    rphase <$> runs w !! 0 = Some (Ready fd cfg).
Proof. do 3 eexists. split; [vm_compute; reflexivity|]. split; vm_compute; reflexivity. Qed.

(** A change of mode as the shell makes it: Stop, SetMode, Run. The new run
    brings its mesh up before the old one has wound down. The old run's deferred
    release then closes the new one's mesh, and its own is never closed: the client
    shows connected in combined mode, with no mesh, two made and one closed. *)
Definition mode_change : list act :=
  session "combined" ++ [AStop; ASetMode "combined"; ARun path 5] ++ stretches 1 2 ++ stretches 0 1 ++ stretches 1 2 ++ stretches 0 1.
Lemma mode_change_loses_mesh :
  exists w, after mode_change = Some w /\ state (client w) = Connected /\ rmode <$> runs w !! 1 = Some "combined" /\
    runs w !! 0 = None /\ innerMesh (client w) = None /\ opened w = 2 /\ length (released w) = 1.
Proof. eexists. split; [vm_compute; reflexivity|]. split_and!; vm_compute; reflexivity. Qed.

(** With the old run slower still: the client shows disconnected while the new
    run serves. *)
Lemma mode_change_hides_run :
  exists w fd cfg, after (session "wg-cp0-only" ++ [AStop; ARun path 5] ++ stretches 1 4 ++ stretches 0 2) = Some w /\
    state (client w) = Disconnected /\ rphase <$> runs w !! 1 = Some (Serving fd cfg).
Proof. do 3 eexists. split; [vm_compute; reflexivity|]. split; vm_compute; reflexivity. Qed.
End AndroidRun.
