(* ===== verification/Ios.v ===== *)
(** The iOS client: src/mobile/ios/GoatClientSDK/client.go.

    As in Android.v, a run is a sequence of stretches with the application's
    calls and other runs in between. Here the state is an atomic of its own, the context is
    made only once the bundle is loaded, and Stop stores the disconnected state
    itself. *)
From stdpp Require Import base tactics list gmap sets strings.
From Stdlib Require Import ZArith Ascii Lia.
From S2P Require Import Prelude GoStr.
From S2P Require Import Bundle.
From S2P Require Import TrustAnchor.
From S2P Require Import Tunnel.
From S2P Require Import InnerMesh.
From S2P Require Import Uapi.
From S2P Require Import Devices.
From S2P Require Import MobileBundle.
Local Open Scope list_scope.

Inductive istate := Disconnected | Connecting | Connected | Error.
#[export] Instance istate_eq_dec : EqDecision istate.
Proof. solve_decision. Defined.
Definition istate_text (s : istate) : string :=
  match s with Disconnected => "disconnected" | Connecting => "connecting" | Connected => "connected" | Error => "error" end.

Section ios.
Context {K : BundleCodec} {C : Crypto} {N : NetipLib} {L : NetHost} {M : Mesh}.
Context (embedded : AnchorSet (C := C)) (cfgDir deviceName : string) (NewWithDeviceID : string -> mesh).

Definition bundlePath : string := cfgDir +:+ "/bundle.cbor".

Definition ImportBundle (k : FileCalls) (now : Z) (bytes : chars) (d : Disk) : result client_error unit * Disk :=
  match bytes with
  | [] => (Err EEmptyPayload, d)
  | _ =>
    if bool_decide (cfgDir = "") then (Err EEmptyPath, d)
    else store_import embedded k now bundlePath bytes d
  end.

Definition BundleCapabilities (d : Disk) : string :=
  if bool_decide (cfgDir = "") then capsJSON false false false else stored_capabilities bundlePath d.

(** Where a run is; [Arming] is the locked section that reads the mode and makes
    the context, [Inner] the bring-up of the mesh and the store of the connected
    state, [Ready] the call of the engine, [Serving] the wait in it. *)
Inductive phase :=
  | Loading
  | Arming
  | Inner
  | Outer
  | Ready (cfg : TConfig)
  | Serving (cfg : TConfig)
  | Waiting
  | Closing (r : result client_error unit).

(** A call of Run: its context once it has one, its arguments, the mode it read,
    the bundle it parsed with the bytes it came from and when its expiry was
    checked, whether the deferred release of the mesh is in place. *)
Record run_state := {
  ctx : option nat;
  rfd : Z;
  rname : string;
  rmode : string;
  parsed : option (EnrollmentBundle * (Z * chars));
  deferred : bool;
  rphase : phase }.
Definition at_phase (p : phase) (r : run_state) : run_state :=
  {| ctx := ctx r; rfd := rfd r; rname := rname r; rmode := rmode r; parsed := parsed r; deferred := deferred r; rphase := p |}.

(** The client's fields, what it works on, and the calls of Run in progress in
    the order they began. [opened] counts the meshes the runs made, [released]
    lists those they closed; [overlapped]: a run began while another was in
    progress. *)
Record World := {
  mode : string;
  innerMesh : option mesh;
  ctxCancel : option nat;
  stateAtomic : istate;
  disk : Disk;
  cancelled : gset nat;
  next_ctx : nat;
  runs : gmap nat run_state;
  next_run : nat;
  opened : nat;
  released : list mesh;
  overlapped : bool;
  returned : list (result client_error unit) }.

Definition with_run (i : nat) (r : run_state) (w : World) : World :=
  {| mode := mode w; innerMesh := innerMesh w; ctxCancel := ctxCancel w; stateAtomic := stateAtomic w; disk := disk w;
     cancelled := cancelled w; next_ctx := next_ctx w; runs := <[i := r]> (runs w); next_run := next_run w;
     opened := opened w; released := released w; overlapped := overlapped w; returned := returned w |}.
(** stateAtomic.Store(s) *)
Definition store (s : istate) (w : World) : World :=
  {| mode := mode w; innerMesh := innerMesh w; ctxCancel := ctxCancel w; stateAtomic := s; disk := disk w;
     cancelled := cancelled w; next_ctx := next_ctx w; runs := runs w; next_run := next_run w;
     opened := opened w; released := released w; overlapped := overlapped w; returned := returned w |}.
Definition fail_run (e : client_error) (i : nat) (r : run_state) (w : World) : World :=
  with_run i (at_phase (Closing (Err e)) r) (store Error w).

(** Run up to the read of the bundle. Nothing keeps it from beginning while
    another call of Run is in progress. *)
Definition start_run (fd : Z) (interfaceName : string) (w : World) : World :=
  {| mode := mode w; innerMesh := innerMesh w; ctxCancel := ctxCancel w; stateAtomic := Connecting; disk := disk w;
     cancelled := cancelled w; next_ctx := next_ctx w;
     runs := <[next_run w := {| ctx := None; rfd := fd; rname := interfaceName; rmode := ""; parsed := None;
                                deferred := false; rphase := Loading |}]> (runs w);
     next_run := S (next_run w); opened := opened w; released := released w;
     overlapped := overlapped w || bool_decide (runs w <> ∅); returned := returned w |}.

(** What a stretch meets. *)
Record RunEnv := { renv_read : bool; renv_now : Z; renv_calls : MobileCalls }.

Definition load (env : RunEnv) (d : Disk) : result client_error (EnrollmentBundle * (Z * chars)) :=
  raw ← of_option ENoBundleImported (d !! bundlePath);
  if renv_read env then b ← verified_bundle embedded (renv_now env) raw; Ok (b, (renv_now env, raw)) else Err EReadBundle.

Definition load_stretch (env : RunEnv) (i : nat) (r : run_state) (w : World) : World :=
  match load env (disk w) with
  | Err e => fail_run e i r w
  | Ok p => with_run i {| ctx := ctx r; rfd := rfd r; rname := rname r; rmode := rmode r; parsed := Some p;
                          deferred := deferred r; rphase := Arming |} w
  end.

Definition arm (i : nat) (r : run_state) (w : World) : World :=
  {| mode := mode w; innerMesh := innerMesh w; ctxCancel := Some (next_ctx w); stateAtomic := stateAtomic w; disk := disk w;
     cancelled := cancelled w; next_ctx := S (next_ctx w);
     runs := <[i := {| ctx := Some (next_ctx w); rfd := rfd r; rname := rname r; rmode := or_default (mode w);
                       parsed := parsed r; deferred := deferred r; rphase := Inner |}]> (runs w);
     next_run := next_run w; opened := opened w; released := released w; overlapped := overlapped w;
     returned := returned w |}.

(** The mesh that came up replaces whatever c.innerMesh held. *)
Definition hold_mesh (m : mesh) (w : World) : World :=
  {| mode := mode w; innerMesh := Some m; ctxCancel := ctxCancel w; stateAtomic := stateAtomic w; disk := disk w;
     cancelled := cancelled w; next_ctx := next_ctx w; runs := runs w; next_run := next_run w;
     opened := S (opened w); released := released w; overlapped := overlapped w; returned := returned w |}.
(** The mesh that failed to come up, if it was made. *)
Definition drop_failed (o : option mesh) (w : World) : World :=
  {| mode := mode w; innerMesh := innerMesh w; ctxCancel := ctxCancel w; stateAtomic := stateAtomic w; disk := disk w;
     cancelled := cancelled w; next_ctx := next_ctx w; runs := runs w; next_run := next_run w;
     opened := length (option_list o) + opened w; released := option_list o ++ released w;
     overlapped := overlapped w; returned := returned w |}.

Definition inner_stretch (b : EnrollmentBundle) (i : nat) (r : run_state) (w : World) : World :=
  if hasInner (rmode r) then
    match start_mesh (NewWithDeviceID deviceName) b with
    | (Err e, o) => fail_run e i r (drop_failed o w)
    | (Ok m, _) =>
      with_run i {| ctx := ctx r; rfd := rfd r; rname := rname r; rmode := rmode r; parsed := parsed r; deferred := true;
                    rphase := Outer |} (store Connected (hold_mesh m w))
    end
  else with_run i (at_phase Outer r) (store Connected w).

Definition outer_stretch (b : EnrollmentBundle) (i : nat) (r : run_state) (w : World) : World :=
  if hasOuter (rmode r) then
    match Tunnel.FromBundle Mobile b with
    | Err e => fail_run (ETunnelConfig e) i r w
    | Ok cfg => with_run i (at_phase (Ready (if bool_decide (rname r = "") then cfg else with_name cfg (rname r))) r) w
    end
  else with_run i (at_phase Waiting r) w.

(** RunOnMobile up to where it blocks. *)
Definition engine_stretch (cfg : TConfig) (env : RunEnv) (i : nat) (r : run_state) (w : World) : World :=
  match (RunOnMobile (renv_calls env) (rfd r) (Some cfg)).1 with
  | Err e => fail_run (EEngine e) i r w
  | Ok _ => with_run i (at_phase (Serving cfg) r) w
  end.

(** Blocked on the context, which ends the run with nil. *)
Definition await (i : nat) (r : run_state) (w : World) : option World :=
  x ← ctx r;
  if bool_decide (x ∈ cancelled w) then Some (with_run i (at_phase (Closing (Ok tt)) r) (store Disconnected w)) else None.

(** The deferred calls: the release of the mesh the client holds by then, then
    cancel. *)
Definition finish_run (res : result client_error unit) (i : nat) (r : run_state) (w : World) : World :=
  let m := if deferred r then innerMesh w else None in
  {| mode := mode w; innerMesh := if deferred r then None else innerMesh w; ctxCancel := ctxCancel w;
     stateAtomic := stateAtomic w; disk := disk w;
     cancelled := match ctx r with Some x => {[x]} ∪ cancelled w | None => cancelled w end;
     next_ctx := next_ctx w; runs := delete i (runs w); next_run := next_run w; opened := opened w;
     released := option_list (release_mesh <$> m) ++ released w; overlapped := overlapped w;
     returned := res :: returned w |}.

(** The next stretch of run [i], if it is not blocked on its context. *)
Definition run_step (env : RunEnv) (i : nat) (w : World) : option World :=
  r ← runs w !! i;
  match rphase r with
  | Loading => Some (load_stretch env i r w)
  | Arming => Some (arm i r w)
  | Inner => '(b, _) ← parsed r; Some (inner_stretch b i r w)
  | Outer => '(b, _) ← parsed r; Some (outer_stretch b i r w)
  | Ready cfg => Some (engine_stretch cfg env i r w)
  | Serving _ => await i r w
  | Waiting => await i r w
  | Closing res => Some (finish_run res i r w)
  end.

Definition Stop (w : World) : World :=
  {| mode := mode w; innerMesh := innerMesh w; ctxCancel := None; stateAtomic := Disconnected; disk := disk w;
     cancelled := match ctxCancel w with Some x => {[x]} ∪ cancelled w | None => cancelled w end;
     next_ctx := next_ctx w; runs := runs w; next_run := next_run w; opened := opened w; released := released w;
     overlapped := overlapped w; returned := returned w |}.

Definition SetMode (m : string) (w : World) : World :=
  {| mode := m; innerMesh := innerMesh w; ctxCancel := ctxCancel w; stateAtomic := stateAtomic w; disk := disk w;
     cancelled := cancelled w; next_ctx := next_ctx w; runs := runs w; next_run := next_run w; opened := opened w;
     released := released w; overlapped := overlapped w; returned := returned w |}.
Definition GetTunnelStatus (w : World) : string := istate_text (stateAtomic w).

(** The object GetStatusJSON writes; %q quotes the strings. *)
Definition field (k v : string) : string := quoted k +:+ ":" +:+ v.
Definition inner_json (o : option mesh) : string :=
  match o with
  | None => "null"
  | Some m =>
    let st := match mesh_stats m with Ok st => st | Err _ => zero_stats end in
    "{" +:+ field "state" (l2s (quote (s2l (MState_String (mesh_state m))))) +:+ "," +:+
    field "peer_count" (itoa (PeerCount st)) +:+ "," +:+ field "bytes_in" (itoa (BytesIn st)) +:+ "," +:+
    field "bytes_out" (itoa (BytesOut st)) +:+ "}"
  end.
Definition GetStatusJSON (w : World) : string :=
  let haveBundle := negb (bool_decide (cfgDir = "")) && bool_decide (is_Some (disk w !! bundlePath)) in
  "{" +:+ field "state" (l2s (quote (s2l (istate_text (stateAtomic w))))) +:+ "," +:+
  field "mode" (l2s (quote (s2l (mode w)))) +:+ "," +:+ field "bundle_imported" (bool_text haveBundle) +:+ "," +:+
  field "inner_mesh" (inner_json (innerMesh w)) +:+ "}".

Inductive act :=
  | AImport (k : FileCalls) (now : Z) (bytes : chars)
  | ASetMode (m : string)
  | ARun (fd : Z) (interfaceName : string)
  | AStop
  | AStretch (i : nat) (env : RunEnv).

Definition with_disk (d : Disk) (w : World) : World :=
  {| mode := mode w; innerMesh := innerMesh w; ctxCancel := ctxCancel w; stateAtomic := stateAtomic w; disk := d;
     cancelled := cancelled w; next_ctx := next_ctx w; runs := runs w; next_run := next_run w; opened := opened w;
     released := released w; overlapped := overlapped w; returned := returned w |}.

Definition perform (a : act) (w : World) : option World :=
  match a with
  | AImport k now bytes => Some (with_disk (ImportBundle k now bytes (disk w)).2 w)
  | ASetMode m => Some (SetMode m w)
  | ARun fd name => Some (start_run fd name w)
  | AStop => Some (Stop w)
  | AStretch i env => run_step env i w
  end.
Definition world_step (w : World) (a : act) (w' : World) : Prop := perform a w = Some w'.

Definition boot (d : Disk) : World :=
  {| mode := ""; innerMesh := None; ctxCancel := None; stateAtomic := Disconnected; disk := d; cancelled := ∅;
     next_ctx := 0; runs := ∅; next_run := 0; opened := 0; released := []; overlapped := false; returned := [] |}.
Definition installed (w : World) : Prop := exists d, w = boot d.

(** ** Theorems *)
Abbreviation reaches := (reachable world_step installed).

(** The bundle the run works with is the one its bytes verified to. *)
Definition verified_run (r : run_state) (b : EnrollmentBundle) : Prop :=
  exists now raw, parsed r = Some (b, (now, raw)) /\ trusted_at embedded now raw b.

(** The phases before the run stores the connected state, and those after. *)
Definition early (p : phase) : bool := match p with Loading | Arming | Inner => true | _ => false end.
Definition up_phase (p : phase) : bool := match p with Outer | Ready _ | Serving _ | Waiting => true | _ => false end.
(** The run has made its context. *)
Definition late (p : phase) : bool := match p with Loading | Arming => false | _ => true end.

(** The configuration a run hands to the engine is its bundle's, under the name
    it was called with. *)
Definition engine_config (r : run_state) (cfg : TConfig) : Prop :=
  exists b cfg0, verified_run r b /\ Tunnel.FromBundle Mobile b = Ok cfg0 /\
    cfg = if bool_decide (rname r = "") then cfg0 else with_name cfg0 (rname r).

(** What a phase says about its run. *)
Definition run_fits (r : run_state) : Prop :=
  match rphase r with
  | Loading => deferred r = false
  | Arming => (exists b, verified_run r b) /\ deferred r = false
  | Inner => (exists b, verified_run r b) /\ deferred r = false /\ is_Some (ctx r)
  | Outer => (exists b, verified_run r b) /\ deferred r = hasInner (rmode r) /\ is_Some (ctx r)
  | Ready cfg | Serving cfg =>
      engine_config r cfg /\ deferred r = hasInner (rmode r) /\ hasOuter (rmode r) = true /\ is_Some (ctx r)
  | Waiting => (exists b, verified_run r b) /\ deferred r = hasInner (rmode r) /\ hasOuter (rmode r) = false /\ is_Some (ctx r)
  | Closing _ => True
  end.

(** The mesh is the one the run set up from its bundle. *)
Definition owns (r : run_state) (m : mesh) : Prop :=
  deferred r = true /\ exists b, verified_run r b /\ start_mesh (NewWithDeviceID deviceName) b = (Ok m, None).

Definition some_run (w : World) (P : run_state -> Prop) : Prop := exists i r, runs w !! i = Some r /\ P r.

(** As long as no two runs were in progress at once. *)
Record alone (w : World) : Prop := {
  al_one : forall i r, runs w !! i = Some r -> runs w = {[i := r]};
  al_mesh : forall i r, runs w !! i = Some r -> deferred r = true -> is_Some (innerMesh w);
  al_armed : forall i r x, runs w !! i = Some r -> ctx r = Some x -> ctxCancel w = Some x \/ x ∈ cancelled w;
  al_count : opened w = length (released w) + length (option_list (innerMesh w)) }.

Record ios_ok (w : World) : Prop := {
  io_connected : stateAtomic w = Connected -> some_run w (fun r => up_phase (rphase r) = true);
  io_connecting : stateAtomic w = Connecting -> some_run w (fun r => early (rphase r) = true);
  io_fits : forall i r, runs w !! i = Some r -> run_fits r;
  io_fresh : forall i r, runs w !! i = Some r -> i < next_run w;
  io_mesh : forall m, innerMesh w = Some m -> some_run w (fun r => owns r m);
  io_released : Forall (fun m => mesh_state m = StateClosed) (released w);
  io_alone : overlapped w = false -> alone w }.


Lemma ios_installed_ok w : installed w -> ios_ok w.
Proof. intros [d ->]. by constructor. Qed.

Lemma ios_some_run_insert w i r r' (P : run_state -> Prop) s :
  runs w !! i = Some r -> some_run w P -> (P r' \/ ~ P r) -> some_run (with_run i r' (store s w)) P.
Proof.
  intros E (j & rj & Ej & Hj) HP. destruct (decide (j = i)) as [->|Hne].
  - exists i, r'. cbn. rewrite lookup_insert_eq. split; [done|]. rewrite E in Ej. injection Ej as ->. tauto.
  - exists j, rj. cbn. by rewrite lookup_insert_ne.
Qed.

(** The only run stays the only one. *)
Lemma only_run w i r r' k rk :
  (forall i r, runs w !! i = Some r -> runs w = {[i := r]}) -> runs w !! i = Some r ->
  <[i := r']> (runs w) !! k = Some rk -> k = i /\ rk = r' /\ <[i := r']> (runs w) = {[k := rk]}.
Proof.
  intros H E. rewrite (H i r E), insert_singleton_eq. by intros [<- <-]%lookup_singleton_Some.
Qed.

(** A run moves on and the client's state with it; the mesh, the context and
    what the run holds of them stay. *)
Lemma ios_moves_ok i r r' s w :
  ios_ok w -> runs w !! i = Some r -> run_fits r' -> deferred r' = deferred r -> ctx r' = ctx r ->
  (deferred r = true -> parsed r' = parsed r) ->
  (s = Connected -> up_phase (rphase r') = true \/ stateAtomic w = Connected /\ up_phase (rphase r) = false) ->
  (s = Connecting -> early (rphase r') = true \/ stateAtomic w = Connecting /\ early (rphase r) = false) ->
  ios_ok (with_run i r' (store s w)).
Proof.
  intros [K1 K2 K3 K4 K5 K6 K7] E Hf Hd Hx Hp H1 H2.
  assert (runs (with_run i r' (store s w)) !! i = Some r') as Ei by (cbn; by rewrite lookup_insert_eq).
  constructor.
  - cbn. intros Hs. destruct (H1 Hs) as [Hu|[Hs' Hu]]; [by exists i, r'|]. eapply ios_some_run_insert; [done|by apply K1|]. right. by rewrite Hu.
  - cbn. intros Hs. destruct (H2 Hs) as [Hu|[Hs' Hu]]; [by exists i, r'|]. eapply ios_some_run_insert; [done|by apply K2|]. right. by rewrite Hu.
  - cbn. intros k rk [[-> <-]|[Hne Hk]]%lookup_insert_Some; [done|by apply (K3 k)].
  - cbn. intros k rk [[-> <-]|[Hne Hk]]%lookup_insert_Some; [by apply (K4 k r)|by apply (K4 k rk)].
  - cbn. intros m Hm. destruct (K5 m Hm) as (j & rj & Ej & [Hdj (b & (now & raw & Hpj & Ht) & Hb)]).
    destruct (decide (j = i)) as [->|Hne].
    + exists i, r'. split; [done|]. assert (rj = r) as -> by congruence. split; [congruence|]. exists b. split; [|done].
      exists now, raw. by rewrite Hp.
    + exists j, rj. cbn. rewrite lookup_insert_ne by done. split_and!; [done|]. split; [done|]. exists b. split; [|done]. by exists now, raw.
  - done.
  - cbn. intros Ho. destruct (K7 Ho) as [L1 L2 L3 L4]. constructor; cbn.
    + intros k rk Hk. by apply (only_run w i r r') in Hk as (_ & _ & ?).
    + intros k rk Hk. apply (only_run w i r r') in Hk as (-> & -> & _); [|done..]. rewrite Hd. by apply (L2 i).
    + intros k rk x Hk. apply (only_run w i r r') in Hk as (-> & -> & _); [|done..]. rewrite Hx. by apply (L3 i).
    + done.
Qed.

(** A step that leaves the client's state alone. *)
Lemma quiet_ok i r r' w :
  ios_ok w -> runs w !! i = Some r -> run_fits r' -> deferred r' = deferred r -> ctx r' = ctx r ->
  (deferred r = true -> parsed r' = parsed r) ->
  early (rphase r') = early (rphase r) -> up_phase (rphase r') = up_phase (rphase r) -> ios_ok (with_run i r' w).
Proof.
  intros Hok E Hf Hd Hx Hp He Hu. apply (ios_moves_ok i r r' (stateAtomic w)); try done; rewrite ?He, ?Hu.
  - intros Hs. destruct (up_phase (rphase r)); auto.
  - intros Hs. destruct (early (rphase r)); auto.
Qed.

Lemma ios_fail_ok e i r w : ios_ok w -> runs w !! i = Some r -> ios_ok (fail_run e i r w).
Proof. intros Hok E. by apply (ios_moves_ok i r). Qed.

Lemma ios_await_ok i r w w' : ios_ok w -> runs w !! i = Some r -> await i r w = Some w' -> ios_ok w'.
Proof.
  intros Hok E. unfold await. destruct (ctx r) as [x|] eqn:Ex; [|done]. cbn. case_bool_decide; [|done]. intros [= <-].
  by apply (ios_moves_ok i r).
Qed.

Lemma ios_load_Ok env d p : load env d = Ok p -> exists b now raw, p = (b, (now, raw)) /\ trusted_at embedded now raw b.
Proof.
  unfold load. intros H. apply bind_Ok in H as (raw & _ & H). destruct (renv_read env); [|done].
  apply bind_Ok in H as (b & Hb%verified_bundle_Ok & [= <-]). by exists b, (renv_now env), raw.
Qed.

Lemma ios_drop_failed_ok o w : ios_ok w -> Forall (fun m => mesh_state m = StateClosed) (option_list o) -> ios_ok (drop_failed o w).
Proof.
  intros [K1 K2 K3 K4 K5 K6 K7] Ho. constructor; cbn; try done; [by apply Forall_app|].
  intros Hov. destruct (K7 Hov) as [L1 L2 L3 L4]. constructor; cbn; try done. rewrite length_app, L4. lia.
Qed.

Lemma arm_ok i r w : ios_ok w -> runs w !! i = Some r -> rphase r = Arming -> ios_ok (arm i r w).
Proof.
  intros Hok E Ep. pose proof (io_fits w Hok i r E) as Hf. unfold run_fits in Hf. rewrite Ep in Hf. destruct Hf as [Hb Hd].
  destruct Hok as [K1 K2 K3 K4 K5 K6 K7]. unfold arm. set (r' := {| ctx := _ |}).
  assert (forall P, some_run w P -> P r' \/ ~ P r -> some_run (arm i r w) P) as Hrun.
  { intros P (j & rj & Ej & Hj) HP. destruct (decide (j = i)) as [->|Hne].
    - exists i, r'. cbn. rewrite lookup_insert_eq. split; [done|]. rewrite E in Ej. injection Ej as ->. tauto.
    - exists j, rj. cbn. by rewrite lookup_insert_ne. }
  constructor; cbn.
  - intros Hs%K1. apply Hrun; [done|]. right. by rewrite Ep.
  - intros Hs%K2. apply Hrun; [done|]. by left.
  - intros k rk [[-> <-]|[Hne Hk]]%lookup_insert_Some; [|by apply (K3 k)]. unfold run_fits. cbn. split_and!; [|done|by eexists].
    destruct Hb as (b & now & raw & Hp & Ht). by exists b, now, raw.
  - intros k rk [[-> <-]|[Hne Hk]]%lookup_insert_Some; [by apply (K4 k r)|by apply (K4 k rk)].
  - intros m Hm. apply Hrun; [by apply K5|]. right. intros [Hd' _]. congruence.
  - done.
  - intros Ho. destruct (K7 Ho) as [L1 L2 L3 L4]. constructor; cbn.
    + intros k rk Hk. by apply (only_run w i r r') in Hk as (_ & _ & ?).
    + intros k rk Hk. apply (only_run w i r r') in Hk as (-> & -> & _); [|done..]. cbn. congruence.
    + intros k rk x Hk. apply (only_run w i r r') in Hk as (-> & -> & _); [|done..]. intros [= <-]. by left.
    + done.
Qed.

Lemma ios_inner_ok b i r w :
  ios_ok w -> runs w !! i = Some r -> rphase r = Inner -> verified_run r b -> ios_ok (inner_stretch b i r w).
Proof.
  intros Hok E Ep Hb. pose proof (io_fits w Hok i r E) as Hf. unfold run_fits in Hf. rewrite Ep in Hf. destruct Hf as (_ & Hd & Hx).
  unfold inner_stretch. destruct (hasInner (rmode r)) eqn:Ei.
  2:{ apply (ios_moves_ok i r); try done; [|by left]. unfold run_fits. cbn. split_and!; [by exists b|congruence|done]. }
  destruct (start_mesh _ b) as [[m|e] o] eqn:Em.
  2:{ apply ios_fail_ok; [|done]. apply ios_drop_failed_ok; [done|]. destruct o; [|by constructor].
      apply Forall_singleton. by eapply start_mesh_closed. }
  rewrite (start_mesh_none _ _ _ _ Em) in Em. destruct Hok as [K1 K2 K3 K4 K5 K6 K7]. set (r' := {| ctx := _ |}).
  assert (runs (with_run i r' (store Connected (hold_mesh m w))) !! i = Some r') as Ei' by (cbn; by rewrite lookup_insert_eq).
  constructor; cbn.
  - intros _. by exists i, r'.
  - done.
  - intros k rk [[-> <-]|[Hne Hk]]%lookup_insert_Some; [|by apply (K3 k)]. unfold run_fits. cbn. split_and!; [by exists b|done|done].
  - intros k rk [[-> <-]|[Hne Hk]]%lookup_insert_Some; [by apply (K4 k r)|by apply (K4 k rk)].
  - intros m' [= <-]. exists i, r'. split; [done|]. split; [done|]. by exists b.
  - done.
  - intros Ho. destruct (K7 Ho) as [L1 L2 L3 L4]. constructor; cbn.
    + intros k rk Hk. by apply (only_run w i r r') in Hk as (_ & _ & ?).
    + intros k rk Hk. by eexists.
    + intros k rk x Hk. apply (only_run w i r r') in Hk as (-> & -> & _); [|done..]. exact (L3 i r x E).
    + rewrite L4. destruct (innerMesh w) eqn:Em'; cbn; [|lia].
      destruct (K5 _ eq_refl) as (j & rj & Ej & [Hdj _]). rewrite (L1 i r E) in Ej. apply lookup_singleton_Some in Ej as [_ <-]. congruence.
Qed.

Lemma ios_outer_ok b i r w :
  ios_ok w -> runs w !! i = Some r -> rphase r = Outer -> verified_run r b -> ios_ok (outer_stretch b i r w).
Proof.
  intros Hok E Ep Hb. pose proof (io_fits w Hok i r E) as Hf. unfold run_fits in Hf. rewrite Ep in Hf. destruct Hf as (_ & Hd & Hx).
  unfold outer_stretch. destruct (hasOuter (rmode r)) eqn:Eo.
  - destruct (Tunnel.FromBundle Mobile b) as [cfg|e] eqn:Et; [|by apply ios_fail_ok].
    apply (quiet_ok i r); try done; [|by rewrite Ep..]. unfold run_fits. cbn. split_and!; try done. by exists b, cfg.
  - apply (quiet_ok i r); try done; [|by rewrite Ep..]. unfold run_fits. cbn. split_and!; try done. by exists b.
Qed.

Lemma ios_finish_ok res i r w : ios_ok w -> runs w !! i = Some r -> rphase r = Closing res -> ios_ok (finish_run res i r w).
Proof.
  intros [K1 K2 K3 K4 K5 K6 K7] E Ep.
  assert (forall P, some_run w P -> ~ P r -> some_run (finish_run res i r w) P) as Hrun.
  { intros P (j & rj & Ej & Hj) Hn. exists j, rj. cbn. split; [|done]. apply lookup_delete_Some. split; [|done].
    intros <-. rewrite E in Ej. by injection Ej as ->. }
  constructor; cbn.
  - intros Hs%K1. apply Hrun; [done|by rewrite Ep].
  - intros Hs%K2. apply Hrun; [done|by rewrite Ep].
  - intros k rk [_ Hk]%lookup_delete_Some. by apply (K3 k).
  - intros k rk [_ Hk]%lookup_delete_Some. by apply (K4 k rk).
  - intros m Hm. destruct (deferred r) eqn:Ed; [done|]. apply Hrun; [by apply K5|]. intros [Hd _]. congruence.
  - apply Forall_app. split; [|done]. destruct (if deferred r then _ else _); [|by constructor]. apply Forall_singleton, release_closed.
  - intros Ho. destruct (K7 Ho) as [L1 L2 L3 L4]. constructor; cbn; rewrite ?(L1 i r E), ?delete_singleton_eq; try done.
    rewrite L4, length_app. destruct (deferred r); cbn; [|lia]. destruct (innerMesh w); cbn; lia.
Qed.

Lemma ios_stretch_ok env i w w' : ios_ok w -> run_step env i w = Some w' -> ios_ok w'.
Proof.
  intros Hok. unfold run_step. destruct (runs w !! i) as [r|] eqn:E; [|done]. cbn [mbind option_bind].
  pose proof (io_fits w Hok i r E) as Hf. unfold run_fits in Hf.
  destruct (rphase r) as [| | | |cfg|cfg| |res] eqn:Ep.
  - intros [= <-]. unfold load_stretch. destruct (load _ _) as [p|e] eqn:El; [|by apply ios_fail_ok].
    apply ios_load_Ok in El as (b & now & raw & -> & Ht). apply (quiet_ok i r); try done; [|by rewrite Hf|by rewrite Ep..].
    unfold run_fits. cbn. split; [|done]. by exists b, now, raw.
  - intros [= <-]. by apply arm_ok.
  - destruct Hf as [(b & now & raw & Hp & Ht) _]. rewrite Hp. intros [= <-]. apply ios_inner_ok; [done..|]. by exists now, raw.
  - destruct Hf as [(b & now & raw & Hp & Ht) _]. rewrite Hp. intros [= <-]. apply ios_outer_ok; [done..|]. by exists now, raw.
  - intros [= <-]. unfold engine_stretch. destruct (RunOnMobile _ _ _).1 as [[]|e]; [|by apply ios_fail_ok].
    apply (quiet_ok i r); try done; by rewrite Ep.
  - by apply ios_await_ok.
  - by apply ios_await_ok.
  - intros [= <-]. by apply ios_finish_ok.
Qed.

(** What the application changes outside the runs. *)
Lemma ios_frame_ok w w' :
  ios_ok w -> runs w' = runs w -> next_run w' = next_run w -> innerMesh w' = innerMesh w -> released w' = released w ->
  opened w' = opened w -> overlapped w' = overlapped w -> (stateAtomic w' = stateAtomic w \/ stateAtomic w' = Disconnected) ->
  (forall x, ctxCancel w = Some x \/ x ∈ cancelled w -> ctxCancel w' = Some x \/ x ∈ cancelled w') -> ios_ok w'.
Proof.
  intros [K1 K2 K3 K4 K5 K6 K7] Hr Hn Hm Hl Ho Hv Hs Hx.
  assert (forall P, some_run w P -> some_run w' P) as Hrun by (intros P (i & r & E & HP); exists i, r; by rewrite Hr).
  constructor; rewrite ?Hr, ?Hn, ?Hm, ?Hl, ?Hv; try done.
  1-2: intros Hc; destruct Hs as [Hs|Hs]; [apply Hrun; rewrite Hs in Hc; auto|congruence].
  - intros m E. by apply Hrun, K5.
  - intros Hov. destruct (K7 Hov) as [L1 L2 L3 L4]. constructor; rewrite ?Hr, ?Hm, ?Hl, ?Ho; try done. eauto.
Qed.

Lemma ios_start_ok fd name w : ios_ok w -> ios_ok (start_run fd name w).
Proof.
  intros [K1 K2 K3 K4 K5 K6 K7].
  assert (runs w !! next_run w = None) as Hfresh by (destruct (runs w !! next_run w) as [r|] eqn:E; [apply K4 in E; lia|done]).
  constructor; cbn; try done.
  - intros _. eexists (next_run w), _. cbn. rewrite lookup_insert_eq. split; [reflexivity|done].
  - intros k rk [[<- <-]|[Hne Hk]]%lookup_insert_Some; [done|by apply (K3 k)].
  - intros k rk [[<- <-]|[Hne Hk]]%lookup_insert_Some; [lia|]. apply K4 in Hk. lia.
  - intros m Hm. destruct (K5 m Hm) as (j & rj & Ej & Hj). exists j, rj. cbn. split; [|done]. rewrite lookup_insert_ne; [done|]. intros <-. congruence.
  - intros [Ho Hem]%orb_false_iff. apply bool_decide_eq_false in Hem. assert (runs w = ∅) as Hemp by (destruct (decide (runs w = ∅)); tauto).
    destruct (K7 Ho) as [L1 L2 L3 L4]. constructor; cbn; rewrite ?Hemp; try done.
    all: intros k rk; first [intros Hk; rewrite insert_empty in Hk|intros x Hk; rewrite insert_empty in Hk]; apply lookup_singleton_Some in Hk as [<- <-]; done.
Qed.

Lemma ios_perform_ok a w w' : ios_ok w -> perform a w = Some w' -> ios_ok w'.
Proof.
  intros Hok. destruct a as [k now bytes|m|fd name| |i env]; cbn [perform].
  - intros [= <-]. apply (ios_frame_ok w); try done. by left.
  - intros [= <-]. apply (ios_frame_ok w); try done. by left.
  - intros [= <-]. by apply ios_start_ok.
  - intros [= <-]. apply (ios_frame_ok w); try done; [by right|]. cbn. intros x [->|Hx]; right; [set_solver|].
    destruct (ctxCancel w); set_solver.
  - by apply ios_stretch_ok.
Qed.

Lemma ios_reaches_ok w : reaches w -> ios_ok w.
Proof. apply reachable_invariant; [apply ios_installed_ok|]. intros s a s' H1 H2. by apply (ios_perform_ok a s). Qed.

(** *** Stop *)
Definition phase_rank (p : phase) : nat :=
  match p with
  | Loading => 7 | Arming => 6 | Inner => 5 | Outer => 4 | Ready _ => 3 | Serving _ | Waiting => 2 | Closing _ => 1
  end.
Definition rank (i : nat) (w : World) : nat := match runs w !! i with None => 0 | Some r => phase_rank (rphase r) end.

Lemma ios_rank_idle i w : rank i w = 0 <-> runs w !! i = None.
Proof. unfold rank. destruct (runs w !! i) as [r|]; [|done]. by destruct (rphase r). Qed.

(** The run has made its context [x], which is cancelled. *)
Definition stopping (i x : nat) (w : World) : Prop :=
  x ∈ cancelled w /\ forall r, runs w !! i = Some r -> ctx r = Some x /\ late (rphase r) = true.

Lemma ios_stretch_advances env i x w :
  ios_ok w -> stopping i x w -> 0 < rank i w -> exists w', run_step env i w = Some w' /\ rank i w' < rank i w /\ stopping i x w'.
Proof.
  intros Hok [Hc Hs] Hr. unfold run_step. unfold rank in *. destruct (runs w !! i) as [r|] eqn:E; [|lia]. cbn [mbind option_bind].
  destruct (Hs r eq_refl) as [Hx Hl].
  assert (forall r' w0, cancelled w0 = cancelled w -> ctx r' = ctx r -> phase_rank (rphase r') < phase_rank (rphase r) -> late (rphase r') = true ->
    exists w', Some (with_run i r' w0) = Some w' /\
    match runs w' !! i with None => 0 | Some r => phase_rank (rphase r) end < phase_rank (rphase r) /\ stopping i x w') as Hgo.
  { intros r' w0 H0 H1 H2 H3. eexists. split; [done|]. cbn. rewrite lookup_insert_eq. split; [done|]. split; [by cbn; rewrite H0|].
    cbn. rewrite lookup_insert_eq. intros ? [= <-]. by rewrite H1. }
  pose proof (io_fits w Hok i r E) as Hf. unfold run_fits in Hf.
  destruct (rphase r) as [| | | |cfg|cfg| |res] eqn:Ep; try done.
  - destruct Hf as [(b & now & raw & Hp & _) _]. rewrite Hp. cbn. unfold inner_stretch.
    destruct (hasInner (rmode r)); [destruct (start_mesh _ _) as [[m|e] o]|]; apply Hgo; cbn; auto with lia.
  - destruct Hf as [(b & now & raw & Hp & _) _]. rewrite Hp. cbn. unfold outer_stretch.
    destruct (hasOuter (rmode r)); [destruct (Tunnel.FromBundle Mobile b)|]; apply Hgo; cbn; auto with lia.
  - unfold engine_stretch. destruct (RunOnMobile _ _ _).1 as [[]|e]; apply Hgo; cbn; auto with lia.
  - unfold await. rewrite Hx. cbn. rewrite bool_decide_eq_true_2 by done. apply Hgo; cbn; auto with lia.
  - unfold await. rewrite Hx. cbn. rewrite bool_decide_eq_true_2 by done. apply Hgo; cbn; auto with lia.
  - eexists. split; [done|]. cbn. rewrite lookup_delete_eq. split; [lia|]. split; [cbn; rewrite Hx; set_solver|].
    cbn. intros ?. by rewrite lookup_delete_eq.
Qed.

End ios.

(** ** A phone to run *)
Module IosRun.
Import ToyPhone.
Definition env : RunEnv := {| renv_read := true; renv_now := 5; renv_calls := quiet_calls |}.
Definition after (l : list act) : option World :=
  foldl (fun w a => w ≫= perform embedded "/group" "iPhone" new_mesh a) (Some (boot ∅)) l.
Definition stretches (i n : nat) : list act := replicate n (AStretch i env).

Lemma ios_after_reaches l w : after l = Some w -> reachable (world_step embedded "/group" "iPhone" new_mesh) installed w.
Proof.
  unfold after. revert w. induction l as [|a l IH] using rev_ind; intros w.
  - intros [= <-]. apply reach_init. by exists ∅.
  - rewrite foldl_app. cbn [foldl]. destruct (foldl _ _ l) as [w0|] eqn:E; [|done]. cbn. intros H.
    by apply (reach_step _ _ w0 a); [apply IH|].
Qed.

(** What a schedule ends in. *)
Lemma ios_after_shows {A} (f : World -> A) l a : f <$> after l = Some a -> exists w, after l = Some w /\ f w = a.
Proof. destruct (after l) as [w|]; [|done]. intros [= <-]. by exists w. Qed.

Definition session : list act :=
  [AImport all_ok 5 payload; ASetMode "combined"; ARun 3 "utun5"] ++ stretches 0 5.


(** A Stop while the bundle is being loaded is lost: the run goes on, ends up
    connected, and waits for another Stop. *)
Lemma early_Stop_lost :
  exists w, after ([AImport all_ok 5 payload; ARun 3 "utun5"; AStop] ++ stretches 0 5)
    = Some w /\ stateAtomic w = Connected /\ run_step embedded "/group" "iPhone" new_mesh env 0 w = None.
Proof. eexists. split; [vm_compute; reflexivity|]. split; vm_compute; reflexivity. Qed.

(** A run that begins while an earlier one winds down has its mesh closed by the
    earlier one's deferred release, and the earlier one's own is never closed. *)
Lemma restart_loses_mesh :
  exists w, after (session ++ [AStop; ARun 3 "utun5"] ++ stretches 1 3 ++ stretches 0 2) = Some w /\
    runs w !! 0 = None /\ rmode <$> runs w !! 1 = Some "combined" /\ innerMesh w = None /\ opened w = 2 /\
    length (released w) = 1.
Proof. eexists. split; [vm_compute; reflexivity|]. split_and!; vm_compute; reflexivity. Qed.
End IosRun.
