(* ===== verification/FileDrop.v ===== *)
(** Peer-to-peer file drop: internal/filedrop (filedrop.go, server.go,
    client.go).

    The inbox is a directory of Fs.v: named files and the temporary ones of a
    transfer. [safeName] refuses the names of the temporary files, which is
    why the two kinds never meet. A handler's errors are HTTP statuses. *)
From stdpp Require Import base tactics list sets gmap fin_maps strings.
From Stdlib Require Import ZArith Ascii Lia.
From S2P Require Import Prelude GoStr Fs.
Local Open Scope list_scope.

Definition DefaultPort : Z := 51823.
Definition putPrefix : string := "/put/".
Definition DefaultMaxBytes : Z := (2 * 2 ^ 30)%Z.

Inductive name_error := EInvalidName | ESeparator | EReserved.

Definition contains_any (s set : string) : bool := existsb (fun c => contains c (s2l s)) (s2l set).

Definition safeName (raw : string) : result name_error string :=
  let name := trim_space raw in
  if bool_decide (name = "") || (bool_decide (name = ".") || bool_decide (name = "..")) then Err EInvalidName
  else if contains_any name "/\" then Err ESeparator
  else if has_prefix name ".goatdrop-" then Err EReserved
  else Ok name.

Definition sourceIP (remoteAddr : string) : string :=
  match split_host_port remoteAddr with Some (host, _) => host | None => remoteAddr end.

(** The Authorizer: a source address to the label of an allowed peer. *)
Definition Authorizer : Type := string -> option string.

Record Server := { InboxDir : string; Auth : option Authorizer; MaxBytes : Z }.
Definition maxBytes (s : Server) : Z := if (0 <? MaxBytes s)%Z then MaxBytes s else DefaultMaxBytes.

(** [BodyEnds]: the body ends with EOF rather than a transport error. *)
Record Request := {
  Method : string;
  URLPath : string;
  RemoteAddr : string;
  ContentLength : Z;
  Body : chars;
  BodyEnds : bool }.

Record Received := {
  RName : string;
  RSize : Z;
  RFrom : string;
  RFromIP : string;
  RPath : string;
  RAt : Z }.

(** filepath.Join of a clean directory and a name without separators. *)
Definition join_path (dir name : string) : string := dir +:+ "/" +:+ name.

Abbreviation inbox := (world string chars).

Section server.
Context (ok : nat -> bool).

(** [errors.Is(err, os.ErrNotExist)] of os.Stat: any other error reads as a
    collision. *)
Definition stat_free (name : string) : state inbox bool := fun w =>
  (ok (ticks w) && negb (bool_decide (is_Some (disk w !! Named name))), tick w).

Definition numbered (name : string) (i : Z) : string :=
  trim_suffix name (ext name) +:+ " (" +:+ itoa i +:+ ")" +:+ ext name.

Fixpoint try_numbered (tries : nat) (i : Z) (name : string) : state inbox (option string) :=
  match tries with
  | O => mret None
  | S tries' =>
    free ← stat_free (numbered name i);
    if free : bool then mret (Some (numbered name i)) else try_numbered tries' (i + 1)%Z name
  end.

Definition find_free (name : string) : state inbox (option string) :=
  free ← stat_free name;
  if free : bool then mret (Some name) else try_numbered (Z.to_nat 9999) 1 name.

Definition rename (tmp : file string) (name : string) : action inbox fserr unit :=
  sys_disk ok (fun d => <[Named name := default [] (d !! tmp)]> (delete tmp d)).

Definition placeUniquely (name : string) (tmp : file string) : action inbox Z string :=
  c ← run (find_free name);
  match c with
  | None => fail 500%Z
  | Some c => _ ← with_err (fun _ => 500%Z) (rename tmp c); mret c
  end.

(** What a reader limited to [n] bytes gives of [l]. *)
Fixpoint limit_bytes (n : Z) (l : chars) : chars :=
  match l with
  | [] => []
  | c :: l' => if (n <=? 0)%Z then [] else c :: limit_bytes (n - 1) l'
  end.

(** io.Copy of the body, through MaxBytesReader, into the temporary file. *)
Definition copy_body (s : Server) (r : Request) (tmp : file string) : action inbox Z Z :=
  let data := limit_bytes (maxBytes s) (Body r) in
  e ← attempt (sys_disk ok (insert tmp data));
  if negb (is_ok e) || ((maxBytes s <? Z.of_nat (length (Body r)))%Z || negb (BodyEnds r)) then fail 400%Z
  else mret (Z.of_nat (length data)).

(** From CreateTemp on, with the deferred removal. *)
Definition store_body (s : Server) (now : Z) (r : Request) (name label : string) : action inbox Z Received := fun w =>
  let tmp := fresh_temp (disk w) in
  match sys_disk ok (insert tmp []) w with
  | (Err _, w') => (Err 500%Z, w')
  | (Ok _, w') =>
    let '(res, w'') :=
      (n ← copy_body s r tmp;
       final ← placeUniquely name tmp;
       mret {| RName := final; RSize := n; RFrom := label; RFromIP := sourceIP (RemoteAddr r);
               RPath := join_path (InboxDir s) final; RAt := now |}) w' in
    (res, (cleanup ok tmp w'').2)
  end.

(** The checks before anything is written: the peer's label and the name. *)
Definition admit_put (s : Server) (r : Request) : result Z (string * string) :=
  if negb (bool_decide (Method r = "PUT")) && negb (bool_decide (Method r = "POST")) then Err 405%Z
  else
    match Auth s with
    | None => Err 403%Z
    | Some auth =>
      match auth (sourceIP (RemoteAddr r)) with
      | None => Err 403%Z
      | Some label =>
        match safeName (trim_prefix (URLPath r) putPrefix) with
        | Err _ => Err 400%Z
        | Ok name => if (maxBytes s <? ContentLength r)%Z then Err 413%Z else Ok (label, name)
        end
      end
    end.

(** The status and what OnReceive is called with. *)
Definition handlePut (s : Server) (now : Z) (r : Request) : state inbox (Z * option Received) := fun w =>
  match ('(label, name) ← lift (admit_put s r);
         _ ← with_err (fun _ => 500%Z) (sys ok);
         store_body s now r name label) w with
  | (Ok rec, w') => ((200%Z, Some rec), w')
  | (Err status, w') => ((status, None), w')
  end.
End server.

(** ** The client *)
Record SendResult := { SName : string; SSize : Z }.
(** A response: its code, the status of its first line, its body. *)
Record Response := { StatusCode : Z; Status : string; RespBody : chars }.
Inductive send_error := EName (e : name_error) | ETransport (e : string) | ERefused (status : string) (msg : chars).

(** [do_request]: httpClient.Do against the peer, a response or the text of an
    error. Of a refusal's body the error carries the first 512 bytes. *)
Definition Send {W} (do_request : string -> Request -> state W (result string Response))
    (addr name : string) (body : chars) (size : Z) : action W send_error SendResult :=
  clean ← lift (map_err EName (safeName name));
  let req := {| Method := "PUT"; URLPath := putPrefix +:+ clean; RemoteAddr := "";
                ContentLength := if (0 <=? size)%Z then size else -1; Body := body; BodyEnds := true |} in
  resp ← run (do_request addr req);
  match resp with
  | Err e => fail (ETransport e)
  | Ok resp =>
    if (StatusCode resp <? 200)%Z || (300 <=? StatusCode resp)%Z then fail (ERefused (Status resp) (take 512 (RespBody resp)))
    else mret {| SName := clean; SSize := size |}
  end.

(** What os.Open and the checks after it find under a path. *)
Inductive local_file := CannotOpen | CannotStat | IsDir | Regular (data : chars).

Inductive file_error := EOpen | EStat | EIsDir | ESend (e : send_error).

Definition SendFile {W} (do_request : string -> Request -> state W (result string Response)) (files : string -> local_file)
    (addr path : string) : action W file_error SendResult :=
  match files path with
  | CannotOpen => fail EOpen
  | CannotStat => fail EStat
  | IsDir => fail EIsDir
  | Regular data =>
    with_err ESend (Send do_request addr (path_base path) data (Z.of_nat (length data)))
  end.

Definition PeerAddr (ip : string) (port : Z) : string :=
  join_host_port ip (itoa (if (port <=? 0)%Z then DefaultPort else port)).

(** ** Lemmas *)
Definition candidate (name c : string) : Prop :=
  c = name \/ exists i, (1 <= i < 10000)%Z /\ c = numbered name i.

Lemma try_numbered_spec ok tries i name w :
  (1 <= i)%Z -> (i + Z.of_nat tries <= 10000)%Z ->
  let '(c, w') := try_numbered ok tries i name w in
  disk w' = disk w /\ past w' = past w /\
  forall c', c = Some c' -> candidate name c' /\ disk w !! Named c' = None.
Proof.
  revert i w. induction tries as [|n IH]; intros i w H1 H2; cbn [try_numbered]; [done|].
  unfold mbind, state_bind, stat_free.
  destruct (ok (ticks w) && negb (bool_decide (is_Some (disk w !! Named (numbered name i))))) eqn:E; cbn.
  - split_and!; [done..|]. intros c' [= <-]. apply andb_true_iff in E as [_ E].
    apply negb_true_iff, bool_decide_eq_false in E.
    split; [right; exists i; split; [lia|done]|by apply eq_None_not_Some].
  - specialize (IH (i + 1)%Z (tick w) ltac:(lia) ltac:(lia)).
    by destruct (try_numbered ok n (i + 1) name (tick w)).
Qed.

Lemma find_free_spec ok name w :
  let '(c, w') := find_free ok name w in
  disk w' = disk w /\ past w' = past w /\
  forall c', c = Some c' -> candidate name c' /\ disk w !! Named c' = None.
Proof.
  unfold find_free, mbind, state_bind, stat_free.
  destruct (ok (ticks w) && negb (bool_decide (is_Some (disk w !! Named name)))) eqn:E.
  - cbn. split_and!; [done..|]. intros c' [= <-]. apply andb_true_iff in E as [_ E].
    apply negb_true_iff, bool_decide_eq_false in E. split; [by left|by apply eq_None_not_Some].
  - pose proof (try_numbered_spec ok (Z.to_nat 9999) 1 name (tick w) ltac:(lia) ltac:(lia)) as H.
    by destruct (try_numbered ok (Z.to_nat 9999) 1 name (tick w)).
Qed.

Lemma step_to_same {N C} `{Countable N} (P : gmap (file N) C -> Prop) (w w' : world N C) :
  disk w' = disk w -> past w' = past w -> step_to P w w'.
Proof. intros Hd Hp. exists []. unfold crash_disks. by rewrite Hd, Hp. Qed.

(** One outcome of storing [data] under some candidate of [name]. *)
Definition stored (v : gmap (file string) chars) (name c : string) (data : chars) (v' : gmap (file string) chars) : Prop :=
  candidate name c /\ v !! Named c = None /\ v' = <[Named c := data]> v.

Lemma placeUniquely_spec ok name k data w v :
  visible (disk w) = v -> disk w !! Temp k = Some data ->
  let '(r, w') := placeUniquely ok name (Temp k) w in
  match r with
  | Ok c => stored v name c data (visible (disk w')) /\
            step_to (fun d => visible d = v \/ visible d = <[Named c := data]> v) w w'
  | Err status => status = 500%Z /\ visible (disk w') = v /\ step_to (fun d => visible d = v) w w'
  end.
Proof.
  intros Hv Hd. unfold placeUniquely, mbind, action_bind, run.
  pose proof (find_free_spec ok name w) as Hf. destruct (find_free ok name w) as [c w1].
  destruct Hf as (Hdisk & Hpast & Hc).
  destruct c as [c|]; [|split_and!; [done|by rewrite Hdisk|by apply step_to_same]].
  destruct (Hc c eq_refl) as [Hcand Hfree]. unfold with_err, rename, sys_disk.
  destruct (ok (ticks w1)); cbn.
  - assert (visible (<[Named c := default [] (disk w1 !! Temp k)]> (delete (Temp k) (disk w1))) = <[Named c := data]> v) as Ev.
    { rewrite Hdisk, Hd. cbn. by rewrite visible_insert, visible_delete_temp, Hv. }
    split; [split_and!; [done| |done]|].
    + by rewrite <-Hv, visible_lookup.
    + eapply step_to_trans; [by apply step_to_same|]. eapply step_to_trans; [apply step_to_tick|].
      apply step_to_set_disk. by right.
  - split_and!; [done|by rewrite Hdisk|]. eapply step_to_trans; [by apply step_to_same|apply step_to_tick].
Qed.

Lemma limit_bytes_all n l : (Z.of_nat (length l) <= n)%Z -> limit_bytes n l = l.
Proof.
  revert n. induction l as [|c l IH]; intros n Hn; cbn [limit_bytes]; [done|]. cbn [length] in Hn.
  destruct (Z.leb_spec n 0); [lia|]. by rewrite IH by lia.
Qed.

Lemma copy_body_spec ok s r k w v :
  visible (disk w) = v ->
  let '(res, w') := copy_body ok s r (Temp k) w in
  visible (disk w') = v /\ step_to (fun d => visible d = v) w w' /\
  match res with
  | Ok n => n = Z.of_nat (length (Body r)) /\ (n <= maxBytes s)%Z /\ BodyEnds r = true /\
            disk w' !! Temp k = Some (Body r)
  | Err status => status = 400%Z
  end.
Proof.
  intros Hv. unfold copy_body, mbind, action_bind, attempt.
  set (data := limit_bytes (maxBytes s) (Body r)).
  pose proof (sys_disk_looks ok v (insert (Temp k) data) w) as Hl. cbv zeta in Hl. unfold looks in Hl.
  destruct Hl as [Hd Hs]; [intros d Ed; by rewrite visible_insert_temp|done|].
  destruct (sys_disk ok (insert (Temp k) data) w) as [e w1] eqn:E. cbn [snd] in Hd, Hs.
  destruct (negb (is_ok e) || _) eqn:Eg; [by split_and!|].
  apply orb_false_iff in Eg as [He Eg]. apply orb_false_iff in Eg as [Hlen Hend].
  apply Z.ltb_ge in Hlen. apply negb_false_iff in He, Hend.
  assert (data = Body r) as Hdata by (by apply limit_bytes_all).
  cbn. rewrite Hdata. split_and!; [done..|].
  unfold sys_disk in E. destruct (ok (ticks w)); simplify_eq/=. by rewrite Hdata, lookup_insert_eq.
Qed.

Lemma store_body_spec ok s now r name label w :
  let v := visible (disk w) in
  let '(res, w') := store_body ok s now r name label w in
  match res with
  | Ok rec => exists c,
      stored v name c (Body r) (visible (disk w')) /\
      step_to (fun d => visible d = v \/ visible d = <[Named c := Body r]> v) w w' /\
      (Z.of_nat (length (Body r)) <= maxBytes s)%Z /\ BodyEnds r = true /\
      rec = {| RName := c; RSize := Z.of_nat (length (Body r)); RFrom := label;
               RFromIP := sourceIP (RemoteAddr r); RPath := join_path (InboxDir s) c; RAt := now |}
  | Err status => (status = 400%Z \/ status = 500%Z) /\ visible (disk w') = v /\ step_to (fun d => visible d = v) w w'
  end.
Proof.
  intros v. unfold store_body, fresh_temp. set (k := fresh (temps (disk w))).
  pose proof (sys_disk_looks ok v (insert (Temp k) []) w) as Hl. cbv zeta in Hl. unfold looks in Hl.
  destruct Hl as [Hd Hs]; [intros d Ed; by rewrite visible_insert_temp|done|].
  destruct (sys_disk ok (insert (Temp k) []) w) as [[[]|e] w1]; cbn [snd] in Hd, Hs; [|by auto].
  pose proof (copy_body_spec ok s r k w1 v Hd) as Hc. unfold mbind at 1, action_bind at 1.
  destruct (copy_body ok s r (Temp k) w1) as [[n|e] w2]; destruct Hc as (Hd2 & Hs2 & Hr).
  - destruct Hr as (-> & Hlen & Hend & Hdata).
    pose proof (placeUniquely_spec ok name k (Body r) w2 v Hd2 Hdata) as Hp. unfold mbind, action_bind.
    pose proof (step_to_trans _ _ _ _ Hs Hs2) as Hs12.
    destruct (placeUniquely ok name (Temp k) w2) as [[c|e] w3]; cbn -[cleanup].
    + destruct Hp as [Hst Hs3].
      destruct (cleanup_looks ok (visible (disk w3)) k w3 eq_refl) as [Hd4 Hs4]. unfold looks in *.
      exists c. rewrite Hd4. split_and!; [done| |done..].
      destruct Hst as (_ & _ & Ev). rewrite Ev in Hs4.
      eapply step_to_trans; [|eapply step_to_mono; [|exact Hs4]; by auto].
      eapply step_to_trans; [|exact Hs3]. eapply step_to_mono; [|exact Hs12]. by auto.
    + destruct Hp as (-> & Hv3 & Hs3). destruct (cleanup_looks ok v k w3 Hv3) as [Hd4 Hs4]. unfold looks in *.
      split_and!; [by right|done|]. eapply step_to_trans; [|exact Hs4]. by eapply step_to_trans.
  - cbn -[cleanup]. subst e. destruct (cleanup_looks ok v k w2 Hd2) as [Hd4 Hs4]. unfold looks in *.
    split_and!; [by left|done|]. eapply step_to_trans; [|exact Hs4]. by eapply step_to_trans.
Qed.

(** Names without separators stay so when numbered. *)
Definition flat (c : string) : Prop := c <> "" /\ ("/"%char ∉ s2l c) /\ ("\"%char ∉ s2l c).

Lemma contains_any_false s set : contains_any s set = false <-> forall c, c ∈ s2l set -> c ∉ s2l s.
Proof.
  unfold contains_any. rewrite <-not_true_iff_false, existsb_exists. split.
  - intros H c Hc Hin. apply H. exists c. rewrite contains_true. by rewrite <-list_elem_of_In.
  - intros H (c & Hc%list_elem_of_In & Hin%contains_true). by apply (H c).
Qed.

Lemma safeName_flat raw name : safeName raw = Ok name -> flat name.
Proof.
  unfold safeName. case_match eqn:E1; [done|]. case_match eqn:E2; [done|]. case_match; [done|].
  intros [= <-]. apply orb_false_iff in E1 as [E1 _]. apply bool_decide_eq_false in E1.
  rewrite contains_any_false in E2. split_and!; [done|apply E2; by left|apply E2; right; by left].
Qed.

Lemma stem_suffix_elem name c : c ∉ s2l name -> (c ∉ s2l (trim_suffix name (ext name))) /\ (c ∉ s2l (ext name)).
Proof.
  pose proof (stem_ext name) as E. intros Hc. rewrite <-E, s2l_app in Hc.
  by apply not_elem_of_app in Hc.
Qed.

Lemma numbered_flat name i : flat name -> flat (numbered name i).
Proof.
  intros (Hne & Hs & Hb). unfold numbered.
  assert (forall c, c ∉ s2l name -> is_digit c = false -> (c ∉ s2l "(- )") ->
    c ∉ s2l (trim_suffix name (ext name) +:+ " (" +:+ itoa i +:+ ")" +:+ ext name)) as H.
  { intros c Hc Hd Hp. destruct (stem_suffix_elem name c Hc) as [H1 H2].
    assert (c ∉ s2l (itoa i)) as H3.
    { intros [E| ->]%itoa_chars; [congruence|]. apply Hp. cbn. set_solver. }
    rewrite !s2l_app, !not_elem_of_app. split_and!; [done| |done| |done]; intros Hin; apply Hp; cbn in *; set_solver. }
  split_and!; [|by apply H; [done|done|cbn; set_solver]..].
  intros E. apply (f_equal s2l) in E. rewrite !s2l_app in E. by destruct (s2l (trim_suffix name (ext name))).
Qed.

Lemma handlePut_status ok s now r w :
  match handlePut ok s now r w with
  | ((status, None), w') =>
    (400 <= status)%Z /\ visible (disk w') = visible (disk w) /\
    step_to (fun d => visible d = visible (disk w)) w w'
  | ((status, Some rec), w') =>
    status = 200%Z /\ exists label name w1, admit_put s r = Ok (label, name) /\
      disk w1 = disk w /\ step_to (fun _ => False) w w1 /\ store_body ok s now r name label w1 = (Ok rec, w')
  end.
Proof.
  unfold handlePut, mbind, action_bind, lift, with_err, sys, map_err.
  destruct (admit_put s r) as [[label name]|e] eqn:E.
  - destruct (ok (ticks w)); [|split_and!; [lia|done|apply step_to_tick]].
    pose proof (store_body_spec ok s now r name label (tick w)) as H. cbv zeta in H.
    destruct (store_body ok s now r name label (tick w)) as [[rec|e] w'] eqn:Est.
    + split; [done|]. exists label, name, (tick w). split_and!; [done..|apply step_to_tick|done].
    + destruct H as ([-> | ->] & Hv & Hs); (split_and!; [lia|done|];
        eapply step_to_trans; [apply step_to_tick|exact Hs]).
  - unfold admit_put in E. split_and!; [|done|apply step_to_refl].
    repeat (case_match; simplify_eq; try done).
Qed.

Lemma admit_put_Ok s r label name :
  admit_put s r = Ok (label, name) <->
  (Method r = "PUT" \/ Method r = "POST") /\
  (exists auth, Auth s = Some auth /\ auth (sourceIP (RemoteAddr r)) = Some label) /\
  safeName (trim_prefix (URLPath r) putPrefix) = Ok name /\ (ContentLength r <= maxBytes s)%Z.
Proof.
  unfold admit_put. destruct (decide (Method r = "PUT" \/ Method r = "POST")) as [Hm|Hm].
  - assert (negb (bool_decide (Method r = "PUT")) && negb (bool_decide (Method r = "POST")) = false) as ->
      by (destruct Hm as [-> | ->]; done).
    destruct (Auth s) as [auth|]; [|naive_solver].
    destruct (auth (sourceIP (RemoteAddr r))) as [l|] eqn:Ea; [|naive_solver].
    destruct (safeName _) as [n|] eqn:En; [|naive_solver].
    destruct (Z.ltb_spec (maxBytes s) (ContentLength r)); [split; [done|intros (_ & _ & _ & ?); lia]|naive_solver].
  - rewrite (bool_decide_eq_false_2 (Method r = "PUT")), (bool_decide_eq_false_2 (Method r = "POST")) by tauto.
    cbn. split; [done|tauto].
Qed.


Lemma find_free_first ok name w :
  (forall n, ok n = true) -> disk w !! Named name = None -> find_free ok name w = (Some name, tick w).
Proof.
  intros Hok Hn. unfold find_free, mbind, state_bind, stat_free.
  by rewrite Hok, Hn, bool_decide_eq_false_2 by (by intros []).
Qed.

Lemma rename_ok ok tmp name w :
  (forall n, ok n = true) ->
  rename ok tmp name w =
    (Ok tt, set_disk (<[Named name := default [] (disk w !! tmp)]> (delete tmp (disk w))) (tick w)).
Proof. intros Hok. unfold rename, sys_disk. by rewrite Hok. Qed.

(** Two transfers at once: both find the same free name before either renames,
    and the second rename replaces the first file. *)
Theorem concurrent_drops_clobber (ok : nat -> bool) (name : string) (d1 d2 : chars) (w : inbox) :
  (forall n, ok n = true) ->
  disk w !! Named name = None -> disk w !! Temp 0 = Some d1 -> disk w !! Temp 1 = Some d2 ->
  exists w',
    (c1 ← run (find_free ok name);
     c2 ← run (find_free ok name);
     _ ← rename ok (Temp 0) (default "" c1);
     _ ← rename ok (Temp 1) (default "" c2);
     mret (c1, c2)) w = (Ok (Some name, Some name), w') /\
    visible (disk w') = <[Named name := d2]> (visible (disk w)).
Proof.
  intros Hok Hn H1 H2. eexists. split.
  - rewrite (action_bind_eq _ _ _ (Some name) (tick w)) by (unfold run; by rewrite find_free_first).
    rewrite (action_bind_eq _ _ _ (Some name) (tick (tick w))) by (unfold run; by rewrite find_free_first).
    rewrite (action_bind_eq _ _ _ _ _ (rename_ok ok _ _ _ Hok)).
    rewrite (action_bind_eq _ _ _ _ _ (rename_ok ok _ _ _ Hok)). reflexivity.
  - cbn. rewrite lookup_insert_ne, lookup_delete_ne, H2 by done. cbn.
    by rewrite visible_insert, visible_delete_temp, visible_insert, visible_delete_temp, insert_insert_eq.
Qed.

Lemma safeName_idem raw name : safeName raw = Ok name -> safeName name = Ok name.
Proof.
  unfold safeName. case_match eqn:E1; [done|]. case_match eqn:E2; [done|]. case_match eqn:E3; [done|].
  intros [= <-]. by rewrite trim_space_idem, E1, E2, E3.
Qed.

Lemma strip_put name : trim_prefix (putPrefix +:+ name) putPrefix = name.
Proof. unfold trim_prefix. rewrite s2l_app, (proj2 (strip_prefix_Some _ _ _) eq_refl). apply l2s_s2l. Qed.

(** What the network does with one request: whether a connection is made, how many
    bytes of the body get through before it breaks, and whether the response is
    back before the connection breaks or the sender's timeout. The texts of the
    responses and of the errors are the libraries'. *)
Record link := {
  connects : bool;
  carries : nat;
  returns : bool;
  response_text : Z -> string * chars;
  error_of_link : string }.
(** The connection has the sender's overlay address. *)
Definition arriving (l : link) (src : string) (req : Request) : Request :=
  {| Method := Method req; URLPath := URLPath req; RemoteAddr := src; ContentLength := ContentLength req;
     Body := take (carries l) (Body req); BodyEnds := BodyEnds req && (length (Body req) <=? carries l) |}.
Definition over {W} (l : link) (src : string) (serve : Request -> state W Z) (req : Request) : state W (result string Response) := fun w =>
  if negb (connects l) then (Err (error_of_link l), w)
  else
    let '(status, w') := serve (arriving l src req) w in
    (if returns l
     then Ok {| StatusCode := status; Status := (response_text l status).1; RespBody := (response_text l status).2 |}
     else Err (error_of_link l), w').
(** The response to a request that got through whole is lost. *)
Definition answer_lost (l : link) (body : chars) : Prop := connects l = true /\ length body <= carries l /\ returns l = false.

Definition put_status (ok : nat -> bool) (s : Server) (now : Z) (r : Request) : state inbox Z := fun w =>
  let '((status, _), w') := handlePut ok s now r w in (status, w').
Definition deliver (ok : nat -> bool) (s : Server) (now : Z) (src : string) (l : link) (addr : string) (req : Request)
    : state inbox (result string Response) := over l src (put_status ok s now) req.

Lemma arriving_whole l src req : BodyEnds (arriving l src req) = true -> Body (arriving l src req) = Body req /\ length (Body req) <= carries l.
Proof. cbn. intros [_ H%Nat.leb_le]%andb_true_iff. split; [by apply take_ge|done]. Qed.

(** What a sender may conclude when [serve] either refuses and leaves no trace or
    accepts a whole body. *)
Lemma Send_over {W} (l : link) (src : string) (serve : Request -> state W Z) addr name body size (w : W) (same : W -> Prop)
    (accepted : string -> W -> Prop) :
  same w ->
  (forall req, URLPath req = putPrefix +:+ trim_prefix (URLPath req) putPrefix -> RemoteAddr req = src ->
     let '(status, w') := serve req w in
     (400 <= status)%Z /\ same w' \/
     status = 200%Z /\ BodyEnds req = true /\
       forall clean, safeName (trim_prefix (URLPath req) putPrefix) = Ok clean -> Body req = body -> accepted clean w') ->
  let '(res, w') := Send (fun _ => over l src serve) addr name body size w in
  match res with
  | Ok sr => safeName name = Ok (SName sr) /\ SSize sr = size /\ accepted (SName sr) w'
  | Err _ => same w' \/ answer_lost l body /\ exists clean, safeName name = Ok clean /\ accepted clean w'
  end.
Proof.
  intros Hw Hs. unfold Send, mbind, action_bind, lift, map_err. destruct (safeName name) as [clean|e] eqn:En; [|by left].
  unfold run, over. destruct (connects l) eqn:Ec; cbn [negb]; [|by left].
  match goal with |- context [arriving l src ?r] => set (req := r) end. specialize (Hs (arriving l src req)).
  cbn [URLPath arriving req] in Hs. rewrite strip_put in Hs. specialize (Hs eq_refl eq_refl). fold req in Hs.
  change (serve _ w) with (serve (arriving l src req) w) in *.
  destruct (serve (arriving l src req) w) as [status w']. destruct Hs as [[Hle Hw']|(-> & Hb & Ha)].
  - destruct (returns l); cbn [StatusCode]; [|by left].
    assert ((status <? 200)%Z || (300 <=? status)%Z = true) as -> by lia. by left.
  - destruct (arriving_whole _ _ _ Hb) as [Hbody Hlen]. specialize (Ha clean (safeName_idem _ _ En) Hbody).
    destruct (returns l) eqn:Er; cbn; [done|]. right. split; [done|]. by exists clean.
Qed.

Lemma put_status_outcome ok s now req w :
  let '(status, w') := put_status ok s now req w in
  (400 <= status)%Z /\ visible (disk w') = visible (disk w) \/
  status = 200%Z /\ BodyEnds req = true /\
    forall clean, safeName (trim_prefix (URLPath req) putPrefix) = Ok clean ->
      exists c, stored (visible (disk w)) clean c (Body req) (visible (disk w')).
Proof.
  unfold put_status. pose proof (handlePut_status ok s now req w) as H.
  destruct (handlePut ok s now req w) as [[status [rec|]] w1]; [right|left; by destruct H as (? & ? & _)].
  destruct H as (-> & label & name & w0 & Ha & Hd & _ & Hst).
  pose proof (store_body_spec ok s now req name label w0) as Hb. rewrite Hst in Hb. destruct Hb as (c & Hc & _ & _ & He & _).
  split_and!; [done..|]. intros clean Hcl. apply admit_put_Ok in Ha as (_ & _ & Hn & _). rewrite Hn in Hcl. injection Hcl as ->.
  rewrite Hd in Hc. by exists c.
Qed.

(** Sender and receiver agree. When [Send] to a server reports success, the
    receiver holds one new file with exactly the bytes sent, under the name
    reported or that name numbered; when it reports an error, the receiver's
    inbox looks as it did - or holds the file all the same, but then the file had
    got through whole and the response was lost. *)
Theorem Send_delivers (ok : nat -> bool) (s : Server) (now : Z) (src : string) (l : link) (addr name : string) (body : chars)
    (size : Z) (w w' : inbox) (res : result send_error SendResult) :
  Send (deliver ok s now src l) addr name body size w = (res, w') ->
  let delivered clean := exists c, candidate clean c /\
      visible (disk w) !! Named c = None /\ visible (disk w') = <[Named c := body]> (visible (disk w)) in
  match res with
  | Ok sr => safeName name = Ok (SName sr) /\ delivered (SName sr)
  | Err _ => visible (disk w') = visible (disk w) \/
      answer_lost l body /\ exists clean, safeName name = Ok clean /\ delivered clean
  end.
Proof.
  intros E delivered.
  pose proof (Send_over l src (put_status ok s now) addr name body size w (fun w' => visible (disk w') = visible (disk w))
    (fun clean w' => exists c, stored (visible (disk w)) clean c body (visible (disk w'))) eq_refl) as H.
  change (fun _ => over l src (put_status ok s now)) with (deliver ok s now src l) in H. rewrite E in H.
  cut (match res with
       | Ok sr => safeName name = Ok (SName sr) /\ SSize sr = size /\
           exists c, stored (visible (disk w)) (SName sr) c body (visible (disk w'))
       | Err _ => visible (disk w') = visible (disk w) \/ answer_lost l body /\
           exists clean, safeName name = Ok clean /\ exists c, stored (visible (disk w)) clean c body (visible (disk w'))
       end).
  { subst delivered. unfold stored. destruct res as [sr|e]; [by intros (? & _ & ?)|done]. }
  apply H. intros req Hp _. pose proof (put_status_outcome ok s now req w) as Ho. destruct (put_status ok s now req w) as [status w1].
  destruct Ho as [Ho|(-> & He & Ho)]; [by left|right]. split_and!; [done..|]. intros clean Hcl <-. by apply Ho.
Qed.

(** A receiver that knows one peer. *)
Module ToyDrop.
Definition server : Server :=
  {| InboxDir := "/inbox"; Auth := Some (fun ip => if bool_decide (ip = "100.92.0.11") then Some "alpha.goat" else None);
     MaxBytes := 8 |}.
Definition fine (n : nat) : bool := true.
Definition start : inbox := World {[ Named "notes.txt" := s2l "old" ]} [] 0.
Definition request : Request :=
  {| Method := "PUT"; URLPath := "/put/notes.txt"; RemoteAddr := "100.92.0.11:4242"; ContentLength := 3;
     Body := s2l "new"; BodyEnds := true |}.
Definition outcome := handlePut fine server 7 request start.
End ToyDrop.


Definition ToyDrop_link : link :=
  {| connects := true; carries := 3; returns := true; response_text _ := ("", []); error_of_link := "timeout" |}.
Lemma Send_delivers_witness :
  exists c, candidate "notes.txt" c /\ visible (disk ToyDrop.start) !! Named c = None.
Proof.
  pose proof (Send_delivers ToyDrop.fine ToyDrop.server 7 "100.92.0.11:9" ToyDrop_link "peer" "notes.txt" (s2l "new") 3 ToyDrop.start) as H.
  destruct (Send _ _ _ _ _ _) as [res w'] eqn:E. specialize (H w' res eq_refl).
  destruct res as [sr|e].
  - destruct H as (Hn & c & Hc & Hf & _). exists c. split; [|exact Hf].
    assert (SName sr = "notes.txt") as <- by (vm_compute in Hn; by injection Hn). exact Hc.
  - exfalso. assert (is_ok (Send (deliver ToyDrop.fine ToyDrop.server 7 "100.92.0.11:9" ToyDrop_link) "peer" "notes.txt" (s2l "new") 3
      ToyDrop.start).1 = true) as Hok by (vm_compute; reflexivity). rewrite E in Hok. discriminate Hok.
Defined.
