(* ===== verification/DropServer.v ===== *)
(** The HTTP side of the file drop: Handler, Serve and ListenAndServe of
    internal/filedrop/server.go, over the handler of FileDrop.v.

    A request comes with the path of its URL as it was written ([escaped]);
    [URLPath] is what it stands for. The routing is that of net/http's ServeMux for
    the one pattern the server registers. *)
From stdpp Require Import base tactics list sets gmap strings.
From Stdlib Require Import ZArith Ascii Lia.
From S2P Require Import Prelude GoStr GoPath Fs.
From S2P Require Import FileDrop.
Local Open Scope list_scope.

(** ** Routing *)
Inductive route := ToPut | Redirect | NotFound.
(** A first component that stands for the one of [putPrefix]. *)
Definition put_segment (seg : chars) : bool := bool_decide (default seg (path_unescape seg) = s2l "put").
(** A path is matched once cleaned, and redirected when it was not clean; the
    pattern without its slash is redirected as well. *)
Definition mux_route (method : string) (escaped : chars) : route :=
  let path := if bool_decide (method = "CONNECT") then escaped else http_clean escaped in
  let clean := bool_decide (path = escaped) in
  match split "/"%char path with
  | [] :: seg :: rest =>
    if put_segment seg then
      match rest with [] => Redirect | _ => if clean then ToPut else Redirect end
    else if clean then NotFound else Redirect
  | _ => if clean then NotFound else Redirect
  end.

Definition Handler (ok : nat -> bool) (s : Server) (now : Z) (escaped : chars) (r : Request) : state inbox (Z * option Received) :=
  match mux_route (Method r) escaped with
  | ToPut => handlePut ok s now r
  | Redirect => mret (301%Z, None)
  | NotFound => mret (404%Z, None)
  end.

(** ** Serving *)
(** What ends http.Server.Serve: Close, which the end of the context calls, or an
    error of its listener. *)
Inductive serve_end := ErrServerClosed | EAccept.
Definition Serve (ended : serve_end) (cancelled : bool) : result serve_end unit :=
  match ended with
  | EAccept => if cancelled then Ok tt else Err EAccept
  | ErrServerClosed => Ok tt
  end.
Inductive listen_error := EListen | EServe (e : serve_end).
Definition ListenAndServe (bound : bool) (ended : serve_end) (cancelled : bool) : result listen_error unit :=
  if bound then map_err EServe (Serve ended cancelled) else Err EListen.

(** ** Theorems *)
Lemma safeName_plain raw name : safeName raw = Ok name -> plain_name name.
Proof.
  intros Hs. destruct (safeName_flat _ _ Hs) as (_ & Hsl & _). revert Hs. unfold safeName.
  case_match eqn:E1; [done|]. case_match; [done|]. case_match; [done|]. intros [= Hn]. rewrite Hn in *.
  apply orb_false_iff in E1 as [E1%bool_decide_eq_false E2]. apply orb_false_iff in E2 as [E2%bool_decide_eq_false E3%bool_decide_eq_false].
  by split_and!.
Qed.
Lemma route_ToPut method escaped :
  mux_route method escaped = ToPut ->
  exists seg rest, split "/"%char escaped = [] :: seg :: rest /\ put_segment seg = true /\ rest <> [] /\
    (method <> "CONNECT" -> escaped = http_clean escaped).
Proof.
  unfold mux_route. set (path := if bool_decide (method = "CONNECT") then escaped else http_clean escaped). intros H.
  assert (path = escaped) as He by (destruct (bool_decide_reflect (path = escaped)); [done|]; by repeat case_match).
  rewrite He in H. destruct (split _ escaped) as [|[|? ?] [|seg rest]] eqn:Es; try (by case_match).
  exists seg, rest. destruct (put_segment seg); [|by case_match]. split_and!; [done|done|by intros ->|].
  intros Hm. unfold path in He. by rewrite bool_decide_eq_false_2 in He.
Qed.
Lemma handlePut_connect ok s now r w : Method r = "CONNECT" -> handlePut ok s now r w = ((405%Z, None), w).
Proof. intros Hm. unfold handlePut, admit_put. rewrite Hm. reflexivity. Qed.

(** Nothing but a put touches the inbox. A request that changes it, or is told of
    to the owner, has a path under the put prefix that was clean as it was
    written: no component of it is a dot or two, so none is resolved away before
    the name is taken; it was answered by [handlePut]. *)
Theorem only_puts_touch_inbox ok s now escaped r w status rec w' :
  Handler ok s now escaped r w = ((status, rec), w') -> w' <> w \/ rec <> None ->
  handlePut ok s now r w = ((status, rec), w') /\
  exists seg rest, split "/"%char escaped = [] :: seg :: rest /\ path_unescape seg = Some (s2l "put") /\ rest <> [] /\
    forall c, c ∈ seg :: rest -> c <> s2l "." /\ c <> s2l "..".
Proof.
  unfold Handler. intros Hh Hw. destruct (mux_route (Method r) escaped) eqn:Er; [|injection Hh as <- <- <-; by destruct Hw..].
  split; [done|]. apply route_ToPut in Er as (seg & rest & Hs & Hp & Hr & Hm). exists seg, rest.
  assert (Method r <> "CONNECT") as Hc by (intros Hc; rewrite handlePut_connect in Hh by done; injection Hh as <- <- <-; by destruct Hw).
  split; [done|]. split; [|split; [done|]].
  - unfold put_segment in Hp. apply bool_decide_eq_true in Hp. destruct (path_unescape seg) as [u|] eqn:Eu; cbn in Hp; [by rewrite Hp|].
    rewrite Hp in Eu. discriminate Eu.
  - intros c Hin. apply (http_clean_components escaped). rewrite <-Hm, Hs by done. exact Hin.
Qed.

(** The client's request reaches the handler. The path the client writes for a
    name it may send is clean, stands for the put prefix and the name, and is
    routed to [handlePut] unchanged, whatever bytes the name is made of. *)
Theorem client_reaches_handler ok s now raw clean r w :
  safeName raw = Ok clean -> Method r <> "CONNECT" -> URLPath r = putPrefix +:+ clean ->
  let written := escape_path (s2l (URLPath r)) in
  path_unescape written = Some (s2l (URLPath r)) /\ http_clean written = written /\
  Handler ok s now written r w = handlePut ok s now r w.
Proof.
  intros Hs Hm Hu. cbv zeta. rewrite Hu, s2l_app. split; [apply unescape_escape_path|].
  assert (escape_path (s2l putPrefix ++ s2l clean) = "/"%char :: s2l "put" ++ "/"%char :: escape_path (s2l clean)) as He
    by (unfold escape_path; by rewrite bind_app).
  assert (plain_name clean) as (H1 & H2 & H3 & H4) by by eapply safeName_plain.
  assert (plain_name (l2s (escape_path (s2l clean)))) as Hplain.
  { assert (forall x, l2s (escape_path (s2l clean)) = x -> path_unescape (s2l x) = Some (s2l x) -> clean = x) as Hx.
    { intros x <-. rewrite s2l_l2s, unescape_escape_path. intros [= E]. apply s2l_inj. by rewrite s2l_l2s. }
    split; [intros E; apply H1; exact (Hx _ E eq_refl)|]. split; [intros E; apply H2; exact (Hx _ E eq_refl)|]. split; [intros E; apply H3; exact (Hx _ E eq_refl)|].
    rewrite s2l_l2s. by apply escape_path_slash. }
  assert (http_clean (escape_path (s2l putPrefix ++ s2l clean)) = escape_path (s2l putPrefix ++ s2l clean)) as Hc.
  { rewrite He. apply http_clean_plain; [|done]. rewrite l2s_s2l. split_and!; [done..|]. by apply contains_false. }
  split; [done|]. unfold Handler. enough (mux_route (Method r) (escape_path (s2l putPrefix ++ s2l clean)) = ToPut) as -> by done.
  unfold mux_route. rewrite bool_decide_eq_false_2, Hc by done. rewrite (bool_decide_eq_true_2 (_ = _)) by done. rewrite He.
  cbn [split]. rewrite Ascii.eqb_refl, split_app by (by apply contains_false). by destruct (split "/"%char (escape_path (s2l clean))) eqn:E;
    [apply split_not_nil in E|].
Qed.

(** ** A put with a space in the name, and one that tries to leave the prefix *)
Module ToyPut.
Definition server : Server := {| InboxDir := "/in"; Auth := Some (fun _ => Some "ann"); MaxBytes := 0 |}.
Definition put (path : string) : Request :=
  {| Method := "PUT"; URLPath := path; RemoteAddr := "100.92.0.11:4242"; ContentLength := 3; Body := s2l "abc"; BodyEnds := true |}.
Definition empty_inbox : inbox := World ∅ [] 0.
Lemma client_reaches_handler_witness :
  (Handler (fun _ => true) server 5 (s2l "/put/a%20b.txt") (put "/put/a b.txt") empty_inbox).1.1 = 200%Z /\
  (Handler (fun _ => true) server 5 (s2l "/put/../a") (put "/put/../a") empty_inbox).1.1 = 301%Z.
Proof.
  split; [|vm_compute; reflexivity].
  destruct (client_reaches_handler (fun _ => true) server 5 "a b.txt" "a b.txt" (put "/put/a b.txt") empty_inbox) as (_ & _ & H);
    [reflexivity|discriminate|reflexivity|].
  change (escape_path (s2l (URLPath (put "/put/a b.txt")))) with (s2l "/put/a%20b.txt") in H. rewrite H. vm_compute. reflexivity.
Defined.
Lemma only_puts_touch_inbox_witness :
  exists seg rest, split "/"%char (s2l "/put/a%20b.txt") = [] :: seg :: rest /\ path_unescape seg = Some (s2l "put").
Proof.
  destruct (Handler (fun _ => true) server 5 (s2l "/put/a%20b.txt") (put "/put/a b.txt") empty_inbox) as [[status rec] w'] eqn:E.
  assert (status = 200%Z) as Hst by (apply (f_equal (fun x => x.1.1)) in E; vm_compute in E; by rewrite <-E).
  assert (rec <> None) as Hr by (apply (f_equal (fun x => x.1.2)) in E; vm_compute in E; by rewrite <-E).
  destruct (only_puts_touch_inbox (fun _ => true) server 5 (s2l "/put/a%20b.txt") (put "/put/a b.txt") empty_inbox status rec w' E (or_intror Hr))
    as (_ & seg & rest & Hs & Hp & _). exists seg, rest. by split.
Defined.
End ToyPut.
