(* ===== verification/Ipc.v ===== *)
(** The control channel: internal/ipc (ipc.go, dispatch.go, and the bare call of
    client.go). The client's methods are in DaemonClient.v, the server in IpcServer.v.

    A connection is a sequence of lines; a line decodes to a request or not
    ([IpcJson] is encoding/json). [Handler] is the interface the daemon
    implements, with the promise that the read-only methods leave its state the
    same, up to what its implementation does not count ([same]). *)
From stdpp Require Import base tactics list strings.
From Stdlib Require Import ZArith Ascii Lia.
From S2P Require Import Prelude GoStr.
Local Open Scope list_scope.

(** ** Wire types *)
Record ImportBundleRequest := { ImportBytes : chars }.
Record SetModeRequest := { ReqMode : string }.
Record SetRosenpassRequest := { ReqEnabled : bool; ReqPermissive : bool }.
Record SendFileRequest := { ReqPeer : string; ReqPath : string }.
Record SetInnerMeshProfileRequest := {
  ReqManagementURL : string;
  ReqSetupKey : string;
  ReqAdminAccessToken : string;
  ReqMobileCert : chars;
  ReqPreSharedKey : chars }.
Record AddProfileRequest := {
  ReqName : string;
  ReqProfileMode : string;
  ReqBundleBytes : chars;
  ReqReplace : bool;
  ReqSetActive : bool }.
Record RemoveProfileRequest := { RemoveSlug : string }.
Record RenameProfileRequest := { RenameSlug : string; ReqNewName : string }.
Record SetActiveProfileRequest := { ActiveSlug : string }.

(** One constructor per method of ipc.Handler. *)
Inductive call :=
  | CImportBundle (r : ImportBundleRequest)
  | CGetStatus
  | CConnect
  | CDisconnect
  | CGetDiagnostics
  | CGetMode
  | CSetMode (r : SetModeRequest)
  | CSetRosenpass (r : SetRosenpassRequest)
  | CGetInnerMeshStatus
  | CGetPeerConnectivity
  | CGetIncomingFiles
  | CSendFile (r : SendFileRequest)
  | CSetInnerMeshProfile (r : SetInnerMeshProfileRequest)
  | CEnableInnerMesh
  | CDisableInnerMesh
  | CGetInnerMeshDiagnostics
  | CListProfiles
  | CAddProfile (r : AddProfileRequest)
  | CRemoveProfile (r : RemoveProfileRequest)
  | CRenameProfile (r : RenameProfileRequest)
  | CSetActiveProfile (r : SetActiveProfileRequest)
  | CGetActiveProfile.

(** What the comments of ipc.go call mutating. *)
Definition mutates (c : call) : bool :=
  match c with
  | CImportBundle _ | CConnect | CDisconnect | CSetMode _ | CSetRosenpass _ | CSendFile _
  | CSetInnerMeshProfile _ | CEnableInnerMesh | CDisableInnerMesh
  | CAddProfile _ | CRemoveProfile _ | CRenameProfile _ | CSetActiveProfile _ => true
  | _ => false
  end.

Record rpcRequest := { QJSONRPC : string; QID : chars; QMethod : string; QParams : chars }.
Record rpcError := { Code : Z; Message : string }.
Record rpcResponse := { PID : chars; PResult : chars; PError : option rpcError }.

Definition errCodeParse : Z := -32700.
Definition errCodeInvalidRequest : Z := -32600.
Definition errCodeMethodNotFound : Z := -32601.
Definition errCodeInvalidParams : Z := -32602.
Definition errCodeInternal : Z := -32603.
Definition errCodeUnauthorized : Z := -32001.

(** encoding/json; an error is its text. *)
Class IpcJson := {
  json_request : chars -> result string rpcRequest;
  json_import : chars -> result string ImportBundleRequest;
  json_set_mode : chars -> result string SetModeRequest;
  json_set_rosenpass : chars -> result string SetRosenpassRequest;
  json_send_file : chars -> result string SendFileRequest;
  json_set_profile : chars -> result string SetInnerMeshProfileRequest;
  json_add : chars -> result string AddProfileRequest;
  json_remove : chars -> result string RemoveProfileRequest;
  json_rename : chars -> result string RenameProfileRequest;
  json_set_active : chars -> result string SetActiveProfileRequest }.

(** ** The handler *)
Class Handler := {
  hstate : Type;
  reply : Type;
  marshal : reply -> result string chars;
  invoke : call -> action hstate string reply;
  same : relation hstate;
  same_pre :: PreOrder same;
  read_only c h : mutates c = false -> same h (invoke c h).2 }.

Section dispatcher.
Context {J : IpcJson} {H : Handler}.

Record Dispatcher := { CredsUid : Z; trustedUid : Z }.

Definition authorizedForMutate (d : Dispatcher) : bool :=
  (trustedUid d =? 0)%Z || (CredsUid d =? trustedUid d)%Z.

Definition isMutating (m : string) : bool :=
  bool_decide (m ∈ ["importBundle"; "connect"; "disconnect"; "setMode"; "setRosenpass";
                    "setInnerMeshProfile"; "enableInnerMesh"; "disableInnerMesh";
                    "addProfile"; "removeProfile"; "renameProfile"; "setActiveProfile"; "sendFile"]).

(** The switch of [handle]: [None] for an unknown method. *)
Definition decode_call (method : string) (params : chars) : option (result string call) :=
  if bool_decide (method = "importBundle") then Some (p ← json_import params; Ok (CImportBundle p))
  else if bool_decide (method = "getStatus") then Some (Ok CGetStatus)
  else if bool_decide (method = "connect") then Some (Ok CConnect)
  else if bool_decide (method = "disconnect") then Some (Ok CDisconnect)
  else if bool_decide (method = "getDiagnostics") then Some (Ok CGetDiagnostics)
  else if bool_decide (method = "getMode") then Some (Ok CGetMode)
  else if bool_decide (method = "setMode") then Some (p ← json_set_mode params; Ok (CSetMode p))
  else if bool_decide (method = "setRosenpass") then Some (p ← json_set_rosenpass params; Ok (CSetRosenpass p))
  else if bool_decide (method = "getInnerMeshStatus") then Some (Ok CGetInnerMeshStatus)
  else if bool_decide (method = "getPeerConnectivity") then Some (Ok CGetPeerConnectivity)
  else if bool_decide (method = "getIncomingFiles") then Some (Ok CGetIncomingFiles)
  else if bool_decide (method = "sendFile") then Some (p ← json_send_file params; Ok (CSendFile p))
  else if bool_decide (method = "setInnerMeshProfile") then Some (p ← json_set_profile params; Ok (CSetInnerMeshProfile p))
  else if bool_decide (method = "enableInnerMesh") then Some (Ok CEnableInnerMesh)
  else if bool_decide (method = "disableInnerMesh") then Some (Ok CDisableInnerMesh)
  else if bool_decide (method = "getInnerMeshDiagnostics") then Some (Ok CGetInnerMeshDiagnostics)
  else if bool_decide (method = "listProfiles") then Some (Ok CListProfiles)
  else if bool_decide (method = "addProfile") then Some (p ← json_add params; Ok (CAddProfile p))
  else if bool_decide (method = "removeProfile") then Some (p ← json_remove params; Ok (CRemoveProfile p))
  else if bool_decide (method = "renameProfile") then Some (p ← json_rename params; Ok (CRenameProfile p))
  else if bool_decide (method = "setActiveProfile") then Some (p ← json_set_active params; Ok (CSetActiveProfile p))
  else if bool_decide (method = "getActiveProfile") then Some (Ok CGetActiveProfile)
  else None.

Definition error_response (id : chars) (code : Z) (msg : string) : rpcResponse :=
  {| PID := id; PResult := []; PError := Some {| Code := code; Message := msg |} |}.

Definition fillResult (id : chars) (out : result string reply) : rpcResponse :=
  match out with
  | Err e => error_response id errCodeInternal e
  | Ok r =>
    match marshal r with
    | Err e => error_response id errCodeInternal e
    | Ok b => {| PID := id; PResult := b; PError := None |}
    end
  end.

Definition handle (d : Dispatcher) (req : rpcRequest) : state hstate rpcResponse := fun h =>
  let id := QID req in
  if negb (bool_decide (QJSONRPC req = "2.0")) || bool_decide (QMethod req = "")
  then (error_response id errCodeInvalidRequest "missing jsonrpc:2.0 or method", h)
  else if isMutating (QMethod req) && negb (authorizedForMutate d)
  then (error_response id errCodeUnauthorized "ipc: peer uid not authorized", h)
  else
    match decode_call (QMethod req) (QParams req) with
    | None => (error_response id errCodeMethodNotFound "ipc: unknown method", h)
    | Some (Err e) => (error_response id errCodeInvalidParams e, h)
    | Some (Ok c) => let '(out, h') := invoke c h in (fillResult id out, h')
    end.

(** bufio.Scanner with a buffer of at most 1 MiB, which must hold the line
    and its newline. *)
Definition max_line : Z := (2 ^ 20)%Z.
Definition too_long (line : chars) : bool := (max_line <=? Z.of_nat (length line))%Z.

Inductive serve_end := EOF | ECtxDone | EWrite | ETooLong.

(** The i-th line finds the context cancelled where [ctx_done i]; its response
    is written where [write_ok i]. The result has the responses written. *)
Fixpoint Serve (d : Dispatcher) (ctx_done write_ok : nat -> bool) (i : nat) (lines : list chars)
    : state hstate (list rpcResponse * serve_end) := fun h =>
  match lines with
  | [] => (([], EOF), h)
  | line :: lines' =>
    if too_long line then (([], ETooLong), h)
    else if ctx_done i then (([], ECtxDone), h)
    else
      match json_request line with
      | Err e =>
        let resp := error_response [] errCodeParse e in
        let '((out, r), h') := Serve d ctx_done write_ok (S i) lines' h in
        ((if write_ok i then resp :: out else out, r), h')
      | Ok req =>
        let '(resp, h') := handle d req h in
        if negb (write_ok i) then (([], EWrite), h')
        else let '((out, r), h'') := Serve d ctx_done write_ok (S i) lines' h' in ((resp :: out, r), h'')
      end
  end.
End dispatcher.

(** ** The client *)
Inductive TunnelState := WireStateNoBundle | WireStateDisconnected | WireStateConnecting | WireStateConnected | WireStateError.
Inductive State := StateDisconnected | StateConnecting | StateConnected | StateError.

Definition mapWireState (s : TunnelState) : State :=
  match s with
  | WireStateConnecting => StateConnecting
  | WireStateConnected => StateConnected
  | WireStateError => StateError
  | _ => StateDisconnected
  end.

(** A connection as the client sees it: the id generator and the responses the
    daemon has written that were not read yet. [answer] is the daemon's
    response to a request, [in_time] whether it is there before the deadline. *)
Record rpcClient := { gen : Z; unread : list rpcResponse }.

Inductive call_error := EReadResponse | ERpc (e : rpcError).

Definition client_call (answer : chars -> rpcResponse) (in_time : bool) : action rpcClient call_error chars := fun c =>
  let gen := (gen c + 1)%Z in
  let id := s2l (itoa gen) in
  let arrived := if in_time then unread c ++ [answer id] else unread c in
  let late := if in_time then [] else [answer id] in
  match arrived with
  | [] => (Err EReadResponse, {| gen := gen; unread := late |})
  | resp :: rest =>
    (match PError resp with Some e => Err (ERpc e) | None => Ok (PResult resp) end,
     {| gen := gen; unread := rest ++ late |})
  end.

(** ** Theorems *)
Section properties.
Context {J : IpcJson} {H : Handler}.

(** The list of [isMutating] leaves no mutating method out. *)
Lemma decode_call_mutates m params c : decode_call m params = Some (Ok c) -> mutates c = isMutating m.
Proof.
  unfold decode_call. repeat (case_bool_decide; [subst; intros E; apply (inj Some) in E; inv_ok; reflexivity|]).
  done.
Qed.

Lemma handle_unauthorized d req h :
  authorizedForMutate d = false -> same h (handle d req h).2.
Proof.
  intros Hd. unfold handle. rewrite Hd. case_match; [done|]. case_match eqn:Em; [done|].
  destruct (decode_call _ _) as [[c|e]|] eqn:Ec; [|done..].
  apply decode_call_mutates in Ec. rewrite andb_true_r in Em. rewrite Em in Ec.
  pose proof (read_only c h Ec) as Hr. by destruct (invoke c h).
Qed.

Lemma Serve_unauthorized d ctx_done write_ok i lines h :
  authorizedForMutate d = false -> same h (Serve d ctx_done write_ok i lines h).2.
Proof.
  intros Hd. revert i h. induction lines as [|line lines IH]; intros i h; cbn [Serve]; [done|].
  case_match; [done|]. case_match; [done|]. destruct (json_request line) as [req|e].
  - pose proof (handle_unauthorized d req h Hd) as Hh. destruct (handle d req h) as [resp h']. cbn in Hh.
    case_match; [done|]. specialize (IH (S i) h'). destruct (Serve d ctx_done write_ok (S i) lines h') as [[out r] h''].
    by etrans.
  - specialize (IH (S i) h). by destruct (Serve d ctx_done write_ok (S i) lines h) as [[out r] h'].
Qed.

(** C23: A peer without the trusted uid changes nothing, if the trusted uid is not
    0 (for which the dispatcher lets everybody through). Whatever lines it sends,
    the daemon's state is at the end the same; each request for a mutating
    method, well-formed or not beyond its envelope, is answered with the
    unauthorised code and its id, and never reaches the handler. *)
Theorem Serve_unauthorized_inert (d : Dispatcher) (ctx_done write_ok : nat -> bool) (i : nat)
    (lines : list chars) (h : hstate) :
  trustedUid d <> 0%Z -> CredsUid d <> trustedUid d ->
  same h (Serve d ctx_done write_ok i lines h).2 /\
  (forall req h', QJSONRPC req = "2.0" -> isMutating (QMethod req) = true ->
     handle d req h' = (error_response (QID req) errCodeUnauthorized "ipc: peer uid not authorized", h')).
Proof.
  intros H0 Hu. assert (authorizedForMutate d = false) as Hd by (unfold authorizedForMutate; lia). split.
  - by apply Serve_unauthorized.
  - intros req h' Hv Hm. unfold handle. rewrite Hd, Hm, Hv. cbn [negb andb].
    rewrite bool_decide_eq_true_2 by done. cbn [negb orb].
    rewrite bool_decide_eq_false_2; [done|]. intros E. rewrite E in Hm. by vm_compute in Hm.
Qed.

(** With the trusted uid 0, that of a daemon run by root, the check is off. *)
Lemma root_daemon_trusts_all (d : Dispatcher) : trustedUid d = 0%Z -> authorizedForMutate d = true.
Proof. unfold authorizedForMutate. by intros ->. Qed.

(** The call a line makes, if the dispatcher lets it through. *)
Definition admitted_call (d : Dispatcher) (line : chars) : option call :=
  match json_request line with
  | Err _ => None
  | Ok req =>
    if negb (bool_decide (QJSONRPC req = "2.0")) || bool_decide (QMethod req = "") then None
    else if isMutating (QMethod req) && negb (authorizedForMutate d) then None
    else match decode_call (QMethod req) (QParams req) with Some (Ok c) => Some c | _ => None end
  end.

(** The lines a connection gets to. *)
Fixpoint processed (ctx_done write_ok : nat -> bool) (i : nat) (lines : list chars) : list chars :=
  match lines with
  | [] => []
  | line :: lines' =>
    if too_long line || ctx_done i then []
    else line :: (if is_ok (json_request line) && negb (write_ok i) then [] else processed ctx_done write_ok (S i) lines')
  end.

Definition invoked (h : hstate) (c : call) : hstate := (invoke c h).2.
Definition line_id (line : chars) : chars := match json_request line with Ok req => QID req | Err _ => [] end.

Lemma handle_admitted d line req h :
  json_request line = Ok req ->
  (handle d req h).2 = match admitted_call d line with Some c => invoked h c | None => h end /\
  PID (handle d req h).1 = QID req.
Proof.
  intros Hj. unfold admitted_call, handle, invoked. rewrite Hj. case_match; [done|]. case_match; [done|].
  destruct (decode_call (QMethod req) (QParams req)) as [[c|e]|]; [|done..].
  destruct (invoke c h) as [out h']. cbn. split; [done|]. unfold fillResult. destruct out as [r|e]; [|done].
  by destruct (marshal r).
Qed.

(** C40: A connection is a sequence of calls. Whatever a peer sends and however the
    connection ends, the daemon's state is the one that results from carrying out,
    in order and once each, exactly the calls of the lines the connection got to
    that the dispatcher admits: well-formed, of a known method, with parameters
    that decode, and authorised where they change anything. And as long as the
    responses can be written, each line has one response, in order, under the id
    of its request. *)
Theorem Serve_executes (d : Dispatcher) (ctx_done write_ok : nat -> bool) (i : nat) (lines : list chars) (h : hstate) :
  let '((out, r), h') := Serve d ctx_done write_ok i lines h in
  h' = foldl invoked h (omap (admitted_call d) (processed ctx_done write_ok i lines)) /\
  ((forall j, write_ok j = true) -> PID <$> out = line_id <$> processed ctx_done write_ok i lines) /\
  length out <= length lines.
Proof.
  revert i h. induction lines as [|line lines IH]; intros i h; cbn [Serve processed]; [done|].
  destruct (too_long line); [by split_and!; cbn; [done|done|lia]|]. destruct (ctx_done i); [by split_and!; cbn; [done|done|lia]|].
  cbn [orb]. unfold line_id at 1. destruct (json_request line) as [req|e] eqn:Ej; cbn [is_ok andb].
  - destruct (handle_admitted d line req h Ej) as [Hh Hp]. destruct (handle d req h) as [resp h1]. cbn [fst snd] in *.
    assert (h1 = foldl invoked h (omap (admitted_call d) [line])) as Hh1 by (cbn; rewrite Hh; by destruct (admitted_call d line)).
    destruct (write_ok i) eqn:Ew; cbn [negb].
    + specialize (IH (S i) h1). destruct (Serve d ctx_done write_ok (S i) lines h1) as [[out r] h2].
      destruct IH as (-> & Hi & Hl). change (line :: ?l) with ([line] ++ l). rewrite omap_app, foldl_app, <-Hh1.
      split_and!; [done| |cbn; lia]. intros Hw. cbn. rewrite Ej. by rewrite Hp, Hi.
    + split_and!; [done| |cbn; lia]. intros Hw. by rewrite Hw in Ew.
  - specialize (IH (S i) h). destruct (Serve d ctx_done write_ok (S i) lines h) as [[out r] h2].
    destruct IH as (-> & Hi & Hl). assert (admitted_call d line = None) as Ha by (unfold admitted_call; by rewrite Ej).
    change (line :: ?l) with ([line] ++ l). rewrite omap_app. cbn [omap list_omap]. rewrite Ha. cbn [app].
    split_and!; [done| |destruct (write_ok i); cbn; lia]. intros Hw. rewrite Hw. cbn. rewrite Ej. by rewrite Hi.
Qed.
End properties.

(** Without a timeout every call reads its own response. *)
Lemma client_call_own answer c r c' :
  unread c = [] -> client_call answer true c = (r, c') ->
  unread c' = [] /\ r = match PError (answer (s2l (itoa (gen c')))) with
                        | Some e => Err (ERpc e)
                        | None => Ok (PResult (answer (s2l (itoa (gen c')))))
                        end.
Proof. unfold client_call. intros ->. cbn. by intros [= <- <-]. Qed.

(** After a timeout the next call is given the late response to the previous
    one: the ids are never compared. *)
Theorem late_reply_desync (answer1 answer2 : chars -> rpcResponse) (c : rpcClient) :
  unread c = [] ->
  let id1 := s2l (itoa (gen c + 1)) in
  PError (answer1 id1) = None ->
  exists c1 c2, client_call answer1 false c = (Err EReadResponse, c1) /\
    client_call answer2 true c1 = (Ok (PResult (answer1 id1)), c2) /\
    unread c2 = [answer2 (s2l (itoa (gen c + 1 + 1)))].
Proof.
  intros Hu id1 He. unfold client_call. rewrite Hu. eexists _, _. split; [reflexivity|].
  cbn [app unread gen]. fold id1. rewrite He. by split.
Qed.

(** A handler that counts what it is asked to change. *)
Module ToyIpc.
#[export, refine] Instance handler : Handler := {|
  hstate := nat; reply := string; marshal r := Ok (s2l r);
  invoke c n := (Ok "done", if mutates c then S n else n); same := eq |}.
Proof. intros c h Hm. cbn. by rewrite Hm. Defined.

(** A line is the method's name. *)
#[export] Instance json : IpcJson := {|
  json_request l := Ok {| QJSONRPC := "2.0"; QID := s2l "1"; QMethod := l2s l; QParams := [] |};
  json_import l := Ok {| ImportBytes := l |};
  json_set_mode l := Ok {| ReqMode := l2s l |};
  json_set_rosenpass _ := Err "params"; json_send_file _ := Err "params"; json_set_profile _ := Err "params";
  json_add _ := Err "params"; json_remove _ := Err "params"; json_rename _ := Err "params";
  json_set_active _ := Err "params" |}.

Definition guest : Dispatcher := {| CredsUid := 1001; trustedUid := 1000 |}.
Definition owner : Dispatcher := {| CredsUid := 1000; trustedUid := 1000 |}.
Definition lines : list chars := [s2l "connect"; s2l "getStatus"; s2l "importBundle"].
Definition served (d : Dispatcher) : nat := (Serve d (fun _ => false) (fun _ => true) 0 lines 5).2.
End ToyIpc.

Lemma Serve_unauthorized_inert_witness : ToyIpc.served ToyIpc.owner = 7 /\ 5 = ToyIpc.served ToyIpc.guest.
Proof.
  split; [vm_compute; reflexivity|].
  apply (Serve_unauthorized_inert ToyIpc.guest (fun _ => false) (fun _ => true) 0 ToyIpc.lines (5 : @hstate ToyIpc.handler)); discriminate.
Defined.
