(* ===== verification/Daemon.v ===== *)
(** The daemon: internal/daemon/daemon.go.

    [Daemon] is the state the handlers share, a handler is an action on it, and
    the tunnel manager, the mesh handle, the host resolver and the profile
    store are reached through their interfaces. Handlers run one at a time
    here. Log lines are left out. *)
From stdpp Require Import base tactics list gmap strings.
From Stdlib Require Import ZArith Ascii Lia.
From S2P Require Import Prelude GoStr Fs.
From S2P Require Import Mode.
From S2P Require Import Bundle.
From S2P Require Import Profile.
From S2P Require Import Tunnel.
From S2P Require Import DnsAdapter.
From S2P Require Import InnerMesh.
From S2P Require Import Ipc.
Local Open Scope list_scope.

(** ** What the daemon uses *)

Record rosenpassIntent := { Enabled : bool; Permissive : bool }.

(** What the daemon sees of the names service. *)
Record NamesSvc := { Upstreams : list string; ForwarderHealthy : bool; ForwarderAddr : string }.
Definition SetUpstreams (l : list string) (s : NamesSvc) : NamesSvc :=
  {| Upstreams := l; ForwarderHealthy := ForwarderHealthy s; ForwarderAddr := ForwarderAddr s |}.

Inductive daemon_error :=
  | EBundlePathRequired
  | ESocketPathRequired
  | ELoadConfig (e : config_error)
  | EMixedPorts
  | EBadDnsServer (s : string)
  | EUnknownPersistedMode
  | EInvalidInitialMode
  | EProfileStore (msg : string)
  | EBundleParse
  | EBundleVerify (e : trust_error)
  | EBundleKeypair
  | EBundleExpired
  | EReplaceActive (e : profile_error)
  | EAddDefault (e : profile_error)
  | ESetActive (e : profile_error)
  | EUnknownMode
  | EModeWithoutMesh
  | ENoMeshManager
  | ENoBundle
  | EDeriveTunnel (e : tunnel_error)
  | ETunnelConfigure (e : tunnel_error)
  | ETunnelUp (e : tunnel_error)
  | ETunnelDown (e : tunnel_error)
  | EMesh (e : mesh_error)
  | EMeshUp (e : mesh_error)
  | EProfile (e : profile_error)
  | ESetActiveAfterAdd (e : profile_error)
  | ESlugRequired
  | EList (e : profile_error).

Section daemon.
Context {K : BundleCodec} {C : Crypto} {J : RawJson} {N : NetipLib} {U : NetText} {H : HostDNS}
  {T : TunnelManager} {M : Mesh}.

Record Config := {
  BundlePath : string;
  SocketPath : string;
  ProfilesDir : string;
  ActiveProfilePath : string;
  CfgTrustRoots : option TrustRoots;
  CfgPath : string;
  InitialMode : Mode;
  NamesFronting : bool;
  MeshSupervisorInterval : Z;
  MeshSupervisorMax : Z }.

Record appliedDNS := { aIface : string; aDirect : DnsConfig }.

(** [dropped] are the mesh handles the daemon let go of. *)
Record Daemon := mkDaemon {
  currentMode : Mode;
  rosenpassOverride : option rosenpassIntent;
  namesSvc : option NamesSvc;
  currentBundle : option EnrollmentBundle;
  currentSlug : string;
  manager : tmgr;
  dmesh : option mesh;
  meshWanted : bool;
  host : resolver;
  lastConnect : Z;
  lastErr : option daemon_error;
  lastDNS : option appliedDNS;
  meshDNS : DnsConfig;
  persistedCfg : PersistedConfig;
  store : pworld;
  config_file : world string chars;
  dropped : list mesh }.

#[export] Instance set_currentMode : Setter currentMode := fun g d =>
  mkDaemon (g (currentMode d)) (rosenpassOverride d) (namesSvc d) (currentBundle d) (currentSlug d) (manager d)
    (dmesh d) (meshWanted d) (host d) (lastConnect d) (lastErr d) (lastDNS d) (meshDNS d) (persistedCfg d)
    (store d) (config_file d) (dropped d).
#[export] Instance set_rosenpassOverride : Setter rosenpassOverride := fun g d =>
  mkDaemon (currentMode d) (g (rosenpassOverride d)) (namesSvc d) (currentBundle d) (currentSlug d) (manager d)
    (dmesh d) (meshWanted d) (host d) (lastConnect d) (lastErr d) (lastDNS d) (meshDNS d) (persistedCfg d)
    (store d) (config_file d) (dropped d).
#[export] Instance set_namesSvc : Setter namesSvc := fun g d =>
  mkDaemon (currentMode d) (rosenpassOverride d) (g (namesSvc d)) (currentBundle d) (currentSlug d) (manager d)
    (dmesh d) (meshWanted d) (host d) (lastConnect d) (lastErr d) (lastDNS d) (meshDNS d) (persistedCfg d)
    (store d) (config_file d) (dropped d).
#[export] Instance set_currentBundle : Setter currentBundle := fun g d =>
  mkDaemon (currentMode d) (rosenpassOverride d) (namesSvc d) (g (currentBundle d)) (currentSlug d) (manager d)
    (dmesh d) (meshWanted d) (host d) (lastConnect d) (lastErr d) (lastDNS d) (meshDNS d) (persistedCfg d)
    (store d) (config_file d) (dropped d).
#[export] Instance set_currentSlug : Setter currentSlug := fun g d =>
  mkDaemon (currentMode d) (rosenpassOverride d) (namesSvc d) (currentBundle d) (g (currentSlug d)) (manager d)
    (dmesh d) (meshWanted d) (host d) (lastConnect d) (lastErr d) (lastDNS d) (meshDNS d) (persistedCfg d)
    (store d) (config_file d) (dropped d).
#[export] Instance set_manager : Setter manager := fun g d =>
  mkDaemon (currentMode d) (rosenpassOverride d) (namesSvc d) (currentBundle d) (currentSlug d) (g (manager d))
    (dmesh d) (meshWanted d) (host d) (lastConnect d) (lastErr d) (lastDNS d) (meshDNS d) (persistedCfg d)
    (store d) (config_file d) (dropped d).
#[export] Instance set_dmesh : Setter dmesh := fun g d =>
  mkDaemon (currentMode d) (rosenpassOverride d) (namesSvc d) (currentBundle d) (currentSlug d) (manager d)
    (g (dmesh d)) (meshWanted d) (host d) (lastConnect d) (lastErr d) (lastDNS d) (meshDNS d) (persistedCfg d)
    (store d) (config_file d) (dropped d).
#[export] Instance set_meshWanted : Setter meshWanted := fun g d =>
  mkDaemon (currentMode d) (rosenpassOverride d) (namesSvc d) (currentBundle d) (currentSlug d) (manager d)
    (dmesh d) (g (meshWanted d)) (host d) (lastConnect d) (lastErr d) (lastDNS d) (meshDNS d) (persistedCfg d)
    (store d) (config_file d) (dropped d).
#[export] Instance set_host : Setter host := fun g d =>
  mkDaemon (currentMode d) (rosenpassOverride d) (namesSvc d) (currentBundle d) (currentSlug d) (manager d)
    (dmesh d) (meshWanted d) (g (host d)) (lastConnect d) (lastErr d) (lastDNS d) (meshDNS d) (persistedCfg d)
    (store d) (config_file d) (dropped d).
#[export] Instance set_lastConnect : Setter lastConnect := fun g d =>
  mkDaemon (currentMode d) (rosenpassOverride d) (namesSvc d) (currentBundle d) (currentSlug d) (manager d)
    (dmesh d) (meshWanted d) (host d) (g (lastConnect d)) (lastErr d) (lastDNS d) (meshDNS d) (persistedCfg d)
    (store d) (config_file d) (dropped d).
#[export] Instance set_lastErr : Setter lastErr := fun g d =>
  mkDaemon (currentMode d) (rosenpassOverride d) (namesSvc d) (currentBundle d) (currentSlug d) (manager d)
    (dmesh d) (meshWanted d) (host d) (lastConnect d) (g (lastErr d)) (lastDNS d) (meshDNS d) (persistedCfg d)
    (store d) (config_file d) (dropped d).
#[export] Instance set_lastDNS : Setter lastDNS := fun g d =>
  mkDaemon (currentMode d) (rosenpassOverride d) (namesSvc d) (currentBundle d) (currentSlug d) (manager d)
    (dmesh d) (meshWanted d) (host d) (lastConnect d) (lastErr d) (g (lastDNS d)) (meshDNS d) (persistedCfg d)
    (store d) (config_file d) (dropped d).
#[export] Instance set_store : Setter store := fun g d =>
  mkDaemon (currentMode d) (rosenpassOverride d) (namesSvc d) (currentBundle d) (currentSlug d) (manager d)
    (dmesh d) (meshWanted d) (host d) (lastConnect d) (lastErr d) (lastDNS d) (meshDNS d) (persistedCfg d)
    (g (store d)) (config_file d) (dropped d).
#[export] Instance set_config_file : Setter config_file := fun g d =>
  mkDaemon (currentMode d) (rosenpassOverride d) (namesSvc d) (currentBundle d) (currentSlug d) (manager d)
    (dmesh d) (meshWanted d) (host d) (lastConnect d) (lastErr d) (lastDNS d) (meshDNS d) (persistedCfg d)
    (store d) (g (config_file d)) (dropped d).
#[export] Instance set_dropped : Setter dropped := fun g d =>
  mkDaemon (currentMode d) (rosenpassOverride d) (namesSvc d) (currentBundle d) (currentSlug d) (manager d)
    (dmesh d) (meshWanted d) (host d) (lastConnect d) (lastErr d) (lastDNS d) (meshDNS d) (persistedCfg d)
    (store d) (config_file d) (g (dropped d)).

Abbreviation dact := (action Daemon).

(** [on f m] runs [m] on the part [f] of the daemon. *)
Definition on {S E A} (f : Daemon -> S) {F : Setter f} (m : action S E A) : dact E A := fun d =>
  let '(r, s) := m (f d) in (r, d <| f := s |>).
(** A method of the mesh object the local variable [h] and d.mesh point to. *)
Definition on_mesh {E A} (h : mesh) (m : action mesh E A) : dact E A := fun d =>
  let '(r, h') := m h in (r, d <| dmesh := Some h' |>).
Definition update {E} (f : Daemon -> Daemon) : dact E unit := run (modify f).
(** The fields read under the lock. *)
Definition snapshot {E} : dact E Daemon := run get.
(** The calls of the outside during one handler: which system calls of the
    profile store and of the configuration file succeed, and the clock. *)
Record Env := { store_ok : nat -> bool; config_ok : nat -> bool; now : Z }.

Context (platform : os) (meshFactory : mesh) (cfg : Config).

(** ** Host DNS *)

(** [if len(l) == 0 { l = l' }] *)
Definition or_else {A} (l l' : list A) : list A := match l with [] => l' | _ => l end.

Definition upstreamStrings (c : DnsConfig) : list string :=
  (fun a => if negb (Port c =? 0)%Z && negb (Port c =? 53)%Z
            then join_host_port (addr_text a) (itoa (Port c)) else addr_text a) <$> Nameservers c.

Definition frontedDNSConfig (direct : DnsConfig) (forwarderAddr : string) : option DnsConfig :=
  '(a, p) ← parse_addr_port forwarderAddr;
  Some {| Nameservers := [a]; DSearchDomains := DSearchDomains direct; DMatchDomains := DMatchDomains direct;
          Port := p |}.

Definition direct_config (mesh : DnsConfig) (c : TConfig) : DnsConfig :=
  {| Nameservers := or_else (DNSServers c) (Nameservers mesh);
     DSearchDomains := or_else (SearchDomains c) (DSearchDomains mesh);
     DMatchDomains := or_else (MatchDomains c) (DMatchDomains mesh);
     Port := match DNSServers c with [] => Port mesh | _ => 0 end |}.

(** The variant to try first. *)
Definition fronting (d : Daemon) (direct : DnsConfig) : option DnsConfig :=
  if NamesFronting cfg then
    match namesSvc d with
    | Some s => if ForwarderHealthy s then frontedDNSConfig direct (ForwarderAddr s) else None
    | None => None
    end
  else None.

Definition applyDNSCurrent {E} (iface : string) (direct : DnsConfig) : dact E unit :=
  d ← snapshot;
  fronted ← match fronting d direct with
            | Some c => r ← attempt (on host (dns_apply iface c)); mret (is_ok r)
            | None => mret false
            end;
  if fronted : bool then mret tt else ignore (on host (dns_apply iface direct)).

Definition applyDNS {E} (iface : string) (c : TConfig) : dact E unit :=
  d ← snapshot;
  let direct := direct_config (meshDNS d) c in
  _ ← update (fun d => d <| namesSvc := SetUpstreams (upstreamStrings direct) <$> namesSvc d |>);
  _ ← update (fun d => d <| lastDNS := Some {| aIface := iface; aDirect := direct |} |>);
  applyDNSCurrent iface direct.

(** Called after the forwarder's health changed to [up], which it reads itself. *)
Definition onForwarderState {E} (up : bool) : dact E unit :=
  d ← snapshot;
  match lastDNS d with
  | None => mret tt
  | Some last => applyDNSCurrent (aIface last) (aDirect last)
  end.

Definition restoreDNS : dact dns_error unit :=
  _ ← update (fun d => d <| lastDNS := None |>);
  on host dns_restore.

Definition currentSiteZone (d : Daemon) : string * string :=
  match currentBundle d with
  | None => ("", "")
  | Some b =>
    let raw := SetupManagementURL (MeshSetup b) in
    (Site b, if bool_decide (raw = "") then "" else default "" (url_hostname raw))
  end.

(** ** The inner mesh's configuration *)

Definition overrideFromProfile (p : Profile) : option rosenpassIntent :=
  match pRosenpassEnabled p with
  | None => None
  | Some e => Some {| Enabled := e; Permissive := default false (pRosenpassPermissive p) |}
  end.

Definition meshConfigFromBundle (b : option EnrollmentBundle) : MConfig :=
  match InnerMesh.FromBundle b with Ok c => c | Err _ => zero_config end.

Definition profilesDir : string :=
  if bool_decide (ProfilesDir cfg = "") then path_join [path_dir (BundlePath cfg); "profiles"] else ProfilesDir cfg.
Definition activePath : string :=
  if bool_decide (ActiveProfilePath cfg = "") then path_join [path_dir (BundlePath cfg); "active.json"]
  else ActiveProfilePath cfg.

Definition fillMeshPersistPaths (slug : string) (c : MConfig) : MConfig :=
  let slug := if bool_decide (slug = "") then "default" else slug in
  let imDir := path_join [profilesDir; slug +:+ ".innermesh"] in
  {| SetupKey := SetupKey c; ManagementURL := ManagementURL c; PreferKernelWG := PreferKernelWG c;
     AdminAccessToken := AdminAccessToken c; CMobileCert := CMobileCert c; PreSharedKey := PreSharedKey c;
     RosenpassEnabled := RosenpassEnabled c; RosenpassPermissive := RosenpassPermissive c;
     ConfigPath := path_join [imDir; "config.json"]; StatePath := path_join [imDir; "state.json"];
     BundleDeviceID := BundleDeviceID c |}.

Definition with_override (ov : option rosenpassIntent) (c : MConfig) : MConfig :=
  match ov with
  | None => c
  | Some i =>
    {| SetupKey := SetupKey c; ManagementURL := ManagementURL c; PreferKernelWG := PreferKernelWG c;
       AdminAccessToken := AdminAccessToken c; CMobileCert := CMobileCert c; PreSharedKey := PreSharedKey c;
       RosenpassEnabled := Enabled i; RosenpassPermissive := Permissive i;
       ConfigPath := ConfigPath c; StatePath := StatePath c; BundleDeviceID := BundleDeviceID c |}
  end.

Definition meshConfig (d : Daemon) (b : option EnrollmentBundle) : MConfig :=
  fillMeshPersistPaths (currentSlug d) (with_override (rosenpassOverride d) (meshConfigFromBundle b)).

(** ** Start-up *)

(** The loop of [New] over mesh_dns_servers. *)
Fixpoint parse_dns_servers (l : list string) (acc : DnsConfig) : result daemon_error DnsConfig :=
  match l with
  | [] => Ok acc
  | s :: l' =>
    let add a port := {| Nameservers := Nameservers acc ++ [a]; DSearchDomains := DSearchDomains acc;
                         DMatchDomains := DMatchDomains acc; Port := port |} in
    match parse_addr_port s with
    | Some (a, port) =>
      if negb (Port acc =? 0)%Z && negb (Port acc =? port)%Z then Err EMixedPorts
      else parse_dns_servers l' (add a port)
    | None =>
      match parse_addr s with
      | Some a => parse_dns_servers l' (add a (Port acc))
      | None => Err (EBadDnsServer s)
      end
    end
  end.

Definition resolve_mode (persisted : PersistedConfig) : result daemon_error Mode :=
  resolved ← (if negb (bool_decide (InitialMode cfg = "")) then Ok (InitialMode cfg)
              else if negb (bool_decide (cfgMode persisted = "")) then
                if Valid (cfgMode persisted) then Ok (cfgMode persisted) else Err EUnknownPersistedMode
              else Ok Default);
  if Valid resolved then Ok resolved else Err EInvalidInitialMode.

(** [t] and [h] are the new tunnel manager and the host's resolver, [st] and [w]
    the disks; [names_up]: goatnames.NewService succeeds. *)
Definition New (config_ok : nat -> bool) (names_up : bool) (t : tmgr) (h : resolver) (st : pworld)
    (w : world string chars) : result daemon_error Daemon :=
  if bool_decide (BundlePath cfg = "") then Err EBundlePathRequired
  else if bool_decide (SocketPath cfg = "") then Err ESocketPathRequired
  else
    let '(loaded, w') := if bool_decide (CfgPath cfg = "") then (Ok no_config, w)
                         else Mode.Load config_ok (CfgPath cfg) w in
    persisted ← map_err ELoadConfig loaded;
    mdns ← parse_dns_servers (MeshDNSServers persisted)
             {| Nameservers := []; DSearchDomains := MeshDNSSearchDomains persisted;
                DMatchDomains := MeshDNSMatchDomains persisted; Port := 0 |};
    resolved ← resolve_mode persisted;
    _ ← map_err EProfileStore (Profile.New profilesDir activePath);
    Ok {| currentMode := resolved; rosenpassOverride := None;
          namesSvc := if names_up then
                        Some {| Upstreams := match Nameservers mdns with [] => [] | _ => upstreamStrings mdns end;
                                ForwarderHealthy := false; ForwarderAddr := "" |}
                      else None;
          currentBundle := None; currentSlug := ""; manager := t;
          dmesh := if IncludesNetbird resolved then Some meshFactory else None;
          meshWanted := false; host := h; lastConnect := zero_time; lastErr := None; lastDNS := None;
          meshDNS := mdns; persistedCfg := persisted; store := st; config_file := w'; dropped := [] |}.

Context (env : Env).
Abbreviation roots := (CfgTrustRoots cfg).
Abbreviation sok := (store_ok env).

(** d.mesh = o, letting go of the handle it held. *)
Definition assign_mesh (o : option mesh) (d : Daemon) : Daemon :=
  d <| dropped := option_list (dmesh d) ++ dropped d |> <| dmesh := o |>.

(** [if cfg, err := tunnel.FromBundle(b); err == nil { d.manager.Configure(cfg) }] *)
Definition configure_outer {E} (b : EnrollmentBundle) : dact E unit :=
  match Tunnel.FromBundle platform b with
  | Ok c => ignore (on manager (t_configure c))
  | Err _ => mret tt
  end.

Definition adoptProfile {E} (slug : string) (p : Profile) : dact E unit :=
  _ ← update (fun d => d <| currentBundle := Some (pBundle p) |> <| currentSlug := slug |>
        <| currentMode := if Valid (pMode p) && bool_decide (InitialMode cfg = "") then pMode p else currentMode d |>
        <| rosenpassOverride := overrideFromProfile p |>);
  configure_outer (pBundle p).

Definition migrate_legacy {E} : dact E unit :=
  d ← snapshot;
  r ← attempt (on store (MigrateLegacyBundle roots sok (now env) (currentMode d)));
  match r with
  | Ok (Some slug, None) =>
    r ← attempt (on store (Profile.Load sok slug));
    match r with Ok p => adoptProfile slug p | Err _ => mret tt end
  | _ => mret tt
  end.

Definition LoadPersistedBundle {E} : dact E unit :=
  r ← attempt (on store (Active sok));
  let active := or_zero "" r in
  if bool_decide (active = "") then migrate_legacy
  else
    r ← attempt (on store (Profile.Load sok active));
    match r with Ok p => adoptProfile active p | Err _ => migrate_legacy end.

(** ** Taking legs down *)

(** mesh.Disconnect and mesh.Close, errors logged. *)
Definition retire (h : mesh) : mesh := mesh_close (mesh_disconnect h).2.

(** d.mesh = nil, and the handle it held is shut down. *)
Definition drop_mesh {E} : dact E unit :=
  update (fun d => d <| dropped := option_list (retire <$> dmesh d) ++ dropped d |> <| dmesh := None |>).

Definition outer_down {E} : dact E unit :=
  _ ← ignore restoreDNS;
  ignore (on manager t_disconnect).

Definition unwant {E} : dact E unit := update (fun d => d <| meshWanted := false |>).

Definition tearDownMode {E} (m : Mode) : dact E unit :=
  _ ← (if IncludesWGCP0 m then outer_down else mret tt);
  if IncludesNetbird m then _ ← unwant; drop_mesh else mret tt.

Definition tearDownAll {E} : dact E unit :=
  _ ← outer_down;
  _ ← unwant;
  drop_mesh.

Definition Shutdown : dact tunnel_error unit :=
  _ ← outer_down;
  _ ← drop_mesh;
  on manager t_close.

(** ** Bringing legs up *)

(** mesh.Configure(d.meshConfig(b)), the error logged. *)
Definition configure_mesh {E} (h : mesh) (b : EnrollmentBundle) : dact E mesh :=
  d ← snapshot;
  _ ← ignore (on_mesh h (mesh_configure (meshConfig d (Some b))));
  d ← snapshot;
  mret (default h (dmesh d)).

(** The deadline the call runs under is part of what [mesh_connect] may do. *)
Definition connectMesh (h : mesh) : dact mesh_error unit := on_mesh h mesh_connect.

(** Configure and Connect, errors logged. *)
Definition inner_up {E} (h : mesh) (b : EnrollmentBundle) : dact E unit :=
  h ← configure_mesh h b;
  ignore (on_mesh h mesh_connect).

Definition connect_outer (b : EnrollmentBundle) : dact daemon_error unit :=
  c ← lift (map_err EDeriveTunnel (Tunnel.FromBundle platform b));
  _ ← with_err ETunnelConfigure (on manager (t_configure c));
  r ← attempt (on manager t_connect);
  match r with
  | Err e => _ ← update (fun d => d <| lastErr := Some (ETunnelUp e) |>); fail (ETunnelUp e)
  | Ok _ => applyDNS (InterfaceName c) c
  end.

Definition connect_inner (b : EnrollmentBundle) : dact daemon_error unit :=
  d ← snapshot;
  let h := default meshFactory (dmesh d) in
  _ ← update (fun d => d <| dmesh := Some h |>);
  _ ← update (fun d => d <| meshWanted := true |>);
  h ← configure_mesh h b;
  r ← attempt (connectMesh h);
  match r with
  | Err e => _ ← update (fun d => d <| lastErr := Some (EMesh e) |>); fail (EMeshUp e)
  | Ok _ => mret tt
  end.

Definition connected {E} : dact E unit :=
  update (fun d => d <| lastConnect := now env |> <| lastErr := None |>).

Definition Connect : dact daemon_error unit :=
  d ← snapshot;
  match currentBundle d with
  | None => fail ENoBundle
  | Some b =>
    _ ← (if IncludesWGCP0 (currentMode d) then connect_outer b else mret tt);
    _ ← (if IncludesNetbird (currentMode d) then connect_inner b else mret tt);
    connected
  end.

Definition Disconnect : dact daemon_error unit :=
  d ← snapshot;
  _ ← (if IncludesWGCP0 (currentMode d) then
         _ ← ignore restoreDNS; with_err ETunnelDown (on manager t_disconnect)
       else mret tt);
  match dmesh d with
  | Some h =>
    if IncludesNetbird (currentMode d) then _ ← unwant; with_err EMesh (on_mesh h mesh_disconnect) else mret tt
  | None => mret tt
  end.

(** ** The mode *)

(** The first half of [SetMode]: the new mode is in force, the legs it leaves
    out are taken down, a mesh handle is made if it needs one. *)
Definition switch_mode {E} (prev newMode : Mode) : dact E unit :=
  _ ← update (fun d => d <| currentMode := newMode |>);
  _ ← (if IncludesWGCP0 prev && negb (IncludesWGCP0 newMode) then outer_down else mret tt);
  _ ← (if IncludesNetbird prev && negb (IncludesNetbird newMode) then drop_mesh else mret tt);
  if negb (IncludesNetbird prev) && IncludesNetbird newMode
  then update (assign_mesh (Some meshFactory)) else mret tt.

(** The second half: its legs are brought up, and it is persisted. *)
Definition settle_mode (newMode : Mode) : dact daemon_error unit :=
  d ← snapshot;
  _ ← match currentBundle d with
      | Some b =>
        if IncludesWGCP0 newMode then
          match Tunnel.FromBundle platform b with
          | Ok c => _ ← ignore (on manager (t_configure c)); ignore (on manager t_connect)
          | Err _ => mret tt
          end
        else mret tt
      | None => mret tt
      end;
  _ ← match dmesh d, currentBundle d with
      | Some h, Some b => if IncludesNetbird newMode then inner_up h b else mret tt
      | _, _ => mret tt
      end;
  _ ← (if bool_decide (currentSlug d = "") then mret tt
       else ignore (on store (UpdateMode sok (now env) (currentSlug d) newMode)));
  if bool_decide (CfgPath cfg = "") then mret tt
  else ignore (on config_file (Save (config_ok env) (CfgPath cfg)
              {| cfgMode := newMode; MeshDNSServers := MeshDNSServers (persistedCfg d);
                 MeshDNSSearchDomains := MeshDNSSearchDomains (persistedCfg d);
                 MeshDNSMatchDomains := MeshDNSMatchDomains (persistedCfg d) |})).

Definition SetMode (req : SetModeRequest) : dact daemon_error (Mode * Mode) :=
  newMode ← lift (map_err (fun _ => EUnknownMode) (Parse (ReqMode req)));
  d ← snapshot;
  let prev := currentMode d in
  if bool_decide (prev = newMode) then mret (prev, newMode)
  else
    _ ← switch_mode prev newMode;
    _ ← settle_mode newMode;
    mret (prev, newMode).

(** ** The inner mesh *)

Definition rosenpass_of (c : MConfig) : rosenpassIntent :=
  {| Enabled := RosenpassEnabled c; Permissive := RosenpassPermissive c |}.

(** The reply: the previous intent and the new one. *)
Definition SetRosenpass (req : SetRosenpassRequest) : dact daemon_error (rosenpassIntent * rosenpassIntent) :=
  d ← snapshot;
  let intent := {| Enabled := ReqEnabled req; Permissive := ReqPermissive req |} in
  _ ← update (fun d => d <| rosenpassOverride := Some intent |>);
  let prev := match rosenpassOverride d, currentBundle d with
              | Some i, _ => i
              | None, Some b => rosenpass_of (meshConfigFromBundle (Some b))
              | None, None => {| Enabled := false; Permissive := false |}
              end in
  _ ← match dmesh d, currentBundle d with
      | Some h, Some b =>
        if IncludesNetbird (currentMode d) && bool_decide (mesh_state h = InnerMesh.StateUp) then
          _ ← ignore (on_mesh h mesh_disconnect);
          d ← snapshot;
          inner_up (default h (dmesh d)) b
        else mret tt
      | _, _ => mret tt
      end;
  _ ← (if bool_decide (currentSlug d = "") then mret tt
       else ignore (on store (UpdateRosenpass sok (now env) (currentSlug d)
                                (Some (ReqEnabled req)) (Some (ReqPermissive req)))));
  mret (prev, intent).

(** The mesh handle, where the mode has an inner mesh. *)
Definition need_mesh : dact daemon_error mesh :=
  d ← snapshot;
  if negb (IncludesNetbird (currentMode d)) then fail EModeWithoutMesh
  else lift (of_option ENoMeshManager (dmesh d)).

Definition SetInnerMeshProfile (req : SetInnerMeshProfileRequest) : dact daemon_error unit :=
  h ← need_mesh;
  d ← snapshot;
  let c := {| SetupKey := ReqSetupKey req; ManagementURL := ReqManagementURL req; PreferKernelWG := false;
              AdminAccessToken := ReqAdminAccessToken req; CMobileCert := ReqMobileCert req;
              PreSharedKey := ReqPreSharedKey req; RosenpassEnabled := false; RosenpassPermissive := false;
              ConfigPath := ""; StatePath := ""; BundleDeviceID := "" |} in
  with_err EMesh (on_mesh h (mesh_configure (fillMeshPersistPaths (currentSlug d) c))).

Definition EnableInnerMesh : dact daemon_error unit :=
  h ← need_mesh;
  _ ← update (fun d => d <| meshWanted := true |>);
  with_err EMesh (connectMesh h).

Definition DisableInnerMesh : dact daemon_error unit :=
  d ← snapshot;
  _ ← unwant;
  match dmesh d with
  | None => mret tt
  | Some h => with_err EMesh (on_mesh h mesh_disconnect)
  end.

(** ** Profiles *)
Record ImportBundleReply := {
  repDeviceID : string;
  repSite : string;
  repIssuedAt : Z;
  repExpiresAt : Z;
  repPeerPubkey : chars;
  repEndpointsCount : Z;
  repHasCPDeviceKey : bool }.

Definition import_reply (b : EnrollmentBundle) : ImportBundleReply :=
  {| repDeviceID := DeviceID b; repSite := Site b; repIssuedAt := IssuedAt b; repExpiresAt := ExpiresAt b;
     repPeerPubkey := PeerPubkey b; repEndpointsCount := Z.of_nat (length (KnownEndpoints b));
     repHasCPDeviceKey := length (CPDevicePubkey b) =? 32 |}.

Definition profileInfoBySlug (slug : string) : dact profile_error Info :=
  all ← on store (Profile.List sok);
  lift (of_option ErrNotFound (find_first (fun i => bool_decide (iSlug i = slug)) all)).

Definition add_request (name : string) (m : Mode) (bytes : chars) (replace : bool) : Profile.AddProfileRequest :=
  {| reqName := name; reqMode := m; reqBundleBytes := bytes; reqReplace := replace |}.

Definition store_add (name : string) (m : Mode) (bytes : chars) (replace : bool) : dact profile_error Info :=
  on store (Profile.Add roots sok (now env) (add_request name m bytes replace)).

(** The branch of [ImportBundle] with an active profile ... *)
Definition import_replace (slug : string) (m : Mode) (bytes : chars) (b : EnrollmentBundle) : dact daemon_error unit :=
  r ← attempt (profileInfoBySlug slug);
  let '(name, m) := match r with Ok info => (iName info, iMode info) | Err _ => (slug, m) end in
  _ ← with_err EReplaceActive (store_add name m bytes true);
  update (fun d => d <| currentBundle := Some b |>).

(** ... and the one without. *)
Definition import_default (m : Mode) (bytes : chars) (b : EnrollmentBundle) : dact daemon_error unit :=
  r ← attempt (store_add "default" m bytes false);
  info ← match r with
         | Ok info => mret info
         | Err ErrAlreadyExists => with_err EAddDefault (store_add "default" m bytes true)
         | Err e => fail (EAddDefault e)
         end;
  _ ← with_err ESetActive (on store (Profile.SetActive sok (iSlug info)));
  update (fun d => d <| currentBundle := Some b |> <| currentSlug := iSlug info |>).

Definition ImportBundle (req : ImportBundleRequest) : dact daemon_error ImportBundleReply :=
  b ← lift (map_err (fun _ => EBundleParse) (Unmarshal (ImportBytes req)));
  if Empty roots then fail (EBundleVerify ErrNoTrustRoots)
  else
    _ ← lift (map_err EBundleVerify (VerifyBundle roots b));
    _ ← lift (map_err (fun _ => EBundleKeypair) (CheckCPDeviceKeypair b));
    _ ← lift (map_err (fun _ => EBundleExpired) (CheckExpiry b (now env)));
    d ← snapshot;
    _ ← (if bool_decide (currentSlug d = "") then import_default (currentMode d) (ImportBytes req) b
         else import_replace (currentSlug d) (currentMode d) (ImportBytes req) b);
    _ ← configure_outer b;
    mret (import_reply b).

(** The new mode's mesh handle, in the lock that adopts the profile: a handle
    the new mode does not include is forgotten as it is. *)
Definition remesh (m : Mode) (d : Daemon) : Daemon :=
  match dmesh d with
  | None => if IncludesNetbird m then assign_mesh (Some meshFactory) d else d
  | Some _ => if IncludesNetbird m then d else assign_mesh None d
  end.

(** Step 3 of [setActiveLocked] ... *)
Definition adopt_target (slug : string) (target : Profile) (newMode : Mode) (d : Daemon) : Daemon :=
  remesh newMode (d <| currentBundle := Some (pBundle target) |> <| currentMode := newMode |>
    <| currentSlug := slug |> <| rosenpassOverride := overrideFromProfile target |>).

(** ... and step 4, with the mesh handle the lock saw. *)
Definition legs_up {E} (target : Profile) (newMode : Mode) : dact E unit :=
  d ← snapshot;
  _ ← match Tunnel.FromBundle platform (pBundle target) with
      | Ok c =>
        _ ← ignore (on manager (t_configure c));
        if IncludesWGCP0 newMode then
          r ← attempt (on manager t_connect);
          if is_ok r then applyDNS (InterfaceName c) c else mret tt
        else mret tt
      | Err _ => mret tt
      end;
  match dmesh d with
  | Some h => if IncludesNetbird newMode then inner_up h (pBundle target) else mret tt
  | None => mret tt
  end.

Definition setActiveLocked (slug : string) : dact profile_error string :=
  target ← on store (Profile.Load sok slug);
  d ← snapshot;
  let prev := currentSlug d in
  _ ← (if bool_decide (prev = "") then mret tt else tearDownMode (currentMode d));
  let newMode := if Valid (pMode target) then pMode target else Default in
  _ ← update (adopt_target slug target newMode);
  _ ← legs_up target newMode;
  _ ← ignore (on store (Profile.SetActive sok slug));
  _ ← connected;
  mret prev.

(** The wire's ProfileInfo has the fields of [Info]. *)
Definition AddProfile (req : Ipc.AddProfileRequest) : dact daemon_error (Info * string) :=
  d ← snapshot;
  m ← (if bool_decide (ReqProfileMode req = "") then mret (currentMode d)
       else lift (map_err (fun _ => EUnknownMode) (Parse (ReqProfileMode req))));
  info ← with_err EProfile (store_add (ReqName req) m (ReqBundleBytes req) (ReqReplace req));
  if ReqSetActive req then
    prev ← with_err ESetActiveAfterAdd (setActiveLocked (iSlug info));
    mret (set_active_flag true info, prev)
  else mret (info, "").

Definition RemoveProfile (req : RemoveProfileRequest) : dact daemon_error unit :=
  d ← snapshot;
  _ ← (if bool_decide (RemoveSlug req = currentSlug d) then
         _ ← tearDownAll;
         update (fun d => d <| currentBundle := None |> <| currentSlug := "" |>)
       else mret tt);
  with_err EProfile (on store (Profile.Remove sok (RemoveSlug req))).

Definition RenameProfile (req : RenameProfileRequest) : dact daemon_error Info :=
  info ← with_err EProfile (on store (Profile.Rename sok (now env) (RenameSlug req) (ReqNewName req)));
  _ ← update (fun d => if bool_decide (currentSlug d = RenameSlug req) then d <| currentSlug := iSlug info |> else d);
  mret info.

Definition SetActiveProfile (req : SetActiveProfileRequest) : dact daemon_error (string * Info) :=
  if bool_decide (ActiveSlug req = "") then fail ESlugRequired
  else
    prev ← with_err EProfile (setActiveLocked (ActiveSlug req));
    info ← with_err EProfile (profileInfoBySlug (ActiveSlug req));
    mret (prev, set_active_flag true info).

Definition ListProfiles : dact daemon_error (list Info) := with_err EList (on store (Profile.List sok)).

(** The active profile and whether there is any. *)
Definition GetActiveProfile : dact daemon_error (option Info * bool) :=
  d ← snapshot;
  infos ← with_err EList (on store (Profile.List sok));
  let any := 0 <? length infos in
  if bool_decide (currentSlug d = "") then mret (None, any)
  else mret (set_active_flag true <$> find_first (fun i => bool_decide (iSlug i = currentSlug d)) infos, any).

(** ** Status *)
Definition mapMeshState (s : MState) : TunnelState :=
  match s with
  | InnerMesh.StateConfiguring => WireStateConnecting
  | InnerMesh.StateUp => WireStateConnected
  | InnerMesh.StateError => WireStateError
  | InnerMesh.StateClosed => WireStateDisconnected
  end.

Definition mapTunnelState (s : TState) (haveBundle : bool) : TunnelState :=
  if negb haveBundle then WireStateNoBundle
  else match s with
       | Tunnel.StateClosed => WireStateDisconnected
       | Tunnel.StateConfiguring => WireStateConnecting
       | Tunnel.StateUp => WireStateConnected
       | Tunnel.StateError => WireStateError
       end.

(** ipc.InnerMeshSnapshot *)
Record InnerMeshSnapshot := {
  SnState : TunnelState;
  SnPeerCount : Z;
  SnBytesIn : Z;
  SnBytesOut : Z;
  SnLastHandshake : Z;
  SnRosenpassPeers : Z;
  SnRosenpassEnabled : bool;
  SnRosenpassPermissive : bool }.

(** ipc.NamesSnapshot, the age as a duration. *)
Record NamesSnapshot := {
  NsGrade : string;
  NsSerial : Z;
  NsAge : Z;
  NsRecords : Z;
  NsObserved : Z;
  NsForwarderAddr : string;
  NsFallbackServed : Z;
  NsLastFallback : Z }.

(** ipc.StatusReply; an error stands for its message. *)
Record StatusReply := {
  StMode : string;
  StState : TunnelState;
  StBundleLoaded : bool;
  StDeviceID : string;
  StSite : string;
  StBundleExpiresAt : Z;
  StPeerPubkey : chars;
  StLastHandshake : Z;
  StBytesIn : Z;
  StBytesOut : Z;
  StEndpoints : list string;
  StError : option daemon_error;
  StInnerMesh : option InnerMeshSnapshot;
  StNames : option NamesSnapshot }.

Definition no_names : NamesSnapshot :=
  {| NsGrade := "unavailable"; NsSerial := 0; NsAge := 0; NsRecords := 0; NsObserved := 0; NsForwarderAddr := "";
     NsFallbackServed := 0; NsLastFallback := zero_time |}.

(** The block both status calls share. *)
Definition mesh_snapshot (d : Daemon) (h : mesh) : InnerMeshSnapshot :=
  let st := or_zero zero_stats (mesh_stats h) in
  let c := meshConfig d (currentBundle d) in
  {| SnState := mapMeshState (mesh_state h); SnPeerCount := PeerCount st; SnBytesIn := BytesIn st;
     SnBytesOut := BytesOut st; SnLastHandshake := InnerMesh.StLastHandshake st; SnRosenpassPeers := RosenpassPeers st;
     SnRosenpassEnabled := RosenpassEnabled c; SnRosenpassPermissive := RosenpassPermissive c |}.

Definition no_snapshot : InnerMeshSnapshot :=
  {| SnState := WireStateDisconnected; SnPeerCount := 0; SnBytesIn := 0; SnBytesOut := 0; SnLastHandshake := zero_time;
     SnRosenpassPeers := 0; SnRosenpassEnabled := false; SnRosenpassPermissive := false |}.

(** [names_status]: the names service's StatusSnapshot. *)
Definition GetStatus {E} (names_status : NamesSvc -> NamesSnapshot) : dact E StatusReply :=
  d ← snapshot;
  let loaded := bool_decide (is_Some (currentBundle d)) in
  '(state, st) ← (if IncludesWGCP0 (currentMode d) then
                    r ← attempt (on manager t_stats);
                    mret (mapTunnelState (t_state (manager d)) loaded, or_zero no_tstats r)
                  else mret (if loaded then WireStateDisconnected else WireStateNoBundle, no_tstats));
  mret {| StMode := currentMode d; StState := state; StBundleLoaded := loaded;
          StDeviceID := match currentBundle d with Some b => DeviceID b | None => "" end;
          StSite := match currentBundle d with Some b => Site b | None => "" end;
          StBundleExpiresAt := match currentBundle d with Some b => ExpiresAt b | None => zero_time end;
          StPeerPubkey := match currentBundle d with Some b => PeerPubkey b | None => [] end;
          StLastHandshake := TLastHandshake st; StBytesIn := TBytesIn st; StBytesOut := TBytesOut st;
          StEndpoints := match currentBundle d with Some b => Addr <$> KnownEndpoints b | None => [] end;
          StError := lastErr d;
          StInnerMesh := match dmesh d with
                         | Some h => if IncludesNetbird (currentMode d) then Some (mesh_snapshot d h) else None
                         | None => None
                         end;
          StNames := names_status <$> namesSvc d |}.

Definition GetMode (d : Daemon) : Mode := currentMode d.

Definition GetInnerMeshStatus (d : Daemon) : InnerMeshSnapshot :=
  match dmesh d with
  | Some h => if IncludesNetbird (currentMode d) then mesh_snapshot d h else no_snapshot
  | None => no_snapshot
  end.

Definition GetInnerMeshDiagnostics (d : Daemon) : list chars :=
  match dmesh d with Some h => mesh_logs 0 h | None => [] end.

(** ** The mesh supervisor *)
Definition supervisor_base : Z :=
  if (MeshSupervisorInterval cfg <=? 0)%Z then (15 * second)%Z else MeshSupervisorInterval cfg.
Definition supervisor_max : Z :=
  if (MeshSupervisorMax cfg <=? 0)%Z then (120 * second)%Z else MeshSupervisorMax cfg.

(** One round of the loop with the current [delay]: what the timer is set to,
    and the next delay. *)
Definition supervise (delay : Z) : state Daemon (Z * Z) := fun d =>
  let base := supervisor_base in
  match dmesh d, currentBundle d with
  | Some h, Some b =>
    if negb (meshWanted d) || negb (IncludesNetbird (currentMode d)) then ((base, base), d)
    else
      match mesh_state h with
      | InnerMesh.StateError =>
        match (h ← configure_mesh h b; connectMesh h) d with
        | (Err _, d') => ((delay, Z.min (wrap64 (delay * 2)) supervisor_max), d')
        | (Ok _, d') => ((base, base), d')
        end
      | InnerMesh.StateUp => ((base, base), d)
      | _ => ((base, delay), d)
      end
  | _, _ => ((base, base), d)
  end.
End daemon.

(** ** The daemon at work

    A step is one call over IPC, one round of the supervisor, or news from the
    names forwarder, in some environment. *)
Inductive event :=
  | EvImportBundle (r : ImportBundleRequest)
  | EvConnect
  | EvDisconnect
  | EvSetMode (r : SetModeRequest)
  | EvSetRosenpass (r : SetRosenpassRequest)
  | EvSetInnerMeshProfile (r : SetInnerMeshProfileRequest)
  | EvEnableInnerMesh
  | EvDisableInnerMesh
  | EvListProfiles
  | EvAddProfile (r : Ipc.AddProfileRequest)
  | EvRemoveProfile (r : RemoveProfileRequest)
  | EvRenameProfile (r : RenameProfileRequest)
  | EvSetActiveProfile (r : SetActiveProfileRequest)
  | EvGetActiveProfile
  | EvGetStatus
  | EvSupervise (delay : Z)
  | EvForwarderHealth (up : bool) (addr : string)
  | EvForwarderState (up : bool)
  | EvShutdown.

Section steps.
Context {K : BundleCodec} {C : Crypto} {J : RawJson} {N : NetipLib} {U : NetText} {H : HostDNS}
  {T : TunnelManager} {M : Mesh}.
Context (platform : os) (meshFactory : mesh) (cfg : Config).

(** What the forwarder's Healthy and Addr say from now on. *)
Definition forwarder_health (up : bool) (addr : string) (d : Daemon) : Daemon :=
  d <| namesSvc := (fun s => {| Upstreams := Upstreams s; ForwarderHealthy := up; ForwarderAddr := addr |})
                     <$> namesSvc d |>.

Definition exec (env : Env) (e : event) (d : Daemon) : Daemon :=
  match e with
  | EvImportBundle r => (ImportBundle platform cfg env r d).2
  | EvConnect => (Connect platform meshFactory cfg env d).2
  | EvDisconnect => (Disconnect d).2
  | EvSetMode r => (SetMode platform meshFactory cfg env r d).2
  | EvSetRosenpass r => (SetRosenpass cfg env r d).2
  | EvSetInnerMeshProfile r => (SetInnerMeshProfile cfg r d).2
  | EvEnableInnerMesh => (EnableInnerMesh d).2
  | EvDisableInnerMesh => (DisableInnerMesh d).2
  | EvListProfiles => (ListProfiles env d).2
  | EvAddProfile r => (AddProfile platform meshFactory cfg env r d).2
  | EvRemoveProfile r => (RemoveProfile env r d).2
  | EvRenameProfile r => (RenameProfile env r d).2
  | EvSetActiveProfile r => (SetActiveProfile platform meshFactory cfg env r d).2
  | EvGetActiveProfile => (GetActiveProfile env d).2
  | EvGetStatus => (GetStatus (E := daemon_error) cfg (fun _ => no_names) d).2
  | EvSupervise delay => (supervise cfg delay d).2
  | EvForwarderHealth up addr => forwarder_health up addr d
  | EvForwarderState up => (onForwarderState (E := daemon_error) cfg up d).2
  | EvShutdown => (Shutdown d).2
  end.

Inductive daemon_step : Daemon -> event -> Daemon -> Prop :=
  | run_event env e d : daemon_step d e (exec env e d).

(** A daemon started with an idle tunnel manager on the store [st]. *)
Inductive boots (st : pworld) : Daemon -> Prop :=
  | boot env names_up t h w d :
      t_state t <> Tunnel.StateUp ->
      New meshFactory cfg (config_ok env) names_up t h st w = Ok d ->
      boots st (LoadPersistedBundle (E := daemon_error) platform cfg env d).2.
End steps.
