(* ===== verification/DaemonSpec.v ===== *)
(** What the daemon guarantees: theorems about the handlers of Daemon.v.

    [within R m]: running [m] moves the daemon along the preorder [R];
    [keeps P] is the case of an invariant. *)
From stdpp Require Import base tactics list gmap strings.
From Stdlib Require Import ZArith Ascii Lia.
From S2P Require Import DnsAdapter.
From S2P Require Import Prelude GoStr Fs.
From S2P Require Import Mode.
From S2P Require Import Bundle.
From S2P Require Import Profile.
From S2P Require Import ProfileSpec.
From S2P Require Import Tunnel.
From S2P Require Import InnerMesh.
From S2P Require Import Ipc.
From S2P Require Import Daemon.
Local Open Scope list_scope.

Section within.
Context {K : BundleCodec} {C : Crypto} {J : RawJson} {N : NetipLib} {U : NetText} {H : HostDNS}
  {T : TunnelManager} {M : Mesh}.
Variable R : Daemon -> Daemon -> Prop.
Context `{!PreOrder R}.

Definition within {E A} (m : action Daemon E A) : Prop := forall d, R d (m d).2.

Lemma within_ret {E A} (a : A) : within (mret a : action Daemon E A).
Proof. intros d. by cbn. Qed.
Lemma within_fail {E A} (e : E) : within (fail e : action Daemon E A).
Proof. intros d. by cbn. Qed.
Lemma within_lift {E A} (r : result E A) : within (lift r).
Proof. intros d. by cbn. Qed.

Lemma within_bind {E A B} (m : action Daemon E A) (f : A -> action Daemon E B) :
  within m -> (forall a, within (f a)) -> within (m ≫= f).
Proof.
  intros Hm Hf d. unfold mbind, action_bind. specialize (Hm d).
  destruct (m d) as [[a|e] d1]; cbn in *; [|done]. etrans; [exact Hm|apply Hf].
Qed.

Lemma within_lift_bind {E A B} (r : result E A) (f : A -> action Daemon E B) :
  (forall a, r = Ok a -> within (f a)) -> within (lift r ≫= f).
Proof. intros Hf d. destruct r as [a|e]; [by apply Hf|by cbn]. Qed.

Lemma within_read {E} : within (snapshot : action Daemon E Daemon).
Proof. intros d. by cbn. Qed.
Lemma within_snapshot {E B} (f : Daemon -> action Daemon E B) :
  (forall d, R d (f d d).2) -> within (snapshot ≫= f).
Proof. intros Hf d. apply Hf. Qed.

Lemma within_attempt {E F A} (m : action Daemon E A) : within m -> within (attempt m : action Daemon F _).
Proof. intros Hm d. unfold attempt. specialize (Hm d). by destruct (m d). Qed.
Lemma within_with_err {E F A} (g : E -> F) (m : action Daemon E A) : within m -> within (with_err g m).
Proof. intros Hm d. unfold with_err. specialize (Hm d). by destruct (m d). Qed.
Lemma within_ignore {E F A} (m : action Daemon E A) : within m -> within (ignore m : action Daemon F unit).
Proof. intros Hm. apply within_bind; [by apply within_attempt|]. intros a. apply within_ret. Qed.
Lemma within_update {E} (f : Daemon -> Daemon) : (forall d, R d (f d)) -> within (update f : action Daemon E unit).
Proof. intros Hf d. apply Hf. Qed.
Lemma within_on {S E A} (f : Daemon -> S) {F : Setter f} (m : action S E A) :
  (forall d, R d (d <| f := (m (f d)).2 |>)) -> within (on f m).
Proof. intros Hf d. unfold on. specialize (Hf d). by destruct (m (f d)). Qed.
Lemma within_on_mesh {E A} h (m : action mesh E A) :
  (forall d, R d (d <| dmesh := Some (m h).2 |>)) -> within (on_mesh h m).
Proof. intros Hf d. unfold on_mesh. specialize (Hf d). by destruct (m h). Qed.
End within.

Create HintDb within discriminated.

(** Descends through the control structure of a handler; what it calls is left
    to the hints. *)
Ltac walk_step :=
  lazymatch goal with
  | |- forall _, _ => intros
  | |- within _ (mret _) => apply within_ret; apply _
  | |- within _ (fail _) => apply within_fail; apply _
  | |- within _ (lift _) => apply within_lift; apply _
  | |- within _ snapshot => apply within_read; apply _
  | |- within _ (mbind _ (lift _)) => apply within_lift_bind; [apply _|]
  | |- within _ (mbind _ _) => apply within_bind; [apply _|..]
  | |- within _ (ignore _) => apply within_ignore; [apply _|]
  | |- within _ (attempt _) => apply within_attempt
  | |- within _ (with_err _ _) => apply within_with_err
  | |- within _ (let _ := _ in _) => cbv zeta
  | |- within _ (match ?x with _ => _ end) => destruct x eqn:?
  | |- within _ _ => solve [auto with within]
  end.
Ltac walk := repeat walk_step.

Section total.
Context {K : BundleCodec} {C : Crypto} {J : RawJson} {N : NetipLib} {U : NetText} {H : HostDNS}
  {T : TunnelManager} {M : Mesh}.

Definition keeps (P : Daemon -> Prop) : relation Daemon := fun d d' => P d -> P d'.
#[export] Instance keeps_pre P : PreOrder (keeps P).
Proof. split; [by intros d ?|]. intros d1 d2 d3 H1 H2 Hd. by apply H2, H1. Qed.

(** From [P] the run of [m] succeeds and ends in [Q]. *)
Definition leads {E A} (P : Daemon -> Prop) (m : action Daemon E A) (Q : Daemon -> Prop) : Prop :=
  forall d, P d -> exists a d', m d = (Ok a, d') /\ Q d'.

Lemma leads_bind {E A B} (P R Q : Daemon -> Prop) (m : action Daemon E A) (f : A -> action Daemon E B) :
  leads P m R -> (forall a, leads R (f a) Q) -> leads P (m ≫= f) Q.
Proof.
  intros Hm Hf d Hd. destruct (Hm d Hd) as (a & d1 & E1 & H1). destruct (Hf a d1 H1) as (b & d2 & E2 & H2).
  exists b, d2. split; [|done]. by rewrite (action_bind_eq _ _ _ _ _ E1).
Qed.
Lemma leads_snapshot {E B} (P Q : Daemon -> Prop) (f : Daemon -> action Daemon E B) :
  (forall d0, P d0 -> leads (fun d => d = d0) (f d0) Q) -> leads P (snapshot ≫= f) Q.
Proof. intros Hf d Hd. by apply (Hf d Hd d). Qed.
Lemma leads_ret {E A} (P Q : Daemon -> Prop) (a : A) :
  (forall d, P d -> Q d) -> leads P (mret a : action Daemon E A) Q.
Proof. intros HPQ d Hd. exists a, d. auto. Qed.
Lemma leads_update {E} (P Q : Daemon -> Prop) f :
  (forall d, P d -> Q (f d)) -> leads P (update f : action Daemon E unit) Q.
Proof. intros Hf d Hd. exists tt, (f d). auto. Qed.
Lemma leads_attempt {E F A} (P Q : Daemon -> Prop) (m : action Daemon E A) :
  (forall d, P d -> Q (m d).2) -> leads P (attempt m : action Daemon F _) Q.
Proof. intros Hm d Hd. unfold attempt. specialize (Hm d Hd). destruct (m d) as [r d']. eauto. Qed.
Lemma leads_ignore {E F A} (P Q : Daemon -> Prop) (m : action Daemon E A) :
  (forall d, P d -> Q (m d).2) -> leads P (ignore m : action Daemon F unit) Q.
Proof. intros Hm. eapply leads_bind; [by apply leads_attempt|]. intros r. by apply leads_ret. Qed.
Lemma leads_end {E A} (P Q : Daemon -> Prop) (m : action Daemon E A) d : leads P m Q -> P d -> Q (m d).2.
Proof. intros Hm Hd. destruct (Hm d Hd) as (a & d' & -> & ?). done. Qed.
Lemma leads_within {E A B} (P R Q : Daemon -> Prop) (m : action Daemon E A) (f : A -> action Daemon E B) d :
  leads P m R -> (forall a d, R d -> Q (f a d).2) -> P d -> Q ((m ≫= f) d).2.
Proof.
  intros Hm Hf Hd. destruct (Hm d Hd) as (a & d1 & E1 & H1). rewrite (action_bind_eq _ _ _ _ _ E1). by apply Hf.
Qed.
Lemma leads_pre {E A} (P P' Q : Daemon -> Prop) (m : action Daemon E A) :
  (forall d, P d -> P' d) -> leads P' m Q -> leads P m Q.
Proof. intros HP Hm d Hd. by apply Hm, HP. Qed.
End total.

(** ** The legs

    What brings legs up and down leaves the profile, the store and the
    configuration file alone. *)
Section legs.
Context {K : BundleCodec} {C : Crypto} {J : RawJson} {N : NetipLib} {U : NetText} {H : HostDNS}
  {T : TunnelManager} {M : Mesh}.
Context (platform : os) (meshFactory : mesh) (cfg : Config).

Definition same_profile : relation Daemon := fun d d' =>
  currentMode d' = currentMode d /\ rosenpassOverride d' = rosenpassOverride d /\
  currentBundle d' = currentBundle d /\ currentSlug d' = currentSlug d /\ store d' = store d /\
  config_file d' = config_file d.
#[export] Instance same_profile_pre : PreOrder same_profile.
Proof. split; [done|]. unfold same_profile. intros d1 d2 d3 ? ?. intuition congruence. Qed.

#[local] Hint Extern 1 (within same_profile (update _)) => apply within_update; done : within.
#[local] Hint Extern 1 (within same_profile (on _ _)) => apply within_on; done : within.
#[local] Hint Extern 1 (within same_profile (on_mesh _ _)) => apply within_on_mesh; done : within.

Lemma same_applyDNSCurrent {E} iface c : within same_profile (applyDNSCurrent cfg iface c : action Daemon E unit).
Proof. unfold applyDNSCurrent. walk. Qed.
#[local] Hint Resolve same_applyDNSCurrent : within.
Lemma same_applyDNS {E} iface c : within same_profile (applyDNS cfg iface c : action Daemon E unit).
Proof. unfold applyDNS. walk. Qed.
#[local] Hint Resolve same_applyDNS : within.
Lemma same_onForwarderState {E} up : within same_profile (onForwarderState cfg up : action Daemon E unit).
Proof. unfold onForwarderState. walk. Qed.
#[local] Hint Resolve same_onForwarderState : within.
Lemma same_restoreDNS : within same_profile restoreDNS.
Proof. unfold restoreDNS. walk. Qed.
#[local] Hint Resolve same_restoreDNS : within.
Lemma same_outer_down {E} : within same_profile (outer_down : action Daemon E unit).
Proof. unfold outer_down. walk. Qed.
#[local] Hint Resolve same_outer_down : within.
Lemma same_drop_mesh {E} : within same_profile (drop_mesh : action Daemon E unit).
Proof. unfold drop_mesh. walk. Qed.
#[local] Hint Resolve same_drop_mesh : within.
Lemma same_unwant {E} : within same_profile (unwant : action Daemon E unit).
Proof. unfold unwant. walk. Qed.
#[local] Hint Resolve same_unwant : within.
Lemma same_tearDownMode {E} m : within same_profile (tearDownMode m : action Daemon E unit).
Proof.
  unfold tearDownMode. walk.
Qed.
#[local] Hint Resolve same_tearDownMode : within.
Lemma same_tearDownAll {E} : within same_profile (tearDownAll : action Daemon E unit).
Proof.
  unfold tearDownAll. walk.
Qed.
#[local] Hint Resolve same_tearDownAll : within.
Lemma same_configure_outer {E} b : within same_profile (configure_outer platform b : action Daemon E unit).
Proof. unfold configure_outer. walk. Qed.
#[local] Hint Resolve same_configure_outer : within.
Lemma same_configure_mesh {E} h b : within same_profile (configure_mesh cfg h b : action Daemon E mesh).
Proof. unfold configure_mesh. walk. Qed.
#[local] Hint Resolve same_configure_mesh : within.
Lemma same_connectMesh h : within same_profile (connectMesh h).
Proof. unfold connectMesh. walk. Qed.
#[local] Hint Resolve same_connectMesh : within.
Lemma same_inner_up {E} h b : within same_profile (inner_up cfg h b : action Daemon E unit).
Proof. unfold inner_up. walk. Qed.
#[local] Hint Resolve same_inner_up : within.
Lemma same_connect_outer b : within same_profile (connect_outer platform cfg b).
Proof. unfold connect_outer. walk. Qed.
#[local] Hint Resolve same_connect_outer : within.
Lemma same_connect_inner b : within same_profile (connect_inner meshFactory cfg b).
Proof. unfold connect_inner. walk. Qed.
#[local] Hint Resolve same_connect_inner : within.
Lemma same_legs_up {E} p m : within same_profile (legs_up (E := E) platform cfg p m).
Proof. unfold legs_up. walk. Qed.
Lemma same_supervise delay d : same_profile d (supervise cfg delay d).2.
Proof.
  unfold supervise. destruct (dmesh d) as [h|], (currentBundle d) as [b|]; try done.
  case_match; [done|]. destruct (mesh_state h); try done.
  assert (within same_profile (h ← configure_mesh cfg h b; connectMesh h)) as Hw.
  { walk. }
  specialize (Hw d). by destruct ((h ← configure_mesh cfg h b; connectMesh h) d) as [[|] ?].
Qed.
End legs.
#[export] Hint Resolve same_applyDNSCurrent same_applyDNS same_onForwarderState same_restoreDNS same_outer_down
  same_drop_mesh same_unwant same_tearDownMode same_tearDownAll same_configure_outer same_configure_mesh same_connectMesh
  same_inner_up same_connect_outer same_connect_inner same_legs_up : within.

(** ** The bundles the daemon runs on *)
Section trusted.
Context {K : BundleCodec} {C : Crypto} {J : RawJson} {N : NetipLib} {U : NetText} {H : HostDNS}
  {T : TunnelManager} {M : Mesh}.
Context (platform : os) (meshFactory : mesh) (cfg : Config) (env : Env).
Abbreviation roots := (CfgTrustRoots cfg).
Abbreviation sok := (store_ok env).

Definition trusted (b : EnrollmentBundle) : Prop :=
  VerifyBundle roots b = Ok tt /\ CheckCPDeviceKeypair b = Ok tt.

Definition auth (d : Daemon) : Prop :=
  bundles_verified roots (disk (store d)) /\ (forall b, currentBundle d = Some b -> trusted b).

Definition keeps_auth : relation Daemon := keeps auth.
#[export] Instance keeps_auth_pre : PreOrder keeps_auth.
Proof. apply keeps_pre. Qed.

Lemma auth_update f :
  (forall d, store (f d) = store d /\ currentBundle (f d) = currentBundle d) -> forall d, keeps_auth d (f d).
Proof. intros Hf d [H1 H2]. destruct (Hf d) as [Hs Hb]. split; by rewrite ?Hs, ?Hb. Qed.

Lemma auth_store {E A} (m : action pworld E A) Q :
  hoare (bundles_verified roots) m Q -> within keeps_auth (on store m).
Proof.
  intros Hm. apply within_on. intros d [H1 H2]. split; [|done]. by destruct (Hm (store d) H1) as (_ & ? & _).
Qed.

Lemma bv_meta d slug m : bundles_verified roots d -> bundles_verified roots (<[Named (MetaFile slug) := MetaJson m]> d).
Proof. by apply bundles_verified_other. Qed.
Lemma bv_active d a : bundles_verified roots d -> bundles_verified roots (<[Named ActiveFile := ActiveJson a]> d).
Proof. by apply bundles_verified_other. Qed.
Lemma bv_delete d f : bundles_verified roots d -> bundles_verified roots (delete f d).
Proof. apply bundles_verified_delete. Qed.
Lemma bv_checked d slug s b req :
  check_request roots req = Ok (s, b) -> bundles_verified roots d ->
  bundles_verified roots (<[Named (BundleFile slug) := Raw (reqBundleBytes req)]> d).
Proof.
  intros (_ & _ & _ & ? & ? & ?)%check_request_Ok ?. apply bundles_verified_insert; [|done].
  eexists; split; [done|]. by exists b.
Qed.
Lemma bv_copied d d' slug slug' c :
  bundles_verified roots d' -> d' !! Named (BundleFile slug') = Some c -> bundles_verified roots d ->
  bundles_verified roots (<[Named (BundleFile slug) := c]> d).
Proof. intros Hd' Hc Hd. apply bundles_verified_insert; [|done]. by eapply Hd'. Qed.
#[local] Hint Resolve bv_meta bv_active bv_delete bv_checked bv_copied bundles_verified_visible : store.

Lemma auth_Load slug : within keeps_auth (on store (Profile.Load sok slug)).
Proof. eapply auth_store, keeps_Load; eauto with store. Qed.
Lemma auth_Active : within keeps_auth (on store (Active sok)).
Proof. eapply auth_store, keeps_readActiveMarker; eauto with store. Qed.
Lemma auth_List : within keeps_auth (on store (Profile.List sok)).
Proof. eapply auth_store, keeps_List; eauto with store. Qed.
Lemma auth_SetActive slug : within keeps_auth (on store (Profile.SetActive sok slug)).
Proof. eapply auth_store, keeps_SetActive; eauto with store. Qed.
Lemma auth_UpdateMode slug m : within keeps_auth (on store (UpdateMode sok (now env) slug m)).
Proof. eapply auth_store, keeps_UpdateMode; eauto with store. Qed.
Lemma auth_UpdateRosenpass slug e p : within keeps_auth (on store (UpdateRosenpass sok (now env) slug e p)).
Proof. eapply auth_store, keeps_UpdateRosenpass; eauto with store. Qed.
Lemma auth_Add req : within keeps_auth (on store (Profile.Add roots sok (now env) req)).
Proof. eapply auth_store, keeps_Add; eauto with store. Qed.
Lemma auth_Remove slug : within keeps_auth (on store (Profile.Remove sok slug)).
Proof. eapply auth_store, keeps_Remove; eauto with store. Qed.
Lemma auth_Rename old name : within keeps_auth (on store (Profile.Rename sok (now env) old name)).
Proof. eapply auth_store, keeps_Rename; eauto with store. Qed.
Lemma auth_Migrate m : within keeps_auth (on store (MigrateLegacyBundle roots sok (now env) m)).
Proof. eapply auth_store, keeps_Migrate; eauto with store. Qed.

#[local] Hint Resolve auth_Load auth_Active auth_List auth_SetActive auth_UpdateMode auth_UpdateRosenpass auth_Add auth_Remove auth_Rename auth_Migrate : within.

(** What a handler does to the legs leaves the bundles alone. *)
Lemma auth_same {E A} (m : action Daemon E A) : within same_profile m -> within keeps_auth m.
Proof. intros Hm d [H1 H2]. destruct (Hm d) as (_ & _ & Hb & _ & Hs & _). split; by rewrite ?Hs, ?Hb. Qed.

Lemma auth_config {E A} (m : action _ E A) : within keeps_auth (on config_file m).
Proof. apply within_on. by intros d [? ?]. Qed.

#[local] Hint Resolve auth_config : within.
#[local] Hint Extern 5 (within keeps_auth _) => apply auth_same; solve [auto with within] : within.
Lemma auth_leg {E A S} (f : Daemon -> S) {F : Setter f} (m : action S E A) :
  (forall d, store (d <| f := (m (f d)).2 |>) = store d /\
    currentBundle (d <| f := (m (f d)).2 |>) = currentBundle d) -> within keeps_auth (on f m).
Proof. intros Hf. apply within_on. intros d [? ?]. destruct (Hf d) as [Hs Hb]. split; by rewrite ?Hs, ?Hb. Qed.
Lemma auth_on_mesh {E A} h (m : action mesh E A) : within keeps_auth (on_mesh h m).
Proof. apply within_on_mesh. by intros d [? ?]. Qed.
#[local] Hint Resolve auth_on_mesh : within.

Lemma auth_adopts {E} (f : Daemon -> Daemon) b :
  trusted b -> (forall d, store (f d) = store d /\ currentBundle (f d) = Some b) ->
  within keeps_auth (update f : action Daemon E unit).
Proof.
  intros Hb Hf. apply within_update. intros d [H1 _]. destruct (Hf d) as [Hs Hc].
  split; [by rewrite Hs|]. rewrite Hc. by intros ? [= <-].
Qed.

(** A profile that was loaded may be adopted. *)
Lemma Load_trusted slug d r d' :
  auth d -> on store (Profile.Load sok slug) d = (Ok r, d') -> auth d' /\ trusted (pBundle r).
Proof.
  intros Hd HL. split; [pose proof (auth_Load slug d Hd) as Ha; by rewrite HL in Ha|].
  unfold on in HL. destruct (Profile.Load sok slug (store d)) as [r' w'] eqn:E. injection HL as -> _.
  destruct Hd as [Hv _]. by eapply Load_trusts.
Qed.
End trusted.
#[export] Hint Resolve auth_Load auth_Active auth_List auth_SetActive auth_UpdateMode auth_UpdateRosenpass auth_Add auth_Remove auth_Rename auth_Migrate auth_config auth_on_mesh : within.
#[export] Hint Extern 5 (within (keeps_auth _) _) => apply auth_same; solve [auto with within] : within.

Section safety.
Context {K : BundleCodec} {C : Crypto} {J : RawJson} {N : NetipLib} {U : NetText} {H : HostDNS}
  {T : TunnelManager} {M : Mesh}.
Context (platform : os) (meshFactory : mesh) (cfg : Config).

Lemma auth_adoptProfile {E} slug p d :
  auth cfg d -> trusted cfg (pBundle p) -> auth cfg (adoptProfile (E := E) platform cfg slug p d).2.
Proof.
  intros Hd Hp. revert d Hd. change (within (keeps_auth cfg) (adoptProfile (E := E) platform cfg slug p)).
  unfold adoptProfile. apply within_bind; [apply _|by eapply auth_adopts|]. intros _.
  apply auth_same, same_configure_outer.
Qed.

(** Loading a profile and then, if that worked, going on with it. *)
Lemma auth_load {F A} env slug
  (k : result profile_error Profile -> action Daemon F A) d :
  auth cfg d ->
  (forall e d', auth cfg d' -> auth cfg (k (Err e) d').2) ->
  (forall p d', auth cfg d' -> trusted cfg (pBundle p) -> auth cfg (k (Ok p) d').2) ->
  auth cfg ((r ← attempt (on store (Profile.Load (store_ok env) slug)); k r) d).2.
Proof.
  intros Hd He Hp. unfold mbind, action_bind, attempt.
  destruct (on store (Profile.Load (store_ok env) slug) d) as [[p|e] d'] eqn:EL.
  - apply (Load_trusted cfg env) in EL as [? ?]; [|done]. by apply Hp.
  - apply He. pose proof (auth_Load cfg env slug d Hd) as Hl. by rewrite EL in Hl.
Qed.

Lemma auth_migrate_legacy {E} env : within (keeps_auth cfg) (migrate_legacy (E := E) platform cfg env).
Proof.
  unfold migrate_legacy. apply within_bind; [apply _|apply within_read; apply _|]. intros d0.
  apply within_bind; [apply _|apply within_attempt, auth_Migrate|]. intros [[[slug|] [e|]]|e]; try (apply within_ret; apply _).
  intros d Hd. apply (auth_load env slug (fun r => match r with Ok p => adoptProfile platform cfg slug p | Err _ => mret tt end));
    [done| |]; intros; [done|]. by apply auth_adoptProfile.
Qed.

Lemma auth_LoadPersistedBundle {E} env : within (keeps_auth cfg) (LoadPersistedBundle (E := E) platform cfg env).
Proof.
  unfold LoadPersistedBundle. apply within_bind; [apply _|apply within_attempt, auth_Active|]. intros r. cbv zeta.
  case_bool_decide; [apply auth_migrate_legacy|]. intros d Hd.
  apply (auth_load env (or_zero "" r) (fun r' => match r' with
    Ok p => adoptProfile platform cfg (or_zero "" r) p | Err _ => migrate_legacy platform cfg env end)); [done| |].
  - intros. by apply auth_migrate_legacy.
  - intros. by apply auth_adoptProfile.
Qed.

#[local] Hint Extern 1 (within (keeps_auth _) (update _)) => apply within_update, auth_update; done : within.
#[local] Hint Extern 1 (within (keeps_auth _) (on manager _)) => apply auth_leg; done : within.
#[local] Hint Extern 1 (within (keeps_auth _) (on host _)) => apply auth_leg; done : within.

Lemma auth_ImportBundle env r : within (keeps_auth cfg) (ImportBundle platform cfg env r).
Proof.
  unfold ImportBundle. apply within_lift_bind; [apply _|]. intros b _.
  case_match; [apply within_fail; apply _|].
  apply within_lift_bind; [apply _|]. intros [] Hv%map_err_Ok.
  apply within_lift_bind; [apply _|]. intros [] Hk%map_err_Ok.
  unfold import_default, import_replace, profileInfoBySlug, store_add.
  walk; by eapply auth_adopts.
Qed.

(** The rest of a handler after it loaded a profile. *)
Lemma auth_then_load {A} env slug (k : Profile -> action Daemon profile_error A) :
  (forall p, trusted cfg (pBundle p) -> within (keeps_auth cfg) (k p)) ->
  within (keeps_auth cfg) (p ← on store (Profile.Load (store_ok env) slug); k p).
Proof.
  intros Hp d Hd. unfold mbind, action_bind.
  destruct (on store (Profile.Load (store_ok env) slug) d) as [[p|e] d'] eqn:EL; cbn.
  - apply (Load_trusted cfg env) in EL as [? ?]; [|done]. by apply Hp.
  - pose proof (auth_Load cfg env slug d Hd) as Hl. by rewrite EL in Hl.
Qed.

Lemma remesh_profile m d :
  store (remesh meshFactory m d) = store d /\ currentBundle (remesh meshFactory m d) = currentBundle d.
Proof. unfold remesh, assign_mesh. by destruct (dmesh d), (IncludesNetbird m). Qed.

Lemma auth_setActiveLocked env slug : within (keeps_auth cfg) (setActiveLocked platform meshFactory cfg env slug).
Proof.
  unfold setActiveLocked. apply auth_then_load. intros p Hp. unfold connected. walk.
  eapply auth_adopts; [exact Hp|]. intros d0. unfold adopt_target. split;
    [by rewrite (proj1 (remesh_profile _ _))|by rewrite (proj2 (remesh_profile _ _))].
Qed.
#[local] Hint Resolve auth_setActiveLocked : within.

Lemma auth_exec env e d : auth cfg d -> auth cfg (exec platform meshFactory cfg env e d).
Proof.
  assert (forall {E A} (m : action Daemon E A), within (keeps_auth cfg) m -> auth cfg d -> auth cfg (m d).2) as Hw
    by (intros E A m Hm; apply Hm).
  destruct e; cbn [exec]; try apply Hw.
  - apply auth_ImportBundle.
  - unfold Connect, connected. walk.
  - unfold Disconnect. walk.
  - unfold SetMode, settle_mode, switch_mode. walk.
  - unfold SetRosenpass. walk.
  - unfold SetInnerMeshProfile, need_mesh. walk.
  - unfold EnableInnerMesh, need_mesh. walk.
  - unfold DisableInnerMesh. walk.
  - unfold ListProfiles. walk.
  - unfold AddProfile, store_add. walk.
  - unfold RemoveProfile. walk. apply within_update. by intros d1 [? ?].
  - unfold RenameProfile. walk. apply within_update, auth_update. intros d1. by case_bool_decide.
  - unfold SetActiveProfile, profileInfoBySlug. walk.
  - unfold GetActiveProfile. walk.
  - unfold GetStatus. walk.
  - intros [H1 H2]. destruct (same_supervise cfg delay d) as (_ & _ & Hb & _ & Hs & _).
    split; by rewrite ?Hs, ?Hb.
  - by intros [? ?].
  - apply auth_same. auto with within.
  - unfold Shutdown. walk.
Qed.
End safety.

(** ** Which legs may be up *)
Section running.
Context {K : BundleCodec} {C : Crypto} {J : RawJson} {N : NetipLib} {U : NetText} {H : HostDNS}
  {T : TunnelManager} {M : Mesh}.
Context (platform : os) (meshFactory : mesh) (cfg : Config).

Definition not_up (h : mesh) : Prop := mesh_state h <> InnerMesh.StateUp.
Definition outer_idle (d : Daemon) : Prop := t_state (manager d) <> Tunnel.StateUp /\ lastDNS d = None.
Definition inner_idle (d : Daemon) : Prop := forall h, dmesh d = Some h -> not_up h.

(** The legs a mode excludes are down, and without an active profile the outer
    leg is. [w] and [n] say which legs may be up. *)
Record legs_in (w n : bool) (d : Daemon) : Prop := {
  li_valid : Valid (currentMode d) = true;
  li_slug : currentSlug d = "" -> currentBundle d = None /\ outer_idle d;
  li_outer : w = false -> outer_idle d;
  li_inner : n = false -> inner_idle d }.
Definition legs_ok (d : Daemon) : Prop :=
  legs_in (IncludesWGCP0 (currentMode d)) (IncludesNetbird (currentMode d)) d.

(** The handles let go of since [dropped d = o] are not up; [None] where that
    is not asked. *)
Definition let_go (o : option (list mesh)) (d : Daemon) : Prop :=
  match o with Some old => exists l, dropped d = l ++ old /\ Forall not_up l | None => True end.

Lemma let_go_more o d d' l :
  let_go o d -> dropped d' = l ++ dropped d -> Forall not_up l -> let_go o d'.
Proof.
  destruct o as [old|]; [|done]. intros (k & Hk & Hf) Hd Hl. exists (l ++ k). rewrite Hd, Hk, app_assoc.
  split; [done|]. by apply Forall_app.
Qed.

(** At work in a mode, on a bundle. *)
Definition working (o : option (list mesh)) (m : Mode) (b : option EnrollmentBundle) (d : Daemon) : Prop :=
  legs_ok d /\ let_go o d /\ currentMode d = m /\ currentBundle d = b.

(** Steps that move nothing, only the outer leg, only the mesh handle held. *)
Definition quiet : relation Daemon := fun d d' =>
  currentMode d' = currentMode d /\ currentBundle d' = currentBundle d /\ currentSlug d' = currentSlug d /\
  manager d' = manager d /\ lastDNS d' = lastDNS d /\ dmesh d' = dmesh d /\ dropped d' = dropped d.
Definition moves_outer : relation Daemon := fun d d' =>
  currentMode d' = currentMode d /\ currentBundle d' = currentBundle d /\ currentSlug d' = currentSlug d /\
  dmesh d' = dmesh d /\ dropped d' = dropped d.
Definition moves_inner : relation Daemon := fun d d' =>
  currentMode d' = currentMode d /\ currentBundle d' = currentBundle d /\ currentSlug d' = currentSlug d /\
  manager d' = manager d /\ lastDNS d' = lastDNS d /\ dropped d' = dropped d.
#[export] Instance quiet_pre : PreOrder quiet.
Proof. split; [done|]. unfold quiet. intros d1 d2 d3 ? ?. intuition congruence. Qed.
#[export] Instance moves_outer_pre : PreOrder moves_outer.
Proof. split; [done|]. unfold moves_outer. intros d1 d2 d3 ? ?. intuition congruence. Qed.
#[export] Instance moves_inner_pre : PreOrder moves_inner.
Proof. split; [done|]. unfold moves_inner. intros d1 d2 d3 ? ?. intuition congruence. Qed.

Lemma legs_in_quiet w n d d' : quiet d d' -> legs_in w n d -> legs_in w n d'.
Proof.
  intros (Hm & Hb & Hs & Ht & Hl & Hh & _) [H1 H2 H3 H4]. unfold outer_idle, inner_idle in *.
  split; unfold outer_idle, inner_idle; by rewrite ?Hm, ?Hb, ?Hs, ?Ht, ?Hl, ?Hh.
Qed.
Lemma working_quiet o m b d d' : quiet d d' -> working o m b d -> working o m b d'.
Proof.
  intros Hq (Hl & Hg & Hm & Hb). pose proof Hq as (Em & Eb & _ & _ & _ & _ & Ed). unfold working, legs_ok.
  rewrite Em, Eb. split_and!; [by eapply legs_in_quiet| |done|done].
  apply (let_go_more o d d' []); [exact Hg|exact Ed|constructor].
Qed.
Lemma working_outer o m b d d' :
  moves_outer d d' -> IncludesWGCP0 m = true -> working o m (Some b) d -> working o m (Some b) d'.
Proof.
  intros (Em & Eb & Es & Eh & Ed) Hi ([H1 H2 H3 H4] & Hg & Hm & Hb). unfold inner_idle in *.
  assert (currentSlug d <> "") as Hs. { intros E. destruct (H2 E). congruence. }
  unfold working, legs_ok. rewrite Em, Eb. split_and!; [|apply (let_go_more o d d' []); [exact Hg|exact Ed|constructor]|done..].
  split; unfold inner_idle; rewrite ?Em, ?Es, ?Eh; try done. rewrite Hm, Hi. done.
Qed.
Lemma working_inner o m b d d' :
  moves_inner d d' -> IncludesNetbird m = true -> working o m b d -> working o m b d'.
Proof.
  intros (Em & Eb & Es & Et & El & Ed) Hi ([H1 H2 H3 H4] & Hg & Hm & Hb). unfold outer_idle in *.
  unfold working, legs_ok. rewrite Em, Eb. split_and!; [|apply (let_go_more o d d' []); [exact Hg|exact Ed|constructor]|done..].
  split; unfold outer_idle; rewrite ?Em, ?Eb, ?Es, ?Et, ?El; try done. rewrite Hm, Hi. done.
Qed.

#[local] Hint Extern 1 (within quiet (update _)) => apply within_update; done : within.
#[local] Hint Extern 1 (within quiet (on store _)) => apply within_on; done : within.
#[local] Hint Extern 1 (within quiet (on host _)) => apply within_on; done : within.
#[local] Hint Extern 1 (within quiet (on config_file _)) => apply within_on; done : within.
#[local] Hint Extern 1 (within moves_outer (update _)) => apply within_update; done : within.
#[local] Hint Extern 1 (within moves_outer (on _ _)) => apply within_on; done : within.
#[local] Hint Extern 1 (within moves_inner (update _)) => apply within_update; done : within.
#[local] Hint Extern 1 (within moves_inner (on_mesh _ _)) => apply within_on_mesh; done : within.

Lemma quiet_applyDNSCurrent {E} iface c : within quiet (applyDNSCurrent (E := E) cfg iface c).
Proof. unfold applyDNSCurrent. walk. Qed.
Lemma quiet_onForwarderState {E} up : within quiet (onForwarderState (E := E) cfg up).
Proof. pose proof @quiet_applyDNSCurrent. unfold onForwarderState. walk. Qed.
Lemma quiet_unwant {E} : within quiet (unwant (E := E)).
Proof. unfold unwant. walk. Qed.
Lemma quiet_connected {E} env : within quiet (connected (E := E) env).
Proof. unfold connected. walk. Qed.
Lemma quiet_outer {E A} (m : action Daemon E A) : within quiet m -> within moves_outer m.
Proof. intros Hm d. destruct (Hm d) as (?&?&?&?&?&?&?). done. Qed.
#[local] Hint Resolve quiet_unwant quiet_connected : within.

Lemma outer_applyDNS {E} iface c : within moves_outer (applyDNS (E := E) cfg iface c).
Proof. pose proof (@quiet_applyDNSCurrent E iface). unfold applyDNS. walk. by apply quiet_outer. Qed.
#[local] Hint Resolve outer_applyDNS : within.
Lemma outer_connect b : within moves_outer (connect_outer platform cfg b).
Proof. unfold connect_outer. walk. Qed.
Lemma inner_configure {E} h b : within moves_inner (configure_mesh (E := E) cfg h b).
Proof. unfold configure_mesh. walk. Qed.
Lemma inner_connectMesh h : within moves_inner (connectMesh h).
Proof. unfold connectMesh. walk. Qed.
#[local] Hint Resolve inner_configure inner_connectMesh : within.
Lemma inner_up_moves {E} h b : within moves_inner (inner_up (E := E) cfg h b).
Proof. unfold inner_up. walk. Qed.
Lemma inner_connect b : within moves_inner (connect_inner meshFactory cfg b).
Proof. unfold connect_inner. walk. Qed.
#[local] Hint Resolve outer_connect inner_up_moves inner_connect : within.

Section at_work.
Context (o : option (list mesh)) (m : Mode) (b : option EnrollmentBundle).
Abbreviation at_work := (keeps (working o m b)).

Lemma work_quiet {E A} (x : action Daemon E A) : within quiet x -> within at_work x.
Proof. intros Hx d Hd. by apply (working_quiet o m b d), Hd. Qed.
Lemma work_inner {E A} (x : action Daemon E A) : IncludesNetbird m = true -> within moves_inner x -> within at_work x.
Proof. intros Hi Hx d Hd. by apply (working_inner o m b d). Qed.
Lemma work_snapshot {E A} (f : Daemon -> action Daemon E A) :
  (forall d0, legs_ok d0 -> currentMode d0 = m -> currentBundle d0 = b -> within at_work (f d0)) ->
  within at_work (snapshot ≫= f).
Proof. intros Hf. apply within_snapshot. intros d Hd. pose proof Hd as (? & _ & ? & ?). by apply (Hf d). Qed.

(** What only takes legs down may happen any time. *)
Lemma work_down {E A} (x : action Daemon E A) :
  (forall d, let d' := (x d).2 in
     currentMode d' = currentMode d /\ currentBundle d' = currentBundle d /\ currentSlug d' = currentSlug d /\
     (outer_idle d -> outer_idle d') /\ (inner_idle d -> inner_idle d') /\
     exists l, dropped d' = l ++ dropped d /\ Forall not_up l) -> within at_work x.
Proof.
  intros Hx d ([H1 H2 H3 H4] & Hg & Hm & Hb). destruct (Hx d) as (Em & Eb & Es & Ho & Hi & l & Ed & Hl).
  unfold working, legs_ok. rewrite Em, Eb. split_and!; [|by apply (let_go_more o d _ l)|done..].
  split; rewrite ?Em, ?Eb, ?Es; [done| | |].
  - intros Es0. destruct (H2 Es0). auto.
  - auto.
  - auto.
Qed.
End at_work.

Lemma work_outer o m b {E A} (x : action Daemon E A) :
  IncludesWGCP0 m = true -> within moves_outer x -> within (keeps (working o m (Some b))) x.
Proof. intros Hi Hx d Hd. by apply (working_outer o m b d). Qed.

Lemma retire_not_up h : not_up (retire h).
Proof. unfold not_up, retire. by rewrite mesh_close_closed. Qed.

Lemma down_restoreDNS o m b : within (keeps (working o m b)) restoreDNS.
Proof.
  apply work_down. intros d. change (restoreDNS d) with (on host dns_restore (d <| lastDNS := None |>)).
  unfold on. cbn [host set set_lastDNS]. destruct (dns_restore (host d)) as [r h]. cbn.
  split_and!; try done; [|by exists []]. by intros [? _].
Qed.
Lemma down_disconnect o m b : within (keeps (working o m b)) (on manager t_disconnect).
Proof.
  apply work_down. intros d. unfold on. pose proof (t_disconnect_down (manager d)) as Hd.
  destruct (t_disconnect (manager d)) as [r t]. cbn in *. split_and!; try done; [|by exists []]. by intros [_ ?].
Qed.
Lemma down_configure o m b c : within (keeps (working o m b)) (on manager (t_configure c)).
Proof.
  apply work_down. intros d. unfold on. pose proof (t_configure_state c (manager d)) as Hc.
  destruct (t_configure c (manager d)) as [r t]. cbn in *. split_and!; try done; [|by exists []].
  intros [? ?]. split; cbn; [by rewrite Hc|done].
Qed.
Lemma down_close o m b : within (keeps (working o m b)) (on manager t_close).
Proof.
  apply work_down. intros d. unfold on. pose proof (t_close_up (manager d)) as Hc.
  destruct (t_close (manager d)) as [r t]. cbn in *. split_and!; try done; [|by exists []].
  intros [? ?]. split; cbn; [by intros ?%Hc|done].
Qed.
Lemma down_stats o m b : within (keeps (working o m b)) (on manager t_stats).
Proof.
  apply work_down. intros d. unfold on. pose proof (t_stats_state (manager d)) as Hc.
  destruct (t_stats (manager d)) as [r t]. cbn in *. split_and!; try done; [|by exists []].
  intros [? ?]. split; cbn; [by rewrite Hc|done].
Qed.
Lemma down_mesh o m b h : within (keeps (working o m b)) (on_mesh h mesh_disconnect).
Proof.
  apply work_down. intros d. unfold on_mesh. pose proof (mesh_disconnect_closed h) as Hc.
  destruct (mesh_disconnect h) as [r h']. cbn in *. split_and!; try done; [|by exists []].
  intros _ x [= <-]. unfold not_up. by rewrite Hc.
Qed.
Lemma down_drop_mesh {E} o m b : within (keeps (working o m b)) (drop_mesh (E := E)).
Proof.
  apply work_down. intros d. cbn. split_and!; try done.
  eexists. split; [done|]. destruct (dmesh d); cbn; [|constructor]. constructor; [apply retire_not_up|constructor].
Qed.
End running.
#[export] Hint Resolve down_restoreDNS down_disconnect down_configure down_close down_stats down_mesh down_drop_mesh : within.
#[export] Hint Resolve quiet_unwant quiet_connected quiet_onForwarderState outer_applyDNS outer_connect inner_configure
  inner_connectMesh inner_up_moves inner_connect : within.
#[export] Hint Extern 1 (within quiet (update _)) => apply within_update; done : within.
#[export] Hint Extern 1 (within quiet (on store _)) => apply within_on; done : within.
#[export] Hint Extern 1 (within quiet (on config_file _)) => apply within_on; done : within.
#[export] Hint Extern 1 (within moves_outer (on _ _)) => apply within_on; done : within.
#[export] Hint Extern 1 (within moves_inner (on_mesh _ _)) => apply within_on_mesh; done : within.
#[export] Hint Extern 5 (within (keeps (working _ _ _)) _) => apply work_quiet; solve [auto with within] : within.

(** The guards of the handlers as facts. *)
Ltac guards :=
  repeat match goal with
  | H : _ && _ = true |- _ => apply andb_true_iff in H as [? ?]
  | H : negb _ = false |- _ => apply negb_false_iff in H
  end; assumption.
#[export] Hint Extern 6 (within (keeps (working _ _ _)) _) =>
  apply work_outer; [guards|solve [auto with within]] : within.
#[export] Hint Extern 6 (within (keeps (working _ _ _)) _) =>
  apply work_inner; [guards|solve [auto with within]] : within.

(** [walk] for handlers whose guards read the mode and the bundle. *)
Ltac walk_legs :=
  repeat first
    [ lazymatch goal with |- within (keeps (working _ _ _)) (mbind _ snapshot) =>
        let Em := fresh in let Eb := fresh in apply work_snapshot; intros ? ? Em Eb; rewrite ?Em, ?Eb end
    | walk_step ].

(** ** The mode decides the legs *)
Section modes.
Context {K : BundleCodec} {C : Crypto} {J : RawJson} {N : NetipLib} {U : NetText} {H : HostDNS}
  {T : TunnelManager} {M : Mesh}.
Context (platform : os) (meshFactory : mesh) (cfg : Config).

Lemma down_outer_down {E} o m b : within (keeps (working o m b)) (outer_down (E := E)).
Proof. unfold outer_down. walk. Qed.
#[local] Hint Resolve down_outer_down : within.

Lemma legs_Connect env o m b : within (keeps (working o m b)) (Connect platform meshFactory cfg env).
Proof. unfold Connect. walk_legs. Qed.

Lemma legs_Disconnect o m b : within (keeps (working o m b)) Disconnect.
Proof. unfold Disconnect. walk_legs. Qed.
Lemma legs_SetRosenpass env r o m b : within (keeps (working o m b)) (SetRosenpass cfg env r).
Proof. unfold SetRosenpass. walk_legs. Qed.

Lemma work_need_mesh {A} o m b (f : mesh -> action Daemon daemon_error A) :
  (forall h, IncludesNetbird m = true -> within (keeps (working o m b)) (f h)) ->
  within (keeps (working o m b)) (need_mesh ≫= f).
Proof.
  intros Hf d Hd. unfold need_mesh, mbind, action_bind, snapshot, run, get. cbn.
  pose proof Hd as (_ & _ & Hm & _). rewrite Hm. destruct (IncludesNetbird m) eqn:E; cbn; [|done].
  destruct (dmesh d) as [h|]; cbn; [|done]. by apply Hf.
Qed.
Lemma legs_SetInnerMeshProfile r o m b : within (keeps (working o m b)) (SetInnerMeshProfile cfg r).
Proof. unfold SetInnerMeshProfile. apply work_need_mesh. walk_legs. Qed.
Lemma legs_EnableInnerMesh o m b : within (keeps (working o m b)) EnableInnerMesh.
Proof. unfold EnableInnerMesh. apply work_need_mesh. walk_legs. Qed.
Lemma legs_DisableInnerMesh o m b : within (keeps (working o m b)) DisableInnerMesh.
Proof. unfold DisableInnerMesh. walk_legs. Qed.
Lemma legs_ListProfiles env o m b : within (keeps (working o m b)) (ListProfiles env).
Proof. unfold ListProfiles. walk_legs. Qed.
Lemma legs_GetActiveProfile env o m b : within (keeps (working o m b)) (GetActiveProfile env).
Proof. unfold GetActiveProfile. walk_legs. Qed.
Lemma legs_GetStatus {E} names o m b : within (keeps (working o m b)) (GetStatus (E := E) cfg names).
Proof. unfold GetStatus. walk_legs. Qed.
Lemma legs_Shutdown o m b : within (keeps (working o m b)) Shutdown.
Proof. unfold Shutdown. walk_legs. Qed.

(** *** Handlers that change the profile *)
Definition legal (o : option (list mesh)) (d : Daemon) : Prop := legs_ok d /\ let_go o d.
Definition active (o : option (list mesh)) (d : Daemon) : Prop := legal o d /\ currentSlug d <> "".

Lemma legal_working o {E A} (x : action Daemon E A) :
  (forall m b, within (keeps (working o m b)) x) -> within (keeps (legal o)) x.
Proof.
  intros Hx d [Hl Hg]. by destruct (Hx (currentMode d) (currentBundle d) d) as (? & ? & _ & _).
Qed.
Lemma active_working o {E A} (x : action Daemon E A) :
  (forall m b, within (keeps (working o m b)) x) -> within same_profile x -> within (keeps (active o)) x.
Proof.
  intros Hx Hs d [Hd Hn]. split; [by apply legal_working|]. destruct (Hs d) as (_ & _ & _ & -> & _). done.
Qed.
Lemma active_quiet o {E A} (x : action Daemon E A) : within quiet x -> within (keeps (active o)) x.
Proof.
  intros Hq d [[Hl Hg] Hn]. pose proof (Hq d) as (_ & _ & Hs & _). split; [|congruence].
  destruct (working_quiet o (currentMode d) (currentBundle d) d (x d).2 (Hq d)) as (? & ? & _); [|by split].
  unfold working. by split_and!.
Qed.
Lemma legal_quiet o {E A} (x : action Daemon E A) : within quiet x -> within (keeps (legal o)) x.
Proof. intros Hq. apply legal_working. intros. by apply work_quiet. Qed.

(** A new bundle under an active slug. *)
Lemma active_bundle o {E} f b :
  (forall d, f d = d <| currentBundle := Some b |>) -> within (keeps (active o)) (update f : action Daemon E unit).
Proof.
  intros Hf d [[[H1 H2 H3 H4] Hg] Hn]. cbn. rewrite Hf. split; [|exact Hn]. split; [|exact Hg].
  split; [exact H1| |exact H3|exact H4]. intros Es. destruct (Hn Es).
Qed.
(** A new slug. *)
Lemma legal_slug o {E} f s b :
  s <> "" -> (forall d, f d = d <| currentBundle := b |> <| currentSlug := s |>) ->
  within (keeps (legal o)) (update f : action Daemon E unit).
Proof.
  intros Hs Hf d [[H1 H2 H3 H4] Hg]. cbn. rewrite Hf. split; [|exact Hg].
  split; [exact H1| |exact H3|exact H4]. intros Es. destruct (Hs Es).
Qed.

Lemma down_configure_outer {E} o m b b' : within (keeps (working o m b)) (configure_outer (E := E) platform b').
Proof. unfold configure_outer. walk. Qed.
#[local] Hint Resolve down_configure_outer : within.
#[local] Hint Extern 5 (within (keeps (legal _)) _) => apply legal_quiet; solve [auto with within] : within.
#[local] Hint Extern 6 (within (keeps (legal _)) _) => apply legal_working; solve [auto with within] : within.
#[local] Hint Extern 5 (within (keeps (active _)) _) => apply active_quiet; solve [auto with within] : within.
#[local] Hint Extern 6 (within (keeps (active _)) _) =>
  apply active_working; [solve [auto with within]|solve [auto with within]] : within.

Lemma store_add_slug env name m bytes r d info d' :
  store_add cfg env name m bytes r d = (Ok info, d') -> iSlug info <> "".
Proof.
  unfold store_add, on. destruct (Profile.Add _ _ _ _ (store d)) as [x w] eqn:Ea. intros [= -> _].
  by eapply Add_slug.
Qed.

(** Binding the result of a call that succeeded. *)
Lemma within_value {E A B} (R : relation Daemon) (m : action Daemon E A) (f : A -> action Daemon E B) (Q : A -> Prop) :
  PreOrder R -> within R m -> (forall d a d', m d = (Ok a, d') -> Q a) -> (forall a, Q a -> within R (f a)) ->
  within R (m ≫= f).
Proof.
  intros HR Hm HQ Hf d. unfold mbind, action_bind. specialize (Hm d). specialize (HQ d).
  destruct (m d) as [[a|e] d1]; cbn in *; [|done]. etrans; [exact Hm|]. by apply Hf, (HQ a d1).
Qed.

Lemma legs_import_default env m bytes b o : within (keeps (legal o)) (import_default cfg env m bytes b).
Proof.
  unfold import_default, store_add. apply (within_value _ _ _ (fun r => forall info, r = Ok info -> iSlug info <> ""));
    [apply _|walk| |].
  - intros d a d' Ha info ->. unfold attempt in Ha. destruct (on store _ d) as [r w] eqn:Er.
    injection Ha as -> ->. by eapply store_add_slug.
  - intros r Hr. apply (within_value _ _ _ (fun info => iSlug info <> "")); [apply _|walk| |].
    + intros d a d' Ha. destruct r as [info|e]; [injection Ha as <- _; by apply Hr|].
      destruct e; try discriminate Ha. unfold with_err in Ha. destruct (on store _ d) as [r w] eqn:Er.
      injection Ha as Ha _. destruct r; [|done]. injection Ha as ->. by eapply store_add_slug.
    + intros info Hi. walk. by eapply legal_slug.
Qed.
Lemma legs_import_replace env s m bytes b o : within (keeps (active o)) (import_replace cfg env s m bytes b).
Proof. unfold import_replace, profileInfoBySlug, store_add. walk. by eapply active_bundle. Qed.

Lemma legs_ImportBundle env r o : within (keeps (legal o)) (ImportBundle platform cfg env r).
Proof.
  unfold ImportBundle. apply within_lift_bind; [apply _|]. intros b _.
  case_match; [apply within_fail; apply _|]. do 3 (apply within_lift_bind; [apply _|]; intros _ _).
  apply within_snapshot. intros d. case_bool_decide as Hs.
  - assert (within (keeps (legal o)) (_ ← import_default cfg env (currentMode d) (ImportBytes r) b;
      _ ← configure_outer platform b; mret (import_reply b))) as Hw.
    { pose proof legs_import_default. walk. }
    apply Hw.
  - assert (within (keeps (active o)) (_ ← import_replace cfg env (currentSlug d) (currentMode d) (ImportBytes r) b;
      _ ← configure_outer platform b; mret (import_reply b))) as Hw.
    { pose proof legs_import_replace. walk. }
    intros Hd. by apply Hw.
Qed.

Lemma legs_RenameProfile env r o : within (keeps (legal o)) (RenameProfile env r).
Proof.
  unfold RenameProfile. apply (within_value _ _ _ (fun info => iSlug info <> "")); [apply _|walk| |].
  - intros d info d' Hr. unfold with_err, on in Hr. destruct (Profile.Rename _ _ _ _ (store d)) as [x w] eqn:Er.
    injection Hr as Hr _. destruct x; [|done]. injection Hr as ->. by eapply Rename_slug.
  - intros info Hi. walk. apply within_update. intros d Hd. case_bool_decide; [|done]. destruct Hd as [[H1 H2 H3 H4] Hg].
    split; [|exact Hg]. split; [exact H1| |exact H3|exact H4]. intros Es. destruct (Hi Es).
Qed.

(** *** Taking everything down *)
Definition idle (d : Daemon) : Prop := outer_idle d /\ inner_idle d.

Lemma outer_down_effect {E} d : exists d', outer_down (E := E) d = (Ok tt, d') /\ outer_idle d' /\
  currentMode d' = currentMode d /\ currentBundle d' = currentBundle d /\ currentSlug d' = currentSlug d /\
  dmesh d' = dmesh d /\ dropped d' = dropped d.
Proof.
  unfold outer_down, ignore, restoreDNS, mbind, action_bind, attempt, update, run, modify, on. cbn.
  destruct (dns_restore (host d)) as [r1 h]. cbn. pose proof (t_disconnect_down (manager d)) as Ht.
  destruct (t_disconnect (manager d)) as [r2 t]. cbn in *. by eexists.
Qed.

Lemma outer_down_idle {E} o m b :
  leads (working o m b) (outer_down (E := E)) (fun d => working o m b d /\ outer_idle d).
Proof.
  intros d Hd. pose proof (down_outer_down (E := E) o m b d Hd) as Hw.
  destruct (outer_down_effect (E := E) d) as (d' & Ed & Ho & _). rewrite Ed in Hw. by exists tt, d'.
Qed.

Lemma drop_mesh_idle {E} o m b : leads (fun d => working o m b d /\ outer_idle d)
  (_ ← unwant; drop_mesh (E := E)) (fun d => working o m b d /\ idle d).
Proof.
  eapply leads_bind.
  - apply (leads_update _ (fun d => working o m b d /\ outer_idle d)). intros d [Hd Ho]. split; [|exact Ho].
    by apply (working_quiet o m b d).
  - intros _ d [Hd [H1 H2]]. exists tt, (drop_mesh (E := E) d).2. split; [done|].
    split; [by apply down_drop_mesh|]. by split.
Qed.

Lemma tearDownMode_idle {E} o m b :
  leads (working o m b) (tearDownMode (E := E) m) (fun d => working o m b d /\ idle d).
Proof.
  unfold tearDownMode. apply (leads_bind _ (fun d => working o m b d /\ outer_idle d)).
  - destruct (IncludesWGCP0 m) eqn:Ew; [apply outer_down_idle|]. apply leads_ret. intros d Hd. split; [done|].
    destruct Hd as ([_ _ H3 _] & _ & <- & _). auto.
  - intros _. destruct (IncludesNetbird m) eqn:En; [apply drop_mesh_idle|]. apply leads_ret. intros d [Hd Ho].
    split; [done|]. split; [done|]. destruct Hd as ([_ _ _ H4] & _ & <- & _). auto.
Qed.

Lemma tearDownAll_idle {E} o m b :
  leads (working o m b) (tearDownAll (E := E)) (fun d => working o m b d /\ idle d).
Proof. unfold tearDownAll. eapply leads_bind; [apply outer_down_idle|]. intros _. apply drop_mesh_idle. Qed.

Lemma legal_is_working o d : legal o d -> working o (currentMode d) (currentBundle d) d.
Proof. intros [? ?]. unfold working. by split_and!. Qed.
Lemma leads_legal o {E A} (x : action Daemon E A) (Q : Daemon -> Prop) :
  (forall m b, leads (working o m b) x Q) -> leads (legal o) x Q.
Proof. intros Hx d Hd. by eapply Hx, legal_is_working. Qed.

Lemma forget_profile {E} o :
  leads (legal o) (_ ← tearDownAll (E := E); update (fun d => d <| currentBundle := None |> <| currentSlug := "" |>))
    (legal o).
Proof.
  apply leads_legal. intros m b. eapply leads_bind; [apply tearDownAll_idle|]. intros _. apply leads_update.
  intros d2 [([H1 H2 H3 H4] & Hg & _) [Ho _]]. split; [|exact Hg].
  split; [exact H1| |exact H3|exact H4]. by intros _.
Qed.

Lemma legs_RemoveProfile env r o : within (keeps (legal o)) (RemoveProfile env r).
Proof.
  unfold RemoveProfile. apply within_snapshot. intros d. case_bool_decide; intros Hd.
  - revert Hd. apply (leads_within _ (legal o)); [apply forget_profile|]. intros _ d1. apply legal_quiet. walk.
  - assert (within (keeps (legal o)) (_ ← (mret tt : action Daemon daemon_error unit);
      with_err EProfile (on store (Profile.Remove (store_ok env) (RemoveSlug r))))) as Hw by walk.
    by apply Hw.
Qed.

(** *** Switching the profile and the mode *)
Lemma remesh_let_go o m d :
  mesh_state meshFactory <> InnerMesh.StateUp -> let_go o d -> inner_idle d \/ o = None ->
  let_go o (remesh meshFactory m d).
Proof.
  intros Hf Hg Hi. unfold remesh, assign_mesh. destruct (dmesh d) as [h|] eqn:Eh, (IncludesNetbird m); try done.
  - destruct Hi as [Hi| ->]; [|done]. apply (let_go_more o d _ [h]); [done|by cbn; rewrite ?Eh|].
    constructor; [by apply Hi|constructor].
Qed.

Lemma remesh_fields m d :
  let d' := remesh meshFactory m d in
  currentMode d' = currentMode d /\ currentBundle d' = currentBundle d /\ currentSlug d' = currentSlug d /\
  manager d' = manager d /\ lastDNS d' = lastDNS d /\ (IncludesNetbird m = false -> dmesh d' = None).
Proof. unfold remesh, assign_mesh. by destruct (dmesh d) eqn:?, (IncludesNetbird m). Qed.

(** The lock of [setActiveLocked] that adopts the profile, with all legs down. *)
Lemma adopt_working o slug p m d :
  mesh_state meshFactory <> InnerMesh.StateUp -> slug <> "" -> Valid m = true ->
  let_go o d -> outer_idle d -> inner_idle d \/ o = None ->
  working o m (Some (pBundle p)) (adopt_target meshFactory slug p m d).
Proof.
  intros Hf Hs Hv Hg Ho Hi. unfold adopt_target.
  pose proof (remesh_fields m (d <| currentBundle := Some (pBundle p) |> <| currentMode := m |>
        <| currentSlug := slug |> <| rosenpassOverride := overrideFromProfile p |>)) as (Em & Eb & Es & Et & El & Eh).
  cbn [set] in *. unfold working, legs_ok. rewrite Em, Eb. split_and!; [|by apply remesh_let_go|done..].
  split; unfold outer_idle, inner_idle; rewrite ?Em, ?Es, ?Et, ?El; [done| |by intros _|].
  - intros E0. destruct (Hs E0).
  - intros En h. by rewrite (Eh En).
Qed.

Lemma work_legs_up {E} o m p :
  within (keeps (working o m (Some (pBundle p)))) (legs_up (E := E) platform cfg p m).
Proof. unfold legs_up. walk_legs. Qed.

Lemma legs_setActiveLocked env slug o d :
  mesh_state meshFactory <> InnerMesh.StateUp -> slug <> "" -> (currentSlug d = "" -> o = None) -> legal o d ->
  legal o (setActiveLocked platform meshFactory cfg env slug d).2.
Proof.
  intros Hf Hs Ho Hd. unfold setActiveLocked, mbind at 1, action_bind at 1.
  assert (within quiet (on store (Profile.Load (store_ok env) slug))) as Hq by auto with within. specialize (Hq d).
  apply legal_is_working in Hd.
  destruct (on store (Profile.Load (store_ok env) slug) d) as [[p|e] d1]; cbn [snd] in *;
    [|by destruct (working_quiet _ _ _ _ _ Hq Hd) as (? & ? & _)].
  assert (currentSlug d1 = "" -> o = None) as Ho1 by (by destruct Hq as (_ & _ & -> & _)).
  apply (working_quiet _ _ _ _ _ Hq) in Hd. revert Hd. generalize (currentMode d) (currentBundle d). clear Hq Ho d.
  intros m b Hd. unfold mbind at 1, action_bind at 1, snapshot, run, get. cbv beta iota zeta.
  pose proof Hd as (_ & _ & -> & _). generalize (eq_refl d1).
  apply (leads_within (fun d => d1 = d) (fun d => let_go o d /\ outer_idle d /\ (inner_idle d \/ o = None))).
  - destruct (bool_decide_reflect (currentSlug d1 = "")) as [E|E].
    + apply leads_ret. intros d <-. destruct Hd as ([_ H2 _ _] & Hg & _). destruct (H2 E). auto.
    + intros d <-. destruct (tearDownMode_idle (E := profile_error) o m b d1 Hd) as (a & d2 & E2 & (_ & Hg & _) & Hi).
      exists a, d2. destruct Hi. auto.
  - intros _ d2 (Hg & Hi). revert d2 Hg Hi.
    set (newMode := if Valid (pMode p) then pMode p else Default).
    assert (Valid newMode = true) as Hv by (unfold newMode; by destruct (Valid (pMode p)) eqn:?).
    intros d2 Hg [Hout Hin]. pose proof (adopt_working o slug p newMode d2 Hf Hs Hv Hg Hout Hin) as Hw.
    assert (within (keeps (working o newMode (Some (pBundle p)))) (_ ← legs_up platform cfg p newMode;
      _ ← ignore (on store (Profile.SetActive (store_ok env) slug)); _ ← connected env;
      (mret (currentSlug d1) : action Daemon profile_error string))) as Hrest.
    { pose proof @work_legs_up. walk. }
    by destruct (Hrest _ Hw) as (? & ? & _).
Qed.

Definition ready (o : option (list mesh)) (d : Daemon) : Prop := legal o d /\ (currentSlug d = "" -> o = None).

Lemma quiet_then {E A B} o (x : action Daemon E A) (f : A -> action Daemon E B) d :
  within quiet x -> ready o d ->
  (forall a d', x d = (Ok a, d') -> ready o d' -> legal o (f a d').2) -> legal o ((x ≫= f) d).2.
Proof.
  intros Hx [Hd Hs] Hf. assert (ready o (x d).2) as Hr.
  { split; [by apply legal_quiet|]. by destruct (Hx d) as (_ & _ & -> & _). }
  unfold mbind, action_bind. destruct (x d) as [[a|e] d'] eqn:E1; [by apply Hf|]. by destruct Hr.
Qed.

Lemma ready_setActive env slug o d {E F} (g : profile_error -> F) (f : string -> action Daemon F E) :
  mesh_state meshFactory <> InnerMesh.StateUp -> slug <> "" -> (forall s, within quiet (f s)) -> ready o d ->
  legal o ((prev ← with_err g (setActiveLocked platform meshFactory cfg env slug); f prev) d).2.
Proof.
  intros Hf Hs Hq [Hd Ho]. pose proof (legs_setActiveLocked env slug o d Hf Hs Ho Hd) as Hl.
  unfold mbind, action_bind, with_err. destruct (setActiveLocked _ _ _ _ _ d) as [[prev|e] d']; cbn in *; [|done].
  by apply legal_quiet.
Qed.

Lemma legs_AddProfile env r o d :
  mesh_state meshFactory <> InnerMesh.StateUp -> ready o d ->
  legal o (AddProfile platform meshFactory cfg env r d).2.
Proof.
  intros Hf Hd. unfold AddProfile. apply (quiet_then o snapshot); [walk|done|]. intros d0 d1 _ Hd1. clear d Hd.
  apply quiet_then; [walk|done|]. intros m d2 _ Hd2. clear d1 Hd1.
  apply quiet_then; [unfold store_add; walk|done|]. intros info d3 Hi Hd3.
  assert (iSlug info <> "") as Hs.
  { unfold with_err in Hi. destruct (store_add _ _ _ _ _ _ d2) as [x w] eqn:Ea. injection Hi as Hi _.
    destruct x; [|done]. injection Hi as ->. by eapply store_add_slug. }
  destruct (ReqSetActive r); [|by destruct Hd3]. apply ready_setActive; [done..| |done]. intros s. walk.
Qed.

Lemma legs_SetActiveProfile env r o d :
  mesh_state meshFactory <> InnerMesh.StateUp -> ready o d ->
  legal o (SetActiveProfile platform meshFactory cfg env r d).2.
Proof.
  intros Hf Hd. unfold SetActiveProfile. case_bool_decide; [by destruct Hd|].
  apply ready_setActive; [done..| |done]. intros s. unfold profileInfoBySlug. walk.
Qed.

(** The legs of [m] among those of [prev]: what is left up on the way of [SetMode]. *)
Definition between (o : option (list mesh)) (m : Mode) (b : option EnrollmentBundle) (w n : bool) (d : Daemon) : Prop :=
  legs_in w n d /\ let_go o d /\ currentMode d = m /\ currentBundle d = b.

Lemma between_outer_down {E} o m b w w' n :
  leads (between o m b w n) (outer_down (E := E)) (between o m b w' n).
Proof.
  intros d ([H1 H2 H3 H4] & Hg & Hm & Hb). destruct (outer_down_effect (E := E) d) as (d' & Ed & Ho & Em & Eb & Es & Eh & Ex).
  exists tt, d'. split; [done|]. unfold between. rewrite Em, Eb. split_and!; [|apply (let_go_more o d _ []); [done|exact Ex|constructor]|done..].
  split; unfold inner_idle; rewrite ?Em, ?Eb, ?Es, ?Eh; try done. intros Es0. by destruct (H2 Es0).
Qed.
Lemma between_drop_mesh {E} o m b w n n' :
  leads (between o m b w n) (drop_mesh (E := E)) (between o m b w n').
Proof.
  intros d ([H1 H2 H3 H4] & Hg & Hm & Hb). eexists tt, _. split; [done|].
  split_and!; [|eapply let_go_more; [exact Hg|done|]|exact Hm|exact Hb].
  - split; [exact H1|exact H2|exact H3|]. by intros _ h.
  - destruct (dmesh d); cbn; [|constructor]. constructor; [apply retire_not_up|constructor].
Qed.
Lemma between_assign o m b w d :
  mesh_state meshFactory <> InnerMesh.StateUp -> between o m b w false d ->
  between o m b w true (assign_mesh (Some meshFactory) d).
Proof.
  intros Hf ([H1 H2 H3 H4] & Hg & Hm & Hb).
  split_and!; [|eapply let_go_more; [exact Hg|done|]|exact Hm|exact Hb].
  - split; [exact H1|exact H2|exact H3|done].
  - destruct (dmesh d) as [h|] eqn:Eh; cbn; [|constructor]. constructor; [by apply H4|constructor].
Qed.

Lemma SetMode_reconciles {E} o prev m b :
  mesh_state meshFactory <> InnerMesh.StateUp -> Valid m = true ->
  leads (working o prev b) (switch_mode (E := E) meshFactory prev m) (working o m b).
Proof.
  intros Hf Hv. unfold switch_mode. eapply (leads_bind _ (between o m b (IncludesWGCP0 prev) (IncludesNetbird prev))).
  { apply leads_update. intros d ([H1 H2 H3 H4] & Hg & Hm & Hb). subst prev. by split_and!. }
  intros _. eapply (leads_bind _ (between o m b (IncludesWGCP0 prev && IncludesWGCP0 m) (IncludesNetbird prev))).
  { destruct (IncludesWGCP0 prev) eqn:Ep, (IncludesWGCP0 m) eqn:Em; cbn; try (by apply leads_ret).
    apply between_outer_down. }
  intros _. eapply (leads_bind _ (between o m b (IncludesWGCP0 prev && IncludesWGCP0 m)
    (IncludesNetbird prev && IncludesNetbird m))).
  { destruct (IncludesNetbird prev) eqn:Ep, (IncludesNetbird m) eqn:Em; cbn; try (by apply leads_ret).
    apply between_drop_mesh. }
  intros _ d Hd. assert (forall d, between o m b (IncludesWGCP0 prev && IncludesWGCP0 m) (IncludesNetbird m) d ->
    working o m b d) as Hend.
  { clear. intros d ([H1 H2 H3 H4] & Hg & Hm & Hb). unfold working, legs_ok. subst m. split_and!; [|done..].
    split; [done..| |done]. intros Ew. rewrite Ew, andb_false_r in H3. by apply H3. }
  destruct (IncludesNetbird prev) eqn:Ep, (IncludesNetbird m) eqn:Em; cbn in *;
    (eexists tt, _; split; [done|]; apply Hend); try exact Hd.
  by apply between_assign.
Qed.

Lemma work_settle_mode env o m b : within (keeps (working o m b)) (settle_mode platform cfg env m).
Proof. unfold settle_mode. walk_legs. Qed.

Lemma legs_SetMode env r o d :
  mesh_state meshFactory <> InnerMesh.StateUp -> legal o d ->
  legal o (SetMode platform meshFactory cfg env r d).2.
Proof.
  intros Hf Hd. unfold SetMode. destruct (Parse (ReqMode r)) as [m|] eqn:Ep; [|done].
  apply Parse_Valid in Ep. unfold mbind at 1, action_bind at 1. cbn [lift map_err].
  unfold mbind at 1, action_bind at 1, snapshot, run, get. cbv beta iota zeta.
  case_bool_decide; [done|]. apply legal_is_working in Hd. revert Hd.
  apply (leads_within _ (working o m (currentBundle d))); [by apply SetMode_reconciles|].
  intros _ d1 Hd1. assert (within (keeps (working o m (currentBundle d))) (_ ← settle_mode platform cfg env m;
    mret (currentMode d, m))) as Hw by (pose proof work_settle_mode; walk).
  by destruct (Hw d1 Hd1) as (? & ? & _).
Qed.

Lemma legs_supervise delay o d : legal o d -> legal o (supervise cfg delay d).2.
Proof.
  intros Hd. unfold supervise. destruct (dmesh d) as [h|], (currentBundle d) as [b|]; try done.
  destruct (negb (meshWanted d) || negb (IncludesNetbird (currentMode d))) eqn:E; [done|].
  apply orb_false_iff in E as [_ En%negb_false_iff]. destruct (mesh_state h); try done.
  assert (within moves_inner (h ← configure_mesh cfg h b; connectMesh h)) as Hw by walk.
  apply legal_is_working in Hd. pose proof (working_inner _ _ _ _ _ (Hw d) En Hd) as (Hl & Hg & _).
  clear Hd Hw. fold (legal o) in *. assert (legal o ((h ← configure_mesh cfg h b; connectMesh h) d).2) as Hx by (by split).
  clear Hl Hg. revert Hx.
  by destruct ((h ← configure_mesh cfg h b; connectMesh h) d) as [[|] ?].
Qed.

Lemma exec_legal env e o d :
  mesh_state meshFactory <> InnerMesh.StateUp -> ready o d -> legal o (exec platform meshFactory cfg env e d).
Proof.
  intros Hf Hd. pose proof Hd as [Hl _].
  assert (forall E A (x : action Daemon E A), (forall m b, within (keeps (working o m b)) x) -> legal o (x d).2) as Hw
    by (intros E A x Hx; by apply legal_working).
  destruct e; cbn [exec].
  - by apply legs_ImportBundle.
  - apply Hw, legs_Connect.
  - apply Hw, legs_Disconnect.
  - by apply legs_SetMode.
  - apply Hw. intros. apply legs_SetRosenpass.
  - apply Hw. intros. apply legs_SetInnerMeshProfile.
  - apply Hw, legs_EnableInnerMesh.
  - apply Hw, legs_DisableInnerMesh.
  - apply Hw. intros. apply legs_ListProfiles.
  - by apply legs_AddProfile.
  - by apply legs_RemoveProfile.
  - by apply legs_RenameProfile.
  - by apply legs_SetActiveProfile.
  - apply Hw. intros. apply legs_GetActiveProfile.
  - apply Hw. intros. apply legs_GetStatus.
  - by apply legs_supervise.
  - destruct Hl as [[H1 H2 H3 H4] Hg]. by split.
  - apply Hw. intros. walk.
  - apply Hw, legs_Shutdown.
Qed.

(** The daemon starts with both legs down. *)
Definition both_down (d : Daemon) : Prop := legs_in false false d.

Lemma both_down_legal d : both_down d -> legs_ok d.
Proof. intros [H1 H2 H3 H4]. split; auto. Qed.
Lemma start_quiet {E A} (x : action Daemon E A) : within quiet x -> within (keeps both_down) x.
Proof. intros Hx d Hd. by apply (legs_in_quiet _ _ d). Qed.
#[local] Hint Extern 5 (within (keeps both_down) _) => apply start_quiet; solve [auto with within] : within.

Lemma start_adopt {E} slug p : slug <> "" -> within (keeps both_down) (adoptProfile (E := E) platform cfg slug p).
Proof.
  intros Hs. unfold adoptProfile, configure_outer. walk.
  - apply within_update. intros d [H1 H2 H3 H4]. split; [|by intros Es|exact H3|exact H4].
    cbn. by destruct (Valid (pMode p)) eqn:Ev, (bool_decide (InitialMode cfg = "")).
  - apply within_on. intros d [H1 H2 H3 H4]. split; [exact H1| | |exact H4]; unfold outer_idle in *; cbn;
      rewrite t_configure_state; auto.
Qed.

Lemma start_migrate {E} env : within (keeps both_down) (migrate_legacy (E := E) platform cfg env).
Proof.
  unfold migrate_legacy. apply within_bind; [apply _|walk|]. intros d0.
  eapply (within_value _ _ _ (fun r => forall slug err, r = Ok (Some slug, err) -> slug <> "")); [apply _|walk| |].
  - intros d a d' Ha slug err ->. unfold attempt, on in Ha.
    destruct (MigrateLegacyBundle _ _ _ _ (store d)) as [x w] eqn:Em. injection Ha as -> _. by eapply Migrate_slug.
  - intros r Hr. pose proof (@start_adopt E). walk.
    match goal with |- within _ (adoptProfile _ _ ?s _) => apply start_adopt; by eapply Hr end.
Qed.

Lemma start_load {E} env : within (keeps both_down) (LoadPersistedBundle (E := E) platform cfg env).
Proof.
  pose proof (@start_migrate E). unfold LoadPersistedBundle. walk. apply start_adopt.
  by eapply bool_decide_eq_false.
Qed.

Lemma New_fields cok nu t h st w d :
  New meshFactory cfg cok nu t h st w = Ok d -> store d = st /\ currentBundle d = None.
Proof.
  unfold New. do 2 (case_bool_decide; [done|]).
  destruct (if bool_decide (CfgPath cfg = "") then _ else _) as [loaded w'].
  intros (pc & _ & Hn)%bind_Ok. apply bind_Ok in Hn as (mdns & _ & Hn). apply bind_Ok in Hn as (m & Hm & Hn).
  by apply bind_Ok in Hn as (? & _ & [= <-]).
Qed.

Lemma New_both_down cok nu t h st w d :
  t_state t <> Tunnel.StateUp -> mesh_state meshFactory <> InnerMesh.StateUp ->
  New meshFactory cfg cok nu t h st w = Ok d -> both_down d.
Proof.
  intros Ht Hf. unfold New. do 2 (case_bool_decide; [done|]).
  destruct (if bool_decide (CfgPath cfg = "") then _ else _) as [loaded w'].
  intros (pc & _ & Hn)%bind_Ok. apply bind_Ok in Hn as (mdns & _ & Hn). apply bind_Ok in Hn as (m & Hm & Hn).
  apply bind_Ok in Hn as (? & _ & [= <-]).
  assert (Valid m = true) as Hv.
  { unfold resolve_mode in Hm. apply bind_Ok in Hm as (m' & _ & Hm). destruct (Valid m') eqn:E; [by injection Hm as <-|done]. }
  split; [exact Hv|by cbn|by cbn|]. intros _ h'. cbn. destruct (IncludesNetbird m); [by intros [= <-]|done].
Qed.

Lemma reachable_legs (st : pworld) (d : Daemon) :
  mesh_state meshFactory <> InnerMesh.StateUp ->
  reachable (daemon_step platform meshFactory cfg) (boots platform meshFactory cfg st) d -> legs_ok d.
Proof.
  intros Hf. revert d. apply reachable_invariant.
  - intros d [env nu t h w d0 Ht Hn]. apply both_down_legal, start_load. by eapply New_both_down.
  - intros d1 l d2 Hd Hs. destruct Hs as [env e' d1]. by apply (exec_legal env e' None).
Qed.

(** An event lets go of no handle that is up, except a switch to a profile while
    none is active. *)
Lemma event_lets_go (env : Env) (e : event) (d : Daemon) :
  mesh_state meshFactory <> InnerMesh.StateUp -> legs_ok d -> currentSlug d <> "" ->
  let d' := exec platform meshFactory cfg env e d in
  exists l, dropped d' = l ++ dropped d /\ Forall (fun h => mesh_state h <> InnerMesh.StateUp) l.
Proof.
  intros Hf Hd Hn. destruct (exec_legal env e (Some (dropped d)) d Hf) as [_ Hg]; [|exact Hg].
  split; [|by intros E]. split; [done|]. by exists [].
Qed.
End modes.

(** ** Verified bundles, the supervisor, host DNS *)
Section guarantees.
Context {K : BundleCodec} {C : Crypto} {J : RawJson} {N : NetipLib} {U : NetText} {H : HostDNS}
  {T : TunnelManager} {M : Mesh}.
Context (platform : os) (meshFactory : mesh) (cfg : Config).

Lemma reachable_auth (st : pworld) (d : Daemon) :
  reachable (store_step (CfgTrustRoots cfg)) no_bundle_files (disk st) ->
  reachable (daemon_step platform meshFactory cfg) (boots platform meshFactory cfg st) d -> auth cfg d.
Proof.
  intros Hst%store_verified. revert d. apply reachable_invariant.
  - intros d [env nu t h w d0 Ht Hn]. apply auth_LoadPersistedBundle. apply New_fields in Hn as [Es Eb].
    split; [by rewrite Es|by rewrite Eb].
  - intros d1 l d2 Hd Hs. destruct Hs as [env e d1]. by apply auth_exec.
Qed.

(** C3: The daemon runs on verified bundles only. Started on a store disk the
    store's operations can leave behind, crashes included, the daemon never
    has a current bundle that does not verify against the trust roots or whose
    device key is unpaired, and what it leaves on disk for the next start is
    verified too: whatever is called, whatever system calls fail. *)
Theorem bundles_verified_always (st : pworld) (d : Daemon) :
  reachable (store_step (CfgTrustRoots cfg)) no_bundle_files (disk st) ->
  reachable (daemon_step platform meshFactory cfg) (boots platform meshFactory cfg st) d ->
  (forall b, currentBundle d = Some b ->
     VerifyBundle (CfgTrustRoots cfg) b = Ok tt /\ CheckCPDeviceKeypair b = Ok tt) /\
  bundles_verified (CfgTrustRoots cfg) (disk (store d)).
Proof.
  intros Hst Hr. destruct (reachable_auth st d Hst Hr) as [H1 H2]. by split.
Qed.

(** *** The supervisor *)

(** The mesh handle and the bundle of a mesh that is wanted and has failed. *)
Definition wanted_down (d : Daemon) : option (mesh * EnrollmentBundle) :=
  match dmesh d, currentBundle d with
  | Some h, Some b =>
    if meshWanted d && IncludesNetbird (currentMode d) && bool_decide (mesh_state h = InnerMesh.StateError)
    then Some (h, b) else None
  | _, _ => None
  end.

Lemma configure_mesh_eq {E} h b d :
  configure_mesh (E := E) cfg h b d =
  (Ok (mesh_configure (meshConfig cfg d (Some b)) h).2, d <| dmesh := Some (mesh_configure (meshConfig cfg d (Some b)) h).2 |>).
Proof.
  unfold configure_mesh, mbind, action_bind, snapshot, run, get, ignore, attempt, on_mesh. cbn.
  by destruct (mesh_configure (meshConfig cfg d (Some b)) h) as [r h'].
Qed.

Lemma backoff_range delay base mx :
  (0 < base <= delay)%Z -> (delay <= mx)%Z -> (mx * 2 <= int64_max)%Z ->
  Z.min (wrap64 (delay * 2)) mx = Z.min (2 * delay) mx.
Proof. intros ? ? Hm. rewrite wrap64_small; [f_equal; lia|]. unfold int64_min, int64_max in *. lia. Qed.

Lemma supervisor_base_pos : (0 < supervisor_base cfg)%Z.
Proof. unfold supervisor_base, second. destruct (Z.leb_spec (MeshSupervisorInterval cfg) 0); lia. Qed.

Lemma supervise_round delay d :
  supervise cfg delay d =
  match wanted_down d with
  | Some (h, b) =>
    let '(r, h') := mesh_connect (mesh_configure (meshConfig cfg d (Some b)) h).2 in
    (if is_ok r then (supervisor_base cfg, supervisor_base cfg)
     else (delay, Z.min (wrap64 (delay * 2)) (supervisor_max cfg)), d <| dmesh := Some h' |>)
  | None => ((supervisor_base cfg, (supervise cfg delay d).1.2), d)
  end /\
  (wanted_down d = None -> (supervise cfg delay d).1.2 = delay \/ (supervise cfg delay d).1.2 = supervisor_base cfg).
Proof.
  unfold supervise, wanted_down. destruct (dmesh d) as [h|], (currentBundle d) as [b|]; [|split; auto..].
  destruct (meshWanted d), (IncludesNetbird (currentMode d)); cbn [negb orb andb]; [|split; auto..].
  destruct (mesh_state h) eqn:Es; [split; auto..|].
  rewrite bool_decide_eq_true_2 by done. split; [|done].
  rewrite (action_bind_eq _ _ _ _ _ (configure_mesh_eq h b d)). unfold connectMesh, on_mesh.
  by destruct (mesh_connect _) as [[|] h'].
Qed.

Lemma action_bind_Err {S E A B} (f : A -> action S E B) (m : action S E A) s e s' :
  (m ≫= f) s = (Err e, s') ->
  m s = (Err e, s') \/ exists a s1, m s = (Ok a, s1) /\ f a s1 = (Err e, s').
Proof. unfold mbind, action_bind. destruct (m s) as [[a|e'] s1]; intros E1; [right; eauto|left; by injection E1 as -> ->]. Qed.

Abbreviation succeeds m := (leads (fun _ => True) m (fun _ => True)).
Lemma applyDNSCurrent_succeeds {E} iface c : succeeds (applyDNSCurrent (E := E) cfg iface c).
Proof.
  unfold applyDNSCurrent. apply leads_snapshot. intros d0 _. apply (leads_pre _ (fun _ => True)); [done|].
  apply (leads_bind _ (fun _ => True)).
  - destruct (fronting cfg d0 c); [|by apply leads_ret]. apply (leads_bind _ (fun _ => True)); [by apply leads_attempt|].
    intros r. by apply leads_ret.
  - intros []; [by apply leads_ret|by apply leads_ignore].
Qed.
Lemma applyDNS_succeeds {E} iface c : succeeds (applyDNS (E := E) cfg iface c).
Proof.
  unfold applyDNS. apply leads_snapshot. intros d0 _. apply (leads_pre _ (fun _ => True)); [done|].
  apply (leads_bind _ (fun _ => True)); [by apply leads_update|]. intros _.
  apply (leads_bind _ (fun _ => True)); [by apply leads_update|]. intros _. apply applyDNSCurrent_succeeds.
Qed.

Lemma connect_outer_error b d e d' : connect_outer platform cfg b d <> (Err (EMeshUp e), d').
Proof.
  unfold connect_outer. intros [Hc|(c & d1 & _ & Hc)]%action_bind_Err.
  - unfold lift in Hc. by destruct (Tunnel.FromBundle platform b).
  - apply action_bind_Err in Hc as [Hc|([] & d2 & _ & Hc)].
    + unfold with_err in Hc. by destruct (on manager (t_configure c) d1) as [[|] ?].
    + apply action_bind_Err in Hc as [Hc|([|] & d3 & _ & Hc)]; [|destruct (applyDNS_succeeds (E := daemon_error) (InterfaceName c) c d3 I) as (? & ? & Ha & _); congruence|done].
      unfold attempt in Hc. by destruct (on manager t_connect d2).
Qed.

Definition wants (d : Daemon) : Prop := meshWanted d = true /\ is_Some (dmesh d).
Lemma connect_inner_wants b d : wants (connect_inner meshFactory cfg b d).2.
Proof.
  unfold connect_inner. do 3 (unfold mbind at 1, action_bind at 1; cbn [snapshot run get update modify]).
  rewrite (action_bind_eq _ _ _ _ _ (configure_mesh_eq _ _ _)). unfold connectMesh, on_mesh, attempt, mbind, action_bind.
  destruct (mesh_connect _) as [[|] h']; (split; [done|by eexists]).
Qed.

Lemma Connect_wants env d e d' :
  Connect platform meshFactory cfg env d = (Err (EMeshUp e), d') -> meshWanted d' = true /\ is_Some (dmesh d').
Proof.
  unfold Connect. intros Hc. unfold mbind at 1, action_bind at 1, snapshot, run, get in Hc. cbv beta iota in Hc.
  destruct (currentBundle d) as [b|]; [|done]. apply action_bind_Err in Hc as [Hc|([] & d1 & _ & Hc)].
  - destruct (IncludesWGCP0 (currentMode d)); [by apply connect_outer_error in Hc|done].
  - apply action_bind_Err in Hc as [Hc|(? & ? & _ & Hc)]; [|done].
    destruct (IncludesNetbird (currentMode d)); [|done]. pose proof (connect_inner_wants b d1) as Hw. by rewrite Hc in Hw; destruct Hw.
Qed.

Lemma unwanted d : meshWanted d = false -> wanted_down d = None.
Proof. unfold wanted_down. intros ->. by destruct (dmesh d), (currentBundle d). Qed.
Lemma DisableInnerMesh_unwants d : meshWanted (DisableInnerMesh d).2 = false.
Proof.
  unfold DisableInnerMesh, mbind, action_bind, snapshot, unwant, update, run, get, modify, with_err, on_mesh.
  destruct (dmesh d) as [h|]; [|done]. by destruct (mesh_disconnect h).
Qed.

Lemma supervise_delays delay d :
  (supervisor_base cfg <= delay <= supervisor_max cfg)%Z -> (supervisor_max cfg * 2 <= int64_max)%Z ->
  let '((wait, next), _) := supervise cfg delay d in
  (supervisor_base cfg <= wait <= supervisor_max cfg)%Z /\ (supervisor_base cfg <= next <= supervisor_max cfg)%Z.
Proof.
  pose proof supervisor_base_pos as Hb. intros Hd Hmx.
  destruct (supervise_round delay d) as [Hr Hn]. destruct (wanted_down d) as [[h b]|].
  - rewrite Hr. destruct (mesh_connect _) as [[[]|e] h']; cbn [is_ok]; [lia|].
    rewrite (backoff_range delay (supervisor_base cfg) (supervisor_max cfg)) by lia. lia.
  - rewrite Hr. destruct (Hn eq_refl) as [-> | ->]; lia.
Qed.

(** One round of the supervisor, exactly. It acts only on a mesh that is
    wanted by a mode that includes it, on a loaded bundle, and whose state is a
    settled error; then it configures the handle with the profile's current
    configuration and connects it. A round that recovers the mesh leaves it up
    and resets the delay; a failed one waits the current delay and doubles it
    up to the maximum; every wait stays between the base and the maximum. A
    connect that failed on the mesh leg leaves the mesh wanted, so that the
    next round retries it, and no round revives a mesh the operator has
    disconnected or disabled. *)
Theorem supervisor_retries (delay : Z) (d : Daemon) :
  let base := supervisor_base cfg in
  let mx := supervisor_max cfg in
  (base <= delay <= mx)%Z -> (mx * 2 <= int64_max)%Z ->
  (let '((wait, next), d') := supervise cfg delay d in
   (base <= wait <= mx)%Z /\ (base <= next <= mx)%Z /\
   match wanted_down d with
   | None => d' = d
   | Some (h, b) =>
     let '(r, h') := mesh_connect (mesh_configure (meshConfig cfg d (Some b)) h).2 in
     d' = d <| dmesh := Some h' |> /\
     (if is_ok r then mesh_state h' = InnerMesh.StateUp /\ wait = base /\ next = base
      else wait = delay /\ next = Z.min (2 * delay) mx)
   end) /\
  (forall env e d', Connect platform meshFactory cfg env d = (Err (EMeshUp e), d') ->
     meshWanted d' = true /\ is_Some (dmesh d')) /\
  wanted_down (DisableInnerMesh d).2 = None /\
  (forall d', Disconnect d = (Ok tt, d') -> IncludesNetbird (currentMode d) = true -> wanted_down d' = None).
Proof.
  intros base mx Hd Hmx. pose proof supervisor_base_pos as Hb. split_and!.
  - destruct (supervise_round delay d) as [Hr Hn]. rewrite Hr. destruct (wanted_down d) as [[h b]|].
    + destruct (mesh_connect _) as [[[]|e] h'] eqn:Ec; cbn [is_ok].
      * apply mesh_connect_up in Ec. split_and!; try done; unfold base, mx in *; lia.
      * fold mx. rewrite (backoff_range delay base mx) by (unfold base, mx in *; lia).
        split_and!; try done; unfold base, mx in *; lia.
    + destruct (Hn eq_refl) as [-> | ->]; split_and!; try done; unfold base, mx in *; lia.
  - intros env e d'. apply Connect_wants.
  - apply unwanted, DisableInnerMesh_unwants.
  - intros d' Hc Hi. unfold Disconnect in Hc. apply action_bind_Ok in Hc as (d0 & d1 & [= <- <-] & Hc).
    apply action_bind_Ok in Hc as ([] & d2 & Hw & Hc). rewrite Hi in Hc. unfold wanted_down.
    destruct (dmesh d) as [h|] eqn:Eh.
    + apply action_bind_Ok in Hc as ([] & d3 & Hu & Hc). injection Hu as <-.
      unfold with_err, on_mesh in Hc. destruct (mesh_disconnect h) as [r h']. injection Hc as _ <-. by apply unwanted.
    + injection Hc as <-. assert (dmesh d2 = None) as ->; [|done].
      assert (within moves_outer (if IncludesWGCP0 (currentMode d) then
         _ ← ignore restoreDNS; with_err ETunnelDown (on manager t_disconnect) else mret tt)) as Ho.
      { unfold restoreDNS. walk; try apply within_update; try apply within_on; done. }
      destruct (Ho d) as (_ & _ & _ & Hd2 & _). rewrite Hw in Hd2. cbn in Hd2. by rewrite Hd2.
Qed.

(** *** Host DNS *)

(** What the resolver is given: the fronted variant where there is one and it is
    accepted, the mesh nameservers themselves otherwise. *)
Definition dns_variant (d : Daemon) (iface : string) (direct : DnsConfig) : DnsConfig :=
  match fronting cfg d direct with
  | Some c => if is_ok (dns_apply iface c (host d)).1 then c else direct
  | None => direct
  end.

Lemma dns_registers iface c h :
  effective c = true -> is_ok (dns_apply iface c h).1 = true -> serves (dns_apply iface c h).2 iface c.
Proof.
  intros He. destruct (dns_apply iface c h) as [[[]|] h'] eqn:E; [|done]. intros _. by apply dns_apply_serves in E.
Qed.

Lemma fronting_effective d direct c : fronting cfg d direct = Some c -> effective direct = true -> effective c = true.
Proof.
  unfold fronting, frontedDNSConfig. destruct (NamesFronting cfg); [|done]. destruct (namesSvc d) as [s|]; [|done].
  destruct (ForwarderHealthy s); [|done]. destruct (parse_addr_port _) as [[a p]|]; [|done].
  intros [= <-] He. by apply effective_servers.
Qed.

Lemma applyDNSCurrent_registers {E} d iface direct :
  effective direct = true -> (forall h, is_ok (dns_apply iface direct h).1 = true) ->
  serves (host (applyDNSCurrent (E := E) cfg iface direct d).2) iface (dns_variant d iface direct).
Proof.
  intros He Hok. assert (forall d0, serves (host (ignore (F := E) (on host (dns_apply iface direct)) d0).2)
    iface direct) as Hdirect.
  { intros d0. specialize (Hok (host d0)). apply dns_registers in Hok; [|done].
    unfold ignore, mbind, action_bind, attempt, on. by destruct (dns_apply iface direct (host d0)). }
  unfold applyDNSCurrent, dns_variant, mbind, action_bind, snapshot, run, get.
  destruct (fronting cfg d direct) as [c|] eqn:Ef; [|apply Hdirect].
  pose proof (dns_registers iface c (host d) (fronting_effective _ _ _ Ef He)) as Hc. unfold attempt, on.
  destruct (dns_apply iface c (host d)) as [[[]|] h']; cbn [is_ok fst]; [by apply Hc|apply Hdirect].
Qed.

End guarantees.

(** ** A daemon to run

    The toy store and tunnel, the fake mesh, and a host that accepts every
    configuration; bundles carry a relay and an inner-mesh setup. *)
Module ToyDaemon.
#[export] Existing Instance Toy.crypto.
#[export] Existing Instance ToyStore.raw.
#[export] Existing Instance ToyTunnel.netip.
#[export] Existing Instance ToyTunnel.dev.

Definition bundle_of (id sig : string) : EnrollmentBundle :=
  let b := ToyTunnel.with_relay (Toy.bundle_of id sig) in
  {| Version := Version b; DeviceID := DeviceID b; PeerPubkey := PeerPubkey b; ACLGroups := ACLGroups b;
     Site := Site b; KnownEndpoints := KnownEndpoints b; IssuedAt := IssuedAt b;
     ActivationDeadline := ActivationDeadline b; ExpiresAt := ExpiresAt b; Nonce := Nonce b; CAID := CAID b;
     SnitchProbeKey := SnitchProbeKey b; TLSTrustAnchor := TLSTrustAnchor b; CPDevicePubkey := CPDevicePubkey b;
     CPDevicePrivkey := CPDevicePrivkey b; CPDeviceAddress := CPDeviceAddress b;
     MeshSetup := {| SetupManagementURL := "https://mgmt.lab"; SetupSetupKey := "key"; SetupAdminAccessToken := "";
                     SetupPreSharedKey := []; SetupRosenpassEnabled := true; SetupRosenpassPermissive := false |};
     MobileCert := MobileCert b; Signature := Signature b |}.

#[export] Instance codec : BundleCodec := {|
  cbor_marshal b := Some (s2l (DeviceID b) ++ "|"%char :: Signature b);
  cbor_unmarshal data := '(id, sig) ← cut "|"%char data; Some (bundle_of (l2s id) (l2s sig)) |}.

#[export] Instance net_text : NetText := {|
  parse_addr_port s := if bool_decide (s = "127.0.0.1:53530") then Some (("127.0.0.1" : ip_addr), 53530%Z) else None;
  addr_text a := (a : string);
  url_hostname _ := None |}.

#[export, refine] Instance host_dns : HostDNS := {|
  resolver := option (string * DnsConfig);
  effective _ := true;
  serves h iface c := h = Some (iface, c);
  dns_apply iface c _ := (Ok tt, Some (iface, c));
  dns_restore _ := (Ok tt, None) |}.
Proof. - done. - by intros iface c h h' _ [= <-]. - by intros iface c h h' _ _ [= <-]. Defined.

#[export] Instance tunnel : TunnelManager := manager_tunnel Linux.
#[export] Instance fake : Mesh := fake_mesh true 0 0 (fun _ => []).

Definition fresh_fake (fails : Z) : mesh :=
  {| fcfg := zero_config; fstate := InnerMesh.StateClosed; fclosed := false; fpeers := []; failConnects := fails |}.
Definition new_mesh : mesh := fresh_fake 0.
Definition cfg : Config :=
  {| BundlePath := "/etc/goat/bundle.cbor"; SocketPath := "/run/goat.sock"; ProfilesDir := ""; ActiveProfilePath := "";
     CfgTrustRoots := Some {| keys := ["ca1" : PublicKey] |}; CfgPath := ""; InitialMode := ""; NamesFronting := true;
     MeshSupervisorInterval := 0; MeshSupervisorMax := 0 |}.
Definition env : Env := {| store_ok := fun _ => true; config_ok := fun _ => true; now := 5 |}.
Definition empty_store : pworld := World ∅ [] 0.

Definition run (e : event) (d : Daemon) : Daemon := exec Linux new_mesh cfg env e d.
Definition started : Daemon :=
  match New new_mesh cfg (fun _ => true) true NewManager None empty_store (World ∅ [] 0) with
  | Ok d => (LoadPersistedBundle (E := daemon_error) Linux cfg env d).2
  | Err _ => mkDaemon "" None None None "" NewManager None false None 0 None None
      {| Nameservers := []; DSearchDomains := []; DMatchDomains := []; Port := 0 |} no_config empty_store (World ∅ [] 0) []
  end.
Definition imported : Daemon := run (EvImportBundle {| ImportBytes := s2l "dev-1|ca1" |}) started.
Definition connected : Daemon := run EvConnect (run (EvForwarderHealth true "127.0.0.1:53530") imported).

Abbreviation reaches := (reachable (daemon_step Linux new_mesh cfg) (boots Linux new_mesh cfg empty_store)).
Lemma reaches_run e d : reaches d -> reaches (run e d).
Proof. intros Hd. by apply (reach_step _ _ _ e _ Hd), run_event. Qed.
Lemma reaches_started : reaches started.
Proof.
  apply reach_init. unfold started.
  assert (is_ok (New new_mesh cfg (fun _ => true) true NewManager None empty_store (World ∅ [] 0)) = true) as Hok
    by (vm_compute; reflexivity).
  destruct (New _ _ _ _ _ _ _ _) as [d|e] eqn:E.
  - refine (boot Linux new_mesh cfg empty_store env true NewManager None (World ∅ [] 0) d _ E). discriminate.
  - discriminate Hok.
Qed.
Lemma reaches_connected : reaches connected.
Proof. unfold connected, imported. repeat apply reaches_run. apply reaches_started. Qed.
End ToyDaemon.

Section witnesses.
Import ToyDaemon.

Lemma bundles_verified_always_witness :
  exists b, currentBundle connected = Some b /\ DeviceID b = "dev-1" /\
    VerifyBundle (CfgTrustRoots cfg) b = Ok tt /\ CheckCPDeviceKeypair b = Ok tt.
Proof.
  exists (bundle_of "dev-1" "ca1"). split; [vm_compute; reflexivity|]. split; [reflexivity|].
  apply (bundles_verified_always Linux new_mesh cfg empty_store connected);
    [apply reach_init; intros slug; reflexivity|exact reaches_connected|vm_compute; reflexivity].
Defined.

(** A mesh that failed, and fails once more. *)
Definition failing : Daemon :=
  connected <| dmesh := Some {| fcfg := zero_config; fstate := InnerMesh.StateError; fclosed := false;
                                fpeers := []; failConnects := 1 |} |>.
Lemma supervisor_retries_witness :
  (supervise cfg (15 * second) failing).1 = (15 * second, 30 * second)%Z /\
  is_Some (wanted_down (supervise cfg (15 * second) failing).2) /\
  (let '((wait, next), d') := supervise cfg (30 * second) (supervise cfg (15 * second) failing).2 in
   (supervisor_base cfg <= wait <= supervisor_max cfg)%Z).
Proof.
  split; [vm_compute; reflexivity|]. split; [vm_compute; eauto|].
  destruct (supervisor_retries Linux new_mesh cfg (30 * second) (supervise cfg (15 * second) failing).2) as [H _];
    [vm_compute; split; discriminate|vm_compute; discriminate|].
  destruct (supervise cfg (30 * second) _) as [[wait next] d']. destruct H as (Hw & _). exact Hw.
Defined.

Definition forwarder_lost : Daemon := run (EvForwarderHealth false "") connected.

(** *** A mesh handle that is forgotten while it is up

    Without a profile the operator may configure and enable the inner mesh;
    adding an outer-only profile and switching to it skips the teardown, which
    is for an active profile only, and then forgets the handle. *)
Definition mesh_without_profile : Daemon :=
  run EvEnableInnerMesh (run (EvSetInnerMeshProfile
    {| ReqManagementURL := "https://mgmt.lab"; ReqSetupKey := "key"; ReqAdminAccessToken := ""; ReqMobileCert := [];
       ReqPreSharedKey := [] |}) started).
Definition switched : Daemon :=
  run (EvAddProfile {| ReqName := "Lab"; ReqProfileMode := "outer"; ReqBundleBytes := s2l "dev-1|ca1";
                       ReqReplace := false; ReqSetActive := true |}) mesh_without_profile.

Lemma switch_forgets_running_mesh :
  mesh_state <$> dmesh mesh_without_profile = Some InnerMesh.StateUp /\ currentSlug switched = "lab" /\
  dmesh switched = None /\ mesh_state <$> dropped switched = [InnerMesh.StateUp].
Proof. split_and!; vm_compute; reflexivity. Qed.

(** *** A failed switch is not retried

    The teardown of [setActiveLocked] clears the intent and nothing sets it
    again: a mesh whose bring-up failed during the switch is left alone by the
    supervisor. *)
Definition stubborn_mesh : mesh := fresh_fake 1.
Definition switch_failed : Daemon :=
  exec Linux stubborn_mesh cfg env (EvSetActiveProfile {| ActiveSlug := "default" |}) connected.
Lemma failed_switch_not_retried :
  mesh_state <$> dmesh switch_failed = Some InnerMesh.StateError /\
  IncludesNetbird (currentMode switch_failed) = true /\ meshWanted switch_failed = false /\
  wanted_down switch_failed = None.
Proof. split_and!; vm_compute; reflexivity. Qed.
End witnesses.
