(* ===== verification/ProfilePaths.v ===== *)
(** Where the files of the profile store lie: bundlePath and metaPath of
    internal/profile/profile.go, and the identity files of fillMeshPersistPaths
    in internal/daemon/daemon.go.

    Profile.v names a file by its kind and slug. Here those names are paths:
    as long as a slug has no separator, and the slugs the store makes have
    none, different names are different files of the store's directory. *)
From stdpp Require Import base tactics list sets gmap strings.
From Stdlib Require Import ZArith Ascii Lia.
From S2P Require Import DnsAdapter.
From S2P Require Import Prelude GoStr GoPath Fs.
From S2P Require Import Mode.
From S2P Require Import Bundle.
From S2P Require Import Profile.
From S2P Require Import ProfileSpec.
From S2P Require Import Tunnel.
From S2P Require Import InnerMesh.
From S2P Require Import Ipc.
From S2P Require Import Daemon.
From S2P Require Import DaemonSpec.
Local Open Scope list_scope.

Section paths.
Context (dir : string).
Definition bundlePath (slug : string) : string := path_join [dir; slug +:+ ".cbor"].
Definition metaPath (slug : string) : string := path_join [dir; slug +:+ ".meta.json"].
(** The directory of a profile's netbird identity, a name without separator
    under [dir]. *)
Definition identityDir (slug : string) : string := path_join [dir; slug +:+ ".innermesh"].
End paths.

(** ** The files of the store *)
Definition no_slash (slug : string) : Prop := "/"%char ∉ s2l slug.

Lemma validateName_no_slash name slug : validateName name = Ok slug -> no_slash slug.
Proof.
  unfold validateName. case_bool_decide; [done|]. case_bool_decide; [done|]. intros [= <-].
  destruct (Slugify_shape name) as [Hs _]. intros Hi. by apply (proj1 (Forall_forall _ _) Hs) in Hi.
Qed.

Lemma plain_suffix slug suffix :
  no_slash slug -> 2 <= length (s2l suffix) -> (forall d, last (s2l suffix) = Some d -> d <> "."%char) ->
  no_slash suffix -> plain_name (slug +:+ suffix).
Proof.
  intros Hs Hl Hd Hx. unfold plain_name. rewrite s2l_app. unfold no_slash in *.
  assert (forall x, slug +:+ suffix = x -> exists l, s2l x = l ++ s2l suffix) as Hx' by
    (intros x <-; exists (s2l slug); apply s2l_app).
  split_and!.
  - intros [l E]%Hx'. apply (f_equal length) in E. rewrite length_app in E. cbn in E. lia.
  - intros [l E]%Hx'. apply (f_equal length) in E. rewrite length_app in E. cbn in E. lia.
  - intros [l E]%Hx'. destruct (s2l suffix) as [|a [|b [|]]] eqn:Es; cbn in Hl; try lia.
    + destruct l as [|? [|? [|]]]; try discriminate E. injection E as <- <-. by eapply Hd.
    + apply (f_equal length) in E. rewrite length_app in E. cbn in E. lia.
  - set_solver.
Qed.

Ltac no_separator := cbn; rewrite !not_elem_of_cons; repeat split; try discriminate; apply not_elem_of_nil.

Section distinct.
Context (dir : string) (Hdir : path_clean dir ∉ ["."; "/"]) (Hne : dir <> "").

Lemma under_dir slug suffix :
  no_slash slug -> suffix ∈ [".cbor"; ".meta.json"; ".innermesh"] ->
  path_join [dir; slug +:+ suffix] = path_clean dir +:+ "/" +:+ (slug +:+ suffix).
Proof.
  intros Hs Hx. apply path_join_plain; [done|done|].
  assert (suffix = ".cbor" \/ suffix = ".meta.json" \/ suffix = ".innermesh") as Hx' by set_solver.
  apply plain_suffix; [done|by destruct_or! Hx'; subst; cbn; lia| |].
  - intros d. by destruct_or! Hx'; subst; intros [= <-].
  - unfold no_slash. destruct_or! Hx'; subst; no_separator.
Qed.

Lemma app_inj_suffix (a b x : string) : a +:+ x = b +:+ x -> a = b.
Proof. intros E%(f_equal s2l). rewrite !s2l_app in E. by apply app_inv_tail, s2l_inj in E. Qed.
Lemma app_inj_prefix (a b x : string) : x +:+ a = x +:+ b -> a = b.
Proof. intros E%(f_equal s2l). rewrite !s2l_app in E. by apply app_inv_head, s2l_inj in E. Qed.
(** Two extensions that end differently. *)
Lemma app_last_differs (a b x y : string) c d :
  last (s2l x) = Some c -> last (s2l y) = Some d -> c <> d -> a +:+ x <> b +:+ y.
Proof.
  intros Hx Hy Hn E%(f_equal s2l). rewrite !s2l_app in E. apply (f_equal last) in E.
  rewrite !last_app, Hx, Hy in E. by injection E.
Qed.

Lemma identityDir_clean slug : no_slash slug -> path_clean (identityDir dir slug) = identityDir dir slug.
Proof.
  intros Hs. assert (slug +:+ ".innermesh" <> "") as Hn by (by destruct slug).
  unfold identityDir, path_join. rewrite !filter_cons_True, filter_nil by done. apply path_clean_idem.
Qed.
(** The files in which netbird keeps a profile's WireGuard identity. *)
Lemma identity_file slug file :
  no_slash slug -> plain_name file ->
  path_join [identityDir dir slug; file] = identityDir dir slug +:+ "/" +:+ file.
Proof.
  intros Hs Hf. assert (identityDir dir slug = path_clean dir +:+ "/" +:+ slug +:+ ".innermesh") as E
    by (apply under_dir; [done|set_solver]).
  rewrite path_join_plain, identityDir_clean by
    (done || (rewrite ?identityDir_clean, E by done; intros Hi; destruct (path_clean dir) as [|? [|]]; destruct slug; set_solver)).
  done.
Qed.

(** The names under which the model keeps the profile files are faithful:
    whatever the profile directory (not the root or the working directory), the
    slugs that names are turned into have no separator, and for slugs without
    one the bundle, the metadata and the netbird identity of a profile lie
    directly in the directory, are three different paths, and different
    profiles share none of them. *)
Theorem profile_files_distinct (slug slug' : string) :
  no_slash slug -> no_slash slug' ->
  (forall name s, validateName name = Ok s -> no_slash s) /\
  bundlePath dir slug = path_clean dir +:+ "/" +:+ slug +:+ ".cbor" /\
  metaPath dir slug = path_clean dir +:+ "/" +:+ slug +:+ ".meta.json" /\
  identityDir dir slug = path_clean dir +:+ "/" +:+ slug +:+ ".innermesh" /\
  (bundlePath dir slug = bundlePath dir slug' \/ metaPath dir slug = metaPath dir slug' \/
   identityDir dir slug = identityDir dir slug' -> slug = slug') /\
  bundlePath dir slug <> metaPath dir slug' /\ bundlePath dir slug <> identityDir dir slug' /\
  metaPath dir slug <> identityDir dir slug'.
Proof.
  intros H H'. unfold bundlePath, metaPath, identityDir. rewrite !under_dir by (done || set_solver).
  split; [by intros; eapply validateName_no_slash|]. do 3 (split; [done|]).
  split; [by intros [E|[E|E]]; apply app_inj_prefix, app_inj_prefix, app_inj_suffix in E|].
  split_and!; intros E%app_inj_prefix%app_inj_prefix; revert E; by eapply app_last_differs.
Qed.
End distinct.

Section identities.
Context {K : BundleCodec} {C : Crypto} {J : RawJson} {N : NetipLib} {U : NetText} {H : HostDNS}
  {T : TunnelManager} {M : Mesh}.
Context (cfg : Config).
(** The netbird identities of two profiles are never the same file. *)
Lemma identities_separate slug slug' c :
  path_clean (profilesDir cfg) ∉ ["."; "/"] -> profilesDir cfg <> "" ->
  no_slash slug -> no_slash slug' -> slug <> "" -> slug' <> "" ->
  ConfigPath (fillMeshPersistPaths cfg slug c) = ConfigPath (fillMeshPersistPaths cfg slug' c) -> slug = slug'.
Proof.
  intros Hd Hn Hs Hs' H0 H0'. unfold fillMeshPersistPaths. cbn.
  rewrite !bool_decide_eq_false_2 by done.
  change (path_join [profilesDir cfg; slug +:+ ".innermesh"]) with (identityDir (profilesDir cfg) slug).
  change (path_join [profilesDir cfg; slug' +:+ ".innermesh"]) with (identityDir (profilesDir cfg) slug').
  assert (plain_name "config.json") as Hp by (split_and!; [done..|no_separator]).
  rewrite !identity_file by done. unfold identityDir. rewrite !under_dir by (done || set_solver).
  intros E%app_inj_suffix%app_inj_prefix%app_inj_prefix%app_inj_suffix. done.
Qed.
End identities.

(** ** A slug with a separator

    SetActiveProfile hands the slug of the request to the store as it is. *)
Module Traversal.
Import ToyDaemon.
Definition evil : string := "../../../tmp/evil".
Lemma slug_leaves_directory :
  profilesDir cfg = "/etc/goat/profiles" /\
  bundlePath (profilesDir cfg) evil = "/tmp/evil.cbor" /\ metaPath (profilesDir cfg) evil = "/tmp/evil.meta.json".
Proof. do 2 (split; [vm_compute; reflexivity|]). vm_compute. reflexivity. Qed.

(** With a bundle of another authority at that place, a running daemon switches to it. *)
Definition planted (d : Daemon) : Daemon :=
  d <| store := World (<[Named (MetaFile evil) := MetaJson zero_meta]>
                      (<[Named (BundleFile evil) := Raw (s2l "dev-9|intruder")]> (disk (store d))))
                      (past (store d)) (ticks (store d)) |>.
Lemma unverified_bundle_adopted :
  exists b, currentBundle (run (EvSetActiveProfile {| ActiveSlug := evil |}) (planted connected)) = Some b /\
    VerifyBundle (CfgTrustRoots cfg) b <> Ok tt.
Proof. exists (bundle_of "dev-9" "intruder"). split; [vm_compute; reflexivity|]. vm_compute. discriminate. Qed.

Lemma profile_files_distinct_witness :
  bundlePath (profilesDir cfg) "lab" = "/etc/goat/profiles/lab.cbor" /\
  metaPath (profilesDir cfg) "lab" <> identityDir (profilesDir cfg) "default".
Proof.
  destruct (profile_files_distinct (profilesDir cfg)) with (slug := "lab") (slug' := "default")
    as (_ & Hb & _ & _ & _ & _ & _ & Hm).
  - vm_compute. intros Hi. inversion Hi as [|? ? ? Hi']; inversion Hi' as [|? ? ? Hi'']; inversion Hi''.
  - discriminate.
  - apply (validateName_no_slash "Lab"). reflexivity.
  - apply (validateName_no_slash "default"). reflexivity.
  - split; [exact Hb|exact Hm].
Defined.
End Traversal.
