(* ===== verification/NamesService.v ===== *)
(** The names service: internal/names/service.go with the forwarder's start and
    supervision (forwarder.go) and the daemon's copy of its status block.

    [Service] is the store and the forwarder of Forwarder.v with the bound
    address. The closure the daemon registers for its site and zone is asked at
    every refresh: what it says then is part of the refresh's [tick]. *)
From stdpp Require Import base tactics list gmap strings.
From Stdlib Require Import ZArith Ascii Lia.
From S2P Require Import Prelude GoStr Fs.
From S2P Require Import InnerMesh Daemon.
From S2P Require Import Bundle Names NamesStore Claims Forwarder.
Local Open Scope list_scope.

Record Service := { sfwd : forwarder; saddr : string; hasSite : bool }.

(** A refresh that falls due: the moment, the site and zone then, what the
    network answers, which file calls succeed. *)
Record tick := { tk_now : Z; tk_site : string * string; tk_fetch : string -> option chars; tk_ok : nat -> bool }.

Section service.
Context {C : Crypto} {L : NamesLib} {J : NamesJson} {CL : ClaimsLib} {FL : ForwarderLib}.
Context (roots : list (option PublicKey)).

Definition with_fwd {A} (m : state forwarder A) : state Service A := fun s =>
  let '(a, f) := m (sfwd s) in (a, {| sfwd := f; saddr := saddr s; hasSite := hasSite s |}).

(** ** Set-up *)
Definition NewService (st : store) : Service :=
  {| sfwd := {| fstore := st; upstreams := []; served := 0; lastFall := 0; healthy := false; notified := [] |};
     saddr := ""; hasSite := false |}.
Definition SetUpstreams (servers : list string) : state Service unit := with_fwd (modify (fun f =>
  {| fstore := fstore f; upstreams := servers; served := served f; lastFall := lastFall f; healthy := healthy f;
     notified := notified f |})).
Definition SetSiteFunc : state Service unit := modify (fun s => {| sfwd := sfwd s; saddr := saddr s; hasSite := true |}).
Definition currentUpstreams (s : Service) : list string := upstreams (sfwd s).
Definition baseURL (site : string * string) (s : Service) : string :=
  if hasSite s then GetBaseURL site.1 site.2 else "".

(** ** The forwarder's life

    [bound] is the address the listener got. No transition is announced. *)
Definition Start (bound : option string) : state Service (option string) := fun s =>
  match bound with
  | None => (None, s)
  | Some a =>
    (Some a, {| sfwd := {| fstore := fstore (sfwd s); upstreams := upstreams (sfwd s); served := served (sfwd s);
                           lastFall := lastFall (sfwd s); healthy := true; notified := notified (sfwd s) |};
                saddr := a; hasSite := hasSite s |})
  end.

(** Each serve that ends before its context is a crash; the last one's attempts
    to listen again end with the context. *)
Fixpoint supervise (crashes : list (list bool)) : state forwarder unit :=
  match crashes with
  | [] => mret tt
  | outcomes :: crashes' => serves ← rebind 0 outcomes; if serves : bool then supervise crashes' else mret tt
  end.

(** ** The refresh loop *)
Definition attempt_refresh (t : tick) : state Service unit := fun s =>
  let base := baseURL (tk_site t) s in
  if bool_decide (base = "") then (tt, s)
  else
    let '(_, st) := Refresh roots (tk_ok t) (tk_fetch t) (tk_now t) base (fstore (sfwd s)) in
    (tt, {| sfwd := set_store st (sfwd s); saddr := saddr s; hasSite := hasSite s |}).

(** The eager attempt, then one per tick until the context ends. *)
Fixpoint refreshLoop (ticks : list tick) : state Service unit :=
  match ticks with
  | [] => mret tt
  | t :: ticks' => _ ← attempt_refresh t; refreshLoop ticks'
  end.

(** [Run]: without a listener nothing starts. *)
Definition Run (bound : option string) (eager : tick) (ticks : list tick) : state Service (option string) :=
  a ← Start bound;
  match a with
  | None => mret None
  | Some a => _ ← refreshLoop (eager :: ticks); mret (Some a)
  end.

(** ** The status block *)
Definition grade_text (g : Grade) : string :=
  match g with GradeFresh => "fresh" | GradeAging => "aging" | GradeExpired => "expired" end.

Definition FallbackStats (f : forwarder) : Z * Z :=
  (served f, if (0 <? lastFall f)%Z then time_unix (lastFall f) else zero_time).

Definition StatusSnapshot (ok : nat -> bool) (now : Z) : state Service NamesSnapshot := fun s =>
  let '(snap, st1) := LoadSnapshot roots ok (fstore (sfwd s)) in
  let '(obs, st2) := ObservedCount ok now st1 in
  let meta := match snap with Ok sn => Some (GradeAt sn now) | Err _ => None end in
  let f := set_store st2 (sfwd s) in
  ({| NsGrade := match meta with Some m => grade_text (MGrade m) | None => "unavailable" end;
      NsSerial := from_option MSerial 0%Z meta; NsAge := from_option MAge 0%Z meta;
      NsRecords := from_option (fun m => Z.of_nat (MRecords m)) 0%Z meta;
      NsObserved := match obs with Ok n => Z.of_nat n | Err _ => 0 end;
      NsForwarderAddr := saddr s;
      NsFallbackServed := (FallbackStats f).1; NsLastFallback := (FallbackStats f).2 |},
   {| sfwd := f; saddr := saddr s; hasSite := hasSite s |}).

(** ** A service at work

    The clock is the moment of the last file the service or anyone else wrote;
    [replies] are the answers to the queries since the start. Every step may
    have its own failing file calls, among those [allowed]. *)
Record running := { svc : Service; clock : Z; replies : list reply }.
Definition fwd_of (r : running) : forwarder := sfwd (svc r).
Definition store_of (r : running) : store := fstore (fwd_of r).

Inductive slabel :=
  | SQuery (req : request)
  | SRefresh (t : tick)
  | SStatus
  | SCrash (outcomes : list bool)
  | SUpstreams (servers : list string)
  | STamper (f : nfile) (data : ndata)
  | SRestart (bound : string).

Definition with_svc (r : running) (s : Service) (now : Z) (l : list reply) : running :=
  {| svc := s; clock := now; replies := replies r ++ l |}.
Definition started_on (st : store) (bound : string) : Service := (Start (Some bound) (SetSiteFunc (NewService st)).2).2.

Inductive svc_step (allowed : (nat -> bool) -> Prop) : running -> slabel -> running -> Prop :=
  | step_query ok r req now :
      allowed ok -> (clock r < now)%Z ->
      svc_step allowed r (SQuery req)
        (let '(rep, s) := with_fwd (handle roots ok req now) (svc r) in with_svc r s now [rep])
  | step_refresh r t :
      allowed (tk_ok t) -> (clock r < tk_now t)%Z ->
      svc_step allowed r (SRefresh t) (with_svc r (attempt_refresh t (svc r)).2 (tk_now t) [])
  | step_status ok r now :
      allowed ok -> (clock r < now)%Z ->
      svc_step allowed r SStatus (with_svc r (StatusSnapshot ok now (svc r)).2 now [])
  | step_crash r outcomes :
      svc_step allowed r (SCrash outcomes) (with_svc r (with_fwd (supervise [outcomes]) (svc r)).2 (clock r) [])
  | step_upstreams r servers :
      svc_step allowed r (SUpstreams servers) (with_svc r (SetUpstreams servers (svc r)).2 (clock r) [])
  | step_tampered r now f data :
      (clock r < now)%Z ->
      let st := store_of r in
      svc_step allowed r (STamper f data)
        (with_svc r {| sfwd := set_store (set_fs (set_disk (<[Named f := {| ndat := data; mtime := now |}]> (disk (fs st))) (fs st)) st) (fwd_of r);
                       saddr := saddr (svc r); hasSite := hasSite (svc r) |} now [])
  | step_restart r d bound :
      d ∈ crash_disks (fs (store_of r)) ->
      svc_step allowed r (SRestart bound) {| svc := started_on (reset d) bound; clock := clock r; replies := [] |}.

(** The daemon started over the files of a disk. *)
Definition svc_start (r : running) : Prop :=
  exists d bound, r = {| svc := started_on (reset d) bound; clock := clock r; replies := [] |} /\ stamped (clock r) d.

Definition is_fallback (rep : reply) : bool := match rep with AddrReply _ _ _ => true | _ => false end.
(** The fallback answers given since the start. *)
Definition fallbacks (l : list reply) : Z := Z.of_nat (length (filter (fun rep => is_fallback rep = true) l)).

Record svc_inv (r : running) : Prop := {
  si_store : names_inv roots (store_of r, clock r);
  si_served : served (fwd_of r) = wrap64 (fallbacks (replies r));
  si_healthy : healthy (fwd_of r) = default true (last (notified (fwd_of r))) }.

(** ** The store's invariant under the service's calls *)
Abbreviation clocked now st := (names_inv roots (st, now)).

Lemma clocked_later st t now : (t <= now)%Z -> clocked t st -> clocked now st.
Proof.
  intros Hn (Hco & Hk & Hd). cbn in *. split_and!; [done| |].
  - intros z1 m1 z2 m2 E. cbn. specialize (Hk _ _ _ _ E). lia.
  - eapply Forall_impl; [exact Hd|]. intros d. by apply stamped_later.
Qed.
Lemma clocked_read st st' now : same_disk st st' -> same_memory st st' -> clocked now st -> clocked now st'.
Proof.
  intros [Hd Hp] [Hc Hk] (Hco & Hkey & Hs). cbn in *. split_and!; cbn.
  - apply (coherent_same roots st); [done|by rewrite Hd|done].
  - by rewrite Hk.
  - unfold crash_disks in *. by rewrite Hd, Hp.
Qed.
Lemma clocked_load ok st now : clocked now st -> clocked now (LoadSnapshot roots ok st).2.
Proof. intros H. exact (names_step_inv roots (st, now) NLoad _ H (step_load roots ok st now)). Qed.
Lemma clocked_put ok st t now artifact sig :
  (t < now)%Z -> clocked t st -> clocked now (PutSnapshot roots ok now artifact sig st).2.
Proof. intros Hn H. exact (names_step_inv roots (st, t) (NPut artifact sig) _ H (step_put roots ok st t now artifact sig Hn)). Qed.

(** What a write to a file other than the snapshot's pair leaves. *)
Lemma clocked_write st st' now f :
  f <> SnapshotFile -> f <> SigFile -> same_memory st st' ->
  let written (u : ndisk) := u = visible (disk (fs st)) \/
    exists c, u = <[Named f := {| ndat := c; mtime := now |}]> (visible (disk (fs st))) in
  written (visible (disk (fs st'))) -> step_to (fun d => written (visible d)) (fs st) (fs st') ->
  clocked now st -> clocked now st' /\ disk_snapshot roots (disk (fs st')) = disk_snapshot roots (disk (fs st)).
Proof.
  intros H1 H2 [Hc Hk] written Hw Hs (Hco & Hkey & Hd). cbn in *.
  assert (disk_snapshot roots (disk (fs st')) = disk_snapshot roots (disk (fs st))) as Hsame.
  { destruct Hw as [Hv|[c Hv]]; [by apply disk_snapshot_visible|].
    unfold disk_snapshot. by rewrite !(lookup_visible_insert _ _ _ _ _ Hv), !bool_decide_eq_false_2 by congruence. }
  split; [|done]. split_and!; cbn; [|by rewrite Hk|].
  - destruct Hw as [Hv|[c Hv]]; [by apply (coherent_same roots st)|]. by apply (coherent_other roots st _ f _ H1 H2 (conj Hc Hk) Hv).
  - apply (crash_stamped now now (fs st) _ (fun d => written (visible d))); [lia|done|done|]. intros d Hcase.
    apply Forall_cons in Hd as [Hd _].
    apply (stamped_visible _ (visible d)); [apply visible_idem|].
    assert (stamped now (visible (disk (fs st)))) as Hv by (eapply stamped_visible; [symmetry; apply visible_idem|done]).
    destruct Hcase as [->|[c ->]]; auto using stamped_write.
Qed.
Lemma clocked_record ok name ip st now :
  clocked now st -> let st' := (RecordObservation ok name ip now st).2 in
  clocked now st' /\ disk_snapshot roots (disk (fs st')) = disk_snapshot roots (disk (fs st)).
Proof.
  intros Hc st'. destruct (RecordObservation ok name ip now st) as [r st1] eqn:E. apply Record_spec in E as (H1 & H2 & Hv & Hs).
  apply (clocked_write st st1 now ObservedFile); [done..| | |done].
  - destruct Hv as [?|[l ?]]; [by left|right; eauto].
  - eapply step_to_mono; [|exact Hs]. intros d [?|[l ?]]; [by left|right; eauto].
Qed.
Lemma clocked_put_claims ok body st now :
  clocked now st -> let st' := (PutClaims ok now body st).2 in
  clocked now st' /\ disk_snapshot roots (disk (fs st')) = disk_snapshot roots (disk (fs st)).
Proof.
  intros Hc. cbv zeta. unfold PutClaims. destruct (json_envelopes body); [|done].
  destruct (writeAtomic ok now ClaimsFile (Bytes body) st) as [r st1] eqn:E. apply write_spec in E as (Hm & Hw & Hs & _). cbn.
  apply (clocked_write st st1 now ClaimsFile); [done..| | |done].
  - destruct Hw as [[_ ?]|[_ ?]]; [right; eauto|by left].
  - eapply step_to_mono; [|exact Hs]. intros d [?|?]; [by left|right; eauto].
Qed.

Lemma read_observed ok st : same_disk st (loadObserved ok st).2 /\ same_memory st (loadObserved ok st).2.
Proof. destruct (loadObserved ok st) as [r st1] eqn:E. by apply loadObserved_spec in E as (? & ? & _). Qed.
Lemma read_claims ok st : same_disk st (read_envelopes ok st).2 /\ same_memory st (read_envelopes ok st).2.
Proof.
  unfold read_envelopes, mbind, action_bind, attempt, on_fs, read_file, meddle, others, no_others. cbv beta iota.
  destruct (disk (fs st) !! Named ClaimsFile); [destruct (ok _)|]; by cbn.
Qed.

(** ** What a query does *)

(** The store stays in its invariant and keeps its snapshot, the health is as it was. *)
Definition tame {A} (now : Z) (m : state forwarder A) : Prop := forall f,
  clocked now (fstore f) ->
  clocked now (fstore (m f).2) /\ disk_snapshot roots (disk (fs (fstore (m f).2))) = disk_snapshot roots (disk (fs (fstore f))) /\
  healthy (m f).2 = healthy f /\ notified (m f).2 = notified f.

Lemma tame_ret {A} now (a : A) : tame now (mret a).
Proof. by intros f. Qed.
Lemma tame_bind {A B} now (m : state forwarder A) (g : A -> state forwarder B) :
  tame now m -> (forall a, tame now (g a)) -> tame now (m ≫= g).
Proof.
  intros Hm Hg f Hf. unfold mbind, state_bind. specialize (Hm f Hf). destruct (m f) as [a f1]. cbn [snd] in Hm.
  destruct Hm as (Hc & Hd & Hh & Hn). destruct (Hg a f1 Hc) as (Hc' & Hd' & Hh' & Hn'). split_and!; [done|congruence..].
Qed.
Lemma tame_get now : tame now get.
Proof. by intros f. Qed.
Lemma tame_on_store {A} now (m : action store store_error A) :
  (forall st, clocked now st -> clocked now (m st).2 /\ disk_snapshot roots (disk (fs (m st).2)) = disk_snapshot roots (disk (fs st))) ->
  tame now (on_store m).
Proof. intros Hm f Hf. unfold on_store. specialize (Hm _ Hf). destruct (m (fstore f)) as [r st]. by destruct Hm. Qed.
Lemma tame_read {A} now (m : action store store_error A) :
  (forall st, same_disk st (m st).2 /\ same_memory st (m st).2) -> tame now (on_store m).
Proof.
  intros Hm. apply tame_on_store. intros st Hst. destruct (Hm st) as [Hd Hmem]. split; [by eapply clocked_read|].
  by destruct Hd as [-> _].
Qed.
Lemma tame_load ok now : tame now (on_store (LoadSnapshot roots ok)).
Proof.
  apply tame_on_store. intros st Hst. split; [by apply clocked_load|].
  destruct (LoadSnapshot roots ok st) as [r st1] eqn:E. apply load_spec in E as ([Hd _] & _); [|apply Hst]. cbn. by rewrite Hd.
Qed.
Lemma tame_lookup_claim ok name sn now : tame now (on_store (LookupClaim roots ok name sn now)).
Proof.
  apply tame_read. intros st. pose proof (read_claims ok st) as Hr. unfold LookupClaim, mbind, action_bind.
  destruct (read_envelopes ok st) as [[[l|]|e] st1]; done.
Qed.
Lemma tame_lookup_observed ok name now : tame now (on_store (LookupObserved ok name now)).
Proof.
  apply tame_read. intros st. pose proof (read_observed ok st) as Hr. unfold LookupObserved, mbind, action_bind.
  by destruct (loadObserved ok st) as [[l|e] st1].
Qed.
Lemma tame_count now at_ : tame now (modify (count_served at_)).
Proof. by intros f. Qed.

Create HintDb tame discriminated.
#[local] Hint Resolve tame_ret tame_get tame_load tame_lookup_claim tame_lookup_observed tame_count : tame.
#[local] Ltac tame_walk :=
  repeat lazymatch goal with
         | |- tame _ (_ ≫= _) => apply tame_bind; [|intros ?]
         | |- tame _ (if ?b then _ else _) => destruct b
         | |- tame _ (match ?x with _ => _ end) => destruct x
         end; auto with tame.

Lemma tame_observe ok name ip now : tame now (observe ok name ip now).
Proof.
  unfold observe. destruct ip as [ip|]; [|auto with tame]. apply tame_bind; [|auto with tame].
  apply tame_on_store. intros st Hst. by apply clocked_record.
Qed.
Lemma tame_record_rrs ok l now : tame now (record_rrs ok l now).
Proof.
  induction l as [|[name ip|name ip|] l IH]; cbn [record_rrs]; [auto with tame|..|done];
    (apply tame_bind; [apply tame_observe|done]).
Qed.
Lemma tame_fallback ok q now : tame now (fallback roots ok q now).
Proof. unfold fallback, claim_tier, record_tier, answer. cbv zeta. tame_walk. Qed.
Lemma tame_handle ok req now : tame now (handle roots ok req now).
Proof.
  unfold handle. destruct req as [|q req]; [auto with tame|]. apply tame_bind; [auto with tame|]. intros f.
  destruct (tryUpstreams f (q :: req)) as [resp|]; [|apply tame_fallback].
  destruct (live_success resp); [apply tame_bind; [apply tame_record_rrs|auto with tame]|].
  destruct (live_failure resp); [auto with tame|apply tame_fallback].
Qed.

Lemma handle_counts ok req now f :
  let '(rep, f') := handle roots ok req now f in
  served f' = if is_fallback rep then wrap64 (served f + 1) else served f.
Proof.
  assert (forall q, let '(rep, f') := fallback roots ok q now f in
    served f' = if is_fallback rep then wrap64 (served f + 1) else served f) as Hfall.
  { intros q. destruct (fallback roots ok q now f) as [rep f'] eqn:E. apply fallback_reply in E.
    destruct rep; cbn in *; [done|..]; try by destruct E as [? _]. by destruct E as (_ & _ & _ & ? & _). }
  unfold handle. destruct req as [|q req]; [done|]. unfold mbind at 1, state_bind, get.
  destruct (tryUpstreams f (q :: req)) as [resp|]; [|apply Hfall].
  destruct (live_success resp).
  - unfold mbind, state_bind, recordLiveAnswers. pose proof (quiet_record_rrs ok (Answers resp) now f) as [Hs _].
    by destruct (record_rrs ok (Answers resp) now f).
  - destruct (live_failure resp); [done|apply Hfall].
Qed.

(** ** What a refresh does *)
Definition newer (old new : Snapshot) : Prop := new = old \/ (Serial old < Serial new)%Z.
#[export] Instance newer_pre : PreOrder newer.
Proof.
  split; [by left|]. intros s1 s2 s3 [->|H1] [->|H2]; [by left|by right..|right; lia].
Qed.

Lemma put_newer ok now artifact sig st t old :
  (forall n, ok n = true) -> (t < now)%Z -> clocked t st -> disk_snapshot roots (disk (fs st)) = Ok old ->
  exists new, disk_snapshot roots (disk (fs (PutSnapshot roots ok now artifact sig st).2)) = Ok new /\ newer old new.
Proof.
  intros Hok Hn Hc Hold. pose proof (inv_before roots _ _ Hc Hn) as Hb. cbn in Hb.
  destruct (PutSnapshot roots ok now artifact sig st) as [r st1] eqn:E.
  apply Put_spec in E as (_ & _ & Hs & Hr & Hf); [|apply Hc|done]. cbn [snd].
  rewrite <-(disk_snapshot_visible roots _ _ (visible_idem (disk (fs st)))) in Hold.
  rewrite <-(disk_snapshot_visible roots _ _ (visible_idem (disk (fs st1)))).
  destruct r as [cand|e].
  - destruct (Hr cand eq_refl) as [Hv Hd]. exists cand. split; [by rewrite Hd, disk_snapshot_pair, Hv|].
    pose proof (step_to_disk _ _ _ Hs (or_introl eq_refl)) as Hlast. clear Hs. destruct Hlast as [Hsame|[_ (cand' & Hv' & Hser)]].
    + rewrite Hsame in Hd. left. rewrite Hd, disk_snapshot_pair, Hv in Hold. by injection Hold.
    + assert (cand' = cand) as -> by congruence. right. by apply Hser; [apply fine_all|].
  - rewrite (Hf e eq_refl (or_introl Hok)). by exists old.
Qed.

Lemma Refresh_store t now fetch ok base st :
  (t < now)%Z -> clocked t st ->
  let st' := (Refresh roots ok fetch now base st).2 in
  clocked now st' /\
  forall old, (forall n, ok n = true) -> disk_snapshot roots (disk (fs st)) = Ok old ->
    exists new, disk_snapshot roots (disk (fs st')) = Ok new /\ newer old new.
Proof.
  intros Hn Hc. cbv zeta. assert (clocked now st) as Hl by (apply (clocked_later _ t); [lia|done]).
  assert (clocked now st /\ forall old, (forall n, ok n = true) -> disk_snapshot roots (disk (fs st)) = Ok old ->
    exists new, disk_snapshot roots (disk (fs st)) = Ok new /\ newer old new) as Hno by (split; [done|intros old _ ->; by exists old]).
  destruct (Refresh roots ok fetch now base st) as [r st'] eqn:E. cbn [snd]. revert E.
  unfold Refresh. case_bool_decide; [by intros [= _ <-]|]. cbv zeta. unfold mbind at 1, action_bind, lift.
  destruct (fetch _) as [artifact|]; [|by intros [= _ <-]]. cbn [of_option]. unfold mbind at 1.
  destruct (fetch _) as [sig|]; [|by intros [= _ <-]]. cbn [of_option]. unfold mbind at 1, with_err at 1.
  pose proof (clocked_put ok st t now artifact sig Hn Hc) as Hc1.
  pose proof (fun old Hok => put_newer ok now artifact sig st t old Hok Hn Hc) as Hnew.
  destruct (PutSnapshot roots ok now artifact sig st) as [[acc|e] st1]; cbn [snd map_err] in *; [|by intros [= _ <-]].
  unfold mbind. destruct (fetch _) as [claims|]; [|by intros [= _ <-]]. unfold attempt, mret, action_ret, mbind.
  destruct (clocked_put_claims ok claims st1 now Hc1) as [Hc2 Hd].
  destruct (PutClaims ok now claims st1) as [r2 st2]; cbn in *. intros [= _ <-]. rewrite Hd. by split.
Qed.

(** ** Health *)
Definition announced (f : forwarder) : Prop := healthy f = default true (last (notified f)).
Lemma setHealthy_announced up f : announced f -> announced (setHealthy up f).
Proof.
  unfold announced, setHealthy. cbn. intros H. destruct (Bool.eqb_spec (healthy f) up) as [<-|]; cbn; [done|].
  by rewrite last_snoc.
Qed.
Definition calm {A} (m : state forwarder A) : Prop := forall f,
  fstore (m f).2 = fstore f /\ served (m f).2 = served f /\ (announced f -> announced (m f).2).
Lemma calm_rebind i outcomes : calm (rebind i outcomes).
Proof.
  revert i. induction outcomes as [|o outcomes IH]; intros i f; cbn [rebind];
    unfold mbind, state_bind, get, modify, mret, state_ret; destruct (i =? length rebindDelays); cbn beta iota;
    try destruct o; cbn [snd];
    try (destruct (IH (S i) (setHealthy false f)) as (H1 & H2 & H3)); try (destruct (IH (S i) f) as (H1' & H2' & H3'));
    split_and!; try done; auto using setHealthy_announced.
Qed.
Lemma calm_supervise crashes : calm (supervise crashes).
Proof.
  induction crashes as [|o crashes IH]; intros f; [done|]. cbn [supervise]. unfold mbind, state_bind.
  pose proof (calm_rebind 0 o f) as (H1 & H2 & H3). destruct (rebind 0 o f) as [[] f1]; cbn [snd] in *; [|done].
  destruct (IH f1) as (H1' & H2' & H3'). split_and!; [congruence..|auto].
Qed.

(** ** The invariant *)
Lemma started_inv d bound t : stamped t d ->
  svc_inv {| svc := started_on (reset d) bound; clock := t; replies := [] |}.
Proof.
  intros Hd. split; [|done|done]. split_and!; cbn; [by intros s k|by intros ?????|by apply Forall_singleton].
Qed.

Lemma wrap64_succ z : wrap64 (wrap64 z + 1) = wrap64 (z + 1).
Proof.
  unfold wrap64. replace ((z + 2 ^ 63) mod 2 ^ 64 - 2 ^ 63 + 1 + 2 ^ 63)%Z with ((z + 2 ^ 63) mod 2 ^ 64 + 1)%Z by lia.
  rewrite Zplus_mod_idemp_l. by replace (z + 2 ^ 63 + 1)%Z with (z + 1 + 2 ^ 63)%Z by lia.
Qed.

Lemma fallbacks_snoc l rep :
  wrap64 (fallbacks (l ++ [rep])) = if is_fallback rep then wrap64 (wrap64 (fallbacks l) + 1) else wrap64 (fallbacks l).
Proof.
  unfold fallbacks. rewrite filter_app, length_app, wrap64_succ. destruct (is_fallback rep) eqn:E.
  - rewrite filter_cons_True by done. cbn. f_equal. lia.
  - rewrite filter_cons_False by (by rewrite E). cbn. by rewrite Nat.add_0_r.
Qed.

Lemma inv_query ok req now r :
  (clock r < now)%Z -> svc_inv r ->
  let r' := (let '(rep, s) := with_fwd (handle roots ok req now) (svc r) in with_svc r s now [rep]) in
  svc_inv r' /\ disk_snapshot roots (disk (fs (store_of r'))) = disk_snapshot roots (disk (fs (store_of r))).
Proof.
  intros Hn [Hs Hc Hh]. unfold with_fwd. apply (clocked_later _ _ now) in Hs; [|lia].
  destruct (tame_handle ok req now (sfwd (svc r)) Hs) as (H1 & H2 & H3 & H4).
  pose proof (handle_counts ok req now (sfwd (svc r))) as Hcount.
  destruct (handle roots ok req now (sfwd (svc r))) as [rep f']. cbn [snd] in *. split; [|done].
  split; cbn; [done| |by rewrite H3, H4].
  rewrite Hcount, fallbacks_snoc.
  unfold fwd_of in Hc. rewrite Hc. done.
Qed.

Lemma attempt_refresh_eq t s :
  (attempt_refresh t s).2 =
  {| sfwd := set_store (if bool_decide (baseURL (tk_site t) s = "") then fstore (sfwd s)
                        else (Refresh roots (tk_ok t) (tk_fetch t) (tk_now t) (baseURL (tk_site t) s) (fstore (sfwd s))).2) (sfwd s);
     saddr := saddr s; hasSite := hasSite s |}.
Proof.
  unfold attempt_refresh. cbv zeta. case_bool_decide; [by destruct s as [[] ? ?]|]. by destruct (Refresh _ _ _ _ _ _).
Qed.
Lemma inv_refresh t r :
  (clock r < tk_now t)%Z -> svc_inv r ->
  let r' := with_svc r (attempt_refresh t (svc r)).2 (tk_now t) [] in
  svc_inv r' /\
  forall old, (forall n, tk_ok t n = true) -> disk_snapshot roots (disk (fs (store_of r))) = Ok old ->
    exists new, disk_snapshot roots (disk (fs (store_of r'))) = Ok new /\ newer old new.
Proof.
  intros Hn [Hs Hc Hh]. cbv zeta. rewrite attempt_refresh_eq. unfold store_of, fwd_of in *. cbn.
  set (base := baseURL (tk_site t) (svc r)).
  destruct (Refresh_store (clock r) (tk_now t) (tk_fetch t) (tk_ok t) base _ Hn Hs) as [H1 H2].
  case_bool_decide.
  - split; [|intros old _ ->; by exists old]. split; cbn; [apply (clocked_later _ (clock r)); [lia|done]|by rewrite app_nil_r|done].
  - split; [|exact H2]. split; cbn; [done|by rewrite app_nil_r|done].
Qed.

Lemma StatusSnapshot_store ok now s :
  clocked now (fstore (sfwd s)) ->
  let s' := (StatusSnapshot ok now s).2 in
  clocked now (fstore (sfwd s')) /\ sfwd s' = set_store (fstore (sfwd s')) (sfwd s) /\
  disk (fs (fstore (sfwd s'))) = disk (fs (fstore (sfwd s))).
Proof.
  intros Hs. unfold StatusSnapshot. cbv zeta. pose proof (clocked_load ok _ _ Hs) as H1.
  destruct (LoadSnapshot roots ok (fstore (sfwd s))) as [sn st1] eqn:E. apply load_spec in E as ([Hd _] & _); [|apply Hs]. cbn in H1.
  unfold ObservedCount, mbind, action_bind. pose proof (read_observed ok st1) as [Ho Hm].
  destruct (loadObserved ok st1) as [[l|e] st2]; cbn in *; (split_and!; [by eapply clocked_read|done|by destruct Ho as [-> _]]).
Qed.

Lemma svc_step_inv allowed r l r' : svc_inv r -> svc_step allowed r l r' -> svc_inv r'.
Proof.
  intros Hi Hstep. destruct Hstep as [ok r req now _ Hn|r t _ Hn|ok r now _ Hn|r outcomes|r servers|r now f data Hn st|r d bound Hd].
  - by apply (inv_query ok req now r).
  - by apply (inv_refresh t r).
  - destruct Hi as [Hs Hc Hh]. apply (clocked_later _ _ now) in Hs; [|lia].
    destruct (StatusSnapshot_store ok now (svc r) Hs) as (H1 & H2 & _).
    split; cbn; unfold store_of, fwd_of in *; cbn; [done|rewrite app_nil_r, H2; done|by rewrite H2].
  - destruct Hi as [Hs Hc Hh]. pose proof (calm_supervise [outcomes] (sfwd (svc r))) as (H1 & H2 & H3).
    unfold with_fwd. destruct (supervise [outcomes] (sfwd (svc r))) as [u f]. cbn [snd] in *.
    split; cbn; unfold store_of, fwd_of in *; cbn; [by rewrite H1|by rewrite app_nil_r, H2|by apply H3].
  - destruct Hi as [Hs Hc Hh]. split; cbn; [done|by rewrite app_nil_r|done].
  - destruct Hi as [Hs Hc Hh]. split; cbn; [|by rewrite app_nil_r|done].
    exact (names_step_inv roots _ _ _ Hs (step_tamper roots st (clock r) now f data Hn)).
  - destruct Hi as [(_ & _ & Hs) _ _]. apply started_inv. cbn in Hs. rewrite Forall_forall in Hs. by apply Hs.
Qed.
Lemma svc_reachable_inv allowed r : reachable (svc_step allowed) svc_start r -> svc_inv r.
Proof.
  revert r. apply reachable_invariant.
  - intros r (d & bound & -> & Hd). by apply started_inv.
  - intros r l r'. apply svc_step_inv.
Qed.

(** The names block of the status is honest. In every state the service
    reaches - by queries, refreshes from any network, crashes of its listener,
    rewrites of its files by others, failing file calls, restarts - a grade other
    than unavailable is that of a snapshot a trust root has signed, as the files
    hold it now, graded by the present clock, with its serial and its number of
    records; if the files can be read, the grade is unavailable only when they
    hold no such snapshot; the fallback count is the number of addresses the
    fallback tiers have answered since the start; and the health of the forwarder
    is what was last announced to the daemon. *)
Theorem names_status_honest (r : running) (ok : nat -> bool) (now : Z) :
  reachable (svc_step (fun _ => True)) svc_start r ->
  let ns := (StatusSnapshot ok now (svc r)).1 in
  let d := disk (fs (store_of r)) in
  (NsGrade ns <> "unavailable" ->
     exists a c sn, d !! Named SnapshotFile = Some a /\ d !! Named SigFile = Some c /\
       root_signed roots (bytes_of_content a) (bytes_of_content c) /\ json_snapshot (bytes_of_content a) = Some sn /\
       NsGrade ns = grade_text (MGrade (GradeAt sn now)) /\ NsSerial ns = Serial sn /\
       NsRecords ns = Z.of_nat (length (Records sn))) /\
  ((forall n, ok n = true) -> NsGrade ns = "unavailable" -> is_ok (disk_snapshot roots d) = false) /\
  NsFallbackServed ns = wrap64 (fallbacks (replies r)) /\
  healthy (fwd_of r) = default true (last (notified (fwd_of r))).
Proof.
  intros Hr. apply svc_reachable_inv in Hr as [(Hco & _) Hc Hh]. cbn [fst] in Hco. unfold StatusSnapshot.
  unfold store_of, fwd_of in *. destruct (LoadSnapshot roots ok (fstore (sfwd (svc r)))) as [snap st1] eqn:E.
  apply load_spec in E as (_ & _ & _ & Hs & Hok); [|done].
  destruct (ObservedCount ok now st1) as [obs st2]. cbn.
  split_and!; [| |done|done].
  - destruct snap as [sn|e]; [|by intros []]. intros _. specialize (Hs sn eq_refl). unfold disk_snapshot in Hs.
    destruct (_ !! Named SnapshotFile) as [a|]; cbn in Hs; [|done]. destruct (_ !! Named SigFile) as [c|]; cbn in Hs; [|done].
    apply map_err_Ok, VerifyAndParse_Ok in Hs as (H1 & H2 & _). by exists a, c, sn.
  - intros Hall. rewrite <-(Hok (fine_all ok 4 _ Hall)). destruct snap as [sn|e]; [|done]. cbn. by repeat case_match.
Qed.

(** The steps of a machine whose files nobody else rewrites and which stays up. *)
Definition peaceful (l : slabel) : bool := match l with STamper _ _ | SRestart _ => false | _ => true end.
Definition all_fine (ok : nat -> bool) : Prop := forall n, ok n = true.
Definition goes_on (r r' : running) : Prop := exists l, peaceful l = true /\ svc_step all_fine r l r'.

Lemma goes_on_newer r r' old :
  svc_inv r -> goes_on r r' -> disk_snapshot roots (disk (fs (store_of r))) = Ok old ->
  exists new, disk_snapshot roots (disk (fs (store_of r'))) = Ok new /\ newer old new.
Proof.
  intros Hi (l & Hp & Hstep) Hold.
  destruct Hstep as [ok r req now _ Hn|r t Hok Hn|ok r now _ Hn|r outcomes|r servers|r now f data Hn st|r d bound Hd]; try done.
  - destruct (inv_query ok req now r Hn Hi) as [_ ->]. by exists old.
  - destruct (inv_refresh t r Hn Hi) as [_ Hnew]. by apply Hnew.
  - exists old. split; [|done]. destruct Hi as [Hs _ _]. apply (clocked_later _ _ now) in Hs; [|lia].
    destruct (StatusSnapshot_store ok now (svc r) Hs) as (_ & _ & Hd). unfold store_of, fwd_of in *. cbn. by rewrite Hd.
  - exists old. split; [|done]. pose proof (calm_supervise [outcomes] (sfwd (svc r))) as (H1 & _).
    unfold with_fwd, store_of, fwd_of in *. destruct (supervise [outcomes] (sfwd (svc r))). cbn in *. by rewrite H1.
  - by exists old.
Qed.

(** C16: A running service never goes back to an older snapshot. From a state it can
    reach whose files hold a signed snapshot, whatever its queries, its refreshes -
    from any network, which may replay or forge - and the crashes of its listener
    come to: as long as no file call fails and nobody else touches the files, they
    hold a signed snapshot, the same or one with a higher serial. *)
Theorem service_never_goes_back (r r' : running) (old : Snapshot) :
  reachable (svc_step (fun _ => True)) svc_start r -> rtc goes_on r r' ->
  disk_snapshot roots (disk (fs (store_of r))) = Ok old ->
  exists new, disk_snapshot roots (disk (fs (store_of r'))) = Ok new /\ newer old new.
Proof.
  intros Hr%svc_reachable_inv Hpath. revert old Hr. induction Hpath as [r|r1 r2 r3 H12 _ IH]; intros old Hi Hold; [by exists old|].
  destruct (goes_on_newer _ _ _ Hi H12 Hold) as (mid & Hmid & Hle1).
  assert (svc_inv r2) as Hi2 by (destruct H12 as (l & _ & Hs); by eapply svc_step_inv).
  destruct (IH mid Hi2 Hmid) as (new & Hnew & Hle2). exists new. split; [done|by etrans].
Qed.
End service.

(** ** A service at work, concretely *)
Module ToyService.
Import ToyForwarder.
#[export] Existing Instance Toy.crypto.
#[export] Existing Instance ToyNames.lib.
#[export] Existing Instance ToyNamesStore.json.
#[export] Existing Instance ToyClaims.lib.
#[export] Existing Instance ToyForwarder.lib.
Definition roots := ToyNamesStore.roots.
Definition fine := ToyNamesStore.fine.

(** A download surface that serves the snapshot [id]. *)
Definition serves (id : string) (url : string) : option chars :=
  if bool_decide (url = "https://get.lab.zone/name-snapshot.json") then Some (s2l id)
  else if bool_decide (url = "https://get.lab.zone/name-snapshot.json.sig") then Some (s2l "ca") else None.
Definition due (now : Z) (id : string) : tick :=
  {| tk_now := now; tk_site := ("lab", "zone."); tk_fetch := serves id; tk_ok := fine |}.

Definition r0 : running := {| svc := started_on (reset ∅) "127.0.0.1:53535"; clock := 0; replies := [] |}.
Definition r1 : running := with_svc r0 (attempt_refresh roots (due 5 "abcd") (svc r0)).2 5 [].
Definition asked : reply * Service := with_fwd (handle roots fine [q] (1500 * second)) (svc r1).
Definition r2 : running := with_svc r1 asked.2 (1500 * second) [asked.1].
(** The network replays an older snapshot. *)
Definition r3 : running := with_svc r2 (attempt_refresh roots (due (1600 * second) "abc") (svc r2)).2 (1600 * second) [].

Lemma reached allowed : allowed fine -> reachable (svc_step roots allowed) svc_start r2.
Proof.
  intros Ha. apply (reach_step _ _ r1 (SQuery [q])).
  - apply (reach_step _ _ r0 (SRefresh (due 5 "abcd"))).
    + apply reach_init. exists ∅, "127.0.0.1:53535". split; [reflexivity|]. intros f c Hc. by rewrite lookup_empty in Hc.
    + apply step_refresh; [exact Ha|]. cbn. lia.
  - assert (r2 = let '(rep, s) := with_fwd (handle roots fine [q] (1500 * second)) (svc r1) in with_svc r1 s (1500 * second) [rep]) as ->
      by (unfold r2, asked; by destruct (with_fwd _ _)).
    apply step_query; [exact Ha|]. cbn. unfold second. lia.
Qed.

Lemma names_status_honest_witness :
  let ns := (StatusSnapshot roots fine (1700 * second) (svc r2)).1 in
  NsGrade ns = "fresh" /\ NsFallbackServed ns = 1%Z /\ exists sn, json_snapshot (s2l "abcd") = Some sn /\ NsSerial ns = Serial sn.
Proof.
  assert (NsGrade (StatusSnapshot roots fine (1700 * second) (svc r2)).1 = "fresh") as Hg by (vm_compute; reflexivity).
  destruct (names_status_honest roots r2 fine (1700 * second) (reached (fun _ => True) I)) as (H1 & _ & H3 & _).
  split; [exact Hg|]. split; [rewrite H3; vm_compute; reflexivity|].
  destruct H1 as (a & c & sn & Ha & _ & _ & Hj & _ & Hs & _); [rewrite Hg; discriminate|].
  exists sn. split; [|exact Hs]. assert (bytes_of_content <$> disk (fs (store_of r2)) !! Named SnapshotFile = Some (s2l "abcd")) as Hb
    by (vm_compute; reflexivity).
  rewrite Ha in Hb. injection Hb as Hb. change (json_snapshot (s2l "abcd")) with (Some (ToyNames.snap_of "abcd")).
  change (Some (ToyNames.snap_of (l2s (bytes_of_content a))) = Some sn) in Hj. rewrite <-Hj, Hb. reflexivity.
Defined.

Lemma service_never_goes_back_witness :
  exists new, disk_snapshot roots (disk (fs (store_of r3))) = Ok new /\ newer (ToyNames.snap_of "abcd") new.
Proof.
  apply (service_never_goes_back roots r2 r3 (ToyNames.snap_of "abcd") (reached (fun _ => True) I)).
  - apply rtc_once. exists (SRefresh (due (1600 * second) "abc")). split; [reflexivity|].
    apply step_refresh; [intros n; reflexivity|cbn; unfold second; lia].
  - vm_compute. reflexivity.
Defined.
End ToyService.
