(* ===== verification/DaemonConc.v ===== *)
(** The daemon's handlers as they interleave.

    In Daemon.v a handler runs by itself. Here it is the sequence of its
    stretches under a lock: the daemon's, or that of the tunnel manager, the
    mesh handle, the store or the host adapter it calls, each of which holds
    its own. A stretch that reads fields copies them, so what follows may work
    on values that others have replaced since. [Shared] is what all handlers
    share; mesh handles are objects, d.mesh and the local variables refer to
    them. Writing the configuration file counts as one stretch. *)
From stdpp Require Import base tactics list gmap strings.
From Stdlib Require Import ZArith Ascii Lia.
From S2P Require Import Prelude Threads GoStr Fs.
From S2P Require Import Mode.
From S2P Require Import Bundle.
From S2P Require Import Profile.
From S2P Require Import ProfileSpec.
From S2P Require Import Tunnel.
From S2P Require Import DnsAdapter.
From S2P Require Import InnerMesh.
From S2P Require Import Ipc.
From S2P Require Import Daemon.
From S2P Require Import DaemonSpec.
Local Open Scope list_scope.

Section interleaved.
Context {K : BundleCodec} {C : Crypto} {J : RawJson} {N : NetipLib} {U : NetText} {H : HostDNS}
  {T : TunnelManager} {M : Mesh} {MS : MeshSections}.
Context (platform : os) (meshFactory : mesh) (cfg : Config).

(** The daemon, all mesh objects made so far, and d.mesh. The handles of [base]
    are not used. *)
Record Shared := { base : Daemon; meshes : list mesh; mref : option nat }.

Abbreviation handler := (proc Shared).

(** A stretch on the daemon proper ... *)
Definition on_base {E A} (m : action Daemon E A) : action Shared E A := fun s =>
  let '(r, d) := m (base s) in (r, {| base := d; meshes := meshes s; mref := mref s |}).
(** ... on the mesh object [i] ... *)
Definition on_ref {E A} (i : nat) (m : action mesh E A) : action Shared E A := fun s =>
  let '(r, h) := m (default meshFactory (meshes s !! i)) in
  (r, {| base := base s; meshes := <[i := h]> (meshes s); mref := mref s |}).
(** ... and on the reference: a new object becomes d.mesh; d.mesh is taken and
    cleared, with the change [f] of other fields. *)
Definition new_ref {E} : action Shared E nat := fun s =>
  (Ok (length (meshes s)), {| base := base s; meshes := meshes s ++ [meshFactory]; mref := Some (length (meshes s)) |}).
Definition take_ref {E} (f : Daemon -> Daemon) : action Shared E (option nat) := fun s =>
  (Ok (mref s), {| base := f (base s); meshes := meshes s; mref := None |}).

Definition pread {E} : handler E Shared := step (run get).
Definition pon {S E A} (f : Daemon -> S) {F : Setter f} (m : action S E A) : handler E A := step (on_base (on f m)).
Definition pupdate {E} (f : Daemon -> Daemon) : handler E unit := step (on_base (update f)).
Definition pmesh {E A} (i : nat) (m : action mesh E A) : handler E A := step (on_ref i m).
Definition skip {E} : handler E unit := mret tt.

(** ** Host DNS *)
Definition papplyDNSCurrent {E} (iface : string) (direct : DnsConfig) : handler E unit :=
  s ← pread;
  fronted ← match fronting cfg (base s) direct with
            | Some c => r ← pattempt (pon host (dns_apply iface c)); mret (is_ok r)
            | None => mret false
            end;
  if fronted : bool then mret tt else pignore (pon host (dns_apply iface direct)).

Definition papplyDNS {E} (iface : string) (c : TConfig) : handler E unit :=
  s ← pread;
  let direct := direct_config (meshDNS (base s)) c in
  _ ← pupdate (fun d => d <| namesSvc := SetUpstreams (upstreamStrings direct) <$> namesSvc d |>);
  _ ← pupdate (fun d => d <| lastDNS := Some {| aIface := iface; aDirect := direct |} |>);
  papplyDNSCurrent iface direct.

Definition ponForwarderState {E} (up : bool) : handler E unit :=
  s ← pread;
  match lastDNS (base s) with
  | None => mret tt
  | Some last => papplyDNSCurrent (aIface last) (aDirect last)
  end.

Definition prestoreDNS : handler dns_error unit :=
  _ ← pupdate (fun d => d <| lastDNS := None |>);
  pon host dns_restore.

(** ** Legs *)
Definition pconfigure_outer {E} (b : EnrollmentBundle) : handler E unit :=
  match Tunnel.FromBundle platform b with
  | Ok c => pignore (pon manager (t_configure c))
  | Err _ => skip
  end.

Definition pouter_down {E} : handler E unit :=
  _ ← pignore prestoreDNS;
  pignore (pon manager t_disconnect).

(** d.mesh = nil under the lock; the object is shut down after it. *)
Definition pdrop_mesh {E} (f : Daemon -> Daemon) : handler E unit :=
  o ← step (take_ref f);
  match o with
  | None => skip
  | Some i => _ ← pignore (pmesh i mesh_disconnect); pmesh i (run (modify mesh_close))
  end.
Definition unwanted (d : Daemon) : Daemon := d <| meshWanted := false |>.

Definition ptearDownMode {E} (m : Mode) : handler E unit :=
  _ ← (if IncludesWGCP0 m then pouter_down else skip);
  if IncludesNetbird m then pdrop_mesh unwanted else skip.
Definition ptearDownAll {E} : handler E unit := _ ← pouter_down; pdrop_mesh unwanted.

Definition pShutdown : handler tunnel_error unit :=
  _ ← pouter_down;
  _ ← pdrop_mesh id;
  pon manager t_close.

Definition pconfigure_mesh {E} (i : nat) (b : EnrollmentBundle) : handler E unit :=
  s ← pread;
  pignore (pmesh i (mesh_configure (meshConfig cfg (base s) (Some b)))).
(** The two stretches of mesh.Connect. *)
Definition pconnectMesh (i : nat) : handler mesh_error unit :=
  t ← pmesh i connect_begin;
  pmesh i (connect_finish t).
Definition pinner_up {E} (i : nat) (b : EnrollmentBundle) : handler E unit :=
  _ ← pconfigure_mesh i b;
  pignore (pconnectMesh i).

Definition pconnect_outer (b : EnrollmentBundle) : handler daemon_error unit :=
  c ← plift (map_err EDeriveTunnel (Tunnel.FromBundle platform b));
  _ ← pwith_err ETunnelConfigure (pon manager (t_configure c));
  r ← pattempt (pon manager t_connect);
  match r with
  | Err e => _ ← pupdate (fun d => d <| lastErr := Some (ETunnelUp e) |>); pfail (ETunnelUp e)
  | Ok _ => papplyDNS (InterfaceName c) c
  end.

Definition pconnect_ref (b : EnrollmentBundle) (i : nat) : handler daemon_error unit :=
  _ ← pupdate (fun d => d <| meshWanted := true |>);
  _ ← pconfigure_mesh i b;
  r ← pattempt (pconnectMesh i);
  match r with
  | Err e => _ ← pupdate (fun d => d <| lastErr := Some (EMesh e) |>); pfail (EMeshUp e)
  | Ok _ => mret tt
  end.
(** [o] is d.mesh as the handler read it. *)
Definition pconnect_inner (o : option nat) (b : EnrollmentBundle) : handler daemon_error unit :=
  match o with
  | Some i => pconnect_ref b i
  | None => i ← step new_ref; pconnect_ref b i
  end.

Context (env : Env).
Abbreviation roots := (CfgTrustRoots cfg).
Abbreviation sok := (store_ok env).

Definition pconnected {E} : handler E unit :=
  pupdate (fun d => d <| lastConnect := now env |> <| lastErr := None |>).

Definition pConnect : handler daemon_error unit :=
  s ← pread;
  match currentBundle (base s) with
  | None => pfail ENoBundle
  | Some b =>
    _ ← (if IncludesWGCP0 (currentMode (base s)) then pconnect_outer b else skip);
    _ ← (if IncludesNetbird (currentMode (base s)) then pconnect_inner (mref s) b else skip);
    pconnected
  end.

Definition pDisconnect : handler daemon_error unit :=
  s ← pread;
  _ ← (if IncludesWGCP0 (currentMode (base s)) then
         _ ← pignore prestoreDNS; pwith_err ETunnelDown (pon manager t_disconnect)
       else skip);
  match mref s with
  | Some i =>
    if IncludesNetbird (currentMode (base s)) then
      _ ← pupdate unwanted; pwith_err EMesh (pmesh i mesh_disconnect)
    else skip
  | None => skip
  end.

(** ** The mode *)

(** The locked section of SetMode: the previous mode. *)
Definition exchange_mode {E} (newMode : Mode) : action Shared E Mode := fun s =>
  (Ok (currentMode (base s)), {| base := base s <| currentMode := newMode |>; meshes := meshes s; mref := mref s |}).

Definition pswitch_mode {E} (prev newMode : Mode) : handler E unit :=
  _ ← (if IncludesWGCP0 prev && negb (IncludesWGCP0 newMode) then pouter_down else skip);
  _ ← (if IncludesNetbird prev && negb (IncludesNetbird newMode) then pdrop_mesh id else skip);
  if negb (IncludesNetbird prev) && IncludesNetbird newMode then pignore (E := E) (step new_ref) else skip.

Definition psettle_outer {E} (newMode : Mode) : handler E unit :=
  if IncludesWGCP0 newMode then
    s ← pread;
    match currentBundle (base s) with
    | Some b =>
      match Tunnel.FromBundle platform b with
      | Ok c => _ ← pignore (pon manager (t_configure c)); pignore (pon manager t_connect)
      | Err _ => skip
      end
    | None => skip
    end
  else skip.
Definition psettle_inner {E} (newMode : Mode) : handler E unit :=
  if IncludesNetbird newMode then
    s ← pread;
    match mref s, currentBundle (base s) with
    | Some i, Some b => pinner_up i b
    | _, _ => skip
    end
  else skip.
Definition ppersist_mode {E} (newMode : Mode) : handler E unit :=
  s ← pread;
  _ ← (if bool_decide (currentSlug (base s) = "") then skip
       else pignore (pon store (UpdateMode sok (now env) (currentSlug (base s)) newMode)));
  if bool_decide (CfgPath cfg = "") then skip
  else
    let pc := persistedCfg (base s) in
    pignore (pon config_file (Save (config_ok env) (CfgPath cfg)
               {| cfgMode := newMode; MeshDNSServers := MeshDNSServers pc;
                  MeshDNSSearchDomains := MeshDNSSearchDomains pc; MeshDNSMatchDomains := MeshDNSMatchDomains pc |})).

Definition pSetMode (req : SetModeRequest) : handler daemon_error (Mode * Mode) :=
  newMode ← plift (map_err (fun _ => EUnknownMode) (Parse (ReqMode req)));
  prev ← step (exchange_mode newMode);
  if bool_decide (prev = newMode) then mret (prev, newMode)
  else
    _ ← pswitch_mode prev newMode;
    _ ← psettle_outer newMode;
    _ ← psettle_inner newMode;
    _ ← ppersist_mode newMode;
    mret (prev, newMode).

(** ** The inner mesh *)

(** The locked section of SetRosenpass: the fields before it set the override. *)
Definition exchange_rosenpass {E} (i : rosenpassIntent) : action Shared E Shared := fun s =>
  (Ok s, {| base := base s <| rosenpassOverride := Some i |>; meshes := meshes s; mref := mref s |}).

Definition previous_intent (d : Daemon) : rosenpassIntent :=
  match rosenpassOverride d, currentBundle d with
  | Some i, _ => i
  | None, Some b => rosenpass_of (meshConfigFromBundle (Some b))
  | None, None => {| Enabled := false; Permissive := false |}
  end.

Definition prebuild {E} (i : nat) (b : EnrollmentBundle) : handler E unit :=
  st ← pmesh i (run (gets mesh_state));
  if bool_decide (st = InnerMesh.StateUp) then
    _ ← pignore (pmesh i mesh_disconnect);
    pinner_up i b
  else skip.

Definition pSetRosenpass (req : SetRosenpassRequest) : handler daemon_error (rosenpassIntent * rosenpassIntent) :=
  let intent := {| Enabled := ReqEnabled req; Permissive := ReqPermissive req |} in
  s ← step (exchange_rosenpass intent);
  _ ← match mref s, currentBundle (base s) with
      | Some i, Some b => if IncludesNetbird (currentMode (base s)) then prebuild i b else skip
      | _, _ => skip
      end;
  _ ← (if bool_decide (currentSlug (base s) = "") then skip
       else pignore (pon store (UpdateRosenpass sok (now env) (currentSlug (base s))
                                  (Some (ReqEnabled req)) (Some (ReqPermissive req)))));
  mret (previous_intent (base s), intent).

Definition pneed_mesh : handler daemon_error nat :=
  s ← pread;
  if negb (IncludesNetbird (currentMode (base s))) then pfail EModeWithoutMesh
  else plift (of_option ENoMeshManager (mref s)).

Definition mesh_request (req : SetInnerMeshProfileRequest) : MConfig :=
  {| SetupKey := ReqSetupKey req; ManagementURL := ReqManagementURL req; PreferKernelWG := false;
     AdminAccessToken := ReqAdminAccessToken req; CMobileCert := ReqMobileCert req;
     PreSharedKey := ReqPreSharedKey req; RosenpassEnabled := false; RosenpassPermissive := false;
     ConfigPath := ""; StatePath := ""; BundleDeviceID := "" |}.

Definition pSetInnerMeshProfile (req : SetInnerMeshProfileRequest) : handler daemon_error unit :=
  i ← pneed_mesh;
  s ← pread;
  pwith_err EMesh (pmesh i (mesh_configure (fillMeshPersistPaths cfg (currentSlug (base s)) (mesh_request req)))).

Definition pEnableInnerMesh : handler daemon_error unit :=
  i ← pneed_mesh;
  _ ← pupdate (fun d => d <| meshWanted := true |>);
  pwith_err EMesh (pconnectMesh i).

(** One locked section reads d.mesh and withdraws the intent. *)
Definition read_unwant {E} : action Shared E (option nat) := fun s =>
  (Ok (mref s), {| base := unwanted (base s); meshes := meshes s; mref := mref s |}).
Definition pDisableInnerMesh : handler daemon_error unit :=
  o ← step read_unwant;
  match o with
  | None => skip
  | Some i => pwith_err EMesh (pmesh i mesh_disconnect)
  end.

(** ** Profiles *)
Definition pprofileInfoBySlug (slug : string) : handler profile_error Info :=
  all ← pon store (Profile.List sok);
  plift (of_option ErrNotFound (find_first (fun i => bool_decide (iSlug i = slug)) all)).

Definition pstore_add (name : string) (m : Mode) (bytes : chars) (replace : bool) : handler profile_error Info :=
  pon store (Profile.Add roots sok (now env) (add_request name m bytes replace)).

Definition pimport_replace (slug : string) (m : Mode) (bytes : chars) (b : EnrollmentBundle) : handler daemon_error unit :=
  r ← pattempt (pprofileInfoBySlug slug);
  let '(name, m) := match r with Ok info => (iName info, iMode info) | Err _ => (slug, m) end in
  _ ← pwith_err EReplaceActive (pstore_add name m bytes true);
  pupdate (fun d => d <| currentBundle := Some b |>).

Definition pimport_default (m : Mode) (bytes : chars) (b : EnrollmentBundle) : handler daemon_error unit :=
  r ← pattempt (pstore_add "default" m bytes false);
  info ← match r with
         | Ok info => mret info
         | Err ErrAlreadyExists => pwith_err EAddDefault (pstore_add "default" m bytes true)
         | Err e => pfail (EAddDefault e)
         end;
  _ ← pwith_err ESetActive (pon store (Profile.SetActive sok (iSlug info)));
  pupdate (fun d => d <| currentBundle := Some b |> <| currentSlug := iSlug info |>).

Definition pImportBundle (req : ImportBundleRequest) : handler daemon_error ImportBundleReply :=
  b ← plift (map_err (fun _ => EBundleParse) (Unmarshal (ImportBytes req)));
  if Empty roots then pfail (EBundleVerify ErrNoTrustRoots)
  else
    _ ← plift (map_err EBundleVerify (VerifyBundle roots b));
    _ ← plift (map_err (fun _ => EBundleKeypair) (CheckCPDeviceKeypair b));
    _ ← plift (map_err (fun _ => EBundleExpired) (CheckExpiry b (now env)));
    s ← pread;
    _ ← (if bool_decide (currentSlug (base s) = "")
         then pimport_default (currentMode (base s)) (ImportBytes req) b
         else pimport_replace (currentSlug (base s)) (currentMode (base s)) (ImportBytes req) b);
    _ ← pconfigure_outer b;
    mret (import_reply b).

(** Step 3 of [setActiveLocked] under the lock; d.mesh as it leaves it. *)
Definition adopt_section {E} (slug : string) (target : Profile) (newMode : Mode) : action Shared E (option nat) := fun s =>
  let s' := {| base := base s <| currentBundle := Some (pBundle target) |> <| currentMode := newMode |>
                 <| currentSlug := slug |> <| rosenpassOverride := overrideFromProfile target |>;
               meshes := meshes s; mref := mref s |} in
  match mref s with
  | None => if IncludesNetbird newMode then let '(_, s') := new_ref (E := E) s' in (Ok (mref s'), s') else (Ok None, s')
  | Some i =>
    if IncludesNetbird newMode then (Ok (Some i), s')
    else (Ok None, {| base := base s'; meshes := meshes s'; mref := None |})
  end.

Definition plegs_up {E} (o : option nat) (target : Profile) (newMode : Mode) : handler E unit :=
  _ ← match Tunnel.FromBundle platform (pBundle target) with
      | Ok c =>
        _ ← pignore (pon manager (t_configure c));
        if IncludesWGCP0 newMode then
          r ← pattempt (pon manager t_connect);
          if is_ok r then papplyDNS (InterfaceName c) c else skip
        else skip
      | Err _ => skip
      end;
  match o with
  | Some i => if IncludesNetbird newMode then pinner_up i (pBundle target) else skip
  | None => skip
  end.

Definition psetActiveLocked (slug : string) : handler profile_error string :=
  target ← pon store (Profile.Load sok slug);
  s ← pread;
  let prev := currentSlug (base s) in
  _ ← (if bool_decide (prev = "") then skip else ptearDownMode (currentMode (base s)));
  let newMode := if Valid (pMode target) then pMode target else Default in
  o ← step (adopt_section slug target newMode);
  _ ← plegs_up o target newMode;
  _ ← pignore (pon store (Profile.SetActive sok slug));
  _ ← pconnected;
  mret prev.

Definition pAddProfile (req : Ipc.AddProfileRequest) : handler daemon_error (Info * string) :=
  s ← pread;
  m ← (if bool_decide (ReqProfileMode req = "") then mret (currentMode (base s))
       else plift (map_err (fun _ => EUnknownMode) (Parse (ReqProfileMode req))));
  info ← pwith_err EProfile (pstore_add (ReqName req) m (ReqBundleBytes req) (ReqReplace req));
  if ReqSetActive req then
    prev ← pwith_err ESetActiveAfterAdd (psetActiveLocked (iSlug info));
    mret (set_active_flag true info, prev)
  else mret (info, "").

Definition pRemoveProfile (req : RemoveProfileRequest) : handler daemon_error unit :=
  s ← pread;
  _ ← (if bool_decide (RemoveSlug req = currentSlug (base s)) then
         _ ← ptearDownAll;
         pupdate (fun d => d <| currentBundle := None |> <| currentSlug := "" |>)
       else skip);
  pwith_err EProfile (pon store (Profile.Remove sok (RemoveSlug req))).

Definition pRenameProfile (req : RenameProfileRequest) : handler daemon_error Info :=
  info ← pwith_err EProfile (pon store (Profile.Rename sok (now env) (RenameSlug req) (ReqNewName req)));
  s ← pread;
  _ ← (if bool_decide (currentSlug (base s) = RenameSlug req)
       then pupdate (fun d => d <| currentSlug := iSlug info |>) else skip);
  mret info.

Definition pSetActiveProfile (req : SetActiveProfileRequest) : handler daemon_error (string * Info) :=
  if bool_decide (ActiveSlug req = "") then pfail ESlugRequired
  else
    prev ← pwith_err EProfile (psetActiveLocked (ActiveSlug req));
    info ← pwith_err EProfile (pprofileInfoBySlug (ActiveSlug req));
    mret (prev, set_active_flag true info).

Definition pListProfiles : handler daemon_error (list Info) := pwith_err EList (pon store (Profile.List sok)).

Definition pGetActiveProfile : handler daemon_error (option Info * bool) :=
  s ← pread;
  infos ← pwith_err EList (pon store (Profile.List sok));
  let any := 0 <? length infos in
  if bool_decide (currentSlug (base s) = "") then mret (None, any)
  else mret (set_active_flag true <$> find_first (fun i => bool_decide (iSlug i = currentSlug (base s))) infos, any).

(** ** The supervisor's round *)
Definition psupervise {E} (delay : Z) : handler E (Z * Z) :=
  let base_delay := supervisor_base cfg in
  s ← pread;
  match mref s, currentBundle (base s) with
  | Some i, Some b =>
    if negb (meshWanted (base s)) || negb (IncludesNetbird (currentMode (base s))) then mret (base_delay, base_delay)
    else
      st ← pmesh i (run (gets mesh_state));
      if bool_decide (st = InnerMesh.StateError) then
        _ ← pconfigure_mesh i b;
        r ← pattempt (pconnectMesh i);
        mret (if is_ok r then (base_delay, base_delay)
              else (delay, Z.min (wrap64 (delay * 2)) (supervisor_max cfg)))
      else
        st ← pmesh i (run (gets mesh_state));
        mret (base_delay, if bool_decide (st = InnerMesh.StateUp) then base_delay else delay)
  | _, _ => mret (base_delay, base_delay)
  end.

(** A call over IPC, a round of the supervisor, news from the forwarder; the
    reply kept is whether it returned nil. GetStatus is left out: it changes
    nothing but the counters the manager caches. *)
Definition forget {E A} (p : handler E A) : prog Shared bool := andthen p (fun r => Ret (is_ok r)).
End interleaved.

Section calls.
Context {K : BundleCodec} {C : Crypto} {J : RawJson} {N : NetipLib} {U : NetText} {H : HostDNS}
  {T : TunnelManager} {M : Mesh} {MS : MeshSections}.
Context (platform : os) (meshFactory : mesh) (cfg : Config).

Definition start (env : Env) (e : event) : option (prog Shared bool) :=
  match e with
  | EvImportBundle r => Some (forget (pImportBundle platform cfg env r))
  | EvConnect => Some (forget (pConnect platform meshFactory cfg env))
  | EvDisconnect => Some (forget (pDisconnect meshFactory))
  | EvSetMode r => Some (forget (pSetMode platform meshFactory cfg env r))
  | EvSetRosenpass r => Some (forget (pSetRosenpass meshFactory cfg env r))
  | EvSetInnerMeshProfile r => Some (forget (pSetInnerMeshProfile meshFactory cfg r))
  | EvEnableInnerMesh => Some (forget (pEnableInnerMesh meshFactory))
  | EvDisableInnerMesh => Some (forget (pDisableInnerMesh meshFactory))
  | EvListProfiles => Some (forget (pListProfiles env))
  | EvAddProfile r => Some (forget (pAddProfile platform meshFactory cfg env r))
  | EvRemoveProfile r => Some (forget (pRemoveProfile meshFactory env r))
  | EvRenameProfile r => Some (forget (pRenameProfile env r))
  | EvSetActiveProfile r => Some (forget (pSetActiveProfile platform meshFactory cfg env r))
  | EvGetActiveProfile => Some (forget (pGetActiveProfile env))
  | EvSupervise delay => Some (forget (E := daemon_error) (psupervise meshFactory cfg delay))
  | EvForwarderHealth up addr => Some (forget (E := daemon_error) (pupdate (forwarder_health up addr)))
  | EvForwarderState up => Some (forget (E := daemon_error) (ponForwarderState cfg up))
  | EvShutdown => Some (forget (pShutdown meshFactory))
  | EvGetStatus => None
  end.

Definition started (p : prog Shared bool) : Prop := exists env e, start env e = Some p.

(** A daemon as objects: the handles it let go of, then the one it holds. *)
Definition share (d : Daemon) : Shared :=
  {| base := d; meshes := reverse (dropped d) ++ option_list (dmesh d);
     mref := (fun _ => length (dropped d)) <$> dmesh d |}.
(** The daemon as its start-up left it, with no call under way. *)
Definition boot_pool (st : pworld) (w : pool Shared bool) : Prop :=
  exists d, boots platform meshFactory cfg st d /\ w = mkpool (share d) [].
(** What the daemon can be in the middle of. *)
Definition runs (st : pworld) : pool Shared bool -> Prop := reachable (pool_step started) (boot_pool st).
End calls.

(** ** Uninterrupted, a handler is the one of Daemon.v *)
Create HintDb fol discriminated.

Section view.
Context {K : BundleCodec} {C : Crypto} {J : RawJson} {N : NetipLib} {U : NetText} {H : HostDNS}
  {T : TunnelManager} {M : Mesh} {MS : MeshSections}.
Context (platform : os) (meshFactory : mesh) (cfg : Config).

(** What is held and what was let go of, as Daemon.v has it. *)
Definition held_mesh (l : list mesh) (o : option nat) : option mesh := i ← o; l !! i.
Definition let_go_of (l : list mesh) (o : option nat) : list mesh :=
  reverse (match o with Some i => take i l | None => l end).
Definition with_refs (d : Daemon) (l : list mesh) (o : option nat) : Daemon :=
  d <| dropped := let_go_of l o |> <| dmesh := held_mesh l o |>.
Definition view (s : Shared) : Daemon := with_refs (base s) (meshes s) (mref s).

(** d.mesh is the object made last, if any. *)
Definition last_ref (l : list mesh) (o : option nat) : Prop := forall i, o = Some i -> S i = length l.
Definition at_refs (R : list mesh -> option nat -> Prop) (s : Shared) : Prop := R (meshes s) (mref s).
Abbreviation wf := (at_refs last_ref).
Definition holds (i : nat) (h : mesh) (l : list mesh) (o : option nat) : Prop :=
  o = Some i /\ S i = length l /\ l !! i = Some h.

#[local] Arguments reverse : simpl never.
Lemma view_share d : view (share d) = d.
Proof.
  unfold view, share, with_refs, let_go_of, held_mesh. cbn. destruct d as [? ? ? ? ? ? o ? ? ? ? ? ? ? ? ? dr]. cbn.
  destruct o as [h|]; cbn.
  - rewrite take_app_length' by (by rewrite length_reverse). rewrite reverse_involutive.
    by rewrite list_lookup_middle by (by rewrite length_reverse).
  - by rewrite app_nil_r, reverse_involutive.
Qed.
Lemma wf_share d : wf (share d).
Proof. intros i. cbn. destruct (dmesh d); [|done]. intros [= <-]. rewrite length_app, length_reverse. cbn. lia. Qed.

Lemma holds_last i h l o : holds i h l o -> last_ref l o.
Proof. intros (-> & ? & _) j [= <-]. done. Qed.
Lemma last_holds i l : last_ref l (Some i) -> exists h, holds i h l (Some i).
Proof. intros Hl. specialize (Hl i eq_refl). destruct (l !! i) as [h|] eqn:E; [by exists h|]. apply lookup_ge_None in E. lia. Qed.
Lemma holds_held i h l o : holds i h l o -> held_mesh l o = Some h.
Proof. by intros (-> & _ & ?). Qed.

Section prims.
Context (R : list mesh -> option nat -> Prop).
Abbreviation follows := (follows view).

Lemma follows_base {E A} (m : action Daemon E A) :
  (forall d l o, m (with_refs d l o) = let '(r, d') := m d in (r, with_refs d' l o)) ->
  follows (at_refs R) (at_refs R) (step (on_base m)) m.
Proof.
  intros Hm [d l o] Hs. unfold view. cbn [base meshes mref]. rewrite Hm. cbn. unfold on_base. cbn. by destruct (m d).
Qed.
Lemma follows_on {S E A} (f : Daemon -> S) {F : Setter f} (m : action S E A) :
  (forall d l o, f (with_refs d l o) = f d) ->
  (forall d l o v, with_refs d l o <| f := v |> = with_refs (d <| f := v |>) l o) ->
  follows (at_refs R) (at_refs R) (pon f m) (on f m).
Proof.
  intros Hf Hg. apply follows_base. intros d l o. unfold on. rewrite Hf. destruct (m (f d)) as [r v]. by rewrite Hg.
Qed.
Lemma follows_update {E} (f : Daemon -> Daemon) :
  (forall d l o, f (with_refs d l o) = with_refs (f d) l o) ->
  follows (at_refs R) (at_refs R) (pupdate f : proc Shared E unit) (update f).
Proof. intros Hf. apply follows_base. intros d l o. unfold update, run, modify. by rewrite Hf. Qed.

Lemma follows_read_refs {E A} P (k : Shared -> proc Shared E A) f :
  (forall s0, at_refs R s0 -> follows (at_refs R) P (k s0) (f (view s0))) ->
  follows (at_refs R) P (pread ≫= k) (snapshot ≫= f).
Proof. intros Hk. apply follows_read. intros s0 H0. eapply follows_pre, Hk; [by intros ? ->|done]. Qed.
End prims.

(** A handler in which [R] holds throughout. *)
Ltac fol :=
  repeat lazymatch goal with
  | |- forall _, _ => intros
  | |- Threads.follows _ _ _ (mret _) (mret _) => apply follows_ret
  | |- Threads.follows _ _ _ skip (mret _) => apply follows_ret
  | |- Threads.follows _ _ _ (pfail _) (fail _) => apply follows_fail
  | |- Threads.follows _ _ _ (plift _) (lift _) => apply follows_lift
  | |- Threads.follows _ _ _ (pread ≫= _) (snapshot ≫= _) => apply follows_read_refs; intros; cbv zeta
  | |- Threads.follows _ ?P _ (_ ≫= _) (_ ≫= _) => apply (follows_bind _ P P); [|done|]
  | |- Threads.follows _ _ _ (pignore _) (ignore _) => apply follows_ignore
  | |- Threads.follows _ _ _ (pattempt _) (attempt _) => apply follows_attempt
  | |- Threads.follows _ _ _ (pwith_err _ _) (with_err _ _) => apply follows_with_err
  | |- Threads.follows _ _ _ (pon _ _) (on _ _) => apply follows_on; done
  | |- Threads.follows _ _ _ (pupdate _) (update _) => apply follows_update; done
  | |- Threads.follows _ _ _ (match ?x with _ => _ end) (match ?x with _ => _ end) => destruct x
  | |- Threads.follows _ _ _ _ _ => solve [auto with fol]
  end.

Section frames.
Context (R : list mesh -> option nat -> Prop).
Abbreviation fframe p m := (Threads.follows view (at_refs R) (at_refs R) p m).

Lemma fol_applyDNSCurrent {E} iface c :
  fframe (papplyDNSCurrent cfg iface c : proc Shared E unit) (applyDNSCurrent cfg iface c).
Proof.
  unfold papplyDNSCurrent, applyDNSCurrent. fol.
  change (fronting cfg (view s0) c) with (fronting cfg (base s0) c). fol.
Qed.
#[local] Hint Resolve fol_applyDNSCurrent : fol.
Lemma fol_applyDNS {E} iface c : fframe (papplyDNS cfg iface c : proc Shared E unit) (applyDNS cfg iface c).
Proof. unfold papplyDNS, applyDNS. fol. Qed.
#[local] Hint Resolve fol_applyDNS : fol.
Lemma fol_onForwarderState {E} up : fframe (ponForwarderState cfg up : proc Shared E unit) (onForwarderState cfg up).
Proof. unfold ponForwarderState, onForwarderState. fol. change (lastDNS (view s0)) with (lastDNS (base s0)). fol. Qed.
Lemma fol_restoreDNS : fframe prestoreDNS restoreDNS.
Proof. unfold prestoreDNS, restoreDNS. fol. Qed.
#[local] Hint Resolve fol_restoreDNS : fol.
Lemma fol_outer_down {E} : fframe (pouter_down : proc Shared E unit) outer_down.
Proof. unfold pouter_down, outer_down. fol. Qed.
#[local] Hint Resolve fol_outer_down : fol.
Lemma fol_configure_outer {E} b : fframe (pconfigure_outer platform b : proc Shared E unit) (configure_outer platform b).
Proof. unfold pconfigure_outer, configure_outer. fol. Qed.
#[local] Hint Resolve fol_configure_outer : fol.
Lemma fol_connect_outer b : fframe (pconnect_outer platform cfg b) (connect_outer platform cfg b).
Proof. unfold pconnect_outer, connect_outer. fol. Qed.
Lemma fol_connected {E} env : fframe (pconnected env : proc Shared E unit) (connected env).
Proof. unfold pconnected, connected. fol. Qed.

Lemma fol_profileInfoBySlug env slug : fframe (pprofileInfoBySlug env slug) (profileInfoBySlug env slug).
Proof. unfold pprofileInfoBySlug, profileInfoBySlug. fol. Qed.
Lemma fol_store_add env name m bytes replace :
  fframe (pstore_add cfg env name m bytes replace) (store_add cfg env name m bytes replace).
Proof. unfold pstore_add, store_add. fol. Qed.
#[local] Hint Resolve fol_profileInfoBySlug fol_store_add : fol.
Lemma fol_ImportBundle env req : fframe (pImportBundle platform cfg env req) (ImportBundle platform cfg env req).
Proof.
  unfold pImportBundle, ImportBundle. fol.
  unfold pimport_default, import_default, pimport_replace, import_replace.
  change (currentSlug (view s0)) with (currentSlug (base s0)). change (currentMode (view s0)) with (currentMode (base s0)). fol.
Qed.
Lemma fol_RenameProfile env req : fframe (pRenameProfile env req) (RenameProfile env req).
Proof.
  unfold pRenameProfile, RenameProfile. fol. intros s Hs. unfold mbind, proc_bind, action_bind. cbn.
  change (currentSlug (view s)) with (currentSlug (base s)). by case_bool_decide.
Qed.
Lemma fol_ListProfiles env : fframe (pListProfiles env) (ListProfiles env).
Proof. unfold pListProfiles, ListProfiles. fol. Qed.
Lemma fol_GetActiveProfile env : fframe (pGetActiveProfile env) (GetActiveProfile env).
Proof. unfold pGetActiveProfile, GetActiveProfile. fol. change (currentSlug (view s0)) with (currentSlug (base s0)). fol. Qed.
Lemma fol_forwarder_health {E} up addr :
  fframe (pupdate (forwarder_health up addr) : proc Shared E unit) (update (forwarder_health up addr)).
Proof. fol. Qed.
End frames.
#[local] Hint Resolve fol_applyDNSCurrent fol_applyDNS fol_restoreDNS fol_outer_down fol_configure_outer fol_connect_outer
  fol_connected fol_profileInfoBySlug fol_store_add : fol.

(** *** The mesh objects *)
Definition has (i : nat) (l : list mesh) (o : option nat) : Prop := exists h, holds i h l o.
Definition none_held (l : list mesh) (o : option nat) : Prop := o = None.

Lemma has_wf i s : at_refs (has i) s -> wf s.
Proof. intros [h Hh]. by eapply holds_last. Qed.
Lemma none_wf s : at_refs none_held s -> wf s.
Proof. intros Hs i Hi. unfold at_refs, none_held in Hs. congruence. Qed.

Lemma on_ref_holds {E A} i h (m : action mesh E A) s :
  at_refs (holds i h) s -> let '(r, s') := on_ref meshFactory i m s in
  r = (m h).1 /\ at_refs (holds i (m h).2) s' /\ base s' = base s /\
  view s' = view s <| dmesh := Some (m h).2 |>.
Proof.
  destruct s as [d l o]. intros (Ho & Hl & Hh). cbn in *. subst o. unfold on_ref. cbn [base meshes mref]. rewrite Hh. cbn.
  destruct (m h) as [r h']. cbn. assert (i < length l) as Hi by lia. split_and!; [done| |done|].
  - unfold at_refs, holds. cbn. by rewrite length_insert, list_lookup_insert_eq.
  - unfold view, with_refs, let_go_of, held_mesh. cbn. by rewrite take_insert_ge, list_lookup_insert_eq.
Qed.
Lemma fol_mesh {E A} i h (m : action mesh E A) :
  Threads.follows view (at_refs (holds i h)) (at_refs (holds i (m h).2)) (pmesh meshFactory i m) (on_mesh h m).
Proof.
  intros s Hs. pose proof (on_ref_holds i h m s Hs) as Hr. unfold pmesh, step. cbn [alone fst snd].
  destruct (on_ref meshFactory i m s) as [r s']. destruct Hr as (-> & Hq & _ & Hv). split; [done|].
  unfold on_mesh. cbn [fst snd]. rewrite Hv. by destruct (m h).
Qed.
Lemma fol_mesh_has {E A} i h (m : action mesh E A) :
  Threads.follows view (at_refs (holds i h)) (at_refs (has i)) (pmesh meshFactory i m) (on_mesh h m).
Proof. eapply follows_post, fol_mesh. intros s Hs. by eexists. Qed.

Lemma fol_configure {E A} i h b Q (k : proc Shared E A) f :
  (forall h', Threads.follows view (at_refs (holds i h')) Q k (f h')) ->
  Threads.follows view (at_refs (holds i h)) Q (_ ← pconfigure_mesh meshFactory cfg i b; k) (configure_mesh cfg h b ≫= f).
Proof.
  intros Hk s Hs. set (m := mesh_configure (meshConfig cfg (base s) (Some b))).
  pose proof (on_ref_holds i h m s Hs) as Hr.
  unfold mbind, proc_bind, action_bind at 1. rewrite configure_mesh_eq.
  change (meshConfig cfg (view s) (Some b)) with (meshConfig cfg (base s) (Some b)). fold m.
  unfold pconfigure_mesh. rewrite alone_andthen. cbn [alone andthen pread step mbind proc_bind pignore run get fst snd pmesh].
  fold m. destruct (on_ref meshFactory i m s) as [r s']. destruct Hr as (_ & Hq & _ & Hv). cbn [snd].
  specialize (Hk (m h).2 s' Hq). by rewrite Hv in Hk.
Qed.

Lemma fol_connect i h :
  Threads.follows view (at_refs (holds i h)) (at_refs (has i)) (pconnectMesh meshFactory i) (connectMesh h).
Proof.
  intros s Hs. pose proof (on_ref_holds i h connect_begin s Hs) as H1. unfold pconnectMesh, connectMesh, on_mesh.
  rewrite connect_sections. unfold mbind, proc_bind, action_bind. rewrite alone_andthen. cbn [alone pmesh step].
  destruct (on_ref meshFactory i connect_begin s) as [r s1]. destruct H1 as (-> & Hq & _ & Hv). cbn [fst snd].
  destruct (connect_begin h) as [[t|e] h1]; cbn [fst snd] in *; [|split; [by eexists|cbn; by rewrite Hv]].
  pose proof (on_ref_holds i h1 (connect_finish t) s1 Hq) as H2. cbn [alone pmesh step].
  destruct (on_ref meshFactory i (connect_finish t) s1) as [r s2]. destruct H2 as (-> & Hq2 & _ & Hv2). cbn [fst snd].
  split; [by eexists|]. rewrite Hv2, Hv. by destruct (connect_finish t h1).
Qed.

Lemma fol_inner_up {E} i h b :
  Threads.follows view (at_refs (holds i h)) (at_refs (has i)) (pinner_up meshFactory cfg i b : proc Shared E unit)
    (inner_up cfg h b).
Proof. apply fol_configure. intros h'. apply follows_ignore, fol_connect. Qed.

Lemma wf_cases s : wf s -> mref s = None \/ exists i h l, mref s = Some i /\ meshes s = l ++ [h] /\ i = length l.
Proof.
  intros Hs. destruct (mref s) as [i|] eqn:E; [right|by left]. specialize (Hs i E).
  destruct (List.exists_last (l := meshes s)) as (l & h & Hl); [intros Hn; by rewrite Hn in Hs|].
  exists i, h, l. split_and!; [done|done|]. rewrite Hl, length_app in Hs. cbn in Hs. lia.
Qed.

Lemma fol_new_ref {E} : Threads.follows view wf wf (pignore (E := E) (step (new_ref meshFactory)) : proc Shared E unit)
  (update (assign_mesh (Some meshFactory))).
Proof.
  intros s Hs. cbn. split; [intros i; cbn; intros [= <-]; rewrite length_app; cbn; lia|].
  f_equal. unfold assign_mesh, view, with_refs, let_go_of, held_mesh. cbn. rewrite take_app_length, list_lookup_middle by done.
  destruct (wf_cases s Hs) as [->|(i & h & l & -> & -> & ->)]; [done|].
  cbn. by rewrite take_app_length, list_lookup_middle, reverse_snoc by done.
Qed.

Lemma fol_drop_mesh {E} f :
  (forall d l o, f (with_refs d l o) = with_refs (f d) l o) ->
  Threads.follows view wf (at_refs none_held) (pdrop_mesh meshFactory f : proc Shared E unit) (fun d => drop_mesh (f d)).
Proof.
  intros Hf s Hs. unfold pdrop_mesh, mbind, proc_bind. rewrite alone_andthen. cbn [alone step take_ref fst snd].
  unfold view at 1. rewrite Hf. destruct (wf_cases s Hs) as [->|(i & h & l & -> & Hl & ->)]; [done|].
  rewrite Hl. cbn. unfold on_ref. cbn. rewrite list_lookup_middle by done. cbn.
  destruct (mesh_disconnect h) as [r h'] eqn:Ed. cbn. rewrite !insert_app_r_alt, Nat.sub_diag by lia. cbn.
  rewrite list_lookup_middle by done. split; [done|].
  unfold drop_mesh, update, run, modify, view, with_refs, let_go_of, held_mesh, retire. cbn. rewrite Ed.
  by rewrite take_app_length, list_lookup_middle, reverse_snoc by done.
Qed.

(** *** Handlers *)
Abbreviation fwf p m := (Threads.follows view wf wf p m).
(** d.mesh is [o]. *)
Definition refers (o : option nat) (l : list mesh) (o' : option nat) : Prop := last_ref l o' /\ o' = o.

Lemma follows_snapshot {E A} R Q (p : proc Shared E A) f :
  (forall s0, at_refs R s0 -> Threads.follows view (at_refs R) Q p (f (view s0))) ->
  Threads.follows view (at_refs R) Q p (snapshot ≫= f).
Proof. intros Hk s Hs. by apply (Hk s Hs). Qed.
(** After a read: the rest works with the reference that was read. *)
Lemma follows_read_wf {E A} Q (k : Shared -> proc Shared E A) f :
  (forall s0, wf s0 -> Threads.follows view (at_refs (refers (mref s0))) Q (k s0) (f (view s0))) ->
  Threads.follows view wf Q (pread ≫= k) (snapshot ≫= f).
Proof.
  intros Hk. apply follows_read. intros s0 H0. eapply follows_pre, Hk; [|done]. intros ? ->. split; [exact H0|done].
Qed.
(** The reference is that of an object. *)
Lemma refers_holds {E A} i Q (p : proc Shared E A) m :
  (forall h, Threads.follows view (at_refs (holds i h)) Q p m) ->
  Threads.follows view (at_refs (refers (Some i))) Q p m.
Proof.
  intros Hp s [Hl Ho]. rewrite Ho in Hl. destruct (last_holds _ _ Hl) as [h Hh]. apply (Hp h). unfold at_refs. by rewrite Ho.
Qed.
Lemma refers_wf {E A} o (p : proc Shared E A) m : fwf p m -> Threads.follows view (at_refs (refers o)) wf p m.
Proof. apply follows_pre. by intros s [? _]. Qed.
Lemma refers_post_wf o s : at_refs (refers o) s -> wf s.
Proof. by intros [? _]. Qed.
Lemma holds_wf i h s : at_refs (holds i h) s -> wf s.
Proof. apply holds_last. Qed.
Lemma fol_skip {E} P Q : (forall s, P s -> Q s) -> Threads.follows view P Q (skip : proc Shared E unit) (mret tt).
Proof. intros HPQ s Hs. split; [by apply HPQ|done]. Qed.

Lemma fol_tearDownMode {E} m : fwf (ptearDownMode meshFactory m : proc Shared E unit) (tearDownMode m).
Proof.
  unfold ptearDownMode, tearDownMode. fol. eapply follows_post; [apply none_wf|]. by apply fol_drop_mesh.
Qed.
Lemma fol_tearDownAll {E} : fwf (ptearDownAll meshFactory : proc Shared E unit) tearDownAll.
Proof. unfold ptearDownAll, tearDownAll. fol. eapply follows_post; [apply none_wf|]. by apply fol_drop_mesh. Qed.
Lemma fol_Shutdown : fwf (pShutdown meshFactory) Shutdown.
Proof.
  unfold pShutdown, Shutdown. fol. eapply follows_post; [apply none_wf|]. by apply (fol_drop_mesh id).
Qed.
#[local] Hint Resolve fol_tearDownMode fol_tearDownAll : fol.

(** The rest of connect_inner once the handle is there. *)
Definition connect_ref (b : EnrollmentBundle) (h : mesh) : action Daemon daemon_error unit :=
  _ ← update (fun d => d <| meshWanted := true |>);
  h ← configure_mesh cfg h b;
  r ← attempt (connectMesh h);
  match r with
  | Err e => _ ← update (fun d => d <| lastErr := Some (EMesh e) |>); fail (EMeshUp e)
  | Ok _ => mret tt
  end.
Lemma fol_connect_ref i h b :
  Threads.follows view (at_refs (holds i h)) wf (pconnect_ref meshFactory cfg b i) (connect_ref b h).
Proof.
  apply (follows_bind _ _ (at_refs (holds i h))); [by apply follows_update|apply holds_wf|]. intros _. apply fol_configure.
  intros h'. apply (follows_bind _ _ wf); [|done|].
  - apply follows_attempt. eapply follows_post, fol_connect. apply has_wf.
  - fol.
Qed.

Lemma holds_set i h s : at_refs (holds i h) s -> view s <| dmesh := Some h |> = view s.
Proof. intros Hs%holds_held. unfold view, with_refs. by rewrite Hs. Qed.
Lemma view_new s :
  mref s = None -> view s <| dmesh := Some meshFactory |> = view (new_ref (E := daemon_error) meshFactory s).2.
Proof.
  intros Ho. unfold view, with_refs, let_go_of, held_mesh. cbn. rewrite Ho. cbn.
  by rewrite take_app_length, list_lookup_middle by done.
Qed.

Lemma fol_connect_inner o b :
  Threads.follows view (at_refs (refers o)) wf (pconnect_inner meshFactory cfg o b) (connect_inner meshFactory cfg b).
Proof.
  assert (forall s, connect_inner meshFactory cfg b (view s) =
    let h := default meshFactory (held_mesh (meshes s) (mref s)) in connect_ref b h (view s <| dmesh := Some h |>)) as He by done.
  destruct o as [i|].
  - apply refers_holds. intros h s Hs. rewrite He. cbv zeta. rewrite (holds_held _ _ _ _ Hs). change (default meshFactory (Some h)) with h.
    rewrite (holds_set i h s Hs). by apply fol_connect_ref.
  - intros s [Hl Ho]. rewrite He, Ho. cbv zeta. change (default meshFactory (held_mesh (meshes s) None)) with meshFactory.
    rewrite view_new by done.
    change (alone (pconnect_inner meshFactory cfg None b) s)
      with (alone (pconnect_ref meshFactory cfg b (length (meshes s))) (new_ref (E := daemon_error) meshFactory s).2).
    apply fol_connect_ref. unfold at_refs, holds. cbn. by rewrite length_app, Nat.add_1_r, list_lookup_middle.
Qed.
#[local] Hint Resolve fol_connect_inner : fol.

Lemma fol_Connect env : fwf (pConnect platform meshFactory cfg env) (Connect platform meshFactory cfg env).
Proof.
  apply follows_read_wf. intros s0 H0. change (currentBundle (view s0)) with (currentBundle (base s0)).
  change (currentMode (view s0)) with (currentMode (base s0)).
  destruct (currentBundle (base s0)) as [b|]; [|by apply refers_wf].
  apply (follows_bind _ _ (at_refs (refers (mref s0)))); [by fol|apply refers_post_wf|]. intros _.
  apply (follows_bind _ _ wf); [|done|intros _; apply fol_connected].
  destruct (IncludesNetbird _); [apply fol_connect_inner|by apply refers_wf].
Qed.

(** A read, by what d.mesh was. *)
Lemma follows_read_cases {E A} Q (k : Shared -> proc Shared E A) f :
  (forall s0, wf s0 -> mref s0 = None -> dmesh (view s0) = None ->
     Threads.follows view (at_refs none_held) Q (k s0) (f (view s0))) ->
  (forall s0 i h, at_refs (holds i h) s0 -> mref s0 = Some i -> dmesh (view s0) = Some h ->
     Threads.follows view (at_refs (holds i h)) Q (k s0) (f (view s0))) ->
  Threads.follows view wf Q (pread ≫= k) (snapshot ≫= f).
Proof.
  intros Hn Hs. apply follows_read. intros s0 H0. destruct (mref s0) as [i|] eqn:Ho.
  - assert (exists h, at_refs (holds i h) s0) as [h Hh].
    { unfold at_refs in *. rewrite Ho in *. by apply last_holds. }
    eapply follows_pre, (Hs s0 i h); [by intros ? ->|done|done|exact (holds_held _ _ _ _ Hh)].
  - eapply follows_pre, Hn; [by intros ? ->|done|done|]. unfold view, with_refs, held_mesh. by rewrite Ho.
Qed.

Lemma fol_Disconnect : fwf (pDisconnect meshFactory) Disconnect.
Proof.
  apply follows_read_cases.
  - intros s0 H0 Ho Hd. rewrite Ho, Hd. change (currentMode (view s0)) with (currentMode (base s0)).
    apply (follows_bind _ _ (at_refs none_held)); [by fol|apply none_wf|]. intros _. apply fol_skip, none_wf.
  - intros s0 i h H0 Ho Hd. rewrite Ho, Hd. change (currentMode (view s0)) with (currentMode (base s0)).
    apply (follows_bind _ _ (at_refs (holds i h))); [by fol|apply holds_wf|]. intros _.
    destruct (IncludesNetbird _); [|apply fol_skip, holds_wf].
    apply (follows_bind _ _ (at_refs (holds i h))); [by apply follows_update|apply holds_wf|]. intros _.
    apply follows_with_err. eapply follows_post, fol_mesh_has. apply has_wf.
Qed.

Lemma need_mesh_alone s : wf s ->
  (exists e, alone pneed_mesh s = (Err e, s) /\ need_mesh (view s) = (Err e, view s)) \/
  (exists i h, at_refs (holds i h) s /\ alone pneed_mesh s = (Ok i, s) /\ need_mesh (view s) = (Ok h, view s)).
Proof.
  intros Hs. unfold need_mesh, pneed_mesh, mbind, proc_bind, action_bind. rewrite alone_andthen. cbn [alone pread step run get fst snd snapshot].
  change (currentMode (view s)) with (currentMode (base s)). destruct (IncludesNetbird (currentMode (base s))); cbn [negb]; [|left; by eexists].
  change (dmesh (view s)) with (held_mesh (meshes s) (mref s)). unfold at_refs in *. destruct (mref s) as [i|]; [|left; by eexists].
  right. destruct (last_holds _ _ Hs) as [h Hh]. exists i, h. split; [exact Hh|]. split; [done|].
  by rewrite (holds_held _ _ _ _ Hh).
Qed.
Lemma fol_need_mesh {A} (k : nat -> proc Shared daemon_error A) f :
  (forall i h, Threads.follows view (at_refs (holds i h)) wf (k i) (f h)) -> fwf (pneed_mesh ≫= k) (need_mesh ≫= f).
Proof.
  intros Hk s Hs. unfold mbind, proc_bind, action_bind. rewrite alone_andthen.
  destruct (need_mesh_alone s Hs) as [(e & -> & ->)|(i & h & Hh & -> & ->)]; [done|]. by apply Hk.
Qed.

Lemma fol_SetInnerMeshProfile req :
  fwf (pSetInnerMeshProfile meshFactory cfg req) (SetInnerMeshProfile cfg req).
Proof.
  apply fol_need_mesh. intros i h. apply follows_read_refs. intros s0 H0. cbv zeta.
  apply follows_with_err. eapply follows_post, fol_mesh_has. apply has_wf.
Qed.
Lemma fol_EnableInnerMesh : fwf (pEnableInnerMesh meshFactory) EnableInnerMesh.
Proof.
  apply fol_need_mesh. intros i h. apply (follows_bind _ _ (at_refs (holds i h))); [by apply follows_update|apply holds_wf|].
  intros _. apply follows_with_err. eapply follows_post, fol_connect. apply has_wf.
Qed.
Lemma fol_DisableInnerMesh : fwf (pDisableInnerMesh meshFactory) DisableInnerMesh.
Proof.
  intros s Hs. unfold pDisableInnerMesh, mbind, proc_bind. rewrite alone_andthen. cbn [alone step read_unwant fst snd].
  set (s1 := {| base := unwanted (base s); meshes := meshes s; mref := mref s |}).
  change (DisableInnerMesh (view s)) with
    (match dmesh (view s1) with None => mret tt | Some h => with_err EMesh (on_mesh h mesh_disconnect) end (view s1)).
  assert (wf s1) as H1 by exact Hs. change (mref s) with (mref s1). change (dmesh (view s1)) with (held_mesh (meshes s1) (mref s1)).
  unfold at_refs in H1. destruct (mref s1) as [i|] eqn:Ho; [|split; [unfold at_refs; cbn [alone snd skip mret proc_ret]; by rewrite Ho|done]].
  destruct (last_holds _ _ H1) as [h Hh]. rewrite (holds_held _ _ _ _ Hh).
  refine (follows_with_err _ (at_refs (holds i h)) wf _ _ _ _ s1 _); [|unfold at_refs; by rewrite Ho].
  eapply follows_post, fol_mesh_has. apply has_wf.
Qed.

(** *** SetMode and SetRosenpass *)
Definition settle_outer {E} (newMode : Mode) (o : option EnrollmentBundle) : action Daemon E unit :=
  match o with
  | Some b =>
    if IncludesWGCP0 newMode then
      match Tunnel.FromBundle platform b with
      | Ok c => _ ← ignore (on manager (t_configure c)); ignore (on manager t_connect)
      | Err _ => mret tt
      end
    else mret tt
  | None => mret tt
  end.
Definition settle_inner {E} (newMode : Mode) (o : option mesh) (o' : option EnrollmentBundle) : action Daemon E unit :=
  match o, o' with
  | Some h, Some b => if IncludesNetbird newMode then inner_up cfg h b else mret tt
  | _, _ => mret tt
  end.
Definition persist_mode {E} env (newMode : Mode) (slug : string) (pc : PersistedConfig) : action Daemon E unit :=
  _ ← (if bool_decide (slug = "") then mret tt
       else ignore (on store (UpdateMode (store_ok env) (now env) slug newMode)));
  if bool_decide (CfgPath cfg = "") then mret tt
  else ignore (on config_file (Save (config_ok env) (CfgPath cfg)
              {| cfgMode := newMode; MeshDNSServers := MeshDNSServers pc;
                 MeshDNSSearchDomains := MeshDNSSearchDomains pc; MeshDNSMatchDomains := MeshDNSMatchDomains pc |})).

(** What the later reads of SetMode find unchanged. *)
Definition same_reads : relation Daemon := fun d d' =>
  currentBundle d' = currentBundle d /\ currentSlug d' = currentSlug d /\ persistedCfg d' = persistedCfg d.
Definition same_reads_mesh : relation Daemon := fun d d' => same_reads d d' /\ dmesh d' = dmesh d.
#[local] Instance same_reads_pre : PreOrder same_reads.
Proof. split; [done|]. unfold same_reads. intros d1 d2 d3 ? ?. intuition congruence. Qed.
#[local] Instance same_reads_mesh_pre : PreOrder same_reads_mesh.
Proof. split; [done|]. unfold same_reads_mesh, same_reads. intros d1 d2 d3 ? ?. intuition congruence. Qed.
#[local] Hint Extern 1 (within _ (on _ _)) => apply within_on; done : within.
#[local] Hint Extern 1 (within _ (on_mesh _ _)) => apply within_on_mesh; done : within.

Lemma settle_outer_reads {E} m o : within same_reads_mesh (settle_outer (E := E) m o).
Proof. unfold settle_outer. walk. Qed.
Lemma settle_inner_reads {E} m o o' : within same_reads (settle_inner (E := E) m o o').
Proof. unfold settle_inner, inner_up, configure_mesh. walk. Qed.

Lemma settle_mode_rereads env newMode d :
  settle_mode platform cfg env newMode d =
  (_ ← (d ← snapshot; settle_outer (E := daemon_error) newMode (currentBundle d));
   _ ← (d ← snapshot; settle_inner (E := daemon_error) newMode (dmesh d) (currentBundle d));
   d ← snapshot; persist_mode (E := daemon_error) env newMode (currentSlug d) (persistedCfg d)) d.
Proof.
  change (settle_mode platform cfg env newMode d) with
    ((_ ← settle_outer (E := daemon_error) newMode (currentBundle d); _ ← settle_inner (E := daemon_error) newMode (dmesh d) (currentBundle d);
      persist_mode (E := daemon_error) env newMode (currentSlug d) (persistedCfg d)) d).
  unfold mbind, action_bind, snapshot, run, get. pose proof (settle_outer_reads (E := daemon_error) newMode (currentBundle d) d) as Ho.
  destruct (settle_outer (E := daemon_error) newMode (currentBundle d) d) as [[[]|e] d1]; [|done]. destruct Ho as ((Hb & Hs & Hp) & Hm). cbn in *.
  rewrite Hb, Hm. pose proof (settle_inner_reads (E := daemon_error) newMode (dmesh d) (currentBundle d) d1) as Hi.
  destruct (settle_inner (E := daemon_error) newMode (dmesh d) (currentBundle d) d1) as [[[]|e] d2]; [|done]. destruct Hi as (_ & Hs' & Hp'). cbn in *.
  by rewrite Hs', Hp', Hs, Hp.
Qed.

Lemma snapshot_bind {E A} (f : Daemon -> action Daemon E A) d : (snapshot ≫= f) d = f d d.
Proof. done. Qed.
Lemma follows_ext {E A} P Q (p : proc Shared E A) m m' :
  (forall d, m d = m' d) -> Threads.follows view P Q p m' -> Threads.follows view P Q p m.
Proof. intros He Hp s Hs. rewrite He. by apply Hp. Qed.

Lemma fol_settle_outer {E} newMode :
  fwf (psettle_outer platform newMode : proc Shared E unit) (d ← snapshot; settle_outer newMode (currentBundle d)).
Proof.
  unfold psettle_outer, settle_outer. destruct (IncludesWGCP0 newMode); fol.
  - change (currentBundle (view s0)) with (currentBundle (base s0)). fol.
  - apply follows_snapshot. intros s0 _. destruct (currentBundle (view s0)); by apply fol_skip.
Qed.
Lemma fol_settle_inner {E} newMode :
  fwf (psettle_inner meshFactory cfg newMode : proc Shared E unit)
    (d ← snapshot; settle_inner newMode (dmesh d) (currentBundle d)).
Proof.
  unfold psettle_inner, settle_inner. destruct (IncludesNetbird newMode).
  - apply follows_read_cases; intros s0.
    + intros _ -> ->. by apply fol_skip, none_wf.
    + intros i h _ -> ->. change (currentBundle (view s0)) with (currentBundle (base s0)).
      destruct (currentBundle (base s0)); [|apply fol_skip, holds_wf].
      eapply follows_post, fol_inner_up. apply has_wf.
  - apply follows_snapshot. intros s0 _. destruct (dmesh (view s0)), (currentBundle (view s0)); by apply fol_skip.
Qed.
Lemma fol_persist_mode {E} env newMode :
  fwf (ppersist_mode cfg env newMode : proc Shared E unit)
    (d ← snapshot; persist_mode env newMode (currentSlug d) (persistedCfg d)).
Proof.
  unfold ppersist_mode, persist_mode. fol. change (currentSlug (view s0)) with (currentSlug (base s0)).
  change (persistedCfg (view s0)) with (persistedCfg (base s0)). fol.
Qed.

Definition switch_rest {E} (prev newMode : Mode) : action Daemon E unit :=
  _ ← (if IncludesWGCP0 prev && negb (IncludesWGCP0 newMode) then outer_down else mret tt);
  _ ← (if IncludesNetbird prev && negb (IncludesNetbird newMode) then drop_mesh else mret tt);
  if negb (IncludesNetbird prev) && IncludesNetbird newMode then update (assign_mesh (Some meshFactory)) else mret tt.
Lemma fol_switch_rest {E} prev newMode :
  fwf (pswitch_mode meshFactory prev newMode : proc Shared E unit) (switch_rest prev newMode).
Proof.
  unfold pswitch_mode, switch_rest. fol.
  - eapply follows_post; [apply none_wf|]. by apply (fol_drop_mesh id).
  - apply fol_new_ref.
Qed.

Lemma fol_SetMode env req : fwf (pSetMode platform meshFactory cfg env req) (SetMode platform meshFactory cfg env req).
Proof.
  apply (follows_bind _ _ wf); [apply follows_lift|done|]. intros newMode s Hs.
  rewrite alone_step_bind. cbn [exchange_mode].
  set (s1 := {| base := base s <| currentMode := newMode |>; meshes := meshes s; mref := mref s |}).
  assert (wf s1) as H1 by exact Hs. rewrite snapshot_bind. cbv zeta. change (currentMode (view s)) with (currentMode (base s)).
  destruct (decide (currentMode (base s) = newMode)) as [Hm|Hm].
  - rewrite !(bool_decide_eq_true_2 _ Hm). split; [done|]. cbn [alone mret proc_ret fst snd].
    assert (view s1 = view s) as ->; [|done]. unfold view, s1. cbn [base meshes mref]. f_equal. rewrite <-Hm.
    by destruct (base s).
  - rewrite !(bool_decide_eq_false_2 _ Hm). match goal with |- context [alone ?p s1] => set (q := p) end.
    change (wf (alone q s1).2 /\ (_ ← switch_rest (E := daemon_error) (currentMode (base s)) newMode;
      _ ← settle_mode platform cfg env newMode; mret (currentMode (base s), newMode)) (view s1)
      = ((alone q s1).1, view (alone q s1).2)).
    subst q. clearbody s1. revert s1 H1. refine (follows_bind _ _ wf _ _ _ _ _ (fol_switch_rest _ _) (fun _ H => H) _). intros _.
    eapply (follows_ext _ _ _ _ (_ ← (d ← snapshot; settle_outer newMode (currentBundle d));
      _ ← (d ← snapshot; settle_inner newMode (dmesh d) (currentBundle d));
      _ ← (d ← snapshot; persist_mode env newMode (currentSlug d) (persistedCfg d)); mret (currentMode (base s), newMode))).
    + intros d. unfold mbind at 1, action_bind at 1. rewrite settle_mode_rereads. unfold mbind, action_bind, snapshot, run, get.
      destruct (settle_outer newMode (currentBundle d) d) as [[[]|] d1]; [|done].
      by destruct (settle_inner newMode (dmesh d1) (currentBundle d1) d1) as [[[]|] d2].
    + apply (follows_bind _ _ wf); [apply fol_settle_outer|done|]. intros _.
      apply (follows_bind _ _ wf); [apply fol_settle_inner|done|]. intros _.
      apply (follows_bind _ _ wf); [apply fol_persist_mode|done|]. intros _. apply follows_ret.
Qed.

Lemma alone_pmesh_bind {E A B} i (m : action mesh E A) (k : A -> proc Shared E B) s :
  alone (pmesh meshFactory i m ≫= k) s =
  match on_ref meshFactory i m s with (Ok a, s') => alone (k a) s' | (Err e, s') => (Err e, s') end.
Proof. apply alone_step_bind. Qed.
Lemma fol_rebuild i h b :
  Threads.follows view (at_refs (holds i h)) wf (prebuild meshFactory cfg i b : proc Shared daemon_error unit)
    (if bool_decide (mesh_state h = InnerMesh.StateUp) then
       _ ← ignore (on_mesh h mesh_disconnect); d ← snapshot; inner_up cfg (default h (dmesh d)) b
     else mret tt).
Proof.
  intros s Hs. unfold prebuild. rewrite alone_pmesh_bind.
  pose proof (on_ref_holds (E := daemon_error) i h (run (gets mesh_state)) s Hs) as Hr.
  destruct (on_ref meshFactory i (run (gets mesh_state)) s) as [r s1]. destruct Hr as (-> & Hq & _ & Hv). cbn [run gets fst snd] in *.
  rewrite (holds_set i h s Hs) in Hv. rewrite <-Hv. case_bool_decide; [|by split; [eapply holds_wf|]].
  revert s1 Hq Hv. clear. intros s1 Hq _.
  refine (follows_bind _ _ (at_refs (holds i (mesh_disconnect h).2)) wf _ _ _ _ _ _ _ s1 Hq).
  - apply follows_ignore, fol_mesh.
  - apply holds_wf.
  - intros _ s2 Hs2. rewrite snapshot_bind. change (dmesh (view s2)) with (held_mesh (meshes s2) (mref s2)).
    rewrite (holds_held _ _ _ _ Hs2). cbn [default]. destruct (fol_inner_up (E := daemon_error) i _ b s2 Hs2) as [Hw He].
    split; [by eapply has_wf|exact He].
Qed.

Definition rosenpass_rest env (req : SetRosenpassRequest) (d : Daemon) : action Daemon daemon_error (rosenpassIntent * rosenpassIntent) :=
  _ ← match dmesh d, currentBundle d with
      | Some h, Some b =>
        if IncludesNetbird (currentMode d) && bool_decide (mesh_state h = InnerMesh.StateUp) then
          _ ← ignore (on_mesh h mesh_disconnect);
          d ← snapshot;
          inner_up cfg (default h (dmesh d)) b
        else mret tt
      | _, _ => mret tt
      end;
  _ ← (if bool_decide (currentSlug d = "") then mret tt
       else ignore (on store (UpdateRosenpass (store_ok env) (now env) (currentSlug d)
                                (Some (ReqEnabled req)) (Some (ReqPermissive req)))));
  mret (previous_intent d, {| Enabled := ReqEnabled req; Permissive := ReqPermissive req |}).

Lemma fol_SetRosenpass env req : fwf (pSetRosenpass meshFactory cfg env req) (SetRosenpass cfg env req).
Proof.
  intros s Hs. unfold pSetRosenpass. cbv zeta. rewrite alone_step_bind. cbn [exchange_rosenpass].
  set (s1 := {| base := base s <| rosenpassOverride := _ |>; meshes := meshes s; mref := mref s |}).
  change (SetRosenpass cfg env req (view s)) with (rosenpass_rest env req (view s) (view s1)).
  assert (forall R, at_refs R s -> at_refs R s1) as H1 by done.
  unfold rosenpass_rest. change (previous_intent (view s)) with (previous_intent (base s)).
  change (currentBundle (view s)) with (currentBundle (base s)). change (currentMode (view s)) with (currentMode (base s)).
  change (currentSlug (view s)) with (currentSlug (base s)). clearbody s1.
  assert (forall P, (forall s, P s -> wf s) -> forall (p : proc Shared daemon_error unit) m,
    Threads.follows view P wf p m -> P s1 ->
    let q := (_ ← p; _ ← (if bool_decide (currentSlug (base s) = "") then skip
         else pignore (pon store (UpdateRosenpass (store_ok env) (now env) (currentSlug (base s))
                                    (Some (ReqEnabled req)) (Some (ReqPermissive req)))));
        mret (previous_intent (base s), {| Enabled := ReqEnabled req; Permissive := ReqPermissive req |})) in
    wf (alone q s1).2 /\ (_ ← m; _ ← (if bool_decide (currentSlug (base s) = "") then mret tt
       else ignore (on store (UpdateRosenpass (store_ok env) (now env) (currentSlug (base s))
                                (Some (ReqEnabled req)) (Some (ReqPermissive req)))));
      mret (previous_intent (base s), {| Enabled := ReqEnabled req; Permissive := ReqPermissive req |})) (view s1)
      = ((alone q s1).1, view (alone q s1).2)) as Hgo.
  { intros P HP p m Hp HPs. refine (follows_bind view P wf wf p _ m _ Hp (fun _ H => H) _ s1 HPs). fol. }
  destruct (mref s) as [i|] eqn:Ho.
  - destruct (last_holds i (meshes s)) as [h Hh]; [unfold at_refs in Hs; by rewrite Ho in Hs|].
    assert (at_refs (holds i h) s) as Hh' by (unfold at_refs; by rewrite Ho).
    change (dmesh (view s)) with (held_mesh (meshes s) (mref s)). rewrite (holds_held _ _ _ _ Hh').
    apply (Hgo (at_refs (holds i h))); [apply holds_wf| |by apply H1].
    destruct (currentBundle (base s)) as [b|]; [|apply fol_skip, holds_wf].
    destruct (IncludesNetbird (currentMode (base s))); [apply fol_rebuild|apply fol_skip, holds_wf].
  - assert (dmesh (view s) = None) as -> by (unfold view, with_refs, held_mesh; by rewrite Ho).
    apply (Hgo wf); [done|by apply fol_skip|by apply H1].
Qed.

(** *** Profiles *)
Lemma adopt_section_alone {E} slug target newMode s : wf s ->
  let '(r, s') := adopt_section (E := E) meshFactory slug target newMode s in
  r = Ok (mref s') /\ at_refs (refers (mref s')) s' /\ view s' = adopt_target meshFactory slug target newMode (view s).
Proof.
  intros Hs. pose proof (wf_cases s Hs) as Hc. destruct s as [d l o]. cbn in Hc. unfold adopt_section, adopt_target, remesh.
  cbn [base meshes mref]. match goal with |- context [dmesh ?d1] => change (dmesh d1) with (held_mesh l o) end.
  destruct Hc as [->|(i & h & l' & -> & -> & ->)]; cbn [held_mesh mbind option_bind].
  - destruct (IncludesNetbird newMode).
    + cbn. split_and!; [done|split; [intros ? [= <-]; cbn; rewrite length_app; cbn; lia|done]|].
      unfold view, with_refs, assign_mesh, let_go_of, held_mesh. cbn. by rewrite take_app_length, list_lookup_middle by done.
    + cbn. split_and!; [done|by split|done].
  - rewrite list_lookup_middle by done. destruct (IncludesNetbird newMode).
    + cbn. split_and!; [done|by split|done].
    + cbn. split_and!; [done|by split|]. unfold view, with_refs, assign_mesh, let_go_of, held_mesh. cbn.
      by rewrite take_app_length, list_lookup_middle, reverse_snoc by done.
Qed.

Lemma fol_legs_up {E} o target newMode :
  Threads.follows view (at_refs (refers o)) wf (plegs_up platform meshFactory cfg o target newMode : proc Shared E unit)
    (legs_up platform cfg target newMode).
Proof.
  destruct o as [i|].
  - apply refers_holds. intros h. unfold legs_up, plegs_up. apply follows_snapshot. intros s0 H0.
    change (dmesh (view s0)) with (held_mesh (meshes s0) (mref s0)). rewrite (holds_held _ _ _ _ H0).
    apply (follows_bind _ _ (at_refs (holds i h))); [by fol|apply holds_wf|]. intros _.
    destruct (IncludesNetbird newMode); [|apply fol_skip, holds_wf]. eapply follows_post, fol_inner_up. apply has_wf.
  - unfold legs_up, plegs_up. apply follows_snapshot. intros s0 [_ Ho].
    change (dmesh (view s0)) with (held_mesh (meshes s0) (mref s0)). rewrite Ho. cbn [held_mesh mbind option_bind].
    apply (follows_bind _ _ (at_refs (refers None))); [by fol|apply refers_post_wf|]. intros _. apply fol_skip, refers_post_wf.
Qed.

Lemma fol_adopt {E A} slug target newMode (k : option nat -> proc Shared E A) f :
  (forall o, Threads.follows view (at_refs (refers o)) wf (k o) (f tt)) ->
  fwf (step (adopt_section meshFactory slug target newMode) ≫= k) (update (adopt_target meshFactory slug target newMode) ≫= f).
Proof.
  intros Hk s Hs. rewrite alone_step_bind. pose proof (adopt_section_alone (E := E) slug target newMode s Hs) as Ha.
  destruct (adopt_section meshFactory slug target newMode s) as [r s1]. destruct Ha as (-> & Hr & Hv).
  specialize (Hk (mref s1) s1 Hr). rewrite Hv in Hk. exact Hk.
Qed.

Lemma fol_setActiveLocked env slug :
  fwf (psetActiveLocked platform meshFactory cfg env slug) (setActiveLocked platform meshFactory cfg env slug).
Proof.
  apply (follows_bind _ _ wf); [by apply follows_on|done|]. intros a. apply follows_read_refs. intros s0 H0. cbv zeta.
  change (currentSlug (view s0)) with (currentSlug (base s0)). change (currentMode (view s0)) with (currentMode (base s0)).
  apply (follows_bind _ _ wf); [fol|done|]. intros _. apply fol_adopt. intros o.
  apply (follows_bind _ _ wf); [apply fol_legs_up|done|]. intros _. fol.
Qed.
#[local] Hint Resolve fol_setActiveLocked : fol.

Lemma fol_AddProfile env req : fwf (pAddProfile platform meshFactory cfg env req) (AddProfile platform meshFactory cfg env req).
Proof.
  apply follows_read_refs. intros s0 _. change (currentMode (view s0)) with (currentMode (base s0)). fol.
Qed.
Lemma fol_RemoveProfile env req : fwf (pRemoveProfile meshFactory env req) (RemoveProfile env req).
Proof.
  apply follows_read_refs. intros s0 _. change (currentSlug (view s0)) with (currentSlug (base s0)). fol.
Qed.
Lemma fol_SetActiveProfile env req :
  fwf (pSetActiveProfile platform meshFactory cfg env req) (SetActiveProfile platform meshFactory cfg env req).
Proof. unfold pSetActiveProfile, SetActiveProfile. fol. Qed.

(** *** The supervisor *)
Lemma fol_supervise {E} delay : fwf (psupervise meshFactory cfg delay : proc Shared E (Z * Z)) (run (supervise cfg delay)).
Proof.
  intros s Hs. destruct (wf_cases s Hs) as [Ho|(i & h & l & Ho & Hl & Hi)]; unfold psupervise; cbv zeta;
    unfold pread; rewrite alone_step_bind; cbn [run get]; rewrite Ho;
    change (run (E := E) (supervise cfg delay) (view s)) with (let '(a, d) := supervise cfg delay (view s) in (Ok a : result E _, d));
    unfold supervise; change (dmesh (view s)) with (held_mesh (meshes s) (mref s)); rewrite Ho; cbn [held_mesh mbind option_bind]; [done|].
  assert (at_refs (holds i h) s) as Hh.
  { unfold at_refs, holds. rewrite Ho, Hl, Hi, length_app, list_lookup_middle by done. cbn. split_and!; [done|lia|done]. }
  rewrite Hl, Hi, list_lookup_middle by done. rewrite <-Hi.
  change (currentBundle (view s)) with (currentBundle (base s)). change (meshWanted (view s)) with (meshWanted (base s)).
  change (currentMode (view s)) with (currentMode (base s)).
  destruct (currentBundle (base s)) as [b|]; [|done]. destruct (negb (meshWanted (base s)) || _); [done|].
  assert (forall s, at_refs (holds i h) s -> exists s1,
    on_ref (E := E) meshFactory i (run (gets mesh_state)) s = (Ok (mesh_state h), s1) /\
    at_refs (holds i h) s1 /\ view s1 = view s) as Hread.
  { intros s' Hs'. pose proof (on_ref_holds (E := E) i h (run (gets mesh_state)) s' Hs') as Hr.
    destruct (on_ref meshFactory i _ s') as [r s1]. destruct Hr as (-> & Hq & _ & Hv). exists s1.
    split_and!; [done|exact Hq|]. etrans; [exact Hv|]. exact (holds_set i h s' Hs'). }
  rewrite alone_pmesh_bind. destruct (Hread s Hh) as (s1 & -> & H1 & Hv1). rewrite <-Hv1.
  destruct (decide (mesh_state h = InnerMesh.StateError)) as [He|He].
  - rewrite !(bool_decide_eq_true_2 _ He), He.
    assert (Threads.follows view (at_refs (holds i h)) wf
      (_ ← pconfigure_mesh meshFactory cfg i b; r ← pattempt (pconnectMesh meshFactory i);
       mret (if is_ok r then (supervisor_base cfg, supervisor_base cfg)
             else (delay, Z.min (wrap64 (delay * 2)) (supervisor_max cfg))) : proc Shared E (Z * Z))
      (h ← configure_mesh cfg h b; r ← attempt (connectMesh h);
       mret (if is_ok r then (supervisor_base cfg, supervisor_base cfg)
             else (delay, Z.min (wrap64 (delay * 2)) (supervisor_max cfg))))) as Hf.
    { apply fol_configure. intros h'. apply (follows_bind _ _ wf); [|done|intros; apply follows_ret].
      apply follows_attempt. eapply follows_post, fol_connect. apply has_wf. }
    destruct (Hf s1 H1) as [Hw Hm]. split; [exact Hw|]. rewrite <-Hm.
    unfold mbind, action_bind. rewrite !configure_mesh_eq. unfold attempt.
    by destruct (connectMesh _ _) as [[[]|e] d'].
  - rewrite !(bool_decide_eq_false_2 _ He). rewrite alone_pmesh_bind. destruct (Hread s1 H1) as (s2 & -> & H2 & Hv2).
    rewrite <-Hv2. split; [by eapply holds_wf|]. cbn [alone mret proc_ret fst snd].
    destruct (mesh_state h) eqn:Es; cbn; try done.
Qed.

(** Every handler, run without interruption, leaves the daemon [exec] leaves. *)
Lemma forget_alone {E A} (p : proc Shared E A) (m : action Daemon E A) s :
  wf s -> fwf p m -> wf (alone (forget p) s).2 /\ view (alone (forget p) s).2 = (m (view s)).2.
Proof.
  intros Hs Hp. destruct (Hp s Hs) as [Hw Hm]. rewrite Hm. unfold forget.
  rewrite alone_andthen. by destruct (alone p s).
Qed.
#[local] Hint Resolve fol_ImportBundle fol_Connect fol_Disconnect fol_SetMode fol_SetRosenpass fol_SetInnerMeshProfile
  fol_EnableInnerMesh fol_DisableInnerMesh fol_ListProfiles fol_AddProfile fol_RemoveProfile fol_RenameProfile
  fol_SetActiveProfile fol_GetActiveProfile fol_onForwarderState fol_Shutdown fol_supervise : fol.

(** The handlers of Daemon.v are the uninterrupted runs of the interleaved ones:
    the stretches of a handler one after the other, with the mesh handles as
    objects that d.mesh refers to, end in the daemon that the handler run as one
    action ends in. *)
Lemma stretches_refine_handlers (env : Env) (e : event) (p : prog Shared bool) (s : Shared) :
  start platform meshFactory cfg env e = Some p -> wf s ->
  wf (alone p s).2 /\ view (alone p s).2 = exec platform meshFactory cfg env e (view s).
Proof.
  intros Hp Hs. destruct e; (discriminate Hp || injection Hp as <-); cbn [exec]; try (apply forget_alone; auto with fol; fail).
  - destruct (forget_alone (E := daemon_error) _ _ s Hs (fol_supervise delay)) as [Hw ->]. split; [done|].
    unfold run. by destruct (supervise cfg delay (view s)).
  - exact (forget_alone (E := daemon_error) _ _ s Hs (fol_forwarder_health last_ref up addr)).
Qed.

(** *** Calls one at a time

    The runs in which a call, a round of the supervisor or news from the
    forwarder starts when nothing else is under way: between the calls the daemon
    is in a state that Daemon.v reaches. *)
Definition serial_runs (st : pworld) : pool Shared bool -> Prop :=
  reachable (serial_step (started platform meshFactory cfg)) (boot_pool platform meshFactory cfg st).

Lemma serial_reaches st w : serial_runs st w -> at_rest w = true ->
  wf (shared w) /\ reachable (daemon_step platform meshFactory cfg) (boots platform meshFactory cfg st) (view (shared w)).
Proof.
  revert w. apply (serial_rest (fun s => wf s /\ reachable (daemon_step platform meshFactory cfg) (boots platform meshFactory cfg st) (view s))).
  - intros p s (env & e & Hp) [Hs Hr]. destruct (stretches_refine_handlers env e p s Hp Hs) as [Hw ->]. split; [done|].
    eapply reach_step; [exact Hr|]. by constructor.
  - intros w (d & Hd & ->). split; [done|]. cbn. split; [apply wf_share|]. rewrite view_share. by apply reach_init.
Qed.

(** C4: The mode decides which legs are up, when the calls come one at a time. In
    every run in which a call, a round of the supervisor or news from the
    forwarder starts when nothing else is under way, and whatever of it fails:
    between the calls the mode is one of the three; the outer tunnel is not up,
    and no DNS configuration waits to be re-applied, when the mode leaves the
    outer leg out or no profile is active; the mesh handle is absent or not up
    when the mode leaves the inner leg out. And a call lets go of no handle that
    is up, except in a switch to a profile while none is active. Calls that
    overlap can break this ([tunnel_up_outside_its_mode], [closed_mesh_comes_up]). *)
Theorem legs_follow_mode (st : pworld) (w : pool Shared bool) :
  mesh_state meshFactory <> InnerMesh.StateUp -> serial_runs st w -> at_rest w = true ->
  legs_ok (view (shared w)) /\
  (forall env e p, start platform meshFactory cfg env e = Some p -> currentSlug (view (shared w)) <> "" ->
   exists l, dropped (view (alone p (shared w)).2) = l ++ dropped (view (shared w)) /\
     Forall (fun h => mesh_state h <> InnerMesh.StateUp) l).
Proof.
  intros Hf Hw Hr. destruct (serial_reaches st w Hw Hr) as [Hs Hd].
  pose proof (reachable_legs platform meshFactory cfg st _ Hf Hd) as Hl. split; [done|].
  intros env e p Hp Hn. destruct (stretches_refine_handlers env e p _ Hp Hs) as [_ ->]. by apply event_lets_go.
Qed.
End view.

(** ** What every interleaving keeps *)
Create HintDb safe discriminated.

Section safety.
Context {K : BundleCodec} {C : Crypto} {J : RawJson} {N : NetipLib} {U : NetText} {H : HostDNS}
  {T : TunnelManager} {M : Mesh} {MS : MeshSections}.
Context (platform : os) (meshFactory : mesh) (cfg : Config).

Definition sound (s : Shared) : Prop := auth cfg (base s).
Definition any {A} (_ : A) : Prop := True.
Abbreviation keeps_sound p := (safe sound (okay any) p).

Lemma sound_base {E A} (m : action Daemon E A) : within (keeps_auth cfg) m -> keeps_sound (step (on_base m)).
Proof.
  intros Hm. apply safe_step. intros s Hs. unfold on_base. specialize (Hm (base s) Hs). by destruct (m (base s)).
Qed.
Lemma sound_ref {E A} i (m : action mesh E A) : keeps_sound (pmesh meshFactory i m).
Proof. apply safe_step. intros s Hs. unfold on_ref. by destruct (m _). Qed.
Lemma sound_section {E A} (m : action Shared E A) (f : Shared -> Daemon -> Daemon) :
  (forall s, base (m s).2 = f s (base s)) -> (forall s, keeps_auth cfg (base s) (f s (base s))) -> keeps_sound (step m).
Proof. intros Hm Hf. apply safe_step. intros s Hs. split; [|done]. unfold sound. rewrite Hm. by apply Hf. Qed.
Lemma sound_same {E A} (m : action Shared E A) :
  (forall s, store (base (m s).2) = store (base s) /\ currentBundle (base (m s).2) = currentBundle (base s)) ->
  keeps_sound (step m).
Proof. intros Hm. apply safe_step. intros s [H1 H2]. destruct (Hm s) as [Hs Hb]. split; [|done]. split; by rewrite ?Hs, ?Hb. Qed.
Lemma sound_skip {E} : keeps_sound (skip : proc Shared E unit).
Proof. by apply safe_ret. Qed.

Lemma sound_bind {E A B} (p : proc Shared E A) (k : A -> proc Shared E B) :
  keeps_sound p -> (forall a, keeps_sound (k a)) -> keeps_sound (p ≫= k).
Proof. intros Hp Hk. eapply safe_bind; [exact Hp|auto]. Qed.
Lemma sound_lift_bind {E A B} (r : result E A) (k : A -> proc Shared E B) :
  (forall a, r = Ok a -> keeps_sound (k a)) -> keeps_sound (plift r ≫= k).
Proof. intros Hk. eapply (safe_bind _ (fun a => r = Ok a)); [by apply safe_lift|auto]. Qed.
Lemma sound_attempt {E F A} (p : proc Shared E A) : keeps_sound p -> keeps_sound (pattempt p : proc Shared F _).
Proof. intros Hp. eapply safe_weaken, safe_attempt, Hp. by intros r ? ? ?. Qed.

(** A loaded profile has a verified bundle, whatever happens to the store since. *)
Lemma sound_load {A} env slug (k : Profile -> proc Shared profile_error A) :
  (forall p, trusted cfg (pBundle p) -> keeps_sound (k p)) ->
  keeps_sound (pon store (Profile.Load (store_ok env) slug) ≫= k).
Proof.
  intros Hk. eapply (safe_bind _ (fun p => trusted cfg (pBundle p))); [|exact Hk]. apply safe_step. intros s Hs.
  unfold on_base. destruct (on store _ (base s)) as [r d] eqn:EL. cbn. split.
  - pose proof (auth_Load cfg env slug (base s) Hs) as Ha. by rewrite EL in Ha.
  - intros p ->. by eapply (Load_trusted cfg env) in EL as [_ ?].
Qed.
Lemma sound_adopt {E} f b :
  trusted cfg b -> (forall d, store (f d) = store d /\ currentBundle (f d) = Some b) ->
  keeps_sound (pupdate f : proc Shared E unit).
Proof. intros Hb Hf. apply sound_base. by eapply auth_adopts. Qed.
End safety.

(** Descends through a handler. *)
Ltac sound_walk :=
  repeat lazymatch goal with
  | |- forall _, _ => intros
  | |- safe _ _ (mret _) => by apply safe_ret
  | |- safe _ _ (pfail _) => by apply safe_fail
  | |- safe _ _ (plift _) => by apply safe_lift
  | |- safe _ _ skip => apply sound_skip
  | |- safe _ _ (plift _ ≫= _) => apply sound_lift_bind
  | |- safe _ _ (pon store (Profile.Load _ _) ≫= _) => apply sound_load
  | |- safe _ _ (_ ≫= _) => apply sound_bind
  | |- safe _ _ (pignore _) => eapply safe_ignore
  | |- safe _ _ (pattempt _) => apply sound_attempt
  | |- safe _ _ (pwith_err _ _) => apply safe_with_err
  | |- safe _ _ (pmesh _ _ _) => apply sound_ref
  | |- safe _ _ (pon _ _) => apply sound_base; solve [auto with within]
  | |- safe _ _ (step _) => apply sound_same; done
  | |- safe _ _ (let _ := _ in _) => cbv zeta
  | |- safe _ _ (match ?x with _ => _ end) => destruct x eqn:?
  | |- safe _ _ _ => solve [auto with safe]
  end.

Section interleavings.
Context {K : BundleCodec} {C : Crypto} {J : RawJson} {N : NetipLib} {U : NetText} {H : HostDNS}
  {T : TunnelManager} {M : Mesh} {MS : MeshSections}.
Context (platform : os) (meshFactory : mesh) (cfg : Config).
Abbreviation keeps_sound p := (safe (sound cfg) (okay any) p).

#[local] Hint Extern 1 (within (keeps_auth _) (update _)) => apply within_update, auth_update; done : within.
#[local] Hint Extern 1 (within (keeps_auth _) (on manager _)) => apply auth_leg; done : within.
#[local] Hint Extern 1 (within (keeps_auth _) (on host _)) => apply auth_leg; done : within.
#[local] Hint Extern 1 (safe _ _ (pupdate _)) => apply sound_base; solve [auto with within] : safe.

Lemma sound_read {E} : keeps_sound (pread : proc Shared E Shared).
Proof. by apply sound_same. Qed.
#[local] Hint Resolve sound_read : safe.
Lemma sound_applyDNSCurrent {E} iface c : keeps_sound (papplyDNSCurrent cfg iface c : proc Shared E unit).
Proof. unfold papplyDNSCurrent. sound_walk. Qed.
#[local] Hint Resolve sound_applyDNSCurrent : safe.
Lemma sound_applyDNS {E} iface c : keeps_sound (papplyDNS cfg iface c : proc Shared E unit).
Proof. unfold papplyDNS. sound_walk. Qed.
Lemma sound_onForwarderState {E} up : keeps_sound (ponForwarderState cfg up : proc Shared E unit).
Proof. unfold ponForwarderState. sound_walk. Qed.
Lemma sound_restoreDNS : keeps_sound prestoreDNS.
Proof. unfold prestoreDNS. sound_walk. Qed.
#[local] Hint Resolve sound_applyDNS sound_restoreDNS : safe.
Lemma sound_outer_down {E} : keeps_sound (pouter_down : proc Shared E unit).
Proof. unfold pouter_down. sound_walk. Qed.
Lemma sound_drop_mesh {E} f : (forall d, store (f d) = store d /\ currentBundle (f d) = currentBundle d) ->
  keeps_sound (pdrop_mesh meshFactory f : proc Shared E unit).
Proof. intros Hf. unfold pdrop_mesh. apply sound_bind; [apply sound_same; intros s; apply Hf|]. sound_walk. Qed.
#[local] Hint Resolve sound_outer_down : safe.
#[local] Hint Extern 1 (safe _ _ (pdrop_mesh _ _)) => by apply sound_drop_mesh : safe.
Lemma sound_connectMesh i : keeps_sound (pconnectMesh meshFactory i).
Proof. unfold pconnectMesh. sound_walk. Qed.
#[local] Hint Resolve sound_connectMesh : safe.
Lemma sound_configure_mesh {E} i b : keeps_sound (pconfigure_mesh meshFactory cfg i b : proc Shared E unit).
Proof. unfold pconfigure_mesh. sound_walk. Qed.
#[local] Hint Resolve sound_configure_mesh : safe.
Lemma sound_inner_up {E} i b : keeps_sound (pinner_up meshFactory cfg i b : proc Shared E unit).
Proof. unfold pinner_up. sound_walk. Qed.
Lemma sound_connect_outer b : keeps_sound (pconnect_outer platform cfg b).
Proof. unfold pconnect_outer. sound_walk. Qed.
Lemma sound_connect_ref b i : keeps_sound (pconnect_ref meshFactory cfg b i).
Proof. unfold pconnect_ref. sound_walk. Qed.
#[local] Hint Resolve sound_inner_up sound_connect_outer sound_connect_ref : safe.
Lemma sound_ImportBundle env r : keeps_sound (pImportBundle platform cfg env r).
Proof.
  unfold pImportBundle, pimport_default, pimport_replace, pprofileInfoBySlug, pstore_add, pconfigure_outer.
  apply sound_lift_bind. intros b _. case_match; [by apply safe_fail|].
  apply sound_lift_bind. intros [] Hv%map_err_Ok. apply sound_lift_bind. intros [] Hk%map_err_Ok.
  sound_walk; by eapply sound_adopt.
Qed.
Lemma sound_setActiveLocked env slug : keeps_sound (psetActiveLocked platform meshFactory cfg env slug).
Proof.
  unfold psetActiveLocked, ptearDownMode, plegs_up, pconnected. apply sound_load. intros p Hp. sound_walk.
  apply safe_step. intros s [H1 _]. unfold adopt_section. cbn.
  assert (forall d, store d = store (base s) -> currentBundle d = Some (pBundle p) -> auth cfg d) as Hd.
  { intros d Hs Hb. split; [by rewrite Hs|]. rewrite Hb. by intros b [= <-]. }
  destruct (mref s), (IncludesNetbird _); split; try done; by apply Hd.
Qed.
#[local] Hint Resolve sound_setActiveLocked : safe.

Lemma sound_start env e p : start platform meshFactory cfg env e = Some p -> safe (sound cfg) any p.
Proof.
  assert (forall {E A} (q : proc Shared E A), keeps_sound q -> safe (sound cfg) any (forget q)) as Hf.
  { intros E A q Hq. by eapply safe_andthen. }
  intros Hp. destruct e; (discriminate Hp || injection Hp as <-); apply Hf.
  - apply sound_ImportBundle.
  - unfold pConnect, pconnect_inner, pconnected. sound_walk.
  - unfold pDisconnect. sound_walk.
  - unfold pSetMode, pswitch_mode, psettle_outer, psettle_inner, ppersist_mode. sound_walk.
  - unfold pSetRosenpass, prebuild. sound_walk.
  - unfold pSetInnerMeshProfile, pneed_mesh. sound_walk.
  - unfold pEnableInnerMesh, pneed_mesh. sound_walk.
  - unfold pDisableInnerMesh. sound_walk.
  - unfold pListProfiles. sound_walk.
  - unfold pAddProfile, pstore_add. sound_walk.
  - unfold pRemoveProfile, ptearDownAll. sound_walk. apply sound_base, within_update. by intros d1 [? ?].
  - unfold pRenameProfile. sound_walk.
  - unfold pSetActiveProfile, pprofileInfoBySlug. sound_walk.
  - unfold pGetActiveProfile. sound_walk.
  - unfold psupervise. sound_walk.
  - sound_walk.
  - apply sound_onForwarderState.
  - unfold pShutdown. sound_walk.
Qed.

Lemma sound_boot st w :
  reachable (store_step (CfgTrustRoots cfg)) no_bundle_files (disk st) -> boot_pool platform meshFactory cfg st w ->
  sound cfg (shared w) /\ Forall (safe (sound cfg) any) (threads w).
Proof.
  intros Hst (d & Hd & ->). split; [|constructor].
  apply (reachable_auth platform meshFactory cfg st d Hst), reach_init, Hd.
Qed.

(** C6: The daemon runs on verified bundles only, however its calls interleave.
    Started on a store disk the store's operations can leave behind, with any
    calls, rounds of the supervisor and news from the forwarder under way at
    once and their locked stretches in any order, the current bundle always
    verifies against the trust roots and has a paired device key, and so does
    every bundle left on disk for the next start. *)
Theorem bundles_verified_interleaved (st : pworld) (w : pool Shared bool) :
  reachable (store_step (CfgTrustRoots cfg)) no_bundle_files (disk st) ->
  runs platform meshFactory cfg st w ->
  (forall b, currentBundle (base (shared w)) = Some b ->
     VerifyBundle (CfgTrustRoots cfg) b = Ok tt /\ CheckCPDeviceKeypair b = Ok tt) /\
  bundles_verified (CfgTrustRoots cfg) (disk (store (base (shared w)))).
Proof.
  intros Hst Hw.
  destruct (pool_safe (sound cfg) any (started platform meshFactory cfg) (boot_pool platform meshFactory cfg st))
    with (w := w) as [[H1 H2] _]; [|by intros; apply (sound_boot st)|done|by split].
  intros p (env & e & Hp). by eapply sound_start.
Qed.
End interleavings.

(** ** Runs of the daemon over the fake mesh *)
Module Races.
Import ToyDaemon.
#[export] Instance sections : MeshSections (M := fake) := fake_sections true 0 0 (fun _ => []).

Abbreviation started := (started Linux new_mesh cfg).
Abbreviation runs := (runs Linux new_mesh cfg empty_store).

Ltac evaluate := lazymatch goal with |- _ /\ _ => split; [vm_compute; reflexivity|evaluate] | _ => vm_compute; reflexivity end.

(** A call arrives; each of the calls [is] takes a step, in that order. *)
Definition arrive (e : event) (w : pool Shared bool) : pool Shared bool :=
  match start Linux new_mesh cfg env e with
  | Some p => default w (pool_do (Start p) w)
  | None => w
  end.
Definition boot_up : pool Shared bool := mkpool (share ToyDaemon.started) [].
(** What the calls returned, [None] for one under way. *)
Definition replies (w : pool Shared bool) : list (option bool) :=
  (fun p => match p with Ret ok => Some ok | Do _ _ => None end) <$> threads w.
Definition all_of (i : nat) : list nat := replicate 25 i.

Lemma runs_arrive e w : runs w -> runs (arrive e w).
Proof.
  unfold arrive. intros Hw. destruct (start _ _ _ _ e) as [p|] eqn:Hp; [|done]. cbn [pool_do default].
  eapply reach_step; [exact Hw|]. apply (pool_start _ _ p); [by exists env, e|done].
Qed.
Lemma runs_drive js w : runs w -> runs (drive advance w js).
Proof.
  revert w. induction js as [|j js IH]; intros w Hw; [done|]. cbn. apply IH.
  destruct (advance j w) as [w'|] eqn:E; [|done]. eapply reach_step; [exact Hw|]. by apply (pool_go _ _ j).
Qed.

(** A bundle is imported (call 0), and the tunnel and the mesh come up (call 1). *)
Definition import_call (b : string) : event := EvImportBundle {| ImportBytes := s2l b |}.
Definition imported_up : pool Shared bool := drive advance (arrive (import_call "dev-1|ca1") boot_up) (all_of 0).
Definition connected_up : pool Shared bool := drive advance (arrive EvConnect imported_up) (all_of 1).
Lemma boots_up : boot_pool Linux new_mesh cfg empty_store boot_up.
Proof.
  exists ToyDaemon.started. split; [|reflexivity]. unfold ToyDaemon.started.
  destruct (New _ _ _ _ _ _ _ _) as [d|e] eqn:E.
  - refine (boot Linux new_mesh cfg empty_store env true NewManager None (World ∅ [] 0) d _ E). discriminate.
  - exfalso. assert (is_ok (New new_mesh cfg (fun _ => true) true NewManager None empty_store (World ∅ [] 0)) = true) as Hok
      by (vm_compute; reflexivity). rewrite E in Hok. discriminate Hok.
Qed.
Lemma runs_boot : runs boot_up.
Proof. apply reach_init, boots_up. Qed.
Lemma runs_imported : runs imported_up.
Proof. apply runs_drive, runs_arrive, runs_boot. Qed.
Lemma runs_connected : runs connected_up.
Proof. apply runs_drive, runs_arrive, runs_imported. Qed.

(** The same calls one at a time. *)
Lemma serial_arrive e w : at_rest w = true -> serial_runs Linux new_mesh cfg empty_store w -> serial_runs Linux new_mesh cfg empty_store (arrive e w).
Proof.
  unfold arrive. intros Hr Hw. destruct (start _ _ _ _ e) as [p|] eqn:Hp; [|done]. cbn [pool_do default].
  eapply reach_step; [exact Hw|]. apply (serial_start _ _ p); [by exists env, e|done|done].
Qed.
Lemma serial_drive js w : serial_runs Linux new_mesh cfg empty_store w -> serial_runs Linux new_mesh cfg empty_store (drive advance w js).
Proof.
  revert w. induction js as [|j js IH]; intros w Hw; [done|]. cbn. apply IH.
  destruct (advance j w) as [w'|] eqn:E; [|done]. eapply reach_step; [exact Hw|]. by apply (serial_go _ _ j).
Qed.
Definition outer_then : pool Shared bool :=
  drive advance (arrive (EvSetMode {| ReqMode := "outer" |}) connected_up) (all_of 2).
Lemma serial_outer : serial_runs Linux new_mesh cfg empty_store outer_then /\ at_rest outer_then = true.
Proof.
  split; [|vm_compute; reflexivity]. apply serial_drive, serial_arrive; [vm_compute; reflexivity|].
  apply serial_drive, serial_arrive; [vm_compute; reflexivity|]. apply serial_drive, serial_arrive; [vm_compute; reflexivity|].
  apply reach_init, boots_up.
Qed.
Lemma legs_follow_mode_witness :
  currentMode (view (shared outer_then)) = WGCP0Only /\ inner_idle (view (shared outer_then)) /\
  exists p l, start Linux new_mesh cfg env EvDisconnect = Some p /\
    dropped (view (alone p (shared outer_then)).2) = l ++ dropped (view (shared outer_then)).
Proof.
  assert (currentMode (view (shared outer_then)) = WGCP0Only) as Hm by (vm_compute; reflexivity).
  destruct (legs_follow_mode Linux new_mesh cfg empty_store outer_then) as [Hl Hg];
    [discriminate|exact (proj1 serial_outer)|exact (proj2 serial_outer)|].
  split; [exact Hm|]. split; [apply (li_inner _ _ _ Hl); rewrite Hm; reflexivity|].
  destruct (start Linux new_mesh cfg env EvDisconnect) as [p|] eqn:Hp; [|discriminate Hp].
  assert (bool_decide (currentSlug (view (shared outer_then)) <> "") = true) as Hn by (vm_compute; reflexivity).
  apply bool_decide_eq_true in Hn. destruct (Hg env EvDisconnect p Hp Hn) as (l & El & _). exists p, l. split; [reflexivity|exact El].
Defined.

(** A second profile's bundle arrives while the first one connects. *)
Definition two_calls : pool Shared bool :=
  drive advance (arrive (import_call "dev-2|ca1") (arrive EvConnect imported_up)) [1; 2; 1; 2; 1; 2; 1; 2].
Lemma runs_two_calls : runs two_calls.
Proof. apply runs_drive. do 2 apply runs_arrive. apply runs_imported. Qed.
Lemma bundles_verified_interleaved_witness :
  length (threads two_calls) = 3 /\
  exists b, currentBundle (base (shared two_calls)) = Some b /\ DeviceID b = "dev-2" /\
    VerifyBundle (CfgTrustRoots cfg) b = Ok tt /\ CheckCPDeviceKeypair b = Ok tt.
Proof.
  split; [vm_compute; reflexivity|]. exists (bundle_of "dev-2" "ca1").
  split; [vm_compute; reflexivity|]. split; [reflexivity|].
  apply (bundles_verified_interleaved Linux new_mesh cfg empty_store two_calls);
    [apply reach_init; intros slug; reflexivity|exact runs_two_calls|vm_compute; reflexivity].
Defined.
(** *** The handlers are not atomic

    Connect, under way when SetMode turns the outer tunnel off, brings it up
    afterwards: it works with the mode it read. *)
Definition connect_and_mode : pool Shared bool :=
  drive advance (arrive (EvSetMode {| ReqMode := "inner" |}) (arrive EvConnect imported_up)) (1 :: all_of 2 ++ all_of 1).
Lemma tunnel_up_outside_its_mode :
  runs connect_and_mode /\ replies connect_and_mode = [Some true; Some true; Some true] /\
  IncludesWGCP0 (currentMode (base (shared connect_and_mode))) = false /\
  t_state (manager (base (shared connect_and_mode))) = Tunnel.StateUp.
Proof.
  split; [apply runs_drive; do 2 apply runs_arrive; apply runs_imported|]. evaluate.
Qed.

(** [onForwarderState] read the configuration to apply again before Disconnect
    cleared it, and applies it after the restore. *)
Definition dns_and_disconnect : pool Shared bool :=
  drive advance (arrive EvDisconnect (arrive (EvForwarderState false) connected_up)) (2 :: all_of 3 ++ all_of 2).
Lemma torn_down_dns_resurrected :
  runs dns_and_disconnect /\ replies dns_and_disconnect = [Some true; Some true; Some true; Some true] /\
  lastDNS (base (shared dns_and_disconnect)) = None /\
  t_state (manager (base (shared dns_and_disconnect))) = Tunnel.StateClosed /\
  fst <$> host (base (shared dns_and_disconnect)) = Some "wg-cp0".
Proof.
  split; [apply runs_drive; do 2 apply runs_arrive; apply runs_connected|]. evaluate.
Qed.

(** SetMode closes and forgets the handle that Connect is bringing up; it comes
    up all the same. *)
Definition connect_and_close : pool Shared bool :=
  drive advance (arrive (EvSetMode {| ReqMode := "outer" |}) (arrive EvConnect imported_up))
    (replicate 12 1 ++ all_of 2 ++ all_of 1).
Lemma closed_mesh_comes_up :
  runs connect_and_close /\ replies connect_and_close = [Some true; Some true; Some true] /\
  mref (shared connect_and_close) = None /\
  (fun h => (fclosed h, mesh_state h)) <$> meshes (shared connect_and_close) = [(true, InnerMesh.StateUp)].
Proof.
  split; [apply runs_drive; do 2 apply runs_arrive; apply runs_imported|]. evaluate.
Qed.

(** ImportBundle, for the profile "default", makes its bundle the current one
    after SetActiveProfile has switched to the profile "lab". *)
Definition add_lab : event :=
  EvAddProfile {| ReqName := "Lab"; ReqProfileMode := "outer"; ReqBundleBytes := s2l "dev-2|ca1";
                  ReqReplace := false; ReqSetActive := false |}.
Definition import_and_switch : pool Shared bool :=
  let w := drive advance (arrive add_lab imported_up) (all_of 1) in
  drive advance (arrive (EvSetActiveProfile {| ActiveSlug := "lab" |}) (arrive (import_call "dev-1|ca1") w))
    (2 :: all_of 3 ++ all_of 2).
Lemma bundle_of_another_profile :
  runs import_and_switch /\ replies import_and_switch = [Some true; Some true; Some true; Some true] /\
  currentSlug (base (shared import_and_switch)) = "lab" /\
  DeviceID <$> currentBundle (base (shared import_and_switch)) = Some "dev-1" /\
  exists p, (Profile.Load (store_ok env) "lab" (store (base (shared import_and_switch)))).1 = Ok p /\
    DeviceID (pBundle p) = "dev-2".
Proof.
  split; [apply runs_drive; do 2 apply runs_arrive; apply runs_drive, runs_arrive, runs_imported|].
  do 3 (split; [evaluate|]). eexists. split; [vm_compute; reflexivity|]. reflexivity.
Qed.
End Races.
