(* ===== verification/DaemonNetbird.v ===== *)
(** The supervisor over the real inner mesh: Daemon.v composed with the netbird
    implementation of InnerMesh.v. *)
From stdpp Require Import base tactics list gmap strings.
From Stdlib Require Import ZArith Ascii Lia.
From S2P Require Import DnsAdapter.
From S2P Require Import Prelude GoStr Fs.
From S2P Require Import Mode.
From S2P Require Import Bundle.
From S2P Require Import Profile.
From S2P Require Import ProfileSpec.
From S2P Require Import Tunnel.
From S2P Require Import InnerMesh.
From S2P Require Import Ipc.
From S2P Require Import Daemon.
From S2P Require Import DaemonSpec.
Local Open Scope list_scope.

Section rounds.
Context {K : BundleCodec} {C : Crypto} {J : RawJson} {N : NetipLib} {U : NetText} {H : HostDNS}
  {T : TunnelManager} {M : Mesh}.
Context (cfg : Config).

(** [n] rounds of the supervisor from the delay [delay], one after the other:
    the time waited after them, the next delay and the daemon. *)
Fixpoint rounds (n : nat) (delay : Z) (d : Daemon) : Z * Z * Daemon :=
  match n with
  | O => (0%Z, delay, d)
  | S n' =>
    let '((wait, next), d') := supervise cfg delay d in
    let '(total, next', d'') := rounds n' next d' in
    ((wait + total)%Z, next', d'')
  end.
End rounds.

(** ** One attempt of the netbird implementation *)
Lemma make_dirs_ticks ok paths n :
  let '(r, n') := make_dirs ok paths n in
  nticks n <= nticks n' /\ (r = Ok tt \/ nticks n < nticks n' /\ exists t, nticks n <= t /\ ok t = false).
Proof.
  revert n. induction paths as [|p ps IH]; intros n; cbn [make_dirs]; [by split; [|left]|].
  case_bool_decide; [apply IH|]. unfold mbind, action_bind, InnerMesh.call.
  destruct (ok (nticks n)) eqn:E; cbn [nticks]; [|split; [lia|right; split; [lia|by exists (nticks n)]]].
  match goal with |- context [make_dirs ok ps ?n'] => specialize (IH n'); destruct (make_dirs ok ps n') as [r n1] end.
  cbn in IH. destruct IH as [H1 [->|(H2 & t & Ht & Ho)]]; (split; [lia|]); [by left|right].
  split; [lia|]. exists t. split; [lia|done].
Qed.

(** The handle is up with a running client, and [c] is its configuration. *)
Definition runs (c : MConfig) (n : Netbird) : Prop :=
  nstate n = InnerMesh.StateUp /\ ncfg n = c /\ exists k, client n = Some k /\ is_Some (live n !! k).

Lemma attempt_cases ok cfg n :
  nclosed n = false -> ManagementURL cfg <> "" -> SetupKey cfg <> "" ->
  let '(r, n') := InnerMesh.Connect ok (InnerMesh.Configure cfg n).2 in
  if is_ok r then runs cfg n'
  else nstate n' = InnerMesh.StateError /\ nclosed n' = false /\ nticks n < nticks n' /\
       exists t, nticks n <= t /\ ok t = false.
Proof.
  intros Hc Hu Hk. unfold InnerMesh.Configure. rewrite !bool_decide_eq_false_2, Hc by done. cbn [snd].
  unfold InnerMesh.Connect. cbn [nclosed ncfg]. rewrite ?Hc, bool_decide_eq_false_2 by done.
  match goal with |- context [(make_dirs ok ?ps ≫= ?f) ?n0] =>
    pose proof (make_dirs_ticks ok ps n0) as Ht; pose proof (make_dirs_frame ok ps n0) as (_ & _ & _ & Hcl & Hcf & _);
    unfold mbind at 1, action_bind at 1; destruct (make_dirs ok ps n0) as [[[]|e] n1] end; cbn in Ht, Hcl, Hcf.
  - destruct Ht as [Hle _]. unfold mbind, action_bind, InnerMesh.call. destruct (ok (nticks n1)) eqn:E1; cbn [nticks].
    + destruct (ok (S (nticks n1))) eqn:E2; cbn.
      { split_and!; [done..|]. eexists. split; [done|]. by eapply lookup_insert_is_Some'; left. }
      split_and!; [done|congruence|lia|]. exists (S (nticks n1)).
      split; [lia|done].
    + cbn. split_and!; [done|congruence|lia|]. by exists (nticks n1).
  - destruct Ht as [_ [?|(? & t & ? & ?)]]; [done|]. cbn. split_and!; [done|congruence|lia|by exists t].
Qed.

(** ** Recovery *)
Section recovery.
Context {K : BundleCodec} {C : Crypto} {J : RawJson} {N : NetipLib} {U : NetText} {H : HostDNS} {T : TunnelManager}.
Context (ok : nat -> bool) (status : nat -> option FullStatus) (parse_prefix : string -> option string)
  (log : Netbird -> ringWriter) (cfg : Config).
#[local] Instance nb : Mesh := netbird_mesh ok status parse_prefix log.

Lemma meshConfig_setup (d : Daemon) b :
  HasInnerMesh b = true ->
  ManagementURL (meshConfig cfg d (Some b)) <> "" /\ SetupKey (meshConfig cfg d (Some b)) <> "".
Proof.
  intros Hb. unfold meshConfig, meshConfigFromBundle, InnerMesh.FromBundle. rewrite Hb. cbn [negb].
  unfold HasInnerMesh in Hb. apply andb_true_iff in Hb as [H1%negb_true_iff%bool_decide_eq_false H2%negb_true_iff%bool_decide_eq_false].
  by destruct (rosenpassOverride d).
Qed.

Lemma wanted_down_Some (d : Daemon) (h : mesh) b :
  wanted_down d = Some (h, b) <->
  dmesh d = Some h /\ currentBundle d = Some b /\ meshWanted d = true /\
  IncludesNetbird (currentMode d) = true /\ mesh_state h = InnerMesh.StateError.
Proof.
  unfold wanted_down. split.
  - destruct (dmesh d) as [h0|], (currentBundle d) as [b0|]; try done.
    destruct (meshWanted d), (IncludesNetbird (currentMode d)); cbn [andb]; try done.
    case_bool_decide; [|done]. by intros [= -> ->].
  - intros (-> & -> & -> & -> & Hs). cbn [andb]. by rewrite bool_decide_eq_true_2.
Qed.

Lemma round_cases delay (d : Daemon) (h : Netbird) b :
  wanted_down d = Some ((h : mesh), b) -> HasInnerMesh b = true -> nclosed h = false ->
  exists h', (supervise cfg delay d).2 = d <| dmesh := Some (h' : mesh) |> /\
    (runs (meshConfig cfg d (Some b)) h' \/
     wanted_down (d <| dmesh := Some (h' : mesh) |>) = Some ((h' : mesh), b) /\ nclosed h' = false /\
     nticks h < nticks h' /\ exists t, nticks h <= t /\ ok t = false).
Proof.
  intros Hw Hb Hc. destruct (meshConfig_setup d b Hb) as [Hu Hk].
  pose proof (attempt_cases ok (meshConfig cfg d (Some b)) h Hc Hu Hk) as Ha.
  change (let '(r, h') := mesh_connect (mesh_configure (meshConfig cfg d (Some b)) h).2 in
          if is_ok r then runs (meshConfig cfg d (Some b)) h'
          else nstate h' = InnerMesh.StateError /\ nclosed h' = false /\ nticks h < nticks h' /\
               exists t, nticks h <= t /\ ok t = false) in Ha.
  destruct (supervise_round cfg delay d) as [Hr _]. rewrite Hr, Hw.
  destruct (mesh_connect _) as [r h'] eqn:Ec.
  cbn iota in Ha |- *.
  exists h'. split; [done|]. destruct (is_ok r); [by left|right]. destruct Ha as (Hs & Hc' & Hlt & t & Ht).
  split; [|by eauto]. apply wanted_down_Some in Hw as (_ & ? & ? & ? & _). by apply wanted_down_Some.
Qed.
(** ** Liveness *)

Lemma rounds_delays n delay d :
  (supervisor_base cfg <= delay <= supervisor_max cfg)%Z -> (supervisor_max cfg * 2 <= int64_max)%Z ->
  (0 <= (rounds cfg n delay d).1.1 <= Z.of_nat n * supervisor_max cfg)%Z.
Proof.
  intros Hd Hm. revert delay d Hd. induction n as [|n IH]; intros delay d Hd; [cbn; lia|].
  cbn [rounds]. pose proof (supervise_delays cfg delay d Hd Hm) as Hs. pose proof (supervisor_base_pos cfg).
  destruct (supervise cfg delay d) as [[wait next] d1]. destruct Hs as [Hw Hn]. specialize (IH next d1 Hn).
  destruct (rounds cfg n next d1) as [[total next'] d2]. cbn in *. lia.
Qed.

Lemma rounds_S n delay d :
  (rounds cfg (S n) delay d).2 = (rounds cfg n (supervise cfg delay d).1.2 (supervise cfg delay d).2).2.
Proof.
  cbn [rounds]. destruct (supervise cfg delay d) as [[wait next] d1]. cbn.
  by destruct (rounds cfg n next d1) as [[total next'] d2].
Qed.

Lemma recovers n0 delay (d : Daemon) (h : Netbird) b t0 :
  t0 - nticks h <= n0 -> wanted_down d = Some ((h : mesh), b) -> HasInnerMesh b = true -> nclosed h = false ->
  (forall t, t0 <= t -> ok t = true) ->
  exists n h', n <= S n0 /\ (rounds cfg n delay d).2 = d <| dmesh := Some (h' : mesh) |> /\
    runs (meshConfig cfg d (Some b)) h'.
Proof.
  intros Hn Hw Hb Hc Hok. revert delay d h Hn Hw Hc. induction n0 as [|n0 IH]; intros delay d h Hn Hw Hc;
    destruct (round_cases delay d h b Hw Hb Hc) as (h1 & Hs & [Hup|(Hw1 & Hc1 & Hlt & t & Ht & Hf)]).
  - exists 1, h1. split; [lia|]. by rewrite rounds_S.
  - rewrite Hok in Hf by lia. done.
  - exists 1, h1. split; [lia|]. by rewrite rounds_S.
  - destruct (IH (supervise cfg delay d).1.2 _ h1 ltac:(lia) Hw1 Hc1) as (n & h2 & Hle & Hr & Hup).
    exists (S n), h2. split; [lia|]. rewrite rounds_S, Hs, Hr. by split.
Qed.

(** C7: The supervisor recovers the inner mesh. Take a mesh that is wanted and has
    failed, on a bundle that sets up an inner mesh, whose handle was not closed;
    and let the calls of the outside - making the persistence directories,
    building netbird's client, starting it - succeed from the [t0]-th on. Then a
    bounded number of rounds brings the mesh up: at most one round per call that
    may still fail and one more, so the time slept is bounded too. No other part
    of the daemon changes, and the mesh runs with the active profile's
    configuration. *)
Theorem supervisor_recovers (delay : Z) (d : Daemon) (h : Netbird) b t0 :
  (supervisor_base cfg <= delay <= supervisor_max cfg)%Z -> (supervisor_max cfg * 2 <= int64_max)%Z ->
  wanted_down d = Some ((h : mesh), b) -> HasInnerMesh b = true -> nclosed h = false ->
  (forall t, t0 <= t -> ok t = true) ->
  exists n h', n <= S (t0 - nticks h) /\
    (rounds cfg n delay d).2 = d <| dmesh := Some (h' : mesh) |> /\
    runs (meshConfig cfg d (Some b)) h' /\
    (0 <= (rounds cfg n delay d).1.1 <= Z.of_nat n * supervisor_max cfg)%Z.
Proof.
  intros Hd Hm Hw Hb Hc Hok. destruct (recovers _ delay d h b t0 (le_n _) Hw Hb Hc Hok) as (n & h' & Hn & Hr & Hu).
  exists n, h'. split_and!; try done; by apply rounds_delays.
Qed.
End recovery.

(** ** A run

    The first three calls of the outside fail: the connect and two rounds; the
    third round brings the mesh up. *)
Module NetbirdRun.
Import ToyDaemon.
#[local] Remove Hints ToyDaemon.fake : typeclass_instances.
Definition ok (t : nat) : bool := 3 <=? t.
#[export] Instance netbird : Mesh := netbird_mesh ok (fun _ => None) (fun _ => None) (fun _ => newRingWriter 0).
Definition handle : mesh := NewNetbird "laptop".

Definition run (e : event) (d : Daemon) : Daemon := exec Linux handle cfg env e d.
Definition started : result daemon_error Daemon := New handle cfg (fun _ => true) true NewManager None empty_store (World ∅ [] 0).
Definition connected : option Daemon :=
  match started with
  | Ok d => Some (run EvConnect (run (EvImportBundle {| ImportBytes := s2l "dev-1|ca1" |}) (run (EvSetMode {| ReqMode := "netbird" |}) d)))
  | Err _ => None
  end.
Definition failed (d : Daemon) : bool :=
  match wanted_down d with
  | Some (h, b) => (nticks h =? 1) && negb (nclosed h) && HasInnerMesh b
  | None => false
  end.

Lemma supervisor_recovers_witness :
  exists d h b, connected = Some d /\ wanted_down d = Some ((h : mesh), b) /\ nticks h = 1 /\
    exists n h', n <= 3 /\ (rounds cfg n (supervisor_base cfg) d).2 = d <| dmesh := Some (h' : mesh) |> /\
      nstate h' = InnerMesh.StateUp.
Proof.
  assert (option_map failed connected = Some true) as Hf by (vm_compute; reflexivity).
  revert Hf. generalize connected. intros [d|] Hf; [|discriminate]. cbn [option_map] in Hf. injection Hf as Hf.
  unfold failed in Hf. destruct (wanted_down d) as [[h b]|] eqn:Hw; [|discriminate].
  apply andb_true_iff in Hf as [[Ht%Nat.eqb_eq Hcl%negb_true_iff]%andb_true_iff Hb].
  destruct (supervisor_recovers ok (fun _ => None) (fun _ => None) (fun _ => newRingWriter 0) cfg (supervisor_base cfg) d h b 3)
    as (n & h' & Hn & Hr & Hu & _); [vm_compute; split; discriminate|vm_compute; discriminate|exact Hw|exact Hb|exact Hcl| |].
  - intros t Hle. by apply Nat.leb_le.
  - rewrite Ht in Hn. exists d, h, b. split_and!; [done..|]. exists n, h'. destruct Hu as (Hup & _). by split_and!.
Defined.
End NetbirdRun.
