(* ===== verification/DaemonFiles.v ===== *)
(** Peer files in the daemon: internal/daemon/filedrop.go.

    The ring of received files, the authoriser over the live peer list, the
    lifecycle of the receive server, and sending. *)
From stdpp Require Import base tactics list gmap strings.
From Stdlib Require Import ZArith Ascii Lia.
From S2P Require Import DnsAdapter.
From S2P Require Import Prelude GoStr Fs.
From S2P Require Import Mode.
From S2P Require Import Bundle.
From S2P Require Import Profile.
From S2P Require Import Tunnel.
From S2P Require Import InnerMesh.
From S2P Require Import Ipc.
From S2P Require Import FileDrop.
From S2P Require Import Daemon.
From S2P Require Import DaemonSpec.
Local Open Scope list_scope.

(** ** Circular buffers

    The slot written [i] writes before the last one, where the next write goes
    to [head]. *)
Definition newest {A} (zero : A) (buf : list A) (head i : nat) : A :=
  nth ((head + length buf - 1 - i) mod length buf) buf zero.

Lemma mod_once a c : 0 < c -> a < 2 * c -> a mod c = if a <? c then a else a - c.
Proof.
  intros Hc Ha. destruct (Nat.ltb_spec a c); [by apply Nat.mod_small|].
  symmetry. apply (Nat.mod_unique a c 1); lia.
Qed.

Lemma newest_push {A} (zero x : A) buf head i :
  head < length buf -> i < length buf ->
  newest zero (<[head := x]> buf) ((head + 1) mod length buf) i =
  match i with O => x | S j => newest zero buf head j end.
Proof.
  intros Hh Hi. unfold newest. rewrite length_insert, nth_lookup.
  assert (((head + 1) mod length buf + length buf - 1 - i) mod length buf =
          match i with O => head | S j => (head + length buf - 1 - j) mod length buf end) as ->.
  { rewrite (mod_once (head + 1)) by lia. destruct (Nat.ltb_spec (head + 1) (length buf)), i as [|j];
      rewrite !mod_once by lia; repeat case_match; repeat match goal with H : _ = _ |- _ => apply Nat.ltb_lt in H || apply Nat.ltb_ge in H end; lia. }
  destruct i as [|j]; [by rewrite list_lookup_insert_eq|].
  rewrite list_lookup_insert_ne; [by rewrite nth_lookup|].
  rewrite mod_once by lia. destruct (Nat.ltb_spec (head + length buf - 1 - j) (length buf)); lia.
Qed.

(** ** The received files *)
Definition receivedRingCap : Z := 64.

Record receivedRing := { rr_buf : list Received; rr_head : nat; rr_n : nat }.
Definition zero_received : Received :=
  {| RName := ""; RSize := 0; RFrom := ""; RFromIP := ""; RPath := ""; RAt := zero_time |}.

Definition newReceivedRing (capacity : Z) : receivedRing :=
  let capacity := if (capacity <=? 0)%Z then receivedRingCap else capacity in
  {| rr_buf := replicate (Z.to_nat capacity) zero_received; rr_head := 0; rr_n := 0 |}.

Definition add (rec : Received) (r : receivedRing) : receivedRing :=
  {| rr_buf := <[rr_head r := rec]> (rr_buf r);
     rr_head := (rr_head r + 1) mod length (rr_buf r);
     rr_n := if rr_n r <? length (rr_buf r) then rr_n r + 1 else rr_n r |}.

Definition list_received (r : receivedRing) : list Received :=
  (fun i => nth ((rr_head r + length (rr_buf r) - 1 - i) mod length (rr_buf r)) (rr_buf r) zero_received)
    <$> seq 0 (rr_n r).

Definition received_ok (r : receivedRing) : Prop := rr_head r < length (rr_buf r) /\ rr_n r <= length (rr_buf r).

Lemma add_received_ok rec r : received_ok r -> received_ok (add rec r).
Proof.
  intros [H1 H2]. unfold received_ok, add. cbn [rr_buf rr_head rr_n]. rewrite length_insert. split; [apply Nat.mod_upper_bound; lia|].
  destruct (Nat.ltb_spec (rr_n r) (length (rr_buf r))); lia.
Qed.

Lemma list_received_lookup r i :
  list_received r !! i = if i <? rr_n r then Some (newest zero_received (rr_buf r) (rr_head r) i) else None.
Proof.
  unfold list_received. rewrite list_lookup_fmap. destruct (Nat.ltb_spec i (rr_n r)).
  - by rewrite lookup_seq_lt.
  - by rewrite lookup_seq_ge.
Qed.

Lemma list_add rec r :
  received_ok r -> list_received (add rec r) = take (length (rr_buf r)) (rec :: list_received r).
Proof.
  intros [H1 H2]. apply list_eq. intros i. rewrite list_received_lookup.
  assert (length (rr_buf r) <= i -> (i <? rr_n (add rec r)) = false) as Hout.
  { cbn [rr_n add]. destruct (Nat.ltb_spec (rr_n r) (length (rr_buf r))); intros; apply Nat.ltb_ge; lia. }
  assert (i < length (rr_buf r) -> (i <? rr_n (add rec r)) = match i with O => true | S j => j <? rr_n r end) as Hin.
  { cbn [rr_n add]. destruct (Nat.ltb_spec (rr_n r) (length (rr_buf r))), i as [|j]; intros;
      [apply Nat.ltb_lt; lia|apply eq_bool_prop_intro; rewrite !Is_true_true, !Nat.ltb_lt; lia
      |apply Nat.ltb_lt; lia|apply eq_bool_prop_intro; rewrite !Is_true_true, !Nat.ltb_lt; lia]. }
  destruct (Nat.lt_ge_cases i (length (rr_buf r))) as [Hi|Hi].
  - rewrite lookup_take_lt, Hin by done. cbn [rr_buf rr_head add]. rewrite newest_push by done.
    destruct i as [|j]; [done|]. cbn. by rewrite list_received_lookup.
  - by rewrite lookup_take_ge, Hout.
Qed.

(** ** Who may drop a file *)
Section daemon.
Context {K : BundleCodec} {C : Crypto} {J : RawJson} {N : NetipLib} {U : NetText} {H : HostDNS}
  {T : TunnelManager} {M : Mesh}.

Definition peer_label (p : PeerStatus) : string := if bool_decide (FQDN p = "") then IP p else FQDN p.

Definition authorizer (d : Daemon) : Authorizer := fun srcIP =>
  match dmesh d with
  | None => None
  | Some h =>
    match mesh_peers h with
    | Err _ => None
    | Ok peers => peer_label <$> find_first (fun p => bool_decide (IP p = srcIP)) peers
    end
  end.

Definition inboxDir (cfg : Config) (fileDropInboxDir : string) : string :=
  if bool_decide (fileDropInboxDir = "") then path_join [path_dir (BundlePath cfg); "inbox"] else fileDropInboxDir.

(** The server of the default factory; its authoriser asks the daemon anew for
    every request. *)
Definition drop_server (inbox_dir : string) (d : Daemon) : Server :=
  {| InboxDir := inbox_dir; Auth := Some (authorizer d); MaxBytes := 0 |}.

(** One request: the status, and a received file is recorded. *)
Definition receive (ok : nat -> bool) (inbox_dir : string) (d : Daemon) (now : Z) (req : Request)
    : state (receivedRing * inbox) Z := fun '(ring, w) =>
  let '((status, rec), w') := handlePut ok (drop_server inbox_dir d) now req w in
  (status, (match rec with Some rec => add rec ring | None => ring end, w')).

(** ipc.IncomingFile has the fields of [Received]. *)
Definition GetIncomingFiles (ring : receivedRing) : list Received := list_received ring.

(** ** The receive server's lifecycle *)

(** [fl_running]: the server the loop has the cancel function of. [fl_serving]:
    the servers that serve, with their addresses. *)
Record FileLoop := { fl_running : option nat; fl_serving : gmap nat string; fl_next : nat }.
Definition file_loop : FileLoop := {| fl_running := None; fl_serving := ∅; fl_next := 0 |}.

Definition stop_files (l : FileLoop) : FileLoop :=
  match fl_running l with
  | Some id => {| fl_running := None; fl_serving := delete id (fl_serving l); fl_next := fl_next l |}
  | None => l
  end.

(** d.mesh when it is to be served: the mode includes it and it is up. *)
Definition mesh_up (d : Daemon) : option mesh :=
  match dmesh d with
  | Some h => if negb (IncludesNetbird (currentMode d)) || negb (bool_decide (mesh_state h = InnerMesh.StateUp))
              then None else Some h
  | None => None
  end.

(** One tick; [binds]: ListenAndServe gets its listener. *)
Definition reconcile_files (binds : string -> bool) (d : Daemon) (l : FileLoop) : FileLoop :=
  match mesh_up d with
  | None => stop_files l
  | Some h =>
    match fl_running l with
    | Some _ => l
    | None =>
      match mesh_local_ip h with
      | Err _ => l
      | Ok localIP =>
        if bool_decide (localIP = "") then l
        else
          let addr := join_host_port localIP (itoa FileDrop.DefaultPort) in
          {| fl_running := Some (fl_next l);
             fl_serving := if binds addr then <[fl_next l := addr]> (fl_serving l) else fl_serving l;
             fl_next := S (fl_next l) |}
      end
    end
  end.

(** A tick in some state of the daemon, a server that ends by itself, or the end
    of the loop, which runs the deferred stop. *)
Inductive file_event := FTick (binds : string -> bool) (d : Daemon) | FServerDies (id : nat) | FCtxDone.

Definition file_step (e : file_event) (l : FileLoop) : FileLoop :=
  match e with
  | FTick binds d => reconcile_files binds d l
  | FServerDies id => {| fl_running := fl_running l; fl_serving := delete id (fl_serving l); fl_next := fl_next l |}
  | FCtxDone => stop_files l
  end.

(** ** Sending *)
Definition resolvePeer (peers : list PeerStatus) (id : string) : option (string * string) :=
  (fun p => (IP p, peer_label p)) <$>
    find_first (fun p => bool_decide (IP p = id) || (negb (bool_decide (FQDN p = "")) && equal_fold (FQDN p) id)) peers.

Inductive sendfile_error := ENoInnerMesh | EPeerList (e : mesh_error) | ENoSuchPeer | EFile (e : file_error).

Record SendFileReply := { repName : string; repSize : Z; repToPeer : string; repToIP : string }.

Definition SendFile {W} (do_request : string -> Request -> state W (result string Response)) (files : string -> local_file)
    (req : SendFileRequest) (d : Daemon) : action W sendfile_error SendFileReply :=
  match dmesh d with
  | None => fail ENoInnerMesh
  | Some h =>
    if negb (IncludesNetbird (currentMode d)) then fail ENoInnerMesh
    else
      peers ← lift (map_err EPeerList (mesh_peers h));
      '(ip, label) ← lift (of_option ENoSuchPeer (resolvePeer peers (ReqPeer req)));
      res ← with_err EFile (FileDrop.SendFile do_request files (PeerAddr ip FileDrop.DefaultPort) (ReqPath req));
      mret {| repName := SName res; repSize := SSize res; repToPeer := label; repToIP := ip |}
  end.

(** ** Theorems *)
Lemma authorizer_Some d src label :
  authorizer d src = Some label <->
  exists h peers p, dmesh d = Some h /\ mesh_peers h = Ok peers /\
    find_first (fun p => bool_decide (IP p = src)) peers = Some p /\ label = peer_label p.
Proof.
  unfold authorizer. split.
  - destruct (dmesh d) as [h|]; [|done]. destruct (mesh_peers h) as [peers|] eqn:E; [|done].
    intros (p & Hp & ->)%fmap_Some. exists h, peers, p. by split_and!.
  - intros (h & peers & p & -> & -> & -> & ->). done.
Qed.

(** The peer of the current mesh that a source address belongs to. *)
Definition peer_of (d : Daemon) (src : string) (p : PeerStatus) : Prop :=
  exists h peers, dmesh d = Some h /\ mesh_peers h = Ok peers /\ p ∈ peers /\ IP p = src.

Lemma authorizer_peer d src label :
  authorizer d src = Some label -> exists p, peer_of d src p /\ label = peer_label p.
Proof.
  rewrite authorizer_Some. intros (h & peers & p & Hh & Hp & [Hin Hip]%find_first_elem & ->).
  apply bool_decide_eq_true in Hip. exists p. split; [|done]. by exists h, peers.
Qed.

Lemma receive_cases ok dir d now req ring w :
  let v := visible (disk w) in
  let '(status, (ring', w')) := receive ok dir d now req (ring, w) in
  (status <> 200%Z /\ (400 <= status)%Z /\ ring' = ring /\ visible (disk w') = v) \/
  (status = 200%Z /\ BodyEnds req = true /\ exists name label c rec,
     authorizer d (sourceIP (RemoteAddr req)) = Some label /\
     safeName (trim_prefix (URLPath req) putPrefix) = Ok name /\
     stored v name c (Body req) (visible (disk w')) /\ ring' = add rec ring /\
     rec = {| RName := c; RSize := Z.of_nat (length (Body req)); RFrom := label;
              RFromIP := sourceIP (RemoteAddr req); RPath := join_path dir c; RAt := now |}).
Proof.
  intros v. unfold receive. pose proof (handlePut_status ok (drop_server dir d) now req w) as Hs.
  destruct (handlePut ok (drop_server dir d) now req w) as [[status [rec|]] w'].
  - right. destruct Hs as (-> & label & name & w1 & Ha & Hd & _ & Hst). split; [done|].
    apply admit_put_Ok in Ha as (_ & (auth & [= <-] & Hl) & Hn & _).
    pose proof (store_body_spec ok (drop_server dir d) now req name label w1) as Hb. rewrite Hst in Hb.
    destruct Hb as (c & Hc & _ & _ & He & ->). rewrite Hd in Hc. split; [done|]. exists name, label, c. eexists. by split_and!.
  - left. destruct Hs as (Hle & Hv & _). split_and!; [lia|done..].
Qed.

(** C8: Only a current peer of the inner mesh can drop a file. Whatever arrives
    at the receive server, in whatever state the daemon then is: a drop is
    accepted only if the daemon holds a mesh handle whose peer list has the
    connection's address; then the inbox has one more file with exactly the bytes
    sent, and the list of incoming files is the record of it - with the label of
    that peer - before the earlier records, of which the ring keeps a bounded
    number. Anything else leaves the inbox's files and the list as they were; in
    particular everything is refused once the handle is gone. *)
Theorem drops_from_peers_only (ok : nat -> bool) (dir : string) (d : Daemon) (now : Z) (req : Request)
    (ring ring' : receivedRing) (w w' : inbox) (status : Z) :
  received_ok ring ->
  receive ok dir d now req (ring, w) = (status, (ring', w')) ->
  received_ok ring' /\
  (dmesh d = None -> status <> 200%Z) /\
  if bool_decide (status = 200%Z)
  then exists rec p, peer_of d (sourceIP (RemoteAddr req)) p /\
    RFrom rec = peer_label p /\ RFromIP rec = IP p /\ RSize rec = Z.of_nat (length (Body req)) /\
    visible (disk w) !! Named (RName rec) = None /\
    visible (disk w') = <[Named (RName rec) := Body req]> (visible (disk w)) /\
    GetIncomingFiles ring' = take (length (rr_buf ring)) (rec :: GetIncomingFiles ring)
  else ring' = ring /\ visible (disk w') = visible (disk w).
Proof.
  intros Hr E. pose proof (receive_cases ok dir d now req ring w) as Hc. rewrite E in Hc.
  destruct Hc as [(Hne & _ & -> & Hv)|(-> & _ & name & label & c & rec & Ha & _ & (_ & Hf & Hv) & -> & Hrec)].
  { split_and!; [done..|]. by rewrite bool_decide_eq_false_2. }
  apply authorizer_peer in Ha as (p & Hp & ->). pose proof Hp as (h & peers & Hh & _ & _ & Hip).
  split_and!; [by apply add_received_ok|congruence|]. rewrite bool_decide_eq_true_2 by done.
  exists rec, p. rewrite Hrec. cbn. split_and!; try done. by apply list_add.
Qed.

(** The list is the most recent transfers, newest first. *)
Lemma received_ring_window capacity recs :
  let cap := Z.to_nat (if (capacity <=? 0)%Z then receivedRingCap else capacity) in
  list_received (foldl (fun r rec => add rec r) (newReceivedRing capacity) recs) = take cap (rev recs).
Proof.
  intros cap. assert (received_ok (newReceivedRing capacity) /\ length (rr_buf (newReceivedRing capacity)) = cap) as [H0 Hc0].
  { unfold received_ok, newReceivedRing. cbn [rr_buf rr_head rr_n]. rewrite length_replicate.
    split_and!; [|lia|done]. destruct (Z.leb_spec capacity 0); unfold receivedRingCap; lia. }
  assert (let r := foldl (fun r rec => add rec r) (newReceivedRing capacity) recs in
    received_ok r /\ length (rr_buf r) = cap /\ list_received r = take cap (rev recs)) as (_ & _ & ?); [|done].
  induction recs as [|rec recs IH] using rev_ind.
  { split_and!; [done..|]. cbn [rev]. by rewrite take_nil. }
  rewrite foldl_app. cbn [foldl]. destruct IH as (Hok & Hc & Hl). split_and!; [by apply add_received_ok| |].
  - cbn [rr_buf add]. by rewrite length_insert.
  - rewrite list_add, Hc, Hl, rev_app_distr by done. destruct cap as [|cap]; [done|]. cbn. f_equal.
    rewrite take_take. f_equal. lia.
Qed.

(** ** The lifecycle *)

(** At most the running server serves. *)
Definition file_loop_ok (l : FileLoop) : Prop :=
  forall id, is_Some (fl_serving l !! id) -> fl_running l = Some id.

Lemma stop_files_ok l : file_loop_ok l -> fl_running (stop_files l) = None /\ fl_serving (stop_files l) = ∅.
Proof.
  intros Hl. assert (fl_running (stop_files l) = None /\ forall id, fl_serving (stop_files l) !! id = None) as [Hr Hs].
  { unfold stop_files, file_loop_ok in *. destruct (fl_running l) as [id|] eqn:E; cbn.
    - split; [done|]. intros id'. destruct (decide (id = id')) as [<-|Hne]; [apply lookup_delete_eq|].
      rewrite lookup_delete_ne by done. apply eq_None_not_Some. intros Hs. specialize (Hl id' Hs). congruence.
    - split; [done|]. intros id'. apply eq_None_not_Some. intros Hs%Hl. congruence. }
  split; [done|]. apply map_eq. intros id. by rewrite Hs, lookup_empty.
Qed.

Lemma none_serving l : fl_running l = None -> fl_serving l = ∅ -> file_loop_ok l.
Proof. intros _ Hs id Hi. rewrite Hs, lookup_empty in Hi. by destruct Hi. Qed.

Lemma reconcile_files_ok binds d l : file_loop_ok l -> file_loop_ok (reconcile_files binds d l).
Proof.
  intros Hl. unfold reconcile_files. destruct (mesh_up d) as [h|].
  2:{ destruct (stop_files_ok l Hl). by apply none_serving. }
  destruct (fl_running l) as [id|] eqn:Er; [done|]. destruct (mesh_local_ip h) as [ip|]; [|done].
  case_bool_decide; [done|]. intros id Hi. cbn in *.
  assert (fl_serving l !! id = None) as Hn.
  { apply eq_None_not_Some. intros Hs%Hl. congruence. }
  destruct (binds _); [|rewrite Hn in Hi; by destruct Hi].
  destruct (decide (fl_next l = id)) as [->|Hne]; [done|]. rewrite lookup_insert_ne, Hn in Hi by done. by destruct Hi.
Qed.

Lemma file_step_ok e l : file_loop_ok l -> file_loop_ok (file_step e l).
Proof.
  intros Hl. destruct e as [binds d|id|]; cbn [file_step].
  - by apply reconcile_files_ok.
  - intros id' Hi. cbn in *. apply lookup_delete_is_Some in Hi as [_ Hi]. by apply Hl.
  - destruct (stop_files_ok l Hl). by apply none_serving.
Qed.

Abbreviation runs_files evs := (foldl (fun l e => file_step e l) file_loop evs).
Lemma runs_files_ok evs : file_loop_ok (runs_files evs).
Proof.
  induction evs as [|e evs IH] using rev_ind; [by apply none_serving|].
  rewrite foldl_app. by apply file_step_ok.
Qed.

(** The receive server follows the mesh. After any sequence of ticks, in any
    states of the daemon, and deaths of servers: at most one server serves; a
    tick that finds no mesh up under a mode that includes it, and the end of the
    loop, leave none; and a tick that starts one binds it to the mesh's own
    address and goatdrop's port, never to all interfaces. *)
Theorem file_server_follows_mesh (evs : list file_event) (binds : string -> bool) (d : Daemon) :
  let l := runs_files evs in
  (forall id1 id2, is_Some (fl_serving l !! id1) -> is_Some (fl_serving l !! id2) -> id1 = id2) /\
  fl_serving (file_step FCtxDone l) = ∅ /\
  let l' := file_step (FTick binds d) l in
  (mesh_up d = None -> fl_serving l' = ∅ /\ fl_running l' = None) /\
  (forall id a, fl_serving l' !! id = Some a -> fl_serving l !! id = Some a \/
     exists h ip, mesh_up d = Some h /\ mesh_local_ip h = Ok ip /\ ip <> "" /\ binds a = true /\
       a = join_host_port ip "51823") /\
  (forall h ip, mesh_up d = Some h -> mesh_local_ip h = Ok ip -> ip <> "" -> fl_running l = None ->
     binds (join_host_port ip "51823") = true -> exists id, fl_serving l' = {[ id := join_host_port ip "51823" ]}).
Proof.
  intros l. pose proof (runs_files_ok evs) as Hl. fold l in Hl. clearbody l. clear evs.
  split; [|split; [|intros l'; unfold l'; clear l'; split_and!]].
  - intros id1 id2 H1 H2. apply Hl in H1, H2. congruence.
  - by apply stop_files_ok.
  - intros Hn. cbn [file_step]. unfold reconcile_files. rewrite Hn. destruct (stop_files_ok l Hl). by split.
  - intros id a. cbn [file_step]. unfold reconcile_files. destruct (mesh_up d) as [h|] eqn:Eu.
    2:{ destruct (stop_files_ok l Hl) as [_ ->]. by rewrite lookup_empty. }
    destruct (fl_running l) as [id'|] eqn:Er; [auto|]. destruct (mesh_local_ip h) as [ip|] eqn:Ei; [|auto].
    case_bool_decide as Hne; [auto|]. cbn. destruct (binds _) eqn:Eb; [|auto].
    intros [[<- <-]|[_ Ha]]%lookup_insert_Some; [right; exists h, ip; by split_and!|by left].
  - intros h ip Eu Ei Hne Er Eb. cbn [file_step]. unfold reconcile_files. rewrite Eu, Er, Ei, bool_decide_eq_false_2 by done.
    change (itoa FileDrop.DefaultPort) with "51823". rewrite Eb. cbn. exists (fl_next l).
    assert (fl_serving l = ∅) as ->; [|by rewrite insert_empty].
    apply map_eq. intros id. rewrite lookup_empty. apply eq_None_not_Some. intros Hs%Hl. congruence.
Qed.

Lemma reconcile_running binds d l id :
  fl_running l = Some id -> is_Some (mesh_up d) -> reconcile_files binds d l = l.
Proof. intros Hr [h Hd]. unfold reconcile_files. by rewrite Hd, Hr. Qed.

(** A server that ended by itself - its listener refused, or a serve error - is
    not started again for as long as the mesh stays up. *)
Lemma dead_server_stays_dead (l : FileLoop) (id : nat) (ticks : list ((string -> bool) * Daemon)) :
  file_loop_ok l -> fl_running l = Some id -> fl_serving l !! id = None ->
  Forall (fun '(_, d) => is_Some (mesh_up d)) ticks ->
  foldl (fun l '(binds, d) => reconcile_files binds d l) l ticks = l /\ fl_serving l = ∅.
Proof.
  intros Hl Hr Hs Hu. split.
  - induction Hu as [|[binds d] ticks Hd _ IH]; [done|]. cbn [foldl]. by rewrite (reconcile_running binds d l id).
  - apply map_eq. intros id'. rewrite lookup_empty. apply eq_None_not_Some. intros Hi.
    pose proof (Hl id' Hi). destruct Hi. congruence.
Qed.

(** A handle replaced between two ticks leaves the server on the old address. *)
Lemma stale_address (l : FileLoop) (id : nat) (a : string) (binds : string -> bool) (d : Daemon) :
  fl_running l = Some id -> fl_serving l !! id = Some a -> is_Some (mesh_up d) ->
  fl_serving (reconcile_files binds d l) !! id = Some a.
Proof. intros Hr Ha Hd. by rewrite (reconcile_running binds d l id). Qed.

(** ** From daemon to daemon *)

(** The network between two nodes: the receiver [d] listens on [addr], and the link
    does with a request what it does; nobody else answers. *)
Definition network (ok : nat -> bool) (dir : string) (d : Daemon) (now : Z) (addr src : string) (l : link)
    (to : string) (req : Request) : state (receivedRing * inbox) (result string Response) := fun s =>
  if bool_decide (to = addr) then over l src (receive ok dir d now) req s else (Err (error_of_link l), s).

(** What the receiver has after a drop was accepted. *)
Definition accepted (dir : string) (d : Daemon) (now : Z) (src : string) (body : chars) (ring : receivedRing) (w : inbox)
    (clean : string) (s' : receivedRing * inbox) : Prop :=
  exists p c, peer_of d (sourceIP src) p /\ stored (visible (disk w)) clean c body (visible (disk s'.2)) /\
    s'.1 = add {| RName := c; RSize := Z.of_nat (length body); RFrom := peer_label p; RFromIP := IP p;
                  RPath := join_path dir c; RAt := now |} ring.
Definition untouched (ring : receivedRing) (w : inbox) (s' : receivedRing * inbox) : Prop :=
  s'.1 = ring /\ visible (disk s'.2) = visible (disk w).

Lemma Send_network ok dir d now addr src l to name body size ring w :
  let '(res, s') := Send (network ok dir d now addr src l) to name body size (ring, w) in
  match res with
  | Ok sr => to = addr /\ safeName name = Ok (SName sr) /\ SSize sr = size /\ accepted dir d now src body ring w (SName sr) s'
  | Err _ => untouched ring w s' \/
      answer_lost l body /\ exists clean, safeName name = Ok clean /\ accepted dir d now src body ring w clean s'
  end.
Proof.
  destruct (decide (to = addr)) as [->|Hne].
  2:{ unfold Send, mbind, action_bind, lift, map_err, network. destruct (safeName name); [|by left].
      unfold run. rewrite bool_decide_eq_false_2 by done. by left. }
  assert (Send (network ok dir d now addr src l) addr name body size (ring, w) =
    Send (fun _ => over l src (receive ok dir d now)) addr name body size (ring, w)) as ->.
  { unfold Send, mbind, action_bind, lift, map_err, network. destruct (safeName name); [|done]. unfold run.
    by rewrite bool_decide_eq_true_2. }
  pose proof (Send_over l src (receive ok dir d now) addr name body size (ring, w) (untouched ring w)
    (accepted dir d now src body ring w) (conj eq_refl eq_refl)) as Hsend.
  destruct (Send _ addr name body size (ring, w)) as [[sr|e] s']; [split; [done|]|]; apply Hsend; clear Hsend.
  all: intros req _ <-; pose proof (receive_cases ok dir d now req ring w) as Hc;
    destruct (receive ok dir d now req (ring, w)) as [status [ring' w']];
    destruct Hc as [(Hne & Hle & -> & Hv)|(-> & He & name' & label & c & rec & Ha & Hn & Hst & -> & ->)]; [by left|right];
    split_and!; [done..|]; intros clean Hcl <-; rewrite Hn in Hcl; injection Hcl as <-;
    apply authorizer_peer in Ha as (p & Hp & ->); exists p, c; split_and!; [done..|];
    destruct Hp as (h & peers & _ & _ & _ & <-); done.
Qed.

(** C9: A file sent through one daemon arrives at the other. Let a daemon [d1]
    carry out [sendFile] over the network to a node whose daemon [d2] serves
    drops, with no other transfer at work there; the network may refuse the
    connection, break it after any number of bytes, and lose the response. If the
    daemon replies, then the peer named in the request - by overlay address or by
    name - is on [d1]'s peer list and its address is the receiver's; the sender is
    on [d2]'s; the receiver's inbox has exactly one more file, with the bytes of
    the local file, under the local file's base name or that name numbered; and
    the receiver's newest incoming-file record describes it. If it fails, the
    receiver's files and records are as they were, or as after a success: but then
    every byte had got through and the response was lost. *)
Theorem sendFile_end_to_end (ok : nat -> bool) (dir : string) (d1 d2 : Daemon) (now : Z) (addr src : string) (l : link)
    (files : string -> local_file) (req : SendFileRequest) (ring ring' : receivedRing) (w w' : inbox)
    (res : result sendfile_error SendFileReply) :
  received_ok ring ->
  SendFile (network ok dir d2 now addr src l) files req d1 (ring, w) = (res, (ring', w')) ->
  let arrived name data := exists q c, peer_of d2 (sourceIP src) q /\
      safeName (path_base (ReqPath req)) = Ok name /\ files (ReqPath req) = Regular data /\
      stored (visible (disk w)) name c data (visible (disk w')) /\
      GetIncomingFiles ring' = take (length (rr_buf ring))
        ({| RName := c; RSize := Z.of_nat (length data); RFrom := peer_label q; RFromIP := IP q;
            RPath := join_path dir c; RAt := now |} :: GetIncomingFiles ring) in
  match res with
  | Ok rep => exists p data,
      peer_of d1 (repToIP rep) p /\ (IP p = ReqPeer req \/ equal_fold (FQDN p) (ReqPeer req) = true) /\
      repToPeer rep = peer_label p /\ addr = join_host_port (IP p) "51823" /\
      repSize rep = Z.of_nat (length data) /\ arrived (repName rep) data
  | Err _ => ring' = ring /\ visible (disk w') = visible (disk w) \/
      exists name data, answer_lost l data /\ arrived name data
  end.
Proof.
  intros Hr. unfold SendFile. destruct (dmesh d1) as [h|] eqn:Eh; [|by intros [= <- <- <-]; left].
  destruct (negb (IncludesNetbird (currentMode d1))); [by intros [= <- <- <-]; left|].
  unfold mbind, action_bind, lift, map_err, with_err. destruct (mesh_peers h) as [peers|] eqn:Ep; [|by intros [= <- <- <-]; left].
  unfold resolvePeer, of_option. destruct (find_first _ peers) as [p|] eqn:Ef; [|by intros [= <- <- <-]; left]. cbn [fmap option_fmap option_map].
  apply find_first_elem in Ef as [Hin Hm].
  unfold FileDrop.SendFile. destruct (files (ReqPath req)) as [| | |data] eqn:El; try by intros [= <- <- <-]; left.
  pose proof (Send_network ok dir d2 now addr src l (PeerAddr (IP p) FileDrop.DefaultPort) (path_base (ReqPath req)) data
                (Z.of_nat (length data)) ring w) as Hs.
  unfold with_err. destruct (Send _ _ _ _ _ _) as [[sr|e] [ring1 w1]]; intros [= <- <- <-].
  - destruct Hs as (<- & Hn & Hsz & q & c & Hq & Hst & Hrec). cbn in Hrec. exists p, data. cbn [repToIP repToPeer repName repSize].
    split_and!; try done.
    + by exists h, peers.
    + apply orb_true_iff in Hm as [Hm|[_ Hm]%andb_true_iff]; [left; by apply bool_decide_eq_true in Hm|by right].
    + exists q, c. rewrite Hrec, list_add by done. by split_and!.
  - destruct Hs as [[H1 H2]|(Hl & clean & Hn & q & c & Hq & Hst & Hrec)]; [by left|right]. cbn in Hrec.
    exists clean, data. split; [done|]. exists q, c. rewrite Hrec, list_add by done. by split_and!.
Qed.
End daemon.

(** ** Two nodes

    Laptops on one mesh that know each other. *)
Module TwoNodes.
Import ToyDaemon.
Definition peer (ip name : string) : PeerStatus :=
  {| IP := ip; PubKey := ""; FQDN := name; Connected := true; Relayed := false; LocalICEType := "";
     RemoteICEType := ""; RelayAddress := ""; LastHandshake := 0; BytesRx := 0; BytesTx := 0; Latency := 0 |}.
Definition node (p : PeerStatus) : Daemon :=
  connected <| dmesh := Some {| fcfg := zero_config; fstate := InnerMesh.StateUp; fclosed := false;
                                fpeers := [p]; failConnects := 0 |} |>.
Definition alpha : Daemon := node (peer "100.92.0.12" "beta.goat").
Definition beta : Daemon := node (peer "100.92.0.11" "").
Definition fine (n : nat) : bool := true.
Definition ring : receivedRing := newReceivedRing 1.
Definition empty : inbox := World ∅ [] 0.
Definition request : Request :=
  {| Method := "PUT"; URLPath := "/put/notes.txt"; RemoteAddr := "100.92.0.11:4242"; ContentLength := 3;
     Body := s2l "new"; BodyEnds := true |}.
Definition received : Z * (receivedRing * inbox) := receive fine "/inbox" beta 7 request (ring, empty).
Definition files (path : string) : local_file :=
  if bool_decide (path = "/tmp/notes.txt") then Regular (s2l "new") else CannotOpen.
Definition to_beta : SendFileRequest := {| ReqPeer := "BETA.goat"; ReqPath := "/tmp/notes.txt" |}.
Definition lan : link :=
  {| connects := true; carries := 3; returns := true; response_text _ := ("200 OK", []); error_of_link := "timeout" |}.
Definition sent : result sendfile_error SendFileReply * (receivedRing * inbox) :=
  SendFile (network fine "/inbox" beta 7 "100.92.0.12:51823" "100.92.0.11:4242" lan) files
    to_beta alpha (ring, empty).

Lemma ring_ok : received_ok ring.
Proof. by vm_compute; split; lia. Qed.

Lemma eta3 {A B D} (p : A * (B * D)) : p = (p.1, (p.2.1, p.2.2)).
Proof. by destruct p as [? []]. Qed.

Lemma drops_from_peers_only_witness :
  received.1 = 200%Z /\ exists p, peer_of beta "100.92.0.11" p.
Proof.
  assert (received.1 = 200%Z) as H1 by (vm_compute; reflexivity). split; [exact H1|].
  destruct (drops_from_peers_only fine "/inbox" beta 7 request ring received.2.1 empty received.2.2 received.1 ring_ok
              (eta3 received)) as (_ & _ & Hb).
  rewrite bool_decide_eq_true_2 in Hb by exact H1. destruct Hb as (rec & p & Hp & _). exists p. exact Hp.
Defined.

Lemma sendFile_end_to_end_witness :
  is_ok sent.1 = true /\ exists p q, peer_of alpha "100.92.0.12" p /\ peer_of beta "100.92.0.11" q.
Proof.
  assert (is_ok sent.1 = true) as H1 by (vm_compute; reflexivity).
  assert (match sent.1 with Ok rep => repToIP rep | Err _ => "" end = "100.92.0.12") as H2 by (vm_compute; reflexivity).
  split; [exact H1|].
  pose proof (sendFile_end_to_end fine "/inbox" alpha beta 7 "100.92.0.12:51823" "100.92.0.11:4242" lan files to_beta ring sent.2.1
                empty sent.2.2 sent.1 ring_ok (eta3 sent)) as H.
  revert H1 H2 H. generalize sent.1. intros [rep|e] H1 H2 H; [|discriminate H1].
  destruct H as (p & data & Hp & _ & _ & _ & _ & q & c & Hq & _).
  rewrite H2 in Hp. exists p, q. split; [exact Hp|exact Hq].
Defined.
End TwoNodes.
