(* ===== verification/DaemonPeers.v ===== *)
(** Live latency in the daemon: the loop of runPeerConn and GetPeerConnectivity
    (internal/daemon/daemon.go).

    [PeerConn] is peerConnController: what the loop needs of the peer-ping
    subsystem, which PeerPing.v's manager implements. *)
From stdpp Require Import base tactics list gmap fin_sets fin_map_dom strings.
From Stdlib Require Import ZArith Ascii Lia.
From S2P Require Import DnsAdapter.
From S2P Require Import Prelude GoStr Fs.
From S2P Require Import Mode.
From S2P Require Import Bundle.
From S2P Require Import Profile.
From S2P Require Import PeerPing.
From S2P Require Import Tunnel.
From S2P Require Import InnerMesh.
From S2P Require Import Ipc.
From S2P Require Import FileDrop.
From S2P Require Import Daemon.
From S2P Require Import DaemonSpec.
From S2P Require Import DaemonFiles.
Local Open Scope list_scope.

(** The addresses [SetTargets] measures. *)
Definition target_ips (ts : list Target) : gset string := list_to_set (filter (fun ip => ip <> "") (TIP <$> ts)).

(** [pc_new]: made by the factory, [pc_ready]: started and not stopped,
    [pc_live]: holds a socket or a running sampler. *)
Class PeerConn := {
  pctl : Type;
  pc_factory : string -> pctl;
  pc_start : action pctl start_error unit;
  pc_set_targets : list Target -> pctl -> pctl;
  pc_snapshot : pctl -> gmap string PeerPing.Stats;
  pc_stop : pctl -> pctl;
  pc_ready : pctl -> Prop;
  pc_live : pctl -> Prop;
  pc_measures : pctl -> gset string;
  pc_start_ready b c : pc_start (pc_factory b) = (Ok tt, c) -> pc_ready c;
  pc_start_fails b e c : pc_start (pc_factory b) = (Err e, c) -> ~ pc_live c;
  pc_targets_ready ts c : pc_ready c -> pc_ready (pc_set_targets ts c);
  pc_targets_exact ts c : pc_ready c -> pc_measures (pc_set_targets ts c) = target_ips ts;
  pc_snapshot_measures c : dom (pc_snapshot c) = pc_measures c;
  pc_stop_ends c : pc_ready c -> ~ pc_live (pc_stop c) }.

(** ** The manager is one *)
Lemma dom_measured ts (m' : PeerPing.Manager) :
  (forall ip, is_Some (mPeers m' !! ip) <-> ip <> "" /\ exists t, t ∈ ts /\ TIP t = ip) ->
  dom (mPeers m') = target_ips ts.
Proof.
  intros Hp. apply set_eq. intros ip. unfold target_ips.
  rewrite elem_of_dom, Hp, elem_of_list_to_set, list_elem_of_filter, list_elem_of_fmap. naive_solver.
Qed.

(** [binds] says on which addresses the responder can listen. *)
#[export, refine] Instance manager_conn (history : Z) (binds : string -> bool) : PeerConn := {|
  pctl := string * PeerPing.Manager;
  pc_factory b := (b, PeerPing.NewManager history);
  pc_start := fun '(b, m) =>
    let '(r, m') := Start (if bool_decide (b = "") then None else Some (binds b)) m in (r, (b, m'));
  pc_set_targets ts '(b, m) := (b, SetTargets ts m);
  pc_snapshot '(b, m) := Snapshot m;
  pc_stop '(b, m) := (b, PeerPing.Stop m);
  pc_ready '(b, m) := manager_ok m /\ mStarted m = true /\ mStopped m = false;
  pc_live '(b, m) := mConn m = true \/ running m <> ∅;
  pc_measures '(b, m) := dom (mPeers m) |}.
Proof.
  - intros b [b' m]. unfold Start. cbn. destruct (if bool_decide (b = "") then _ else _) as [[]|]; [|done|];
      intros [= <- <-]; (split; [|done]); split_and!; intros *; cbn; rewrite lookup_empty; discriminate.
  - intros b e [b' m]. unfold Start. cbn. destruct (if bool_decide (b = "") then _ else _) as [[]|]; [done| |done].
    intros [= _ <- <-]. cbn. by intros [|].
  - intros ts [b m] (H1 & H2 & H3). destruct (SetTargets_ok ts m H1 H2 H3) as (H1' & _ & _ & H3' & H2'). done.
  - intros ts [b m] (H1 & H2 & H3). destruct (SetTargets_ok ts m H1 H2 H3) as (_ & Hp & _). by apply dom_measured.
  - intros [b m]. unfold Snapshot. apply dom_fmap_L.
  - intros [b m] (H1 & H2 & H3). destruct (Stop_clean m H1 H3) as (Hr & _). intros [Hc|Hn]; [|done].
    unfold PeerPing.Stop in Hc. by rewrite H3 in Hc.
Defined.

(** ** The loop *)
Section loop.
Context {K : BundleCodec} {C : Crypto} {J : RawJson} {N : NetipLib} {U : NetText} {H : HostDNS}
  {T : TunnelManager} {M : Mesh} {P : PeerConn}.

(** [pl_ctrl] is [ctrl] and, set together with it, d.peerConn. [pl_gone] are the
    controllers made and let go, [pl_tries] the addresses [Start] was tried with. *)
Record PeerLoop := {
  pl_ctrl : option pctl;
  pl_failedBind : string;
  pl_gone : list pctl;
  pl_tries : list string }.
Definition peer_loop : PeerLoop := {| pl_ctrl := None; pl_failedBind := ""; pl_gone := []; pl_tries := [] |}.

Definition stop_peers (l : PeerLoop) : PeerLoop :=
  {| pl_ctrl := None; pl_failedBind := ""; pl_gone := option_list (pc_stop <$> pl_ctrl l) ++ pl_gone l;
     pl_tries := pl_tries l |}.

Definition bind_addr (h : mesh) : string :=
  match mesh_local_ip h with
  | Ok localIP => if bool_decide (localIP = "") then "" else join_host_port localIP (itoa PeerPing.DefaultPort)
  | Err _ => ""
  end.

(** The block [if ctrl == nil]; [None] as controller: the tick returns there. *)
Definition ensure_ctrl (h : mesh) (l : PeerLoop) : PeerLoop * option pctl :=
  match pl_ctrl l with
  | Some c => (l, Some c)
  | None =>
    let bind := bind_addr h in
    if negb (bool_decide (bind = "")) && bool_decide (bind = pl_failedBind l) then (l, None)
    else
      match pc_start (pc_factory bind) with
      | (Err _, c) => ({| pl_ctrl := None; pl_failedBind := bind; pl_gone := c :: pl_gone l;
                          pl_tries := bind :: pl_tries l |}, None)
      | (Ok _, c) => ({| pl_ctrl := Some c; pl_failedBind := ""; pl_gone := pl_gone l;
                         pl_tries := bind :: pl_tries l |}, Some c)
      end
  end.

Definition targets_of (peers : list PeerStatus) : list Target :=
  (fun p => {| TIP := IP p; TPort := 0 |}) <$> filter (fun p => IP p <> "") peers.

Definition reconcile_peers (d : Daemon) (l : PeerLoop) : PeerLoop :=
  match mesh_up d with
  | None => stop_peers l
  | Some h =>
    match ensure_ctrl h l with
    | (l, None) => l
    | (l, Some c) =>
      match mesh_peers h with
      | Err _ => l
      | Ok peers => {| pl_ctrl := Some (pc_set_targets (targets_of peers) c); pl_failedBind := pl_failedBind l;
                       pl_gone := pl_gone l; pl_tries := pl_tries l |}
      end
    end
  end.

(** ** The connectivity panel *)

(** The round-trip times are durations here; the wire has them as fractional
    milliseconds, and the loss as a percentage. *)
Record PeerConnectivity := {
  cIP : string;
  cFQDN : string;
  cPubKey : string;
  cConnected : bool;
  cPath : string;
  cLocalICEType : string;
  cRemoteICEType : string;
  cRelayAddress : string;
  cLastHandshake : Z;
  cBytesRx : Z;
  cBytesTx : Z;
  cRTT : option PeerPing.Stats }.

(** [cRTT]: the statistics when [Measured]. *)
Definition connectivity_line (rtt : gmap string PeerPing.Stats) (p : PeerStatus) : PeerConnectivity :=
  {| cIP := IP p; cFQDN := FQDN p; cPubKey := PubKey p; cConnected := InnerMesh.Connected p;
     cPath := InnerMesh.Path p; cLocalICEType := LocalICEType p; cRemoteICEType := RemoteICEType p;
     cRelayAddress := RelayAddress p; cLastHandshake := LastHandshake p; cBytesRx := BytesRx p; cBytesTx := BytesTx p;
     cRTT := st ← rtt !! IP p; if 0 <? PeerPing.SN st then Some st else None |}.

Definition GetPeerConnectivity (src : option pctl) (d : Daemon) : result mesh_error (list PeerConnectivity) :=
  match dmesh d with
  | None => Ok []
  | Some h =>
    if negb (IncludesNetbird (currentMode d)) then Ok []
    else
      match mesh_peers h with
      | Err e => Err e
      | Ok peers => Ok (connectivity_line (match src with Some c => pc_snapshot c | None => ∅ end) <$> peers)
      end
  end.

(** ** Theorems *)

(** Everything made was stopped or is the controller in use. *)
Definition peer_loop_ok (l : PeerLoop) : Prop :=
  (forall c, pl_ctrl l = Some c -> pc_ready c) /\ Forall (fun c => ~ pc_live c) (pl_gone l).

Lemma stop_peers_ok l : peer_loop_ok l -> peer_loop_ok (stop_peers l).
Proof.
  intros [H1 H2]. split; [done|]. cbn. apply Forall_app. split; [|done].
  destruct (pl_ctrl l) as [c|]; cbn; [|done]. constructor; [|done]. apply pc_stop_ends. by apply H1.
Qed.

Lemma ensure_ctrl_ok h l :
  peer_loop_ok l -> let '(l', c) := ensure_ctrl h l in
  peer_loop_ok l' /\ pl_ctrl l' = c /\ (pl_tries l' = pl_tries l \/ pl_tries l' = bind_addr h :: pl_tries l).
Proof.
  intros [H1 H2]. unfold ensure_ctrl. destruct (pl_ctrl l) as [c|] eqn:Ec; [split_and!; [by split; rewrite ?Ec|done|auto]|].
  destruct (_ && _); [split_and!; [by split; rewrite ?Ec|done|auto]|].
  destruct (pc_start (pc_factory (bind_addr h))) as [[[]|e] c] eqn:Es; split_and!; cbn; auto; split; cbn; auto.
  - intros c' [= <-]. by eapply pc_start_ready.
  - constructor; [by eapply pc_start_fails|done].
Qed.

Lemma reconcile_peers_ok d l : peer_loop_ok l -> peer_loop_ok (reconcile_peers d l).
Proof.
  intros Hl. unfold reconcile_peers. destruct (mesh_up d) as [h|]; [|by apply stop_peers_ok].
  pose proof (ensure_ctrl_ok h l Hl) as He. destruct (ensure_ctrl h l) as [l' [c|]]; [|by destruct He].
  destruct He as ([H1 H2] & Hc & _). destruct (mesh_peers h); [|done]. split; [|done]. cbn. intros c' [= <-].
  by apply pc_targets_ready, H1.
Qed.

Abbreviation runs_peers ds := (foldl (fun l d => reconcile_peers d l) peer_loop ds).
Lemma runs_peers_ok ds : peer_loop_ok (runs_peers ds).
Proof.
  induction ds as [|d ds IH] using rev_ind; [by split|]. rewrite foldl_app. by apply reconcile_peers_ok.
Qed.

Lemma elem_of_targets ip peers : ip ∈ target_ips (targets_of peers) <-> ip <> "" /\ exists p, p ∈ peers /\ IP p = ip.
Proof.
  unfold target_ips, targets_of. rewrite elem_of_list_to_set, list_elem_of_filter. split.
  - intros (Hne & ([ip' port] & -> & (p & [= -> ->] & [_ Hp]%list_elem_of_filter)%list_elem_of_fmap)%list_elem_of_fmap).
    cbn in *. eauto.
  - intros (Hne & p & Hp & <-). split; [done|]. apply list_elem_of_fmap. exists {| TIP := IP p; TPort := 0 |}.
    split; [done|]. apply list_elem_of_fmap. exists p. split; [done|]. by apply list_elem_of_filter.
Qed.

Lemma ensure_ctrl_failed h l :
  pl_ctrl l = None -> pl_failedBind l <> "" -> bind_addr h = pl_failedBind l -> ensure_ctrl h l = (l, None).
Proof.
  intros Hc Hf Hb. unfold ensure_ctrl. rewrite Hc, Hb, bool_decide_eq_false_2, bool_decide_eq_true_2 by done. done.
Qed.

(** The latency subsystem follows the mesh. After any sequence of ticks, in any
    states of the daemon: every controller that was made and is not in use holds
    no socket and runs no sampler; a tick without a mesh that is up under a mode
    that includes it leaves no controller at all and forgets the failed bind; a
    tick with one that has a controller measures exactly the non-empty addresses
    of the peers it was given; and an address that could not be bound is not
    tried again while the mesh stays up on it, however many ticks pass. *)
Theorem peer_probes_follow_mesh (ds : list Daemon) (d : Daemon) :
  let l := runs_peers ds in
  let l' := reconcile_peers d l in
  Forall (fun c => ~ pc_live c) (pl_gone l') /\
  (mesh_up d = None -> pl_ctrl l' = None /\ pl_failedBind l' = "" /\
     forall c, pl_ctrl l = Some c -> pc_stop c ∈ pl_gone l') /\
  (forall h peers c, mesh_up d = Some h -> mesh_peers h = Ok peers -> pl_ctrl l' = Some c ->
     pc_ready c /\ forall ip, ip ∈ pc_measures c <-> ip <> "" /\ exists p, p ∈ peers /\ IP p = ip) /\
  (forall ds', pl_ctrl l = None -> pl_failedBind l <> "" ->
     Forall (fun d => exists h, mesh_up d = Some h /\ bind_addr h = pl_failedBind l) ds' ->
     foldl (fun l d => reconcile_peers d l) l ds' = l).
Proof.
  intros l l'. pose proof (runs_peers_ok ds) as Hl. fold l in Hl. unfold l'. clearbody l. clear ds l'. split_and!.
  - by apply reconcile_peers_ok.
  - intros Hn. unfold reconcile_peers. rewrite Hn. cbn. split_and!; [done..|]. intros c ->. left.
  - intros h peers c Hu Hp Hc. pose proof (reconcile_peers_ok d l Hl) as [Hr _]. specialize (Hr c Hc). split; [done|].
    unfold reconcile_peers in Hc. rewrite Hu in Hc. pose proof (ensure_ctrl_ok h l Hl) as He.
    destruct (ensure_ctrl h l) as [l1 [c1|]]; destruct He as ([He _] & Hc1 & _); [|congruence].
    rewrite Hp in Hc. cbn in Hc. injection Hc as <-. intros ip. rewrite pc_targets_exact by (by apply He).
    apply elem_of_targets.
  - intros ds' Hc Hf Hds. induction Hds as [|d' ds' (h & Hu & Hb) _ IH]; [done|]. cbn [foldl].
    assert (reconcile_peers d' l = l) as ->; [|done]. unfold reconcile_peers. by rewrite Hu, ensure_ctrl_failed.
Qed.

(** The panel shows each peer once and no latency that was not measured. When
    the daemon answers, the lines are the current peers of the mesh in order (none
    without a mesh or under a mode without it), each with its own identity and
    badge; a line has round-trip figures exactly when the running subsystem has a
    sample for that address, and then those figures; an address that is not
    measured, or a subsystem that is down, shows none. *)
Theorem connectivity_lines (src : option pctl) (d : Daemon) (lines : list PeerConnectivity) :
  GetPeerConnectivity src d = Ok lines ->
  exists peers, length lines = length peers /\
    (match dmesh d with
     | Some h => if IncludesNetbird (currentMode d) then mesh_peers h = Ok peers else peers = []
     | None => peers = []
     end) /\
    forall i p, peers !! i = Some p -> exists line, lines !! i = Some line /\
      cIP line = IP p /\ cPubKey line = PubKey p /\ cConnected line = InnerMesh.Connected p /\
      cPath line = (if Relayed p then "relayed" else "direct") /\
      forall st, cRTT line = Some st <->
        0 < PeerPing.SN st /\ exists c, src = Some c /\ pc_snapshot c !! IP p = Some st.
Proof.
  unfold GetPeerConnectivity. destruct (dmesh d) as [h|]; [|by intros [= <-]; exists []].
  destruct (IncludesNetbird (currentMode d)); cbn [negb]; [|by intros [= <-]; exists []].
  destruct (mesh_peers h) as [peers|]; [|done]. intros [= <-]. exists peers. split_and!; [by rewrite length_fmap|done|].
  intros i p Hp. eexists. split; [by rewrite list_lookup_fmap, Hp|]. split_and!; [done..|]. cbn [cRTT connectivity_line].
  intros st. destruct src as [c|].
  - destruct (pc_snapshot c !! IP p) as [st'|] eqn:E; cbn [mbind option_bind].
    + destruct (Nat.ltb_spec 0 (PeerPing.SN st')).
      { split; [intros [= <-]; eauto|]. intros (_ & c' & [= <-] & ?). congruence. }
      split; [done|]. intros (Hn & c' & [= <-] & Hs).
      simplify_eq. lia.
    + split; [done|]. intros (_ & c' & [= <-] & ?). congruence.
  - rewrite lookup_empty. cbn. split; [done|]. by intros (_ & c & ? & _).
Qed.

(** A mesh that is up before its address is known leaves a controller without a
    responder, which stays for as long as the mesh is up. *)
Lemma no_responder_sticks (l : PeerLoop) (c : pctl) (d : Daemon) (h : mesh) :
  pl_ctrl l = Some c -> mesh_up d = Some h ->
  pl_tries (reconcile_peers d l) = pl_tries l /\ is_Some (pl_ctrl (reconcile_peers d l)).
Proof.
  intros Hc Hu. unfold reconcile_peers, ensure_ctrl. rewrite Hu, Hc. destruct (mesh_peers h); cbn; [|by rewrite Hc]; eauto.
Qed.
End loop.
