(* ===== verification/DaemonIpc.v ===== *)
(** The daemon behind its control channel: the methods of ipc.Handler
    (internal/daemon/daemon.go, filedrop.go) served by the dispatcher of Ipc.v.

    [Host] is what a call works on: the daemon, the ring of received files, the
    controller the latency loop published, the diagnostic ring and, for
    [sendFile], the outside world. *)
From stdpp Require Import base tactics list gmap strings.
From Stdlib Require Import ZArith Ascii Lia.
From S2P Require Import DnsAdapter.
From S2P Require Import Prelude GoStr Fs.
From S2P Require Import Mode.
From S2P Require Import Bundle.
From S2P Require Import Profile.
From S2P Require Import ProfileSpec.
From S2P Require Import PeerPing.
From S2P Require Import Tunnel.
From S2P Require Import InnerMesh.
From S2P Require Import FileDrop.
From S2P Require Import Ipc.
From S2P Require Import Daemon.
From S2P Require Import DaemonSpec.
From S2P Require Import DaemonFiles.
From S2P Require Import DaemonPeers.
Local Open Scope list_scope.

(** ** The diagnostic ring

    [logf] writes a line; GetDiagnostics reads from the oldest slot. *)
Record LogRing := { logTail : list string; logIdx : nat }.

(** cfg.LogTailSize after the default of [New]. *)
Definition logTailSize (n : Z) : nat := if (n <=? 0)%Z then 256 else Z.to_nat n.
Definition newLogRing (n : Z) : LogRing := {| logTail := replicate (logTailSize n) ""; logIdx := 0 |}.

Definition logf (line : string) (r : LogRing) : LogRing :=
  {| logTail := <[logIdx r := line]> (logTail r); logIdx := (logIdx r + 1) mod length (logTail r) |}.

Definition log_tail (r : LogRing) : list string :=
  filter (fun e => e <> "") ((fun i => nth ((logIdx r + i) mod length (logTail r)) (logTail r) "") <$> seq 0 (length (logTail r))).

Definition log_ok (r : LogRing) : Prop := logIdx r < length (logTail r).

(** The slots from the oldest to the newest. *)
Definition slots (r : LogRing) : list string :=
  (fun i => newest "" (logTail r) (logIdx r) i) <$> reverse (seq 0 (length (logTail r))).

Lemma log_tail_slots r : log_ok r -> log_tail r = filter (fun e => e <> "") (slots r).
Proof.
  intros Hr. unfold log_tail, slots. f_equal. apply list_eq. intros i. rewrite !list_lookup_fmap.
  destruct (Nat.lt_ge_cases i (length (logTail r))) as [Hi|Hi].
  - rewrite lookup_seq_lt, reverse_lookup by (rewrite ?length_seq; lia). rewrite length_seq, lookup_seq_lt by lia. cbn.
    f_equal. unfold newest. f_equal. unfold log_ok in Hr.
    rewrite !mod_once by lia. repeat match goal with |- context [?a <? ?b] => destruct (Nat.ltb_spec a b) end; lia.
  - rewrite !lookup_ge_None_2; [done|rewrite length_reverse, length_seq; lia|rewrite length_seq; lia].
Qed.

Lemma slots_lookup r i :
  slots r !! i = if i <? length (logTail r) then Some (newest "" (logTail r) (logIdx r) (length (logTail r) - S i)) else None.
Proof.
  unfold slots. rewrite list_lookup_fmap. destruct (Nat.ltb_spec i (length (logTail r))).
  - by rewrite reverse_lookup, length_seq, lookup_seq_lt by (rewrite ?length_seq; lia).
  - rewrite lookup_ge_None_2; [done|]. rewrite length_reverse, length_seq. lia.
Qed.

Lemma slots_logf line r : log_ok r -> slots (logf line r) = drop 1 (slots r) ++ [line].
Proof.
  intros Hr. unfold log_ok in Hr. assert (length (slots r) = length (logTail r)) as Hlen
    by (unfold slots; by rewrite length_fmap, length_reverse, length_seq).
  apply list_eq. intros i. rewrite slots_lookup. cbn [logTail logIdx logf]. rewrite length_insert.
  destruct (Nat.ltb_spec i (length (logTail r))) as [Hi|Hi].
  - rewrite newest_push by lia. destruct (decide (S i = length (logTail r))) as [E|E].
    + rewrite E, Nat.sub_diag, lookup_app_r, length_drop, Hlen by (rewrite length_drop; lia).
      by replace (i - (length (logTail r) - 1)) with 0 by lia.
    + rewrite lookup_app_l by (rewrite length_drop; lia). rewrite lookup_drop, slots_lookup.
      destruct (Nat.ltb_spec (1 + i) (length (logTail r))); [|lia].
      by replace (length (logTail r) - S i) with (S (length (logTail r) - S (1 + i))) by lia.
  - rewrite lookup_ge_None_2; [done|]. rewrite length_app, length_drop. cbn [length]. lia.
Qed.

Lemma logf_ok line r : log_ok r -> log_ok (logf line r).
Proof. unfold log_ok. cbn [logTail logIdx logf]. rewrite length_insert. intros H. apply Nat.mod_upper_bound. lia. Qed.

Lemma filter_nonempty (l : list string) : Forall (fun e => e <> "") l -> filter (fun e => e <> "") l = l.
Proof. induction 1 as [|e l He _ IH]; [done|]. by rewrite filter_cons_True, IH. Qed.

Lemma lastn_snoc {A} n (l : list A) x : 0 < n -> n <= length l -> lastn n (l ++ [x]) = drop 1 (lastn n l) ++ [x].
Proof.
  intros H0 Hn. unfold lastn. rewrite drop_drop, length_app. cbn [length].
  rewrite drop_app_le by lia. do 2 f_equal. lia.
Qed.

(** The diagnostics show the most recent lines, oldest first. *)
Lemma log_ring_window n lines :
  Forall (fun l => l <> "") lines ->
  log_tail (foldl (fun r l => logf l r) (newLogRing n) lines) = lastn (logTailSize n) lines.
Proof.
  intros Hl. set (r0 := newLogRing n).
  assert (0 < logTailSize n) as Hpos by (unfold logTailSize; destruct (Z.leb_spec n 0); lia).
  assert (log_ok r0 /\ slots r0 = replicate (logTailSize n) "") as [H0 Hs0].
  { unfold r0, newLogRing. split; [unfold log_ok; cbn [logTail logIdx]; by rewrite length_replicate|].
    apply list_eq. intros i. rewrite slots_lookup. cbn [logTail logIdx]. rewrite length_replicate. destruct (Nat.ltb_spec i (logTailSize n)).
    - rewrite lookup_replicate_2 by done. unfold newest. rewrite length_replicate.
      f_equal. rewrite nth_lookup. destruct (replicate _ _ !! _) eqn:E; [|done]. by apply lookup_replicate in E as [-> _].
    - symmetry. by apply lookup_replicate_None. }
  set (r := foldl (fun r l => logf l r) r0 lines).
  assert (log_ok r /\ slots r = lastn (logTailSize n) (replicate (logTailSize n) "" ++ lines)) as [Hok Hs].
  { unfold r. clear r Hl. induction lines as [|l lines IH] using rev_ind.
    - rewrite app_nil_r. unfold lastn. rewrite length_replicate, Nat.sub_diag. by split.
    - rewrite foldl_app. cbn [foldl]. destruct IH as [Hok Hs]. split; [by apply logf_ok|].
      rewrite slots_logf, Hs, app_assoc, lastn_snoc by (rewrite ?length_app, ?length_replicate; lia || done). done. }
  rewrite log_tail_slots, Hs by done. unfold lastn. rewrite length_app, length_replicate.
  destruct (Nat.le_gt_cases (logTailSize n) (length lines)) as [Hle|Hgt].
  - rewrite drop_app_ge by (rewrite length_replicate; lia). rewrite length_replicate.
    replace (logTailSize n + length lines - logTailSize n - logTailSize n) with (length lines - logTailSize n) by lia.
    by apply filter_nonempty, Forall_drop.
  - rewrite drop_app_le by (rewrite length_replicate; lia). rewrite filter_app.
    replace (length lines - logTailSize n) with 0 by lia. cbn [drop].
    rewrite drop_replicate. induction (logTailSize n - _) as [|k IH]; [by apply filter_nonempty|done].
Qed.

(** ** What a read-only method may change

    The counters the tunnel device reports may be cached, and reading the store
    counts calls: nothing the daemon acts on. *)
Section observes.
Context {K : BundleCodec} {C : Crypto} {J : RawJson} {N : NetipLib} {U : NetText} {H : HostDNS}
  {T : TunnelManager} {M : Mesh}.

Record observes (d d' : Daemon) : Prop := {
  ob_mode : currentMode d' = currentMode d;
  ob_override : rosenpassOverride d' = rosenpassOverride d;
  ob_names : namesSvc d' = namesSvc d;
  ob_bundle : currentBundle d' = currentBundle d;
  ob_slug : currentSlug d' = currentSlug d;
  ob_manager : t_state (manager d') = t_state (manager d);
  ob_mesh : dmesh d' = dmesh d;
  ob_wanted : meshWanted d' = meshWanted d;
  ob_host : host d' = host d;
  ob_connect : lastConnect d' = lastConnect d;
  ob_err : Daemon.lastErr d' = Daemon.lastErr d;
  ob_dns : lastDNS d' = lastDNS d;
  ob_cfg : persistedCfg d' = persistedCfg d;
  ob_store : visible (disk (store d')) = visible (disk (store d));
  ob_file : config_file d' = config_file d;
  ob_dropped : dropped d' = dropped d }.

#[export] Instance observes_equiv : Equivalence observes.
Proof.
  split.
  - intros d. by split.
  - intros d1 d2 []. by split.
  - intros d1 d2 d3 [] []. by split; etrans.
Qed.
#[export] Instance observes_pre : PreOrder observes.
Proof. split; apply _. Qed.

Lemma observes_stats : within observes (on manager t_stats).
Proof. apply within_on. intros d. split; try done. apply t_stats_state. Qed.

Lemma store_visible_idem (d : pdisk) : visible (visible d) = visible d.
Proof. apply map_eq. intros [n|k]; [by rewrite !visible_lookup|]. by rewrite !visible_temp. Qed.

Lemma observes_store {A} (m : action pworld profile_error A) :
  (forall I : pdisk -> Prop, on_visible I -> hoare I m (fun _ => True)) -> within observes (on store m).
Proof.
  intros Hm. apply within_on. intros d. split; try done. cbn.
  set (I := fun x : pdisk => visible x = visible (disk (store d))).
  destruct (Hm I) with (w := store d) as (_ & Hd & _); [|done|exact Hd].
  intros x. unfold I. by rewrite store_visible_idem.
Qed.
Lemma observes_List env : within observes (on store (Profile.List (store_ok env))).
Proof. apply observes_store. intros I HI. by apply keeps_List. Qed.
End observes.
#[export] Hint Resolve observes_stats observes_List : within.

(** ** The handler *)
Section host.
Context {K : BundleCodec} {C : Crypto} {J : RawJson} {N : NetipLib} {U : NetText} {H : HostDNS}
  {T : TunnelManager} {M : Mesh} {P : PeerConn}.
Context (platform : os) (meshFactory : mesh) (cfg : Config).

(** [envs i] is the environment of the i-th call. [do_request] sends a file's
    request into the outside world [W], [files] is what local paths hold. *)
Context (envs : nat -> Env) {W : Type} (do_request : string -> Request -> state W (result string Response))
  (files : string -> local_file) (names_status : NamesSvc -> NamesSnapshot).

Record Host := mkHost {
  daemon : Daemon;
  received : receivedRing;
  peerConn : option pctl;
  logs : LogRing;
  calls : nat;
  outside : W }.

(** What a method returns beside its error, and fillResult marshals: the reply
    struct of its signature, with a tag for which one it is; durations and
    instants stand for their wire formats. *)
Record DiagnosticsReply := {
  dgLogTail : list string;
  dgLastConnectAttempt : Z;
  dgLastError : option daemon_error }.

Inductive reply_data :=
  | REmpty
  | RImportBundle (r : ImportBundleReply)
  | RStatus (r : StatusReply)
  | RDiagnostics (r : DiagnosticsReply)
  | RMode (m : Mode)
  | RSetMode (prev m : Mode)
  | RSetRosenpass (prev now : rosenpassIntent)
  | RInnerMesh (s : InnerMeshSnapshot)
  | RPeers (l : list PeerConnectivity)
  | RFiles (l : list Received)
  | RSendFile (r : SendFileReply)
  | RInnerDiagnostics (l : list chars)
  | RProfiles (l : list Info)
  | RAddProfile (i : Info) (prev : string)
  | RProfile (i : Info)
  | RSetActive (prev : string) (i : Info)
  | RActive (i : option Info) (any : bool).

(** The errors of the handlers; encoding/json for the replies, and the wording of
    the errors' messages. *)
Inductive handler_error := HDaemon (e : daemon_error) | HSend (e : sendfile_error) | HPeers (e : mesh_error).
Class ReplyText := {
  reply_json : reply_data -> result string chars;
  error_text : handler_error -> string }.
Context {X : ReplyText}.

Definition reply_of {E A} (t : E -> handler_error) (f : A -> reply_data) (r : result E A) : result string reply_data :=
  match r with Ok a => Ok (f a) | Err e => Err (error_text (t e)) end.

(** A method that works on the daemon. *)
Definition on_daemon {A} (f : A -> reply_data) (m : Env -> action Daemon daemon_error A) : action Host string reply_data := fun h =>
  let '(r, d) := m (envs (calls h)) (daemon h) in
  (reply_of HDaemon f r, mkHost d (received h) (peerConn h) (logs h) (S (calls h)) (outside h)).

(** A method that only reads. *)
Definition reading {E} (t : E -> handler_error) (f : Host -> result E reply_data) : action Host string reply_data := fun h =>
  (reply_of t id (f h), mkHost (daemon h) (received h) (peerConn h) (logs h) (S (calls h)) (outside h)).

Definition GetDiagnostics (h : Host) : DiagnosticsReply :=
  {| dgLogTail := log_tail (logs h); dgLastConnectAttempt := lastConnect (daemon h);
     dgLastError := Daemon.lastErr (daemon h) |}.

Definition send_file (r : SendFileRequest) : action Host string reply_data := fun h =>
  let '(res, w) := SendFile do_request files r (daemon h) (outside h) in
  (reply_of HSend RSendFile res, mkHost (daemon h) (received h) (peerConn h) (logs h) (S (calls h)) w).

Abbreviation answer x := (reading HDaemon (fun h => Ok (x h))).

Definition invoke_daemon (c : Ipc.call) : action Host string reply_data :=
  match c with
  | CImportBundle r => on_daemon RImportBundle (fun env => ImportBundle platform cfg env r)
  | CGetStatus => on_daemon RStatus (fun _ => GetStatus cfg names_status)
  | CConnect => on_daemon (fun _ => REmpty) (fun env => Connect platform meshFactory cfg env)
  | CDisconnect => on_daemon (fun _ => REmpty) (fun _ => Disconnect)
  | CGetDiagnostics => answer (fun h => RDiagnostics (GetDiagnostics h))
  | CGetMode => answer (fun h => RMode (GetMode (daemon h)))
  | CSetMode r => on_daemon (fun '(p, m) => RSetMode p m) (fun env => SetMode platform meshFactory cfg env r)
  | CSetRosenpass r => on_daemon (fun '(p, n) => RSetRosenpass p n) (fun env => SetRosenpass cfg env r)
  | CGetInnerMeshStatus => answer (fun h => RInnerMesh (GetInnerMeshStatus cfg (daemon h)))
  | CGetPeerConnectivity =>
    reading HPeers (fun h => match GetPeerConnectivity (peerConn h) (daemon h) with Ok l => Ok (RPeers l) | Err e => Err e end)
  | CGetIncomingFiles => answer (fun h => RFiles (GetIncomingFiles (received h)))
  | CSendFile r => send_file r
  | CSetInnerMeshProfile r => on_daemon (fun _ => REmpty) (fun _ => SetInnerMeshProfile cfg r)
  | CEnableInnerMesh => on_daemon (fun _ => REmpty) (fun _ => EnableInnerMesh)
  | CDisableInnerMesh => on_daemon (fun _ => REmpty) (fun _ => DisableInnerMesh)
  | CGetInnerMeshDiagnostics => answer (fun h => RInnerDiagnostics (GetInnerMeshDiagnostics (daemon h)))
  | CListProfiles => on_daemon RProfiles (fun env => ListProfiles env)
  | CAddProfile r => on_daemon (fun '(i, p) => RAddProfile i p) (fun env => AddProfile platform meshFactory cfg env r)
  | CRemoveProfile r => on_daemon (fun _ => REmpty) (fun env => RemoveProfile env r)
  | CRenameProfile r => on_daemon RProfile (fun env => RenameProfile env r)
  | CSetActiveProfile r => on_daemon (fun '(p, i) => RSetActive p i) (fun env => SetActiveProfile platform meshFactory cfg env r)
  | CGetActiveProfile => on_daemon (fun '(i, any) => RActive i any) (fun env => GetActiveProfile env)
  end.

(** ** It is a handler *)
Record same_host (h h' : Host) : Prop := {
  sh_daemon : observes (daemon h) (daemon h');
  sh_received : received h' = received h;
  sh_peers : peerConn h' = peerConn h;
  sh_logs : logs h' = logs h;
  sh_outside : outside h' = outside h }.

#[export] Instance same_host_pre : PreOrder same_host.
Proof.
  split.
  - intros h. by split.
  - intros h1 h2 h3 [H1 R1 P1 L1 W1] [H2 R2 P2 L2 W2]. split; [by etrans|congruence..].
Qed.

Lemma same_on_daemon {A} (f : A -> reply_data) (m : Env -> action Daemon daemon_error A) h :
  (forall env, within observes (m env)) -> same_host h (on_daemon f m h).2.
Proof.
  intros Hm. unfold on_daemon. specialize (Hm (envs (calls h)) (daemon h)).
  destruct (m (envs (calls h)) (daemon h)) as [r d]. by split.
Qed.

Lemma invoke_read_only c h : mutates c = false -> same_host h (invoke_daemon c h).2.
Proof.
  destruct c; try discriminate; intros _; cbn [invoke_daemon]; try by split.
  - apply same_on_daemon. intros env. unfold GetStatus. walk.
  - apply same_on_daemon. intros env. unfold ListProfiles. walk.
  - apply same_on_daemon. intros env. unfold GetActiveProfile. walk.
Qed.

#[export] Instance daemon_handler : Handler := {|
  hstate := Host; reply := reply_data; marshal := reply_json; invoke := invoke_daemon; same := same_host;
  read_only := invoke_read_only |}.

(** ** Sessions *)

(** The daemon's step behind a call. *)
Definition event_of (c : Ipc.call) : option event :=
  match c with
  | CImportBundle r => Some (EvImportBundle r)
  | CGetStatus => Some EvGetStatus
  | CConnect => Some EvConnect
  | CDisconnect => Some EvDisconnect
  | CSetMode r => Some (EvSetMode r)
  | CSetRosenpass r => Some (EvSetRosenpass r)
  | CSetInnerMeshProfile r => Some (EvSetInnerMeshProfile r)
  | CEnableInnerMesh => Some EvEnableInnerMesh
  | CDisableInnerMesh => Some EvDisableInnerMesh
  | CListProfiles => Some EvListProfiles
  | CAddProfile r => Some (EvAddProfile r)
  | CRemoveProfile r => Some (EvRemoveProfile r)
  | CRenameProfile r => Some (EvRenameProfile r)
  | CSetActiveProfile r => Some (EvSetActiveProfile r)
  | CGetActiveProfile => Some EvGetActiveProfile
  | _ => None
  end.

Lemma GetStatus_state {E F} n1 n2 d :
  (GetStatus (E := E) cfg n1 d).2 = (GetStatus (E := F) cfg n2 d).2.
Proof.
  unfold GetStatus, mbind, action_bind, snapshot, run, get. cbn [fst snd].
  destruct (IncludesWGCP0 (currentMode d)); [|done]. unfold attempt, on. by destruct (t_stats (manager d)).
Qed.

Lemma on_daemon_state {A} (f : A -> reply_data) (m : Env -> action Daemon daemon_error A) h :
  daemon (on_daemon f m h).2 = (m (envs (calls h)) (daemon h)).2.
Proof. unfold on_daemon. by destruct (m (envs (calls h)) (daemon h)). Qed.

Lemma invoke_exec c h :
  daemon (invoke_daemon c h).2 =
  match event_of c with
  | Some e => exec platform meshFactory cfg (envs (calls h)) e (daemon h)
  | None => daemon h
  end.
Proof.
  destruct c; cbn [invoke_daemon event_of exec]; try apply on_daemon_state; try done.
  - rewrite on_daemon_state. apply GetStatus_state.
  - unfold send_file. by destruct (SendFile _ _ _ _ _).
Qed.

Abbreviation running st := (reachable (daemon_step platform meshFactory cfg) (boots platform meshFactory cfg st)).

Lemma invoke_reachable st c h : running st (daemon h) -> running st (daemon (invoke_daemon c h).2).
Proof.
  intros Hr. rewrite invoke_exec. destruct (event_of c) as [e|]; [|done].
  eapply reach_step; [exact Hr|apply run_event].
Qed.

Context {IJ : IpcJson}.

Lemma handle_reachable st dp req h : running st (daemon h) -> running st (daemon (Ipc.handle dp req h).2).
Proof.
  intros Hr. unfold Ipc.handle. case_match; [done|]. case_match; [done|].
  destruct (decode_call _ _) as [[c|e]|]; [|done..]. pose proof (invoke_reachable st c h Hr) as Hi.
  cbn [invoke daemon_handler]. by destruct (invoke_daemon c h).
Qed.

Lemma Serve_reachable st dp ctx_done write_ok i lines h :
  running st (daemon h) -> running st (daemon (Serve dp ctx_done write_ok i lines h).2).
Proof.
  revert i h. induction lines as [|line lines IH]; intros i h Hr; cbn [Serve]; [done|].
  case_match; [done|]. case_match; [done|]. destruct (json_request line) as [req|e].
  - pose proof (handle_reachable st dp req h Hr) as Hh. destruct (Ipc.handle _ _ _) as [resp h1].
    case_match; [done|]. specialize (IH (S i) h1 Hh). by destruct (Serve _ _ _ _ _ _) as [[out r] h2].
  - specialize (IH (S i) h Hr). by destruct (Serve _ _ _ _ _ _) as [[out r] h2].
Qed.

(** Nothing sent over the control channel takes the daemon out of its
    invariants. From a daemon at work - on a store disk the store's operations can
    leave behind - any connection, of any peer, with any bytes in its lines, under
    any failures of system calls and of the peers' networks, ends with the current
    bundle and every stored bundle verified and with the legs the mode excludes
    down; and if the peer is not the trusted one, with the daemon unchanged but for
    cached counters, the same received files and nothing sent. *)
Theorem sessions_keep_invariants (st : pworld) (dp : Dispatcher) (ctx_done write_ok : nat -> bool)
    (lines : list chars) (h : Host) :
  reachable (store_step (CfgTrustRoots cfg)) no_bundle_files (disk st) ->
  mesh_state meshFactory <> InnerMesh.StateUp ->
  running st (daemon h) ->
  let h' := (Serve dp ctx_done write_ok 0 lines h).2 in
  (forall b, currentBundle (daemon h') = Some b ->
     VerifyBundle (CfgTrustRoots cfg) b = Ok tt /\ CheckCPDeviceKeypair b = Ok tt) /\
  bundles_verified (CfgTrustRoots cfg) (disk (store (daemon h'))) /\
  legs_ok (daemon h') /\
  (authorizedForMutate dp = false ->
   observes (daemon h) (daemon h') /\ received h' = received h /\ outside h' = outside h).
Proof.
  intros Hst Hf Hr h'. pose proof (Serve_reachable st dp ctx_done write_ok 0 lines h Hr) as Hr'. fold h' in Hr'.
  destruct (reachable_auth platform meshFactory cfg st _ Hst Hr') as [Hb Hc]. split_and!; [done|done| |].
  - by eapply reachable_legs.
  - intros Ha. assert (same_host h h') as [Ho Hrec _ _ Hout]; [|by split_and!].
    exact (Serve_unauthorized (H := daemon_handler) dp ctx_done write_ok 0 lines h Ha).
Qed.

(** The parts of a status that say what runs. *)
Lemma GetStatus_reply (d d' : Daemon) (r : StatusReply) :
  GetStatus (E := daemon_error) cfg names_status d = (Ok r, d') ->
  StState r = (if IncludesWGCP0 (currentMode d)
               then mapTunnelState (t_state (manager d)) (bool_decide (is_Some (currentBundle d)))
               else if bool_decide (is_Some (currentBundle d)) then WireStateDisconnected else WireStateNoBundle) /\
  StInnerMesh r = match dmesh d with
                  | Some h => if IncludesNetbird (currentMode d) then Some (mesh_snapshot cfg d h) else None
                  | None => None
                  end /\
  StMode r = currentMode d /\ StBundleLoaded r = bool_decide (is_Some (currentBundle d)).
Proof.
  unfold GetStatus, mbind, action_bind, snapshot, run, get, attempt, on. cbn [fst snd].
  destruct (IncludesWGCP0 (currentMode d)).
  - destruct (t_stats (manager d)) as [st' t]. cbn. intros [= <- <-]. by split_and!.
  - cbn. intros [= <- <-]. by split_and!.
Qed.

(** The status tells the truth about the legs of the mode, in any state:
    [getStatus] says the tunnel is connected exactly when the mode has the outer
    leg, the tunnel is up and a bundle is loaded, and its inner-mesh part says
    connected exactly when the mode has the inner leg and the mesh handle is up.
    Where the legs follow the mode, no leg that is up is hidden by it. The two
    status calls agree on the inner mesh. *)
Theorem status_is_honest (d d' : Daemon) (r : StatusReply) :
  GetStatus (E := daemon_error) cfg names_status d = (Ok r, d') ->
  (StState r = WireStateConnected <->
     IncludesWGCP0 (currentMode d) = true /\ t_state (manager d) = Tunnel.StateUp /\ is_Some (currentBundle d)) /\
  ((exists s, StInnerMesh r = Some s /\ SnState s = WireStateConnected) <->
     IncludesNetbird (currentMode d) = true /\ exists h, dmesh d = Some h /\ mesh_state h = InnerMesh.StateUp) /\
  default no_snapshot (StInnerMesh r) = GetInnerMeshStatus cfg d /\
  StMode r = currentMode d /\ (StBundleLoaded r = true <-> is_Some (currentBundle d)).
Proof.
  intros E. destruct (GetStatus_reply d d' r E) as (Hs & Hm & -> & ->).
  split_and!; [| | |done|by rewrite bool_decide_eq_true].
  - rewrite Hs. destruct (IncludesWGCP0 (currentMode d)).
    + unfold mapTunnelState. case_bool_decide as Hb; cbn [negb]; [|naive_solver].
      destruct (t_state (manager d)); naive_solver.
    + case_bool_decide; naive_solver.
  - rewrite Hm. destruct (dmesh d) as [h|] eqn:Eh; [|naive_solver]. split.
    + intros (s & Hx & Hc). destruct (IncludesNetbird (currentMode d)); [|done]. injection Hx as <-.
      split; [done|]. exists h. split; [done|]. cbn in Hc. by destruct (mesh_state h).
    + intros (Hi & h' & [= <-] & Hu). rewrite Hi. eexists. split; [done|]. cbn. by rewrite Hu.
  - rewrite Hm. unfold GetInnerMeshStatus. destruct (dmesh d); [|done]. by destruct (IncludesNetbird (currentMode d)).
Qed.
Lemma legs_ok_shown d : legs_ok d ->
  (t_state (manager d) = Tunnel.StateUp -> IncludesWGCP0 (currentMode d) = true) /\
  ((exists h, dmesh d = Some h /\ mesh_state h = InnerMesh.StateUp) -> IncludesNetbird (currentMode d) = true).
Proof.
  intros [_ _ Ho Hi]. split.
  - intros Hu. destruct (IncludesWGCP0 (currentMode d)); [done|]. by destruct (Ho eq_refl).
  - intros (h & Hh & Hu). destruct (IncludesNetbird (currentMode d)); [done|]. by destruct (Hi eq_refl h Hh).
Qed.
End host.

(** ** A session with the toy daemon *)
Module ToySession.
Import ToyDaemon.
#[export] Existing Instance ToyIpc.json.
#[export] Instance conn : PeerConn := manager_conn 8 (fun _ => true).
#[export] Instance text : ReplyText := {| reply_json _ := Ok []; error_text _ := "error" |}.

Definition names_of (s : NamesSvc) : NamesSnapshot := no_names.
Definition no_network (to : string) (r : Request) : state unit (result string Response) := fun w => (Err "no route", w).
Definition no_files (path : string) : local_file := CannotOpen.
Definition start : Host (W := unit) := mkHost started (newReceivedRing 4) None (newLogRing 8) 0 tt.
#[export] Instance handler : Handler :=
  daemon_handler Linux new_mesh cfg (fun _ => env) no_network no_files names_of.

(** The lines are method names: a bundle is imported through its own line. *)
Definition lines : list chars := [s2l "importBundle"; s2l "connect"; s2l "getStatus"].
Definition owner : Dispatcher := {| CredsUid := 1000; trustedUid := 1000 |}.
Definition guest : Dispatcher := {| CredsUid := 1001; trustedUid := 1000 |}.

Lemma store_reached : reachable (store_step (CfgTrustRoots cfg)) no_bundle_files (disk empty_store).
Proof. apply reach_init. intros n. cbn. by rewrite lookup_empty. Qed.

Lemma sessions_keep_invariants_witness :
  legs_ok (daemon ((Serve owner (fun _ => false) (fun _ => true) 0 lines start).2 : Host)) /\
  observes started (daemon ((Serve guest (fun _ => false) (fun _ => true) 0 lines start).2 : Host)).
Proof.
  assert (mesh_state new_mesh <> InnerMesh.StateUp) as Hf by discriminate.
  split.
  - exact (proj1 (proj2 (proj2 (sessions_keep_invariants Linux new_mesh cfg (fun _ => env) no_network no_files names_of
      empty_store owner (fun _ => false) (fun _ => true) lines start store_reached Hf reaches_started)))).
  - exact (proj1 (proj2 (proj2 (proj2 (sessions_keep_invariants Linux new_mesh cfg (fun _ => env) no_network no_files names_of
      empty_store guest (fun _ => false) (fun _ => true) lines start store_reached Hf reaches_started))) eq_refl)).
Defined.

Definition status : option StatusReply :=
  match (GetStatus (E := daemon_error) cfg names_of connected).1 with Ok r => Some r | Err _ => None end.
Lemma status_is_honest_witness :
  exists r, status = Some r /\ StState r = WireStateConnected.
Proof.
  destruct (GetStatus (E := daemon_error) cfg names_of connected) as [[r|e] d'] eqn:E.
  - exists r. split; [unfold status; rewrite E; reflexivity|].
    apply (status_is_honest cfg names_of connected d' r E). split_and!; [vm_compute; reflexivity..|vm_compute; eauto].
  - assert (is_ok (GetStatus (E := daemon_error) cfg names_of connected).1 = true) as Hok by (vm_compute; reflexivity).
    rewrite E in Hok. discriminate Hok.
Defined.
End ToySession.
