(* ===== verification/IpcServer.v ===== *)
(** The server of the control channel: internal/ipc/server.go over the
    dispatcher of Ipc.v and the daemon of DaemonIpc.v.

    A server is its connections and what it serves. An event is a connection
    accepted - its peer's uid, or that it could not be learnt -, a line on one of
    them, the end of one, or the cancellation of the context; the lines of
    different connections come in any order, each one handled whole. *)
From stdpp Require Import base tactics sets list gmap strings.
From Stdlib Require Import ZArith Ascii Lia.
From S2P Require Import DnsAdapter.
From S2P Require Import Prelude GoStr Fs.
From S2P Require Import Bundle.
From S2P Require Import Profile.
From S2P Require Import ProfileSpec.
From S2P Require Import Tunnel.
From S2P Require Import InnerMesh.
From S2P Require Import FileDrop.
From S2P Require Import Ipc.
From S2P Require Import Daemon.
From S2P Require Import DaemonSpec.
From S2P Require Import DaemonPeers.
From S2P Require Import DaemonIpc.
Local Open Scope list_scope.

Section server.
Context {IJ : IpcJson} {HD : Handler}.

Record connection := { dispatcher : Dispatcher; is_open : bool }.
Record Server := { trusted : Z; conns : list connection; accepting : bool; cancelled : bool; served : hstate }.

Definition NewServer (h : hstate) (trustedUid : Z) : Server :=
  {| trusted := trustedUid; conns := []; accepting := true; cancelled := false; served := h |}.

Inductive server_event :=
  | Accepted (creds : option Z)
  | AcceptFailed
  | Line (i : nat) (line : chars) (write_ok : bool)
  | HungUp (i : nat)
  | Cancelled.

Definition close_conn (c : connection) : connection := {| dispatcher := dispatcher c; is_open := false |}.
Definition with_conns (l : list connection) (s : Server) : Server :=
  {| trusted := trusted s; conns := l; accepting := accepting s; cancelled := cancelled s; served := served s |}.

(** A peer whose credentials cannot be learnt is hung up on. *)
Definition accept (creds : option Z) (s : Server) : Server :=
  match creds with
  | None => s
  | Some uid => with_conns (conns s ++ [{| dispatcher := {| CredsUid := uid; trustedUid := trusted s |}; is_open := true |}]) s
  end.

(** One turn of the dispatcher's loop on a connection. *)
Definition serve_line (i : nat) (c : connection) (line : chars) (write_ok : bool) (s : Server) : Server :=
  let '((_, e), h) := Serve (dispatcher c) (fun _ => cancelled s) (fun _ => write_ok) 0 [line] (served s) in
  {| trusted := trusted s; conns := match e with EOF => conns s | _ => alter close_conn i (conns s) end;
     accepting := accepting s; cancelled := cancelled s; served := h |}.

Definition server_step (s : Server) (e : server_event) : Server :=
  match e with
  | Accepted creds => if accepting s then accept creds s else s
  | AcceptFailed =>
    {| trusted := trusted s; conns := conns s; accepting := false; cancelled := cancelled s; served := served s |}
  | Line i line write_ok =>
    match conns s !! i with
    | Some c => if is_open c then serve_line i c line write_ok s else s
    | None => s
    end
  | HungUp i => with_conns (alter close_conn i (conns s)) s
  | Cancelled =>
    {| trusted := trusted s; conns := conns s; accepting := false; cancelled := true; served := served s |}
  end.
Definition after (es : list server_event) (s : Server) : Server := foldl server_step s es.

(** Close waits for the connections that are open, and so does Serve once the
    context is cancelled or the listener closed. *)
Definition returned (s : Server) : bool := negb (accepting s) && forallb (fun c => negb (is_open c)) (conns s).

Lemma close_keeps i (l : list connection) j c :
  l !! j = Some c -> exists c', alter close_conn i l !! j = Some c' /\ dispatcher c' = dispatcher c.
Proof.
  intros Hc. destruct (decide (j = i)) as [->|Hne].
  - rewrite list_lookup_alter_eq, Hc. by eexists.
  - rewrite list_lookup_alter_ne by done. by exists c.
Qed.
Lemma conns_step s e j c :
  conns s !! j = Some c -> exists c', conns (server_step s e) !! j = Some c' /\ dispatcher c' = dispatcher c.
Proof.
  intros Hc. assert (exists c', conns s !! j = Some c' /\ dispatcher c' = dispatcher c) as Hsame by eauto.
  destruct e as [[uid|]| |i line w|i|]; cbn [server_step accept]; try done.
  - destruct (accepting s); [|done]. exists c. cbn. by rewrite (lookup_app_l_Some _ _ _ _ Hc).
  - by destruct (accepting s).
  - destruct (conns s !! i) as [c0|]; [|done]. destruct (is_open c0); [|done].
    unfold serve_line. destruct (Serve _ _ _ _ _ _) as [[out r] h]. cbn. destruct r; [done|by apply close_keeps..].
  - by apply close_keeps.
Qed.

(** What one event does to what is served. *)
Lemma served_step s e :
  served (server_step s e) =
  match e with
  | Line i line w =>
    match conns s !! i with
    | Some c => if is_open c then (Serve (dispatcher c) (fun _ => cancelled s) (fun _ => w) 0 [line] (served s)).2 else served s
    | None => served s
    end
  | _ => served s
  end.
Proof.
  destruct e as [[uid|]| |i line w|i|]; cbn [server_step accept]; try done; try by destruct (accepting s).
  destruct (conns s !! i) as [c|]; [|done]. destruct (is_open c); [|done]. unfold serve_line.
  by destruct (Serve _ _ _ _ _ _) as [[out r] h].
Qed.

(** The trusted uid's connections. *)
Definition trusted_conn (s : Server) : Prop := exists i c, conns s !! i = Some c /\ authorizedForMutate (dispatcher c) = true.
Lemma trusted_step s e : trusted_conn s -> trusted_conn (server_step s e).
Proof.
  intros (i & c & Hc & Ha). destruct (conns_step s e i c Hc) as (c' & Hc' & Hd).
  exists i, c'. by rewrite Hd.
Qed.
Lemma trusted_after es s : trusted_conn s -> trusted_conn (after es s).
Proof. revert s. induction es as [|e es IH]; intros s Hs; [done|]. apply (IH (server_step s e)). by apply trusted_step. Qed.

Lemma untrusted_after es s : (~ trusted_conn (after es s)) -> same (served s) (served (after es s)).
Proof.
  revert s. induction es as [|e es IH]; intros s Hn; [reflexivity|]. change (after (e :: es) s) with (after es (server_step s e)) in *.
  etrans; [|by apply IH]. rewrite served_step. destruct e as [creds| |i line w|i|]; try reflexivity.
  destruct (conns s !! i) as [c|] eqn:Ec; [|reflexivity]. destruct (is_open c); [|reflexivity].
  destruct (authorizedForMutate (dispatcher c)) eqn:Ea; [|by apply Serve_unauthorized].
  destruct Hn. apply trusted_after, trusted_step. by exists i, c.
Qed.

Lemma cancelled_step s e : cancelled s = true -> cancelled (server_step s e) = true /\ served (server_step s e) = served s.
Proof.
  intros Hc. split.
  - destruct e as [[uid|]| |i line w|i|]; cbn [server_step accept]; try done; try by destruct (accepting s).
    destruct (conns s !! i) as [c|]; [|done]. destruct (is_open c); [|done]. unfold serve_line.
    by destruct (Serve _ _ _ _ _ _) as [[out r] h].
  - rewrite served_step. destruct e as [creds| |i line w|i|]; try done.
    destruct (conns s !! i) as [c|]; [|done]. destruct (is_open c); [|done]. rewrite Hc. cbn [Serve]. by destruct (too_long line).
Qed.
Lemma cancelled_after es s : cancelled s = true -> served (after es s) = served s.
Proof.
  revert s. induction es as [|e es IH]; intros s Hc; [done|]. destruct (cancelled_step s e Hc) as [H1 H2].
  change (after (e :: es) s) with (after es (server_step s e)). by rewrite (IH _ H1).
Qed.

(** A connection that says nothing keeps [Close] waiting. *)
Lemma idle_connection_blocks_Close h uid trustedUid :
  returned (after [Accepted (Some uid); Cancelled] (NewServer h trustedUid)) = false.
Proof. reflexivity. Qed.
End server.

(** ** The daemon behind the server *)
Section daemon.
Context {K : BundleCodec} {C : Crypto} {J : RawJson} {N : NetipLib} {U : NetText} {H : HostDNS}
  {T : TunnelManager} {M : Mesh} {P : PeerConn}.
Context (platform : os) (meshFactory : mesh) (cfg : Config).
Context (envs : nat -> Env) {W : Type} (do_request : string -> Request -> state W (result string Response))
  (files : string -> local_file) (names_status : NamesSvc -> NamesSnapshot).
Context {X : ReplyText} {IJ : IpcJson}.
#[local] Instance handler : Handler := daemon_handler platform meshFactory cfg envs do_request files names_status.
Abbreviation Host := (Host (W := W)).
Abbreviation running st := (reachable (daemon_step platform meshFactory cfg) (boots platform meshFactory cfg st)).
Definition host (s : Server) : Host := served s.

Lemma running_step st s e : running st (daemon (host s)) -> running st (daemon (host (server_step s e))).
Proof.
  intros Hr. unfold host. rewrite served_step. destruct e as [creds| |i line w|i|]; try exact Hr.
  destruct (conns s !! i) as [c|]; [|exact Hr]. destruct (is_open c); [|exact Hr].
  by apply (Serve_reachable platform meshFactory cfg envs do_request files names_status).
Qed.

(** The server keeps the daemon's promises. However many connections are open,
    of whatever users, in whatever order their lines come, however they end: the
    daemon stays in a state it can reach, so that the bundle it runs on and those
    it stores are verified and the legs its mode excludes are down; unless some
    connection was the trusted user's, it is at the end as it was but for cached
    counters, nothing was received and nothing sent; and once the context is
    cancelled no line changes it. *)
Theorem server_keeps_invariants (st : pworld) (trustedUid : Z) (h : Host) (es es' : list server_event) :
  reachable (store_step (CfgTrustRoots cfg)) no_bundle_files (disk st) ->
  mesh_state meshFactory <> InnerMesh.StateUp -> running st (daemon h) ->
  let s := after es (NewServer h trustedUid) in
  (forall b, currentBundle (daemon (host s)) = Some b ->
     VerifyBundle (CfgTrustRoots cfg) b = Ok tt /\ CheckCPDeviceKeypair b = Ok tt) /\
  bundles_verified (CfgTrustRoots cfg) (disk (store (daemon (host s)))) /\ legs_ok (daemon (host s)) /\
  (~ trusted_conn s -> observes (daemon h) (daemon (host s)) /\ received (host s) = received h /\ outside (host s) = outside h) /\
  host (after (Cancelled :: es') s) = host s.
Proof.
  intros Hst Hf Hr s. assert (running st (daemon (host s))) as Hs.
  { subst s. unfold after. assert (running st (daemon (host (NewServer h trustedUid)))) as Hn by exact Hr. revert Hn.
    generalize (NewServer (h : hstate) trustedUid). induction es as [|e es IH]; intros s Hn; [done|]. by apply IH, running_step. }
  destruct (reachable_auth platform meshFactory cfg st _ Hst Hs) as [Hb Hc]. split; [done|]. split; [done|].
  split; [by eapply reachable_legs|]. split.
  - intros Ht. pose proof (untrusted_after es (NewServer (h : hstate) trustedUid) Ht) as Hsame.
    assert (same_host h (host s)) as [Ho Hrec _ _ Hout] by exact Hsame. by split_and!.
  - exact (cancelled_after es' (server_step s Cancelled) eq_refl).
Qed.
End daemon.

(** ** Two users of the toy daemon *)
Module ToyServer.
Import ToyDaemon ToySession.
Abbreviation toy_host s := (host Linux new_mesh cfg (fun _ => env) no_network no_files names_of s).
Definition guests : list server_event :=
  [Accepted (Some 1001%Z); Accepted None; Accepted (Some 1002%Z); Line 1 (s2l "connect") true; Line 0 (s2l "getStatus") true;
   HungUp 1; Line 1 (s2l "connect") true].
Lemma server_keeps_invariants_witness :
  let s := after guests (NewServer (start : hstate) 1000) in
  legs_ok (daemon (toy_host s)) /\ observes started (daemon (toy_host s)).
Proof.
  destruct (server_keeps_invariants Linux new_mesh cfg (fun _ => env) no_network no_files names_of empty_store 1000 start guests []
    store_reached ltac:(discriminate) reaches_started) as (_ & _ & Hl & Hn & _).
  split; [exact Hl|]. apply Hn. intros (i & c & Hc & Ha).
  assert (forallb (fun c => negb (authorizedForMutate (dispatcher c))) (conns (after guests (NewServer (start : hstate) 1000))) = true) as Hall
    by (vm_compute; reflexivity).
  rewrite forallb_forall in Hall. specialize (Hall c ltac:(by eapply list_elem_of_In, list_elem_of_lookup_2)). by rewrite Ha in Hall.
Defined.
End ToyServer.
