(* ===== verification/IpcTransport.v ===== *)
(** The transports under the control channel: transport_unix.go,
    transport_windows.go and the peercreds_*.go of src/internal/ipc, with
    ServeIPC of internal/daemon/daemon.go and the uid cmd/goat-clientd passes.

    A path of the file system holds a socket - its owner, its mode, the listener
    that answers if one is alive - or something else. A peer is the uid of a
    process; the kernel lets it connect by the socket's mode, or on Windows by
    the descriptor of the pipe. *)
From stdpp Require Import base tactics sets list gmap strings.
From Stdlib Require Import ZArith Ascii Lia.
From S2P Require Import Prelude GoStr.
From S2P Require Import Ipc.
From S2P Require Import DaemonSpec.
From S2P Require Import DaemonIpc.
From S2P Require Import IpcServer.
Local Open Scope list_scope.

(** ** Sockets *)
Record socket := { owner : Z; mode : Z; listener : option nat }.
Inductive node := Socket (s : socket) | Other.
Abbreviation sock_fs := (gmap string node).

(** connect(2) needs the write bit; group membership is not modelled, so the
    group's bit counts for everybody. *)
Definition may_write (mode owner peer : Z) : bool :=
  (peer =? 0)%Z || (if (peer =? owner)%Z then Z.testbit mode 7 else Z.testbit mode 4 || Z.testbit mode 1).

(** Which calls of [Listen] succeed. *)
Record ListenCalls := { mkdir_ok : bool; remove_ok : bool; bind_ok : bool; chmod_ok : bool }.
Inductive listen_error := EMkdirSocket | ECleanStale | EListenUnix | EChmodSocket | EListenPipe.

(** bind creates the socket with what the umask leaves. *)
Definition bound_mode (umask : Z) : Z := Z.land 511 (Z.lnot umask).
Definition socket_mode : Z := 384. (* 0600 *)

(** What is at the path between bind(2) and the chmod. *)
Definition bind_socket (uid umask : Z) (id : nat) (socketPath : string) (fs : sock_fs) : sock_fs :=
  <[socketPath := Socket {| owner := uid; mode := bound_mode umask; listener := Some id |}]> (delete socketPath fs).
Definition chmod_node (m : Z) (n : node) : node :=
  match n with Socket s => Socket {| owner := owner s; mode := m; listener := listener s |} | Other => Other end.

(** Listen of transport_unix.go by a process of [uid]; [id] is the new
    listener, whose Close unlinks the path. *)
Definition Listen (k : ListenCalls) (uid umask : Z) (id : nat) (socketPath : string) : action sock_fs listen_error nat := fun fs =>
  if negb (mkdir_ok k) then (Err EMkdirSocket, fs)
  else if bool_decide (is_Some (fs !! socketPath)) && negb (remove_ok k) then (Err ECleanStale, fs)
  else
    if negb (bind_ok k) then (Err EListenUnix, delete socketPath fs)
    else
      let fs := bind_socket uid umask id socketPath fs in
      if negb (chmod_ok k) then (Err EChmodSocket, delete socketPath fs)
      else (Ok id, alter (chmod_node socket_mode) socketPath fs).

(** Dial of transport_unix.go: the listener that gets the connection. *)
Definition Dial (peer : Z) (socketPath : string) (fs : sock_fs) : option nat :=
  match fs !! socketPath with
  | Some (Socket s) => if may_write (mode s) (owner s) peer then listener s else None
  | _ => None
  end.

(** ** Whose connection it is *)
Inductive build := LinuxBuild | DarwinCgo | DarwinNoCgo | WindowsBuild.
#[export] Instance build_eq_dec : EqDecision build.
Proof. solve_decision. Defined.

(** uint32(os.Getuid()): os.Getuid gives -1 on Windows. The daemon's real and
    effective uid are the same here. *)
Definition Getuid (b : build) (uid : Z) : Z := match b with WindowsBuild => (-1)%Z | _ => uid end.
Definition trusted_uid (b : build) (uid : Z) : Z := (Getuid b uid mod 2 ^ 32)%Z.

(** getpeereid: the call of libc with cgo, the daemon's own uid without. *)
Definition getpeereid (cgo : bool) (daemon_uid peer : Z) : Z := if cgo then peer else daemon_uid.
(** peerCredsUnix; [ok]: the system calls answer. *)
Definition linux_creds (peer : Z) (ok : bool) : option Z := if ok then Some peer else None.
Definition darwin_creds (cgo : bool) (daemon_uid peer : Z) (ok : bool) : option Z :=
  if ok then Some (getpeereid cgo daemon_uid peer) else None.
Definition peerCreds (b : build) (daemon_uid peer : Z) (ok : bool) : option Z :=
  match b with
  | LinuxBuild => linux_creds peer ok
  | DarwinCgo => darwin_creds true daemon_uid peer ok
  | DarwinNoCgo => darwin_creds false daemon_uid peer ok
  | WindowsBuild => Some 0%Z
  end.

(** Who gets a connection to the listener [id]: whom the socket lets in that is at
    the path when they dial, the owner alone on the pipe. *)
Definition reaches (b : build) (daemon_uid : Z) (id : nat) (socketPath : string) (fs : sock_fs) (peer : Z) : bool :=
  match b with
  | WindowsBuild => (peer =? daemon_uid)%Z
  | _ => bool_decide (Dial peer socketPath fs = Some id)
  end.
(** The umask keeps the write bits from the group and from others (022). *)
Definition masks_write (umask : Z) : bool := Z.testbit umask 4 && Z.testbit umask 1.

(** Whose calls that change something are let through. *)
Definition commander (b : build) (daemon_uid peer : Z) : bool :=
  match b with
  | LinuxBuild | DarwinCgo => (peer =? daemon_uid)%Z
  | DarwinNoCgo => (peer =? daemon_uid)%Z || (peer =? 0)%Z
  | WindowsBuild => false
  end.
Definition is_uid (z : Z) : Prop := (0 <= z < 2 ^ 32)%Z.

(** ** ServeIPC *)
Inductive serve_error := EIpcListen (e : listen_error).
Definition names_listen (env : string) : string := if bool_decide (env = "") then "127.0.0.1:53530" else env.

Section serve.
Context {IJ : IpcJson} {HD : Handler}.

(** ServeIPC up to its loop: the server and the address the names service is
    told to listen on. [ln] is what Listen gave. *)
Definition ServeIPC (b : build) (uid : Z) (ln : result listen_error nat) (names_env : string) (h : hstate) : result serve_error (Server * string) :=
  _ ← map_err EIpcListen ln; Ok (NewServer h (trusted_uid b uid), names_listen names_env).

(** The connections a server can see: [seen] is what was at the path when one of
    them was made. *)
Definition comes_from (b : build) (uid : Z) (id : nat) (path : string) (seen : sock_fs -> Prop) (who : Z -> Prop)
    (e : server_event) : Prop :=
  match e with
  | Accepted creds => exists fs peer ok,
      seen fs /\ who peer /\ reaches b uid id path fs peer = true /\ creds = peerCreds b uid peer ok
  | _ => True
  end.

(** ** Lemmas *)
Lemma may_write_owner_only uid peer : may_write socket_mode uid peer = (peer =? 0)%Z || (peer =? uid)%Z.
Proof. unfold may_write. by destruct (peer =? 0)%Z, (peer =? uid)%Z. Qed.

Lemma trusted_uid_unix b uid : is_uid uid -> b <> WindowsBuild -> trusted_uid b uid = uid.
Proof. intros Hu Hb. unfold trusted_uid. destruct b; try done; cbn; by apply Z.mod_small. Qed.

Lemma may_write_bound umask uid peer :
  masks_write umask = true -> may_write (bound_mode umask) uid peer = true -> peer = 0%Z \/ peer = uid.
Proof.
  intros [H4 H1]%andb_true_iff. unfold may_write, bound_mode. rewrite !Z.land_spec, !Z.lnot_spec, H4, H1 by lia. cbn [negb].
  rewrite !andb_false_r. destruct (Z.eqb_spec peer 0), (Z.eqb_spec peer uid); cbn; auto; discriminate.
Qed.
Lemma Dial_at peer path s (fs : sock_fs) : fs !! path = Some (Socket s) ->
  Dial peer path fs = if may_write (mode s) (owner s) peer then listener s else None.
Proof. intros E. unfold Dial. by rewrite E. Qed.
Lemma Listen_Ok k uid umask id path fs i fs' :
  Listen k uid umask id path fs = (Ok i, fs') ->
  i = id /\ fs' !! path = Some (Socket {| owner := uid; mode := socket_mode; listener := Some id |}).
Proof.
  unfold Listen. destruct (mkdir_ok k); cbn [negb]; [|done]. destruct (bool_decide _ && negb _); [done|].
  destruct (bind_ok k); cbn [negb]; [|done]. destruct (chmod_ok k); cbn [negb]; [|done]. intros [= <- <-].
  split; [done|]. unfold bind_socket. by rewrite lookup_alter_eq, lookup_insert_eq.
Qed.

(** The file systems in which connections to the listener are made: as [Listen]
    leaves it, and if the umask masks the write bits already as bind(2) does. *)
Definition connects_at (k : ListenCalls) (uid umask : Z) (id : nat) (path : string) (fs0 fs : sock_fs) : Prop :=
  fs = (Listen k uid umask id path fs0).2 \/ (masks_write umask = true /\ fs = bind_socket uid umask id path fs0).

Lemma reaches_owner b k uid umask id path fs0 fs peer :
  b <> WindowsBuild -> (exists i, (Listen k uid umask id path fs0).1 = Ok i) -> connects_at k uid umask id path fs0 fs ->
  reaches b uid id path fs peer = true -> peer = 0%Z \/ peer = uid.
Proof.
  intros Hb [i Hl] Hs Hr. assert (Dial peer path fs = Some id) as Hd by (destruct b; try done; by apply bool_decide_eq_true in Hr).
  destruct (Listen k uid umask id path fs0) as [r fs'] eqn:E. cbn in Hl. subst r. destruct (Listen_Ok _ _ _ _ _ _ _ _ E) as [_ Hp].
  destruct Hs as [->|[Hm ->]].
  - rewrite E in Hd. cbn [snd] in Hd. rewrite (Dial_at _ _ _ _ Hp) in Hd. cbn [mode owner] in Hd. rewrite may_write_owner_only in Hd.
    destruct (Z.eqb_spec peer 0), (Z.eqb_spec peer uid); cbn in Hd; auto; discriminate.
  - unfold bind_socket in Hd. erewrite Dial_at in Hd by apply lookup_insert_eq. cbn [mode owner] in Hd.
    apply (may_write_bound umask); [done|]. by destruct (may_write _ _ _).
Qed.

(** A peer that is connected is let through exactly when it is a commander. *)
Lemma authorized_commander b uid peer ok creds :
  is_uid uid -> (b = WindowsBuild \/ peer = 0%Z \/ peer = uid) -> peerCreds b uid peer ok = Some creds ->
  authorizedForMutate {| CredsUid := creds; trustedUid := trusted_uid b uid |} = commander b uid peer.
Proof.
  intros Hu Hr Hc. unfold authorizedForMutate. cbn [CredsUid trustedUid].
  destruct b; cbn [peerCreds] in *.
  4:{ by injection Hc as <-. }
  all: destruct Hr as [Hr|Hr]; [discriminate Hr|];
    rewrite trusted_uid_unix by done; destruct ok; [injection Hc as <-|done]; cbn [commander]; lia.
Qed.

(** Every connection's dispatcher was made for one that was accepted. *)
Lemma conns_from es s (P : Z -> Prop) :
  Forall (fun e => match e with Accepted (Some uid) => P uid | _ => True end) es ->
  Forall (fun c => P (CredsUid (dispatcher c)) /\ trustedUid (dispatcher c) = trusted s) (conns s) ->
  Forall (fun c => P (CredsUid (dispatcher c)) /\ trustedUid (dispatcher c) = trusted s) (conns (after es s)).
Proof.
  revert s. induction es as [|e es IH]; intros s He Hs; [done|]. apply Forall_cons in He as [He Hes].
  change (after (e :: es) s) with (after es (server_step s e)).
  assert (trusted (server_step s e) = trusted s) as Ht.
  { destruct e as [[u|]| |i line w|i|]; cbn; try done; try by destruct (accepting s).
    destruct (conns s !! i) as [c|]; [|done]. destruct (is_open c); [|done]. unfold serve_line.
    by destruct (Serve _ _ _ _ _ _) as [[out r] h]. }
  rewrite <-Ht. apply IH; [done|]. rewrite Ht.
  assert (forall i, Forall (fun c => P (CredsUid (dispatcher c)) /\ trustedUid (dispatcher c) = trusted s) (alter close_conn i (conns s))) as Hc.
  { intros i. apply Forall_alter; [done|]. by intros c _ Hc. }
  destruct e as [[u|]| |i line w|i|]; cbn; try done; try by destruct (accepting s).
  - destruct (accepting s); [|done]. cbn. apply Forall_app. split; [done|]. by repeat constructor.
  - destruct (conns s !! i) as [c|]; [|done]. destruct (is_open c); [|done]. unfold serve_line.
    destruct (Serve _ _ _ _ _ _) as [[out r] h]. cbn. by destruct r.
Qed.

(** C5: Whom the daemon obeys. Put together from the socket that [Listen] leaves
    at its path, the credentials each platform reads and the uid the daemon
    trusts: with a server made by [ServeIPC], whatever connections come over the
    transport and whatever is sent on them, what is served stays as it was unless
    one of them is a commander's - a process of the daemon's own user on Linux
    and on macOS with cgo, root too without cgo. This counts the connections made
    once [Listen] has returned whatever the umask, and those made between its
    bind and its chmod if the umask masks the write bits. On Windows, where the
    peers' uid reads 0 and the trusted one is that of -1, nobody is a commander:
    no call that changes anything is let through, not even the owner's. *)
Theorem whom_the_daemon_obeys (b : build) (k : ListenCalls) (uid umask : Z) (id : nat) (path : string) (fs0 : sock_fs)
    (ln : result listen_error nat) (names_env : string) (h : hstate) (srv : Server) (addr : string) (es : list server_event) :
  is_uid uid -> (b <> WindowsBuild -> ln = (Listen k uid umask id path fs0).1) ->
  ServeIPC b uid ln names_env h = Ok (srv, addr) ->
  let from := comes_from b uid id path (connects_at k uid umask id path fs0) in
  (Forall (from (fun peer => commander b uid peer = false)) es -> same h (served (after es srv))) /\
  (b = WindowsBuild -> Forall (from (fun _ => True)) es -> same h (served (after es srv))) /\
  (forall fs peer ok creds, connects_at k uid umask id path fs0 fs ->
     reaches b uid id path fs peer = true -> peerCreds b uid peer ok = Some creds ->
     authorizedForMutate {| CredsUid := creds; trustedUid := trusted srv |} = commander b uid peer).
Proof.
  intros Hu Hln Hs from. unfold ServeIPC in Hs. apply bind_Ok in Hs as (n & Hn & Hs).
  assert (srv = NewServer h (trusted_uid b uid)) as -> by (by injection Hs). clear Hs addr.
  assert (forall fs peer, connects_at k uid umask id path fs0 fs -> reaches b uid id path fs peer = true ->
    b = WindowsBuild \/ peer = 0%Z \/ peer = uid) as Hreach.
  { intros fs peer Hc Hr. destruct (decide (b = WindowsBuild)) as [?|Hb]; [by left|right].
    eapply reaches_owner; [done| |exact Hc|exact Hr]. rewrite <-(Hln Hb). apply map_err_Ok in Hn. by exists n. }
  assert (Forall (from (fun peer => commander b uid peer = false)) es -> same h (served (after es (NewServer h (trusted_uid b uid)))))
    as Hout.
  { intros Hes. apply (untrusted_after es (NewServer h (trusted_uid b uid))). intros (i & c & Hc & Ha).
    assert (Forall (fun c => authorizedForMutate {| CredsUid := CredsUid (dispatcher c); trustedUid := trusted_uid b uid |} = false /\
      trustedUid (dispatcher c) = trusted_uid b uid) (conns (after es (NewServer h (trusted_uid b uid))))) as Hall.
    { apply (conns_from es (NewServer h (trusted_uid b uid))
        (fun creds => authorizedForMutate {| CredsUid := creds; trustedUid := trusted_uid b uid |} = false)); [|constructor].
      eapply Forall_impl; [exact Hes|]. intros [[creds|]| | | |]; cbn; try done.
      intros (fs & peer & ok & Hf & Hw & Hr & Hp). symmetry in Hp.
      by rewrite (authorized_commander b uid peer ok creds Hu (Hreach fs peer Hf Hr) Hp). }
    rewrite Forall_lookup in Hall. destruct (Hall i c Hc) as [H1 H2]. destruct (dispatcher c) as [u t]. cbn in *. congruence. }
  split; [done|]. split.
  - intros -> Hes. apply Hout. eapply Forall_impl; [exact Hes|]. intros [[?|]| | | |]; cbn; naive_solver.
  - intros fs peer ok creds Hf Hr Hc. by apply (authorized_commander b uid peer ok creds Hu (Hreach fs peer Hf Hr)).
Qed.

(** Between bind and chmod the socket has what the umask leaves: with a umask that
    masks nothing, whoever connects then to a daemon run as root commands it. *)
Lemma early_stranger_commands fs0 path id h peer :
  is_uid peer -> peer <> 0%Z ->
  exists creds, reaches LinuxBuild 0 id path (bind_socket 0 0 id path fs0) peer = true /\
    peerCreds LinuxBuild 0 peer true = Some creds /\ commander LinuxBuild 0 peer = false /\
    authorizedForMutate {| CredsUid := creds; trustedUid := trusted (NewServer h (trusted_uid LinuxBuild 0)) |} = true.
Proof.
  intros Hp H0. exists peer. split_and!; [|done| |done].
  - cbn [reaches]. apply bool_decide_eq_true. unfold bind_socket. erewrite Dial_at by apply lookup_insert_eq. cbn [mode owner listener].
    unfold may_write, bound_mode. destruct (Z.eqb_spec peer 0); [done|]. reflexivity.
  - cbn. lia.
Qed.
End serve.

(** *** The socket *)

(** What [Listen] leaves: on success a socket that only its owner and root can
    connect to, and that answers; after an error what was there, or nothing. *)
Theorem Listen_exact (k : ListenCalls) (uid umask : Z) (id : nat) (path : string) (fs fs' : sock_fs) (r : result listen_error nat) :
  Listen k uid umask id path fs = (r, fs') ->
  (forall p, p <> path -> fs' !! p = fs !! p) /\
  match r with
  | Ok i => i = id /\ forall peer, Dial peer path fs' = if (peer =? 0)%Z || (peer =? uid)%Z then Some id else None
  | Err _ => fs' !! path = fs !! path \/ fs' !! path = None
  end.
Proof.
  intros E. split.
  - intros p Hp. revert E. unfold Listen, bind_socket. repeat case_match; intros [= <- <-];
      by rewrite ?lookup_alter_ne, ?lookup_delete_ne, ?lookup_insert_ne, ?lookup_delete_ne.
  - destruct r as [i|e].
    + destruct (Listen_Ok _ _ _ _ _ _ _ _ E) as [-> Hp]. split; [done|]. intros peer.
      rewrite (Dial_at _ _ _ _ Hp). cbn [mode owner listener]. by rewrite may_write_owner_only.
    + revert E. unfold Listen. repeat case_match; intros [= <- <-]; auto; right; apply lookup_delete_eq.
Qed.

(** A path another daemon listens on is taken from it: the removal of the stale
    socket does not ask whether it is stale. *)
Lemma live_socket_taken_over k uid umask id id' path s (fs : sock_fs) :
  mkdir_ok k = true -> remove_ok k = true -> bind_ok k = true -> chmod_ok k = true ->
  fs !! path = Some (Socket s) -> listener s = Some id' ->
  exists fs', Listen k uid umask id path fs = (Ok id, fs') /\ Dial uid path fs' = Some id.
Proof.
  intros H1 H2 H3 H4 _ _. unfold Listen. rewrite H1, H2, H3, H4, andb_false_r. cbn [negb]. eexists. split; [reflexivity|].
  unfold Dial, bind_socket. rewrite lookup_alter_eq, lookup_insert_eq. cbn. by rewrite may_write_owner_only, Z.eqb_refl, orb_true_r.
Qed.

(** ** A daemon on Linux and one on Windows *)
Module ToyTransport.
Definition calls : ListenCalls := {| mkdir_ok := true; remove_ok := true; bind_ok := true; chmod_ok := true |}.
Lemma Listen_exact_witness :
  exists fs, Listen calls 1000 18 1 "/run/goat.sock" (<["/run/goat.sock" := Socket {| owner := 1000; mode := 384; listener := Some 0 |}]> ∅) = (Ok 1, fs) /\
    Dial 1000 "/run/goat.sock" fs = Some 1 /\ Dial 1001 "/run/goat.sock" fs = None.
Proof.
  destruct (Listen calls 1000 18 1 "/run/goat.sock" (<["/run/goat.sock" := Socket {| owner := 1000; mode := 384; listener := Some 0 |}]> ∅))
    as [r fs] eqn:E.
  destruct (Listen_exact _ _ _ _ _ _ _ _ E) as [_ H]. destruct r as [i|e]; [|discriminate E].
  destruct H as [-> H]. exists fs. split; [reflexivity|]. rewrite !H. split; reflexivity.
Defined.

Import ToyDaemon ToySession.
Definition start_host : hstate := start.
(** On Linux root connects to another user's daemon and asks for a change: nothing happens. *)
Definition root_connects : list server_event := [Accepted (Some 0%Z); Line 0 (s2l "connect") true].
Lemma whom_the_daemon_obeys_witness :
  let srv := NewServer start_host (trusted_uid LinuxBuild 1000) in
  ServeIPC LinuxBuild 1000 (Ok 1) "" start_host = Ok (srv, "127.0.0.1:53530") /\ same start_host (served (after root_connects srv)).
Proof.
  intros srv.
  assert (ServeIPC LinuxBuild 1000 (Ok 1) "" start_host = Ok (srv, "127.0.0.1:53530")) as E by reflexivity.
  split; [exact E|].
  destruct (whom_the_daemon_obeys LinuxBuild calls 1000 18 1 "/run/goat.sock" ∅ (Ok 1) "" start_host srv "127.0.0.1:53530" root_connects
    ltac:(split; [discriminate|reflexivity]) ltac:(reflexivity) E) as (H & _).
  apply H. apply Forall_cons. split; [|by repeat constructor].
  eexists _, 0%Z, true. split_and!; [left; reflexivity|reflexivity|vm_compute; reflexivity|reflexivity].
Defined.
End ToyTransport.
