(* ===== verification/ServerConc.v ===== *)
(** The server with its connections as the goroutines they are: Serve of
    internal/ipc/server.go and dispatch.go over the interleaved handlers of
    DaemonConc.v.

    A connection handles one line at a time: it decodes it, refuses it or calls
    the handler, waits for the handler to return, and writes the answer. The
    handlers of different connections, the rounds of the supervisor and the
    forwarder's callback are threads whose locked stretches come in any order. Of
    an answer the model keeps the request's id and whether it was an error. Calls
    that only look, GetStatus with its cached counters among them, are answered at
    once; a file that is sent is outside the daemon's state. *)
From stdpp Require Import base tactics sets list gmap strings.
From Stdlib Require Import ZArith Ascii Lia.
From S2P Require Import DnsAdapter.
From S2P Require Import Prelude GoStr Fs Threads.
From S2P Require Import Mode.
From S2P Require Import Bundle.
From S2P Require Import Profile.
From S2P Require Import ProfileSpec.
From S2P Require Import Tunnel.
From S2P Require Import InnerMesh.
From S2P Require Import Ipc.
From S2P Require Import Daemon.
From S2P Require Import DaemonSpec.
From S2P Require Import DaemonConc.
From S2P Require Import DaemonFiles.
From S2P Require Import DaemonPeers.
From S2P Require Import DaemonIpc.
Local Open Scope list_scope.

(** ** Admission *)
Section admission.
Context {IJ : IpcJson}.

Inductive admission := Refuse (resp : rpcResponse) | Invoke (c : Ipc.call).
(** What [handle] does before it calls the handler. *)
Definition admission_of (d : Dispatcher) (req : rpcRequest) : admission :=
  let id := QID req in
  if negb (bool_decide (QJSONRPC req = "2.0")) || bool_decide (QMethod req = "")
  then Refuse (error_response id errCodeInvalidRequest "missing jsonrpc:2.0 or method")
  else if isMutating (QMethod req) && negb (authorizedForMutate d)
  then Refuse (error_response id errCodeUnauthorized "ipc: peer uid not authorized")
  else
    match decode_call (QMethod req) (QParams req) with
    | None => Refuse (error_response id errCodeMethodNotFound "ipc: unknown method")
    | Some (Err e) => Refuse (error_response id errCodeInvalidParams e)
    | Some (Ok c) => Invoke c
    end.

Lemma handle_admission {H : Handler} d req h :
  handle d req h = match admission_of d req with
                   | Refuse resp => (resp, h)
                   | Invoke c => let '(out, h') := invoke c h in (fillResult (QID req) out, h')
                   end.
Proof.
  unfold handle, admission_of. destruct (negb _ || _); [done|]. destruct (_ && _); [done|].
  by destruct (decode_call _ _) as [[c|e]|].
Qed.

Lemma admission_authorized d req c : admission_of d req = Invoke c -> mutates c = true -> authorizedForMutate d = true.
Proof.
  unfold admission_of. destruct (negb _ || _); [done|]. destruct (isMutating _) eqn:Em, (authorizedForMutate d); cbn; try done.
  destruct (decode_call _ _) as [[c'|e]|] eqn:Ed; [|done..]. intros [= <-]. apply decode_call_mutates in Ed. congruence.
Qed.
End admission.

(** ** The process *)
Section process.
Context {K : BundleCodec} {C : Crypto} {J : RawJson} {N : NetipLib} {U : NetText} {H : HostDNS}
  {T : TunnelManager} {M : Mesh} {MS : MeshSections} {IJ : IpcJson}.
Context (platform : os) (meshFactory : mesh) (cfg : Config) (trustedUid : Z).

(** An answer that was written: its id, and whether it is a result. *)
Record answer := { AId : chars; AOk : bool }.
Definition answer_of (r : rpcResponse) : answer := {| AId := PID r; AOk := match PError r with None => true | Some _ => false end |}.

(** A connection; [busy] is the thread of the call it waits for, with the id. *)
Record conn := { cdisp : Dispatcher; copen : bool; busy : option (nat * chars); written : list answer }.
(** Whose a thread is. *)
Inductive origin := Own (e : event) | By (i : nat) (c : Ipc.call).
Record process := { running : pool Shared bool; origins : list origin; conns : list conn; done : bool }.

Definition boot_process (st : pworld) (w : process) : Prop :=
  exists p, boot_pool platform meshFactory cfg st p /\ w = {| running := p; origins := []; conns := []; done := false |}.

Definition with_conn (i : nat) (c : conn) (w : process) : process :=
  {| running := running w; origins := origins w; conns := <[i := c]> (conns w); done := done w |}.
Definition spawn (o : origin) (p : prog Shared bool) (w : process) : process :=
  {| running := mkpool (shared (running w)) (threads (running w) ++ [p]); origins := origins w ++ [o]; conns := conns w; done := done w |}.
Definition waiting (t : nat) (id : chars) (c : conn) : conn :=
  {| cdisp := cdisp c; copen := copen c; busy := Some (t, id); written := written c |}.
(** The answer is written, or the connection ends with the attempt. *)
Definition answered (a : answer) (write_ok : bool) (c : conn) : conn :=
  {| cdisp := cdisp c; copen := copen c && write_ok; busy := None; written := if write_ok then written c ++ [a] else written c |}.
Definition ended (c : conn) : conn := {| cdisp := cdisp c; copen := false; busy := busy c; written := written c |}.

(** The daemon's own goroutines. *)
Definition own_event (e : event) : bool :=
  match e with EvSupervise _ | EvForwarderHealth _ _ | EvForwarderState _ | EvShutdown => true | _ => false end.

(** A line on connection [i], which waits for no call; [read_ok]: a call that only
    looks has a result. *)
Definition take_line (i : nat) (line : chars) (env : Env) (read_ok write_ok : bool) (c : conn) (w : process) : process :=
  if too_long line || done w then with_conn i (ended c) w
  else
    match json_request line with
    | Err e =>
      with_conn i {| cdisp := cdisp c; copen := copen c; busy := None;
                     written := if write_ok then written c ++ [answer_of (error_response [] errCodeParse e)] else written c |} w
    | Ok req =>
      match admission_of (cdisp c) req with
      | Refuse resp => with_conn i (answered (answer_of resp) write_ok c) w
      | Invoke call =>
        match event_of call ≫= start platform meshFactory cfg env with
        | Some p => with_conn i (waiting (length (threads (running w))) (QID req) c) (spawn (By i call) p w)
        | None => with_conn i (answered {| AId := QID req; AOk := read_ok |} write_ok c) w
        end
      end
    end.

Inductive move :=
  | MAccept (creds : Z)
  | MLine (i : nat) (line : chars) (env : Env) (read_ok write_ok : bool)
  | MReturn (i : nat) (write_ok : bool)
  | MHungUp (i : nat)
  | MOwn (env : Env) (e : event)
  | MGo (t : nat)
  | MCancel.

Definition perform (m : move) (w : process) : option process :=
  match m with
  | MAccept creds =>
    if done w then None
    else Some {| running := running w; origins := origins w;
                 conns := conns w ++ [{| cdisp := {| CredsUid := creds; Ipc.trustedUid := trustedUid |}; copen := true; busy := None; written := [] |}];
                 done := done w |}
  | MLine i line env read_ok write_ok =>
    c ← conns w !! i;
    match busy c with None => if copen c then Some (take_line i line env read_ok write_ok c w) else None | Some _ => None end
  | MReturn i write_ok =>
    c ← conns w !! i; '(t, id) ← busy c;
    match threads (running w) !! t with
    | Some (Ret ok) => Some (with_conn i (answered {| AId := id; AOk := ok |} write_ok c) w)
    | _ => None
    end
  | MHungUp i => c ← conns w !! i; match busy c with None => Some (with_conn i (ended c) w) | Some _ => None end
  | MOwn env e => if own_event e then p ← start platform meshFactory cfg env e; Some (spawn (Own e) p w) else None
  | MGo t => p ← advance t (running w); Some {| running := p; origins := origins w; conns := conns w; done := done w |}
  | MCancel => Some {| running := running w; origins := origins w; conns := conns w; done := true |}
  end.
Definition process_step (w : process) (m : move) (w' : process) : Prop := perform m w = Some w'.
Definition process_runs (st : pworld) : process -> Prop := reachable process_step (boot_process st).

(** ** Lemmas *)

(** What the threads say about the connections. *)
Record process_ok (st : pworld) (w : process) : Prop := {
  ok_pool : runs platform meshFactory cfg st (running w);
  ok_length : length (origins w) = length (threads (running w));
  ok_own : forall t e, origins w !! t = Some (Own e) -> own_event e = true;
  ok_by : forall t i call, origins w !! t = Some (By i call) ->
    exists c, conns w !! i = Some c /\ (mutates call = true -> authorizedForMutate (cdisp c) = true) /\
      ((exists id, busy c = Some (t, id)) \/ exists ok, threads (running w) !! t = Some (Ret ok));
  ok_busy : forall i c t id, conns w !! i = Some c -> busy c = Some (t, id) -> exists call, origins w !! t = Some (By i call) }.

(** A connection changes, and is free only if the thread it waited for is done. *)
Lemma ok_with_conn st i c c' w :
  process_ok st w -> conns w !! i = Some c -> cdisp c' = cdisp c ->
  (busy c' = busy c \/ busy c' = None /\ forall t id, busy c = Some (t, id) -> exists ok, threads (running w) !! t = Some (Ret ok)) ->
  process_ok st (with_conn i c' w).
Proof.
  intros [H1 H2 H3 H4 H5] Hc Hd Hb. constructor; cbn; try done.
  - intros t j call Ho. destruct (H4 t j call Ho) as (cj & Hj & Ha & Hr). destruct (decide (j = i)) as [->|Hne].
    + exists c'. rewrite list_lookup_insert_eq by by eapply lookup_lt_Some. rewrite Hc in Hj. injection Hj as <-.
      split_and!; [done|by rewrite Hd|]. destruct Hr as [[id Hid]|Hr]; [|by right].
      destruct Hb as [->|[_ Hb]]; [left; by exists id|right; by eapply Hb].
    + exists cj. by rewrite list_lookup_insert_ne.
  - intros j cj t id Hj Hbj. destruct (decide (j = i)) as [->|Hne].
    + rewrite list_lookup_insert_eq in Hj by by eapply lookup_lt_Some. injection Hj as <-.
      destruct Hb as [Hb|[Hb _]]; [|congruence]. rewrite Hb in Hbj. by eapply H5.
    + rewrite list_lookup_insert_ne in Hj by done. by eapply H5.
Qed.

Lemma runs_spawn st p w : runs platform meshFactory cfg st w -> (exists env e, start platform meshFactory cfg env e = Some p) ->
  runs platform meshFactory cfg st (mkpool (shared w) (threads w ++ [p])).
Proof. intros Hw Hp. eapply reach_step; [exact Hw|]. by apply (pool_start _ _ p). Qed.

Lemma ok_spawn_own st env e p w :
  process_ok st w -> own_event e = true -> start platform meshFactory cfg env e = Some p -> process_ok st (spawn (Own e) p w).
Proof.
  intros [H1 H2 H3 H4 H5] He Hp. constructor; cbn.
  - apply runs_spawn; eauto.
  - rewrite !length_app. cbn. by rewrite H2.
  - intros t e' [[_ Ht]|[_ Ht]]%lookup_snoc_Some; [by eapply H3|congruence].
  - intros t i call [[Hl Ht]|[_ Ht]]%lookup_snoc_Some; [|done]. destruct (H4 t i call Ht) as (c & Hc & Ha & Hr).
    exists c. split_and!; [done..|]. destruct Hr as [Hr|[ok Hr]]; [by left|right; exists ok]. by apply lookup_app_l_Some.
  - intros i c t id Hc Hb. destruct (H5 i c t id Hc Hb) as [call Ht]. exists call. by apply lookup_app_l_Some.
Qed.

(** A call starts on a connection that waits for none. *)
Lemma ok_spawn_call st i c call id env e p w :
  process_ok st w -> conns w !! i = Some c -> busy c = None -> (mutates call = true -> authorizedForMutate (cdisp c) = true) ->
  start platform meshFactory cfg env e = Some p ->
  process_ok st (with_conn i (waiting (length (threads (running w))) id c) (spawn (By i call) p w)).
Proof.
  intros [H1 H2 H3 H4 H5] Hc Hb Ha Hp. assert (i < length (conns w)) as Hi by by eapply lookup_lt_Some. constructor; cbn.
  - apply runs_spawn; eauto.
  - rewrite !length_app. cbn. by rewrite H2.
  - intros t e' [[_ Ht]|[_ Ht]]%lookup_snoc_Some; [by eapply H3|congruence].
  - intros t j call' [[Hl Ht]|[-> Ht]]%lookup_snoc_Some.
    + destruct (H4 t j call' Ht) as (cj & Hj & Haj & Hr). destruct (decide (j = i)) as [->|Hne].
      * rewrite Hc in Hj. injection Hj as <-. eexists. rewrite list_lookup_insert_eq by done. split; [reflexivity|]. split; [done|].
        right. destruct Hr as [[id' Hid]|[ok Hr]]; [congruence|]. exists ok. by apply lookup_app_l_Some.
      * exists cj. rewrite list_lookup_insert_ne by done. split_and!; [done..|].
        destruct Hr as [Hr|[ok Hr]]; [by left|right; exists ok]. by apply lookup_app_l_Some.
    + injection Ht as <- <-. eexists. rewrite list_lookup_insert_eq by done. split; [reflexivity|]. split; [done|]. left. exists id. cbn. by rewrite H2.
  - intros j cj t id' Hj Hbj. destruct (decide (j = i)) as [->|Hne].
    + rewrite list_lookup_insert_eq in Hj by done. injection Hj as <-. injection Hbj as <- <-. exists call. rewrite <-H2. apply lookup_snoc_Some. by right.
    + rewrite list_lookup_insert_ne in Hj by done. destruct (H5 j cj t id' Hj Hbj) as [call' Ht]. exists call'. by apply lookup_app_l_Some.
Qed.

Lemma ok_line st i line env ro wo c w :
  process_ok st w -> conns w !! i = Some c -> busy c = None -> process_ok st (take_line i line env ro wo c w).
Proof.
  intros Hok Hc Hb. unfold take_line.
  destruct (too_long line || done w); [apply (ok_with_conn st i c); auto|].
  destruct (json_request line) as [req|e]; [|apply (ok_with_conn st i c); auto].
  destruct (admission_of (cdisp c) req) as [resp|call] eqn:Ea; [apply (ok_with_conn st i c); auto|].
  destruct (event_of call) as [e|]; cbn [mbind option_bind]; [|apply (ok_with_conn st i c); auto].
  destruct (start platform meshFactory cfg env e) as [p|] eqn:Es; [|apply (ok_with_conn st i c); auto].
  eapply ok_spawn_call; [done..| |exact Es]. by eapply admission_authorized.
Qed.

Lemma ok_go st t p w : process_ok st w -> advance t (running w) = Some p ->
  process_ok st {| running := p; origins := origins w; conns := conns w; done := done w |}.
Proof.
  intros [H1 H2 H3 H4 H5] Hp. pose proof Hp as (f & k & Hl & Ep)%advance_inv. subst p. constructor; cbn; try done.
  - eapply reach_step; [exact H1|]. by apply (pool_go _ _ t).
  - by rewrite length_insert.
  - intros t' i call Ht. destruct (H4 t' i call Ht) as (c & Hc & Ha & Hr). exists c. split_and!; [done..|].
    destruct Hr as [Hr|[ok Hr]]; [by left|right]. exists ok. rewrite list_lookup_insert_ne; [done|]. intros ->. congruence.
Qed.

Lemma process_step_ok st w m w' : process_ok st w -> perform m w = Some w' -> process_ok st w'.
Proof.
  intros Hok. destruct m as [creds|i line env ro wo|i wo|i|env e|t|]; cbn [perform].
  - destruct (done w); [done|]. intros [= <-]. destruct Hok as [H1 H2 H3 H4 H5]. constructor; cbn; try done.
    + intros t i call Ht. destruct (H4 t i call Ht) as (c & Hc & Hr). exists c. split; [by apply lookup_app_l_Some|done].
    + intros i c t id [[_ Hc]|[_ <-]]%lookup_snoc_Some Hb; [by eapply H5|done].
  - destruct (conns w !! i) as [c|] eqn:Hc; [|done]. cbn [mbind option_bind]. destruct (busy c) eqn:Hb; [done|].
    destruct (copen c); [|done]. intros [= <-]. by apply ok_line.
  - destruct (conns w !! i) as [c|] eqn:Hc; [|done]. cbn [mbind option_bind]. destruct (busy c) as [[t id]|] eqn:Hb; [|done]. cbn.
    destruct (threads (running w) !! t) as [[ok|]|] eqn:Ht; [|done..]. intros [= <-]. apply (ok_with_conn st i c); [done..|].
    right. split; [done|]. intros t' id'. rewrite Hb. intros [= <- <-]. by exists ok.
  - destruct (conns w !! i) as [c|] eqn:Hc; [|done]. cbn [mbind option_bind]. destruct (busy c) eqn:Hb; [done|]. intros [= <-].
    apply (ok_with_conn st i c); auto.
  - destruct (own_event e) eqn:He; [|done]. destruct (start _ _ _ env e) as [p|] eqn:Es; [|done]. intros [= <-]. by eapply ok_spawn_own.
  - destruct (advance t (running w)) as [p|] eqn:Hp; [|done]. intros [= <-]. by eapply ok_go.
  - intros [= <-]. destruct Hok. by constructor.
Qed.

Lemma process_runs_ok st w : process_runs st w -> process_ok st w.
Proof.
  apply reachable_invariant; [|intros v m v' H1 H2; by eapply process_step_ok].
  intros v (p & Hp & ->). pose proof Hp as (d & _ & Ep). constructor; cbn; try done; try (by intros; rewrite lookup_nil in * ).
  - by apply reach_init.
  - by subst p.
Qed.

(** Every connection trusts the server's uid. *)
Lemma conns_trust st w : process_runs st w -> Forall (fun c => Ipc.trustedUid (cdisp c) = trustedUid) (conns w).
Proof.
  revert w. apply (reachable_invariant _ _ (fun w => Forall (fun c => Ipc.trustedUid (cdisp c) = trustedUid) (conns w)));
    [by intros v (p & _ & ->); constructor|]. intros v m v' Hv Hm.
  assert (forall i c c', conns v !! i = Some c -> cdisp c' = cdisp c ->
    Forall (fun c => Ipc.trustedUid (cdisp c) = trustedUid) (<[i := c']> (conns v))) as Hset.
  { intros i c c' Hc Hd. apply Forall_insert; [done|]. rewrite Hd. exact (proj1 (Forall_lookup _ _) Hv i c Hc). }
  revert Hm. unfold process_step. destruct m as [creds|i line env ro wo|i wo|i|env e|t|]; cbn [perform].
  - destruct (done v); [done|]. intros [= <-]. apply Forall_app. split; [done|]. by repeat constructor.
  - destruct (conns v !! i) as [c|] eqn:Hc; [|done]. cbn [mbind option_bind]. destruct (busy c); [done|].
    destruct (copen c); [|done]. intros [= <-]. unfold take_line.
    repeat case_match; cbn; by eapply Hset.
  - destruct (conns v !! i) as [c|] eqn:Hc; [|done]. cbn [mbind option_bind]. destruct (busy c) as [[t id]|]; [|done]. cbn.
    destruct (threads (running v) !! t) as [[ok|]|]; [|done..]. intros [= <-]. by eapply Hset.
  - destruct (conns v !! i) as [c|] eqn:Hc; [|done]. cbn [mbind option_bind]. destruct (busy c); [done|]. intros [= <-]. by eapply Hset.
  - destruct (own_event e); [|done]. destruct (start _ _ _ env e); [|done]. by intros [= <-].
  - destruct (advance t (running v)); [|done]. by intros [= <-].
  - by intros [= <-].
Qed.

(** The whole server, its handlers interleaved. Whatever connections are open,
    whatever lines come on them, with rounds of the supervisor and news from the
    forwarder in between and the locked stretches of all that is under way in any
    order: the bundle the daemon runs on and those it stores are verified; a thread
    that is neither the supervisor's nor the forwarder's is the call of one
    connection, of the trusted uid (or any, where that is 0) if the call changes
    something; and a connection waits for its call - for one at a time, and
    whatever else was called on it has returned. *)
Theorem concurrent_server_keeps_order (st : pworld) (w : process) :
  reachable (store_step (CfgTrustRoots cfg)) no_bundle_files (disk st) -> process_runs st w ->
  (forall b, currentBundle (base (shared (running w))) = Some b ->
     VerifyBundle (CfgTrustRoots cfg) b = Ok tt /\ CheckCPDeviceKeypair b = Ok tt) /\
  bundles_verified (CfgTrustRoots cfg) (Fs.disk (store (base (shared (running w))))) /\
  (forall t p, threads (running w) !! t = Some p ->
     (exists e, origins w !! t = Some (Own e) /\ own_event e = true) \/
     exists i call c, origins w !! t = Some (By i call) /\ conns w !! i = Some c /\
       (mutates call = true -> trustedUid = 0%Z \/ CredsUid (cdisp c) = trustedUid) /\
       ((exists id, busy c = Some (t, id)) \/ exists ok, p = Ret ok)) /\
  (forall i c t id, conns w !! i = Some c -> busy c = Some (t, id) -> exists call, origins w !! t = Some (By i call)).
Proof.
  intros Hst Hw. pose proof (process_runs_ok st w Hw) as [H1 H2 H3 H4 H5].
  destruct (pool_safe (sound cfg) any (started platform meshFactory cfg) (boot_pool platform meshFactory cfg st))
    with (w := running w) as [[Hb Hd] _]; [|by intros; apply (sound_boot platform meshFactory cfg st)|done|].
  { intros p (env & e & Hp). by eapply sound_start. }
  split_and!; [exact Hd|exact Hb| |done]. intros t p Ht.
  destruct (origins w !! t) as [[e|i call]|] eqn:Ho.
  - left. exists e. split; [done|]. by eapply H3.
  - right. destruct (H4 t i call Ho) as (c & Hc & Ha & Hr). exists i, call, c. split_and!; [done..| |].
    + intros Hm. specialize (Ha Hm). pose proof (proj1 (Forall_lookup _ _) (conns_trust st w Hw) i c Hc) as Htr. cbn in Htr.
      unfold authorizedForMutate in Ha. rewrite Htr in Ha. lia.
    + destruct Hr as [Hr|[ok Hr]]; [by left|right]. exists ok. congruence.
  - apply lookup_ge_None in Ho. apply lookup_lt_Some in Ht. lia.
Qed.
End process.

(** ** The trusted user and a guest at once *)
Module ToyProcess.
Import ToyDaemon Races.
#[export] Existing Instance ToyIpc.json.
Definition boot_up : process := {| running := Races.boot_up; origins := []; conns := []; done := false |}.
Abbreviation act := (perform Linux new_mesh cfg 1000).
(** Both ask to connect; only one of them is let, and waits. *)
Definition both_ask : list move :=
  [MAccept 1000; MAccept 1001; MLine 1 (s2l "connect") env true true; MLine 0 (s2l "connect") env true true; MGo 0].
Definition asked : process := drive act boot_up both_ask.
Lemma asked_runs : process_runs Linux new_mesh cfg 1000 empty_store asked.
Proof.
  assert (process_runs Linux new_mesh cfg 1000 empty_store boot_up) as H by (apply reach_init; exists Races.boot_up; split; [apply boots_up|done]).
  unfold asked. revert H. generalize boot_up. induction both_ask as [|m ms IH]; intros w Hw; [done|]. cbn. apply IH.
  destruct (act m w) as [w'|] eqn:E; [|done]. eapply reach_step; [exact Hw|exact E].
Qed.

Lemma asked_state :
  (busy <$> conns asked !! 0) = Some (Some (0, s2l "1")) /\ (length ∘ written <$> conns asked !! 1) = Some 1 /\
  length (threads (running asked)) = 1.
Proof. split_and!; vm_compute; reflexivity. Qed.

Lemma concurrent_server_keeps_order_witness :
  exists call c, origins asked !! 0 = Some (By 0 call) /\ conns asked !! 0 = Some c /\ CredsUid (cdisp c) = 1000%Z.
Proof.
  destruct (conns asked !! 0) as [c|] eqn:Ec; [|vm_compute in Ec; discriminate Ec].
  assert (busy c = Some (0, s2l "1")) as Hb.
  { assert (busy <$> conns asked !! 0 = Some (Some (0, s2l "1"))) as H by (vm_compute; reflexivity). rewrite Ec in H. by injection H. }
  destruct (concurrent_server_keeps_order Linux new_mesh cfg 1000 empty_store asked ToySession.store_reached asked_runs) as (_ & _ & _ & H).
  destruct (H 0 c 0 _ Ec Hb) as [call Ho]. exists call, c. split; [exact Ho|]. split; [reflexivity|].
  assert (CredsUid ∘ cdisp <$> conns asked !! 0 = Some 1000%Z) as Hu by (vm_compute; reflexivity). rewrite Ec in Hu. by injection Hu.
Defined.
End ToyProcess.
