(* ===== verification/ClientApi.v ===== *)
(** What the front ends see of the daemon: internal/ipc/types.go and the choice
    of a client in client.go.

    [Client] is the interface ipc.Client; its implementations are the stub of
    StubClient.v and the real client of DaemonClient.v. An error is its text. *)
From stdpp Require Import base tactics list strings.
From Stdlib Require Import ZArith Ascii.
From S2P Require Import Prelude GoStr.
From S2P Require Import Profile.
From S2P Require Import Ipc.
From S2P Require Import Daemon.
From S2P Require Import FileDrop.
From S2P Require Import DaemonFiles.
From S2P Require Import DaemonPeers.
Local Open Scope list_scope.

(** The wire strings of a State. *)
Definition state_text (s : State) : string :=
  match s with
  | StateDisconnected => "disconnected"
  | StateConnecting => "connecting"
  | StateConnected => "connected"
  | StateError => "error"
  end.
#[export] Instance State_eq_dec : EqDecision State.
Proof. solve_decision. Defined.

Record BundleInfo := {
  biIssuedTo : string;
  biSite : string;
  biNotBefore : Z;
  biNotAfter : Z;
  biPeerPubKey : string;
  biEndpoints : list string }.

Record InnerMeshInfo := {
  imState : State;
  imPeerCount : Z;
  imBytesIn : Z;
  imBytesOut : Z;
  imLastHandshake : Z;
  imRosenpassPeers : Z;
  imRosenpassEnabled : bool;
  imRosenpassPermissive : bool }.

Record StatusInfo := {
  siMode : string;
  siState : State;
  siInterfaceName : string;
  siLastHandshake : Z;
  siBytesIn : Z;
  siBytesOut : Z;
  siPeerPubKey : string;
  siEndpoints : list string;
  siBundleImported : bool;
  siBundle : option BundleInfo;
  siErrorMessage : string;
  siInnerMesh : option InnerMeshInfo;
  siNames : option NamesSnapshot }.

Record Diagnostics := {
  diLogTail : list string;
  diLastProbe : Z;
  diReachable : bool;
  diProbeError : string }.

Record SetRosenpassReply := {
  srPreviousEnabled : bool;
  srPreviousPermissive : bool;
  srEnabled : bool;
  srPermissive : bool }.

(** ipc.Client. A profile's wire shape is profile.Info's; Close is left out. *)
Class Client := {
  cstate : Type;
  cImportBundle : chars -> action cstate string BundleInfo;
  cGetStatus : action cstate string StatusInfo;
  cConnect : action cstate string unit;
  cDisconnect : action cstate string unit;
  cGetDiagnostics : action cstate string Diagnostics;
  cGetMode : action cstate string string;
  cSetMode : string -> action cstate string string;
  cSetRosenpass : bool -> bool -> action cstate string SetRosenpassReply;
  cListProfiles : action cstate string (list Info);
  cAddProfile : Ipc.AddProfileRequest -> action cstate string Info;
  cRemoveProfile : string -> action cstate string unit;
  cRenameProfile : string -> string -> action cstate string Info;
  cSetActiveProfile : string -> action cstate string (string * Info);
  cGetActiveProfile : action cstate string (option Info * bool);
  cGetPeerConnectivity : action cstate string (list PeerConnectivity);
  cGetIncomingFiles : action cstate string (list Received);
  cSendFile : string -> string -> action cstate string SendFileReply }.

(** [NewClient]: the stub, or what Dial is given. *)
Inductive endpoint := Stub | Dialled (target : string).
Definition NewClient (addr : string) : endpoint :=
  if bool_decide (addr = "") || has_prefix addr "stub://" then Stub
  else Dialled (if has_prefix addr "unix://" then trim_prefix addr "unix://" else addr).
Definition DefaultAddr (windows : bool) : string :=
  if windows then "\\.\pipe\goat-clientd" else "unix:///var/run/goat-clientd.sock".
Example NewClient_ok :
  NewClient <$> [""; "stub://x"; "unix:///run/g.sock"; "/run/g.sock"; DefaultAddr true] =
  [Stub; Stub; Dialled "/run/g.sock"; Dialled "/run/g.sock"; Dialled "\\.\pipe\goat-clientd"].
Proof. reflexivity. Qed.
