(* ===== verification/StubClient.v ===== *)
(** The in-process client used without a daemon: internal/ipc/stub.go.

    Calls take the time; the goroutines that Connect and SetMode start are
    [timers], which may fire or be cancelled with their context at any moment.
    Ranging over the map of profiles gives them in some order ([order]). *)
From stdpp Require Import base tactics list gmap strings.
From Stdlib Require Import ZArith Ascii Lia.
From S2P Require Import Prelude GoStr GoFmt.
From S2P Require Import Mode.
From S2P Require Import Profile.
From S2P Require Import PeerPing.
From S2P Require Import InnerMesh.
From S2P Require Import Ipc.
From S2P Require Import Daemon.
From S2P Require Import FileDrop.
From S2P Require Import DaemonFiles.
From S2P Require Import DaemonPeers.
From S2P Require Import ClientApi.
Local Open Scope list_scope.

(** The tunnel of Connect comes up; the reconcile of SetMode completes. *)
Inductive timer := TunnelUp | Reconciled (m : string).

Record stubClient := {
  bundle : option BundleInfo;
  status : StatusInfo;
  logs : list string;
  mode : string;
  profiles : gmap string Info;
  active : string;
  timers : list timer }.

#[export] Instance set_bundle : Setter bundle := fun g c =>
  {| bundle := g (bundle c); status := status c; logs := logs c; mode := mode c; profiles := profiles c; active := active c; timers := timers c |}.
#[export] Instance set_status : Setter status := fun g c =>
  {| bundle := bundle c; status := g (status c); logs := logs c; mode := mode c; profiles := profiles c; active := active c; timers := timers c |}.
#[export] Instance set_logs : Setter logs := fun g c =>
  {| bundle := bundle c; status := status c; logs := g (logs c); mode := mode c; profiles := profiles c; active := active c; timers := timers c |}.
#[export] Instance set_mode : Setter mode := fun g c =>
  {| bundle := bundle c; status := status c; logs := logs c; mode := g (mode c); profiles := profiles c; active := active c; timers := timers c |}.
#[export] Instance set_profiles : Setter profiles := fun g c =>
  {| bundle := bundle c; status := status c; logs := logs c; mode := mode c; profiles := g (profiles c); active := active c; timers := timers c |}.
#[export] Instance set_active : Setter active := fun g c =>
  {| bundle := bundle c; status := status c; logs := logs c; mode := mode c; profiles := profiles c; active := g (active c); timers := timers c |}.
#[export] Instance set_timers : Setter timers := fun g c =>
  {| bundle := bundle c; status := status c; logs := logs c; mode := mode c; profiles := profiles c; active := active c; timers := g (timers c) |}.

(** Updates of the status. *)
Definition with_state (s : State) (i : StatusInfo) : StatusInfo :=
  {| siMode := siMode i; siState := s; siInterfaceName := siInterfaceName i; siLastHandshake := siLastHandshake i;
     siBytesIn := siBytesIn i; siBytesOut := siBytesOut i; siPeerPubKey := siPeerPubKey i; siEndpoints := siEndpoints i;
     siBundleImported := siBundleImported i; siBundle := siBundle i; siErrorMessage := siErrorMessage i;
     siInnerMesh := siInnerMesh i; siNames := siNames i |}.
Definition with_error (e : string) (i : StatusInfo) : StatusInfo :=
  {| siMode := siMode i; siState := siState i; siInterfaceName := siInterfaceName i; siLastHandshake := siLastHandshake i;
     siBytesIn := siBytesIn i; siBytesOut := siBytesOut i; siPeerPubKey := siPeerPubKey i; siEndpoints := siEndpoints i;
     siBundleImported := siBundleImported i; siBundle := siBundle i; siErrorMessage := e;
     siInnerMesh := siInnerMesh i; siNames := siNames i |}.
Definition with_bundle (b : option BundleInfo) (imported : bool) (i : StatusInfo) : StatusInfo :=
  {| siMode := siMode i; siState := siState i; siInterfaceName := siInterfaceName i; siLastHandshake := siLastHandshake i;
     siBytesIn := siBytesIn i; siBytesOut := siBytesOut i; siPeerPubKey := siPeerPubKey i; siEndpoints := siEndpoints i;
     siBundleImported := imported; siBundle := b; siErrorMessage := siErrorMessage i;
     siInnerMesh := siInnerMesh i; siNames := siNames i |}.
Definition with_counters (handshake bytes_in bytes_out : Z) (i : StatusInfo) : StatusInfo :=
  {| siMode := siMode i; siState := siState i; siInterfaceName := siInterfaceName i; siLastHandshake := handshake;
     siBytesIn := bytes_in; siBytesOut := bytes_out; siPeerPubKey := siPeerPubKey i; siEndpoints := siEndpoints i;
     siBundleImported := siBundleImported i; siBundle := siBundle i; siErrorMessage := siErrorMessage i;
     siInnerMesh := siInnerMesh i; siNames := siNames i |}.
Definition with_mode (m : string) (i : StatusInfo) : StatusInfo :=
  {| siMode := m; siState := siState i; siInterfaceName := siInterfaceName i; siLastHandshake := siLastHandshake i;
     siBytesIn := siBytesIn i; siBytesOut := siBytesOut i; siPeerPubKey := siPeerPubKey i; siEndpoints := siEndpoints i;
     siBundleImported := siBundleImported i; siBundle := siBundle i; siErrorMessage := siErrorMessage i;
     siInnerMesh := siInnerMesh i; siNames := siNames i |}.
Definition with_inner (m : option InnerMeshInfo) (i : StatusInfo) : StatusInfo :=
  {| siMode := siMode i; siState := siState i; siInterfaceName := siInterfaceName i; siLastHandshake := siLastHandshake i;
     siBytesIn := siBytesIn i; siBytesOut := siBytesOut i; siPeerPubKey := siPeerPubKey i; siEndpoints := siEndpoints i;
     siBundleImported := siBundleImported i; siBundle := siBundle i; siErrorMessage := siErrorMessage i;
     siInnerMesh := m; siNames := siNames i |}.
(** The tunnel is up to the peer of [b]. *)
Definition up_to (b : BundleInfo) (i : StatusInfo) : StatusInfo :=
  {| siMode := siMode i; siState := StateConnected; siInterfaceName := "wg-cp0"; siLastHandshake := siLastHandshake i;
     siBytesIn := siBytesIn i; siBytesOut := siBytesOut i; siPeerPubKey := biPeerPubKey b; siEndpoints := biEndpoints b;
     siBundleImported := siBundleImported i; siBundle := siBundle i; siErrorMessage := siErrorMessage i;
     siInnerMesh := siInnerMesh i; siNames := siNames i |}.

(** ** Slugs *)
Fixpoint stub_slug_go (prevDash : bool) (l : chars) : chars :=
  match l with
  | [] => []
  | c :: l' =>
    if is_upper c then lower_ascii c :: stub_slug_go false l'
    else if is_lower c || is_digit c then c :: stub_slug_go false l'
    else if prevDash then stub_slug_go true l' else dash :: stub_slug_go true l'
  end.
Fixpoint drop_dashes (l : chars) : chars :=
  match l with
  | c :: l' => if bool_decide (c = dash) then drop_dashes l' else l
  | [] => []
  end.
Definition stubSlugify (s : string) : string := l2s (reverse (drop_dashes (reverse (stub_slug_go true (s2l s))))).

(** ** Calls *)
Definition max_logs : nat := 200.
Definition appendLog (now : Z) (line : string) (c : stubClient) : stubClient :=
  c <| logs := lastn max_logs (logs c ++ [rfc3339 now +:+ "  " +:+ line]) |>.

Definition zero_inner : InnerMeshInfo :=
  {| imState := StateDisconnected; imPeerCount := 0; imBytesIn := 0; imBytesOut := 0; imLastHandshake := zero_time;
     imRosenpassPeers := 0; imRosenpassEnabled := false; imRosenpassPermissive := false |}.
Definition inner_in (s : State) (peers : Z) : InnerMeshInfo :=
  {| imState := s; imPeerCount := peers; imBytesIn := 0; imBytesOut := 0; imLastHandshake := zero_time;
     imRosenpassPeers := 0; imRosenpassEnabled := false; imRosenpassPermissive := false |}.
Definition with_rosenpass (enabled permissive : bool) (i : InnerMeshInfo) : InnerMeshInfo :=
  {| imState := imState i; imPeerCount := imPeerCount i; imBytesIn := imBytesIn i; imBytesOut := imBytesOut i;
     imLastHandshake := imLastHandshake i; imRosenpassPeers := imRosenpassPeers i;
     imRosenpassEnabled := enabled; imRosenpassPermissive := permissive |}.

Definition newStubClient (now : Z) : stubClient :=
  appendLog now "stub IPC client initialised; awaiting Track A daemon"
    {| bundle := None;
       status := {| siMode := "combined"; siState := StateDisconnected; siInterfaceName := ""; siLastHandshake := zero_time;
                    siBytesIn := 0; siBytesOut := 0; siPeerPubKey := ""; siEndpoints := []; siBundleImported := false;
                    siBundle := None; siErrorMessage := ""; siInnerMesh := None; siNames := None |};
       logs := []; mode := "combined"; profiles := ∅; active := ""; timers := [] |}.

Definition upd {E} (f : stubClient -> stubClient) : action stubClient E unit := run (modify f).
Definition look {E} : action stubClient E stubClient := run get.

Definition wgcp0_mode (m : string) : bool := bool_decide (m = "wg-cp0-only") || bool_decide (m = "combined").
Definition netbird_mode (m : string) : bool := bool_decide (m = "netbird-only") || bool_decide (m = "combined").

Section calls.
Context (order : list Info -> list Info) (now : Z).

Definition canned : BundleInfo :=
  {| biIssuedTo := "stub-device"; biSite := "lab-stub"; biNotBefore := now - 3600 * second;
     biNotAfter := now + 90 * 24 * 3600 * second; biPeerPubKey := "STUB+wg-cp0+peer+pubkey+base64==";
     biEndpoints := ["wg-cp0.example.invalid:51821"] |}.

Definition ImportBundle (raw : chars) : action stubClient string BundleInfo :=
  if length raw =? 0 then fail "bundle is empty"
  else
    _ ← upd (fun c => appendLog now ("imported bundle (" +:+ itoa (Z.of_nat (length raw)) +:+
                 " bytes) — issued-to=stub-device site=lab-stub")
               (c <| bundle := Some canned |> <| status := with_bundle (Some canned) true (status c) |>));
    mret canned.

Definition GetStatus : action stubClient string StatusInfo :=
  c ← look;
  let s := match bundle c with Some b => with_bundle (Some b) (siBundleImported (status c)) (status c) | None => status c end in
  mret (if bool_decide (siState s = StateConnected)
        then with_counters (now - 30 * second) (siBytesIn s + 4096) (siBytesOut s + 1024) s else s).

Definition Connect : action stubClient string unit :=
  c ← look;
  match bundle c with
  | None => fail "no bundle imported"
  | Some _ =>
    upd (fun c => appendLog now "connect requested → entering connecting state"
           (c <| status := with_error "" (with_state StateConnecting (status c)) |>
              <| timers := timers c ++ [TunnelUp] |>))
  end.

Definition Disconnect : action stubClient string unit :=
  upd (fun c => appendLog now "disconnect requested → tunnel down"
         (c <| status := with_counters zero_time 0 0 (with_state StateDisconnected (status c)) |>)).

Definition GetMode : action stubClient string string := c ← look; mret (mode c).

Definition reconciling (m : string) (s : StatusInfo) : StatusInfo :=
  with_inner (if netbird_mode m then Some (inner_in StateConnecting 0) else None)
    (with_state (if wgcp0_mode m then StateConnecting else StateDisconnected) (with_mode m s)).
Definition SetMode (m : string) : action stubClient string string :=
  if negb (bool_decide (m ∈ ["wg-cp0-only"; "netbird-only"; "combined"])) then fail ("unknown mode " +:+ l2s (quote (s2l m)))
  else
    c ← look;
    _ ← upd (fun c => appendLog now ("setMode: " +:+ mode c +:+ " → " +:+ m +:+ " (stub reconcile)")
               (c <| mode := m |> <| status := reconciling m (status c) |> <| timers := timers c ++ [Reconciled m] |>));
    mret (mode c).

Definition SetRosenpass (enabled permissive : bool) : action stubClient string SetRosenpassReply :=
  c ← look;
  let inner := default zero_inner (siInnerMesh (status c)) in
  _ ← upd (fun c => appendLog now ("setRosenpass: enabled=" +:+ fmt_bool enabled +:+ " permissive=" +:+ fmt_bool permissive +:+ " (stub)")
             (c <| status := with_inner (Some (with_rosenpass enabled permissive inner)) (status c) |>));
  mret {| srPreviousEnabled := imRosenpassEnabled inner; srPreviousPermissive := imRosenpassPermissive inner;
          srEnabled := enabled; srPermissive := permissive |}.

Definition GetDiagnostics : action stubClient string Diagnostics :=
  c ← look;
  mret {| diLogTail := logs c; diLastProbe := now; diReachable := bool_decide (siState (status c) = StateConnected);
          diProbeError := "" |}.

Definition ListProfiles : action stubClient string (list Info) :=
  c ← look;
  mret (order ((fun '(slug, p) => set_active_flag (bool_decide (slug = active c)) p) <$> map_to_list (profiles c))).

Definition stub_info (req : Ipc.AddProfileRequest) (slug m : string) (created : Z) : Info :=
  {| iName := ReqName req; iSlug := slug; iMode := m; iDeviceID := "stub-device"; iSite := "stub-site";
     iExpiresAt := zero_time; iCreatedAt := created; iUpdatedAt := now; iActive := false |}.
Definition AddProfile (req : Ipc.AddProfileRequest) : action stubClient string Info :=
  if length (ReqBundleBytes req) =? 0 then fail "bundle is empty"
  else if bool_decide (ReqName req = "") then fail "name is empty"
  else
    let slug := stubSlugify (ReqName req) in
    if bool_decide (slug = "") then fail "name slugifies to empty"
    else
      c ← look;
      if bool_decide (is_Some (profiles c !! slug)) && negb (ReqReplace req)
      then fail ("profile " +:+ l2s (quote (s2l slug)) +:+ " already exists")
      else
        let m := if bool_decide (ReqProfileMode req = "") then mode c else ReqProfileMode req in
        let info := stub_info req slug m (match profiles c !! slug with Some p => iCreatedAt p | None => now end) in
        _ ← upd (fun c => appendLog now ("addProfile " +:+ slug +:+ " (mode=" +:+ m +:+ ", active=" +:+ fmt_bool (ReqSetActive req) +:+ ")")
                   (c <| profiles := <[slug := info]> (profiles c) |>
                      <| active := if ReqSetActive req then slug else active c |>));
        mret info.

Definition not_found (slug : string) : string := "profile " +:+ l2s (quote (s2l slug)) +:+ " not found".
Definition RemoveProfile (slug : string) : action stubClient string unit :=
  c ← look;
  match profiles c !! slug with
  | None => fail (not_found slug)
  | Some _ =>
    upd (fun c => appendLog now ("removeProfile " +:+ slug)
           (c <| profiles := delete slug (profiles c) |>
              <| active := if bool_decide (active c = slug) then "" else active c |>))
  end.

Definition renamed (newName newSlug : string) (p : Info) : Info :=
  {| iName := newName; iSlug := newSlug; iMode := iMode p; iDeviceID := iDeviceID p; iSite := iSite p;
     iExpiresAt := iExpiresAt p; iCreatedAt := iCreatedAt p; iUpdatedAt := now; iActive := iActive p |}.
Definition RenameProfile (slug newName : string) : action stubClient string Info :=
  let newSlug := stubSlugify newName in
  if bool_decide (newSlug = "") then fail "name slugifies to empty"
  else
    c ← look;
    match profiles c !! slug with
    | None => fail (not_found slug)
    | Some cur =>
      if negb (bool_decide (newSlug = slug)) && bool_decide (is_Some (profiles c !! newSlug))
      then fail ("profile " +:+ l2s (quote (s2l newSlug)) +:+ " already exists")
      else
        let cur := renamed newName newSlug cur in
        _ ← upd (fun c => appendLog now ("renameProfile " +:+ slug +:+ " → " +:+ newSlug)
                   (c <| profiles := <[newSlug := cur]> (if bool_decide (newSlug = slug) then profiles c else delete slug (profiles c)) |>
                      <| active := if negb (bool_decide (newSlug = slug)) && bool_decide (active c = slug) then newSlug else active c |>));
        mret cur
    end.

Definition SetActiveProfile (slug : string) : action stubClient string (string * Info) :=
  c ← look;
  match profiles c !! slug with
  | None => fail (not_found slug)
  | Some cur =>
    _ ← upd (fun c => appendLog now ("setActiveProfile " +:+ active c +:+ " → " +:+ slug +:+ " (stub)") (c <| active := slug |>));
    mret (active c, set_active_flag true cur)
  end.

(** A name without a profile would give the zero profile. *)
Definition zero_info : Info :=
  {| iName := ""; iSlug := ""; iMode := ""; iDeviceID := ""; iSite := ""; iExpiresAt := zero_time;
     iCreatedAt := zero_time; iUpdatedAt := zero_time; iActive := false |}.
Definition GetActiveProfile : action stubClient string (option Info * bool) :=
  c ← look;
  if bool_decide (active c = "") then mret (None, false)
  else mret (Some (set_active_flag true (default zero_info (profiles c !! active c))), true).

(** A timer fires. No timer of Connect is pending without a bundle ([so_timers]). *)
Definition tunnel_up (c : stubClient) : stubClient :=
  if negb (bool_decide (siState (status c) = StateConnecting)) then c
  else match bundle c with
       | Some b => appendLog now "tunnel up (stub)" (c <| status := up_to b (status c) |>)
       | None => c
       end.
Definition reconciled (m : string) (c : stubClient) : stubClient :=
  if negb (bool_decide (mode c = m)) then c
  else
    let s := if wgcp0_mode m then match bundle c with Some b => up_to b (status c) | None => with_state StateDisconnected (status c) end
             else status c in
    let s := if netbird_mode m then with_inner (Some (inner_in StateConnected 3)) s else s in
    appendLog now ("setMode reconcile complete: " +:+ m +:+ " up") (c <| status := s |>).
Definition fire (t : timer) : stubClient -> stubClient :=
  match t with TunnelUp => tunnel_up | Reconciled m => reconciled m end.
End calls.

#[export] Instance stub_client (order : list Info -> list Info) (now : Z) : Client := {|
  cstate := stubClient;
  cImportBundle := ImportBundle now; cGetStatus := GetStatus now; cConnect := Connect now; cDisconnect := Disconnect now;
  cGetDiagnostics := GetDiagnostics now; cGetMode := GetMode; cSetMode := SetMode now; cSetRosenpass := SetRosenpass now;
  cListProfiles := ListProfiles order; cAddProfile := AddProfile now; cRemoveProfile := RemoveProfile now;
  cRenameProfile := RenameProfile now; cSetActiveProfile := SetActiveProfile now; cGetActiveProfile := GetActiveProfile;
  cGetPeerConnectivity := mret []; cGetIncomingFiles := mret [];
  cSendFile _ _ := fail "stub: file drop not available" |}.

(** ** A client at work *)
Inductive op :=
  | OImportBundle (raw : chars) | OConnect | ODisconnect | OSetMode (m : string) | OSetRosenpass (enabled permissive : bool)
  | OAddProfile (req : Ipc.AddProfileRequest) | ORemoveProfile (slug : string) | ORenameProfile (slug newName : string)
  | OSetActiveProfile (slug : string) | OFire (i : nat) | OCancel (i : nat).

Definition without {A} (i : nat) (l : list A) : list A := take i l ++ drop (S i) l.
Definition do_op (now : Z) (o : op) (c : stubClient) : stubClient :=
  match o with
  | OImportBundle raw => (ImportBundle now raw c).2
  | OConnect => (Connect now c).2
  | ODisconnect => (Disconnect now c).2
  | OSetMode m => (SetMode now m c).2
  | OSetRosenpass e p => (SetRosenpass now e p c).2
  | OAddProfile r => (AddProfile now r c).2
  | ORemoveProfile s => (RemoveProfile now s c).2
  | ORenameProfile s n => (RenameProfile now s n c).2
  | OSetActiveProfile s => (SetActiveProfile now s c).2
  | OFire i => match timers c !! i with Some t => fire now t (c <| timers := without i (timers c) |>) | None => c end
  | OCancel i => c <| timers := without i (timers c) |>
  end.
Inductive stub_step : stubClient -> op -> stubClient -> Prop :=
  | stub_do now c o : stub_step c o (do_op now o c).
Definition stub_start (c : stubClient) : Prop := exists now, c = newStubClient now.

Record stub_ok (c : stubClient) : Prop := {
  so_keys : forall slug p, profiles c !! slug = Some p -> iSlug p = slug /\ slug <> "";
  so_active : active c = "" \/ is_Some (profiles c !! active c);
  so_imported : siBundleImported (status c) = true <-> is_Some (bundle c);
  so_connected : siState (status c) = StateConnected -> is_Some (bundle c);
  so_timers : TunnelUp ∈ timers c -> is_Some (bundle c);
  so_mode : siMode (status c) = mode c /\ mode c ∈ ["wg-cp0-only"; "netbird-only"; "combined"];
  so_logs : length (logs c) <= max_logs }.

Lemma lastn_length {A} n (l : list A) : length (lastn n l) <= n.
Proof. unfold lastn. rewrite length_drop. lia. Qed.
Lemma ok_appendLog now line c : stub_ok c -> stub_ok (appendLog now line c).
Proof. intros []. split; try done. apply lastn_length. Qed.
Lemma without_subset {A} i (l : list A) x : x ∈ without i l -> x ∈ l.
Proof.
  unfold without. intros [H|H]%elem_of_app.
  - rewrite <-(take_drop i l). apply elem_of_app. by left.
  - rewrite <-(take_drop (S i) l). apply elem_of_app. by right.
Qed.
Lemma ok_forget i c : stub_ok c -> stub_ok (c <| timers := without i (timers c) |>).
Proof. intros []. split; try done. cbn. intros ?%without_subset. by auto. Qed.

(** What a step may leave alone: the profiles, and the rest. *)
Lemma ok_status f c :
  (forall s, siMode (f s) = siMode s) -> (forall s, siBundleImported (f s) = siBundleImported s) ->
  (siState (f (status c)) = StateConnected -> is_Some (bundle c)) -> stub_ok c -> stub_ok (c <| status := f (status c) |>).
Proof. intros Hm Hb Hs []. split; try done; cbn; by rewrite ?Hm, ?Hb. Qed.

Lemma ok_fire now t c : (t = TunnelUp -> is_Some (bundle c)) -> stub_ok c -> stub_ok (fire now t c).
Proof.
  intros Ht Hc. destruct t as [|m]; cbn [fire]; unfold tunnel_up, reconciled.
  - case_bool_decide; [|done]. destruct (bundle c) as [b|] eqn:Eb; [|done]. apply ok_appendLog.
    apply (ok_status (up_to b)); [done|done| |done]. by rewrite Eb.
  - case_bool_decide; [|done]. cbn [negb]. apply ok_appendLog.
    set (f := fun s => let s := if wgcp0_mode m then match bundle c with Some b => up_to b s | None => with_state StateDisconnected s end else s in
                if netbird_mode m then with_inner (Some (inner_in StateConnected 3)) s else s).
    apply (ok_status f); [| | |done]; unfold f; intros; destruct (wgcp0_mode m), (netbird_mode m), (bundle c) eqn:Eb; try done.
    all: cbn in *; try (by eapply so_connected in Hc; rewrite ?Eb in Hc).
Qed.

Lemma ok_do_op now o c : stub_ok c -> stub_ok (do_op now o c).
Proof.
  intros Hc. destruct o; cbn [do_op].
  - unfold ImportBundle. case_match; [done|]. cbn. apply ok_appendLog. destruct Hc. by split; cbn; eauto.
  - unfold Connect, mbind, action_bind, look, run, get. cbn. destruct (bundle c) as [b|] eqn:Eb; [|done]. cbn.
    apply ok_appendLog. destruct Hc. split; cbn; try done; rewrite Eb; eauto.
  - apply ok_appendLog. destruct Hc. by split.
  - unfold SetMode. case_bool_decide as Hm; cbn; [|done]. apply ok_appendLog. destruct Hc. split; cbn; try done.
    + by destruct (wgcp0_mode m).
    + intros [?|[=]%list_elem_of_singleton]%elem_of_app. eauto.
  - cbn. apply ok_appendLog. by apply (ok_status (with_inner _)); [| |apply so_connected|].
  - unfold AddProfile. destruct (length _ =? 0); [done|]. case_bool_decide; [done|]. cbv zeta. case_bool_decide as Hs; [done|].
    unfold mbind, action_bind, look, run, get. cbn [fst snd]. destruct (_ && _); [done|]. cbn. apply ok_appendLog. destruct Hc. split; cbn; try done.
    + intros slug p. destruct (decide (slug = stubSlugify (ReqName req))) as [->|Hne].
      * rewrite lookup_insert_eq. by intros [= <-].
      * rewrite lookup_insert_ne by done. eauto.
    + destruct (ReqSetActive req); [right; rewrite lookup_insert_eq; eauto|]. destruct so_active0 as [?|?]; [by left|right].
      by apply lookup_insert_is_Some'; right.
  - unfold RemoveProfile, mbind, action_bind, look, run, get. cbn. destruct (profiles c !! slug) eqn:E; [|done]. cbn.
    apply ok_appendLog. destruct Hc. split; cbn; try done.
    + intros s p [_ Hs]%lookup_delete_Some. eauto.
    + case_bool_decide; [by left|]. destruct so_active0 as [?|?]; [by left|right]. by rewrite lookup_delete_ne by done.
  - unfold RenameProfile. case_bool_decide as Hn; [done|]. unfold mbind, action_bind, look, run, get. cbn.
    destruct (profiles c !! slug) as [cur|] eqn:E; [|done]. case_match; [done|]. cbn. apply ok_appendLog. destruct Hc.
    split; cbn; try done.
    + intros s p. destruct (decide (s = stubSlugify newName)) as [->|Hne]; [rewrite lookup_insert_eq; by intros [= <-]|].
      rewrite lookup_insert_ne by done. case_bool_decide; [eauto|]. intros [_ Hs]%lookup_delete_Some. eauto.
    + case_bool_decide as Hx; cbn.
      * destruct so_active0 as [?|?]; [by left|right]. by apply lookup_insert_is_Some'; right.
      * clear H. destruct (decide (active c = slug)) as [Ha|Ha]; rewrite ?(bool_decide_eq_true_2 (active c = slug)), ?(bool_decide_eq_false_2 (active c = slug)) by done; [right; rewrite lookup_insert_eq; eauto|]. destruct so_active0 as [?|?]; [by left|right].
        apply lookup_insert_is_Some'. right. by rewrite lookup_delete_ne.
  - unfold SetActiveProfile, mbind, action_bind, look, run, get. cbn. destruct (profiles c !! slug) eqn:E; [|done]. cbn.
    apply ok_appendLog. destruct Hc. split; cbn; try done. right. by rewrite E.
  - destruct (timers c !! i) as [t|] eqn:E; [|done]. apply ok_fire; [|by apply ok_forget]. cbn.
    intros ->. by apply (so_timers c Hc), (list_elem_of_lookup_2 _ i).
  - by apply ok_forget.
Qed.

(** Well-formedness of the stub: in every state it gets to, with its calls and
    the goroutines they started in any order. *)
Abbreviation stub_running := (reachable stub_step stub_start).

(** The stub keeps its state in order. Whatever is called, and whenever its
    background goroutines run or are cancelled, every profile is filed under its
    own non-empty slug, the active slug is that of a profile or empty, a tunnel
    shown as connected has a bundle, the goroutine that brings it up never meets
    a missing bundle (its dereference of one would panic), the mode is one of the
    three and the log has at most 200 lines. *)
Theorem stub_stays_ok (c : stubClient) : stub_running c -> stub_ok c.
Proof.
  intros Hc. induction Hc as [c [now ->]|c o c' _ IH Hs]; [|destruct Hs; by apply ok_do_op].
  apply ok_appendLog. split; cbn; try done; [by left|by intros ?%elem_of_nil|split; [done|set_solver]|lia].
Qed.

(** ** The stub's slugs are the store's *)
Definition strip_end (l : chars) : chars := reverse (drop_dashes (reverse l)).

Lemma slug_char_not_upper c : is_upper c = true -> slug_char (lower_ascii c) = true.
Proof. destruct c as [[] [] [] [] [] [] [] []]; vm_compute; done. Qed.
Lemma stub_slug_collapse b l : stub_slug_go b l = collapse b (lower_ascii <$> l).
Proof.
  revert b. induction l as [|c l IH]; intros b; [done|]. cbn [stub_slug_go fmap list_fmap collapse].
  destruct (is_upper c) eqn:Eu; [rewrite slug_char_not_upper by done; by rewrite IH|].
  assert (lower_ascii c = c) as -> by (unfold lower_ascii; by rewrite Eu). change (is_lower c || is_digit c) with (slug_char c).
  rewrite !IH. done.
Qed.
Abbreviation blank := (Forall (fun c => slug_char c = false)).
Lemma collapse_blank_left k l : blank k -> collapse true (k ++ l) = collapse true l.
Proof. induction 1 as [|c k Hc _ IH]; [done|]. cbn. by rewrite Hc. Qed.
Lemma collapse_blank k : blank k -> collapse true k = [].
Proof. intros Hk. rewrite <-(app_nil_r k). by rewrite collapse_blank_left. Qed.
Lemma collapse_blank_right b l k : blank k -> collapse b (l ++ k) = collapse b l \/ collapse b (l ++ k) = collapse b l ++ [dash].
Proof.
  intros Hk. revert b. induction l as [|c l IH]; intros b; cbn [app].
  - destruct b; [left; by rewrite collapse_blank|]. destruct Hk as [|c k Hc Hk]; [by left|]. right. cbn. rewrite Hc.
    by rewrite collapse_blank.
  - cbn [collapse]. destruct (slug_char c); [|destruct b]; [destruct (IH false) as [-> | ->]|destruct (IH true) as [-> | ->]|destruct (IH true) as [-> | ->]]; auto.
Qed.
Lemma strip_end_blank b l k : blank k -> strip_end (collapse b (l ++ k)) = strip_end (collapse b l).
Proof.
  intros Hk. destruct (collapse_blank_right b l k Hk) as [-> | ->]; [done|]. unfold strip_end. by rewrite reverse_snoc.
Qed.
Lemma drop_dashes_id l : (forall l', l <> dash :: l') -> drop_dashes l = l.
Proof. destruct l as [|c l]; [done|]. intros Hl. cbn. case_bool_decide; [by subst; destruct (Hl l)|done]. Qed.
Lemma drop_dashes_collapse l : drop_dashes (collapse false l) = collapse true l.
Proof.
  destruct l as [|c l]; [done|]. cbn. destruct (slug_char c) eqn:Ec.
  - apply drop_dashes_id. intros l' [= -> _]. done.
  - cbn. apply drop_dashes_id. by apply (proj2 (proj2 (collapse_shape true l))).
Qed.
Lemma trim_left_dashes n l : length l <= n -> trim_left_go [[dash]] n l = drop_dashes l.
Proof.
  revert l. induction n as [|n IH]; intros [|c l] Hl; cbn [length] in Hl; try lia; [done..|].
  cbn [trim_left_go strip_any strip_prefix drop_dashes]. destruct (Ascii.eqb_spec dash c) as [<-|Hc].
  - rewrite bool_decide_eq_true_2 by done. apply IH. lia.
  - by rewrite bool_decide_eq_false_2.
Qed.
Lemma trim_dashes l : trim_seqs [[dash]] l = strip_end (drop_dashes l).
Proof.
  unfold trim_seqs, trim_right, trim_left, strip_end. change (reverse <$> [[dash]]) with [[dash]].
  by rewrite !trim_left_dashes.
Qed.

(** What trim_space removes at either end is made of its sequences. *)
Lemma trim_left_go_removed seqs n l :
  exists ps, Forall (fun p => p ∈ seqs) ps /\ l = concat ps ++ trim_left_go seqs n l.
Proof.
  revert l. induction n as [|n IH]; intros l; cbn; [by exists []|].
  destruct (strip_any seqs l) as [r|] eqn:E; [|by exists []].
  apply strip_any_Some in E as (p & Hp & ->). destruct (IH r) as (ps & Hps & E). exists (p :: ps).
  split; [by constructor|]. cbn. by rewrite <-app_assoc, <-E.
Qed.
Definition blank_seq (p : chars) : bool := forallb (fun c => negb (slug_char (lower_ascii c))) p.
Lemma blank_seqs seqs ps :
  forallb blank_seq seqs = true -> Forall (fun p => p ∈ seqs) ps -> blank (lower_ascii <$> concat ps).
Proof.
  intros Hs Hp. induction Hp as [|p ps Hp _ IH]; [constructor|]. cbn. rewrite fmap_app. apply Forall_app. split; [|done].
  apply Forall_fmap, Forall_forall. intros c Hc. cbn. rewrite forallb_forall in Hs.
  apply list_elem_of_In in Hp, Hc. specialize (Hs p Hp). unfold blank_seq in Hs. rewrite forallb_forall in Hs.
  by apply negb_true_iff, Hs.
Qed.
Lemma trim_space_split s :
  exists k k', s2l s = k ++ s2l (trim_space s) ++ k' /\ blank (lower_ascii <$> k) /\ blank (lower_ascii <$> k').
Proof.
  unfold trim_space, trim_seqs, trim_right, trim_left. rewrite s2l_l2s.
  destruct (trim_left_go_removed spaces (length (s2l s)) (s2l s)) as (ps & Hps & E).
  set (l1 := trim_left_go spaces _ _) in *.
  destruct (trim_left_go_removed (reverse <$> spaces) (length (reverse l1)) (reverse l1)) as (qs & Hqs & E').
  set (l2 := trim_left_go (reverse <$> spaces) _ _) in *.
  exists (concat ps), (reverse (concat qs)). split_and!.
  - rewrite E at 1. f_equal. by rewrite <-reverse_app, <-E', reverse_involutive.
  - by apply (blank_seqs spaces).
  - rewrite fmap_reverse. apply Forall_reverse. by apply (blank_seqs (reverse <$> spaces)).
Qed.

(** The stub's slugs are the store's: on every name in ASCII, stubSlugify,
    one pass over the name with no regular expression, gives what
    profile.Slugify gives by trimming, lower-casing, replacing and trimming. *)
Theorem stub_slug_is_slug (name : string) :
  Forall (fun c => (code c < 128)%N) (s2l name) -> stubSlugify name = Slugify name.
Proof.
  intros Ha. unfold stubSlugify, Slugify, trim. cbv zeta. rewrite s2l_l2s. f_equal. change ((fun c => [c]) <$> s2l "-") with [[dash]].
  rewrite trim_dashes, drop_dashes_collapse. fold (strip_end (stub_slug_go true (s2l name))).
  destruct (trim_space_split name) as (k & k' & E & Hk & Hk'). unfold to_lower. rewrite s2l_l2s, stub_slug_collapse.
  rewrite E in Ha. rewrite lower_ascii_map by (apply Forall_app in Ha as [_ Ha]; by apply Forall_app in Ha as [Ha _]).
  rewrite E, !fmap_app, collapse_blank_left by done. by apply strip_end_blank.
Qed.

(** ** Witnesses *)
Module StubRun.
Definition t0 : Z := 1700000000 * second.
Definition add_lab : Ipc.AddProfileRequest :=
  {| ReqName := " My Lab!"; ReqProfileMode := ""; ReqBundleBytes := s2l "b"; ReqReplace := false; ReqSetActive := true |}.
Definition used : stubClient :=
  foldl (fun c o => do_op t0 o c) (newStubClient t0)
    [OImportBundle (s2l "b"); OAddProfile add_lab; OConnect; OSetMode "netbird-only"; OFire 1; OFire 0; ORenameProfile "my-lab" "Home"].
Lemma used_running : stub_running used.
Proof.
  unfold used. set (os := [_; _; _; _; _; _; _]). clearbody os. rewrite <-(reverse_involutive os).
  induction (reverse os) as [|o l IH]; [apply reach_init; by exists t0|].
  rewrite reverse_cons, foldl_app. eapply reach_step; [exact IH|apply stub_do].
Qed.
Lemma stub_stays_ok_witness : active used = "home" /\ is_Some (profiles used !! "home").
Proof.
  split; [vm_compute; reflexivity|]. assert (active used = "home") as E by (vm_compute; reflexivity). rewrite <-E.
  destruct (so_active _ (stub_stays_ok used used_running)) as [H|H]; [|exact H]. rewrite E in H. discriminate H.
Defined.
Lemma stub_slug_is_slug_witness : stubSlugify " My  Lab! " = "my-lab" /\ Slugify " My  Lab! " = "my-lab".
Proof.
  split; [vm_compute; reflexivity|]. rewrite <-(stub_slug_is_slug " My  Lab! "); [vm_compute; reflexivity|].
  repeat constructor.
Defined.

(** The store refuses the name of its own marker; the stub does not. *)
Lemma stub_accepts_reserved : stubSlugify "Active" = "active" /\ validateName "Active" = Err ErrInvalidName.
Proof. split; vm_compute; reflexivity. Qed.

(** A name with the Kelvin sign. *)
Definition kelvin : string := l2s (bytes_of [226; 132; 170; 49]%N).
Lemma stub_slug_kelvin : stubSlugify kelvin = "1" /\ Slugify kelvin = "k1".
Proof. split; vm_compute; reflexivity. Qed.
End StubRun.
