(* ===== verification/DaemonClient.v ===== *)
(** The production client over the daemon: realClient and rpcClient of
    internal/ipc/client.go, talking to the dispatcher of Ipc.v that serves the
    daemon of DaemonIpc.v.

    A call writes one line and reads one response. [ClientJson] is
    encoding/json on the client's side: the request line, the parameters and the
    reply read back; what theorems need of it is stated where they need it. *)
From stdpp Require Import base tactics list gmap strings.
From Stdlib Require Import ZArith Ascii Lia.
From S2P Require Import DnsAdapter.
From S2P Require Import Prelude GoStr GoFmt Fs.
From S2P Require Import Mode.
From S2P Require Import Bundle.
From S2P Require Import Profile.
From S2P Require Import ProfileSpec.
From S2P Require Import PeerPing.
From S2P Require Import Tunnel.
From S2P Require Import InnerMesh.
From S2P Require Import FileDrop.
From S2P Require Import Ipc.
From S2P Require Import Daemon.
From S2P Require Import DaemonSpec.
From S2P Require Import DaemonFiles.
From S2P Require Import DaemonPeers.
From S2P Require Import DaemonIpc.
From S2P Require Import ClientApi.
Local Open Scope list_scope.

(** ** The methods *)
Definition method_name (c : Ipc.call) : string :=
  match c with
  | CImportBundle _ => "importBundle"
  | CGetStatus => "getStatus"
  | CConnect => "connect"
  | CDisconnect => "disconnect"
  | CGetDiagnostics => "getDiagnostics"
  | CGetMode => "getMode"
  | CSetMode _ => "setMode"
  | CSetRosenpass _ => "setRosenpass"
  | CGetInnerMeshStatus => "getInnerMeshStatus"
  | CGetPeerConnectivity => "getPeerConnectivity"
  | CGetIncomingFiles => "getIncomingFiles"
  | CSendFile _ => "sendFile"
  | CSetInnerMeshProfile _ => "setInnerMeshProfile"
  | CEnableInnerMesh => "enableInnerMesh"
  | CDisableInnerMesh => "disableInnerMesh"
  | CGetInnerMeshDiagnostics => "getInnerMeshDiagnostics"
  | CListProfiles => "listProfiles"
  | CAddProfile _ => "addProfile"
  | CRemoveProfile _ => "removeProfile"
  | CRenameProfile _ => "renameProfile"
  | CSetActiveProfile _ => "setActiveProfile"
  | CGetActiveProfile => "getActiveProfile"
  end.

(** The methods whose result the client does not look at. *)
Definition returns_nothing (c : Ipc.call) : bool :=
  match c with
  | CConnect | CDisconnect | CSetInnerMeshProfile _ | CEnableInnerMesh | CDisableInnerMesh | CRemoveProfile _ => true
  | _ => false
  end.

Section client.
Context {K : BundleCodec} {C : Crypto} {J : RawJson} {N : NetipLib} {U : NetText} {H : HostDNS}
  {T : TunnelManager} {M : Mesh} {P : PeerConn}.
Context (platform : os) (meshFactory : mesh) (cfg : Config).
Context (envs : nat -> Env) {W : Type} (do_request : string -> Request -> state W (result string Response))
  (files : string -> local_file) (names_status : NamesSvc -> NamesSnapshot).
Context {X : ReplyText} {IJ : IpcJson}.

Abbreviation Host := (Host (W := W)).
Abbreviation invoke_daemon := (invoke_daemon platform meshFactory cfg envs do_request files names_status).

Class ClientJson := {
  request_line : rpcRequest -> chars;
  params_text : Ipc.call -> result string chars;
  read_reply : Ipc.call -> chars -> result string reply_data }.
Context {CJ : ClientJson}.

#[local] Existing Instance daemon_handler.
#[local] Instance handler : Handler := daemon_handler platform meshFactory cfg envs do_request files names_status.

(** ** One call *)
Record conn := { rpc_client : rpcClient; peer : Host }.

Definition rpc_error (e : rpcError) : string := "rpc error " +:+ itoa (Code e) +:+ ": " +:+ Message e.

(** [dp] is the dispatcher of the connection; [net_err] the network's words
    when no response comes. The response to an earlier call that timed out is
    read first ([Ipc.client_call]). *)
Context (dp : Dispatcher) (net_err : string).

Definition rpc_call (in_time : bool) (c : Ipc.call) : action conn string reply_data := fun s =>
  let gen' := (gen (rpc_client s) + 1)%Z in
  match params_text c with
  | Err e => (Err ("marshal params: " +:+ e), {| rpc_client := {| gen := gen'; unread := unread (rpc_client s) |}; peer := peer s |})
  | Ok params =>
    let req := {| QJSONRPC := "2.0"; QID := s2l (itoa gen'); QMethod := method_name c; QParams := params |} in
    let '((out, _), h) := Serve dp (fun _ => false) (fun _ => true) 0 [request_line req] (peer s) in
    let '(r, k) := match out with
                   | resp :: _ => client_call (fun _ => resp) in_time (rpc_client s)
                   | [] => match unread (rpc_client s) with
                           | [] => (Err EReadResponse, {| gen := gen'; unread := [] |})
                           | resp :: rest => (match PError resp with Some e => Err (ERpc e) | None => Ok (PResult resp) end,
                                              {| gen := gen'; unread := rest |})
                           end
                   end in
    (match r with
     | Err EReadResponse => Err ("read response: " +:+ net_err)
     | Err (ERpc e) => Err (rpc_error e)
     | Ok b => if returns_nothing c then Ok REmpty else map_err (fun e => "decode result: " +:+ e) (read_reply c b)
     end, {| rpc_client := k; peer := h |})
  end.

(** ** The client's methods

    [in_time]: the response is there before the method's deadline. *)
Context (in_time : bool).

Definition ask {A} (c : Ipc.call) (f : reply_data -> option A) : action conn string A :=
  r ← rpc_call in_time c;
  lift (of_option "decode result" (f r)).

Definition bundle_of_import (r : ImportBundleReply) : BundleInfo :=
  {| biIssuedTo := repDeviceID r; biSite := repSite r; biNotBefore := repIssuedAt r; biNotAfter := repExpiresAt r;
     biPeerPubKey := base64_encode (repPeerPubkey r); biEndpoints := [] |}.

Definition inner_info (s : InnerMeshSnapshot) : InnerMeshInfo :=
  {| imState := mapWireState (SnState s); imPeerCount := SnPeerCount s; imBytesIn := SnBytesIn s; imBytesOut := SnBytesOut s;
     imLastHandshake := SnLastHandshake s; imRosenpassPeers := SnRosenpassPeers s;
     imRosenpassEnabled := SnRosenpassEnabled s; imRosenpassPermissive := SnRosenpassPermissive s |}.

(** The error's message as it crosses the wire, empty for none. *)
Definition message_of (e : option daemon_error) : string :=
  match e with Some e => error_text (HDaemon e) | None => "" end.

Definition status_info (r : StatusReply) : StatusInfo :=
  let key := base64_encode (StPeerPubkey r) in
  {| siMode := StMode r; siState := mapWireState (StState r); siInterfaceName := ""; siLastHandshake := StLastHandshake r;
     siBytesIn := StBytesIn r; siBytesOut := StBytesOut r; siPeerPubKey := key; siEndpoints := StEndpoints r;
     siBundleImported := StBundleLoaded r;
     siBundle := if StBundleLoaded r
                 then Some {| biIssuedTo := StDeviceID r; biSite := StSite r; biNotBefore := zero_time;
                              biNotAfter := StBundleExpiresAt r; biPeerPubKey := key; biEndpoints := StEndpoints r |}
                 else None;
     siErrorMessage := message_of (StError r); siInnerMesh := inner_info <$> StInnerMesh r; siNames := StNames r |}.

Definition diagnostics_of (r : DiagnosticsReply) : Diagnostics :=
  let e := message_of (dgLastError r) in
  {| diLogTail := dgLogTail r; diLastProbe := dgLastConnectAttempt r; diReachable := bool_decide (e = ""); diProbeError := e |}.

Definition rosenpass_reply (prev now : rosenpassIntent) : SetRosenpassReply :=
  {| srPreviousEnabled := Enabled prev; srPreviousPermissive := Permissive prev;
     srEnabled := Enabled now; srPermissive := Permissive now |}.

Definition ImportBundle (raw : chars) : action conn string BundleInfo :=
  ask (CImportBundle {| ImportBytes := raw |}) (fun r => match r with RImportBundle r => Some (bundle_of_import r) | _ => None end).
Definition GetStatus : action conn string StatusInfo :=
  ask CGetStatus (fun r => match r with RStatus r => Some (status_info r) | _ => None end).
Definition Connect : action conn string unit := ask CConnect (fun _ => Some tt).
Definition Disconnect : action conn string unit := ask CDisconnect (fun _ => Some tt).
Definition GetDiagnostics : action conn string Diagnostics :=
  ask CGetDiagnostics (fun r => match r with RDiagnostics r => Some (diagnostics_of r) | _ => None end).
Definition GetMode : action conn string string := ask CGetMode (fun r => match r with RMode m => Some (m : string) | _ => None end).
Definition SetMode (m : string) : action conn string string :=
  ask (CSetMode {| ReqMode := m |}) (fun r => match r with RSetMode prev _ => Some (prev : string) | _ => None end).
Definition SetRosenpass (enabled permissive : bool) : action conn string SetRosenpassReply :=
  ask (CSetRosenpass {| ReqEnabled := enabled; ReqPermissive := permissive |})
    (fun r => match r with RSetRosenpass prev now => Some (rosenpass_reply prev now) | _ => None end).
Definition ListProfiles : action conn string (list Info) :=
  ask CListProfiles (fun r => match r with RProfiles l => Some l | _ => None end).
Definition AddProfile (req : Ipc.AddProfileRequest) : action conn string Info :=
  ask (CAddProfile req) (fun r => match r with RAddProfile i _ => Some i | _ => None end).
Definition RemoveProfile (slug : string) : action conn string unit :=
  ask (CRemoveProfile {| RemoveSlug := slug |}) (fun _ => Some tt).
Definition RenameProfile (slug newName : string) : action conn string Info :=
  ask (CRenameProfile {| RenameSlug := slug; ReqNewName := newName |}) (fun r => match r with RProfile i => Some i | _ => None end).
Definition SetActiveProfile (slug : string) : action conn string (string * Info) :=
  ask (CSetActiveProfile {| ActiveSlug := slug |}) (fun r => match r with RSetActive prev i => Some (prev, i) | _ => None end).
Definition GetActiveProfile : action conn string (option Info * bool) :=
  ask CGetActiveProfile (fun r => match r with RActive i any => Some (i, any) | _ => None end).
Definition GetPeerConnectivity : action conn string (list PeerConnectivity) :=
  ask CGetPeerConnectivity (fun r => match r with RPeers l => Some l | _ => None end).
Definition GetIncomingFiles : action conn string (list Received) :=
  ask CGetIncomingFiles (fun r => match r with RFiles l => Some l | _ => None end).
Definition SendFile (to path : string) : action conn string SendFileReply :=
  ask (CSendFile {| ReqPeer := to; ReqPath := path |}) (fun r => match r with RSendFile r => Some r | _ => None end).

#[export] Instance realClient : Client := {|
  cstate := conn; cImportBundle := ImportBundle; cGetStatus := GetStatus; cConnect := Connect; cDisconnect := Disconnect;
  cGetDiagnostics := GetDiagnostics; cGetMode := GetMode; cSetMode := SetMode; cSetRosenpass := SetRosenpass;
  cListProfiles := ListProfiles; cAddProfile := AddProfile; cRemoveProfile := RemoveProfile; cRenameProfile := RenameProfile;
  cSetActiveProfile := SetActiveProfile; cGetActiveProfile := GetActiveProfile; cGetPeerConnectivity := GetPeerConnectivity;
  cGetIncomingFiles := GetIncomingFiles; cSendFile := SendFile |}.

(** ** A call is the handler's *)
Lemma on_daemon_typed {A} (f : A -> reply_data) (m : Env -> action Daemon daemon_error A) h r h' :
  on_daemon (W := W) envs f m h = (Ok r, h') -> exists a, r = f a.
Proof. unfold on_daemon. destruct (m _ _) as [[a|e] d]; cbn; [|done]. intros [= <- _]. eauto. Qed.

Lemma invoke_nothing c h h' r : returns_nothing c = true -> invoke_daemon c h = (Ok r, h') -> r = REmpty.
Proof.
  intros Hn Hi. destruct c; try discriminate Hn; cbn [DaemonIpc.invoke_daemon] in Hi; by apply on_daemon_typed in Hi as [[] ->].
Qed.
Lemma method_mutates c : isMutating (method_name c) = mutates c.
Proof. by destruct c. Qed.

(** encoding/json gives back the values of this call, its parameters and what
    the handler answers, and the request is a line the daemon's scanner takes. *)
Record json_works (c : Ipc.call) (s : conn) : Prop := {
  jw_request : exists params, params_text c = Ok params /\ decode_call (method_name c) params = Some (Ok c) /\
    let q := {| QJSONRPC := "2.0"; QID := s2l (itoa (gen (rpc_client s) + 1)); QMethod := method_name c; QParams := params |} in
      json_request (request_line q) = Ok q /\ too_long (request_line q) = false;
  jw_reply : forall r h', invoke_daemon c (peer s) = (Ok r, h') -> exists b, reply_json r = Ok b /\ read_reply c b = Ok r }.

Definition next_id (k : rpcClient) : rpcClient := {| gen := gen k + 1; unread := [] |}.

Lemma Serve_one line req h :
  json_request line = Ok req -> too_long line = false ->
  Serve dp (fun _ => false) (fun _ => true) 0 [line] h =
  let '(resp, h') := Ipc.handle dp req h in (([resp], EOF), h').
Proof. intros Hj Hl. cbn [Serve]. rewrite Hl, Hj. by destruct (Ipc.handle dp req h). Qed.

Lemma rpc_call_eq (c : Ipc.call) (s : conn) :
  json_works c s -> unread (rpc_client s) = [] ->
  rpc_call true c s =
  if mutates c && negb (authorizedForMutate dp)
  then (Err (rpc_error {| Code := errCodeUnauthorized; Message := "ipc: peer uid not authorized" |}),
        {| rpc_client := next_id (rpc_client s); peer := peer s |})
  else
    let '(out, h) := invoke_daemon c (peer s) in
    (map_err (fun e => rpc_error {| Code := errCodeInternal; Message := e |}) out,
     {| rpc_client := next_id (rpc_client s); peer := h |}).
Proof.
  intros [(params & Hp & Hd & Hq) Hr] Hu. unfold rpc_call. rewrite Hp. cbv zeta.
  destruct Hq as [Hj Hl]. rewrite (Serve_one _ _ _ Hj Hl).
  unfold Ipc.handle. cbn [QJSONRPC QMethod QID QParams]. rewrite method_mutates.
  assert (negb (bool_decide ("2.0" = "2.0")) || bool_decide (method_name c = "") = false) as -> by (by destruct c).
  unfold client_call, next_id. rewrite Hu.
  destruct (mutates c && negb (authorizedForMutate dp)); [done|]. rewrite Hd. cbn [invoke handler daemon_handler].
  destruct (invoke_daemon c (peer s)) as [[r|e] h'] eqn:Ei; [|done].
  destruct (Hr r h' eq_refl) as (b & Hb & Hrb). unfold fillResult. cbn [marshal handler daemon_handler]. rewrite Hb. cbn.
  rewrite Hrb. destruct (returns_nothing c) eqn:En; [|done]. by rewrite (invoke_nothing _ _ _ _ En Ei).
Qed.

(** A call of the client is a call of the daemon. On a connection with nothing
    left to read, a call that is answered in time and allowed to its peer leaves
    the daemon as its handler leaves it and gives the caller the handler's reply,
    or the handler's error under the code of an internal error; a call that
    changes something, from a peer that is not the trusted one, gives the caller
    the unauthorised error and leaves the daemon as it was. *)
Theorem call_reaches_daemon (c : Ipc.call) (s : conn) :
  json_works c s -> unread (rpc_client s) = [] ->
  rpc_call true c s =
  if mutates c && negb (authorizedForMutate dp)
  then (Err (rpc_error {| Code := errCodeUnauthorized; Message := "ipc: peer uid not authorized" |}),
        {| rpc_client := next_id (rpc_client s); peer := peer s |})
  else
    let '(out, h) := invoke_daemon c (peer s) in
    (map_err (fun e => rpc_error {| Code := errCodeInternal; Message := e |}) out,
     {| rpc_client := next_id (rpc_client s); peer := h |}).
Proof. apply rpc_call_eq. Qed.
End client.

(** ** The toy daemon's client *)
Module ToyClient.
Import ToyDaemon.
#[export] Existing Instance ToySession.conn.

(** A field is its characters, each after a dot, up to a bar. *)
Definition field (l : chars) : chars := (l ≫= fun c => ["."%char; c]) ++ ["|"%char].
Fixpoint take_field (l : chars) : option (chars * chars) :=
  match l with
  | "|"%char :: r => Some ([], r)
  | "."%char :: c :: r => '(w, r) ← take_field r; Some (c :: w, r)
  | _ => None
  end.
Lemma take_field_eq w r : take_field (field w ++ r) = Some (w, r).
Proof. unfold field. induction w as [|c w IH]; [done|]. cbn in *. by rewrite IH. Qed.

Definition read_request (l : chars) : result string rpcRequest :=
  of_option "request" ('(v, l) ← take_field l; '(i, l) ← take_field l; '(m, l) ← take_field l; '(p, _) ← take_field l;
    Some {| QJSONRPC := l2s v; QID := i; QMethod := l2s m; QParams := p |}).
#[export] Instance json : IpcJson := {|
  json_request := read_request;
  json_import l := Ok {| ImportBytes := l |};
  json_set_mode l := Ok {| ReqMode := l2s l |};
  json_set_rosenpass _ := Err "params"; json_send_file _ := Err "params"; json_set_profile _ := Err "params";
  json_add _ := Err "params"; json_remove _ := Err "params"; json_rename _ := Err "params";
  json_set_active l := Ok {| ActiveSlug := l2s l |} |}.

#[export] Instance text : ReplyText := {|
  reply_json r := match r with RSetMode a b => Ok (field (s2l a) ++ field (s2l b)) | RMode m => Ok (s2l m) | _ => Ok [] end;
  error_text _ := "error" |}.

Definition host_of (d : Daemon) : Host (W := unit) := mkHost d (newReceivedRing 4) None (newLogRing 8) 0 tt.
Definition status_of (d : Daemon) : option StatusReply :=
  match (Daemon.GetStatus (E := daemon_error) cfg ToySession.names_of d).1 with Ok r => Some r | Err _ => None end.

#[export] Instance client_json : ClientJson := {|
  request_line q := field (s2l (QJSONRPC q)) ++ field (QID q) ++ field (s2l (QMethod q)) ++ field (QParams q);
  params_text c := match c with CSetMode r => Ok (s2l (ReqMode r)) | CSetActiveProfile r => Ok (s2l (ActiveSlug r)) | _ => Ok [] end;
  read_reply c b :=
    match c with
    | CSetMode _ => of_option "setMode" ('(a, l) ← take_field b; '(m, _) ← take_field l; Some (RSetMode (l2s a) (l2s m)))
    | CGetMode => Ok (RMode (l2s b))
    | CGetStatus => of_option "status" (RStatus <$> status_of connected)
    | _ => Err "reply"
    end |}.

Lemma read_request_eq q : read_request (request_line q) = Ok q.
Proof.
  destruct q as [v i m p]. unfold read_request. cbn [request_line client_json QJSONRPC QID QMethod QParams].
  do 3 (rewrite take_field_eq; cbn [mbind option_bind]). rewrite <-(app_nil_r (field p)), take_field_eq.
  cbn. by rewrite !l2s_s2l.
Qed.
Lemma field_length w : length (field w) = 2 * length w + 1.
Proof. unfold field. rewrite length_app. induction w; cbn in *; lia. Qed.
Abbreviation daemon_at := (invoke_daemon Linux new_mesh cfg (fun _ => env) ToySession.no_network ToySession.no_files ToySession.names_of).
Abbreviation works := (json_works Linux new_mesh cfg (fun _ => env) ToySession.no_network ToySession.no_files ToySession.names_of).
Abbreviation client dp := (realClient Linux new_mesh cfg (fun _ => env) ToySession.no_network ToySession.no_files ToySession.names_of dp "timeout" true).
Definition fresh (d : Daemon) : conn (W := unit) := {| rpc_client := {| gen := 0; unread := [] |}; peer := host_of d |}.

Lemma works_request c d params :
  params_text c = Ok params -> decode_call (method_name c) params = Some (Ok c) ->
  (Z.of_nat (length (s2l (method_name c))) + Z.of_nat (length params) <= 1000)%Z ->
  (forall r h', daemon_at c (host_of d) = (Ok r, h') -> exists b, reply_json r = Ok b /\ read_reply c b = Ok r) ->
  works c (fresh d).
Proof.
  intros Hp Hd Hl Hr. split; [|exact Hr]. exists params. do 2 (split; [done|]). split; [apply read_request_eq|].
  unfold too_long. apply Z.leb_gt. cbn [request_line client_json QJSONRPC QID QMethod QParams]. rewrite !length_app, !field_length.
  change (length (s2l (itoa (gen (rpc_client (fresh d)) + 1)))) with 1. change (length (s2l "2.0")) with 3. 
  unfold max_line. lia.
Qed.
Lemma works_status : works CGetStatus (fresh connected).
Proof.
  apply (works_request _ _ []); [done|done|vm_compute; discriminate|].
  intros r h'. cbn [invoke_daemon]. unfold on_daemon. cbn [daemon host_of].
  destruct (Daemon.GetStatus (E := daemon_error) cfg ToySession.names_of connected) as [[st|e] d'] eqn:E; [|discriminate].
  assert (status_of connected = Some st) as Hs by (unfold status_of; by rewrite E).
  intros [= <- _]. exists []. split; [done|]. cbn [read_reply client_json]. by rewrite Hs.
Qed.
Lemma works_set_mode m d : (Z.of_nat (length (s2l m)) <= 900)%Z -> works (CSetMode {| ReqMode := m |}) (fresh d).
Proof.
  intros Hm. apply (works_request _ _ (s2l m)); [done| |change (length (s2l (method_name (CSetMode {| ReqMode := m |})))) with 7; lia|].
  - unfold decode_call. cbn. by rewrite l2s_s2l.
  - intros r h'. cbn [invoke_daemon]. intros [[a b] ->]%on_daemon_typed. eexists. split; [done|]. cbn.
    rewrite take_field_eq. cbn. rewrite <-(app_nil_r (field (s2l b))), take_field_eq. cbn. by rewrite !l2s_s2l.
Qed.

(** The owner switches to the outer tunnel alone; a guest is refused. *)
Definition outer_mode : Ipc.call := CSetMode {| ReqMode := "outer" |}.
Abbreviation call_as dp c := (rpc_call Linux new_mesh cfg (fun _ => env) ToySession.no_network ToySession.no_files ToySession.names_of
                                 dp "timeout" true c (fresh connected)).
Lemma call_reaches_daemon_witness :
  (call_as ToySession.owner outer_mode).1 = Ok (RSetMode Combined WGCP0Only) /\
  call_as ToySession.guest outer_mode =
    (Err "rpc error -32001: ipc: peer uid not authorized", {| rpc_client := {| gen := 1; unread := [] |}; peer := host_of connected |}).
Proof.
  assert (works outer_mode (fresh connected)) as Hw by (apply works_set_mode; vm_compute; discriminate).
  split.
  - rewrite (call_reaches_daemon _ _ _ _ _ _ _ ToySession.owner "timeout" outer_mode (fresh connected) Hw eq_refl).
    vm_compute. reflexivity.
  - rewrite (call_reaches_daemon _ _ _ _ _ _ _ ToySession.guest "timeout" outer_mode (fresh connected) Hw eq_refl).
    reflexivity.
Defined.
End ToyClient.
