(* ===== verification/Cli.v ===== *)
(** The command line: cmd/goat-client/main.go.

    A subcommand is a function of its arguments and of the daemon behind the
    client it dials. [outcome] is the exit code and what each print call writes,
    with the line break it ends with (a text that is printed may have others of
    its own); what package flag itself prints on bad flags is left out. Without a
    subcommand the binary starts the GUI. *)
From stdpp Require Import base tactics list gmap strings.
From Stdlib Require Import ZArith Ascii Lia.
From S2P Require Import Prelude GoStr GoFmt.
From S2P Require Import Mode.
From S2P Require Import Profile.
From S2P Require Import InnerMesh.
From S2P Require Import Ipc.
From S2P Require Import Daemon.
From S2P Require Import DaemonFiles.
From S2P Require Import ClientApi.
From S2P Require Import StubClient.
Local Open Scope list_scope.

(** ** Package flag *)
Inductive flag_kind := FString | FBool | FInt.
Inductive parsed := Parsed (values : list (string * string)) (rest : list string) | FlagHelp | FlagError.

(** strconv.ParseBool *)
Definition parse_bool (s : string) : option bool :=
  if bool_decide (s ∈ ["1"; "t"; "T"; "TRUE"; "true"; "True"]) then Some true
  else if bool_decide (s ∈ ["0"; "f"; "F"; "FALSE"; "false"; "False"]) then Some false
  else None.

(** strconv.ParseInt(s, 0, 64): a sign, a prefix for the base, digits with
    underscores between them. *)
Definition digit_value (c : ascii) : option Z :=
  let n := Z.of_N (code c) in
  if is_digit c then Some (n - 48)%Z
  else if is_lower c then Some (n - 87)%Z
  else if is_upper c then Some (n - 55)%Z else None.
Fixpoint digits_of (base n : Z) (l : chars) : option Z :=
  match l with
  | [] => Some n
  | "_"%char :: l' => digits_of base n l'
  | c :: l' =>
    d ← digit_value c;
    if (base <=? d)%Z then None
    else let n := (n * base + d)%Z in if (uint64_max <? n)%Z then None else digits_of base n l'
  end.
(** underscoreOK after the prefix; [saw]: the last character was a digit, an
    underscore, neither. *)
Inductive saw := SawDigit | SawUnderscore | SawOther.
Fixpoint underscore_ok (hex : bool) (last : saw) (l : chars) : bool :=
  match l with
  | [] => match last with SawUnderscore => false | _ => true end
  | c :: l' =>
    let hexdigit := match digit_value c with Some d => (d <? 16)%Z | None => false end in
    if is_digit c || hex && hexdigit then underscore_ok hex SawDigit l'
    else if bool_decide (c = "_"%char) then match last with SawDigit => underscore_ok hex SawUnderscore l' | _ => false end
    else match last with SawUnderscore => false | _ => underscore_ok hex SawOther l' end
  end.
(** ParseUint(s, 0, 64) *)
Definition parse_uint0 (l : chars) : option Z :=
  let prefixed (b : Z) (hex : bool) (r : chars) := if underscore_ok hex SawDigit r then digits_of b 0 r else None in
  match l with
  | [] => None
  | "0"%char :: (c :: _ :: _) as l' =>
    let r := drop 1 l' in
    if bool_decide (c ∈ ["b"%char; "B"%char]) then prefixed 2%Z false r
    else if bool_decide (c ∈ ["o"%char; "O"%char]) then prefixed 8%Z false r
    else if bool_decide (c ∈ ["x"%char; "X"%char]) then prefixed 16%Z true r
    else if underscore_ok false SawDigit l' then digits_of 8 0 l' else None
  | "0"%char :: l' => if underscore_ok false SawDigit l' then digits_of 8 0 l' else None
  | _ => if underscore_ok false SawOther l then digits_of 10 0 l else None
  end.
Definition parse_int0 (s : string) : option Z :=
  let '(neg, l) := match s2l s with
                   | "-"%char :: l => (true, l)
                   | "+"%char :: l => (false, l)
                   | l => (false, l)
                   end in
  n ← parse_uint0 l;
  if neg then (if (n <=? 2 ^ 63)%Z then Some (- n)%Z else None) else (if (n <? 2 ^ 63)%Z then Some n else None).
Example parse_int0_ok :
  parse_int0 <$> ["512"; "-7"; "0x1F"; "0b101"; "017"; "0"; "1_000"; "0_7"; "0x_f"] =
  Some <$> [512; -7; 31; 5; 15; 0; 1000; 7; 15]%Z /\
  parse_int0 <$> [""; "-"; "08"; "1__0"; "_1"; "1_"; "0x"; "9223372036854775808"; "a"; "0b2"] = replicate 10 None.
Proof. split; reflexivity. Qed.

(** The name and value of an argument that starts with a dash: [None] for one
    that is no flag, [Some None] for the terminator. *)
Definition split_flag (s : string) : option (option (chars * option chars)) :=
  match s2l s with
  | "-"%char :: c :: l =>
    let name := if bool_decide (c = "-"%char) then l else c :: l in
    if bool_decide (c = "-"%char) && bool_decide (l = []) then Some None
    else match cut "="%char name with
         | Some (n, v) => Some (Some (n, Some v))
         | None => Some (Some (name, None))
         end
  | _ => None
  end.
Definition bad_name (n : chars) : bool :=
  match n with [] => true | c :: _ => bool_decide (c = "-"%char) end.

Definition with_value (n v : string) (p : parsed) : parsed :=
  match p with Parsed vs rest => Parsed ((n, v) :: vs) rest | _ => p end.
Fixpoint parse_flags (kind : string -> option flag_kind) (args : list string) : parsed :=
  match args with
  | [] => Parsed [] []
  | s :: args' =>
    match split_flag s with
    | None => Parsed [] args
    | Some None => Parsed [] args'
    | Some (Some (n, v)) =>
      if bad_name n then FlagError
      else
        let n := l2s n in
        match kind n with
        | None => if bool_decide (n ∈ ["help"; "h"]) then FlagHelp else FlagError
        | Some FBool =>
          let v := match v with Some v => l2s v | None => "true" end in
          if bool_decide (is_Some (parse_bool v)) then with_value n v (parse_flags kind args') else FlagError
        | Some k =>
          let accepted v := match k with FInt => bool_decide (is_Some (parse_int0 v)) | _ => true end in
          match v with
          | Some v => if accepted (l2s v) then with_value n (l2s v) (parse_flags kind args') else FlagError
          | None =>
            match args' with
            | v :: args'' => if accepted v then with_value n v (parse_flags kind args'') else FlagError
            | [] => FlagError
            end
          end
        end
    end
  end.
(** The last value given. *)
Definition flag_value (n d : string) (vs : list (string * string)) : string :=
  from_option snd d (last (filter (fun p => p.1 = n) vs)).
Definition bool_value (n : string) (vs : list (string * string)) : bool :=
  default false (parse_bool (flag_value n "false" vs)).

Definition int_value (n : string) (d : Z) (vs : list (string * string)) : Z := default d (parse_int0 (flag_value n (itoa d) vs)).

Definition addr_flag (n : string) : option flag_kind := if bool_decide (n = "daemon-addr") then Some FString else None.
Definition pqc_flags (n : string) : option flag_kind := if bool_decide (n = "strict") then Some FBool else addr_flag n.
Definition global_flags (n : string) : option flag_kind := if bool_decide (n = "window") then Some FBool else addr_flag n.

Example parse_flags_ok :
  parse_flags pqc_flags ["--daemon-addr"; "a"; "-strict"; "on"; "--x"] = Parsed [("daemon-addr", "a"); ("strict", "true")] ["on"; "--x"] /\
  parse_flags pqc_flags ["-daemon-addr=a=b"; "--"; "-strict"] = Parsed [("daemon-addr", "a=b")] ["-strict"] /\
  parse_flags pqc_flags ["-strict=maybe"] = FlagError /\ parse_flags pqc_flags ["-h"] = FlagHelp /\
  parse_flags pqc_flags ["-"; "on"] = Parsed [] ["-"; "on"] /\ parse_flags pqc_flags ["--=x"] = FlagError.
Proof. repeat split. Qed.

(** ** What is printed *)
Record outcome := { exit_code : Z; stdout : list string; stderr : list string }.
Definition println (s : string) : string := s +:+ String (ascii_of_nat 10) "".
#[export] Instance println_inj : Inj (=) (=) println.
Proof.
  intros s s'. unfold println. revert s'. induction s as [|c s IH]; intros [|c' s'] E; cbn in E; [done|..].
  - injection E as _ E. by destruct s'.
  - injection E as _ E. by destruct s.
  - injection E as -> E. f_equal. by apply IH.
Qed.
Definition usage : list string :=
  ["goat-client — desktop GUI + CLI for the goat overlay"; "";
   "Usage:";
   "  goat-client                       launch the systray (GUI mode)";
   "  goat-client --window              launch the main window (child of systray)";
   "  goat-client getmode               print the daemon's active v0.2 mode";
   "  goat-client setmode <mode>        switch the daemon to <mode>";
   "  goat-client pqc <on|off> [--strict]  toggle Rosenpass PQC on the inner mesh";
   "  goat-client connect               bring the active mode's subsystems up";
   "  goat-client disconnect            tear the active mode's subsystems down";
   "  goat-client status                print the current status snapshot";
   "  goat-client send <peer> <file>    drop a file to an inner-mesh peer (goatdrop)";
   "";
   "Modes: wg-cp0-only | netbird-only | combined";
   "";
   "Common flags (accepted before OR after the subcommand):";
   "  --daemon-addr=ADDR    override the daemon IPC endpoint"].
Definition refused (texts : list string) : outcome := {| exit_code := 2; stdout := []; stderr := println <$> texts |}.
Definition failed (text : string) : outcome := {| exit_code := 1; stdout := []; stderr := [println text] |}.
Definition printed (texts : list string) : outcome := {| exit_code := 0; stdout := println <$> texts; stderr := [] |}.

Definition tab (label value : string) : string := label +:+ value.
Definition intent_text (i : InnerMeshInfo) : string :=
  if imRosenpassEnabled i then (if imRosenpassPermissive i then "on (permissive)" else "on (strict)") else "off".

Section status.
(** The age of a snapshot in words. *)
Context (age_text : Z -> string).

Definition bundle_lines (b : BundleInfo) : list string :=
  [tab "issued-to:      " (biIssuedTo b); tab "site:           " (biSite b); tab "expires:        " (rfc3339 (biNotAfter b))].
Definition inner_lines (i : InnerMeshInfo) : list string :=
  ["inner-mesh:     state=" +:+ state_text (imState i) +:+ " peers=" +:+ itoa (imPeerCount i) +:+ " in=" +:+ itoa (imBytesIn i) +:+
     " out=" +:+ itoa (imBytesOut i);
   "pqc (rosenpass): intent=" +:+ intent_text i +:+ ", " +:+ (if (0 <? imRosenpassPeers i)%Z then "active" else "inactive") +:+
     " (" +:+ itoa (imRosenpassPeers i) +:+ "/" +:+ itoa (imPeerCount i) +:+ " peers)"].
Definition names_lines (n : NamesSnapshot) : list string :=
  [if bool_decide (NsGrade n = "unavailable")
   then "names:          no signed snapshot cached (" +:+ itoa (NsObserved n) +:+ " observed)"
   else "names:          snapshot serial " +:+ itoa (NsSerial n) +:+ " (" +:+ NsGrade n +:+ ", age " +:+ age_text (NsAge n) +:+ "), " +:+
        itoa (NsRecords n) +:+ " records, " +:+ itoa (NsObserved n) +:+ " observed"] ++
  (if bool_decide (NsForwarderAddr n = "") then []
   else ["names-fwd:      " +:+ NsForwarderAddr n +:+ " (" +:+ itoa (NsFallbackServed n) +:+ " fallback answers served)"]) ++
  (if (0 <? NsFallbackServed n)%Z
   then ["names-warn:     FALLBACK IN USE — last " +:+ rfc3339 (NsLastFallback n) +:+
         "; noncanonical (observed) answers are flagged in daemon logs"]
   else []).
Definition status_lines (st : StatusInfo) : list string :=
  [tab "mode:           " (siMode st); tab "state:          " (state_text (siState st));
   tab "bundle:         " (fmt_bool (siBundleImported st))] ++
  from_option bundle_lines [] (siBundle st) ++
  [tab "bytes-in:       " (itoa (siBytesIn st)); tab "bytes-out:      " (itoa (siBytesOut st))] ++
  (if bool_decide (siLastHandshake st = zero_time) then [] else [tab "last-handshake: " (rfc3339 (siLastHandshake st))]) ++
  from_option inner_lines [] (siInnerMesh st) ++
  from_option names_lines [] (siNames st) ++
  (if bool_decide (siErrorMessage st = "") then [] else [tab "error:          " (siErrorMessage st)]).
End status.

(** ** The subcommands *)
Section cli.
(** The daemon's client, whether an address can be dialled, and what a fresh
    stub needs. *)
Context {Real : Client} (dial : string -> result string unit).
Context (order : list Info -> list Info) (now : Z) (age_text : Z -> string).

Abbreviation world := (@cstate Real).

(** A subcommand that calls the daemon: its words for errors, and what it does
    with a client. *)
Definition with_client (name addr : string) (k : forall Cl : Client, action (@cstate Cl) string (list string)) :
    state world outcome := fun w =>
  match NewClient addr with
  | Stub => (match (k (stub_client order now) (newStubClient now)).1 with
             | Ok lines => printed lines
             | Err e => failed (name +:+ ": " +:+ e)
             end, w)
  | Dialled target =>
    match dial target with
    | Err e => (failed (name +:+ ": dial daemon: dial " +:+ addr +:+ ": " +:+ e), w)
    | Ok _ => let '(r, w') := k Real w in
              (match r with Ok lines => printed lines | Err e => failed (name +:+ ": " +:+ e) end, w')
    end
  end.
Definition give_up_early (o : outcome) : state world outcome := fun w => (o, w).

Definition runGetMode (args : list string) (addr : string) : state world outcome :=
  match parse_flags addr_flag args with
  | Parsed vs _ =>
    with_client "getmode" (flag_value "daemon-addr" addr vs) (fun Cl => m ← cGetMode; mret [m])
  | _ => give_up_early (refused [])
  end.

Definition runSetMode (args : list string) (addr : string) : state world outcome :=
  match parse_flags addr_flag args with
  | Parsed vs [arg] =>
    match Mode.Parse arg with
    | Err ErrUnknownMode => give_up_early (refused ["setmode: mode: unknown mode"])
    | Ok m =>
      with_client "setmode" (flag_value "daemon-addr" addr vs)
        (fun Cl => prev ← cSetMode m; mret ["mode: " +:+ prev +:+ " → " +:+ m])
    end
  | Parsed _ _ => give_up_early (refused ["usage: goat-client setmode <wg-cp0-only|netbird-only|combined>"])
  | _ => give_up_early (refused [])
  end.

Definition pqc_line (r : SetRosenpassReply) : string :=
  "pqc (rosenpass): enabled " +:+ fmt_bool (srPreviousEnabled r) +:+ " → " +:+ fmt_bool (srEnabled r) +:+
  ", permissive " +:+ fmt_bool (srPreviousPermissive r) +:+ " → " +:+ fmt_bool (srPermissive r).
Definition runPqc (args : list string) (addr : string) : state world outcome :=
  match parse_flags pqc_flags args with
  | Parsed vs [arg] =>
    let ask enabled permissive :=
      with_client "pqc" (flag_value "daemon-addr" addr vs)
        (fun Cl => r ← cSetRosenpass enabled permissive; mret [pqc_line r]) in
    if bool_decide (arg = "on") then ask true (negb (bool_value "strict" vs))
    else if bool_decide (arg = "off") then ask false false
    else give_up_early (refused ["pqc: unknown state " +:+ l2s (quote (s2l arg)) +:+ " (want on|off)"])
  | Parsed _ _ => give_up_early (refused ["usage: goat-client pqc <on|off> [--strict]"])
  | _ => give_up_early (refused [])
  end.

Definition runConnect (args : list string) (addr : string) : state world outcome :=
  match parse_flags addr_flag args with
  | Parsed vs _ => with_client "connect" (flag_value "daemon-addr" addr vs) (fun Cl => _ ← cConnect; mret ["connected"])
  | _ => give_up_early (refused [])
  end.

Definition runDisconnect (args : list string) (addr : string) : state world outcome :=
  match parse_flags addr_flag args with
  | Parsed vs _ => with_client "disconnect" (flag_value "daemon-addr" addr vs) (fun Cl => _ ← cDisconnect; mret ["disconnected"])
  | _ => give_up_early (refused [])
  end.

Definition runStatus (args : list string) (addr : string) : state world outcome :=
  match parse_flags addr_flag args with
  | Parsed vs _ =>
    with_client "status" (flag_value "daemon-addr" addr vs) (fun Cl => st ← cGetStatus; mret (status_lines age_text st))
  | _ => give_up_early (refused [])
  end.

Definition sent_line (r : SendFileReply) : string :=
  "sent " +:+ repName r +:+ " (" +:+ itoa (repSize r) +:+ " bytes) to " +:+ repToPeer r.
Definition runSend (args : list string) (addr : string) : state world outcome :=
  match parse_flags addr_flag args with
  | Parsed vs [peer; path] =>
    with_client "send" (flag_value "daemon-addr" addr vs) (fun Cl => r ← cSendFile peer path; mret [sent_line r])
  | Parsed _ _ => give_up_early (refused ["usage: goat-client send <peer> <file>"])
  | _ => give_up_early (refused [])
  end.

Definition dispatchSubcommand (name : string) (args : list string) (addr : string) : state world outcome :=
  if bool_decide (name = "getmode") then runGetMode args addr
  else if bool_decide (name = "setmode") then runSetMode args addr
  else if bool_decide (name = "pqc") then runPqc args addr
  else if bool_decide (name = "connect") then runConnect args addr
  else if bool_decide (name = "disconnect") then runDisconnect args addr
  else if bool_decide (name = "status") then runStatus args addr
  else if bool_decide (name = "send") then runSend args addr
  else if bool_decide (name ∈ ["help"; "-h"; "--help"]) then give_up_early (printed usage)
  else give_up_early (refused (("unknown subcommand: " +:+ name) :: usage)).

(** ** The contract with the shell *)
Definition knownSubcommands : list string := ["getmode"; "setmode"; "pqc"; "connect"; "disconnect"; "status"; "send"; "help"].

(** What an exit code says of a run from [w] to [w']. *)
Definition honours (name : string) (w : world) (r : outcome * world) : Prop :=
  let '(o, w') := r in
  (exit_code o = 0 /\ stderr o = [] /\ stdout o <> [] \/
   exit_code o = 1 /\ stdout o = [] /\ name ∈ knownSubcommands /\ name <> "help" /\
     (exists e, stderr o = [println (name +:+ ": " +:+ e)]) \/
   exit_code o = 2 /\ stdout o = [] /\ w' = w)%Z.
(** A subcommand honours the contract, and whether its command line is accepted is
    no matter of the daemon's. *)
Definition contract (name : string) (m : state world outcome) : Prop :=
  (forall w, honours name w (m w)) /\ (forall w w', exit_code (m w).1 = 2%Z <-> exit_code (m w').1 = 2%Z).

Lemma contract_early name o :
  (exists texts, o = refused texts) \/ (exists text texts, o = printed (text :: texts)) -> contract name (give_up_early o).
Proof. intros H. split; [|done]. intros w. destruct H as [[texts ->]|(text & texts & ->)]; unfold honours; cbn; [by right; right|by left]. Qed.
Lemma contract_refused name texts : contract name (give_up_early (refused texts)).
Proof. apply contract_early. left. by exists texts. Qed.
Lemma exit_client name addr k w : exit_code (with_client name addr k w).1 <> 2%Z.
Proof.
  unfold with_client. destruct (NewClient addr) as [|target]; [by destruct (k _ _) as [[]]|].
  destruct (dial target) as [[]|e]; [|done]. by destruct (k Real w) as [[]].
Qed.
Lemma contract_client name addr k :
  name ∈ knownSubcommands -> name <> "help" -> (forall Cl s lines, (k Cl s).1 = Ok lines -> lines <> []) ->
  contract name (with_client name addr k).
Proof.
  intros Hn Hh Hk. split; [|intros w w'; pose proof (exit_client name addr k w); pose proof (exit_client name addr k w'); tauto].
  intros w. unfold with_client, honours. destruct (NewClient addr) as [|target].
  - specialize (Hk (stub_client order now) (newStubClient now)).
    destruct (k _ _) as [[[|l ls]|e] w']; cbn in *; [by destruct (Hk _ eq_refl)|by left|right; left; eauto 8].
  - destruct (dial target) as [[]|e]; cbn.
    + specialize (Hk Real w). destruct (k Real w) as [[[|l ls]|e] w']; cbn in *; [by destruct (Hk _ eq_refl)|by left|right; left; eauto 8].
    + right; left. split_and!; [done..|]. by exists ("dial daemon: dial " +:+ addr +:+ ": " +:+ e).
Qed.

Lemma bind_ret_fst {S E A B} (m : action S E A) (f : A -> B) s b :
  ((x ← m; mret (f x) : action S E B) s).1 = Ok b -> exists x, b = f x.
Proof. unfold mbind, action_bind, mret, action_ret. destruct (m s) as [[x|e] s']; cbn; naive_solver. Qed.

(** C14: The exit code tells a script what happened. Whatever the arguments and the
    daemon, a subcommand exits with 0, and then prints its answer on standard
    output and nothing on standard error; or with 1, and then prints nothing on
    standard output and on standard error one message, which is the subcommand's
    name, a colon, the text of the error - of one line or of several - and a line
    break, and the subcommand is a known one that asks the daemon; or with 2, and
    then prints nothing on standard output and has not touched the daemon. That it
    exits with 2 depends on the command line alone, not on the daemon. *)
Theorem cli_contract (name : string) (args : list string) (addr : string) :
  contract name (dispatchSubcommand name args addr).
Proof.
  unfold dispatchSubcommand. repeat case_bool_decide; subst; try apply contract_refused;
    unfold runGetMode, runSetMode, runPqc, runConnect, runDisconnect, runStatus, runSend;
    repeat case_match; try apply contract_refused; try (apply contract_early; right; by eexists _, _);
    (apply contract_client; [vm_compute; set_solver|done|]);
    intros Cl cs lines [? ->]%bind_ret_fst; done.
Qed.

(** The order of the usage line is not accepted. *)
Lemma pqc_strict_after_word (addr : string) (w : world) :
  dispatchSubcommand "pqc" ["on"; "--strict"] addr w = (refused ["usage: goat-client pqc <on|off> [--strict]"], w).
Proof. reflexivity. Qed.

(** [main]: the GUI is started as the window child or as the tray. *)
Inductive started := Exit (o : outcome) | Gui (window : bool) (addr : string).
Definition main (windows : bool) (args : list string) : state world started := fun w =>
  match parse_flags global_flags args with
  | FlagHelp => (Exit {| exit_code := 0; stdout := []; stderr := println <$> usage |}, w)
  | FlagError => (Exit (refused usage), w)
  | Parsed vs rest =>
    let addr := flag_value "daemon-addr" (DefaultAddr windows) vs in
    match rest with
    | name :: args' => let '(o, w') := dispatchSubcommand name args' addr w in (Exit o, w')
    | [] => (Gui (bool_value "window" vs) addr, w)
    end
  end.
End cli.
