(* ===== verification/Tools.v ===== *)
(** The small commands: cmd/goat-bundle-qr, cmd/smoke-mint and
    cmd/smoke-endpoint, over package flag as in Cli.v.

    Reading and writing files, the QR encoder, key parsing and signing are what
    the commands are given; what package flag itself prints on bad flags is left
    out. *)
From stdpp Require Import base tactics list gmap sorting strings.
From Stdlib Require Import ZArith Ascii Lia.
From S2P Require Import Prelude GoStr GoFmt.
From S2P Require Import QrBundle.
From S2P Require Import Bundle.
From S2P Require Import Uapi.
From S2P Require Import Cli.
Local Open Scope list_scope.

Definition files : Type := gmap string chars.
(** os.ReadFile and os.WriteFile, errors with their texts: a write that succeeds
    leaves the data under the path and the rest of the disk as it was. *)
Class FileCalls := {
  read_file : files -> string -> result string chars;
  write_file : files -> string -> chars -> result string unit * files;
  read_found d p c : read_file d p = Ok c -> d !! p = Some c;
  write_done d p c d' : write_file d p c = (Ok tt, d') -> d' = <[p := c]> d }.

Definition string_flags (names : list string) (n : string) : option flag_kind :=
  if bool_decide (n ∈ names) then Some FString else None.

(** ** goat-bundle-qr *)

(** github.com/skip2/go-qrcode at level Low: the image of a code reads back. *)
Class QrLib := {
  qrcode : Type;
  qr_new : chars -> result string qrcode;
  qr_png : qrcode -> Z -> chars;
  qr_scan : chars -> option chars;
  scan_png p c size : qr_new p = Ok c -> qr_scan (qr_png c size) = Some p }.

Section qr.
Context {F : FileCalls} {Q : QrLib}.
(** The texts of the errors of the codec, and what writing to standard output gives. *)
Context (encode_text : qr_err -> string) (stdout_takes : result string unit).

Definition qr_flags (n : string) : option flag_kind :=
  if bool_decide (n = "size") then Some FInt
  else if bool_decide (n = "quiet") then Some FBool
  else string_flags ["in"; "out"] n.

(** What a run leaves behind: the texts it printed, each with a line break after it, and the disk. *)
Record printing := { out_lines : list string; err_lines : list string; on_disk : files }.
Definition quiet_run (d : files) : printing := {| out_lines := []; err_lines := []; on_disk := d |}.
Definition run (args : list string) (d : files) : result string unit * printing :=
  match parse_flags qr_flags args with
  | FlagHelp => (Err "flag: help requested", quiet_run d)
  | FlagError => (Err "", quiet_run d)
  | Parsed vs _ =>
    let inPath := flag_value "in" "" vs in
    let outPath := flag_value "out" "" vs in
    if bool_decide (inPath = "") then
      (Err "missing required -in",
       {| out_lines := []; err_lines := ["usage: goat-bundle-qr -in bundle.cbor [-out bundle.png] [-size 512]"]; on_disk := d |})
    else
      match read_file d inPath with
      | Err e => (Err ("read " +:+ inPath +:+ ": " +:+ e), quiet_run d)
      | Ok raw =>
        match Encode raw with
        | Err e => (Err ("encode bundle: " +:+ encode_text e), quiet_run d)
        | Ok payload =>
          let print := negb (bool_value "quiet" vs) in
          match (if print then stdout_takes else Ok tt) with
          | Err e => (Err e, quiet_run d)
          | Ok _ =>
            let lines := if print then [l2s payload] else [] in
            if bool_decide (outPath = "") then (Ok tt, {| out_lines := lines; err_lines := []; on_disk := d |})
            else
              match qr_new payload with
              | Err e => (Err ("build QR: " +:+ e), {| out_lines := lines; err_lines := []; on_disk := d |})
              | Ok qr =>
                let '(r, d) := write_file d outPath (qr_png qr (int_value "size" 512 vs)) in
                match r with
                | Err e => (Err ("write PNG " +:+ outPath +:+ ": " +:+ e), {| out_lines := lines; err_lines := []; on_disk := d |})
                | Ok _ =>
                  (Ok tt, {| out_lines := lines;
                             err_lines := ["wrote QR PNG: " +:+ outPath +:+ " (" +:+ itoa (Z.of_nat (length raw)) +:+ " bytes bundle, " +:+
                                           itoa (Z.of_nat (length payload)) +:+ " base45 chars)"];
                             on_disk := d |})
                end
              end
          end
        end
      end
  end.
(** main: the error on standard error, exit status 1. *)
Definition qr_main (args : list string) (d : files) : outcome * files :=
  let '(r, p) := run args d in
  match r with
  | Ok _ => ({| exit_code := 0; stdout := println <$> out_lines p; stderr := println <$> err_lines p |}, on_disk p)
  | Err e => ({| exit_code := 1; stdout := println <$> out_lines p; stderr := println <$> err_lines p ++ [e] |}, on_disk p)
  end.
End qr.

(** ** smoke-mint *)

(** x509.ParseECPrivateKey of the first PEM block's bytes, ecdsa.SignASN1 and the
    CBOR decoder. [whole_times]: times are encoded as whole seconds since 1970,
    which is what the decoder gives back; a signature is never empty and verifies
    under the public key. *)
Definition whole_second (t : Z) : Z := (t / second * second)%Z.
Definition whole_times (b : EnrollmentBundle) : EnrollmentBundle :=
  {| Version := Version b; DeviceID := DeviceID b; PeerPubkey := PeerPubkey b; ACLGroups := ACLGroups b; Site := Site b;
     KnownEndpoints := KnownEndpoints b; IssuedAt := whole_second (IssuedAt b); ActivationDeadline := whole_second (ActivationDeadline b);
     ExpiresAt := whole_second (ExpiresAt b); Nonce := Nonce b; CAID := CAID b; SnitchProbeKey := SnitchProbeKey b;
     TLSTrustAnchor := TLSTrustAnchor b; CPDevicePubkey := CPDevicePubkey b; CPDevicePrivkey := CPDevicePrivkey b;
     CPDeviceAddress := CPDeviceAddress b; MeshSetup := MeshSetup b; MobileCert := MobileCert b; Signature := Signature b |}.
Class Signing {K : BundleCodec} {C : Crypto} {P : PemX509} := {
  PrivateKey : Type;
  public_key : PrivateKey -> PublicKey;
  ParseECPrivateKey : chars -> option PrivateKey;
  SignASN1 : PrivateKey -> chars -> option chars;
  sign_verifies k digest sig : SignASN1 k digest = Some sig -> sig <> [] /\ VerifyASN1 (public_key k) digest sig = true;
  marshal_whole b : cbor_marshal (whole_times b) = cbor_marshal b;
  unmarshal_marshal b data : cbor_marshal b = Some data -> cbor_unmarshal data = Some (whole_times b) }.

Section mint.
Context {F : FileCalls} {K : BundleCodec} {C : Crypto} {P : PemX509} {G : Signing}.
(** base64.StdEncoding; time.Now and the 16 random bytes are read once. *)
Context (base64_decode : string -> option chars) (now : Z) (randBytes : chars).

Definition mint_flags : string -> option flag_kind :=
  string_flags ["ca-key"; "endpoint-pub"; "client-priv"; "client-pub"; "endpoint-addr"; "out"].
Definition day : Z := (24 * 3600 * second)%Z.

Definition minted (endpointAddr : string) (endpointPub clientPriv clientPub : chars) : EnrollmentBundle :=
  {| Version := 1; DeviceID := "smoke-mobile-01"; PeerPubkey := clientPub; ACLGroups := ["smoke"]; Site := "smoke-lab";
     KnownEndpoints := [{| Addr := endpointAddr; Pubkey := endpointPub; EpKind := KindRelay; MeshAddr := "198.18.0.2"; EpAllowedIPs := [] |}];
     IssuedAt := now; ActivationDeadline := (now + 7 * day)%Z; ExpiresAt := (now + 30 * day)%Z; Nonce := randBytes;
     CAID := "smoke-test-ca-ecdsa"; SnitchProbeKey := []; TLSTrustAnchor := []; CPDevicePubkey := clientPub; CPDevicePrivkey := clientPriv;
     CPDeviceAddress := "198.18.0.100/24";
     MeshSetup := {| SetupManagementURL := ""; SetupSetupKey := ""; SetupAdminAccessToken := ""; SetupPreSharedKey := [];
                     SetupRosenpassEnabled := false; SetupRosenpassPermissive := false |};
     MobileCert := []; Signature := [] |}.
Definition with_signature (sig : chars) (b : EnrollmentBundle) : EnrollmentBundle :=
  {| Version := Version b; DeviceID := DeviceID b; PeerPubkey := PeerPubkey b; ACLGroups := ACLGroups b; Site := Site b;
     KnownEndpoints := KnownEndpoints b; IssuedAt := IssuedAt b; ActivationDeadline := ActivationDeadline b; ExpiresAt := ExpiresAt b;
     Nonce := Nonce b; CAID := CAID b; SnitchProbeKey := SnitchProbeKey b; TLSTrustAnchor := TLSTrustAnchor b;
     CPDevicePubkey := CPDevicePubkey b; CPDevicePrivkey := CPDevicePrivkey b; CPDeviceAddress := CPDeviceAddress b;
     MeshSetup := MeshSetup b; MobileCert := MobileCert b; Signature := sig |}.

(** What log.Fatal ends the run with: must names what failed; the text of the
    library's error after it is left out. *)
Definition must {A} (o : option A) (ctx : string) : result string A := of_option ctx o.
Definition ok {E A} (r : result E A) : option A := match r with Ok a => Some a | Err _ => None end.

(** From the flags to the bytes of the bundle and the path they go to. *)
Definition mint (vs : list (string * string)) (d : files) : result string (string * chars) :=
  let flag n := flag_value n "" vs in
  let caKeyPath := flag_value "ca-key" "/tmp/smoke-ca/test-ca.key.pem" vs in
  _ ← (if existsb (fun n => bool_decide (flag n = "")) ["out"; "endpoint-addr"; "endpoint-pub"; "client-priv"; "client-pub"]
       then Err "required: --out --endpoint-addr --endpoint-pub --client-priv --client-pub" else Ok tt);
  keyPEM ← must (ok (read_file d caKeyPath)) "read ca key";
  '(block, _) ← of_option "ca key not PEM" (pem_decode keyPEM);
  caKey ← must (ParseECPrivateKey (BlockBytes block)) "parse ca key";
  endpointPub ← must (base64_decode (flag "endpoint-pub")) "decode endpoint pub";
  clientPriv ← must (base64_decode (flag "client-priv")) "decode client priv";
  clientPub ← must (base64_decode (flag "client-pub")) "decode client pub";
  let b := minted (flag "endpoint-addr") endpointPub clientPriv clientPub in
  signable ← must (Signable b) "signable";
  sig ← must (SignASN1 caKey (sha256 signable)) "sign";
  full ← must (Marshal (with_signature sig b)) "marshal";
  Ok (flag "out", full).

(** main; [None]: the flags ended it. *)
Definition mint_main (args : list string) (d : files) : option (result string string) * files :=
  match parse_flags mint_flags args with
  | FlagHelp | FlagError => (None, d)
  | Parsed vs _ =>
    match mint vs d with
    | Err e => (Some (Err e), d)
    | Ok (out, full) =>
      let '(r, d) := write_file d out full in
      (Some (match r with
             | Ok _ => Ok ("wrote " +:+ out +:+ " (" +:+ itoa (Z.of_nat (length full)) +:+ " bytes, endpoint=" +:+ flag_value "endpoint-addr" "" vs +:+ ")")
             | Err e => Err "write"
             end), d)
    end
  end.
End mint.

(** ** smoke-endpoint *)
Section endpoint.
(** The settings of the peer, as one text; strings.NewReplacer turns a
    backslash followed by an n, of which there is none, into a newline. *)
Definition endpoint_uapi (priv pub : chars) (port : Z) : string :=
  setting "private_key" (hex_encode priv) +:+ setting "listen_port" (itoa port) +:+ setting "replace_peers" "true" +:+
  setting "public_key" (hex_encode pub) +:+ setting "replace_allowed_ips" "true" +:+ setting "allowed_ip" "198.18.0.100/32".

(** One poll of the device: the handshakes printed, and the last one seen.
    [sscanf] is Sscanf with a percent d. *)
Context (sscanf : chars -> option Z).
Definition handshake_of (line : chars) : option Z := strip_prefix (s2l "last_handshake_time_sec=") line ≫= sscanf.
Fixpoint poll_lines (last : Z) (lines : list chars) : list Z * Z :=
  match lines with
  | [] => ([], last)
  | line :: lines' =>
    match handshake_of line with
    | Some sec => if (0 <? sec)%Z && negb (sec =? last)%Z
                  then let '(out, last') := poll_lines sec lines' in (sec :: out, last')
                  else poll_lines last lines'
    | None => poll_lines last lines'
    end
  end.
(** The goroutine over what the device answers at each tick, [None] an error. *)
Fixpoint watch (last : Z) (answers : list (option chars)) : list Z :=
  match answers with
  | [] => []
  | None :: l => watch last l
  | Some out :: l => let '(seen, last') := poll_lines last (split "010"%char out) in seen ++ watch last' l
  end.

(** main up to the wait for a signal: what it prints. [start] is the text the
    device is configured with and whether IpcSet and Up take it. *)
Definition endpoint_flags (n : string) : option flag_kind :=
  if bool_decide (n = "port") then Some FInt else string_flags ["endpoint-priv"; "client-pub"] n.
Definition endpoint_main (base64_decode : string -> option chars) (start : string -> result string unit) (args : list string) : option (result string string) :=
  match parse_flags endpoint_flags args with
  | FlagHelp | FlagError => None
  | Parsed vs _ => Some (
    let privB64 := flag_value "endpoint-priv" "" vs in
    let pubB64 := flag_value "client-pub" "" vs in
    let port := int_value "port" 51820 vs in
    _ ← (if bool_decide (privB64 = "") || bool_decide (pubB64 = "") then Err "required: --endpoint-priv --client-pub" else Ok tt);
    priv ← of_option "base64" (base64_decode privB64);
    pub ← of_option "base64" (base64_decode pubB64);
    _ ← start (endpoint_uapi priv pub port);
    Ok ("smoke-endpoint listening on :" +:+ itoa port +:+ ", peer=" +:+ pubB64))
  end.
End endpoint.

(** ** What the commands deliver *)
Section theorems.
Context {F : FileCalls}.

(** The payload goat-bundle-qr shows is the bundle: when it succeeds it has read
    the bundle, the line it prints - none with -quiet - decodes to the bundle and
    fits one QR code, and the only file it writes is the image, when one is asked
    for, which scans as the same payload. *)
Theorem qr_command_delivers {Q : QrLib} encode_text stdout_takes args vs rest (d : files) p :
  parse_flags qr_flags args = Parsed vs rest -> run encode_text stdout_takes args d = (Ok tt, p) ->
  exists raw payload, d !! flag_value "in" "" vs = Some raw /\ Decode payload = Ok raw /\ length payload <= QRAlphanumericLCeiling /\
    out_lines p = (if bool_value "quiet" vs then [] else [l2s payload]) /\
    (if decide (flag_value "out" "" vs = "") then on_disk p = d
     else exists img, qr_scan img = Some payload /\ on_disk p = <[flag_value "out" "" vs := img]> d).
Proof.
  intros Hp. unfold run. rewrite Hp. case_bool_decide as Hin; [done|].
  destruct (read_file d _) as [raw|] eqn:Er; [|done]. apply read_found in Er.
  destruct (Encode raw) as [payload|] eqn:Ee; [|done].
  assert (Decode payload = Ok raw /\ length payload <= QRAlphanumericLCeiling) as [Hd Hl] by (by apply Encode_Ok).
  destruct (if negb (bool_value "quiet" vs) then stdout_takes else Ok tt) as [[]|]; [|done].
  assert ((if negb (bool_value "quiet" vs) then [l2s payload] else []) = if bool_value "quiet" vs then [] else [l2s payload]) as ->
    by by destruct (bool_value "quiet" vs).
  case_bool_decide as Ho.
  { intros [= <-]. exists raw, payload. cbn. by rewrite decide_True. }
  destruct (qr_new payload) as [c|] eqn:Ec; [|done]. destruct (write_file d _ _) as [[[]|] d'] eqn:Ew; [|done].
  intros [= <-]. exists raw, payload. cbn [out_lines on_disk]. rewrite decide_False by done. split_and!; [done..|].
  eexists. split; [by eapply scan_png|]. by apply write_done in Ew.
Qed.

Lemma of_option_Ok_inv {E A} (e : E) (o : option A) a : of_option e o = Ok a -> o = Some a.
Proof. by destruct o; intros [= ->]. Qed.
Lemma whole_second_bounds t : (t - second < whole_second t <= t)%Z.
Proof. unfold whole_second, second. pose proof (Z.mod_pos_bound t 1000000000 ltac:(lia)). pose proof (Z.div_mod t 1000000000 ltac:(lia)). lia. Qed.

(** What mint went through. *)
Lemma mint_Ok {K : BundleCodec} {C : Crypto} {P : PemX509} {G : Signing} base64 now nonce vs (d : files) out full :
  mint base64 now nonce vs d = Ok (out, full) ->
  exists pem block rest k ep priv pub signable sig,
    d !! flag_value "ca-key" "/tmp/smoke-ca/test-ca.key.pem" vs = Some pem /\ pem_decode pem = Some (block, rest) /\
    ParseECPrivateKey (BlockBytes block) = Some k /\ base64 (flag_value "client-priv" "" vs) = Some priv /\
    base64 (flag_value "client-pub" "" vs) = Some pub /\
    let b := minted now nonce (flag_value "endpoint-addr" "" vs) ep priv pub in
    Signable b = Some signable /\ SignASN1 k (sha256 signable) = Some sig /\ Marshal (with_signature sig b) = Some full /\
    out = flag_value "out" "" vs.
Proof.
  unfold mint, must. intros H. apply bind_Ok in H as ([] & _ & H). apply bind_Ok in H as (pem & Hpem & H).
  apply bind_Ok in H as ([block rest] & Hblock & H). apply bind_Ok in H as (k & Hk & H). apply bind_Ok in H as (ep & _ & H).
  apply bind_Ok in H as (priv & Hpriv & H). apply bind_Ok in H as (pub & Hpub & H). apply bind_Ok in H as (signable & Hs & H).
  apply bind_Ok in H as (sig & Hsig & H). apply bind_Ok in H as (full' & Hf & [= <- <-]).
  apply of_option_Ok_inv in Hpem, Hblock, Hk, Hpriv, Hpub, Hs, Hsig, Hf.
  destruct (read_file d _) as [pem'|] eqn:Er; [|done]. injection Hpem as ->. apply read_found in Er.
  by exists pem, block, rest, k, ep, priv, pub, signable, sig.
Qed.

(** The bundle smoke-mint writes is one every client takes whose roots hold the
    public half of the key it signed with: it reads back, verifies, has not
    expired for thirty days and may be activated for seven, up to the second the
    encoding rounds down to; the outer tunnel can be built from it exactly when
    both device keys are 32 bytes long. *)
Theorem minted_bundle_accepted {K : BundleCodec} {C : Crypto} {P : PemX509} {G : Signing} base64 now nonce vs (d : files) out full roots :
  mint base64 now nonce vs d = Ok (out, full) ->
  (forall pem block rest k, d !! flag_value "ca-key" "/tmp/smoke-ca/test-ca.key.pem" vs = Some pem -> pem_decode pem = Some (block, rest) ->
     ParseECPrivateKey (BlockBytes block) = Some k -> p256 (public_key k) /\ public_key k ∈ Keys roots) ->
  exists b, Unmarshal full = Ok b /\ VerifyBundle roots b = Ok tt /\
    (forall t, (t <= now + 30 * day - second)%Z -> CheckExpiry b t = Ok tt) /\
    (forall t, (t <= now + 7 * day - second)%Z -> CheckActivationDeadline b t = Ok tt) /\
    (HasWgCp0 b = true <-> length (CPDevicePubkey b) = 32 /\ length (CPDevicePrivkey b) = 32) /\
    base64 (flag_value "client-pub" "" vs) = Some (CPDevicePubkey b) /\ base64 (flag_value "client-priv" "" vs) = Some (CPDevicePrivkey b).
Proof.
  intros (pem & block & rest & k & ep & priv & pub & signable & sig & Hpem & Hblock & Hk & Hpriv & Hpub & Hs & Hsig & Hf & ->)%mint_Ok Hroots.
  destruct (Hroots _ _ _ _ Hpem Hblock Hk) as [Hcurve Hin]. destruct (sign_verifies _ _ _ Hsig) as [Hne Hv].
  set (b := minted _ _ _ _ _ _) in Hs, Hf. exists (whole_times (with_signature sig b)). split_and!.
  - unfold Unmarshal. by rewrite (unmarshal_marshal _ _ Hf).
  - apply VerifyBundle_Ok. exists (public_key k). split; [done|]. split; [done|]. split; [done|]. exists signable. split; [|done].
    unfold Signable in *. rewrite <-Hs. exact (marshal_whole (unsigned b)).
  - intros t Ht. unfold CheckExpiry. pose proof (whole_second_bounds (now + 30 * day)).
    destruct (Z.ltb_spec (ExpiresAt (whole_times (with_signature sig b))) t) as [Hx|]; [|done]. cbn in Hx. lia.
  - intros t Ht. unfold CheckActivationDeadline. pose proof (whole_second_bounds (now + 7 * day)).
    destruct (Z.ltb_spec (ActivationDeadline (whole_times (with_signature sig b))) t) as [Hx|]; [|done]. cbn in Hx. lia.
  - unfold HasWgCp0, CheckCPDeviceKeypair, nonempty. cbn [CPDevicePubkey CPDevicePrivkey CPDeviceAddress whole_times with_signature b minted].
    split.
    + case_match; [|done]. rewrite !andb_true_iff, !Nat.eqb_eq. tauto.
    + intros [-> ->]. done.
  - done.
  - done.
Qed.
End theorems.

Definition shown (sscanf : chars -> option Z) (answers : list (option chars)) (sec : Z) : Prop :=
  (0 < sec)%Z /\ exists out line, Some out ∈ answers /\ line ∈ split "010"%char out /\ handshake_of sscanf line = Some sec.
Lemma poll_lines_spec sscanf lines : forall last seen last',
  poll_lines sscanf last lines = (seen, last') ->
  Sorted (fun a b => a <> b) (last :: seen) /\ list.last (last :: seen) = Some last' /\
  (forall sec, sec ∈ seen -> (0 < sec)%Z /\ exists line, line ∈ lines /\ handshake_of sscanf line = Some sec) /\
  (forall sec line, line ∈ lines -> handshake_of sscanf line = Some sec -> (0 < sec)%Z -> sec ∈ last :: seen).
Proof.
  induction lines as [|line lines IH]; intros last seen last'; cbn [poll_lines].
  { intros [= <- <-]. split_and!; [by repeat constructor|done|by intros ? ?%elem_of_nil|by intros ? ? ?%elem_of_nil]. }
  assert (forall seen last', poll_lines sscanf last lines = (seen, last') -> handshake_of sscanf line = None \/
    (exists sec, handshake_of sscanf line = Some sec /\ ((sec <= 0)%Z \/ sec = last)) ->
    Sorted (fun a b => a <> b) (last :: seen) /\ list.last (last :: seen) = Some last' /\
    (forall sec, sec ∈ seen -> (0 < sec)%Z /\ exists l, l ∈ line :: lines /\ handshake_of sscanf l = Some sec) /\
    (forall sec l, l ∈ line :: lines -> handshake_of sscanf l = Some sec -> (0 < sec)%Z -> sec ∈ last :: seen)) as Hskip.
  { intros seen0 last0 H0 Hline. destruct (IH _ _ _ H0) as (H1 & H2 & H3 & H4). split_and!; [done..| |].
    - intros sec Hsec. destruct (H3 sec Hsec) as (Hp & l & Hl & Hh). split; [done|]. exists l. split; [by right|done].
    - intros sec l [->|Hl]%elem_of_cons Hh Hp; [|by eapply H4]. destruct Hline as [Hn|(sec' & Hn & [Hle| ->])]; rewrite Hh in Hn; [done| |].
      + injection Hn as <-. lia.
      + injection Hn as ->. by left. }
  destruct (handshake_of sscanf line) as [sec|] eqn:Eh; [|intros H; apply Hskip; [done|by left]].
  destruct ((0 <? sec)%Z && negb (sec =? last)%Z) eqn:Ec.
  - apply andb_true_iff in Ec as [Hp%Z.ltb_lt Hn]. apply negb_true_iff, Z.eqb_neq in Hn.
    destruct (poll_lines sscanf sec lines) as [seen0 last0] eqn:E0. intros [= <- <-]. destruct (IH _ _ _ E0) as (H1 & H2 & H3 & H4).
    split_and!.
    + constructor; [done|]. constructor. congruence.
    + by rewrite <-H2.
    + intros sec' [->|Hs]%elem_of_cons; [split; [done|]; exists line; split; [by left|done]|].
      destruct (H3 _ Hs) as (? & l & ? & ?). split; [done|]. exists l. split; [by right|done].
    + intros sec' l [->|Hl]%elem_of_cons Hh Hp'; [rewrite Eh in Hh; injection Hh as ->; right; by left|]. right. by eapply H4.
  - intros H. apply Hskip; [done|]. right. exists sec. split; [done|]. apply andb_false_iff in Ec as [Hp%Z.ltb_ge|Hn%negb_false_iff%Z.eqb_eq]; auto.
Qed.

Lemma Sorted_glue {A} (R : relation A) a b s t : Sorted R (a :: s) -> list.last (a :: s) = Some b -> Sorted R (b :: t) -> Sorted R (a :: s ++ t).
Proof.
  revert a. induction s as [|c s IH]; intros a Hs Hl Ht; [by injection Hl as ->|]. cbn [app].
  inversion_clear Hs as [|? ? Hs' Hh]. constructor; [by apply IH|]. inversion_clear Hh. by constructor.
Qed.

Lemma watch_spec sscanf (answers : list (option chars)) : forall last,
  Sorted (fun a b => a <> b) (last :: watch sscanf last answers) /\
  (forall sec, sec ∈ watch sscanf last answers -> shown sscanf answers sec) /\
  (forall sec, shown sscanf answers sec -> sec ∈ last :: watch sscanf last answers).
Proof.
  induction answers as [|[out|] answers IH]; intros last0; cbn [watch].
  - split_and!; [by repeat constructor|by intros ? ?%elem_of_nil|]. by intros sec (_ & out & line & Ho%elem_of_nil & _).
  - destruct (poll_lines sscanf last0 (split "010"%char out)) as [seen last'] eqn:Ep. destruct (poll_lines_spec _ _ _ _ _ Ep) as (H1 & H2 & H3 & H4).
    destruct (IH last') as (I1 & I2 & I3). split_and!.
    + by eapply Sorted_glue.
    + intros sec [Hs|Hs]%elem_of_app.
      * destruct (H3 _ Hs) as (Hp & line & Hl & Hh). split; [done|]. exists out, line. split; [by left|done].
      * destruct (I2 _ Hs) as (Hp & o & line & Ho & Hl). split; [done|]. exists o, line. split; [by right|done].
    + intros sec (Hp & o & line & Ho & Hl & Hh). rewrite app_comm_cons, elem_of_app. apply elem_of_cons in Ho as [[= ->]|Ho].
      * left. by eapply H4.
      * assert (sec ∈ last' :: watch sscanf last' answers) as [->|Hs]%elem_of_cons by (apply I3; split; [done|by eauto]); [left|by right].
        by apply last_Some_elem_of.
  - destruct (IH last0) as (I1 & I2 & I3). split_and!; [done| |].
    + intros sec Hs. destruct (I2 _ Hs) as (Hp & o & line & Ho & Hl). split; [done|]. exists o, line. split; [by right|done].
    + intros sec (Hp & o & line & Ho & Hl). apply I3. split; [done|]. apply elem_of_cons in Ho as [[=]|Ho]. by exists o, line.
Qed.

(** The watcher prints every handshake the device shows, never one twice in a
    row, and nothing else. *)
Theorem watch_reports_handshakes sscanf (answers : list (option chars)) :
  Sorted (fun a b => a <> b) (0%Z :: watch sscanf 0 answers) /\ (forall sec, sec ∈ watch sscanf 0 answers <-> shown sscanf answers sec).
Proof.
  destruct (watch_spec sscanf answers 0) as (H1 & H2 & H3). split; [done|]. intros sec. split; [apply H2|].
  intros Hs. pose proof (H3 _ Hs) as [->|?]%elem_of_cons; [|done]. destruct Hs as [Hp _]. lia.
Qed.

(** ** A disk that takes every write, a key that signs with its name *)
Module ToyTools.
#[export, refine] Instance disk_calls : FileCalls := {|
  read_file d p := match d !! p with Some c => Ok c | None => Err "no such file" end; write_file d p c := (Ok tt, <[p := c]> d) |}.
Proof.
  - intros d p c. destruct (d !! p); by intros [= ->].
  - by intros d p c d' [= <-].
Defined.
#[export, refine] Instance qr : QrLib := {|
  qrcode := chars; qr_new := Ok; qr_png c _ := "P"%char :: c; qr_scan i := match i with _ :: p => Some p | [] => None end |}.
Proof. by intros p c _ [= ->]. Defined.
#[export] Instance KnownEndpoint_eq_dec : EqDecision KnownEndpoint.
Proof. solve_decision. Defined.
#[export] Instance InnerMeshSetup_eq_dec : EqDecision InnerMeshSetup.
Proof. solve_decision. Defined.
#[export] Instance EnrollmentBundle_eq_dec : EqDecision EnrollmentBundle.
Proof. solve_decision. Defined.

#[export] Existing Instance Toy.crypto.
Definition key32 : chars := replicate 32 "k"%char.
(** The one bundle the toy encoding writes, up to its signature. *)
Definition base : EnrollmentBundle := minted (5 * second) (s2l "nonce") "10.0.2.2:51820" key32 key32 key32.
#[export] Instance codec : BundleCodec := {|
  cbor_marshal b := if decide (unsigned (whole_times b) = base) then Some (Signature b) else None;
  cbor_unmarshal data := Some (with_signature data base) |}.
#[export, refine] Instance pem : PemX509 (C := Toy.crypto) := {|
  pem_decode data := match data with [] => None | _ :: l => Some ({| BlockType := "EC PRIVATE KEY"; BlockBytes := l |}, []) end;
  ParsePKIXPublicKey _ := None; ParseCertificate _ := None |}.
Proof. intros [|c l] b rest; [done|]. intros [= <- <-]. cbn. lia. Defined.

Lemma whole_second_idem t : whole_second (whole_second t) = whole_second t.
Proof. unfold whole_second. rewrite Z.div_mul; [done|]. by unfold second. Qed.
Lemma whole_times_idem b : whole_times (whole_times b) = whole_times b.
Proof. unfold whole_times. cbn. by rewrite !whole_second_idem. Qed.
#[export, refine] Instance signing : Signing (K := codec) (C := Toy.crypto) (P := pem) := {|
  PrivateKey := {k : string | k <> ""}; public_key k := `k : @PublicKey Toy.crypto;
  ParseECPrivateKey b := match decide (l2s b <> "") with left H => Some (l2s b ↾ H) | right _ => None end;
  SignASN1 k _ := Some (s2l (`k)) |}.
Proof.
  - intros [k Hk] digest sig [= <-]. cbn. split; [|by apply bool_decide_eq_true]. by destruct k.
  - intros b. cbn [cbor_marshal codec]. by rewrite whole_times_idem.
  - intros b data. cbn [cbor_marshal cbor_unmarshal codec]. case_decide as Hb; [|done]. intros [= <-]. f_equal. by rewrite <-Hb.
Defined.

Definition lab : files := {[ "/tmp/smoke-ca/test-ca.key.pem" := s2l "-lab" ]}.
Definition flags : list string :=
  ["-out"; "b.cbor"; "--endpoint-addr=10.0.2.2:51820"; "-endpoint-pub"; "K"; "-client-priv"; "K"; "-client-pub"; "K"].
Definition values : list (string * string) := match parse_flags mint_flags flags with Parsed vs _ => vs | _ => [] end.
Definition base64 (_ : string) : option chars := Some key32.

Lemma minted_bundle_accepted_witness :
  mint_main base64 (5 * second) (s2l "nonce") flags lab =
    (Some (Ok "wrote b.cbor (3 bytes, endpoint=10.0.2.2:51820)"), <["b.cbor" := s2l "lab"]> lab) /\
  exists b, Unmarshal (s2l "lab") = Ok b /\
    VerifyBundle (C := Toy.crypto) (Some {| keys := ["lab"] : list (@PublicKey Toy.crypto) |}) b = Ok tt /\ HasWgCp0 b = true.
Proof.
  split; [vm_compute; reflexivity|].
  destruct (minted_bundle_accepted (G := signing) base64 (5 * second) (s2l "nonce") values lab "b.cbor" (s2l "lab")
    (Some {| keys := ["lab"] : list (@PublicKey Toy.crypto) |})) as (b & Hb & Hv & _ & _ & Hw & _).
  - vm_compute. reflexivity.
  - intros pm block rest k Hpm Hd Hk. vm_compute in Hpm. injection Hpm as <-. vm_compute in Hd. injection Hd as <- <-.
    cbn in Hk. case_match; [|done]. injection Hk as <-. split; [by vm_compute|]. by left.
  - exists b. split; [exact Hb|]. split; [exact Hv|]. vm_compute in Hb. injection Hb as <-. vm_compute. reflexivity.
Defined.

Lemma qr_command_delivers_witness :
  qr_main (fun _ => "") (Ok tt) ["-in"; "b.cbor"; "-out"; "b.png"] {[ "b.cbor" := s2l "AB" ]} =
    ({| exit_code := 0; stdout := [println "BB8"]; stderr := [println "wrote QR PNG: b.png (2 bytes bundle, 3 base45 chars)"] |},
     {[ "b.cbor" := s2l "AB"; "b.png" := s2l "PBB8" ]}) /\
  Decode (s2l "BB8") = Ok (s2l "AB").
Proof.
  split; [vm_compute; reflexivity|].
  destruct (qr_command_delivers (fun _ => "") (Ok tt) ["-in"; "b.cbor"] [("in", "b.cbor")] [] {[ "b.cbor" := s2l "AB" ]}
    {| out_lines := ["BB8"]; err_lines := []; on_disk := {[ "b.cbor" := s2l "AB" ]} |}) as (raw & payload & Hraw & Hd & _ & Ho & _).
  - vm_compute. reflexivity.
  - vm_compute. reflexivity.
  - vm_compute in Hraw. injection Hraw as <-. vm_compute in Ho. injection Ho as Ho.
    assert (payload = s2l "BB8") as <- by (apply (f_equal s2l) in Ho; change (s2l "BB8" = s2l (l2s payload)) in Ho; by rewrite s2l_l2s in Ho).
    exact Hd.
Defined.
End ToyTools.
