(* ===== verification/DaemonMain.v ===== *)
(** The daemon's process: cmd/goat-clientd/main.go and internal/daemon/paths.go,
    over package flag as in Cli.v.

    [machine] is what the process finds: the files it reads, the directories the
    system names, the disks of the store and of the configuration, an idle tunnel
    manager and the host's resolver. [main] is everything up to the exit or to the
    moment the control channel opens; from there on the daemon takes the steps of
    Daemon.v, and the process ends as [life_do] says. Log lines are left out. *)
From stdpp Require Import base tactics sets list gmap strings.
From Stdlib Require Import ZArith Ascii Lia.
From S2P Require Import DnsAdapter.
From S2P Require Import Prelude GoStr GoFmt Fs.
From S2P Require Import Mode.
From S2P Require Import Bundle.
From S2P Require Import Profile.
From S2P Require Import ProfileSpec.
From S2P Require Import Tunnel.
From S2P Require Import InnerMesh.
From S2P Require Import Ipc.
From S2P Require Import Daemon.
From S2P Require Import DaemonSpec.
From S2P Require Import ClientApi.
From S2P Require Import Cli.
Local Open Scope list_scope.

(** ** Paths *)

(** [config] is os.UserConfigDir, [home] os.UserHomeDir, [None] on an error. *)
Definition userConfigDir (config : option string) : option string :=
  (fun root => path_join [root; "goat-client"]) <$> config.
Definition default_path (config home : option string) (file : string) : string :=
  match userConfigDir config, home with
  | Some dir, _ => path_join [dir; file]
  | None, Some h => path_join [h; ".goat-client"; file]
  | None, None => ".goat-client/" +:+ file
  end.
Definition DefaultBundlePath (config home : option string) : string := default_path config home "bundle.cbor".
Definition DefaultTrustRootsPath (config home : option string) : string := default_path config home "trust-roots.pem".
(** [runtime] is the environment's XDG_RUNTIME_DIR. *)
Definition DefaultSocketPath (platform : os) (runtime : string) (home : option string) : string :=
  match platform with
  | Windows => "\\.\pipe\goat-clientd"
  | _ =>
    if negb (bool_decide (runtime = "")) then path_join [runtime; "goat-clientd.sock"]
    else match home with
         | Some h => path_join [h; ".goat-client"; "goat-clientd.sock"]
         | None => "/tmp/goat-clientd.sock"
         end
  end.
(** [data] is the environment's ProgramData. *)
Definition DefaultConfigPath (platform : os) (data : string) : string :=
  match platform with
  | Linux | Mobile => "/etc/goat-client/config.toml"
  | Darwin => "/Library/Application Support/goat-client/config.toml"
  | Windows =>
    if negb (bool_decide (data = "")) then path_join [data; "goat-client"; "config.toml"]
    else "C:\ProgramData\goat-client\config.toml"
  end.

(** ** Flags *)
Definition clientd_flags (n : string) : option flag_kind :=
  if bool_decide (n ∈ ["bundle"; "trust-roots"; "socket"; "config"; "mode"; "import-bundle"]) then Some FString
  else if bool_decide (n ∈ ["headless"; "auto-connect"; "names-fronting"]) then Some FBool
  else None.
Definition on_by_default (n : string) (vs : list (string * string)) : bool :=
  default true (parse_bool (flag_value n "true" vs)).

Section main.
Context {K : BundleCodec} {C : Crypto} {X : PemX509} {J : RawJson} {N : NetipLib} {U : NetText} {H : HostDNS}
  {T : TunnelManager} {M : Mesh}.

Record machine := {
  file_at : string -> result fserr chars;
  abs_path : string -> result string string;
  config_dir : option string;
  home_dir : option string;
  runtime_dir : string;
  program_data : string;
  store_disk : pworld;
  config_disk : world string chars;
  manager0 : tmgr;
  resolver0 : resolver;
  names_up : bool }.
Context (platform : os) (meshFactory : mesh) (envs : nat -> Env).
(** The texts of errors made elsewhere. *)
Context (roots_text : roots_error -> string) (daemon_text : daemon_error -> string).

Definition loadTrustRoots (m : machine) (path : string) : result string TrustRoots :=
  if bool_decide (path = "") then Err "trust-roots path required"
  else
    match file_at m path with
    | Err ENoEnt =>
      Err ("trust-roots file " +:+ path +:+ " does not exist (drop the offline-CA ECDSA P-256 pubkey PEM there)")
    | Err EIo => map_err roots_text (LoadTrustRootsFromFile None)
    | Ok data => map_err roots_text (LoadTrustRootsFromFile (Some data))
    end.

Definition initial_mode (s : string) : result parse_error Mode :=
  if bool_decide (s = "") then Ok "" else Mode.Parse s.

Definition daemon_config (m : machine) (vs : list (string * string)) (roots : TrustRoots) (initial : Mode) : Config :=
  {| BundlePath := flag_value "bundle" (DefaultBundlePath (config_dir m) (home_dir m)) vs;
     SocketPath := flag_value "socket" (DefaultSocketPath platform (runtime_dir m) (home_dir m)) vs;
     ProfilesDir := ""; ActiveProfilePath := ""; CfgTrustRoots := Some roots;
     CfgPath := flag_value "config" (DefaultConfigPath platform (program_data m)) vs; InitialMode := initial;
     NamesFronting := on_by_default "names-fronting" vs; MeshSupervisorInterval := 0; MeshSupervisorMax := 0 |}.

(** ** The one-shot import *)
Definition imported_line (r : ImportBundleReply) (format : Z -> string) : string :=
  "imported: device=" +:+ repDeviceID r +:+ " site=" +:+ repSite r +:+ " expires=" +:+ format (repExpiresAt r) +:+
  " endpoints=" +:+ itoa (repEndpointsCount r).

(** The results of the connect and of the shutdown are only logged. *)
Definition runImportBundleOneShot (m : machine) (cfg : Config) (path : string) : action Daemon string ImportBundleReply :=
  abs ← lift (map_err (fun e => "resolve path: " +:+ e) (abs_path m path));
  raw ← lift (map_err (fun _ => "read bundle file: " +:+ abs) (file_at m abs));
  reply ← with_err (fun e => "import: " +:+ daemon_text e)
            (ImportBundle platform cfg (envs 1) {| ImportBytes := raw |});
  _ ← ignore (Connect platform meshFactory cfg (envs 2));
  _ ← ignore Shutdown;
  mret reply.

(** ** The process *)
Inductive ended :=
  | Usage (code : Z)
  | Failed (code : Z) (line : string) (left : option Daemon)
  | Imported (cfg : Config) (d : Daemon) (reply : ImportBundleReply)
  | Serving (cfg : Config) (d : Daemon) (auto_connect : bool).

Definition exit_of (e : ended) : option Z :=
  match e with Usage c => Some c | Failed c _ _ => Some c | Imported _ _ _ => Some 0%Z | Serving _ _ _ => None end.

Definition launch (m : machine) (vs : list (string * string)) (cfg : Config) : ended :=
  match New meshFactory cfg (config_ok (envs 0)) (names_up m) (manager0 m) (resolver0 m) (store_disk m) (config_disk m) with
  | Err e => Failed 1 ("daemon init: " +:+ daemon_text e) None
  | Ok d =>
    let d := (LoadPersistedBundle (E := daemon_error) platform cfg (envs 0) d).2 in
    let path := flag_value "import-bundle" "" vs in
    if negb (bool_decide (path = "")) then
      match runImportBundleOneShot m cfg path d with
      | (Err e, d') => Failed 1 ("import-bundle: " +:+ e) (Some d')
      | (Ok reply, d') => Imported cfg d' reply
      end
    else Serving cfg d (on_by_default "auto-connect" vs)
  end.

Definition main (m : machine) (args : list string) : ended :=
  match parse_flags clientd_flags args with
  | FlagHelp => Usage 0
  | FlagError => Usage 2
  | Parsed vs _ =>
    match loadTrustRoots m (flag_value "trust-roots" (DefaultTrustRootsPath (config_dir m) (home_dir m)) vs) with
    | Err e => Failed 2 ("trust roots: " +:+ e) None
    | Ok roots =>
      match initial_mode (flag_value "mode" "" vs) with
      | Err _ => Failed 2 "--mode: mode: unknown mode" None
      | Ok initial => launch m vs (daemon_config m vs roots initial)
      end
    end
  end.

(** ** What an import that succeeds has done *)
Definition stored (bytes : chars) (d : Daemon) : Prop :=
  exists slug, slug <> "" /\ holds_bundle slug (Raw bytes) (disk (store d)).
Lemma stored_same bytes d d' : stored bytes d -> same_profile d d' -> stored bytes d'.
Proof. intros (slug & Hs & Hb) (_ & _ & _ & _ & E & _). exists slug. by rewrite E. Qed.

Lemma store_add_stores cfg env name md bytes r d info d' :
  store_add cfg env name md bytes r d = (Ok info, d') ->
  iSlug info <> "" /\ holds_bundle (iSlug info) (Raw bytes) (disk (store d')).
Proof.
  intros E. split; [by eapply store_add_slug|]. unfold store_add, on in E.
  destruct (Profile.Add _ _ _ _ (store d)) as [x w] eqn:Ea. injection E as -> <-. by apply Add_stores in Ea.
Qed.

Lemma import_default_stores cfg env md bytes b d d' :
  import_default cfg env md bytes b d = (Ok tt, d') ->
  currentBundle d' = Some b /\ currentSlug d' <> "" /\ stored bytes d'.
Proof.
  unfold import_default. intros (r & d1 & Ha & Hr)%action_bind_Ok. apply action_bind_Ok in Hr as (info & d2 & Hi & Hr).
  assert (iSlug info <> "" /\ holds_bundle (iSlug info) (Raw bytes) (disk (store d2))) as [Hs Hb].
  { unfold attempt in Ha. destruct (store_add cfg env "default" md bytes false d) as [x dx] eqn:Ex. injection Ha as <- <-.
    destruct x as [i|e]; [injection Hi as <- <-; by eapply store_add_stores|].
    destruct e; try discriminate Hi. apply with_err_Ok in Hi. by eapply store_add_stores. }
  apply action_bind_Ok in Hr as (p & d3 & Hp & Hr). injection Hr as <-. cbn. split_and!; [done|done|].
  exists (iSlug info). split; [done|]. apply with_err_Ok in Hp. unfold on in Hp.
  pose proof (holds_SetActive _ _ (store_ok env) (iSlug info) (store d2) Hb) as H3.
  destruct (SetActive _ _ (store d2)) as [x w]. by injection Hp as _ <-.
Qed.

Lemma import_replace_stores cfg env slug md bytes b d d' :
  import_replace cfg env slug md bytes b d = (Ok tt, d') -> currentSlug d <> "" ->
  currentBundle d' = Some b /\ currentSlug d' <> "" /\ stored bytes d'.
Proof.
  unfold import_replace. intros (r & d1 & Ha & Hr)%action_bind_Ok Hs.
  assert (currentSlug d1 = currentSlug d) as Hd1.
  { unfold attempt, profileInfoBySlug, mbind, action_bind, on, lift in Ha. destruct (List _ (store d)) as [[l|e] w]; by injection Ha as _ <-. }
  destruct (match r with Ok info => (iName info, iMode info) | Err _ => (slug, md) end) as [name md'].
  apply action_bind_Ok in Hr as (info & d2 & Hi & Hr). injection Hr as <-. cbn. apply with_err_Ok in Hi.
  split_and!; [done| |exists (iSlug info); cbn; by eapply store_add_stores].
  unfold store_add, on in Hi. destruct (Profile.Add _ _ _ _ _) as [x w]. injection Hi as _ <-. cbn. by rewrite Hd1.
Qed.

Lemma ImportBundle_Ok cfg env r d reply d' :
  ImportBundle platform cfg env r d = (Ok reply, d') ->
  exists b, Unmarshal (ImportBytes r) = Ok b /\ VerifyBundle (CfgTrustRoots cfg) b = Ok tt /\ CheckCPDeviceKeypair b = Ok tt /\
    CheckExpiry b (now env) = Ok tt /\ reply = import_reply b /\
    currentBundle d' = Some b /\ currentSlug d' <> "" /\ stored (ImportBytes r) d'.
Proof.
  unfold ImportBundle. intros (b & d1 & Hu & Hr)%action_bind_Ok. injection Hu as Hu%map_err_Ok <-.
  destruct (Empty _); [done|]. apply action_bind_Ok in Hr as ([] & d2 & Hv & Hr). injection Hv as Hv%map_err_Ok <-.
  apply action_bind_Ok in Hr as ([] & d3 & Hk & Hr). injection Hk as Hk%map_err_Ok <-.
  apply action_bind_Ok in Hr as ([] & d4 & He & Hr). injection He as He%map_err_Ok <-.
  apply action_bind_Ok in Hr as (s & d5 & Hs & Hr). injection Hs as <- <-.
  apply action_bind_Ok in Hr as ([] & d6 & Hi & Hr).
  assert (currentBundle d6 = Some b /\ currentSlug d6 <> "" /\ stored (ImportBytes r) d6) as (Hb & Hs & Hst).
  { case_bool_decide as Hs; [by eapply import_default_stores|by eapply import_replace_stores]. }
  apply action_bind_Ok in Hr as ([] & d7 & Hc & Hr). injection Hr as <- <-.
  pose proof (same_configure_outer (E := daemon_error) platform b d6) as Hsame. rewrite Hc in Hsame. cbn [snd] in Hsame.
  exists b. pose proof (stored_same _ _ _ Hst Hsame). destruct Hsame as (_ & _ & E3 & E4 & _).
  rewrite E3, E4. by split_and!.
Qed.

#[local] Hint Extern 1 (within same_profile (on _ _)) => apply within_on; done : within.
#[local] Hint Extern 1 (within same_profile (update _)) => apply within_update; done : within.
Lemma Shutdown_effect d :
  outer_idle (Shutdown d).2 /\ dmesh (Shutdown d).2 = None /\ same_profile d (Shutdown d).2.
Proof.
  assert (within same_profile Shutdown) as Hsame by (unfold Shutdown; walk).
  destruct (outer_down_effect (E := tunnel_error) d) as (d1 & E1 & [Ht Hl] & _). split_and!; [| |apply Hsame].
  all: unfold Shutdown; rewrite (action_bind_eq _ _ _ _ _ E1); unfold drop_mesh, update, run, modify, on, mbind, action_bind; cbn [fst snd];
    set (d2 := set dmesh _ _); pose proof (t_close_up (manager d2)) as Hc; destruct (t_close (manager d2)) as [r t]; cbn in *.
  - split; [by intros ?%Hc|done].
  - done.
Qed.

(** The handles let go of: only a shutdown lets go of one here, and it is
    disconnected and closed then. *)
Definition same_dropped : relation Daemon := fun d d' => dropped d' = dropped d.
#[local] Instance same_dropped_pre : PreOrder same_dropped.
Proof. split; [done|]. unfold same_dropped. intros d1 d2 d3 ? ?. congruence. Qed.
#[local] Hint Extern 1 (within same_dropped (on _ _)) => apply within_on; done : within.
#[local] Hint Extern 1 (within same_dropped (on_mesh _ _)) => apply within_on_mesh; done : within.
#[local] Hint Extern 1 (within same_dropped (update _)) => apply within_update; done : within.
Lemma ImportBundle_dropped cfg env r : within same_dropped (ImportBundle platform cfg env r).
Proof. unfold ImportBundle, import_default, import_replace, store_add, profileInfoBySlug, configure_outer. walk. Qed.
Lemma Connect_dropped cfg env : within same_dropped (Connect platform meshFactory cfg env).
Proof.
  unfold Connect, connect_outer, connect_inner, connected, configure_mesh, connectMesh, applyDNS, applyDNSCurrent. walk.
Qed.
Lemma LoadPersistedBundle_dropped {E} cfg env : within same_dropped (LoadPersistedBundle (E := E) platform cfg env).
Proof. unfold LoadPersistedBundle, migrate_legacy, adoptProfile, configure_outer. walk. Qed.
Lemma New_dropped cfg cok nu t h st w d : New meshFactory cfg cok nu t h st w = Ok d -> dropped d = [].
Proof.
  unfold New. do 2 (case_bool_decide; [done|]). destruct (if bool_decide (CfgPath cfg = "") then _ else _) as [loaded w'].
  intros (pc & _ & Hn)%bind_Ok. apply bind_Ok in Hn as (mdns & _ & Hn). apply bind_Ok in Hn as (m & Hm & Hn).
  by apply bind_Ok in Hn as (? & _ & [= <-]).
Qed.
Lemma Shutdown_retires d : dropped (Shutdown d).2 = option_list (retire <$> dmesh d) ++ dropped d.
Proof.
  destruct (outer_down_effect (E := tunnel_error) d) as (d1 & E1 & _ & _).
  assert (dropped d1 = dropped d /\ dmesh d1 = dmesh d) as [<- <-].
  { assert (within (fun d d' => dropped d' = dropped d /\ dmesh d' = dmesh d) (outer_down (E := tunnel_error))) as Hw.
    - intros d0. unfold outer_down, restoreDNS, ignore, attempt, update, run, modify, on, mbind, action_bind. cbn [fst snd].
      destruct (dns_restore _) as [r h]. cbn. by match goal with |- context [t_disconnect ?x] => destruct (t_disconnect x) end.
    - specialize (Hw d). by rewrite E1 in Hw. }
  unfold Shutdown. rewrite (action_bind_eq _ _ _ _ _ E1). unfold drop_mesh, update, run, modify, on, mbind, action_bind. cbn [fst snd].
  by destruct (t_close _) as [r t].
Qed.

(** The trust roots the process runs with: those of the file it was given. *)
Definition roots_of_file (m : machine) (vs : list (string * string)) (roots : TrustRoots) : Prop :=
  exists pem, file_at m (flag_value "trust-roots" (DefaultTrustRootsPath (config_dir m) (home_dir m)) vs) = Ok pem /\
    LoadTrustRootsFromPEM pem = Ok roots.

Lemma loadTrustRoots_Ok m vs roots :
  loadTrustRoots m (flag_value "trust-roots" (DefaultTrustRootsPath (config_dir m) (home_dir m)) vs) = Ok roots ->
  roots_of_file m vs roots.
Proof.
  unfold loadTrustRoots, roots_of_file. destruct (bool_decide (_ = "")); [done|].
  destruct (file_at m _) as [pem|[|]]; [|done..]. intros Hr%map_err_Ok. by exists pem.
Qed.

(** How far [main] gets. *)
Lemma main_launch m args e :
  main m args = e -> (match e with Imported _ _ _ | Serving _ _ _ => True | _ => False end) ->
  exists vs rest roots initial, parse_flags clientd_flags args = Parsed vs rest /\ roots_of_file m vs roots /\
    e = launch m vs (daemon_config m vs roots initial).
Proof.
  intros <-. unfold main. destruct (parse_flags _ args) as [vs rest| |]; [|done..].
  destruct (loadTrustRoots m _) as [roots|x] eqn:Er; [|done]. destruct (initial_mode _) as [initial|x]; [|done].
  intros _. exists vs, rest, roots, initial. split; [done|]. split; [by apply loadTrustRoots_Ok|done].
Qed.

Lemma runImportBundleOneShot_Ok m cfg path d reply d' :
  runImportBundleOneShot m cfg path d = (Ok reply, d') ->
  exists abs raw b, abs_path m path = Ok abs /\ file_at m abs = Ok raw /\ Unmarshal raw = Ok b /\
    VerifyBundle (CfgTrustRoots cfg) b = Ok tt /\ CheckCPDeviceKeypair b = Ok tt /\ CheckExpiry b (now (envs 1)) = Ok tt /\
    reply = import_reply b /\ currentBundle d' = Some b /\ stored raw d' /\ outer_idle d' /\ dmesh d' = None /\
    exists held, dropped d' = option_list (retire <$> held) ++ dropped d.
Proof.
  unfold runImportBundleOneShot. intros (abs & d1 & Ha & Hr)%action_bind_Ok. injection Ha as Ha%map_err_Ok <-.
  apply action_bind_Ok in Hr as (raw & d2 & Hf & Hr). injection Hf as Hf%map_err_Ok <-.
  apply action_bind_Ok in Hr as (r & d3 & Hi & Hr). apply with_err_Ok in Hi.
  pose proof (ImportBundle_dropped cfg (envs 1) {| ImportBytes := raw |} d) as D3. rewrite Hi in D3. cbn [snd] in D3.
  apply ImportBundle_Ok in Hi as (b & Hu & Hv & Hk & He & Hrep & Hb & _ & Hst).
  apply action_bind_Ok in Hr as ([] & d4 & Hc & Hr). rewrite ignore_Ok in Hc. injection Hc as Hc.
  apply action_bind_Ok in Hr as ([] & d5 & Hs & Hr). rewrite ignore_Ok in Hs. injection Hs as Hs. injection Hr as <- <-.
  assert (same_profile d3 d4) as H34.
  { rewrite <-Hc. assert (within same_profile (Connect platform meshFactory cfg (envs 2))) as Hw; [|apply Hw].
    unfold Connect, connected. walk. }
  destruct (Shutdown_effect d4) as (Ho & Hm & H45). rewrite Hs in Ho, Hm, H45.
  assert (same_profile d3 d5) as H35 by (by etrans). pose proof (stored_same _ _ _ Hst H35) as Hst5.
  pose proof (Connect_dropped cfg (envs 2) d3) as D4. unfold same_dropped in *. rewrite Hc in D4.
  pose proof (Shutdown_retires d4) as D5. rewrite Hs, D4, D3 in D5.
  destruct H35 as (_ & _ & E & _). exists abs, raw, b. rewrite E. split_and!; try done. by exists (dmesh d4).
Qed.

(** C17: A one-shot import that exits with 0 has imported. It has read a bundle
    file and a file of trust roots; the bundle parses, carries a signature of one
    of those roots, is not expired and has its key pair whole; its bytes are on
    the disk under a profile, whatever system calls failed on the way; it is the
    bundle the process ran on. And no leg is left up when the process ends: the
    outer tunnel is not up and no DNS configuration is in force, the daemon holds
    no mesh, and the one it held, if any, is the only one it ever let go of and
    was disconnected and closed. *)
Theorem one_shot_import (m : machine) (args : list string) (cfg : Config) (d : Daemon) (reply : ImportBundleReply) :
  main m args = Imported cfg d reply ->
  exists vs rest roots abs raw b,
    parse_flags clientd_flags args = Parsed vs rest /\ roots_of_file m vs roots /\
    abs_path m (flag_value "import-bundle" "" vs) = Ok abs /\ file_at m abs = Ok raw /\
    Unmarshal raw = Ok b /\ VerifyBundle (Some roots) b = Ok tt /\ CheckCPDeviceKeypair b = Ok tt /\
    CheckExpiry b (now (envs 1)) = Ok tt /\ reply = import_reply b /\
    currentBundle d = Some b /\ stored raw d /\ outer_idle d /\ dmesh d = None /\
    exists held, dropped d = option_list ((fun h => mesh_close (mesh_disconnect h).2) <$> held).
Proof.
  intros (vs & rest & roots & initial & Hp & Hr & He)%main_launch; [|done]. unfold launch in He.
  destruct (New _ _ _ _ _ _ _ _) as [d0|x] eqn:En; [|done]. cbv zeta in He. destruct (negb _); [|done].
  destruct (runImportBundleOneShot m _ _ _) as [[r|x] d1] eqn:Ei; [|done]. injection He as -> -> ->.
  apply runImportBundleOneShot_Ok in Ei as (abs & raw & b & Hi). exists vs, rest, roots, abs, raw, b.
  do 2 (split; [done|]). repeat (destruct Hi as [? Hi]; split; [assumption|]). destruct Hi as [held Hd]. exists held.
  rewrite Hd, LoadPersistedBundle_dropped, (New_dropped _ _ _ _ _ _ _ _ En), app_nil_r. done.
Qed.

(** The daemon obeys the roots it was started with. A process that serves has
    loaded its trust roots from the file it was given, and on a store those roots
    vouch for it keeps, in every state it reaches, to bundles they sign - the one
    it runs on and those it stores - and to the legs of its mode. *)
Theorem serves_its_roots (m : machine) (args : list string) (cfg : Config) (d : Daemon) (auto : bool) :
  mesh_state meshFactory <> InnerMesh.StateUp -> t_state (manager0 m) <> Tunnel.StateUp ->
  main m args = Serving cfg d auto ->
  exists vs rest roots, parse_flags clientd_flags args = Parsed vs rest /\ roots_of_file m vs roots /\
    (reachable (store_step (Some roots)) no_bundle_files (disk (store_disk m)) ->
     forall d', reachable (daemon_step platform meshFactory cfg) (eq d) d' ->
       (forall b, currentBundle d' = Some b -> VerifyBundle (Some roots) b = Ok tt /\ CheckCPDeviceKeypair b = Ok tt) /\
       bundles_verified (Some roots) (disk (store d')) /\ legs_ok d').
Proof.
  intros Hf Ht (vs & rest & roots & initial & Hp & Hr & He)%main_launch; [|done].
  exists vs, rest, roots. split; [done|]. split; [done|]. intros Hst d' Hd'. unfold launch in He.
  destruct (New _ _ _ _ _ _ _ _) as [d0|x] eqn:En; [|done]. cbv zeta in He. destruct (negb _).
  { by destruct (runImportBundleOneShot m _ _ _) as [[r|x] d1]. }
  injection He as -> -> ->. set (cfg := daemon_config m vs roots initial) in *.
  assert (reachable (daemon_step platform meshFactory cfg) (boots platform meshFactory cfg (store_disk m)) d') as Hb.
  { induction Hd' as [d' <-|d1 e d2 _ IH Hstep]; [|by eapply reach_step].
    apply reach_init. by apply (boot platform meshFactory cfg (store_disk m) (envs 0) (names_up m) (manager0 m) (resolver0 m) (config_disk m)). }
  destruct (reachable_auth platform meshFactory cfg (store_disk m) d' Hst Hb) as [H1 H2].
  split; [done|]. split; [done|]. by eapply reachable_legs.
Qed.
End main.

(** ** From the control channel to the exit

    The goroutines of the process are the control channel with the loops it
    starts, whose calls are the events of the daemon, the automatic connect, and
    main itself, which waits for the context, shuts the daemon down and returns.
    Nothing waits for the others. *)
Section lifetime.
Context {K : BundleCodec} {C : Crypto} {X : PemX509} {J : RawJson} {N : NetipLib} {U : NetText} {H : HostDNS}
  {T : TunnelManager} {M : Mesh}.
Context (platform : os) (meshFactory : mesh) (cfg : Config).

Inductive phase := Running | Cancelled | ShutDown | Exited.
(** [late]: a goroutine worked on the daemon after Shutdown had returned. *)
Record process := { ph : phase; pd : Daemon; to_connect : bool; late : bool }.
Definition serving (d : Daemon) (auto : bool) : process := {| ph := Running; pd := d; to_connect := auto; late := false |}.
Definition in_phase (q : phase) (d : Daemon) (p : process) : process := {| ph := q; pd := d; to_connect := to_connect p; late := late p |}.
Definition worked (d : Daemon) (again : bool) (p : process) : process :=
  {| ph := ph p; pd := d; to_connect := again; late := late p || match ph p with ShutDown => true | _ => false end |}.

Inductive moment := Call (env : Env) (e : event) | AutoConnect (env : Env) | SignalOrServeError | RunShutdown | Return.
Definition life_do (m : moment) (p : process) : option process :=
  match ph p with
  | Exited => None
  | q =>
    match m with
    | Call env EvShutdown => None
    | Call env e => Some (worked (exec platform meshFactory cfg env e (pd p)) (to_connect p) p)
    | AutoConnect env =>
      if to_connect p then Some (worked (exec platform meshFactory cfg env EvConnect (pd p)) false p) else None
    | SignalOrServeError => Some (match q with Running => in_phase Cancelled (pd p) p | _ => p end)
    | RunShutdown => match q with Cancelled => Some (in_phase ShutDown (Shutdown (pd p)).2 p) | _ => None end
    | Return => match q with ShutDown => Some (in_phase Exited (pd p) p) | _ => None end
    end
  end.
Definition life_step (p : process) (m : moment) (p' : process) : Prop := life_do m p = Some p'.

Definition torn_down (p : process) : Prop :=
  match ph p with ShutDown | Exited => late p = false -> outer_idle (pd p) /\ dmesh (pd p) = None | _ => late p = false end.
(** A move leaves the daemon as it is, works on it, or shuts it down. *)
Lemma life_moves m p p' :
  life_do m p = Some p' ->
  p' = p \/ (ph p <> Exited /\ exists e again, p' = worked (exec platform meshFactory cfg e.1 e.2 (pd p)) again p) \/
  (ph p = Running /\ p' = in_phase Cancelled (pd p) p) \/ (ph p = Cancelled /\ p' = in_phase ShutDown (Shutdown (pd p)).2 p) \/
  (ph p = ShutDown /\ p' = in_phase Exited (pd p) p).
Proof.
  assert (forall env e again, exists e0 again0,
    worked (exec platform meshFactory cfg env e (pd p)) again p = worked (exec platform meshFactory cfg e0.1 e0.2 (pd p)) again0 p) as Hw
    by (intros env e again; by exists (env, e), again).
  intros Hm. unfold life_do in Hm. destruct m as [env e|env| | |].
  - assert (Some (worked (exec platform meshFactory cfg env e (pd p)) (to_connect p) p) = Some p') as Hx%(inj Some)
      by (destruct (ph p); [..|discriminate Hm]; destruct e; first [exact Hm|discriminate Hm]).
    right. left. split; [by intros E; rewrite E in Hm|]. rewrite <-Hx. apply Hw.
  - assert (Some (worked (exec platform meshFactory cfg env EvConnect (pd p)) false p) = Some p') as Hx%(inj Some)
      by (destruct (ph p), (to_connect p); first [exact Hm|discriminate Hm]).
    right. left. split; [by intros E; rewrite E in Hm|]. rewrite <-Hx. apply Hw.
  - destruct (ph p) eqn:E; [|..|discriminate Hm]; apply (inj Some) in Hm as <-; auto.
  - destruct (ph p) eqn:E; try discriminate Hm. apply (inj Some) in Hm as <-. auto 6.
  - destruct (ph p) eqn:E; try discriminate Hm. apply (inj Some) in Hm as <-. auto 8.
Qed.
Lemma life_torn_down m p p' : torn_down p -> life_do m p = Some p' -> torn_down p'.
Proof.
  intros Hp [->|[(Hq & e & again & ->)|[[Hq ->]|[[Hq ->]|[Hq ->]]]]]%life_moves; [done|..]; unfold torn_down in *.
  - unfold worked. cbn [ph late pd]. destruct (ph p); cbn; rewrite ?orb_true_r, ?orb_false_r; done.
  - by rewrite Hq in Hp.
  - intros _. by destruct (Shutdown_effect (pd p)) as (H1 & H2 & _).
  - by rewrite Hq in Hp.
Qed.
Lemma life_daemon m p p' : life_do m p = Some p' -> pd p' = pd p \/ exists e, daemon_step platform meshFactory cfg (pd p) e (pd p').
Proof.
  intros [->|[(Hq & e & again & ->)|[[Hq ->]|[[Hq ->]|[Hq ->]]]]]%life_moves; [by left| |by left| |by left]; right.
  - exists e.2. apply run_event.
  - exists EvShutdown. apply (run_event _ _ _ {| store_ok _ := true; config_ok _ := true; now := 0 |} EvShutdown).
Qed.
Lemma life_ends p : ph (drive life_do p [SignalOrServeError; RunShutdown; Return]) = Exited.
Proof. by destruct p as [[] d a l]. Qed.

(** A process that serves can always end, and ends after a shutdown. From every
    moment a signal, the shutdown and the return of main end it, whatever is
    under way, and nothing happens after. At every moment the daemon is one that
    [serves_its_roots] speaks of; once Shutdown has returned no leg is up and no
    mesh is left - unless a goroutine, the automatic connect or a call, worked on
    the daemon between the shutdown and the exit, which nothing waits for. *)
Theorem process_ends_shut_down (d : Daemon) (auto : bool) (p : process) :
  reachable life_step (eq (serving d auto)) p ->
  reachable (daemon_step platform meshFactory cfg) (eq d) (pd p) /\
  ph (drive life_do p [SignalOrServeError; RunShutdown; Return]) = Exited /\
  (ph p = Exited -> forall m, life_do m p = None) /\
  (ph p = ShutDown \/ ph p = Exited -> late p = false -> outer_idle (pd p) /\ dmesh (pd p) = None).
Proof.
  intros Hp. assert (torn_down p) as Ht.
  { revert p Hp. apply reachable_invariant; [by intros p <-|]. intros p m p' Hp Hm. by eapply life_torn_down. }
  split; [|split; [apply life_ends|split]].
  - induction Hp as [p <-|p m p' Hp IH Hm]; [by apply reach_init|]. assert (torn_down p) as Htp.
    { revert p Hp IH Hm. intros p Hp _ _. revert p Hp. apply reachable_invariant; [by intros p <-|]. intros q n q' Hq Hn. by eapply life_torn_down. }
    specialize (IH Htp). destruct (life_daemon _ _ _ Hm) as [->|(e & He)]; [done|]. by eapply reach_step.
  - intros Hx m. unfold life_do. by rewrite Hx.
  - unfold torn_down in Ht. intros [Hx|Hx]; rewrite Hx in Ht; exact Ht.
Qed.
End lifetime.

(** The command line's default address on Linux and macOS is never the socket a
    daemon run by a user opens by default. *)
Example default_endpoints_differ :
  NewClient (DefaultAddr false) = Dialled "/var/run/goat-clientd.sock" /\
  DefaultSocketPath Linux "/run/user/1000" (Some "/home/ann") = "/run/user/1000/goat-clientd.sock" /\
  DefaultSocketPath Linux "" (Some "/home/ann") = "/home/ann/.goat-client/goat-clientd.sock" /\
  NewClient (DefaultAddr true) = Dialled (DefaultSocketPath Windows "" None).
Proof. by vm_compute. Qed.

(** ** A toy machine *)
Module ToyMachine.
Import ToyDaemon.
#[export, refine] Instance pem : PemX509 := {|
  pem_decode data := '(key, rest) ← cut newline data; Some ({| BlockType := "PUBLIC KEY"; BlockBytes := key |}, rest);
  ParsePKIXPublicKey l := Some (EcdsaKey (l2s l : PublicKey));
  ParseCertificate _ := None |}.
Proof.
  intros data b rest. destruct (cut newline data) as [[k r]|] eqn:E; [|done]. intros [= _ <-].
  apply cut_Some in E as [-> _]. rewrite length_app. cbn. lia.
Defined.

Definition box : machine := {|
  file_at p := if bool_decide (p = "/etc/roots.pem") then Ok (s2l "ca1" ++ [newline])
               else if bool_decide (p = "/tmp/dev-1.cbor") then Ok (s2l "dev-1|ca1") else Err ENoEnt;
  abs_path p := Ok p; config_dir := Some "/home/ann/.config"; home_dir := Some "/home/ann"; runtime_dir := "";
  program_data := ""; store_disk := empty_store; config_disk := World ∅ [] 0; manager0 := NewManager; resolver0 := None;
  names_up := true |}.
Abbreviation clientd := (main Linux new_mesh (fun _ => env) (fun _ => "roots") (fun _ => "error") box).
Definition roots_flag : string := "--trust-roots=/etc/roots.pem".
Definition import_args : list string := [roots_flag; "--import-bundle=/tmp/dev-1.cbor"].

Definition bundle_of_ended (e : ended) : option EnrollmentBundle :=
  match e with Imported _ d _ => currentBundle d | Serving _ d _ => currentBundle d | _ => None end.
Lemma one_shot_import_witness :
  exists cfg d reply, clientd import_args = Imported cfg d reply /\ currentBundle d <> None /\ dmesh d = None.
Proof.
  destruct (clientd import_args) as [c|c l x|cfg d reply|cfg d auto] eqn:E.
  3: { exists cfg, d, reply. split; [reflexivity|].
       destruct (one_shot_import Linux new_mesh (fun _ => env) (fun _ => "roots") (fun _ => "error") box import_args cfg d reply E)
         as (vs & rest & roots & abs & raw & b & _ & _ & _ & _ & _ & _ & _ & _ & _ & Hb & _ & _ & Hm & _).
       split; [rewrite Hb; discriminate|exact Hm]. }
  all: assert (exit_of (clientd import_args) = Some 0%Z /\ bundle_of_ended (clientd import_args) <> None) as [Hx Hy]
         by (split; [vm_compute; reflexivity|vm_compute; discriminate]);
       rewrite E in Hx, Hy; cbn in Hx, Hy; congruence.
Defined.
Lemma serves_its_roots_witness :
  exists cfg d, clientd [roots_flag] = Serving cfg d true /\ legs_ok d.
Proof.
  destruct (clientd [roots_flag]) as [c|c l x|cfg d reply|cfg d auto] eqn:E.
  4: { assert (auto = true) as ->.
       { assert (match clientd [roots_flag] with Serving _ _ a => a | _ => false end = true) as Ha by (vm_compute; reflexivity).
         rewrite E in Ha. exact Ha. }
       exists cfg, d. split; [reflexivity|].
       destruct (serves_its_roots Linux new_mesh (fun _ => env) (fun _ => "roots") (fun _ => "error") box [roots_flag] cfg d true
                   ltac:(discriminate) ltac:(discriminate) E) as (vs & rest & roots & _ & _ & Hd).
       apply Hd; [apply reach_init; intros slug; reflexivity|by apply reach_init]. }
  all: assert (exit_of (clientd [roots_flag]) = None) as Hx by (vm_compute; reflexivity); rewrite E in Hx; discriminate Hx.
Defined.

(** The process imports a bundle, is told to end, shuts down and returns; with a
    call that comes between the last two it ends with the tunnel up. *)
Definition import_call : moment := Call env (EvImportBundle {| ImportBytes := s2l "dev-1|ca1" |}).
Definition toy_cfg : Config := match clientd [roots_flag] with Serving c _ _ => c | _ => ToyDaemon.cfg end.
Definition toy_daemon : Daemon := match clientd [roots_flag] with Serving _ d _ => d | _ => ToyDaemon.started end.
Abbreviation live := (drive (life_do Linux new_mesh toy_cfg) (serving toy_daemon true)).
Lemma process_ends_shut_down_witness :
  let p := live [import_call; AutoConnect env; SignalOrServeError; RunShutdown; Return] in
  ph p = Exited /\ outer_idle (pd p) /\ dmesh (pd p) = None.
Proof.
  cbv zeta. assert (reachable (life_step Linux new_mesh toy_cfg) (eq (serving toy_daemon true))
    (live [import_call; AutoConnect env; SignalOrServeError; RunShutdown; Return])) as Hr.
  { apply (drive_reachable _ _ (fun m => m)); [done|]. by apply reach_init. }
  destruct (process_ends_shut_down Linux new_mesh toy_cfg _ _ _ Hr) as (_ & _ & _ & Hd). split; [vm_compute; reflexivity|].
  apply Hd; [right|]; vm_compute; reflexivity.
Defined.
Example connects_after_shutdown :
  let p := live [import_call; SignalOrServeError; RunShutdown; AutoConnect env; Return] in
  ph p = Exited /\ t_state (manager (pd p)) = Tunnel.StateUp.
Proof. vm_compute. split; reflexivity. Qed.
End ToyMachine.
