(* ===== verification/DaemonCli.v ===== *)
(** The command line on the daemon: cmd/goat-client/main.go over the client of
    DaemonClient.v, the dispatcher of Ipc.v and the daemon of Daemon.v.

    What [setmode] does to the daemon and what [status] says of it, from the
    arguments to the lines printed. *)
From stdpp Require Import base tactics sets list gmap strings.
From Stdlib Require Import ZArith Ascii Lia.
From S2P Require Import DnsAdapter.
From S2P Require Import Prelude GoStr GoFmt Fs.
From S2P Require Import Mode.
From S2P Require Import Bundle.
From S2P Require Import Profile.
From S2P Require Import ProfileSpec.
From S2P Require Import PeerPing.
From S2P Require Import Tunnel.
From S2P Require Import InnerMesh.
From S2P Require Import FileDrop.
From S2P Require Import Ipc.
From S2P Require Import Daemon.
From S2P Require Import DaemonSpec.
From S2P Require Import DaemonFiles.
From S2P Require Import DaemonPeers.
From S2P Require Import DaemonIpc.
From S2P Require Import ClientApi.
From S2P Require Import StubClient.
From S2P Require Import DaemonClient.
From S2P Require Import Cli.
Local Open Scope list_scope.

(** ** A mode that parses is switched to *)
Section modes.
Context {K : BundleCodec} {C : Crypto} {J : RawJson} {N : NetipLib} {U : NetText} {H : HostDNS}
  {T : TunnelManager} {M : Mesh}.
Context (platform : os) (meshFactory : mesh) (cfg : Config) (env : Env).

Abbreviation succeeds m := (leads (fun _ => True) m (fun _ => True)).
Lemma succeeds_bind {E A B} (m : action Daemon E A) (f : A -> action Daemon E B) :
  succeeds m -> (forall a, succeeds (f a)) -> succeeds (m ≫= f).
Proof. apply leads_bind. Qed.
Lemma succeeds_snapshot {E B} (f : Daemon -> action Daemon E B) : (forall d, succeeds (f d)) -> succeeds (snapshot ≫= f).
Proof. intros Hf. apply leads_snapshot. intros d _. by apply (leads_pre _ (fun _ => True)). Qed.
Lemma succeeds_ret {E A} (a : A) : succeeds (mret a : action Daemon E A).
Proof. by apply leads_ret. Qed.
Lemma succeeds_ignore {E F A} (m : action Daemon E A) : succeeds (ignore m : action Daemon F unit).
Proof. by apply leads_ignore. Qed.

Lemma configure_mesh_succeeds {E} h b : succeeds (configure_mesh (E := E) cfg h b).
Proof. intros d _. rewrite configure_mesh_eq. eauto. Qed.

#[local] Ltac settles :=
  repeat lazymatch goal with
         | |- leads _ (mret _) _ => apply succeeds_ret
         | |- leads _ (ignore _) _ => apply succeeds_ignore
         | |- leads _ (configure_mesh _ _ _) _ => apply configure_mesh_succeeds
         | |- leads _ (snapshot ≫= _) _ => apply succeeds_snapshot; intros ?
         | |- leads _ (_ ≫= _) _ => apply succeeds_bind; [|intros ?]
         | |- leads _ (if ?b then _ else _) _ => destruct b
         | |- leads _ (match ?x with _ => _ end) _ => destruct x
         end.
Lemma settle_mode_succeeds m : succeeds (settle_mode platform cfg env m).
Proof.
  unfold settle_mode, inner_up. settles.
Qed.

(** The reply names the mode that was in force, the mode asked for is in force,
    and no leg it leaves out is up. *)
Lemma SetMode_effect s m d :
  mesh_state meshFactory <> InnerMesh.StateUp -> legs_ok d -> Parse s = Ok m ->
  exists d', Daemon.SetMode platform meshFactory cfg env {| ReqMode := s |} d = (Ok (currentMode d, m), d') /\
    currentMode d' = m /\ currentBundle d' = currentBundle d /\ legs_ok d'.
Proof.
  intros Hf Hd Hp. unfold Daemon.SetMode. cbn [ReqMode]. rewrite Hp. unfold lift, map_err.
  rewrite (action_bind_eq _ _ d m d eq_refl). 
  rewrite (action_bind_eq _ snapshot d d d eq_refl). case_bool_decide as Hm; [eexists; by rewrite Hm|].
  assert (legal None d) as Hl by (by split). apply legal_is_working in Hl.
  destruct (SetMode_reconciles meshFactory (E := daemon_error) None (currentMode d) m (currentBundle d) Hf (Parse_Valid _ _ Hp) d Hl)
    as ([] & d1 & E1 & H1).
  rewrite (action_bind_eq _ _ _ _ _ E1).
  destruct (settle_mode_succeeds m d1 I) as ([] & d2 & E2 & _). rewrite (action_bind_eq _ _ _ _ _ E2).
  pose proof (work_settle_mode platform cfg env None m (currentBundle d) d1 H1) as H2. rewrite E2 in H2.
  destruct H2 as (H2 & _ & Hc & Hb). by exists d2.
Qed.
End modes.

(** ** From the arguments to the daemon *)
Section endtoend.
Context {K : BundleCodec} {C : Crypto} {J : RawJson} {N : NetipLib} {U : NetText} {H : HostDNS}
  {T : TunnelManager} {M : Mesh} {P : PeerConn}.
Context (platform : os) (meshFactory : mesh) (cfg : Config).
Context (envs : nat -> Env) {W : Type} (do_request : string -> Request -> state W (result string Response))
  (files : string -> local_file) (names_status : NamesSvc -> NamesSnapshot).
Context {X : ReplyText} {IJ : IpcJson} {CJ : ClientJson}.
Context (dp : Dispatcher) (net_err : string).
Context (dial : string -> result string unit) (order : list Info -> list Info) (now : Z) (age_text : Z -> string).

Abbreviation Conn := (conn (W := W)).
Abbreviation running st := (reachable (daemon_step platform meshFactory cfg) (boots platform meshFactory cfg st)).
Abbreviation works := (json_works platform meshFactory cfg envs do_request files names_status).
Abbreviation client := (realClient platform meshFactory cfg envs do_request files names_status dp net_err true).
Abbreviation cli := (dispatchSubcommand (Real := client) dial order now age_text).

(** The arguments leave the operands [rest] and an address that is dialled. *)
Definition dials (args : list string) (addr : string) (rest : list string) : Prop :=
  exists vs target, parse_flags addr_flag args = Parsed vs rest /\
    NewClient (flag_value "daemon-addr" addr vs) = Dialled target /\ dial target = Ok tt.

Lemma with_client_dials name addr target (k : forall Cl : Client, action (@cstate Cl) string (list string)) (s : Conn) r s' :
  NewClient addr = Dialled target -> dial target = Ok tt -> k client s = (r, s') ->
  with_client (Real := client) dial order now name addr k s =
  (match r with Ok lines => printed lines | Err e => failed (name +:+ ": " +:+ e) end, s').
Proof. intros Ha Hd Hk. unfold with_client. by rewrite Ha, Hd, Hk. Qed.

(** What a client method makes of an answered call. *)
Abbreviation rpc := (rpc_call platform meshFactory cfg envs do_request files names_status dp net_err true).
Abbreviation asked := (ask platform meshFactory cfg envs do_request files names_status dp net_err true).
Lemma ask_ok {A} c (f : reply_data -> option A) (s s' : Conn) x a :
  rpc c s = (Ok x, s') -> f x = Some a -> asked c f s = (Ok a, s').
Proof. intros E Hf. unfold ask. rewrite (action_bind_eq _ _ _ _ _ E). unfold lift. by rewrite Hf. Qed.
Lemma ask_err {A} c (f : reply_data -> option A) (s s' : Conn) e :
  rpc c s = (Err e, s') -> asked c f s = (Err e, s').
Proof. intros E. unfold ask. by rewrite (action_bind_err _ _ _ _ _ E). Qed.

Definition unauthorized_line (name : string) : string := name +:+ ": rpc error -32001: ipc: peer uid not authorized".

(** ** What status prints *)
Definition connected_line (rest : string) : string := "inner-mesh:     state=connected peers=" +:+ rest.

Lemma connected_line_inner info rest : connected_line rest ∈ inner_lines info -> imState info = StateConnected.
Proof.
  unfold inner_lines, connected_line. rewrite !elem_of_cons, elem_of_nil. intros [E|[E|[]]]; [|by revert E; cbn].
  destruct (imState info); [by revert E; cbn..|done|by revert E; cbn].
Qed.
Lemma connected_line_names n rest : connected_line rest ∉ names_lines age_text n.
Proof.
  unfold names_lines, connected_line. rewrite !elem_of_app.
  intros [E|[E|E]]; repeat case_bool_decide; repeat case_match; revert E; rewrite ?elem_of_cons, ?elem_of_nil;
    cbn; naive_solver congruence.
Qed.
Lemma connected_line_status (info : StatusInfo) :
  (exists rest, connected_line rest ∈ status_lines age_text info) <->
  exists im, siInnerMesh info = Some im /\ imState im = StateConnected.
Proof.
  unfold status_lines. split.
  - intros [rest E]. rewrite !elem_of_app in E. destruct E as [E|[E|[E|[E|[E|[E|E]]]]]].
    + revert E. unfold connected_line. rewrite !elem_of_cons, elem_of_nil. cbn. naive_solver congruence.
    + revert E. unfold connected_line, bundle_lines. destruct (siBundle info); cbn [from_option];
        rewrite ?elem_of_cons, elem_of_nil; cbn; naive_solver congruence.
    + revert E. unfold connected_line. rewrite !elem_of_cons, elem_of_nil. cbn. naive_solver congruence.
    + revert E. unfold connected_line. case_bool_decide; rewrite ?elem_of_cons, elem_of_nil; cbn; naive_solver congruence.
    + destruct (siInnerMesh info) as [im|]; [|by apply elem_of_nil in E]. exists im. split; [done|]. by eapply connected_line_inner.
    + destruct (siNames info) as [n|]; [|by apply elem_of_nil in E]. by apply connected_line_names in E.
    + revert E. unfold connected_line. case_bool_decide; rewrite ?elem_of_cons, elem_of_nil; cbn; naive_solver congruence.
  - intros (im & Hi & Hc). rewrite Hi. cbn [from_option]. unfold inner_lines. rewrite Hc. cbn [state_text].
    eexists. do 4 (apply elem_of_app; right). apply elem_of_app; left. unfold connected_line. apply elem_of_cons. left. reflexivity.
Qed.

Lemma println_lookup (l : list string) (n : nat) s : (println <$> l) !! n = Some (println s) <-> l !! n = Some s.
Proof. rewrite list_lookup_fmap, fmap_Some. split; [by intros (x & ? & ->%(inj _))|eauto]. Qed.
Lemma println_elem {A} (f : A -> string) (l : list string) : (exists a, println (f a) ∈ println <$> l) <-> exists a, f a ∈ l.
Proof.
  split; intros [a Ha]; exists a; [|by apply list_elem_of_fmap_2].
  by apply list_elem_of_fmap in Ha as (x & ->%(inj _) & ?).
Qed.

Lemma GetStatus_ok d : exists r d', Daemon.GetStatus (E := daemon_error) cfg names_status d = (Ok r, d').
Proof.
  unfold Daemon.GetStatus, mbind, action_bind, snapshot, run, get, attempt, on. cbn [fst snd].
  destruct (IncludesWGCP0 (currentMode d)); [destruct (t_stats (manager d))|]; by eexists _, _.
Qed.

(** C10: The status command tells the truth. Run by any user against a running
    daemon, in whatever state that is and with nothing else at work while it
    answers, it exits with 0 and changes nothing the daemon acts on. Its first
    line is the mode in force; its second says connected exactly when the mode
    has the outer leg, the tunnel is up and a bundle is loaded; its third says a
    bundle is loaded exactly when one is; and it has a line that says the inner
    mesh is connected exactly when the mode has the inner leg and the mesh handle
    is up. Where the legs follow the mode, so exactly when the leg is up. *)
Theorem status_tells_truth (addr : string) (args rest : list string) (s : Conn) :
  dials args addr rest -> works CGetStatus s -> unread (rpc_client s) = [] ->
  let d := daemon (peer s) in
  let '(o, s') := cli "status" args addr s in
  let says n text := stdout o !! n = Some (println text) in
  let says_connected := exists rest, println (connected_line rest) ∈ stdout o in
  let mesh_up := exists h, dmesh d = Some h /\ mesh_state h = InnerMesh.StateUp in
  exit_code o = 0%Z /\ stderr o = [] /\ observes d (daemon (peer s')) /\
  says 0 ("mode:           " +:+ currentMode d) /\
  (says 1 "state:          connected" <->
     IncludesWGCP0 (currentMode d) = true /\ t_state (manager d) = Tunnel.StateUp /\ is_Some (currentBundle d)) /\
  (says 2 "bundle:         true" <-> is_Some (currentBundle d)) /\
  (says_connected <-> IncludesNetbird (currentMode d) = true /\ mesh_up) /\
  (legs_ok d -> (says 1 "state:          connected" <-> t_state (manager d) = Tunnel.StateUp /\ is_Some (currentBundle d)) /\
     (says_connected <-> mesh_up)).
Proof.
  intros (vs & target & Hargs & Hn & Hd) Hw Hu d; subst d.
  pose proof (rpc_call_eq platform meshFactory cfg envs do_request files names_status dp net_err _ s Hw Hu) as Hc.
  pose proof (invoke_read_only platform meshFactory cfg envs do_request files names_status CGetStatus (peer s) eq_refl) as Ho.
  change (cli "status" args addr s) with (runStatus (Real := client) dial order now age_text args addr s).
  unfold runStatus. rewrite Hargs. cbn [mutates andb] in Hc. cbn [invoke_daemon] in Hc, Ho. unfold on_daemon in Hc, Ho.
  destruct (GetStatus_ok (daemon (peer s))) as (r & d' & E). rewrite E in Hc, Ho. cbn [reply_of map_err snd] in Hc, Ho.
  erewrite with_client_dials; [|exact Hn|exact Hd|].
  2: { cbn [cGetStatus realClient]; unfold DaemonClient.GetStatus. etrans; [eapply action_bind_eq, ask_ok; [exact Hc|reflexivity]|reflexivity]. }
  destruct (status_is_honest cfg names_status (daemon (peer s)) d' r E) as (H1 & H2 & _ & H4 & H5).
  cbv zeta. cbn [printed stdout stderr exit_code]. rewrite !println_lookup, println_elem.
  assert (Some ("state:          " +:+ state_text (mapWireState (StState r))) = Some "state:          connected" <->
    IncludesWGCP0 (currentMode (daemon (peer s))) = true /\ t_state (manager (daemon (peer s))) = Tunnel.StateUp /\
    is_Some (currentBundle (daemon (peer s)))) as Hout by (rewrite <-H1; by destruct (StState r)).
  assert ((exists rest, connected_line rest ∈ status_lines age_text (status_info r)) <->
    IncludesNetbird (currentMode (daemon (peer s))) = true /\
    exists h, dmesh (daemon (peer s)) = Some h /\ mesh_state h = InnerMesh.StateUp) as Hin.
  { rewrite <-H2. rewrite connected_line_status. cbn [status_info siInnerMesh]. split.
    + intros (im & Hi & Hc'). apply fmap_Some in Hi as (sn & Hsn & ->). exists sn. split; [done|]. revert Hc'. cbn. by destruct (SnState sn).
    + intros (sn & -> & Hsn). eexists. split; [reflexivity|]. cbn. by rewrite Hsn. }
  split_and!; try done.
  - by destruct Ho.
  - cbn. unfold tab. by rewrite H4.
  - rewrite <-H5. cbn. by destruct (StBundleLoaded r).
  - intros Hl. destruct (legs_ok_shown _ Hl) as [Hs1 Hs2]. split; [etrans; [exact Hout|]|etrans; [exact Hin|]]; naive_solver.
Qed.
End endtoend.

(** ** A toy daemon on the command line *)
Module ToyCli.
Import ToyDaemon ToyClient.
#[export] Existing Instance ToySession.conn.

Definition dial (target : string) : result string unit :=
  if bool_decide (target = "/run/goat.sock") then Ok tt else Err "no such file".
Abbreviation toy_cli dp := (dispatchSubcommand (Real := client dp) dial id 0 itoa).
Definition socket : list string := ["--daemon-addr=unix:///run/goat.sock"].

Lemma factory_down : mesh_state new_mesh <> InnerMesh.StateUp.
Proof. discriminate. Qed.
Lemma dials_socket rest : parse_flags addr_flag (socket ++ rest) = Parsed [("daemon-addr", "unix:///run/goat.sock")] rest ->
  dials dial (socket ++ rest) "" rest.
Proof. intros E. exists [("daemon-addr", "unix:///run/goat.sock")], "/run/goat.sock". done. Qed.


Lemma status_tells_truth_witness :
  let '(o, s') := toy_cli ToySession.guest "status" socket "" (fresh connected) in
  stdout o !! 0 = Some (println "mode:           combined") /\ stdout o !! 1 = Some (println "state:          connected") /\
  exists rest, println (connected_line rest) ∈ stdout o.
Proof.
  pose proof (status_tells_truth Linux new_mesh cfg (fun _ => env) ToySession.no_network ToySession.no_files ToySession.names_of
    ToySession.guest "timeout" dial id 0 itoa "" (socket ++ []) [] (fresh connected)
    (dials_socket [] eq_refl) works_status eq_refl) as Ht.
  change (socket ++ []) with socket in Ht.
  destruct (toy_cli ToySession.guest "status" socket "" (fresh connected)) as [o s'].
  destruct Ht as (_ & _ & _ & Hm & Hc & _ & Hi & _). split_and!; [exact Hm| |].
  - apply Hc. split_and!; [vm_compute; reflexivity|vm_compute; reflexivity|vm_compute; eauto].
  - apply Hi. split; [vm_compute; reflexivity|].
    assert (bool_decide (mesh_state <$> dmesh connected = Some InnerMesh.StateUp) = true) as Hd by (vm_compute; reflexivity).
    apply bool_decide_eq_true, fmap_Some in Hd as (h & Hh & Hs). exists h. by split.
Defined.
End ToyCli.
