(* ===== verification/Tray.v ===== *)
(** The system tray: internal/ui/tray.go, with the labels of state.go and the
    icons of icons.go and icons_combined.go.

    [trayApp] is what the menu shows; a menu item is its title, its tooltip and
    whether it is enabled and shown. The systray library delivers clicks of items
    that are shown and enabled. A context's deadline shows as an error of the
    client's call; log lines are left out. Refreshes run one at a time here. *)
From stdpp Require Import base tactics list strings.
From Stdlib Require Import ZArith Ascii Lia.
From S2P Require Import Prelude GoStr.
From S2P Require Import Mode.
From S2P Require Import Profile.
From S2P Require Import Ipc.
From S2P Require Import ClientApi.
From S2P Require Import StubClient.
Import Ipc ClientApi.
Local Open Scope list_scope.

Definition stateLabel (s : State) : string :=
  match s with
  | StateConnected => "Connected"
  | StateConnecting => "Connecting..."
  | StateError => "Error"
  | StateDisconnected => "Disconnected"
  end.

(** The mode a status names; one it does not know counts as the outer tunnel's. *)
Definition shown_mode (s : string) : Mode :=
  let m := match Mode.Parse s with Ok m => m | Err _ => "" end in
  if Valid m then m else WGCP0Only.

(** ** Icons

    An image is its size and its pixels. [mask] is the embedded silhouette, its
    alpha in 16 bits, if it decodes; [encode] is png.Encode. *)
Record rgba := { cR : Z; cG : Z; cB : Z; cA : Z }.
Record image := { width : nat; height : nat; at_ : nat -> nat -> rgba }.
Record silhouette := { mWidth : nat; mHeight : nat; mAlpha : nat -> nat -> Z }.

Definition stateRGBA (s : State) : rgba :=
  match s with
  | StateConnected => {| cR := 32; cG := 150; cB := 79; cA := 255 |}
  | StateConnecting => {| cR := 230; cG := 159; cB := 0; cA := 255 |}
  | StateError => {| cR := 192; cG := 57; cB := 43; cA := 255 |}
  | StateDisconnected => {| cR := 128; cG := 128; cB := 128; cA := 255 |}
  end.
Definition transparent : rgba := {| cR := 0; cG := 0; cB := 0; cA := 0 |}.

(** The pixel of the silhouette in the colour [c]. *)
Definition tinted (mask : silhouette) (c : rgba) (x y : nat) : rgba :=
  {| cR := cR c; cG := cG c; cB := cB c; cA := Z.shiftr (mAlpha mask x y) 8 |}.
Definition tintMask (mask : silhouette) (c : rgba) : image :=
  {| width := mWidth mask; height := mHeight mask; at_ := tinted mask c |}.
Definition swatch (c : rgba) : image := {| width := 1; height := 1; at_ := fun _ _ => c |}.

(** Pixels outside the image are not set. *)
Definition paintTinted (dst : image) (left top : nat) (mask : silhouette) (c : rgba) : image :=
  {| width := width dst; height := height dst;
     at_ := fun x y =>
       if bool_decide (left <= x < left + mWidth mask /\ top <= y < top + mHeight mask /\ x < width dst /\ y < height dst)
       then tinted mask c (x - left) (y - top) else at_ dst x y |}.
Definition combined_image (mask : silhouette) (outer inner : State) : image :=
  let w := mWidth mask in
  let h := mHeight mask in
  let canvas := {| width := w * 2 + 2; height := h; at_ := fun _ _ => transparent |} in
  paintTinted (paintTinted canvas 0 0 mask (stateRGBA outer)) (w + 2) 0 mask (stateRGBA inner).

Section icons.
Context (mask : option silhouette) (encode : image -> option chars).
Definition solidSwatch (c : rgba) : chars := default [] (encode (swatch c)).
Definition iconForState (s : State) : chars :=
  match mask with
  | None => solidSwatch (stateRGBA s)
  | Some m => default (solidSwatch (stateRGBA s)) (encode (tintMask m (stateRGBA s)))
  end.
Definition combinedIcon (outer inner : State) : chars :=
  match mask with
  | None => solidSwatch (stateRGBA outer)
  | Some m => default (solidSwatch (stateRGBA outer)) (encode (combined_image m outer inner))
  end.
Definition iconForMode (m : Mode) (outer inner : State) : chars :=
  if negb (bool_decide (m = Combined)) then iconForState outer else combinedIcon outer inner.
End icons.

(** The left half of the icon of both legs is the outer leg's, the right half the
    inner one's, and the two columns between them are clear. *)
Lemma combined_halves mask outer inner x y :
  x < mWidth mask -> y < mHeight mask ->
  at_ (combined_image mask outer inner) x y = tinted mask (stateRGBA outer) x y /\
  at_ (combined_image mask outer inner) (mWidth mask + 2 + x) y = tinted mask (stateRGBA inner) x y /\
  forall g, g < 2 -> at_ (combined_image mask outer inner) (mWidth mask + g) y = transparent.
Proof.
  intros Hx Hy. unfold combined_image, paintTinted. cbn. split_and!.
  - rewrite bool_decide_eq_false_2, bool_decide_eq_true_2 by lia. by rewrite !Nat.sub_0_r.
  - rewrite bool_decide_eq_true_2 by lia. rewrite Nat.sub_0_r. f_equal. lia.
  - intros g Hg. by rewrite !bool_decide_eq_false_2 by lia.
Qed.

(** ** The menu *)
Record menu_item := { title : string; tooltip : string; enabled : bool; visible : bool }.
Definition AddMenuItem (t tip : string) : menu_item := {| title := t; tooltip := tip; enabled := true; visible := true |}.
Definition SetTitle (t : string) (i : menu_item) : menu_item :=
  {| title := t; tooltip := tooltip i; enabled := enabled i; visible := visible i |}.
Definition SetTooltip (t : string) (i : menu_item) : menu_item :=
  {| title := title i; tooltip := t; enabled := enabled i; visible := visible i |}.
Definition Enable (b : bool) (i : menu_item) : menu_item :=
  {| title := title i; tooltip := tooltip i; enabled := b; visible := visible i |}.
Definition Show (b : bool) (i : menu_item) : menu_item :=
  {| title := title i; tooltip := tooltip i; enabled := enabled i; visible := b |}.

Record profileRow := { item : menu_item; slug : string }.
Definition trayProfileRowsCap : nat := 16.

(** [lastMode] is the empty string before the first refresh. *)
Record trayApp := {
  lastState : State;
  lastInner : State;
  lastMode : string;
  profileList : list Info;
  activeSlug : string;
  icon : chars;
  mMode : menu_item;
  mStatus : menu_item;
  mInner : menu_item;
  mProfiles : menu_item;
  profileRows : list profileRow;
  mConnect : menu_item;
  mDisconnect : menu_item }.

Section tray.
Context (mask : option silhouette) (encode : image -> option chars).

Definition hidden_row : profileRow := {| item := Show false (AddMenuItem "" ""); slug := "" |}.
Definition onReady : trayApp :=
  {| lastState := StateDisconnected; lastInner := StateDisconnected; lastMode := ""; profileList := []; activeSlug := "";
     icon := iconForState mask encode StateDisconnected;
     mMode := Enable false (AddMenuItem "Mode: …" "Active v0.2 mode");
     mStatus := Enable false (AddMenuItem "wg-cp0: Disconnected" "Outer tunnel state");
     mInner := Show false (Enable false (AddMenuItem "netbird: Disconnected" "Inner-mesh state"));
     mProfiles := Show false (AddMenuItem "Profiles" "Switch active network profile");
     profileRows := replicate trayProfileRowsCap hidden_row;
     mConnect := AddMenuItem "Connect" "Bring the active mode's tunnels up";
     mDisconnect := AddMenuItem "Disconnect" "Bring the active mode's tunnels down" |}.

(** ** Refreshing *)
Definition inner_state (st : StatusInfo) : State := from_option imState StateDisconnected (siInnerMesh st).

(** A leg the mode runs is up or coming up. *)
Definition in_use (s : State) : bool := match s with StateConnected | StateConnecting => true | _ => false end.
Definition any_leg (m : Mode) (outer inner : State) : bool :=
  IncludesWGCP0 m && in_use outer || IncludesNetbird m && in_use inner.

Definition apply_status (st : StatusInfo) (t : trayApp) : trayApp :=
  let m := shown_mode (siMode st) in
  let outer := siState st in
  let inner := inner_state st in
  let changed := negb (bool_decide (outer = lastState t)) || negb (bool_decide (inner = lastInner t)) ||
                 negb (bool_decide (m = lastMode t)) in
  let busy := any_leg m outer inner in
  {| lastState := outer; lastInner := inner; lastMode := m; profileList := profileList t; activeSlug := activeSlug t;
     icon := if changed then iconForMode mask encode m outer inner else icon t;
     mMode := SetTitle ("Mode: " +:+ Display m) (mMode t);
     mStatus := if IncludesWGCP0 m then Show true (SetTitle ("wg-cp0: " +:+ stateLabel outer) (mStatus t)) else Show false (mStatus t);
     mInner := if IncludesNetbird m then Show true (SetTitle ("netbird: " +:+ stateLabel inner) (mInner t)) else Show false (mInner t);
     mProfiles := mProfiles t; profileRows := profileRows t;
     mConnect := Enable (negb busy) (mConnect t); mDisconnect := Enable busy (mDisconnect t) |}.

Definition show_row (p : Info) (r : profileRow) : profileRow :=
  {| item := Enable (negb (iActive p)) (Show true
       (SetTooltip ("Switch to " +:+ iName p +:+ " (mode: " +:+ iMode p +:+ ")")
          (SetTitle (if iActive p then "✓ " +:+ iName p else iName p) (item r))));
     slug := iSlug p |}.
Definition hide_row (r : profileRow) : profileRow := {| item := Show false (item r); slug := "" |}.
Fixpoint fill_rows (rows : list profileRow) (profiles : list Info) : list profileRow :=
  match rows, profiles with
  | r :: rows', p :: profiles' => show_row p r :: fill_rows rows' profiles'
  | r :: rows', [] => hide_row r :: fill_rows rows' []
  | [], _ => []
  end.
(** The last active one among the profiles that got a row. *)
Definition active_of (profiles : list Info) : string :=
  from_option iSlug "" (last (filter (fun p => iActive p = true) profiles)).

Definition apply_profiles (profiles : list Info) (t : trayApp) : trayApp :=
  {| lastState := lastState t; lastInner := lastInner t; lastMode := lastMode t; profileList := profiles;
     activeSlug := active_of (take (length (profileRows t)) profiles); icon := icon t;
     mMode := mMode t; mStatus := mStatus t; mInner := mInner t;
     mProfiles := Show (negb (bool_decide (profiles = []))) (mProfiles t);
     profileRows := fill_rows (profileRows t) profiles; mConnect := mConnect t; mDisconnect := mDisconnect t |}.

Context {Cl : Client}.
(** What runs in the tray: the menu and the client. *)
Definition on_client {A} (m : action cstate string A) : state (trayApp * cstate) (result string A) := fun w =>
  let '(r, c) := m w.2 in (r, (w.1, c)).
Definition on_tray (f : trayApp -> trayApp) : state (trayApp * cstate) unit := fun w => (tt, (f w.1, w.2)).

Definition refreshProfiles : state (trayApp * cstate) unit :=
  r ← on_client cListProfiles;
  match r with Err _ => mret tt | Ok profiles => on_tray (apply_profiles profiles) end.
Definition refresh : state (trayApp * cstate) unit :=
  r ← on_client cGetStatus;
  match r with
  | Err _ => mret tt
  | Ok st => _ ← refreshProfiles; on_tray (apply_status st)
  end.

(** ** Clicks *)
Definition connect : state (trayApp * cstate) unit := _ ← on_client cConnect; refresh.
Definition disconnect : state (trayApp * cstate) unit := _ ← on_client cDisconnect; refresh.
Definition switchProfile (slug : string) : state (trayApp * cstate) unit :=
  r ← on_client (cSetActiveProfile slug);
  match r with Err _ => mret tt | Ok _ => refresh end.

Inductive tray_event := Tick | ClickConnect | ClickDisconnect | ClickRow (i : nat).
Definition clickable (i : menu_item) : bool := enabled i && visible i.
Definition handle_event (e : tray_event) : state (trayApp * cstate) unit := fun w =>
  match e with
  | Tick => refresh w
  | ClickConnect => if clickable (mConnect w.1) then connect w else (tt, w)
  | ClickDisconnect => if clickable (mDisconnect w.1) then disconnect w else (tt, w)
  | ClickRow i =>
    match profileRows w.1 !! i with
    | Some r => if clickable (item r) && negb (bool_decide (slug r = "")) then switchProfile (slug r) w else (tt, w)
    | None => (tt, w)
    end
  end.

(** A tick only reads. *)
Lemma tick_reads (R : relation cstate) `{!PreOrder R} w :
  (forall c, R c (cGetStatus c).2) -> (forall c, R c (cListProfiles c).2) -> R w.2 (handle_event Tick w).2.2.
Proof.
  intros Hs Hl. cbn [handle_event]. unfold refresh, refreshProfiles, mbind, state_bind, on_client, on_tray. specialize (Hs w.2).
  destruct (cGetStatus w.2) as [[st|e] s1]; [|exact Hs]. cbn [fst snd] in *. specialize (Hl s1).
  destruct (cListProfiles s1) as [[l|e] s2]; cbn in *; by etrans.
Qed.
(** And shows what it reads. *)
Lemma tick_applies t c st c' :
  cGetStatus c = (Ok st, c') ->
  exists t1, (handle_event Tick (t, c)).2 = (apply_status st t1, (cListProfiles c').2).
Proof.
  intros E. cbn [handle_event]. unfold refresh, refreshProfiles, mbind, state_bind, on_client, on_tray. cbn [fst snd].
  rewrite E. cbn [fst snd]. destruct (cListProfiles c') as [[l|e] c2]; by eexists.
Qed.

(** ** What the menu shows is what was last heard *)
Definition row_shows (p : Info) (r : profileRow) : Prop :=
  slug r = iSlug p /\ visible (item r) = true /\ enabled (item r) = negb (iActive p) /\
  title (item r) = if iActive p then "✓ " +:+ iName p else iName p.
Definition row_free (r : profileRow) : Prop := slug r = "" /\ visible (item r) = false.

Record menu_ok (t : trayApp) : Prop := {
  mo_count : length (profileRows t) = trayProfileRowsCap;
  mo_rows : forall i r, profileRows t !! i = Some r ->
    match profileList t !! i with Some p => row_shows p r | None => row_free r end;
  mo_profiles : visible (mProfiles t) = negb (bool_decide (profileList t = []));
  mo_legs : lastMode t <> "" ->
    Valid (lastMode t) = true /\ title (mMode t) = "Mode: " +:+ Display (lastMode t) /\
    visible (mStatus t) = IncludesWGCP0 (lastMode t) /\
    (IncludesWGCP0 (lastMode t) = true -> title (mStatus t) = "wg-cp0: " +:+ stateLabel (lastState t)) /\
    visible (mInner t) = IncludesNetbird (lastMode t) /\
    (IncludesNetbird (lastMode t) = true -> title (mInner t) = "netbird: " +:+ stateLabel (lastInner t)) /\
    enabled (mConnect t) = negb (any_leg (lastMode t) (lastState t) (lastInner t)) /\
    enabled (mDisconnect t) = any_leg (lastMode t) (lastState t) (lastInner t) /\
    icon t = iconForMode mask encode (lastMode t) (lastState t) (lastInner t) }.

Lemma shown_mode_Valid s : Valid (shown_mode s) = true.
Proof. unfold shown_mode. cbv zeta. destruct (Valid (match Parse s with Ok m => m | Err _ => "" end)) eqn:E; [done|by vm_compute]. Qed.

Lemma fill_rows_length rows profiles : length (fill_rows rows profiles) = length rows.
Proof. revert profiles. induction rows as [|r rows IH]; intros [|p profiles]; cbn; by rewrite ?IH. Qed.
Lemma fill_rows_lookup rows profiles i r :
  fill_rows rows profiles !! i = Some r ->
  match profiles !! i with Some p => row_shows p r | None => row_free r end.
Proof.
  revert profiles i. induction rows as [|r0 rows IH]; intros [|p profiles] [|i]; cbn; try done.
  - by intros [= <-].
  - intros H. specialize (IH [] i H). by rewrite lookup_nil in IH.
  - by intros [= <-].
  - apply IH.
Qed.

Lemma menu_onReady : menu_ok onReady.
Proof.
  split; [done| |done|done]. cbn [onReady profileRows profileList]. intros i r Hr. rewrite lookup_nil.
  apply lookup_replicate in Hr as [-> _]. by split.
Qed.
Lemma menu_profiles profiles t : menu_ok t -> menu_ok (apply_profiles profiles t).
Proof.
  intros [Hn Hr Hp Hl]. split; cbn.
  - by rewrite fill_rows_length.
  - apply fill_rows_lookup.
  - done.
  - exact Hl.
Qed.
Lemma menu_status st t : menu_ok t -> menu_ok (apply_status st t).
Proof.
  intros [Hn Hr Hp Hl]. split; [done..|]. pose proof (shown_mode_Valid (siMode st)) as Hv.
  cbn [apply_status lastMode lastState lastInner mMode mStatus mInner mConnect mDisconnect icon]. cbv zeta.
  set (m := shown_mode (siMode st)) in *. intros _. split_and!; [done|done|by destruct (IncludesWGCP0 m)|by intros ->
    |by destruct (IncludesNetbird m)|by intros ->|done|done|].
  destruct (bool_decide (siState st = lastState t)) eqn:E1; [|done].
  destruct (bool_decide (inner_state st = lastInner t)) eqn:E2; [|done].
  destruct (bool_decide (m = lastMode t)) eqn:E3; [|done]. cbn.
  apply bool_decide_eq_true in E1, E2, E3. assert (lastMode t <> "") as Hm by (rewrite <-E3; by intros Hm; rewrite Hm in Hv).
  destruct (Hl Hm) as (_ & _ & _ & _ & _ & _ & _ & _ & ->). by rewrite E1, E2, E3.
Qed.

(** An action that keeps the menu in order. *)
Definition tidy {A} (m : state (trayApp * cstate) A) : Prop := forall w, menu_ok w.1 -> menu_ok (m w).2.1.
Lemma tidy_ret {A} (a : A) : tidy (mret a).
Proof. by intros w. Qed.
Lemma tidy_bind {A B} (m : state (trayApp * cstate) A) (f : A -> state (trayApp * cstate) B) :
  tidy m -> (forall a, tidy (f a)) -> tidy (m ≫= f).
Proof. intros Hm Hf w Hw. unfold mbind, state_bind. specialize (Hm w Hw). destruct (m w) as [a w1]. by apply Hf. Qed.
Lemma tidy_client {A} (m : action cstate string A) : tidy (on_client m).
Proof. intros w Hw. unfold on_client. by destruct (m w.2). Qed.
Lemma tidy_tray f : (forall t, menu_ok t -> menu_ok (f t)) -> tidy (on_tray f).
Proof. intros Hf w. apply Hf. Qed.
Lemma tidy_refresh : tidy refresh.
Proof.
  apply tidy_bind; [apply tidy_client|]. intros [st|e]; [|apply tidy_ret]. apply tidy_bind.
  - apply tidy_bind; [apply tidy_client|]. intros [l|e]; [|apply tidy_ret]. apply tidy_tray, menu_profiles.
  - intros _. apply tidy_tray, menu_status.
Qed.
Lemma tidy_event e : tidy (handle_event e).
Proof.
  intros w Hw. destruct e as [| | |i]; cbn [handle_event].
  - by apply tidy_refresh.
  - destruct (clickable _); [|done]. revert w Hw. apply tidy_bind; [apply tidy_client|]. intros _. apply tidy_refresh.
  - destruct (clickable _); [|done]. revert w Hw. apply tidy_bind; [apply tidy_client|]. intros _. apply tidy_refresh.
  - destruct (profileRows w.1 !! i) as [r|]; [|done]. destruct (_ && _); [|done].
    revert w Hw. apply tidy_bind; [apply tidy_client|]. intros [a|e]; [apply tidy_refresh|apply tidy_ret].
Qed.

Definition tray_step (w : trayApp * cstate) (e : tray_event) (w' : trayApp * cstate) : Prop := w' = (handle_event e w).2.
Definition tray_start (w : trayApp * cstate) : Prop := w.1 = onReady.
Lemma tray_reachable_ok w : reachable tray_step tray_start w -> menu_ok w.1.
Proof.
  revert w. apply reachable_invariant.
  - intros w ->. apply menu_onReady.
  - intros w e w' Hw ->. by apply tidy_event.
Qed.

(** The tray's menu is what the daemon last said. After any clicks and ticks,
    whatever the client answered: the rows of the submenu show the profiles last
    listed, in their order, one row each up to sixteen, with the active ones marked
    and disabled and the rest of the rows hidden; a row that can be clicked
    switches to the profile whose name it shows; once a status has come, the lines
    of the two legs are shown exactly when the mode runs them and carry their last
    states, exactly one of Connect and Disconnect is enabled, Disconnect when a leg
    the mode runs is up or coming up, and the icon is the one of the last mode and
    states although it is only redrawn on changes. *)
Theorem tray_shows_last_heard (w : trayApp * cstate) :
  reachable tray_step tray_start w ->
  let t := w.1 in
  menu_ok t /\
  (forall i r, profileRows t !! i = Some r -> clickable (item r) = true ->
     exists p, profileList t !! i = Some p /\ title (item r) = iName p /\ iActive p = false /\
       (iSlug p <> "" -> handle_event (ClickRow i) w = switchProfile (iSlug p) w)).
Proof.
  intros Hw%tray_reachable_ok t. subst t. split; [done|]. intros i r Hr Hc. pose proof Hw as [_ Hrows _ _]. specialize (Hrows i r Hr).
  apply andb_true_iff in Hc as [He Hv]. destruct (profileList w.1 !! i) as [p|]; [|destruct Hrows as [_ Hf]; congruence].
  destruct Hrows as (Hs & _ & Hen & Ht). exists p. split; [done|]. rewrite He in Hen. symmetry in Hen. apply negb_true_iff in Hen.
  rewrite Hen in Ht. split_and!; [done..|]. intros Hne. cbn [handle_event]. rewrite Hr.
  unfold clickable. rewrite He, Hv, Hs. by rewrite bool_decide_eq_false_2.
Qed.
End tray.

(** ** Oddities of the menu *)

(** With one of the two legs up the other cannot be brought up from the tray. *)
Lemma one_leg_up_blocks_connect mask encode st t :
  shown_mode (siMode st) = Combined -> siState st = StateConnected -> inner_state st = StateError ->
  enabled (mConnect (apply_status mask encode st t)) = false.
Proof. intros Hm Ho Hi. cbn [apply_status mConnect Enable enabled]. by rewrite Hm, Ho, Hi. Qed.

(** Without the outer tunnel the icon still shows the outer tunnel's state. *)
Lemma mesh_only_icon_ignores_mesh mask encode outer inner :
  iconForMode mask encode NetbirdOnly outer inner = iconForState mask encode outer.
Proof. reflexivity. Qed.

Module ToyTray.
#[local] Instance client : Client := stub_client id 0.
Definition encode (i : image) : option chars := None.
Definition opened : trayApp * cstate := (handle_event None encode Tick (onReady None encode, StubRun.used)).2.
Lemma tray_shows_last_heard_witness :
  title (mInner opened.1) = "netbird: Connected" /\ enabled (mDisconnect opened.1) = true /\
  visible (mProfiles opened.1) = negb (bool_decide (profileList opened.1 = [])).
Proof.
  assert (reachable (tray_step None encode) (tray_start None encode) opened) as Hr
    by (eapply reach_step; [apply (reach_init _ _ (onReady None encode, StubRun.used)); reflexivity|reflexivity]).
  destruct (tray_shows_last_heard None encode opened Hr) as [[_ _ Hp Hl] _].
  assert (lastMode opened.1 = NetbirdOnly) as Hm by (vm_compute; reflexivity).
  assert (lastInner opened.1 = StateConnected) as Hi by (vm_compute; reflexivity).
  rewrite Hm, Hi in Hl. destruct (Hl ltac:(discriminate)) as (_ & _ & _ & _ & _ & Ht & _ & Hd & _).
  split; [exact (Ht eq_refl)|]. split; [exact Hd|exact Hp].
Defined.
End ToyTray.
