(* ===== verification/Panes.v ===== *)
(** What the panes of the main window share. A pane has a file of its own.

    A pane is the state of its widgets. What a pane does in a goroutine is split
    in what it does at once, the call it makes ([begin]) and what it does with the
    answer on the main thread ([finish]); anything may happen in between. The
    texts of instants and of ages, and numbers with a fraction, are arguments.
    Dialogs are the pane's last field, the newest last. *)
From stdpp Require Import base tactics list gmap strings.
From Stdlib Require Import ZArith Ascii Lia.
From S2P Require Import Prelude GoStr GoFmt.
From S2P Require Import Mode.
Local Open Scope list_scope.

Definition newline_join (sep : string) (l : list string) : string :=
  l2s (join (s2l sep) (s2l <$> l)).
Definition eol : string := l2s [newline].
Definition orDash (s : string) : string := if bool_decide (s = "") then "—" else s.

(** A button: its text and whether it is enabled. *)
Record button := { text : string; on : bool }.
