(* ===== verification/StatusPane.v ===== *)
(** The status pane: internal/ui/status_pane.go. *)
From stdpp Require Import base tactics list gmap strings.
From Stdlib Require Import ZArith Ascii Lia.
From S2P Require Import Prelude GoStr GoFmt.
From S2P Require Import Mode.
From S2P Require Import InnerMesh.
From S2P Require Import Ipc.
From S2P Require Import Daemon.
From S2P Require Import ClientApi.
From S2P Require Import Tray.
From S2P Require Import Panes.
Local Open Scope list_scope.

Record tunnelCard := {
  c_title : string;
  badge : string;
  c_state : string;
  iface : string;
  lastHandshake : string;
  bytesIn : string;
  bytesOut : string;
  peer : string;
  endpoints : string;
  peerCount : string;
  pqc : string;
  selectable : bool }.
Definition newTunnelCard (t : string) : tunnelCard :=
  {| c_title := t; badge := ""; c_state := "—"; iface := "—"; lastHandshake := "—"; bytesIn := "—"; bytesOut := "—";
     peer := "—"; endpoints := "—"; peerCount := "—"; pqc := "—"; selectable := false |}.

Record statusPane := {
  wg : tunnelCard;
  mesh : tunnelCard;
  stack : list string;
  header : string;
  errorMessage : string;
  namesBanner : string;
  selected : string }.

Definition SetSelectable (b : bool) (c : tunnelCard) : tunnelCard :=
  {| c_title := c_title c; badge := badge c; c_state := c_state c; iface := iface c; lastHandshake := lastHandshake c;
     bytesIn := bytesIn c; bytesOut := bytesOut c; peer := peer c; endpoints := endpoints c; peerCount := peerCount c;
     pqc := pqc c; selectable := b |}.
Definition SetSelected (b : bool) (c : tunnelCard) : tunnelCard :=
  {| c_title := c_title c;
     badge := if selectable c then if b then "◉ selected for diagnostics" else "○" else "";
     c_state := c_state c; iface := iface c; lastHandshake := lastHandshake c; bytesIn := bytesIn c; bytesOut := bytesOut c;
     peer := peer c; endpoints := endpoints c; peerCount := peerCount c; pqc := pqc c; selectable := selectable c |}.
Definition pqc_text (rosenpassPeers peers : Z) : string :=
  if (0 <? rosenpassPeers)%Z then "active (" +:+ itoa rosenpassPeers +:+ "/" +:+ itoa peers +:+ " peers)" else "inactive".

Definition applySelectionBadge (p : statusPane) : statusPane :=
  {| wg := SetSelected (bool_decide (selected p = "wg-cp0")) (wg p);
     mesh := SetSelected (bool_decide (selected p = "netbird")) (mesh p);
     stack := stack p; header := header p; errorMessage := errorMessage p; namesBanner := namesBanner p; selected := selected p |}.
Definition select (s : string) (p : statusPane) : statusPane := applySelectionBadge
  {| wg := wg p; mesh := mesh p; stack := stack p; header := header p; errorMessage := errorMessage p;
     namesBanner := namesBanner p; selected := s |}.

Definition set_error (e : string) (p : statusPane) : statusPane :=
  {| wg := wg p; mesh := mesh p; stack := stack p; header := header p; errorMessage := e; namesBanner := namesBanner p;
     selected := selected p |}.

Definition newStatusPane : statusPane :=
  {| wg := newTunnelCard "wg-cp0 (outer)"; mesh := newTunnelCard "netbird (inner mesh)"; stack := []; header := "";
     errorMessage := ""; namesBanner := ""; selected := "wg-cp0" |}.

Section status.
(** [format] is t.Format(time.RFC3339), [since] time.Since rounded to seconds. *)
Context (format since : Z -> string) (age_text : Z -> string).

Definition formatHandshake (t : Z) : string :=
  if bool_decide (t = zero_time) then "never" else format t +:+ " (" +:+ since t +:+ " ago)".

Definition namesBannerText (n : option NamesSnapshot) : string :=
  match n with
  | None => ""
  | Some n =>
    if bool_decide (NsFallbackServed n = 0%Z) then ""
    else
      "⚠ names fallback in use — " +:+ itoa (NsFallbackServed n) +:+ " answers served" +:+
      (if negb (bool_decide (NsGrade n = "unavailable"))
       then " (signed snapshot serial " +:+ itoa (NsSerial n) +:+ ", " +:+ NsGrade n +:+ ", age " +:+ age_text (NsAge n) +:+ ")"
       else "") +:+
      (if (0 <? NsObserved n)%Z
       then " · " +:+ itoa (NsObserved n) +:+ " NONCANONICAL (ad hoc) observed records in play" else "")
  end.

Definition wg_card (st : StatusInfo) (c : tunnelCard) : tunnelCard :=
  {| c_title := c_title c; badge := badge c; c_state := stateLabel (siState st); iface := orDash (siInterfaceName st);
     lastHandshake := formatHandshake (siLastHandshake st); bytesIn := itoa (siBytesIn st); bytesOut := itoa (siBytesOut st);
     peer := orDash (siPeerPubKey st);
     endpoints := match siEndpoints st with [] => "—" | l => newline_join eol l end;
     peerCount := peerCount c; pqc := pqc c; selectable := selectable c |}.
Definition mesh_card (i : option InnerMeshInfo) (c : tunnelCard) : tunnelCard :=
  {| c_title := c_title c; badge := badge c; c_state := stateLabel (from_option imState StateDisconnected i); iface := iface c;
     lastHandshake := match i with None => "never" | Some i => formatHandshake (imLastHandshake i) end;
     bytesIn := itoa (from_option imBytesIn 0%Z i); bytesOut := itoa (from_option imBytesOut 0%Z i); peer := peer c;
     endpoints := endpoints c; peerCount := itoa (from_option imPeerCount 0%Z i);
     pqc := match i with None => pqc_text 0 0 | Some i => pqc_text (imRosenpassPeers i) (imPeerCount i) end;
     selectable := selectable c |}.

Definition apply (st : StatusInfo) (p : statusPane) : statusPane :=
  let m := shown_mode (siMode st) in
  let both := bool_decide (m = Combined) in
  let p := applySelectionBadge
    {| wg := SetSelectable both (wg p); mesh := SetSelectable both (mesh p);
       stack := (if IncludesWGCP0 m then ["wg-cp0"] else []) ++ (if IncludesNetbird m then ["netbird"] else []);
       header := "Active mode: " +:+ Display m; errorMessage := errorMessage p; namesBanner := namesBanner p;
       selected := if both then selected p else if bool_decide (m = WGCP0Only) then "wg-cp0" else "netbird" |} in
  {| wg := if IncludesWGCP0 m then wg_card st (wg p) else wg p;
     mesh := if IncludesNetbird m then mesh_card (siInnerMesh st) (mesh p) else mesh p;
     stack := stack p; header := header p;
     errorMessage := if bool_decide (siErrorMessage st = "") then errorMessage p else siErrorMessage st;
     namesBanner := namesBannerText (siNames st); selected := selected p |}.

Definition Refresh {Cl : Client} : state (statusPane * cstate) unit := fun w =>
  let '(r, c) := cGetStatus w.2 in
  (tt, (match r with
        | Err e => set_error ("Failed to fetch status: " +:+ e) w.1
        | Ok st => apply st (set_error "" w.1)
        end, c)).
End status.
