(* ===== verification/SettingsPane.v ===== *)
(** The settings pane: internal/ui/settings_pane.go. *)
From stdpp Require Import base tactics list gmap strings.
From Stdlib Require Import ZArith Ascii Lia.
From S2P Require Import Prelude GoStr GoFmt.
From S2P Require Import Mode.
From S2P Require Import ClientApi.
Local Open Scope list_scope.

Record settingsPane := {
  radio : string;
  current : string;
  applyBtn : bool;
  progress : bool;
  status : string;
  activeMode : string;
  dialogs : list string }.
Definition options : list string := Display <$> [WGCP0Only; NetbirdOnly; Combined].
Definition newSettingsPane : settingsPane :=
  {| radio := ""; current := "—"; applyBtn := true; progress := false; status := ""; activeMode := ""; dialogs := [] |}.

Definition pick (option : string) (p : settingsPane) : settingsPane :=
  {| radio := option; current := current p; applyBtn := applyBtn p; progress := progress p; status := status p;
     activeMode := activeMode p; dialogs := dialogs p |}.
Definition heard (m : string) (p : settingsPane) : settingsPane :=
  let shown := Display (match Mode.Parse m with Ok m => m | Err _ => "" end) in
  {| radio := shown; current := shown; applyBtn := applyBtn p; progress := progress p; status := status p;
     activeMode := m; dialogs := dialogs p |}.
Definition Refresh {Cl : Client} : state (settingsPane * cstate) unit := fun w =>
  let p := w.1 in
  let '(r, c) := cGetMode w.2 in
  (tt, (match r with
        | Err e => {| radio := radio p; current := "(failed: " +:+ e +:+ ")"; applyBtn := applyBtn p; progress := progress p;
                      status := status p; activeMode := activeMode p; dialogs := dialogs p |}
        | Ok m => heard m p
        end, c)).

(** Apply is pressed: the mode to ask for, if any. *)
Definition begin (p : settingsPane) : settingsPane * option Mode :=
  let say busy text target dlg :=
    ({| radio := radio p; current := current p; applyBtn := if busy : bool then false else applyBtn p;
        progress := if busy : bool then true else progress p; status := text; activeMode := activeMode p;
        dialogs := dialogs p ++ dlg |}, target) in
  if bool_decide (radio p = "") then (p, None)
  else match find_first (fun m => bool_decide (Display m = radio p)) All with
       | None => say false (status p) None ["unknown selection: " +:+ radio p]
       | Some target =>
         if bool_decide (target = activeMode p) then say false "Already in this mode." None []
         else say true "Reconnecting tunnels…" (Some target) []
       end.
(** The answer to the switch; whether the mode changed. *)
Definition finish (target : Mode) (r : result string string) (p : settingsPane) : settingsPane * bool :=
  match r with
  | Err e => ({| radio := radio p; current := current p; applyBtn := true; progress := false; status := "Failed: " +:+ e;
                 activeMode := activeMode p; dialogs := dialogs p ++ [e] |}, false)
  | Ok prev => ({| radio := radio p; current := Display target; applyBtn := true; progress := false;
                   status := "Switched: " +:+ prev +:+ " → " +:+ target; activeMode := target; dialogs := dialogs p |}, true)
  end.
