(* ===== verification/ProfilesPane.v ===== *)
(** The profiles pane: internal/ui/profiles_pane.go. *)
From stdpp Require Import base tactics list gmap strings.
From Stdlib Require Import ZArith Ascii Lia.
From S2P Require Import Prelude GoStr GoFmt.
From S2P Require Import Profile.
From S2P Require Import InnerMesh.
From S2P Require Import ClientApi.
From S2P Require Import Panes.
Local Open Scope list_scope.

Record profilesPane := {
  profiles : list Info;
  selectedIdx : Z;
  switchBtn : bool;
  renameBtn : bool;
  removeBtn : bool;
  status : string;
  progress : bool;
  dialogs : list string }.

Definition selectedProfile (p : profilesPane) : option Info :=
  if (selectedIdx p <? 0)%Z then None else profiles p !! Z.to_nat (selectedIdx p).
Definition with_buttons (s r d : bool) (p : profilesPane) : profilesPane :=
  {| profiles := profiles p; selectedIdx := selectedIdx p; switchBtn := s; renameBtn := r; removeBtn := d;
     status := status p; progress := progress p; dialogs := dialogs p |}.
Definition say (text : string) (busy : bool) (dlg : list string) (p : profilesPane) : profilesPane :=
  {| profiles := profiles p; selectedIdx := selectedIdx p; switchBtn := switchBtn p; renameBtn := renameBtn p;
     removeBtn := removeBtn p; status := text; progress := busy; dialogs := dialogs p ++ dlg |}.

Definition updateButtonState (p : profilesPane) : profilesPane :=
  match selectedProfile p with
  | None => with_buttons false false false p
  | Some prof => with_buttons (negb (iActive prof)) true true p
  end.
Definition newProfilesPane : profilesPane := updateButtonState
  {| profiles := []; selectedIdx := -1; switchBtn := true; renameBtn := true; removeBtn := true; status := "";
     progress := false; dialogs := [] |}.

Definition on_selected (i : Z) (p : profilesPane) : profilesPane := updateButtonState
  {| profiles := profiles p; selectedIdx := i; switchBtn := switchBtn p; renameBtn := renameBtn p; removeBtn := removeBtn p;
     status := status p; progress := progress p; dialogs := dialogs p |}.
Definition listed (l : list Info) (p : profilesPane) : profilesPane := updateButtonState
  {| profiles := l; selectedIdx := selectedIdx p; switchBtn := switchBtn p; renameBtn := renameBtn p; removeBtn := removeBtn p;
     status := status p; progress := progress p; dialogs := dialogs p |}.

(** A line of the list; [date] is the day of an instant. *)
Definition row_text (date : Z -> string) (prof : Info) : string :=
  (if iActive prof then "✓ " else "  ") +:+ iName prof +:+ " — " +:+ iMode prof +:+ " · " +:+ iSite prof +:+
  (if bool_decide (iExpiresAt prof = zero_time) then "" else "  (expires " +:+ date (iExpiresAt prof) +:+ ")").

Definition Refresh {Cl : Client} : state (profilesPane * cstate) unit := fun w =>
  let '(r, c) := cListProfiles w.2 in
  (tt, (match r with
        | Err e => say ("Failed to load profiles: " +:+ e) (progress w.1) [] w.1
        | Ok l => listed l w.1
        end, c)).

(** Switch: the profile asked for; its outcome, after [took]. *)
Definition begin_switch (p : profilesPane) : profilesPane * option Info :=
  match selectedProfile p with
  | None => (p, None)
  | Some prof => (say ("Switching to " +:+ iName prof +:+ "…") true [] (with_buttons false false false p), Some prof)
  end.
Definition finish_switch (prof : Info) (took : string) (r : result string (string * Info)) (p : profilesPane) : profilesPane * bool :=
  match r with
  | Err e => (updateButtonState (say ("Failed: " +:+ e) false [e] p), false)
  | Ok (prev, _) => (say ("Switched " +:+ prev +:+ " → " +:+ iSlug prof +:+ " in " +:+ took) false [] p, true)
  end.
(** Rename, from the form's answer. *)
Definition begin_rename (prof : Info) (newName : string) : option (string * string) :=
  if bool_decide (newName = "") || bool_decide (newName = iName prof) then None else Some (iSlug prof, newName).
Definition finish_call {A} (r : result string A) (p : profilesPane) : profilesPane * bool :=
  match r with Err e => (say (status p) (progress p) [e] p, false) | Ok _ => (p, true) end.
Definition remove_question (prof : Info) : string :=
  "Remove profile " +:+ iName prof +:+ "?" +:+
  (if iActive prof then eol +:+ eol +:+ "This profile is currently active; its tunnels will be taken down." else "").
