(* ===== verification/BundlePane.v ===== *)
(** The bundle pane: internal/ui/bundle_pane.go. *)
From stdpp Require Import base tactics list gmap strings.
From Stdlib Require Import ZArith Ascii Lia.
From S2P Require Import Prelude GoStr GoFmt.
From S2P Require Import Bundle.
From S2P Require Import ClientApi.
From S2P Require Import Panes.
Local Open Scope list_scope.

Record bundlePane := {
  currentRaw : option chars;
  currentLabel : string;
  previewLabel : string;
  pickButton : bool;
  applyButton : bool;
  dialogs : list string }.

Section bundle.
Context {K : BundleCodec} (format : Z -> string).

Definition formatBundlePreview (meta : Metadata) (sourcePath : string) (size : nat) : string :=
  "Source: " +:+ sourcePath +:+ " (" +:+ itoa (Z.of_nat size) +:+ " bytes)" +:+ eol +:+
  "Issued to: " +:+ IssuedTo meta +:+ eol +:+ "Site:      " +:+ MetaSite meta +:+ eol +:+
  "Validity:  " +:+ format (NotBefore meta) +:+ " — " +:+ format (NotAfter meta) +:+ eol +:+
  "Peer pubkey: " +:+ PeerPubKey meta +:+ eol +:+ "Endpoints:" +:+ eol +:+ "  " +:+ newline_join (eol +:+ "  ") (MetaEndpoints meta).
Definition formatBundleCurrent (info : BundleInfo) : string :=
  "Imported bundle:" +:+ eol +:+ "  Issued to: " +:+ biIssuedTo info +:+ eol +:+ "  Site:      " +:+ biSite info +:+ eol +:+
  "  Expires:   " +:+ format (biNotAfter info) +:+ eol +:+ "  Peer pubkey: " +:+ biPeerPubKey info +:+ eol +:+
  "  Endpoints:   " +:+ newline_join ", " (biEndpoints info).

Definition newBundlePane : bundlePane :=
  {| currentRaw := None; currentLabel := "No bundle imported."; previewLabel := ""; pickButton := true; applyButton := false;
     dialogs := [] |}.
(** At its creation the pane asks the daemon once. *)
Definition refreshCurrentFromDaemon {Cl : Client} : state (bundlePane * cstate) unit := fun w =>
  let p := w.1 in
  let '(r, c) := cGetStatus w.2 in
  (tt, (match r with
        | Ok st =>
          match siBundle st with
          | Some b =>
            if siBundleImported st
            then {| currentRaw := currentRaw p; currentLabel := formatBundleCurrent b; previewLabel := previewLabel p;
                    pickButton := pickButton p; applyButton := applyButton p; dialogs := dialogs p |}
            else p
          | None => p
          end
        | Err _ => p
        end, c)).

Definition error_dialog (e : string) (p : bundlePane) : bundlePane :=
  {| currentRaw := currentRaw p; currentLabel := currentLabel p; previewLabel := previewLabel p; pickButton := pickButton p;
     applyButton := applyButton p; dialogs := dialogs p ++ [e] |}.
Definition loadFromBytes (raw : chars) (sourcePath : string) (p : bundlePane) : bundlePane :=
  match Preview base64_encode raw with
  | Err e => error_dialog ("preview bundle: " +:+ e) p
  | Ok meta =>
    {| currentRaw := Some raw; currentLabel := currentLabel p;
       previewLabel := formatBundlePreview meta sourcePath (length raw); pickButton := pickButton p; applyButton := true;
       dialogs := dialogs p |}
  end.
(** A file that was dropped; [read] is what it holds. *)
Definition loadFromPath (read : string -> result string chars) (path : string) (p : bundlePane) : bundlePane :=
  match read path with
  | Err e => error_dialog ("read " +:+ path +:+ ": " +:+ e) p
  | Ok raw => loadFromBytes raw path p
  end.
Definition HandleDroppedFiles (read : string -> result string chars) (paths : list string) (p : bundlePane) : bundlePane :=
  match paths with [] => p | path :: _ => loadFromPath read path p end.

(** What comes of the file dialog: it fails, it is left, or a file is picked. *)
Inductive picked := PickFailed (e : string) | NonePicked | Picked (path : string) (read : result string chars).
Definition openFilePicker (x : picked) (p : bundlePane) : bundlePane :=
  match x with
  | PickFailed e => error_dialog e p
  | NonePicked => p
  | Picked _ (Err e) => error_dialog ("read bundle: " +:+ e) p
  | Picked path (Ok raw) => loadFromBytes raw path p
  end.

(** Apply is pressed; the goroutine imports what is loaded when it gets to run. *)
Definition begin (p : bundlePane) : bundlePane * bool :=
  match currentRaw p with
  | None => (p, false)
  | Some _ => ({| currentRaw := currentRaw p; currentLabel := currentLabel p; previewLabel := previewLabel p;
                  pickButton := false; applyButton := false; dialogs := dialogs p |}, true)
  end.
Definition call_arg (p : bundlePane) : chars := default [] (currentRaw p).
Definition finish (r : result string BundleInfo) (p : bundlePane) : bundlePane * bool :=
  match r with
  | Err e => ({| currentRaw := currentRaw p; currentLabel := currentLabel p; previewLabel := previewLabel p; pickButton := true;
                 applyButton := true; dialogs := dialogs p ++ ["daemon rejected bundle: " +:+ e] |}, false)
  | Ok info => ({| currentRaw := None; currentLabel := formatBundleCurrent info; previewLabel := ""; pickButton := true;
                   applyButton := applyButton p; dialogs := dialogs p |}, true)
  end.
End bundle.
