(* ===== verification/DiagnosticsPane.v ===== *)
(** The diagnostics pane: internal/ui/diagnostics_pane.go. *)
From stdpp Require Import base tactics list gmap strings.
From Stdlib Require Import ZArith Ascii Lia.
From S2P Require Import Prelude GoStr GoFmt.
From S2P Require Import InnerMesh.
From S2P Require Import ClientApi.
From S2P Require Import Panes.
Local Open Scope list_scope.

Record diagnosticsPane := { logs : string; probeMsg : string }.
Definition newDiagnosticsPane : diagnosticsPane := {| logs := ""; probeMsg := "" |}.
Section diagnostics.
Context (format : Z -> string).
Definition renderProbe (d : Diagnostics) : string :=
  if bool_decide (diLastProbe d = zero_time) then "No probe yet"
  else
    let w := format (diLastProbe d) in
    if diReachable d then "Reachable as of " +:+ w
    else if bool_decide (diProbeError d = "") then "Unreachable as of " +:+ w
    else "Unreachable as of " +:+ w +:+ ": " +:+ diProbeError d.
Definition show (d : Diagnostics) : diagnosticsPane := {| logs := newline_join eol (diLogTail d); probeMsg := renderProbe d |}.
Definition Refresh {Cl : Client} : state (diagnosticsPane * cstate) unit := fun w =>
  let '(r, c) := cGetDiagnostics w.2 in
  (tt, (match r with
        | Err e => {| logs := logs w.1; probeMsg := "Failed to fetch diagnostics: " +:+ e |}
        | Ok d => show d
        end, c)).
(** Test connection. *)
Definition begin_probe (p : diagnosticsPane) : diagnosticsPane := {| logs := logs p; probeMsg := "Probing..." |}.
Definition finish_probe (r : result string Diagnostics) (p : diagnosticsPane) : diagnosticsPane :=
  match r with
  | Err e => {| logs := logs p; probeMsg := "Probe failed: " +:+ e |}
  | Ok d => show d
  end.
End diagnostics.
