(* ===== verification/DevicesPane.v ===== *)
(** The devices pane: internal/ui/devices_pane.go, with what it keeps of each
    peer's latency and the sizes it writes. *)
From stdpp Require Import base tactics list gmap strings.
From Stdlib Require Import ZArith Ascii Lia.
From S2P Require Import Prelude GoStr GoFmt.
From S2P Require Import Mode.
From S2P Require Import PeerPing.
From S2P Require Import FileDrop.
From S2P Require Import DaemonFiles.
From S2P Require Import DaemonPeers.
From S2P Require Import ClientApi.
From S2P Require Import Panes.
Local Open Scope list_scope.

Definition devicesHistoryCap : nat := 60.

(** A byte count: its value in units of [div], 1024 to the power of the letter. *)
Fixpoint size_unit (fuel : nat) (m div : Z) (exp : nat) : Z * nat :=
  match fuel with
  | O => (div, exp)
  | S fuel => if (m <? 1024)%Z then (div, exp) else size_unit fuel (m / 1024) (wrap64 (div * 1024)) (S exp)
  end.
(** [decimal n div] is %.1f of the quotient; the letter is indexed as Go does. *)
Definition size_letters : chars := s2l "KMGTPE".
Definition humanSize (decimal : Z -> Z -> string) (n : Z) : option string :=
  if (n <? 1024)%Z then Some (itoa n +:+ " B")
  else
    let '(div, exp) := size_unit 64 (n / 1024) 1024 0 in
    letter ← size_letters !! exp;
    Some (decimal n div +:+ " " +:+ String letter "B").

(** strings.TrimRight at newlines *)
Fixpoint drop_newlines (l : chars) : chars :=
  match l with
  | c :: l' => if bool_decide (c = newline) then drop_newlines l' else l
  | [] => []
  end.
Definition trim_newlines (s : string) : string := l2s (reverse (drop_newlines (reverse (s2l s)))).

Record devicesPane := {
  peers : list PeerConnectivity;
  selected : Z;
  history : gmap string (list Z);
  empty : bool;
  detailName : string;
  detailBadge : string;
  detailIdent : string;
  detailRTT : string;
  chart : list Z;
  errorMessage : string;
  sendStatus : string;
  recvLabel : string }.

Definition newDevicesPane : devicesPane :=
  {| peers := []; selected := -1; history := ∅; empty := true; detailName := ""; detailBadge := ""; detailIdent := "";
     detailRTT := ""; chart := []; errorMessage := ""; sendStatus := ""; recvLabel := "none yet" |}.

Definition peerName (pc : PeerConnectivity) : string := if bool_decide (cFQDN pc = "") then cIP pc else cFQDN pc.
Definition relayed (pc : PeerConnectivity) : bool := bool_decide (cPath pc = "relayed").
Definition rosterLabel (pc : PeerConnectivity) : string :=
  (if cConnected pc then if relayed pc then "◆" else "●" else "○") +:+ " " +:+ peerName pc.
Definition badgeText (pc : PeerConnectivity) : string :=
  if negb (cConnected pc) then "○ Offline" else if relayed pc then "◆ Relayed connection" else "● Direct connection".
Definition truncKey (k : string) : string :=
  if length (s2l k) <=? 16 then k else l2s (take 16 (s2l k)) +:+ "…".

Definition identity_text (pc : PeerConnectivity) : string :=
  "IP: " +:+ cIP pc +:+
  (if bool_decide (cFQDN pc = "") then "" else eol +:+ "Name: " +:+ cFQDN pc) +:+
  (if bool_decide (cPubKey pc = "") then "" else eol +:+ "Key: " +:+ truncKey (cPubKey pc)) +:+
  (if relayed pc && negb (bool_decide (cRelayAddress pc = "")) then eol +:+ "Relay: " +:+ cRelayAddress pc else "") +:+
  (if bool_decide (cLocalICEType pc = "") && bool_decide (cRemoteICEType pc = "") then ""
   else eol +:+ "ICE: " +:+ orDash (cLocalICEType pc) +:+ " / " +:+ orDash (cRemoteICEType pc)).

Section devices.
(** [rtt_text] is the line of a measured peer's statistics. *)
Context (rtt_text : PeerPing.Stats -> string) (decimal : Z -> Z -> string).

(** One measured peer's last round trip. *)
Definition fold_peer (h : gmap string (list Z)) (pc : PeerConnectivity) : gmap string (list Z) :=
  match cRTT pc with
  | None => h
  | Some st => <[cIP pc := lastn devicesHistoryCap (default [] (h !! cIP pc) ++ [SLast st])]> h
  end.
Definition seen (ps : list PeerConnectivity) (ip : string) : bool := bool_decide (ip ∈ cIP <$> ps).
Definition fold_history (ps : list PeerConnectivity) (h : gmap string (list Z)) : gmap string (list Z) :=
  filter (fun e => seen ps e.1 = true) (foldl fold_peer h ps).

Definition selected_peer (p : devicesPane) : option PeerConnectivity :=
  if (selected p <? 0)%Z then None else peers p !! Z.to_nat (selected p).
Definition applyDetail (p : devicesPane) : devicesPane :=
  match selected_peer p with
  | None => p
  | Some pc =>
    {| peers := peers p; selected := selected p; history := history p; empty := empty p; detailName := peerName pc;
       detailBadge := badgeText pc; detailIdent := identity_text pc;
       detailRTT := match cRTT pc with Some st => rtt_text st | None => "RTT  — (measuring…)" end;
       chart := default [] (history p !! cIP pc); errorMessage := errorMessage p; sendStatus := sendStatus p;
       recvLabel := recvLabel p |}
  end.
Definition on_selected (i : Z) (p : devicesPane) : devicesPane := applyDetail
  {| peers := peers p; selected := i; history := history p; empty := empty p; detailName := detailName p;
     detailBadge := detailBadge p; detailIdent := detailIdent p; detailRTT := detailRTT p; chart := chart p;
     errorMessage := errorMessage p; sendStatus := sendStatus p; recvLabel := recvLabel p |}.

Definition apply (ps : list PeerConnectivity) (p : devicesPane) : devicesPane :=
  let p' :=
    {| peers := ps;
       selected := match ps with
                   | [] => -1
                   | _ => if (selected p <? 0)%Z || (Z.of_nat (length ps) <=? selected p)%Z then 0 else selected p
                   end;
       history := fold_history ps (history p); empty := bool_decide (ps = []);
       detailName := detailName p; detailBadge := detailBadge p; detailIdent := detailIdent p; detailRTT := detailRTT p;
       chart := chart p; errorMessage := errorMessage p; sendStatus := sendStatus p; recvLabel := recvLabel p |} in
  match ps with [] => p' | _ => applyDetail p' end.

(** At most eight; a size that cannot be written would be Go's panic. *)
Definition received_line (f : Received) : option string :=
  size ← humanSize decimal (RSize f);
  Some (RName f +:+ " (" +:+ size +:+ ") — from " +:+ (if bool_decide (RFrom f = "") then RFromIP f else RFrom f) +:+ eol).
Definition renderReceived (l : list Received) : option string :=
  match l with [] => Some "none yet" | _ => (fun ls => trim_newlines (foldr String.append "" ls)) <$> mapM received_line (take 8 l) end.

Definition with_texts (err send recv : string) (p : devicesPane) : devicesPane :=
  {| peers := peers p; selected := selected p; history := history p; empty := empty p; detailName := detailName p;
     detailBadge := detailBadge p; detailIdent := detailIdent p; detailRTT := detailRTT p; chart := chart p;
     errorMessage := err; sendStatus := send; recvLabel := recv |}.

Definition Refresh {Cl : Client} : state (devicesPane * cstate) unit := fun w =>
  let p := w.1 in
  let '(r, c) := cGetPeerConnectivity w.2 in
  match r with
  | Err e => (tt, (with_texts ("Failed to fetch connectivity: " +:+ e) (sendStatus p) (recvLabel p) p, c))
  | Ok ps =>
    let '(ri, c) := cGetIncomingFiles c in
    let p := apply ps (with_texts "" (sendStatus p) (recvLabel p) p) in
    (tt, (match ri with
          | Ok l => with_texts (errorMessage p) (sendStatus p) (default "" (renderReceived l)) p
          | Err _ => p
          end, c))
  end.

(** A file was picked for the peer selected when the picker opened. *)
Definition begin_send (path : string) (pc : PeerConnectivity) (p : devicesPane) : devicesPane :=
  with_texts (errorMessage p) ("Sending " +:+ path_base path +:+ "…") (recvLabel p) p.
Definition finish_send (pc : PeerConnectivity) (r : result string SendFileReply) (p : devicesPane) : devicesPane :=
  with_texts (errorMessage p)
    (match r with
     | Err e => "Send failed: " +:+ e
     | Ok res => "Sent " +:+ repName res +:+ " (" +:+ itoa (repSize res) +:+ " bytes) to " +:+ peerName pc
     end) (recvLabel p) p.
End devices.

(** ** Sizes *)
Lemma size_unit_spec fuel m div exp d e :
  size_unit fuel m div exp = (d, e) -> (1 <= m < 1024 ^ Z.of_nat (S fuel))%Z -> (m * div <= int64_max)%Z -> (1 <= div)%Z ->
  exists k, e = exp + k /\ d = (div * 1024 ^ Z.of_nat k)%Z /\ (1024 ^ Z.of_nat k <= m < 1024 ^ Z.of_nat (S k))%Z.
Proof.
  revert m div exp. induction fuel as [|fuel IH]; intros m div exp E Hm Hd H1; cbn [size_unit] in E.
  - injection E as <- <-. exists 0. split_and!; lia.
  - destruct (Z.ltb_spec m 1024) as [Hlt|Hge].
    + injection E as <- <-. exists 0. split_and!; lia.
    + assert (forall k, 1024 ^ Z.of_nat (S k) = 1024 * 1024 ^ Z.of_nat k)%Z as Hpow by (intros k; rewrite Nat2Z.inj_succ, Z.pow_succ_r; lia).
      pose proof (Z.div_mod m 1024 ltac:(lia)). pose proof (Z.mod_pos_bound m 1024 ltac:(lia)).
      rewrite (Hpow (S fuel)) in Hm. rewrite wrap64_small in E by (unfold int64_min in *; nia).
      destruct (IH _ _ _ E) as (k & -> & -> & Hk); [lia|nia|lia|].
      exists (S k). split; [lia|]. rewrite !Hpow in *. split; [lia|]. nia.
Qed.

(** A size can always be written. For every int64 byte count the letter of its
    unit exists, so that the pane cannot fail on a received file; below a kilobyte
    the count is written out, above it the unit is the power of 1024 the count
    lies between, and no computation of it overflows. *)
Theorem humanSize_in_range (decimal : Z -> Z -> string) (n : Z) :
  (int64_min <= n <= int64_max)%Z ->
  if (n <? 1024)%Z then humanSize decimal n = Some (itoa n +:+ " B")
  else exists k letter, size_letters !! k = Some letter /\ (1024 * 1024 ^ Z.of_nat k <= n < 1024 * 1024 * 1024 ^ Z.of_nat k)%Z /\
         humanSize decimal n = Some (decimal n (1024 * 1024 ^ Z.of_nat k)%Z +:+ " " +:+ String letter "B").
Proof.
  intros Hn. unfold humanSize. destruct (Z.ltb_spec n 1024) as [Hlt|Hge]; [done|].
  destruct (size_unit 64 (n / 1024) 1024 0) as [d e] eqn:E.
  pose proof (Z.div_mod n 1024 ltac:(lia)). pose proof (Z.mod_pos_bound n 1024 ltac:(lia)).
  apply size_unit_spec in E as (k & -> & -> & Hk); [|split; [lia|]|lia|lia].
  2: { eapply Z.le_lt_trans; [|apply (Z.pow_lt_mono_r 1024 7); lia]. unfold int64_max in *. lia. }
  assert (k < 6) as Hk6.
  { destruct (Nat.lt_ge_cases k 6) as [|Hge6]; [done|]. pose proof (Z.pow_le_mono_r 1024 6 (Z.of_nat k) ltac:(lia) ltac:(lia)).
    unfold int64_max in *. lia. }
  rewrite (Nat2Z.inj_succ k), Z.pow_succ_r in Hk by lia.
  destruct (lookup_lt_is_Some_2 size_letters k) as [letter Hl]; [exact Hk6|].
  exists k, letter. cbn [plus]. rewrite Hl. split_and!; [done|nia|nia|done].
Qed.
Lemma humanSize_in_range_witness :
  (exists k letter, size_letters !! k = Some letter /\ (1024 * 1024 ^ Z.of_nat k <= int64_max < 1024 * 1024 * 1024 ^ Z.of_nat k)%Z /\
     humanSize (fun n d => itoa (n / d)) int64_max = Some (itoa (int64_max / (1024 * 1024 ^ Z.of_nat k)) +:+ " " +:+ String letter "B")) /\
  humanSize (fun n d => itoa (n / d)) int64_max = Some "7 EB".
Proof.
  split; [|vm_compute; reflexivity].
  exact (humanSize_in_range (fun n d => itoa (n / d)) int64_max ltac:(unfold int64_min, int64_max; lia)).
Defined.

(** ** The latency history *)
(** What a poll measured of a peer. *)
Definition measured (ip : string) (ps : list PeerConnectivity) : list Z :=
  ps ≫= fun pc => match cRTT pc with Some st => if bool_decide (cIP pc = ip) then [SLast st] else [] | None => [] end.
(** Everything measured of a peer since it was last missing. *)
Definition series (ip : string) (polls : list (list PeerConnectivity)) : list Z :=
  foldl (fun acc ps => if seen ps ip then acc ++ measured ip ps else []) [] polls.

Lemma foldl_fold_peer ps h ip :
  default [] (foldl fold_peer h ps !! ip) = lastn devicesHistoryCap (default [] (h !! ip) ++ measured ip ps) \/
  measured ip ps = [] /\ foldl fold_peer h ps !! ip = h !! ip.
Proof.
  revert h. induction ps as [|pc ps IH]; intros h; cbn [foldl measured]; [by right|].
  change (measured ip (pc :: ps)) with
    (match cRTT pc with Some st => if bool_decide (cIP pc = ip) then [SLast st] else [] | None => [] end ++ measured ip ps).
  unfold fold_peer at 2 4. destruct (cRTT pc) as [st|]; [|apply IH].
  case_bool_decide as Hip.
  - left. destruct (IH (<[cIP pc := lastn devicesHistoryCap (default [] (h !! cIP pc) ++ [SLast st])]> h)) as [->|[-> ->]];
      rewrite Hip, lookup_insert_eq; cbn [default from_option id].
    + by rewrite lastn_app_lastn, <-app_assoc.
    + by rewrite app_nil_r.
  - destruct (IH (<[cIP pc := lastn devicesHistoryCap (default [] (h !! cIP pc) ++ [SLast st])]> h)) as [->|[-> ->]];
      rewrite lookup_insert_ne by done; auto.
Qed.

Section devices_run.
Context (rtt_text : PeerPing.Stats -> string).

(** The list widget selects lines it has. *)
Inductive pane_event := Poll (ps : list PeerConnectivity) | Pick (i : nat).
Definition do_pane (p : devicesPane) (e : pane_event) : devicesPane :=
  match e with
  | Poll ps => apply rtt_text ps p
  | Pick i => if i <? length (peers p) then on_selected rtt_text (Z.of_nat i) p else p
  end.
Definition polls_of (es : list pane_event) : list (list PeerConnectivity) :=
  es ≫= fun e => match e with Poll ps => [ps] | Pick _ => [] end.

Lemma applyDetail_data p : peers (applyDetail rtt_text p) = peers p /\ selected (applyDetail rtt_text p) = selected p /\
  history (applyDetail rtt_text p) = history p.
Proof. unfold applyDetail. by destruct (selected_peer p). Qed.
Lemma apply_data ps p : peers (apply rtt_text ps p) = ps /\ history (apply rtt_text ps p) = fold_history ps (history p).
Proof. unfold apply. cbv zeta. destruct ps as [|pc ps]; [done|]. split; apply applyDetail_data. Qed.

Lemma fold_history_lookup ps h ip :
  fold_history ps h !! ip = if seen ps ip then foldl fold_peer h ps !! ip else None.
Proof.
  unfold fold_history. destruct (seen ps ip) eqn:Hs.
  - destruct (foldl fold_peer h ps !! ip) as [l|] eqn:E; [apply map_lookup_filter_Some_2; done|].
    by apply map_lookup_filter_None_2; left.
  - apply map_lookup_filter_None_2. right. intros x _. cbn. by rewrite Hs.
Qed.

(** The detail is that of the selected peer. *)
Definition detail_ok (p : devicesPane) : Prop :=
  match selected_peer p with
  | Some pc => detailName p = peerName pc /\ detailBadge p = badgeText pc /\ chart p = default [] (history p !! cIP pc)
  | None => peers p = []
  end.
Lemma applyDetail_ok p : selected_peer p <> None \/ peers p = [] -> detail_ok (applyDetail rtt_text p).
Proof.
  intros Hp. unfold detail_ok. assert (selected_peer (applyDetail rtt_text p) = selected_peer p) as ->.
  { unfold selected_peer. destruct (applyDetail_data p) as (-> & -> & _). done. }
  unfold applyDetail. destruct (selected_peer p); [done|]. by destruct Hp as [[]|].
Qed.
Lemma in_range_selected p : (0 <= selected p < Z.of_nat (length (peers p)))%Z -> selected_peer p <> None.
Proof.
  intros Hs. unfold selected_peer. destruct (Z.ltb_spec (selected p) 0) as [|_]; [lia|].
  apply not_eq_None_Some, lookup_lt_is_Some. lia.
Qed.
Lemma apply_ok ps p : detail_ok (apply rtt_text ps p).
Proof.
  unfold apply. cbv zeta. destruct ps as [|pc ps]; [done|]. apply applyDetail_ok. left. apply in_range_selected. cbn [selected peers].
  destruct (Z.ltb_spec (selected p) 0), (Z.leb_spec (Z.of_nat (length (pc :: ps))) (selected p)); cbn [orb length] in *; lia.
Qed.

Lemma default_lastn_nil {A} n : lastn n ([] : list A) = [].
Proof. done. Qed.

(** The devices pane tells one peer's story. After any polls and any choices in
    the list, the history of every peer is the last sixty round trips measured since
    the peer was last missing from a poll, no more and no other's; the roster is the
    last poll's; and the detail shows the name, the badge and the chart of the peer
    selected in it, which is one of the roster whenever the roster is not empty. *)
Theorem devices_pane_window (es : list pane_event) :
  let p := foldl do_pane newDevicesPane es in
  (forall ip, default [] (history p !! ip) = lastn devicesHistoryCap (series ip (polls_of es))) /\
  peers p = default [] (last (polls_of es)) /\ detail_ok p.
Proof.
  cbv zeta. induction es as [|e es (IH1 & IH2 & IH3)] using rev_ind; [by split_and!|].
  rewrite foldl_app. cbn [foldl]. set (p := foldl do_pane newDevicesPane es) in *.
  assert (polls_of (es ++ [e]) = polls_of es ++ match e with Poll ps => [ps] | Pick _ => [] end) as ->
    by (unfold polls_of; by rewrite bind_app, bind_cons, app_nil_r).
  destruct e as [ps|i]; cbn [do_pane].
  - destruct (apply_data ps p) as [Hp Hh]. rewrite Hp, Hh, last_snoc. split_and!; [|done|apply apply_ok].
    intros ip. rewrite fold_history_lookup. unfold series. rewrite foldl_app. cbn [foldl]. fold (series ip (polls_of es)).
    destruct (seen ps ip); [|done]. destruct (foldl_fold_peer ps (history p) ip) as [->|[-> ->]]; rewrite IH1.
    + apply lastn_app_lastn.
    + by rewrite app_nil_r.
  - rewrite app_nil_r. destruct (Nat.ltb_spec i (length (peers p))) as [Hi|_]; [|done]. unfold on_selected.
    set (q := {| peers := _ |}). destruct (applyDetail_data q) as (-> & _ & ->). split_and!; [exact IH1|exact IH2|].
    apply applyDetail_ok. left. apply in_range_selected. cbn. lia.
Qed.
End devices_run.
