(* ===== verification/Latency.v ===== *)
(** What the window draws by numbers of its own: the latency chart
    (internal/ui/latency_chart.go) and the two-column layout of the panes
    (internal/ui/layout.go), over the numbers of GoFloat.v. *)
From stdpp Require Import base tactics list strings.
From Stdlib Require Import ZArith Ascii Lia.
From Stdlib.Floats Require Import SpecFloat.
From S2P Require Import Prelude GoStr.
From S2P Require Import GoFloat.
Local Open Scope list_scope.

Record size := { Width : f32; Height : f32 }.
Record position := { X : f32; Y : f32 }.

(** ** The chart *)
Record segment := { Position1 : position; Position2 : position }.
(** The objects of the renderer: the background, then the lines. *)
Inductive object := Background | Line (s : segment).

(** SFltb a b: a < b; no comparison holds of a NaN. *)
Definition max_of (l : list f64) : f64 := foldl (fun m v => if SFltb m v then v else m) (S754_zero false) l.
Definition scale (l : list f64) : f64 := let m := max_of l in if SFleb m (S754_zero false) then f64_of_int 1 else m.
Definition chart_pad : f32 := f32_of_int 4.
Definition inner (side : f32) : f32 := f32_sub side (f32_of_int 8).
Definition px (w : f32) (n i : nat) : f32 :=
  f32_add chart_pad (f32_div (f32_mul w (f32_of_int (Z.of_nat i))) (f32_of_int (Z.of_nat (n - 1)))).
Definition py (h : f32) (maxY v : f64) : f32 := f32_sub (f32_add chart_pad h) (f32_mul h (f32_of_f64 (f64_div v maxY))).
Definition point (sz : size) (data : list f64) (i : nat) : position :=
  {| X := px (inner (Width sz)) (length data) i; Y := py (inner (Height sz)) (scale data) (nth i data (S754_zero false)) |}.
Definition drawn (sz : size) (data : list f64) : bool :=
  (2 <=? length data) && (SFltb (S754_zero false) (Width sz) && SFltb (S754_zero false) (Height sz)).
Definition refreshLines (sz : size) (data : list f64) : list object :=
  Background ::
  (if drawn sz data
   then (fun i => Line {| Position1 := point sz data i; Position2 := point sz data (S i) |}) <$> seq 0 (length data - 1)
   else []).

(** latencyChart with its renderer: the series, the size it was laid out for, and
    what is on the screen. *)
Record latencyChart := { data : list f64; chart_size : size; objects : list object }.
Definition no_size : size := {| Width := S754_zero false; Height := S754_zero false |}.
Definition newLatencyChart : latencyChart := {| data := []; chart_size := no_size; objects := refreshLines no_size [] |}.
Definition setData (d : list f64) (c : latencyChart) : latencyChart :=
  {| data := d; chart_size := chart_size c; objects := refreshLines (chart_size c) d |}.
Definition Layout_chart (sz : size) (c : latencyChart) : latencyChart :=
  {| data := data c; chart_size := sz; objects := refreshLines sz (data c) |}.
Inductive chart_event := SetData (d : list f64) | LayOut (sz : size).
Definition chart_do (e : chart_event) (c : latencyChart) : latencyChart :=
  match e with SetData d => setData d c | LayOut sz => Layout_chart sz c end.

(** ** The two-column layout *)
(** The rows of a form: a key and, but for the last one of an odd number, a value. *)
Fixpoint rows {A} (l : list A) : list (A * option A) :=
  match l with
  | [] => []
  | [k] => [(k, None)]
  | k :: v :: l => (k, Some v) :: rows l
  end.
Definition form_pad : f32 := f32_of_int 8.
Definition fmax (m v : f32) : f32 := if SFltb m v then v else m.
Definition zero : f32 := S754_zero false.
Definition key_width (objs : list size) : f32 := foldl (fun m r => fmax m (Width r.1)) zero (rows objs).
Definition value_width (objs : list size) : f32 :=
  foldl (fun m r => match r.2 with Some v => fmax m (Width v) | None => m end) zero (rows objs).
(** The height of a missing value is that of the zero size. *)
Definition row_height (r : size * option size) : f32 := fmax (Height r.1) (match r.2 with Some v => Height v | None => zero end).
Definition MinSize (objs : list size) : size :=
  match objs with
  | [] => {| Width := zero; Height := zero |}
  | _ => {| Width := f32_add (f32_add (key_width objs) (value_width objs)) (f32_mul form_pad (f32_of_int 2));
            Height := foldl (fun h r => f32_add h (f32_add (row_height r) form_pad)) zero (rows objs) |}
  end.

Record placed := { at_ : position; of_size : size }.
(** One row at [y]: where its objects go and the next row starts. The key is
    [fst]; a pair of keyW + pad and the width left is the value's. *)
Definition place_row (keyW : f32) (width : f32) (y : f32) (r : size * option size) : list placed :=
  {| at_ := {| X := zero; Y := y |}; of_size := {| Width := keyW; Height := row_height r |} |} ::
  match r.2 with
  | None => []
  | Some _ => [{| at_ := {| X := f32_add keyW form_pad; Y := y |};
                  of_size := {| Width := f32_sub (f32_sub width keyW) form_pad; Height := row_height r |} |}]
  end.
Fixpoint place_rows (keyW width y : f32) (rs : list (size * option size)) : list placed * f32 :=
  match rs with
  | [] => ([], y)
  | r :: rs =>
    let '(ps, bottom) := place_rows keyW width (f32_add y (f32_add (row_height r) form_pad)) rs in
    (place_row keyW width y r ++ ps, bottom)
  end.
Definition Layout (objs : list size) (sz : size) : list placed := (place_rows (key_width objs) (Width sz) zero (rows objs)).1.

(** ** Theorems *)

(** The chart is one line through its samples: nothing but the background when
    fewer than two are there or the chart has no area, and otherwise one segment
    for each two samples in a row, each starting where the one before it ends. It
    shows the series it was given last for the size it was given last, whatever
    came in between. *)
Theorem chart_is_polyline (es : list chart_event) (c : latencyChart) :
  objects c = refreshLines (chart_size c) (data c) ->
  let c' := foldl (fun c e => chart_do e c) c es in
  exists lines, objects c' = Background :: (Line <$> lines) /\
    length lines = (if drawn (chart_size c') (data c') then length (data c') - 1 else 0) /\
    (forall i s s', lines !! i = Some s -> lines !! S i = Some s' -> Position2 s = Position1 s') /\
    (forall i s, lines !! i = Some s ->
       Position1 s = point (chart_size c') (data c') i /\ Position2 s = point (chart_size c') (data c') (S i)).
Proof.
  intros Hc. cbn zeta. set (c' := foldl _ c es). assert (objects c' = refreshLines (chart_size c') (data c')) as ->.
  { unfold c'. clear c'. revert c Hc. induction es as [|e es IH]; intros c Hc; [done|]. cbn [foldl]. apply IH. by destruct e. }
  set (seg i := {| Position1 := point (chart_size c') (data c') i; Position2 := point (chart_size c') (data c') (S i) |}).
  exists (if drawn (chart_size c') (data c') then seg <$> seq 0 (length (data c') - 1) else []).
  assert (forall i s, (if drawn (chart_size c') (data c') then seg <$> seq 0 (length (data c') - 1) else []) !! i = Some s -> s = seg i) as Hseg.
  { intros i s. destruct (drawn _ _); [|done]. rewrite list_lookup_fmap_Some. intros (j & -> & Hj).
    by apply lookup_seq in Hj as [-> _]. }
  split_and!.
  - unfold refreshLines. f_equal. destruct (drawn _ _); [|done]. by rewrite <-list_fmap_compose.
  - destruct (drawn _ _); [by rewrite length_fmap, length_seq|done].
  - intros i s s' ->%Hseg ->%Hseg. done.
  - intros i s ->%Hseg. done.
Qed.

Lemma place_rows_bottom keyW width rs : forall y,
  (place_rows keyW width y rs).2 = foldl (fun h r => f32_add h (f32_add (row_height r) form_pad)) y rs.
Proof.
  induction rs as [|r rs IH]; intros y; [done|]. cbn [place_rows foldl]. specialize (IH (f32_add y (f32_add (row_height r) form_pad))).
  by destruct (place_rows _ _ _ rs).
Qed.
Definition row_count {A} (r : A * option A) (n : nat) : nat := match r.2 with Some _ => 2 | None => 1 end + n.
Lemma length_place_rows keyW width rs : forall y,
  length (place_rows keyW width y rs).1 = foldr row_count 0 rs.
Proof.
  induction rs as [|r rs IH]; intros y; [done|]. cbn [place_rows foldr]. specialize (IH (f32_add y (f32_add (row_height r) form_pad))).
  destruct (place_rows _ _ _ rs). cbn [fst] in *. rewrite length_app, IH. unfold place_row, row_count. by destruct (r.2).
Qed.
Lemma length_rows {A} (l : list A) : foldr (row_count (A := A)) 0 (rows l) = length l.
Proof.
  enough (forall n (l : list A), length l <= n -> foldr (row_count (A := A)) 0 (rows l) = length l) as H by by eapply H.
  clear l. intros n. induction n as [|n IH]; intros [|k [|v l]] Hl; try done; cbn in Hl; [lia|]. cbn [rows foldr length].
  rewrite IH by lia. cbn. lia.
Qed.

Lemma place_rows_in keyW width rs : forall y p, p ∈ (place_rows keyW width y rs).1 ->
  exists before r after, rs = before ++ r :: after /\
    Y (at_ p) = foldl (fun h r => f32_add h (f32_add (row_height r) form_pad)) y before /\ Height (of_size p) = row_height r /\
    ((X (at_ p) = zero /\ Width (of_size p) = keyW) \/
     (X (at_ p) = f32_add keyW form_pad /\ Width (of_size p) = f32_sub (f32_sub width keyW) form_pad)).
Proof.
  induction rs as [|r rs IH]; intros y p; cbn [place_rows]; [by intros ?%elem_of_nil|].
  specialize (IH (f32_add y (f32_add (row_height r) form_pad)) p). destruct (place_rows _ _ _ rs) as [ps bottom].
  cbn [fst] in *. rewrite elem_of_app. intros [Hp|Hp].
  - exists [], r, rs. unfold place_row in Hp. apply elem_of_cons in Hp as [->|Hp]; [split_and!; auto|].
    destruct (r.2); [|by apply elem_of_nil in Hp]. apply list_elem_of_singleton in Hp as ->. split_and!; auto.
  - destruct (IH Hp) as (before & r' & after & -> & H1 & H2 & H3). by exists (r :: before), r', after.
Qed.

(** The panes' forms: every object is placed, the rows end exactly at the height
    the form asked for, whatever the roundings of the sums, and each object is in
    the column of the keys - at the left edge, as wide as the widest key - or in
    that of the values, next to it, with the height of its row. *)
Theorem form_layout_exact (objs : list size) (sz : size) :
  length (Layout objs sz) = length objs /\
  (objs <> [] -> (place_rows (key_width objs) (Width sz) zero (rows objs)).2 = Height (MinSize objs)) /\
  (forall p, p ∈ Layout objs sz -> exists before r after, rows objs = before ++ r :: after /\
     Y (at_ p) = foldl (fun h r => f32_add h (f32_add (row_height r) form_pad)) zero before /\ Height (of_size p) = row_height r /\
     ((X (at_ p) = zero /\ Width (of_size p) = key_width objs) \/
      (X (at_ p) = f32_add (key_width objs) form_pad /\ Width (of_size p) = f32_sub (f32_sub (Width sz) (key_width objs)) form_pad))).
Proof.
  split_and!.
  - unfold Layout. by rewrite length_place_rows, length_rows.
  - intros Hne. rewrite place_rows_bottom. by destruct objs.
  - intros p. apply place_rows_in.
Qed.

(** Two rows, a label and a value of three lines each. *)
Example form_layout_ok :
  let box w h := {| Width := f32_of_int w; Height := f32_of_int h |} in
  let whole p := (trunc (X (at_ p)), trunc (Y (at_ p)), trunc (Width (of_size p)), trunc (Height (of_size p))) in
  whole <$> Layout [box 30 10; box 50 40; box 44 12; box 20 10; box 7 7]%Z (box 200 300)%Z =
    [(0, 0, 44, 40); (52, 0, 148, 40); (0, 48, 44, 12); (52, 48, 148, 12); (0, 68, 44, 7)]%Z /\
  trunc (Width (MinSize [box 30 10; box 50 40]%Z)) = 96%Z.
Proof. split; vm_compute; reflexivity. Qed.
Example chart_ok :
  let ends o := match o with Background => None | Line s => Some (trunc (X (Position1 s)), trunc (Y (Position1 s)), trunc (X (Position2 s)), trunc (Y (Position2 s))) end in
  ends <$> refreshLines {| Width := f32_of_int 108; Height := f32_of_int 48 |} [f64_of_int 10; f64_of_int 20; f64_of_int 5] =
    [None; Some (4, 24, 54, 4); Some (54, 4, 104, 34)]%Z.
Proof. vm_compute. reflexivity. Qed.
Lemma chart_is_polyline_witness :
  exists lines, objects (setData [f64_of_int 1; f64_of_int 2] (Layout_chart {| Width := f32_of_int 220; Height := f32_of_int 90 |} newLatencyChart)) =
    Background :: (Line <$> lines) /\ length lines = 1.
Proof.
  destruct (chart_is_polyline [LayOut {| Width := f32_of_int 220; Height := f32_of_int 90 |}; SetData [f64_of_int 1; f64_of_int 2]] newLatencyChart eq_refl)
    as (lines & H1 & H2 & _). exists lines. split; [exact H1|]. rewrite H2. vm_compute. reflexivity.
Defined.
