(* ===== verification/Window.v ===== *)
(** The main window: internal/ui/window.go over its panes, which have a file
    each.

    [mainWindow] is the header, the panes, the tab in front and the goroutines
    under way. An event is a click, a tick of the poller or a goroutine that runs:
    its call and what it then does to the widgets are one step, and may come at
    any later time. Notifications and dialogs are kept in order. *)
From stdpp Require Import base tactics list gmap strings.
From Stdlib Require Import ZArith Ascii Lia.
From S2P Require Import Prelude GoStr GoFmt.
From S2P Require Import Mode.
From S2P Require Import Bundle.
From S2P Require Import Profile.
From S2P Require Import PeerPing.
From S2P Require Import FileDrop.
From S2P Require Import Ipc.
From S2P Require Import Daemon.
From S2P Require Import DaemonFiles.
From S2P Require Import DaemonPeers.
From S2P Require Import ClientApi.
From S2P Require Import Tray.
From S2P Require Import Panes.
From S2P Require Import StatusPane.
From S2P Require Import SettingsPane.
From S2P Require Import ProfilesPane.
From S2P Require Import BundlePane.
From S2P Require Import DiagnosticsPane.
From S2P Require Import DevicesPane.
Local Open Scope list_scope.

(** A goroutine under way. *)
Inductive job :=
  | JToggle (down : bool)
  | JImport
  | JSetMode (m : Mode)
  | JSwitch (prof : Info)
  | JRename (slug newName : string)
  | JRemove (slug : string)
  | JProbe
  | JSend (pc : PeerConnectivity) (path : string)
  | JDevices
  | JProfiles
  | JSettings.

Record mainWindow := {
  indicator : rgba;
  stateText : string;
  connectBtn : button;
  statusPane : StatusPane.statusPane;
  diagsPane : DiagnosticsPane.diagnosticsPane;
  bundlePane : BundlePane.bundlePane;
  profilesPane : ProfilesPane.profilesPane;
  settingsPane : SettingsPane.settingsPane;
  devicesPane : DevicesPane.devicesPane;
  tab : nat;
  jobs : list job;
  notes : list (string * string);
  dialogs : list string }.

#[export] Instance set_statusPane : Setter statusPane := fun g w =>
  {| indicator := indicator w; stateText := stateText w; connectBtn := connectBtn w; statusPane := g (statusPane w); diagsPane := diagsPane w; bundlePane := bundlePane w; profilesPane := profilesPane w; settingsPane := settingsPane w; devicesPane := devicesPane w; tab := tab w; jobs := jobs w; notes := notes w; dialogs := dialogs w |}.
#[export] Instance set_diagsPane : Setter diagsPane := fun g w =>
  {| indicator := indicator w; stateText := stateText w; connectBtn := connectBtn w; statusPane := statusPane w; diagsPane := g (diagsPane w); bundlePane := bundlePane w; profilesPane := profilesPane w; settingsPane := settingsPane w; devicesPane := devicesPane w; tab := tab w; jobs := jobs w; notes := notes w; dialogs := dialogs w |}.
#[export] Instance set_bundlePane : Setter bundlePane := fun g w =>
  {| indicator := indicator w; stateText := stateText w; connectBtn := connectBtn w; statusPane := statusPane w; diagsPane := diagsPane w; bundlePane := g (bundlePane w); profilesPane := profilesPane w; settingsPane := settingsPane w; devicesPane := devicesPane w; tab := tab w; jobs := jobs w; notes := notes w; dialogs := dialogs w |}.
#[export] Instance set_profilesPane : Setter profilesPane := fun g w =>
  {| indicator := indicator w; stateText := stateText w; connectBtn := connectBtn w; statusPane := statusPane w; diagsPane := diagsPane w; bundlePane := bundlePane w; profilesPane := g (profilesPane w); settingsPane := settingsPane w; devicesPane := devicesPane w; tab := tab w; jobs := jobs w; notes := notes w; dialogs := dialogs w |}.
#[export] Instance set_settingsPane : Setter settingsPane := fun g w =>
  {| indicator := indicator w; stateText := stateText w; connectBtn := connectBtn w; statusPane := statusPane w; diagsPane := diagsPane w; bundlePane := bundlePane w; profilesPane := profilesPane w; settingsPane := g (settingsPane w); devicesPane := devicesPane w; tab := tab w; jobs := jobs w; notes := notes w; dialogs := dialogs w |}.
#[export] Instance set_devicesPane : Setter devicesPane := fun g w =>
  {| indicator := indicator w; stateText := stateText w; connectBtn := connectBtn w; statusPane := statusPane w; diagsPane := diagsPane w; bundlePane := bundlePane w; profilesPane := profilesPane w; settingsPane := settingsPane w; devicesPane := g (devicesPane w); tab := tab w; jobs := jobs w; notes := notes w; dialogs := dialogs w |}.
#[export] Instance set_tab : Setter tab := fun g w =>
  {| indicator := indicator w; stateText := stateText w; connectBtn := connectBtn w; statusPane := statusPane w; diagsPane := diagsPane w; bundlePane := bundlePane w; profilesPane := profilesPane w; settingsPane := settingsPane w; devicesPane := devicesPane w; tab := g (tab w); jobs := jobs w; notes := notes w; dialogs := dialogs w |}.
#[export] Instance set_jobs : Setter jobs := fun g w =>
  {| indicator := indicator w; stateText := stateText w; connectBtn := connectBtn w; statusPane := statusPane w; diagsPane := diagsPane w; bundlePane := bundlePane w; profilesPane := profilesPane w; settingsPane := settingsPane w; devicesPane := devicesPane w; tab := tab w; jobs := g (jobs w); notes := notes w; dialogs := dialogs w |}.
#[export] Instance set_notes : Setter notes := fun g w =>
  {| indicator := indicator w; stateText := stateText w; connectBtn := connectBtn w; statusPane := statusPane w; diagsPane := diagsPane w; bundlePane := bundlePane w; profilesPane := profilesPane w; settingsPane := settingsPane w; devicesPane := devicesPane w; tab := tab w; jobs := jobs w; notes := g (notes w); dialogs := dialogs w |}.
#[export] Instance set_dialogs : Setter dialogs := fun g w =>
  {| indicator := indicator w; stateText := stateText w; connectBtn := connectBtn w; statusPane := statusPane w; diagsPane := diagsPane w; bundlePane := bundlePane w; profilesPane := profilesPane w; settingsPane := settingsPane w; devicesPane := devicesPane w; tab := tab w; jobs := jobs w; notes := notes w; dialogs := g (dialogs w) |}.

(** What the environment supplies: texts of instants and numbers, files. *)
Class Shown := {
  format : Z -> string;
  since : Z -> string;
  age_text : Z -> string;
  rtt_text : PeerPing.Stats -> string;
  decimal : Z -> Z -> string;
  took : string;
  read_bundle : string -> result string chars }.

Section window.
Context {K : BundleCodec} {Sh : Shown} {Cl : Client}.

Abbreviation act A := (state (mainWindow * cstate) A).
Definition gui (f : mainWindow -> mainWindow) : act unit := fun w => (tt, (f w.1, w.2)).
Definition ask {A} (m : action cstate string A) : act (result string A) := fun w =>
  let '(r, c) := m w.2 in (r, (w.1, c)).
Definition look : act mainWindow := fun w => (w.1, w).
(** A pane's own refresh. *)
Definition on_pane {P} (get_ : mainWindow -> P) (put : P -> mainWindow -> mainWindow) (m : state (P * cstate) unit) : act unit := fun w =>
  let '(_, (p, c)) := m (get_ w.1, w.2) in (tt, (put p w.1, c)).
Definition start (j : job) : act unit := gui (fun w => w <| jobs := jobs w ++ [j] |>).

Definition refresh_status : act unit :=
  on_pane statusPane (fun p w => w <| statusPane := p |>) (StatusPane.Refresh format since age_text).
Definition refresh_diags : act unit := on_pane diagsPane (fun p w => w <| diagsPane := p |>) (DiagnosticsPane.Refresh format).
Definition refresh_settings : act unit := on_pane settingsPane (fun p w => w <| settingsPane := p |>) SettingsPane.Refresh.
Definition refresh_profiles : act unit := on_pane profilesPane (fun p w => w <| profilesPane := p |>) ProfilesPane.Refresh.
Definition refresh_devices : act unit :=
  on_pane devicesPane (fun p w => w <| devicesPane := p |>) (DevicesPane.Refresh rtt_text decimal).

(** ** The header *)
Definition applyState (s : State) (w : mainWindow) : mainWindow :=
  {| indicator := stateRGBA s; stateText := stateLabel s;
     connectBtn := match s with
                   | StateConnected => {| text := "Disconnect"; on := true |}
                   | StateConnecting => {| text := "Connecting..."; on := false |}
                   | _ => {| text := "Connect"; on := true |}
                   end;
     statusPane := statusPane w; diagsPane := diagsPane w; bundlePane := bundlePane w; profilesPane := profilesPane w;
     settingsPane := settingsPane w; devicesPane := devicesPane w; tab := tab w; jobs := jobs w; notes := notes w;
     dialogs := dialogs w |}.

Definition pollOnce : act unit :=
  r ← ask cGetStatus;
  match r with
  | Err _ => mret tt
  | Ok st =>
    _ ← gui (applyState (siState st));
    w ← look;
    match tab w with
    | 1 => gui (fun w => w <| statusPane := StatusPane.apply format since age_text st (statusPane w) |>)
    | 2 => start JDevices
    | 3 => start JProfiles
    | 4 => refresh_settings
    | 5 => refresh_diags
    | _ => mret tt
    end
  end.

Definition toggleConnection : act unit :=
  r ← ask cGetStatus;
  match r with
  | Err e => gui (fun w => w <| dialogs := dialogs w ++ [e] |>)
  | Ok st => start (JToggle (in_use (siState st)))
  end.

(** ** Goroutines *)
Definition onChanged : act unit := _ ← refresh_status; refresh_settings.
Definition run_toggle (down : bool) : act unit :=
  r ← ask (if down then cDisconnect else cConnect);
  _ ← gui (fun w => match r with
                    | Err e => w <| dialogs := dialogs w ++ [e] |> <| notes := notes w ++ [("Tunnel error", e)] |>
                    | Ok _ => w
                    end);
  pollOnce.
Definition run_import : act unit :=
  w ← look;
  r ← ask (cImportBundle (BundlePane.call_arg (bundlePane w)));
  w ← look;
  let '(p, applied) := BundlePane.finish format r (bundlePane w) in
  _ ← gui (fun w => w <| bundlePane := p |>);
  if applied : bool then
    _ ← gui (fun w => w <| notes := notes w ++ [("Bundle applied", "Tunnel configuration updated.")] |>);
    refresh_status
  else mret tt.
Definition run_set_mode (m : Mode) : act unit :=
  r ← ask (cSetMode m);
  w ← look;
  let '(p, changed) := SettingsPane.finish m r (settingsPane w) in
  _ ← gui (fun w => w <| settingsPane := p |>);
  if changed : bool then
    _ ← gui (fun w => w <| notes := notes w ++ [("Mode switched", "goat-client is now in " +:+ m +:+ ".")] |>);
    refresh_status
  else mret tt.
Definition run_switch (prof : Info) : act unit :=
  r ← ask (cSetActiveProfile (iSlug prof));
  w ← look;
  let '(p, changed) := ProfilesPane.finish_switch prof took r (profilesPane w) in
  _ ← gui (fun w => w <| profilesPane := p |>);
  _ ← (if changed : bool then onChanged else mret tt);
  refresh_profiles.
Definition run_rename (slug newName : string) : act unit :=
  r ← ask (cRenameProfile slug newName);
  w ← look;
  let '(p, changed) := ProfilesPane.finish_call r (profilesPane w) in
  _ ← gui (fun w => w <| profilesPane := p |>);
  if changed : bool then _ ← onChanged; refresh_profiles else mret tt.
Definition run_remove (slug : string) : act unit :=
  r ← ask (cRemoveProfile slug);
  w ← look;
  let '(p, changed) := ProfilesPane.finish_call r (profilesPane w) in
  _ ← gui (fun w => w <| profilesPane := p |>);
  if changed : bool then _ ← onChanged; refresh_profiles else mret tt.
Definition run_probe : act unit :=
  r ← ask cGetDiagnostics;
  gui (fun w => w <| diagsPane := DiagnosticsPane.finish_probe format r (diagsPane w) |>).
Definition run_send (pc : PeerConnectivity) (path : string) : act unit :=
  r ← ask (cSendFile (cIP pc) path);
  gui (fun w => w <| devicesPane := DevicesPane.finish_send pc r (devicesPane w) |>).
Definition run_job (j : job) : act unit :=
  match j with
  | JToggle down => run_toggle down
  | JImport => run_import
  | JSetMode m => run_set_mode m
  | JSwitch prof => run_switch prof
  | JRename slug newName => run_rename slug newName
  | JRemove slug => run_remove slug
  | JProbe => run_probe
  | JSend pc path => run_send pc path
  | JDevices => refresh_devices
  | JProfiles => refresh_profiles
  | JSettings => refresh_settings
  end.

(** ** Events *)
Inductive win_event :=
  | WTick
  | WTab (i : nat)
  | WConnect
  | WMode (option : string) | WApplyMode
  | WDrop (paths : list string) | WOpen (x : BundlePane.picked) | WApplyBundle
  | WProfile (i : nat) | WSwitch | WRename (newName : string) | WRemove
  | WPeer (i : nat) | WSend (path : string)
  | WTest | WRefreshStatus | WRefreshDevices | WRefreshDiags
  | WRun (i : nat).

Definition on_event (e : win_event) (w : mainWindow) : act unit :=
  match e with
  | WTick => pollOnce
  | WTab i => gui (fun w => w <| tab := i |>)
  | WConnect => if on (connectBtn w) then toggleConnection else mret tt
  | WMode o => gui (fun w => w <| settingsPane := SettingsPane.pick o (settingsPane w) |>)
  | WApplyMode =>
    if SettingsPane.applyBtn (settingsPane w) then
      let '(p, target) := SettingsPane.begin (settingsPane w) in
      _ ← gui (fun w => w <| settingsPane := p |>);
      match target with Some m => start (JSetMode m) | None => mret tt end
    else mret tt
  | WDrop paths => gui (fun w => w <| tab := 0 |> <| bundlePane := BundlePane.HandleDroppedFiles format read_bundle paths (bundlePane w) |>)
  | WOpen x =>
    if BundlePane.pickButton (bundlePane w)
    then gui (fun w => w <| bundlePane := BundlePane.openFilePicker format x (bundlePane w) |>) else mret tt
  | WApplyBundle =>
    if BundlePane.applyButton (bundlePane w) then
      let '(p, go) := BundlePane.begin (bundlePane w) in
      _ ← gui (fun w => w <| bundlePane := p |>);
      if go : bool then start JImport else mret tt
    else mret tt
  | WProfile i =>
    if i <? length (ProfilesPane.profiles (profilesPane w))
    then gui (fun w => w <| profilesPane := ProfilesPane.on_selected (Z.of_nat i) (profilesPane w) |>) else mret tt
  | WSwitch =>
    if ProfilesPane.switchBtn (profilesPane w) then
      let '(p, prof) := ProfilesPane.begin_switch (profilesPane w) in
      _ ← gui (fun w => w <| profilesPane := p |>);
      match prof with Some prof => start (JSwitch prof) | None => mret tt end
    else mret tt
  | WRename newName =>
    if ProfilesPane.renameBtn (profilesPane w) then
      match ProfilesPane.selectedProfile (profilesPane w) with
      | Some prof =>
        match ProfilesPane.begin_rename prof newName with
        | Some (slug, newName) => start (JRename slug newName)
        | None => mret tt
        end
      | None => mret tt
      end
    else mret tt
  | WRemove =>
    if ProfilesPane.removeBtn (profilesPane w) then
      match ProfilesPane.selectedProfile (profilesPane w) with
      | Some prof => start (JRemove (iSlug prof))
      | None => mret tt
      end
    else mret tt
  | WPeer i =>
    if i <? length (DevicesPane.peers (devicesPane w))
    then gui (fun w => w <| devicesPane := DevicesPane.on_selected rtt_text (Z.of_nat i) (devicesPane w) |>) else mret tt
  | WSend path =>
    match DevicesPane.selected_peer (devicesPane w) with
    | Some pc =>
      _ ← gui (fun w => w <| devicesPane := DevicesPane.begin_send path pc (devicesPane w) |>);
      start (JSend pc path)
    | None => mret tt
    end
  | WTest => _ ← gui (fun w => w <| diagsPane := DiagnosticsPane.begin_probe (diagsPane w) |>); start JProbe
  | WRefreshStatus => refresh_status
  | WRefreshDevices => refresh_devices
  | WRefreshDiags => refresh_diags
  | WRun i =>
    match jobs w !! i with
    | Some j => _ ← gui (fun w => w <| jobs := take i (jobs w) ++ drop (S i) (jobs w) |>); run_job j
    | None => mret tt
    end
  end.

Definition handle_event (e : win_event) : act unit := w ← look; on_event e w.

(** The window as it opens. *)
Definition bare_window : mainWindow :=
  {| indicator := stateRGBA StateDisconnected; stateText := stateLabel StateDisconnected;
     connectBtn := {| text := "Connect"; on := true |}; statusPane := StatusPane.newStatusPane;
     diagsPane := DiagnosticsPane.newDiagnosticsPane; bundlePane := BundlePane.newBundlePane;
     profilesPane := ProfilesPane.newProfilesPane; settingsPane := SettingsPane.newSettingsPane;
     devicesPane := DevicesPane.newDevicesPane; tab := 0; jobs := []; notes := []; dialogs := [] |}.
Definition newMainWindow : act unit :=
  _ ← refresh_status; _ ← refresh_diags;
  _ ← on_pane bundlePane (fun p w => w <| bundlePane := p |>) (BundlePane.refreshCurrentFromDaemon format);
  start JSettings.

(** A tick shows the state it reads in the header. *)
Lemma tick_applies_state w c st c' :
  cGetStatus c = (Ok st, c') ->
  connectBtn (handle_event WTick (w, c)).2.1 = connectBtn (applyState (siState st) w) /\
  stateText (handle_event WTick (w, c)).2.1 = stateLabel (siState st).
Proof.
  intros E. unfold handle_event, on_event, pollOnce, look, ask, gui, mbind, state_bind. cbn [fst snd]. rewrite E. cbn [fst snd applyState tab].
  destruct (tab w) as [|[|[|[|[|[|]]]]]]; try done.
  - unfold refresh_settings, on_pane. by destruct (SettingsPane.Refresh _) as [u [p c1]].
  - unfold refresh_diags, on_pane. by destruct (DiagnosticsPane.Refresh _ _) as [u [p c1]].
Qed.

(** ** Without a click that acts, the window only reads *)

(** The clicks that ask the daemon for something. *)
Definition acts (e : win_event) : bool :=
  match e with
  | WConnect | WApplyMode | WApplyBundle | WSwitch | WRename _ | WRemove | WSend _ => true
  | _ => false
  end.
(** The goroutines that only read. *)
Definition reads (j : job) : bool :=
  match j with JProbe | JDevices | JProfiles | JSettings => true | _ => false end.

Section reading.
(** [R]: what the calls that read may do to the client. *)
Context (R : relation cstate) `{!PreOrder R}.
Record reading_calls : Prop := {
  rc_status : forall c, R c (cGetStatus c).2;
  rc_diags : forall c, R c (cGetDiagnostics c).2;
  rc_mode : forall c, R c (cGetMode c).2;
  rc_profiles : forall c, R c (cListProfiles c).2;
  rc_peers : forall c, R c (cGetPeerConnectivity c).2;
  rc_files : forall c, R c (cGetIncomingFiles c).2 }.
Context (Hr : reading_calls).

Definition all_read (w : mainWindow) : Prop := Forall (fun j => reads j = true) (jobs w).
(** [m] reads, and starts nothing but reading. *)
Definition harmless {A} (m : act A) : Prop := forall w, all_read w.1 -> R w.2 (m w).2.2 /\ all_read (m w).2.1.

Lemma harmless_ret {A} (a : A) : harmless (mret a).
Proof. by intros w. Qed.
Lemma harmless_bind {A B} (m : act A) (f : A -> act B) :
  harmless m -> (forall a, harmless (f a)) -> harmless (m ≫= f).
Proof.
  intros Hm Hf w Hw. unfold mbind, state_bind. destruct (Hm w Hw) as [H1 H2]. destruct (m w) as [a w1]. cbn [snd] in *.
  destruct (Hf a w1 H2) as [H3 H4]. split; [by etrans|done].
Qed.
Lemma harmless_look : harmless look.
Proof. by intros w. Qed.
Lemma harmless_gui f : (forall w, all_read w -> all_read (f w)) -> harmless (gui f).
Proof. intros Hf w Hw. split; [done|]. by apply Hf. Qed.
Lemma harmless_ask {A} (m : action cstate string A) : (forall c, R c (m c).2) -> harmless (ask m).
Proof. intros Hm w Hw. unfold ask. specialize (Hm w.2). by destruct (m w.2). Qed.
Lemma harmless_pane {P} (g : mainWindow -> P) (put : P -> mainWindow -> mainWindow) (m : state (P * cstate) unit) :
  (forall p w, jobs (put p w) = jobs w) -> (forall p c, R c (m (p, c)).2.2) -> harmless (on_pane g put m).
Proof.
  intros Hp Hm w Hw. unfold on_pane. specialize (Hm (g w.1) w.2). destruct (m (g w.1, w.2)) as [u [p c]]. cbn in *.
  split; [done|]. unfold all_read. by rewrite Hp.
Qed.
Lemma harmless_start j : reads j = true -> harmless (start j).
Proof. intros Hj. apply harmless_gui. intros w Hw. apply Forall_app. split; [done|by constructor]. Qed.

Lemma harmless_status : harmless refresh_status.
Proof. apply harmless_pane; [done|]. intros p c. unfold StatusPane.Refresh. cbn [fst snd]. pose proof (rc_status Hr c). by destruct (cGetStatus c). Qed.
Lemma harmless_diags : harmless refresh_diags.
Proof. apply harmless_pane; [done|]. intros p c. unfold DiagnosticsPane.Refresh. cbn [fst snd]. pose proof (rc_diags Hr c). by destruct (cGetDiagnostics c). Qed.
Lemma harmless_settings : harmless refresh_settings.
Proof. apply harmless_pane; [done|]. intros p c. unfold SettingsPane.Refresh. cbn [fst snd]. pose proof (rc_mode Hr c). by destruct (cGetMode c). Qed.
Lemma harmless_profiles : harmless refresh_profiles.
Proof. apply harmless_pane; [done|]. intros p c. unfold ProfilesPane.Refresh. cbn [fst snd]. pose proof (rc_profiles Hr c). by destruct (cListProfiles c). Qed.
Lemma harmless_devices : harmless refresh_devices.
Proof.
  apply harmless_pane; [done|]. intros p c. unfold DevicesPane.Refresh. cbn [fst snd]. pose proof (rc_peers Hr c) as H1.
  destruct (cGetPeerConnectivity c) as [[l|e] c1]; [|done]. pose proof (rc_files Hr c1) as H2.
  destruct (cGetIncomingFiles c1) as [ri c2]. cbn in *. by etrans.
Qed.
Lemma harmless_poll : harmless pollOnce.
Proof.
  apply harmless_bind; [apply harmless_ask, Hr|]. intros [st|e]; [|apply harmless_ret].
  apply harmless_bind; [by apply harmless_gui|]. intros _. apply harmless_bind; [apply harmless_look|]. intros w.
  destruct (tab w) as [|[|[|[|[|[|]]]]]]; try apply harmless_ret.
  - by apply harmless_gui.
  - by apply harmless_start.
  - by apply harmless_start.
  - apply harmless_settings.
  - apply harmless_diags.
Qed.
Lemma harmless_job j : reads j = true -> harmless (run_job j).
Proof.
  destruct j; try discriminate; intros _; cbn [run_job].
  - apply harmless_bind; [apply harmless_ask, Hr|]. intros r. by apply harmless_gui.
  - apply harmless_devices.
  - apply harmless_profiles.
  - apply harmless_settings.
Qed.
Lemma harmless_event e : acts e = false -> harmless (handle_event e).
Proof.
  intros He w Hw. change (handle_event e w) with (on_event e w.1 w).
  destruct e as [|i| |o| |paths|x| |i| |n| |i|path| | | | |i]; try discriminate; cbn [on_event].
  - by apply harmless_poll.
  - by apply harmless_gui.
  - by apply harmless_gui.
  - by apply harmless_gui.
  - destruct (BundlePane.pickButton _); [by apply harmless_gui|by apply harmless_ret].
  - destruct (i <? _); [by apply harmless_gui|by apply harmless_ret].
  - destruct (i <? _); [by apply harmless_gui|by apply harmless_ret].
  - revert w Hw. apply harmless_bind; [by apply harmless_gui|]. intros _. by apply harmless_start.
  - by apply harmless_status.
  - by apply harmless_devices.
  - by apply harmless_diags.
  - destruct (jobs w.1 !! i) as [j|] eqn:Ej; [|by apply harmless_ret].
    assert (reads j = true) as Hj by (apply list_elem_of_lookup_2 in Ej; unfold all_read in Hw; rewrite Forall_forall in Hw; auto).
    revert w Hw Ej. intros w Hw _. revert w Hw. apply harmless_bind; [|intros _; by apply harmless_job].
    apply harmless_gui. intros w Hw. apply Forall_app. split; [by apply Forall_take|by apply Forall_drop].
Qed.

Definition after (es : list win_event) (w : mainWindow * cstate) : mainWindow * cstate :=
  foldl (fun w e => (handle_event e w).2) w es.
Lemma idle_reads es w :
  Forall (fun e => acts e = false) es -> all_read w.1 -> R w.2 (after es w).2 /\ all_read (after es w).1.
Proof.
  unfold after. revert w. induction es as [|e es IH]; intros w Hes Hw; [done|]. apply Forall_cons in Hes as [He Hes].
  destruct (harmless_event e He w Hw) as [H1 H2]. cbn [foldl]. destruct (IH (handle_event e w).2 Hes H2) as [H3 H4].
  split; [by etrans|done].
Qed.
End reading.
End window.

(** ** Oddities of the window *)
Section oddities.
Context {K : BundleCodec} {Sh : Shown}.

(** The header takes the outer tunnel's state alone: with only the mesh in use it
    offers to connect, and asks for that, where the tray offers to disconnect. *)
Lemma mesh_only_window_cannot_disconnect mask encode st w t :
  shown_mode (siMode st) = NetbirdOnly -> siState st = StateDisconnected -> inner_state st = StateConnected ->
  connectBtn (applyState (siState st) w) = {| text := "Connect"; on := true |} /\ in_use (siState st) = false /\
  enabled (mDisconnect (apply_status mask encode st t)) = true.
Proof. intros Hm Ho Hi. cbn [apply_status mDisconnect Enable enabled]. by rewrite Hm, Ho, Hi. Qed.

(** A status with an error leaves its text when a later one has none. *)
Lemma stale_error st st' p :
  siErrorMessage st <> "" -> siErrorMessage st' = "" ->
  StatusPane.errorMessage (StatusPane.apply format since age_text st' (StatusPane.apply format since age_text st p)) = siErrorMessage st.
Proof. intros H1 H2. unfold StatusPane.apply. cbn. by rewrite H2, (bool_decide_eq_false_2 _ H1). Qed.

(** A tick while the settings are in front takes back the choice of a mode. *)
Lemma tick_takes_choice_back m o p :
  Valid m = true ->
  SettingsPane.begin (SettingsPane.heard m (SettingsPane.pick o p)) =
  ({| SettingsPane.radio := Display m; SettingsPane.current := Display m; SettingsPane.applyBtn := SettingsPane.applyBtn p;
      SettingsPane.progress := SettingsPane.progress p; SettingsPane.status := "Already in this mode.";
      SettingsPane.activeMode := m; SettingsPane.dialogs := SettingsPane.dialogs p ++ [] |}, None).
Proof.
  rewrite Valid_spec, !elem_of_cons, elem_of_nil. intros [->|[->|[->|[]]]]; destruct p; vm_compute; reflexivity.
Qed.

(** A tick while a switch is under way enables the buttons it disabled. *)
Lemma tick_enables_switch p l i prof :
  ProfilesPane.selectedIdx p = Z.of_nat i -> ProfilesPane.profiles p !! i = Some prof -> l !! i = Some prof -> iActive prof = false ->
  ProfilesPane.switchBtn (ProfilesPane.begin_switch p).1 = false /\
  ProfilesPane.switchBtn (ProfilesPane.listed l (ProfilesPane.begin_switch p).1) = true.
Proof.
  intros Hi Hp Hl Ha. unfold ProfilesPane.begin_switch, ProfilesPane.listed, ProfilesPane.updateButtonState, ProfilesPane.selectedProfile.
  rewrite Hi. destruct (Z.ltb_spec (Z.of_nat i) 0) as [|_]; [lia|]. rewrite Nat2Z.id, Hp.
  cbn [ProfilesPane.selectedIdx ProfilesPane.profiles ProfilesPane.say ProfilesPane.with_buttons fst].
  rewrite Hi. destruct (Z.ltb_spec (Z.of_nat i) 0) as [|_]; [lia|]. rewrite Nat2Z.id, Hl. cbn. by rewrite Ha.
Qed.

(** A bundle loaded while another is imported is forgotten when that one is in,
    and the button to apply it stays enabled. *)
Lemma bundle_loaded_meanwhile_lost raw path info p :
  is_ok (Preview base64_encode raw) = true ->
  let p' := (BundlePane.finish format (Ok info) (BundlePane.loadFromBytes format raw path p)).1 in
  BundlePane.currentRaw p' = None /\ BundlePane.applyButton p' = true /\ BundlePane.begin p' = (p', false).
Proof. intros Hp. unfold BundlePane.loadFromBytes. by destruct (Preview base64_encode raw). Qed.
End oddities.
