(* ===== verification/DaemonGui.v ===== *)
(** The desktop on the daemon: the tray of Tray.v and the window of Window.v,
    each a process with its own connection, over the client of DaemonClient.v and
    the daemon of Daemon.v. *)
From stdpp Require Import base tactics sets list gmap strings.
From Stdlib Require Import ZArith Ascii Lia.
From S2P Require Import DnsAdapter.
From S2P Require Import Prelude GoStr GoFmt Fs.
From S2P Require Import Mode.
From S2P Require Import Bundle.
From S2P Require Import Profile.
From S2P Require Import ProfileSpec.
From S2P Require Import PeerPing.
From S2P Require Import Tunnel.
From S2P Require Import InnerMesh.
From S2P Require Import FileDrop.
From S2P Require Import Ipc.
From S2P Require Import Daemon.
From S2P Require Import DaemonSpec.
From S2P Require Import DaemonFiles.
From S2P Require Import DaemonPeers.
From S2P Require Import GoFloat.
From S2P Require Import DaemonIpc.
From S2P Require Import ClientApi.
From S2P Require Import StubClient.
From S2P Require Import DaemonClient.
From S2P Require Import Cli.
From S2P Require Import DaemonCli.
From S2P Require Import Tray.
From S2P Require Import Panes.
From S2P Require Import Window.
Local Open Scope list_scope.

Section gui.
Context {K : BundleCodec} {C : Crypto} {J : RawJson} {N : NetipLib} {U : NetText} {H : HostDNS}
  {T : TunnelManager} {M : Mesh} {P : PeerConn}.
Context (platform : os) (meshFactory : mesh) (cfg : Config).
Context (envs : nat -> Env) {W : Type} (do_request : string -> Request -> state W (result string Response))
  (files : string -> local_file) (names_status : NamesSvc -> NamesSnapshot).
Context {X : ReplyText} {IJ : IpcJson} {CJ : ClientJson}.
Context (dp : Dispatcher) (net_err : string).
Context {Sh : Shown} (mask : option silhouette) (encode : image -> option chars).

Abbreviation Conn := (conn (W := W)).
Abbreviation Host := (Host (W := W)).
Abbreviation running st := (reachable (daemon_step platform meshFactory cfg) (boots platform meshFactory cfg st)).
Abbreviation works := (json_works platform meshFactory cfg envs do_request files names_status).
Abbreviation client in_time := (realClient platform meshFactory cfg envs do_request files names_status dp net_err in_time).
Abbreviation rpc := (rpc_call platform meshFactory cfg envs do_request files names_status dp net_err).
Abbreviation invoke_host := (invoke_daemon platform meshFactory cfg envs do_request files names_status).

#[local] Instance handler : Handler := daemon_handler platform meshFactory cfg envs do_request files names_status.

(** ** Reading leaves the daemon as it is *)

(** encoding/json keeps the method names of the calls that read. *)
Definition method_kept : Prop :=
  forall c q q', mutates c = false -> QMethod q = method_name c -> json_request (request_line q) = Ok q' -> QMethod q' = QMethod q.

Lemma rpc_reads in_time c s : method_kept -> mutates c = false -> same_host (peer s) (peer (rpc in_time c s).2).
Proof.
  intros Hk Hc. unfold rpc_call. destruct (params_text c) as [params|e]; [|done]. cbv zeta.
  set (q := {| QJSONRPC := _ |}).
  assert (same_host (peer s) (Serve (H := handler) dp (fun _ => false) (fun _ => true) 0 [request_line q] (peer s)).2) as Hs.
  { cbn [Serve]. destruct (too_long _); [done|]. destruct (json_request (request_line q)) as [q'|e] eqn:Ej; [|done].
    pose proof (handle_admitted (H := handler) dp (request_line q) q' (peer s) Ej) as [Hh _].
    destruct (Ipc.handle (H := handler) dp q' (peer s)) as [resp h']. cbn [fst snd negb] in *. rewrite Hh.
    unfold admitted_call. rewrite Ej. destruct (_ || _); [reflexivity|]. destruct (_ && _); [reflexivity|].
    destruct (decode_call (QMethod q') (QParams q')) as [[c'|e]|] eqn:Ed; [|reflexivity..]. apply decode_call_mutates in Ed.
    rewrite (Hk c q q' Hc eq_refl Ej) in Ed. cbn [QMethod q] in Ed. rewrite method_mutates, Hc in Ed.
    exact (invoke_read_only platform meshFactory cfg envs do_request files names_status c' (peer s) Ed). }
  destruct (Serve _ _ _ _ _ _) as [[out r] h]. cbn [snd] in Hs.
  destruct out as [|resp out]; [destruct (unread (rpc_client s))|destruct (client_call _ _ _)]; exact Hs.
Qed.

Definition same_peer : relation Conn := fun s s' => same_host (peer s) (peer s').
#[local] Instance same_peer_pre : PreOrder same_peer.
Proof. split; [by intros s|]. intros s1 s2 s3 H1 H2. unfold same_peer in *. by etrans. Qed.

Lemma ask_reads in_time {A} c (f : reply_data -> option A) s :
  method_kept -> mutates c = false ->
  same_peer s (DaemonClient.ask platform meshFactory cfg envs do_request files names_status dp net_err in_time c f s).2.
Proof.
  intros Hk Hc. unfold same_peer, DaemonClient.ask, mbind, action_bind. pose proof (rpc_reads in_time c s Hk Hc) as Hs.
  by destruct (rpc in_time c s) as [[r|e] s'].
Qed.
Lemma client_reads in_time : method_kept -> reading_calls (Cl := client in_time) same_peer.
Proof. intros Hk. split; intros s; by apply ask_reads. Qed.

(** ** Two processes on one daemon *)
Record desktop := {
  tray_of : trayApp;
  tray_conn : rpcClient;
  window_of : mainWindow;
  window_conn : rpcClient;
  desk_host : Host }.

(** [in_time]: whether the calls of the event are answered in time. *)
Inductive desk_event := Menu (in_time : bool) (e : tray_event) | Win (in_time : bool) (e : win_event).
Definition do_desk (D : desktop) (e : desk_event) : desktop :=
  match e with
  | Menu b e =>
    let '(t, s) := (Tray.handle_event (Cl := client b) mask encode e (tray_of D, {| rpc_client := tray_conn D; peer := desk_host D |})).2 in
    {| tray_of := t; tray_conn := rpc_client s; window_of := window_of D; window_conn := window_conn D; desk_host := peer s |}
  | Win b e =>
    let '(w, s) := (Window.handle_event (Cl := client b) e (window_of D, {| rpc_client := window_conn D; peer := desk_host D |})).2 in
    {| tray_of := tray_of D; tray_conn := tray_conn D; window_of := w; window_conn := rpc_client s; desk_host := peer s |}
  end.
(** Nobody clicks anything that acts. *)
Definition idle (e : desk_event) : bool :=
  match e with Menu _ Tick => true | Menu _ _ => false | Win _ e => negb (acts e) end.

(** C13: An open desktop only watches. Whatever tabs are shown, whatever lines are
    selected, whatever is loaded and probed and however often the two processes
    poll, in any order, answered in time or not: while nobody clicks anything that
    acts, the daemon is as it was but for cached counters, and the window has no
    call under way that could change it. *)
Theorem gui_idle_changes_nothing (es : list desk_event) (D : desktop) :
  method_kept -> Forall (fun e => idle e = true) es -> all_read (window_of D) ->
  let D' := foldl do_desk D es in same_host (desk_host D) (desk_host D') /\ all_read (window_of D').
Proof.
  intros Hk. cbv zeta. revert D. induction es as [|e es IH]; intros D Hes Hw; [by split|].
  apply Forall_cons in Hes as [He Hes]. cbn [foldl].
  assert (same_host (desk_host D) (desk_host (do_desk D e)) /\ all_read (window_of (do_desk D e))) as [H1 H2].
  { destruct e as [b [| | |i]|b e]; try discriminate He; cbn [do_desk].
    - destruct (client_reads b Hk) as [Hs _ _ Hl _ _].
      pose proof (tick_reads (Cl := client b) mask encode same_peer (tray_of D, {| rpc_client := tray_conn D; peer := desk_host D |}) Hs Hl) as Ht.
      by destruct (Tray.handle_event (Cl := client b) mask encode Tick _) as [u [t s]].
    - apply negb_true_iff in He.
      pose proof (harmless_event (Cl := client b) same_peer (client_reads b Hk) e He
        (window_of D, {| rpc_client := window_conn D; peer := desk_host D |}) Hw) as Ht.
      by destruct (Window.handle_event (Cl := client b) e _) as [u [w s]]. }
  destruct (IH (do_desk D e) Hes H2) as [H3 H4]. split; [by etrans|done].
Qed.

(** ** What the menu and the header offer *)
Definition outer_in_use (d : Daemon) : bool :=
  IncludesWGCP0 (currentMode d) && bool_decide (is_Some (currentBundle d)) &&
  bool_decide (t_state (manager d) ∈ [Tunnel.StateUp; Tunnel.StateConfiguring]).
Definition inner_in_use (d : Daemon) : bool :=
  IncludesNetbird (currentMode d) &&
  match dmesh d with Some h => bool_decide (mesh_state h ∈ [InnerMesh.StateUp; InnerMesh.StateConfiguring]) | None => false end.

(** The client's status is the daemon's. *)
Lemma client_status s :
  works CGetStatus s -> unread (rpc_client s) = [] ->
  exists r s', cGetStatus (Client := client true) s = (Ok (status_info r), s') /\
    same_host (peer s) (peer s') /\ exists d', Daemon.GetStatus (E := daemon_error) cfg names_status (daemon (peer s)) = (Ok r, d').
Proof.
  intros Hw Hu. pose proof (rpc_call_eq platform meshFactory cfg envs do_request files names_status dp net_err _ s Hw Hu) as Hc.
  pose proof (invoke_read_only platform meshFactory cfg envs do_request files names_status CGetStatus (peer s) eq_refl) as Ho.
  cbn [mutates andb] in Hc. cbn [invoke_daemon] in Hc, Ho. unfold on_daemon in Hc, Ho.
  destruct (GetStatus_ok cfg names_status (daemon (peer s))) as (r & d' & E). rewrite E in Hc, Ho. cbn [reply_of map_err snd] in Hc, Ho.
  exists r. eexists. split; [|split; [|by exists d']]; cbn [cGetStatus realClient]; unfold DaemonClient.GetStatus.
  - eapply ask_ok; [exact Hc|reflexivity].
  - exact Ho.
Qed.

Lemma outer_shown d d' r :
  Daemon.GetStatus (E := daemon_error) cfg names_status d = (Ok r, d') ->
  in_use (siState (status_info r)) = outer_in_use d.
Proof.
  intros (Hs & _ & _ & _)%GetStatus_reply. cbn [status_info siState]. rewrite Hs. unfold outer_in_use, mapTunnelState.
  destruct (IncludesWGCP0 (currentMode d)), (bool_decide (is_Some (currentBundle d))); cbn [negb andb]; try done.
  by destruct (t_state (manager d)).
Qed.
Lemma inner_shown d d' r :
  Daemon.GetStatus (E := daemon_error) cfg names_status d = (Ok r, d') ->
  IncludesNetbird (currentMode d) && in_use (inner_state (status_info r)) = inner_in_use d.
Proof.
  intros (_ & Hm & _ & _)%GetStatus_reply. unfold inner_state. cbn [status_info siInnerMesh]. rewrite Hm. unfold inner_in_use.
  destruct (IncludesNetbird (currentMode d)), (dmesh d) as [h|]; cbn [andb fmap option_fmap option_map from_option]; try done.
  cbn. by destruct (mesh_state h).
Qed.
Lemma shown_mode_of_valid m : Valid m = true -> shown_mode m = m.
Proof. intros Hm. unfold shown_mode. cbv zeta. by rewrite (Parse_of_valid _ Hm), Hm. Qed.

(** C12: The desktop offers what can be done. Against a running daemon, when a poll
    is answered, the tray offers Disconnect and not Connect exactly when a leg of
    the mode in force is up or coming up - the outer tunnel with a bundle loaded,
    the mesh with its handle - and Connect and not Disconnect otherwise; the mode
    it names is the daemon's. The window's button goes by the outer tunnel alone:
    it offers to disconnect when that is up and waits when it is coming up. *)
Theorem desktop_offers_what_runs (st : pworld) (t : trayApp) (w : mainWindow) (s : Conn) :
  mesh_state meshFactory <> InnerMesh.StateUp -> running st (daemon (peer s)) ->
  works CGetStatus s -> unread (rpc_client s) = [] ->
  let d := daemon (peer s) in
  let t' := (Tray.handle_event (Cl := client true) mask encode Tick (t, s)).2.1 in
  let w' := (Window.handle_event (Cl := client true) WTick (w, s)).2.1 in
  lastMode t' = currentMode d /\
  enabled (mDisconnect t') = outer_in_use d || inner_in_use d /\
  enabled (mConnect t') = negb (outer_in_use d || inner_in_use d) /\
  (text (connectBtn w') = "Disconnect" <-> outer_in_use d = true /\ t_state (manager d) = Tunnel.StateUp) /\
  (on (connectBtn w') = false <-> outer_in_use d = true /\ t_state (manager d) = Tunnel.StateConfiguring).
Proof.
  intros Hf Hr Hw Hu d t' w'. destruct (reachable_legs platform meshFactory cfg st d Hf Hr) as [Hv _ _ _].
  destruct (client_status s Hw Hu) as (r & s1 & E & _ & d' & Ed).
  destruct (tick_applies (Cl := client true) mask encode t s _ _ E) as (t1 & Ht).
  destruct (tick_applies_state (Cl := client true) w s _ _ E) as [Hb _].
  assert (t' = apply_status mask encode (status_info r) t1) as -> by exact (f_equal fst Ht).
  change (connectBtn w' = connectBtn (applyState (siState (status_info r)) w)) in Hb. rewrite Hb. clear Ht Hb. pose proof (outer_shown _ _ _ Ed) as Ho. pose proof (inner_shown _ _ _ Ed) as Hi.
  destruct (GetStatus_reply _ _ _ _ _ Ed) as (Hs & _ & Hm & _). fold d in Ho, Hi, Hs, Hm.
  cbn [apply_status fst lastMode mDisconnect mConnect Enable enabled]. cbv zeta.
  assert (shown_mode (siMode (status_info r)) = currentMode d) as -> by (cbn; rewrite Hm; by apply shown_mode_of_valid).
  assert (any_leg (currentMode d) (siState (status_info r)) (inner_state (status_info r)) = outer_in_use d || inner_in_use d) as ->.
  { unfold any_leg. rewrite Hi, Ho. unfold outer_in_use. by destruct (IncludesWGCP0 (currentMode d)). }
  split_and!; [done..| |]; clear Ho Hi; cbn [applyState connectBtn status_info siState]; rewrite Hs; unfold outer_in_use, mapTunnelState;
    destruct (IncludesWGCP0 (currentMode d)), (bool_decide (is_Some (currentBundle d))), (t_state (manager d)); cbn; naive_solver.
Qed.

(** Without the outer tunnel in the mode the window never offers to disconnect. *)
Lemma mesh_only_header st w s :
  mesh_state meshFactory <> InnerMesh.StateUp -> running st (daemon (peer s)) ->
  works CGetStatus s -> unread (rpc_client s) = [] -> IncludesWGCP0 (currentMode (daemon (peer s))) = false ->
  connectBtn (Window.handle_event (Cl := client true) WTick (w, s)).2.1 = {| text := "Connect"; on := true |}.
Proof.
  intros Hf Hr Hw Hu Hm. destruct (client_status s Hw Hu) as (r & s1 & E & _ & d' & Ed).
  destruct (tick_applies_state (Cl := client true) w s _ _ E) as [Hb _]. refine (eq_trans Hb _).
  destruct (GetStatus_reply _ _ _ _ _ Ed) as (Hs & _). rewrite Hm in Hs. cbn [applyState connectBtn status_info siState].
  rewrite Hs. by case_bool_decide.
Qed.
End gui.

(** ** A desktop on the toy daemon *)
Module ToyGui.
Import ToyDaemon ToyClient.
#[export] Existing Instance ToySession.conn.
#[local] Instance shown : Shown := {|
  format := itoa; since := itoa; age_text := AgeHuman; rtt_text := GoFloat.rtt_text; decimal := GoFloat.decimal; took := "1s";
  read_bundle _ := Err "no such file" |}.
Definition no_png (i : image) : option chars := None.
Abbreviation desk := (do_desk Linux new_mesh cfg (fun _ => env) ToySession.no_network ToySession.no_files ToySession.names_of
                        ToySession.owner "timeout" None no_png).
Definition menu : trayApp := onReady None no_png.
Definition opened : desktop (W := unit) :=
  {| tray_of := menu; tray_conn := {| gen := 0; unread := [] |}; window_of := bare_window;
     window_conn := {| gen := 0; unread := [] |}; desk_host := ToyClient.host_of connected |}.

Lemma kept : method_kept.
Proof. intros c q q' _ _. cbn [json_request json]. by rewrite read_request_eq; intros [= ->]. Qed.

(** Every tab is looked at, a file is dropped and a probe run, with and without
    answers in time. *)
Definition browsing : list desk_event :=
  [Menu true Tick; Win true (WTab 4); Win true WTick; Win false (WTab 5); Win false WTick; Menu false Tick; Win true (WTab 2);
   Win true WTick; Win true (WRun 0); Win true WTest; Win true (WRun 0); Win true (WDrop ["x"]); Win true WRefreshStatus].
Lemma gui_idle_changes_nothing_witness :
  observes connected (daemon (desk_host (foldl desk opened browsing))) /\ all_read (window_of (foldl desk opened browsing)).
Proof.
  destruct (gui_idle_changes_nothing Linux new_mesh cfg (fun _ => env) ToySession.no_network ToySession.no_files ToySession.names_of
    ToySession.owner "timeout" None no_png browsing opened kept) as [[Ho _ _ _ _] Hr].
  - repeat constructor.
  - constructor.
  - split; [exact Ho|exact Hr].
Defined.

Lemma desktop_offers_what_runs_witness :
  let t := (Tray.handle_event (Cl := client ToySession.guest) None no_png Tick (menu, fresh connected)).2.1 in
  let w := (Window.handle_event (Cl := client ToySession.guest) WTick (bare_window, fresh connected)).2.1 in
  enabled (mDisconnect t) = true /\ enabled (mConnect t) = false /\ Panes.text (connectBtn w) = "Disconnect".
Proof.
  destruct (desktop_offers_what_runs Linux new_mesh cfg (fun _ => env) ToySession.no_network ToySession.no_files ToySession.names_of
    ToySession.guest "timeout" None no_png empty_store menu bare_window (fresh connected)
    ToyCli.factory_down reaches_connected works_status eq_refl) as (_ & Hd & Hc & Hb & _).
  assert (outer_in_use connected = true) as Ho by (vm_compute; reflexivity).
  change (daemon (peer (fresh connected))) with connected in *. rewrite Ho in *.
  split; [exact Hd|]. split; [exact Hc|]. apply Hb. split; [reflexivity|vm_compute; reflexivity].
Defined.

(** After a disconnect the diagnostics still say the peer is reachable. *)
Example reachable_when_down :
  let d := run EvDisconnect connected in
  t_state (manager d) = Tunnel.StateClosed /\
  DiagnosticsPane.renderProbe itoa (diagnostics_of (DaemonIpc.GetDiagnostics (ToyClient.host_of d))) = "Reachable as of 5".
Proof. by vm_compute. Qed.
End ToyGui.
